(* ===== verification/_CoqProject ===== *)
-Q . S2P
Prelude.v
Base64.v
Crates.v
Codec.v
Session.v
Account.v
OAuthDomain.v
Network.v
Edge.v
Crypto.v
Tables.v
App.v
Outside.v
RedisCounter.v
SessionRepo.v
Repos.v
Tokens.v
UserRepo.v
AccessRepo.v
TokenRepo.v
AccountsOk.v
Scenario.v
TokensCorrect.v
Refresh.v
RefreshCorrect.v
Login.v
LoginCorrect.v
SecondFactor.v
SecondFactorCorrect.v
OneTime.v
OneTimeCorrect.v
SelfService.v
Guard.v
Factors.v
Administration.v
Office.v
Outbound.v
OutboundCorrect.v
HooksCorrect.v
Rotation.v
AccessToken.v
Grants.v
GrantsCorrect.v
DeviceFlow.v
DeviceCorrect.v
Passkeys.v
PasskeysCorrect.v
External.v
ExternalCorrect.v
OAuthService.v
OAuthCorrect.v
History.v
HistoryCorrect.v
EmailChange.v
EmailChangeCorrect.v
Settings.v
Validation.v
ValidationCorrect.v
Governance.v
Service.v
Invariants.v
Delegation.v
SelfServiceCorrect.v
