(* ===== verification/Prelude.v ===== *)
(** * Verification of auth-api

    auth-api is an authentication service: a Rust program in front of
    PostgreSQL (tables, migrations/), Redis (challenges, budgets, caches,
    blocklists), a message broker, webhook endpoints, identity providers and a
    mail queue.  This development translates the parts that decide who is signed
    in, as what, and what leaves the service, from src/src/, and proves what
    makes them correct.

    ** The program and its model

    A request enters through the middleware, which finds the client's address
    and applies the rate limits; an extractor checks the access token; a handler
    calls a service; the service applies the pure rules of the domain to rows the
    repositories read, and writes rows and Redis keys back.  Background work
    relays events, delivers webhooks and rehashes passwords.  The files follow
    those layers; each names the sources it translates.

    Foundations.
    - Prelude.v: Rust strings ([str], code points), [result], machine integers,
      the functions of [str] and the number parsing the code uses, tactics
      ([breflect], [case_cond]), generic lemmas.
    - Base64.v, Crates.v, Codec.v: what the repository calls and does not contain,
      as classes with laws and an instance each ([time], [ipnetwork], [uuid],
      [sha2], [base64], Redis as commands on a store with expiries,
      [serde_json] values), and codecs to build instances from.
    - Tables.v: every table the services use, as one record [Db].
    - App.v: errors (error.rs), the settings services read, the world of a running
      service and the monad [M E A] of its operations, with the relations
      ([keeps], [pres], [leaves]) proofs about many operations rest on.
    - Outside.v: breached passwords and CAPTCHAs, answered by the environment.
    - Scenario.v, Office.v: concrete worlds to evaluate the theorems on.

    Domain (domain/): Session.v; Account.v, one Module per file; OAuthDomain.v
    (Oidc, OAuth, Client, Pat, DeviceDomain, ExternalIdentity); Network.v
    (webhooks); Passkeys.v, Module Webauthn.
    Edge: Edge.v (ClientIp, IpBucket, RateLimit with its Lua script); Crypto.v
    (utils/crypto.rs); RedisCounter.v (attempt budgets).
    Repositories: SessionRepo.v, Repos.v, UserRepo.v, AccessRepo.v, TokenRepo.v;
    AccountsOk.v states the well-formedness of the accounts table.
    Configuration: Settings.v (config/mod.rs, env_vars.rs), Validation.v
    (config/validate.rs).

    Services, each with the file of its theorems.
    - Tokens.v, TokensCorrect.v: services/auth/tokens.rs.  AccessToken.v: the keys
      of utils/jwt.rs and the extractors of handlers/extractors.rs.
    - Refresh.v, RefreshCorrect.v: services/auth/session.rs.
    - Login.v, LoginCorrect.v: services/auth/login.rs and the guards it shares.
    - SecondFactor.v, SecondFactorCorrect.v: second_factor.rs, pre_auth.rs, TOTP,
      mailed and recovery codes.
    - OneTime.v, OneTimeCorrect.v: registration, password reset, magic links.
    - SelfService.v, Guard.v, SelfServiceCorrect.v: services/user.rs, session.rs,
      personal_access_token.rs and the re-authentication of reauth.rs.
    - Factors.v: services/two_factor.rs, the setup of email_2fa.rs.
    - EmailChange.v, EmailChangeCorrect.v: services/email_change.rs.
    - Passkeys.v, PasskeysCorrect.v: services/passkey.rs.
    - External.v, ExternalCorrect.v: services/external_identity.rs.
    - Grants.v, GrantsCorrect.v: services/authorize.rs.  DeviceFlow.v,
      DeviceCorrect.v: services/device.rs.  OAuthService.v, OAuthCorrect.v:
      services/oauth.rs.
    - Administration.v: services/admin/.  History.v, HistoryCorrect.v: the pages
      of the audit log and of accounts (handlers/audit.rs, handlers/admin/).
    - Outbound.v, OutboundCorrect.v, HooksCorrect.v: services/events.rs and
      services/webhooks.rs with their queues.
    - Rotation.v: services/key_rotation.rs.
    - Governance.v, Service.v, Invariants.v, Delegation.v: all the requests as one
      state machine, and what every sequence of them keeps.

    State and effects.  A service operation is a function from a [World] (the
    tables, the Redis store, the application's clock and the servers', the
    random draws used, the mails, delays and background work asked for, what
    was sent to brokers, endpoints and providers, the documents of providers
    remembered in memory) to a world and a result.  Every exchange asks the
    environment's plan, which answers, loses the request, or applies it and
    loses the answer; a theorem without a hypothesis on the plan holds for every
    pattern of outages.  A transaction commits its tables whole or not at all,
    and the loss of a commit's answer leaves them committed.  Concurrent requests
    are sequences of committed statements ([session_step], [reachable]), of Redis
    commands, or of whole requests ([step]); the tasks of a dispatcher round end
    in any order and may be cut short at any point.  The outbox is ordered as its
    rows were inserted.

    ** What the theorems show

    - Sessions: a family has one live session at most, under every interleaving
      of statements; a refresh succeeds only for the live session its token
      names and moves the table only by its statements; a replay ends the
      family; a logout ends a session on both paths.
    - Signing in, by password, second factor, mailed link, passkey or identity
      provider: success means the proof each asks for, of an active account,
      within its budgets, and one session; codes, challenges and links are spent;
      refusals look alike; the lockout holds.
    - Changing an account: sensitive requests are refused without a proof of
      the password; a new password, a reset, a new address and a deletion commit
      all they should at once or nothing; an address changes only after both
      mailboxes are proved.
    - Client applications and devices: codes and device flows give one session,
      to the client and with the scopes consented to; a replayed code ends it;
      clients are who they prove to be.
    - Administration: whatever requests are served, an administrator remains, no
      administrative permission is held without a second factor, nobody gains a
      permission but from one who holds it, and what an administrator reads is
      recorded.  One's own history is read by its cursors without gap or
      repetition, whatever is written meanwhile.
    - What leaves the service: events reach the broker in order and the relay
      drains; webhooks are signed and go to checked addresses only, and every
      delivery ends within its attempts; a provider's client secret goes to that
      provider alone; rotating the encryption key loses no secret.
    - Foundations: budgets admit their limit; the client address cannot be
      spoofed; the reserved address blocks are exact; the key ring and
      access tokens read back; authenticator data is parsed exactly; a
      configuration that starts the service satisfies what the others assume.

    ** Choices

    Recursion is structural, on the data or on a fuel the theorems bound: the
    bursts of the relay and of the dispatcher stop within one round per batch
    waiting and one more ([relay_drains]), a reader of the history within one
    request per page and one more ([history_read_whole]), the replacement in
    texts within their length.  Times are nanoseconds in [Z] and pass through
    the database unrounded; integers that may wrap are wrapped explicitly
    ([wrap_i64]) or saturated as the code does ([i64_or_max]).  The clocks stand
    still during one operation.  SHA-256, base64 and UUID text are parameters
    with their lengths and round trips as laws; no theorem assumes SHA-256
    injective.  The rows of the audit log keep their places, so the database's
    draw of their ids is a function of the place.  The read replica is the
    database.

    ** What is not modelled

    HTTP parsing and rendering, the router, the API document, metrics and
    logging, mail rendering and sending, and connection pools: no decision of the
    service is taken there.  Neither is the command line (cli.rs), by which an
    operator registers a client or grants a role: what is shown of requests says
    nothing of it.  JWT signatures, Argon2, HMAC,
    AES-GCM, the signature schemes of passkeys, CBOR, totp-rs and what other
    servers answer are parameters.  The scheduled clean-up (services/cleanup.rs)
    calls SQL functions of the migrations that drop expired rows and, by the
    calendar, partitions; the export of an account (repositories/export.rs) is
    one SQL query that writes a document and changes nothing.  The waiting of
    the background loops is not modelled, only their rounds.  [tokio::join!] and
    [try_join!] run their branches in the order written; the members [SPOP]
    picks and the estimates of the HyperLogLog sketch are parameters. *)
From stdpp Require Export base tactics option list numbers gmap sorting strings pretty.
From Stdlib Require Export ZArith Lia.
From Stdlib Require Ascii.

(** * Text

    A Rust [str] is a sequence of Unicode scalar values; [str] is the list of
    their code points.  [lit] reads an ASCII literal, written [u"..."]. *)

Abbreviation str := (list Z).

(** A byte, and a sequence of bytes. *)
Abbreviation bytes := (list Z).
Definition is_byte (b : Z) : Prop := (0 <= b < 256)%Z.

Definition lit (s : string) : str :=
  map (fun a => Z.of_N (Ascii.N_of_ascii a)) (String.list_ascii_of_string s).

Declare Scope auth_scope.
Delimit Scope auth_scope with auth.
Notation "'u' s" := (lit s%string) (at level 8, s at level 0, format "'u' s") : auth_scope.
Open Scope Z_scope.
Open Scope auth_scope.

(** * Results of fallible code: Rust's [Result] *)

Inductive result (A E : Type) : Type :=
| Ok (a : A)
| Err (e : E).
Arguments Ok {A E} a.
Arguments Err {A E} e.

(** * Machine integers *)

Definition U64_MAX : Z := 2 ^ 64 - 1.
Definition I64_MAX : Z := 2 ^ 63 - 1.
Definition I64_MIN : Z := - 2 ^ 63.

(** [i64::try_from(n).unwrap_or(i64::MAX)] for [n : u64]. *)
Definition i64_or_max (n : Z) : Z := if n <=? I64_MAX then n else I64_MAX.

(** Two's complement wrap-around: [i64] arithmetic in a release build. *)
Definition wrap_i64 (n : Z) : Z := (n + 2 ^ 63) mod 2 ^ 64 - 2 ^ 63.

(** * The [str] and [char] functions of the standard library that the code uses *)

(** [char::is_control]: the general category Cc. *)
Definition is_control (c : Z) : bool :=
  ((0 <=? c) && (c <=? 0x1f)) || ((0x7f <=? c) && (c <=? 0x9f)).

(** [char::is_whitespace]: the Unicode property White_Space. *)
Definition is_whitespace (c : Z) : bool :=
  ((0x9 <=? c) && (c <=? 0xd)) || (c =? 0x20) || (c =? 0x85) || (c =? 0xa0)
  || (c =? 0x1680) || ((0x2000 <=? c) && (c <=? 0x200a)) || (c =? 0x2028)
  || (c =? 0x2029) || (c =? 0x202f) || (c =? 0x205f) || (c =? 0x3000).

Fixpoint trim_start (s : str) : str :=
  match s with
  | [] => []
  | c :: s' => if is_whitespace c then trim_start s' else s
  end.

Definition trim_end (s : str) : str := reverse (trim_start (reverse s)).

Definition trim (s : str) : str := trim_end (trim_start s).

(** The UTF-8 length of a scalar value, and [str::len], the length in bytes. *)
Definition char_len (c : Z) : Z :=
  if c <? 0x80 then 1 else if c <? 0x800 then 2 else if c <? 0x10000 then 3 else 4.

Definition byte_len (s : str) : Z := foldr (fun c n => char_len c + n) 0 s.

(** [s.as_bytes()]: the UTF-8 encoding. *)
Definition utf8_char (c : Z) : list Z :=
  if c <? 0x80 then [c]
  else if c <? 0x800 then [0xc0 + Z.shiftr c 6; 0x80 + Z.land c 0x3f]
  else if c <? 0x10000 then
    [0xe0 + Z.shiftr c 12; 0x80 + Z.land (Z.shiftr c 6) 0x3f; 0x80 + Z.land c 0x3f]
  else
    [0xf0 + Z.shiftr c 18; 0x80 + Z.land (Z.shiftr c 12) 0x3f;
     0x80 + Z.land (Z.shiftr c 6) 0x3f; 0x80 + Z.land c 0x3f].

Definition as_bytes (s : str) : list Z := concat (map utf8_char s).

Definition char_count (s : str) : Z := Z.of_nat (length s).

Definition is_ascii_lowercase (c : Z) : bool := (97 <=? c) && (c <=? 122).
Definition is_ascii_uppercase (c : Z) : bool := (65 <=? c) && (c <=? 90).
Definition is_ascii_digit (c : Z) : bool := (48 <=? c) && (c <=? 57).
Definition is_ascii_alphabetic (c : Z) : bool := is_ascii_lowercase c || is_ascii_uppercase c.
Definition is_ascii_alphanumeric (c : Z) : bool := is_ascii_alphabetic c || is_ascii_digit c.
Definition is_ascii (s : str) : bool := forallb (fun c => c <? 0x80) s.

(** [s.bytes().all(p)] for a predicate [p] that no byte above [0x7f] meets: a
    non-ASCII scalar encodes as such bytes only, so [p] reads scalars. *)
Definition bytes_all (p : Z -> bool) (s : str) : bool := forallb p s.

Definition str_eqb (a b : str) : bool := bool_decide (a = b).

(** [slice.contains(x)] for strings, and for the bytes of a literal. *)
Definition contains (l : list str) (x : str) : bool := bool_decide (x ∈ l).
Definition byte_in (l : str) (c : Z) : bool := bool_decide (c ∈ l).

Fixpoint starts_with (p s : str) : bool :=
  match p, s with
  | [], _ => true
  | a :: p', b :: s' => (a =? b) && starts_with p' s'
  | _, _ => false
  end.

Definition ends_with (suffix s : str) : bool := starts_with (reverse suffix) (reverse s).

Definition strip_prefix (p s : str) : option str :=
  if starts_with p s then Some (drop (length p) s) else None.

(** [s.contains(token)] *)
Fixpoint has_substring (token s : str) : bool :=
  starts_with token s ||
  match s with
  | [] => false
  | _ :: s' => has_substring token s'
  end.

(** [s.split_once(c)]: around the first [c]. *)
Fixpoint split_once (c : Z) (s : str) : option (str * str) :=
  match s with
  | [] => None
  | x :: s' =>
      if x =? c then Some ([], s')
      else match split_once c s' with
           | Some (a, b) => Some (x :: a, b)
           | None => None
           end
  end.

(** [s.rsplit_once(c)]: around the last [c]. *)
Definition rsplit_once (c : Z) (s : str) : option (str * str) :=
  match split_once c (reverse s) with
  | Some (a, b) => Some (reverse b, reverse a)
  | None => None
  end.

(** [s.split(c)]: the parts between the occurrences of [c], one more than them. *)
Fixpoint split_on (c : Z) (s : str) : list str :=
  match s with
  | [] => [[]]
  | x :: s' =>
      if x =? c then [] :: split_on c s'
      else match split_on c s' with
           | part :: rest => (x :: part) :: rest
           | [] => [[x]]
           end
  end.

(** [s.split_ascii_whitespace()]: the non-empty parts between ASCII white space. *)
Definition is_ascii_whitespace (c : Z) : bool :=
  (c =? 0x20) || (c =? 0x9) || (c =? 0xa) || (c =? 0xc) || (c =? 0xd).

Definition to_ascii_lowercase (s : str) : str :=
  map (fun c => if is_ascii_uppercase c then c + 32 else c) s.

Definition eq_ignore_ascii_case (a b : str) : bool :=
  str_eqb (to_ascii_lowercase a) (to_ascii_lowercase b).

(** The order of [String]: byte by byte, which for UTF-8 is by scalar value. *)
Fixpoint str_leb (a b : str) : bool :=
  match a, b with
  | [], _ => true
  | _ :: _, [] => false
  | x :: a', y :: b' => (x <? y) || ((x =? y) && str_leb a' b')
  end.

Definition str_le (a b : str) : Prop := Is_true (str_leb a b).

#[export] Instance str_le_dec : RelDecision str_le.
Proof. intros a b. unfold str_le. apply _. Defined.

(** [vec.sort()] and [vec.dedup()] on strings. *)
Definition sort_strs (l : list str) : list str := merge_sort str_le l.

Fixpoint dedup (l : list str) : list str :=
  match l with
  | a :: ((b :: _) as tl) => if str_eqb a b then dedup tl else a :: dedup tl
  | _ => l
  end.

(** [vec.join(sep)] *)
Fixpoint join (sep : str) (l : list str) : str :=
  match l with
  | [] => []
  | [a] => a
  | a :: tl => a ++ sep ++ join sep tl
  end.

(** [n.to_string()] for an integer. *)
Definition to_string (n : Z) : str := lit (pretty n).

(** [s.parse()] to an integer, before the range of its type. *)
Definition digits_value (s : str) : option Z :=
  if bool_decide (s = []) || negb (forallb is_ascii_digit s) then None
  else Some (foldl (fun n c => 10 * n + (c - 48)) 0 s).

Definition parse_signed (s : str) : option Z :=
  match s with
  | 45 :: rest => Z.opp <$> digits_value rest
  | 43 :: rest => digits_value rest
  | _ => digits_value s
  end.

(** * Automation *)

Create HintDb auth discriminated.

(** Boolean tests of the code, read as propositions. *)
Lemma bool_decide_iff (P : Prop) `{Decision P} : bool_decide P = true <-> P.
Proof. apply bool_decide_eq_true. Qed.

Lemma str_eqb_eq (a b : str) : str_eqb a b = true <-> a = b.
Proof. apply bool_decide_eq_true. Qed.

Lemma str_eqb_neq (a b : str) : str_eqb a b = false <-> a <> b.
Proof. apply bool_decide_eq_false. Qed.

Lemma str_eqb_refl (a : str) : str_eqb a a = true.
Proof. by apply str_eqb_eq. Qed.

Lemma contains_true (l : list str) (x : str) : contains l x = true <-> x ∈ l.
Proof. apply bool_decide_eq_true. Qed.

Lemma contains_false (l : list str) (x : str) : contains l x = false <-> x ∉ l.
Proof. apply bool_decide_eq_false. Qed.

Create Rewrite HintDb breflect.
#[export] Hint Rewrite andb_true_iff andb_false_iff orb_true_iff orb_false_iff
  negb_true_iff negb_false_iff Z.leb_le Z.leb_gt Z.ltb_lt Z.ltb_ge Z.eqb_eq Z.eqb_neq
  str_eqb_eq str_eqb_neq contains_true contains_false : breflect.

Ltac breflect := autorewrite with breflect in *.

(** Case on the conditions of the code, innermost first, with their equations. *)
Ltac case_cond :=
  match goal with
  | |- context [if ?c then _ else _] =>
      lazymatch c with
      | context [if _ then _ else _] => fail
      | _ => let E := fresh "E" in destruct c eqn:E
      end
  | H : context [if ?c then _ else _] |- _ =>
      lazymatch c with
      | context [if _ then _ else _] => fail
      | _ => let E := fresh "E" in destruct c eqn:E
      end
  end.

(** * Lemmas on text *)

Lemma starts_with_app (p s : str) : starts_with p (p ++ s) = true.
Proof. induction p as [|a p IH]; [done|]. cbn. by rewrite Z.eqb_refl. Qed.

Lemma starts_with_spec (p s : str) : starts_with p s = true <-> exists t, s = p ++ t.
Proof.
  split; [|intros [t ->]; apply starts_with_app].
  revert s. induction p as [|a p IH]; intros s H; [by exists s|].
  destruct s as [|b s]; [done|]. cbn in H. breflect. destruct H as [-> H].
  destruct (IH _ H) as [t ->]. by exists t.
Qed.

Lemma strip_prefix_app (p s : str) : strip_prefix p (p ++ s) = Some s.
Proof.
  unfold strip_prefix. rewrite starts_with_app. f_equal. apply drop_app_length.
Qed.

Lemma strip_prefix_Some (p s t : str) : strip_prefix p s = Some t <-> s = p ++ t.
Proof.
  split; [|intros ->; apply strip_prefix_app].
  unfold strip_prefix. destruct (starts_with p s) eqn:E; [|done].
  apply starts_with_spec in E as [t' ->]. rewrite drop_app_length. congruence.
Qed.

Lemma trim_start_suffix (s : str) : exists ws, s = ws ++ trim_start s /\ forallb is_whitespace ws = true.
Proof.
  induction s as [|c s [ws [IH Hws]]]; [by exists []|]. cbn.
  destruct (is_whitespace c) eqn:E; [|by exists []].
  exists (c :: ws). cbn. rewrite E, Hws. split; [|done]. by f_equal.
Qed.

Lemma trim_start_idem (s : str) : trim_start (trim_start s) = trim_start s.
Proof.
  induction s as [|c s IH]; [done|]. cbn. destruct (is_whitespace c) eqn:E; [done|].
  cbn. by rewrite E.
Qed.

Lemma trim_end_idem (s : str) : trim_end (trim_end s) = trim_end s.
Proof. unfold trim_end. by rewrite reverse_involutive, trim_start_idem. Qed.

Lemma trim_end_prefix (s : str) : exists ws, s = trim_end s ++ ws /\ forallb is_whitespace ws = true.
Proof.
  destruct (trim_start_suffix (reverse s)) as [ws [E Hws]].
  exists (reverse ws). unfold trim_end. split.
  - rewrite <- reverse_app, <- E. by rewrite reverse_involutive.
  - apply forallb_forall. intros x Hx. rewrite forallb_forall in Hws. apply Hws.
    apply list_elem_of_In, elem_of_reverse. by rewrite list_elem_of_In.
Qed.

(** A string is trimmed at its start exactly when [trim_start] keeps it. *)
Definition no_leading_ws (s : str) : Prop :=
  match s with [] => True | c :: _ => is_whitespace c = false end.

Lemma trim_start_fixed (s : str) : trim_start s = s <-> no_leading_ws s.
Proof.
  destruct s as [|c s]; [done|]. cbn. split.
  - destruct (is_whitespace c) eqn:E; [|done]. intros H.
    destruct (trim_start_suffix s) as [ws [Hs _]].
    apply (f_equal length) in H. apply (f_equal length) in Hs.
    rewrite length_app in Hs. cbn in H. lia.
  - by intros ->.
Qed.

Lemma trim_end_no_leading (s : str) : no_leading_ws s -> no_leading_ws (trim_end s).
Proof.
  destruct (trim_end_prefix s) as [ws [E _]]. destruct (trim_end s) as [|c t]; [done|].
  rewrite E. done.
Qed.

Lemma trim_start_trim (s : str) : trim_start (trim s) = trim s.
Proof.
  apply trim_start_fixed, trim_end_no_leading, trim_start_fixed, trim_start_idem.
Qed.

Lemma trim_idem (s : str) : trim (trim s) = trim s.
Proof.
  unfold trim at 1. rewrite trim_start_trim. apply trim_end_idem.
Qed.

(** * Lemmas on the order of strings, sorting and deduplication *)

Lemma str_leb_refl (a : str) : str_leb a a = true.
Proof. induction a as [|x a IH]; [done|]. cbn. rewrite Z.eqb_refl, IH. apply orb_true_r. Qed.

Lemma str_leb_trans (a b c : str) :
  str_leb a b = true -> str_leb b c = true -> str_leb a c = true.
Proof.
  revert b c. induction a as [|x a IH]; intros [|y b] [|z c]; try done.
  cbn. intros H1 H2. breflect.
  destruct H1 as [H1|[-> H1]], H2 as [H2|[-> H2]]; eauto with lia.
Qed.

Lemma str_leb_antisym (a b : str) : str_leb a b = true -> str_leb b a = true -> a = b.
Proof.
  revert b. induction a as [|x a IH]; intros [|y b]; try done.
  cbn. intros H1 H2. breflect.
  destruct H1 as [H1|[-> H1]], H2 as [H2|[E H2]]; try lia. f_equal. by apply IH.
Qed.

Lemma str_leb_total (a b : str) : str_leb a b = true \/ str_leb b a = true.
Proof.
  revert b. induction a as [|x a IH]; intros [|y b]; cbn; auto.
  breflect. destruct (Z.lt_trichotomy x y) as [H|[->|H]]; auto.
  destruct (IH b); auto.
Qed.

Lemma str_le_iff (a b : str) : str_le a b <-> str_leb a b = true.
Proof. unfold str_le. by rewrite Is_true_true. Qed.

#[export] Instance str_le_total : Total str_le.
Proof. intros a b. rewrite !str_le_iff. apply str_leb_total. Qed.

#[export] Instance str_le_trans : Transitive str_le.
Proof. intros a b c. rewrite !str_le_iff. apply str_leb_trans. Qed.

#[export] Instance str_le_antisymm : AntiSymm (=) str_le.
Proof. intros a b. rewrite !str_le_iff. apply str_leb_antisym. Qed.

Lemma sort_strs_sorted (l : list str) : StronglySorted str_le (sort_strs l).
Proof. apply (StronglySorted_merge_sort str_le). Qed.

Lemma sort_strs_perm (l : list str) : sort_strs l ≡ₚ l.
Proof. apply merge_sort_Permutation. Qed.

Lemma dedup_cons (a b : str) (tl : list str) :
  dedup (a :: b :: tl) = if str_eqb a b then dedup (b :: tl) else a :: dedup (b :: tl).
Proof. done. Qed.

Lemma elem_of_dedup (x : str) (l : list str) : x ∈ dedup l <-> x ∈ l.
Proof.
  induction l as [|a tl IH]; [done|]. destruct tl as [|b tl]; [done|].
  rewrite dedup_cons. destruct (str_eqb a b) eqn:E.
  - apply str_eqb_eq in E as ->. rewrite IH, !elem_of_cons. tauto.
  - rewrite !elem_of_cons, IH, elem_of_cons. tauto.
Qed.

(** Strictly increasing: sorted without duplicates, the canonical form of a set
    of strings. *)
Definition canonical (l : list str) : Prop := StronglySorted str_le l /\ NoDup l.

Lemma dedup_sorted_canonical (l : list str) : StronglySorted str_le l -> canonical (dedup l).
Proof.
  induction 1 as [|a tl Htl [IH1 IH2] Ha]; [split; constructor|].
  destruct tl as [|b tl]; [split; repeat constructor; by intros ?%elem_of_nil|].
  rewrite dedup_cons. destruct (str_eqb a b) eqn:E; [done|]. apply str_eqb_neq in E.
  split.
  - constructor; [done|]. rewrite Forall_forall in *. intros x Hx.
    apply Ha. by apply elem_of_dedup.
  - constructor; [|done]. intros Hin. apply elem_of_dedup, elem_of_cons in Hin as [->|Hin]; [done|].
    apply E. apply (anti_symm str_le).
    + apply (proj1 (Forall_forall _ _) Ha). by left.
    + inv Htl. by apply (proj1 (Forall_forall _ _) H2).
Qed.

Lemma sort_dedup_canonical (l : list str) : canonical (dedup (sort_strs l)).
Proof. apply dedup_sorted_canonical, sort_strs_sorted. Qed.

Lemma elem_of_sort_dedup (x : str) (l : list str) : x ∈ dedup (sort_strs l) <-> x ∈ l.
Proof. rewrite elem_of_dedup. by rewrite sort_strs_perm. Qed.

(** A canonical list is determined by its elements. *)
Lemma canonical_ext (l1 l2 : list str) :
  canonical l1 -> canonical l2 -> (forall x, x ∈ l1 <-> x ∈ l2) -> l1 = l2.
Proof.
  intros [S1 N1] [S2 N2] H. apply (StronglySorted_unique str_le); [done..|].
  by apply NoDup_Permutation.
Qed.

(** Sorting and deduplicating a canonical list keeps it. *)
Lemma sort_dedup_id (l : list str) : canonical l -> dedup (sort_strs l) = l.
Proof.
  intros H. apply canonical_ext; [apply sort_dedup_canonical|done|].
  intros x. apply elem_of_sort_dedup.
Qed.

(** * Machine integers *)

Lemma i64_or_max_min (n : Z) : i64_or_max n = Z.min n I64_MAX.
Proof. unfold i64_or_max. case_cond; breflect; lia. Qed.

Lemma wrap_i64_id (n : Z) : I64_MIN <= n <= I64_MAX -> wrap_i64 n = n.
Proof. unfold wrap_i64, I64_MIN, I64_MAX. intros. rewrite Z.mod_small; lia. Qed.

(** Wrapping a sum that leaves the range upwards only lowers it. *)
Lemma wrap_i64_le (n : Z) : I64_MIN <= n -> wrap_i64 n <= n.
Proof.
  unfold wrap_i64, I64_MIN. intros.
  pose proof (Z.mod_le (n + 2 ^ 63) (2 ^ 64)). lia.
Qed.

Lemma lit_inj (a b : string) : lit a = lit b -> a = b.
Proof.
  unfold lit. intros H. rewrite <- (String.string_of_list_ascii_of_string a).
  rewrite <- (String.string_of_list_ascii_of_string b). f_equal.
  revert H. generalize (String.list_ascii_of_string b).
  induction (String.list_ascii_of_string a) as [|x l IH]; intros [|y l']; cbn; try done.
  intros [= Hxy Hl]. f_equal; [|by apply IH].
  rewrite <- (Ascii.ascii_N_embedding x), <- (Ascii.ascii_N_embedding y). f_equal. lia.
Qed.

Lemma to_string_inj (a b : Z) : to_string a = to_string b -> a = b.
Proof. intros H%lit_inj. by apply (inj pretty) in H. Qed.

Lemma decimal_char x : (x < 10)%N -> Z.of_N (Ascii.N_of_ascii (pretty_N_char x)) = 48 + Z.of_N x.
Proof.
  intros Hx. assert (x = 0 \/ x = 1 \/ x = 2 \/ x = 3 \/ x = 4 \/ x = 5 \/ x = 6 \/ x = 7 \/ x = 8 \/ x = 9)%N as Hc by lia.
  by repeat (destruct Hc as [->|Hc]; [done|]); subst.
Qed.

(** The digits written in front of [s] stand for [x]. *)
Lemma decimal_digits x : forall s, forallb is_ascii_digit (lit s) = true ->
  forallb is_ascii_digit (lit (pretty_N_go x s)) = true /\
  foldl (fun n c => 10 * n + (c - 48)) 0 (lit (pretty_N_go x s)) =
  foldl (fun n c => 10 * n + (c - 48)) (Z.of_N x) (lit s).
Proof.
  induction (N.lt_wf_0 x) as [x _ IH]. intros s Hs.
  destruct (decide (x = 0)%N) as [->|Hx]; [done|]. rewrite pretty_N_go_step by lia.
  pose proof (N.mod_lt x 10 ltac:(done)) as Hm. pose proof (N.div_mod x 10 ltac:(done)) as Hd.
  assert (lit (String (pretty_N_char (x `mod` 10)) s) = 48 + Z.of_N (x `mod` 10) :: lit s) as E.
  { unfold lit. cbn [String.list_ascii_of_string map]. f_equal. by apply decimal_char. }
  destruct (IH (x `div` 10)%N) with (s := String (pretty_N_char (x `mod` 10)) s) as [D V];
    [apply N.div_lt; [lia|done]|..].
  - rewrite E. cbn [forallb]. rewrite Hs, andb_true_r. unfold is_ascii_digit.
    clear -Hm. generalize dependent (x `mod` 10)%N. intros m Hm. apply andb_true_iff; split; apply Z.leb_le; lia.
  - split; [done|]. rewrite V, E. cbn [foldl]. f_equal. lia.
Qed.

Lemma digits_value_pretty (x : N) : digits_value (lit (pretty x)) = Some (Z.of_N x).
Proof.
  unfold pretty, pretty_N. case_decide as Hx; [by subst|].
  destruct (decimal_digits x EmptyString eq_refl) as [D V]. revert D V. generalize (lit (pretty_N_go x "")).
  intros t D V. unfold digits_value in *. rewrite D. destruct t; cbn in *; [lia|by f_equal].
Qed.

Lemma parse_to_string (n : Z) : parse_signed (to_string n) = Some n.
Proof.
  destruct n as [|p|p]; [done|..].
  - pose proof (digits_value_pretty (Npos p)) as H. unfold to_string. change (pretty (Z.pos p)) with (pretty (Npos p)).
    destruct (lit (pretty (Npos p))) as [|c s] eqn:E; [done|]. unfold parse_signed.
    assert (is_ascii_digit c = true) as Hc.
    { unfold digits_value in H. cbn in H. by destruct (is_ascii_digit c). }
    unfold is_ascii_digit in Hc. breflect. repeat case_match; try done; lia.
  - unfold to_string. change (pretty (Z.neg p)) with ("-" +:+ pretty (Npos p))%string.
    change (parse_signed (45 :: lit (pretty (Npos p))) = Some (Z.neg p)). unfold parse_signed.
    rewrite digits_value_pretty. done.
Qed.

Lemma to_string_chars (n : Z) : Forall (fun c => c = 45 \/ is_ascii_digit c = true) (to_string n).
Proof.
  assert (forall x : N, Forall (fun c => c = 45 \/ is_ascii_digit c = true) (lit (pretty x))) as Hx.
  { intros x. pose proof (digits_value_pretty x) as H. unfold digits_value in H.
    destruct (forallb is_ascii_digit (lit (pretty x))) eqn:E; [|by rewrite orb_true_r in H].
    apply Forall_forall. intros c Hc. right. rewrite forallb_forall in E. by apply E, list_elem_of_In. }
  destruct n as [|p|p]; [by repeat constructor; right|apply (Hx (Npos p))|constructor; [by left|apply (Hx (Npos p))]].
Qed.

(** Membership in a filtered list. *)
Lemma elem_of_lfilter {A} (p : A -> bool) (l : list A) (x : A) :
  x ∈ List.filter p l <-> x ∈ l /\ p x = true.
Proof. rewrite !list_elem_of_In. apply filter_In. Qed.
