(* ===== verification/Base64.v ===== *)
(** URL-safe base64 without padding (RFC 4648 section 5): an encoder and a strict
    decoder, the instance of the crate [base64] the model runs with. *)
From S2P Require Import Prelude.

(** [A-Za-z0-9-_], and their values. *)
Definition b64_digit (n : Z) : Z :=
  if n <? 26 then 65 + n else if n <? 52 then 71 + n else if n <? 62 then n - 4 else if n =? 62 then 45 else 95.

Definition b64_value (c : Z) : option Z :=
  if is_ascii_uppercase c then Some (c - 65)
  else if is_ascii_lowercase c then Some (c - 71)
  else if is_ascii_digit c then Some (c + 4)
  else if c =? 45 then Some 62
  else if c =? 95 then Some 63
  else None.

Fixpoint b64url_encode (l : bytes) : str :=
  match l with
  | [] => []
  | [a] => [b64_digit (a / 4); b64_digit (a mod 4 * 16)]
  | [a; b] => [b64_digit (a / 4); b64_digit (a mod 4 * 16 + b / 16); b64_digit (b mod 16 * 4)]
  | a :: b :: c :: rest =>
      b64_digit (a / 4) :: b64_digit (a mod 4 * 16 + b / 16) ::
      b64_digit (b mod 16 * 4 + c / 64) :: b64_digit (c mod 64) :: b64url_encode rest
  end.

(** Bits left over at the end must be zero. *)
Fixpoint b64url_decode_values (l : list Z) : option bytes :=
  match l with
  | [] => Some []
  | [_] => None
  | [x; y] => if y mod 16 =? 0 then Some [x * 4 + y / 16] else None
  | [x; y; z] => if z mod 4 =? 0 then Some [x * 4 + y / 16; y mod 16 * 16 + z / 4] else None
  | x :: y :: z :: t :: rest =>
      more ← b64url_decode_values rest;
      Some (x * 4 + y / 16 :: y mod 16 * 16 + z / 4 :: z mod 4 * 64 + t :: more)
  end.

Definition b64url_decode (s : str) : option bytes := mapM b64_value s ≫= b64url_decode_values.

(** * The law *)

Lemma b64_value_digit (n : Z) : 0 <= n < 64 -> b64_value (b64_digit n) = Some n.
Proof.
  intros Hn. unfold b64_value, b64_digit, is_ascii_uppercase, is_ascii_lowercase, is_ascii_digit.
  repeat case_match; breflect; f_equal; lia.
Qed.

#[local] Ltac Zify.zify_post_hook ::= Z.to_euclidean_division_equations.

Lemma b64_triples (P : bytes -> Prop) :
  P [] -> (forall a, P [a]) -> (forall a b, P [a; b]) -> (forall a b c l, P l -> P (a :: b :: c :: l)) ->
  forall l, P l.
Proof.
  intros H0 H1 H2 H3. fix IH 1. intros [|a [|b [|c l]]]; [done|apply H1|apply H2|]. apply H3, IH.
Qed.

Lemma b64url_decode_encode (l : bytes) : Forall is_byte l -> b64url_decode (b64url_encode l) = Some l.
Proof.
  unfold b64url_decode, is_byte. induction l as [|a|a b|a b c l IH] using b64_triples; rewrite ?Forall_cons.
  - done.
  - intros [Ha _]. cbn. rewrite !b64_value_digit by lia. cbn.
    replace (a mod 4 * 16 mod 16) with 0 by lia. cbn. repeat f_equal; lia.
  - intros (Ha & Hb & _). cbn. rewrite !b64_value_digit by lia. cbn.
    replace (b mod 16 * 4 mod 4) with 0 by lia. cbn. repeat f_equal; lia.
  - intros (Ha & Hb & Hc & Hl). specialize (IH Hl). apply bind_Some in IH as (values & Hv & Hd).
    cbn [b64url_encode mapM]. rewrite !b64_value_digit by lia. cbn. rewrite Hv. cbn. rewrite Hd. cbn.
    repeat f_equal; lia.
Qed.

Lemma b64_digit_char (n : Z) : 0 <= n < 64 ->
  is_ascii_alphanumeric (b64_digit n) || (b64_digit n =? 45) || (b64_digit n =? 95) = true.
Proof.
  intros Hn. unfold b64_digit, is_ascii_alphanumeric, is_ascii_alphabetic, is_ascii_uppercase, is_ascii_lowercase, is_ascii_digit.
  repeat (case_cond; breflect); lia.
Qed.

Lemma b64url_encode_chars (l : bytes) : Forall is_byte l ->
  Forall (fun c => is_ascii_alphanumeric c || (c =? 45) || (c =? 95) = true) (b64url_encode l).
Proof.
  unfold is_byte. induction l as [|a|a b|a b c l IH] using b64_triples; cbn; rewrite ?Forall_cons.
  - done.
  - intros [Ha _]. split_and!; [apply b64_digit_char; lia..|constructor].
  - intros (Ha & Hb & _). split_and!; [apply b64_digit_char; lia..|constructor].
  - intros (Ha & Hb & Hc & Hl). split_and!; [apply b64_digit_char; lia..|]. by apply IH.
Qed.

(** Four characters for three bytes, rounded up. *)
Lemma b64url_encode_length (l : bytes) : length (b64url_encode l) = ((4 * length l + 2) / 3)%nat.
Proof.
  induction l as [|a|a b|a b c l IH] using b64_triples; [done..|]. cbn [b64url_encode length]. rewrite IH.
  replace (4 * S (S (S (length l))) + 2)%nat with (4 * length l + 2 + 4 * 3)%nat by lia.
  rewrite Nat.div_add by lia. lia.
Qed.
