(* ===== verification/Crates.v ===== *)
(** Interfaces of the code the service calls and does not contain: the crates
    [time], [uuid], [ipnetwork], [sha2], [base64] and the Redis server.  Each
    is a class whose fields are the functions the service uses and whose laws
    are what their documentation promises.  Every class has an instance, so no
    theorem proved against it is vacuous. *)
From S2P Require Import Prelude Base64.

(** * [time]: instants and durations, both in nanoseconds *)

Definition NS : Z := 1000000000.
Definition MS : Z := 1000000.

(** An [OffsetDateTime] is its distance from the Unix epoch; a
    [time::Duration] is a number of nanoseconds. *)
Abbreviation OffsetDateTime := Z (only parsing).
Abbreviation Duration := Z (only parsing).

Definition seconds (n : Z) : Duration := n * NS.

Class TimeCrate := {
  dt_min : OffsetDateTime;
  dt_max : OffsetDateTime;
  saturating_add : OffsetDateTime -> Duration -> OffsetDateTime;
  whole_seconds : Duration -> Z;
  unix_timestamp : OffsetDateTime -> Z;
  (** The range holds the epoch and more. *)
  dt_range : dt_min < 0 < dt_max;
  (** Additions that leave the range stop at its ends. *)
  saturating_add_spec : forall t d,
    saturating_add t d = Z.max dt_min (Z.min dt_max (t + d));
  (** Whole seconds drop the fraction. *)
  whole_seconds_spec : forall d, whole_seconds d = Z.quot d NS;
  (** Seconds since the epoch, rounded down. *)
  unix_timestamp_spec : forall t, unix_timestamp t = t / NS;
}.

(** Years -9999 to 9999, the range of the crate without [large-dates]. *)
#[export] Instance time_crate : TimeCrate.
Proof.
  refine {|
    dt_min := -377705116800 * NS;
    dt_max := 253402300799 * NS + (NS - 1);
    saturating_add t d :=
      Z.max (-377705116800 * NS) (Z.min (253402300799 * NS + (NS - 1)) (t + d));
    whole_seconds d := Z.quot d NS;
    unix_timestamp t := t / NS;
  |}; unfold NS; intros; lia || done.
Defined.

Section Time.
Context `{TimeCrate}.

Lemma saturating_add_mono (t t' d d' : Z) :
  t <= t' -> d <= d' -> saturating_add t d <= saturating_add t' d'.
Proof. rewrite !saturating_add_spec. lia. Qed.

Lemma saturating_add_ge (t d : Z) :
  dt_min <= t <= dt_max -> 0 <= d -> t <= saturating_add t d.
Proof. rewrite saturating_add_spec. lia. Qed.

Lemma saturating_add_le (t d : Z) : dt_min <= t + d -> saturating_add t d <= t + d.
Proof. rewrite saturating_add_spec. pose proof dt_range. lia. Qed.
End Time.

(** * [std::net] addresses and [ipnetwork] *)

(** An address as its bits: [u32] for IPv4, [u128] for IPv6. *)
Inductive IpAddr :=
| V4 (bits : Z)
| V6 (bits : Z).

#[export] Instance ipaddr_eq_dec : EqDecision IpAddr.
Proof. solve_decision. Defined.

(** [octets()[i]] and [segments()[i]]. *)
Definition octet (bits : Z) (i : Z) : Z := Z.land (Z.shiftr bits (24 - 8 * i)) 0xff.
Definition segment (bits : Z) (i : Z) : Z := Z.land (Z.shiftr bits (112 - 16 * i)) 0xffff.

(** [Ipv6Addr::to_ipv4_mapped]: [::ffff:a.b.c.d]. *)
Definition to_ipv4_mapped (bits : Z) : option Z :=
  if Z.shiftr bits 32 =? 0xffff then Some (Z.land bits 0xffffffff) else None.

Record IpNetwork := { net_ip : IpAddr; net_prefix : Z }.

#[export] Instance ipnetwork_eq_dec : EqDecision IpNetwork.
Proof. solve_decision. Defined.

Definition ip_width (ip : IpAddr) : Z := match ip with V4 _ => 32 | V6 _ => 128 end.

(** An address with its host bits cleared. *)
Definition mask_ip (ip : IpAddr) (len : Z) : IpAddr :=
  match ip with
  | V4 b => V4 (Z.shiftl (Z.shiftr b (32 - len)) (32 - len))
  | V6 b => V6 (Z.shiftl (Z.shiftr b (128 - len)) (128 - len))
  end.

Class IpNetworkCrate := {
  net_new : IpAddr -> Z -> option IpNetwork;
  net_network : IpNetwork -> IpAddr;
  net_contains : IpNetwork -> IpAddr -> bool;
  net_new_spec : forall ip len, 0 <= len <= ip_width ip ->
    net_new ip len = Some {| net_ip := ip; net_prefix := len |};
  net_network_spec : forall n, net_network n = mask_ip (net_ip n) (net_prefix n);
  (** An address belongs to a network of its family whose prefix it carries. *)
  net_contains_spec : forall n ip,
    net_contains n ip = true <->
    ip_width ip = ip_width (net_ip n) /\
    mask_ip ip (net_prefix n) = mask_ip (net_ip n) (net_prefix n);
}.

#[export] Instance ipnetwork_crate : IpNetworkCrate.
Proof.
  refine {|
    net_new ip len :=
      if (0 <=? len) && (len <=? ip_width ip)
      then Some {| net_ip := ip; net_prefix := len |} else None;
    net_network n := mask_ip (net_ip n) (net_prefix n);
    net_contains n ip :=
      bool_decide (ip_width ip = ip_width (net_ip n) /\
                   mask_ip ip (net_prefix n) = mask_ip (net_ip n) (net_prefix n));
  |}.
  - intros ip len H. case_cond; breflect; [done|lia].
  - done.
  - intros n ip. apply bool_decide_eq_true.
Defined.

(** * [uuid], [sha2], [base64] *)

(** A [Uuid] is its 128 bits; [nil] is zero. *)
Abbreviation Uuid := N.
Definition uuid_nil : Uuid := 0%N.

Class CryptoCrates := {
  (** [Display] of a UUID: the hyphenated form, one per UUID. *)
  uuid_str : Uuid -> str;
  uuid_str_inj : forall a b, uuid_str a = uuid_str b -> a = b;
  (** SHA-256: 32 bytes. *)
  sha256 : bytes -> bytes;
  sha256_length : forall b, length (sha256 b) = 32%nat;
  sha256_bytes : forall b, Forall is_byte (sha256 b);
  (** URL-safe base64 without padding: one text per byte string. *)
  b64url : bytes -> str;
  b64url_decode : str -> option bytes;
  b64url_read_back : forall b, Forall is_byte b -> b64url_decode (b64url b) = Some b;
  b64url_chars : forall b, Forall is_byte b ->
    Forall (fun c => is_ascii_alphanumeric c || (c =? 45) || (c =? 95) = true) (b64url b);
  b64url_length : forall b, length (b64url b) = ((4 * length b + 2) / 3)%nat;
}.

(** An instance to run the model with; nothing depends on its choice of
    digest. *)
Definition toy_sha256 (b : bytes) : bytes :=
  map (fun i => foldr (fun x acc => (x + 31 * acc + Z.of_nat i) mod 256) 7 b) (seq 0 32).

#[export] Instance toy_crypto : CryptoCrates.
Proof.
  refine {|
    uuid_str a := to_string (Z.of_N a);
    sha256 := toy_sha256;
    b64url := b64url_encode;
    b64url_decode := Base64.b64url_decode;
  |}.
  - intros a b H%to_string_inj. lia.
  - intros b. unfold toy_sha256. by rewrite length_map, length_seq.
  - intros b. unfold toy_sha256. rewrite Forall_map. apply Forall_forall. intros i _.
    cbn. destruct b; cbn; unfold is_byte; [lia|]. apply Z.mod_pos_bound. lia.
  - apply b64url_decode_encode.
  - apply b64url_encode_chars.
  - apply b64url_encode_length.
Defined.

(** * Redis

    Keys hold an integer, a string, a set of strings or a hash, with an optional
    expiry.  [dump] observes a key whatever its expiry; [live] is what a
    command issued at time [t] sees.  Commands run one at a time, and a Lua
    script is one command. *)

Inductive rval :=
| RInt (n : Z)
| RStr (s : str)
| RSet (s : gset str)
| RHash (h : gmap str Z).

#[export] Instance rval_eq_dec : EqDecision rval.
Proof. solve_decision. Defined.

Record entry := Entry { e_val : rval; e_exp : option Z }.

Definition alive (t : Z) (e : entry) : bool :=
  match e_exp e with None => true | Some x => t <? x end.

Definition live (t : Z) (o : option entry) : option entry :=
  match o with
  | Some e => if alive t e then Some e else None
  | None => None
  end.

Definition upd {A} (f : str -> option A) (k : str) (x : option A) : str -> option A :=
  fun k' => if decide (k' = k) then x else f k'.

Definition int_of (o : option entry) : Z :=
  match o with Some (Entry (RInt n) _) => n | _ => 0 end.

Definition exp_of (o : option entry) : option Z :=
  match o with Some e => e_exp e | None => None end.

Definition set_of (o : option entry) : gset str :=
  match o with Some (Entry (RSet x) _) => x | _ => ∅ end.

Definition hash_of (o : option entry) : gmap str Z :=
  match o with Some (Entry (RHash h) _) => h | _ => ∅ end.

Class RedisServer := {
  rstore : Type;
  dump : rstore -> str -> option entry;
  (** [SET k v EX ttl] *)
  r_set_ex : rstore -> Z -> str -> rval -> Z -> rstore;
  (** [SET k v KEEPTTL] *)
  r_set_keepttl : rstore -> Z -> str -> rval -> rstore;
  (** [DEL k] *)
  r_del : rstore -> Z -> str -> rstore;
  (** [INCR k], [DECR k] on keys holding integers; the value after it. *)
  r_incr : rstore -> Z -> str -> rstore * Z;
  r_decr : rstore -> Z -> str -> rstore * Z;
  (** [EXPIRE k ttl] *)
  r_expire : rstore -> Z -> str -> Z -> rstore;
  (** [HSET k f v ...] on keys holding hashes; the given fields are written. *)
  r_hset : rstore -> Z -> str -> gmap str Z -> rstore;
  (** [SADD k x], [SREM k x] on keys holding sets; an empty set is no key.
      [PFADD k x] is [SADD] on a sketch, which is known by what it counted. *)
  r_sadd : rstore -> Z -> str -> str -> rstore;
  r_srem : rstore -> Z -> str -> str -> rstore;
  (** [PEXPIRE k ms] *)
  r_pexpire : rstore -> Z -> str -> Z -> rstore;

  dump_set_ex : forall s t k v ttl k',
    dump (r_set_ex s t k v ttl) k' = upd (dump s) k (Some (Entry v (Some (t + ttl * NS)))) k';
  dump_set_keepttl : forall s t k v k',
    dump (r_set_keepttl s t k v) k' =
    upd (dump s) k (Some (Entry v (exp_of (live t (dump s k))))) k';
  dump_del : forall s t k k', dump (r_del s t k) k' = upd (dump s) k None k';
  (** A missing key counts as zero; an existing one keeps its expiry. *)
  dump_incr : forall s t k k',
    dump (r_incr s t k).1 k' =
    upd (dump s) k
      (Some (Entry (RInt (int_of (live t (dump s k)) + 1)) (exp_of (live t (dump s k))))) k';
  incr_reply : forall s t k, (r_incr s t k).2 = int_of (live t (dump s k)) + 1;
  dump_decr : forall s t k k',
    dump (r_decr s t k).1 k' =
    upd (dump s) k
      (Some (Entry (RInt (int_of (live t (dump s k)) - 1)) (exp_of (live t (dump s k))))) k';
  decr_reply : forall s t k, (r_decr s t k).2 = int_of (live t (dump s k)) - 1;
  dump_expire : forall s t k ttl k',
    dump (r_expire s t k ttl) k' =
    upd (dump s) k
      (match live t (dump s k) with
       | Some e => Some (Entry (e_val e) (Some (t + ttl * NS)))
       | None => None
       end) k';
  (** Fields that are not written keep their value, the key its expiry. *)
  dump_hset : forall s t k fs k',
    dump (r_hset s t k fs) k' =
    upd (dump s) k
      (Some (Entry (RHash (fs ∪ hash_of (live t (dump s k)))) (exp_of (live t (dump s k))))) k';
  dump_sadd : forall s t k x k',
    dump (r_sadd s t k x) k' =
    upd (dump s) k
      (Some (Entry (RSet ({[x]} ∪ set_of (live t (dump s k)))) (exp_of (live t (dump s k))))) k';
  dump_srem : forall s t k x k',
    dump (r_srem s t k x) k' =
    upd (dump s) k
      (let left := set_of (live t (dump s k)) ∖ {[x]} in
       if decide (left = ∅) then None
       else Some (Entry (RSet left) (exp_of (live t (dump s k))))) k';
  dump_pexpire : forall s t k ms k',
    dump (r_pexpire s t k ms) k' =
    upd (dump s) k
      (match live t (dump s k) with
       | Some e => Some (Entry (e_val e) (Some (t + ms * MS)))
       | None => None
       end) k';
}.

(** [GET], [EXISTS] read the live entry. *)
Definition r_get `{RedisServer} (s : rstore) (t : Z) (k : str) : option rval :=
  e_val <$> live t (dump s k).
Definition r_exists `{RedisServer} (s : rstore) (t : Z) (k : str) : bool :=
  bool_decide (is_Some (live t (dump s k))).

(** [SET k v NX EX ttl]: the store and whether the key was set. *)
Definition r_set_nx_ex `{RedisServer} (s : rstore) (t : Z) (k : str) (v : rval) (ttl : Z) :
    rstore * bool :=
  if r_exists s t k then (s, false) else (r_set_ex s t k v ttl, true).

#[export] Instance redis_gmap : RedisServer.
Proof.
  refine {|
    rstore := gmap str entry;
    dump s k := s !! k;
    r_set_ex s t k v ttl := <[k := Entry v (Some (t + ttl * NS))]> s;
    r_set_keepttl s t k v := <[k := Entry v (exp_of (live t (s !! k)))]> s;
    r_del s t k := delete k s;
    r_incr s t k :=
      (<[k := Entry (RInt (int_of (live t (s !! k)) + 1)) (exp_of (live t (s !! k)))]> s,
       int_of (live t (s !! k)) + 1);
    r_decr s t k :=
      (<[k := Entry (RInt (int_of (live t (s !! k)) - 1)) (exp_of (live t (s !! k)))]> s,
       int_of (live t (s !! k)) - 1);
    r_expire s t k ttl :=
      match live t (s !! k) with
      | Some e => <[k := Entry (e_val e) (Some (t + ttl * NS))]> s
      | None => delete k s
      end;
    r_hset s t k fs :=
      <[k := Entry (RHash (fs ∪ hash_of (live t (s !! k)))) (exp_of (live t (s !! k)))]> s;
    r_sadd s t k x :=
      <[k := Entry (RSet ({[x]} ∪ set_of (live t (s !! k)))) (exp_of (live t (s !! k)))]> s;
    r_srem s t k x :=
      (let left := set_of (live t (s !! k)) ∖ {[x]} in
       if decide (left = ∅) then delete k s
       else <[k := Entry (RSet left) (exp_of (live t (s !! k)))]> s);
    r_pexpire s t k ms :=
      match live t (s !! k) with
      | Some e => <[k := Entry (e_val e) (Some (t + ms * MS))]> s
      | None => delete k s
      end;
  |}; intros; unfold upd; try done; repeat (case_match || case_decide); subst; by simplify_map_eq.
Defined.

(** [PFCOUNT]: the estimate a sketch gives of what it counted. *)
Class HyperLogLog := { hll_estimate : gset str -> Z; hll_empty : hll_estimate ∅ = 0 }.

#[export] Instance exact_hll : HyperLogLog :=
  {| hll_estimate x := Z.of_nat (size x); hll_empty := eq_refl |}.

(** The store as a function of the key, after a command. *)
Lemma upd_eq {A} (f : str -> option A) (k : str) (x : option A) : upd f k x k = x.
Proof. unfold upd. by rewrite decide_True. Qed.

Lemma upd_ne {A} (f : str -> option A) (k k' : str) (x : option A) :
  k' <> k -> upd f k x k' = f k'.
Proof. intros. unfold upd. by rewrite decide_False. Qed.

Create Rewrite HintDb redis.
#[export] Hint Rewrite @dump_set_ex @dump_set_keepttl @dump_del @dump_incr @incr_reply
  @dump_decr @decr_reply @dump_expire @dump_hset @dump_sadd @dump_srem @dump_pexpire @upd_eq : redis.
#[export] Hint Rewrite @upd_ne using (first [done | congruence]) : redis.

Lemma live_later (t t' : Z) (o : option entry) (e : entry) :
  t <= t' -> live t' o = Some e -> live t o = Some e.
Proof.
  unfold live, alive. destruct o as [e'|]; [|done]. intros Ht.
  destruct (e_exp e') as [x|]; [|done]. destruct (t' <? x) eqn:E; [|done].
  intros [= ->]. breflect. destruct (t <? x) eqn:E'; [done|]. breflect. lia.
Qed.

Lemma live_None_later (t t' : Z) (o : option entry) :
  t <= t' -> live t o = None -> live t' o = None.
Proof.
  intros Ht H. destruct (live t' o) as [e|] eqn:E; [|done].
  apply (live_later t) in E; [congruence|done].
Qed.

(** * [serde_json]: values, and the accessors the code uses *)

Inductive json_num :=
| JInt (n : Z)
| JFloat (ieee754_bits : Z).

Inductive json :=
| JNull
| JBool (b : bool)
| JNum (n : json_num)
| JStr (s : str)
| JArr (l : list json)
| JObj (fields : list (str * json)).

Definition as_str (v : json) : option str := match v with JStr s => Some s | _ => None end.

(** [as_i64], [as_u64]: an integer of the type's range, never a float. *)
Definition as_i64 (v : json) : option Z :=
  match v with
  | JNum (JInt n) => if (I64_MIN <=? n) && (n <=? I64_MAX) then Some n else None
  | _ => None
  end.

Definition as_u64 (v : json) : option Z :=
  match v with
  | JNum (JInt n) => if (0 <=? n) && (n <=? U64_MAX) then Some n else None
  | _ => None
  end.

Fixpoint map_get (k : str) (fields : list (str * json)) : option json :=
  match fields with
  | [] => None
  | (k', v) :: tl => if str_eqb k k' then Some v else map_get k tl
  end.

(** [Map::insert] keeps the keys in order and one value per key. *)
Fixpoint map_insert (k : str) (v : json) (fields : list (str * json)) : list (str * json) :=
  match fields with
  | [] => [(k, v)]
  | (k', v') :: tl =>
      if str_eqb k k' then (k, v) :: tl
      else if str_leb k k' then (k, v) :: fields
      else (k', v') :: map_insert k v tl
  end.

Fixpoint map_remove (k : str) (fields : list (str * json)) : list (str * json) :=
  match fields with
  | [] => []
  | (k', v) :: tl => if str_eqb k k' then map_remove k tl else (k', v) :: map_remove k tl
  end.

(** [v.get(k)], and [v[k]], which is [Null] when there is no such field. *)
Definition json_get (k : str) (v : json) : option json :=
  match v with JObj fields => map_get k fields | _ => None end.
Definition json_index (k : str) (v : json) : json := default JNull (json_get k v).

Lemma map_get_remove (k k' : str) (fields : list (str * json)) :
  map_get k (map_remove k' fields) = if str_eqb k k' then None else map_get k fields.
Proof.
  induction fields as [|[x v] tl IH]; cbn; [by case_cond|].
  destruct (str_eqb k' x) eqn:E1.
  - rewrite IH. apply str_eqb_eq in E1 as <-. by destruct (str_eqb k k').
  - cbn. rewrite IH. destruct (str_eqb k x) eqn:E2; [|done].
    apply str_eqb_eq in E2 as <-. destruct (str_eqb k k') eqn:E3; [|done].
    apply str_eqb_eq in E3 as <-. by rewrite str_eqb_refl in E1.
Qed.

Lemma map_get_insert (k k' : str) (v : json) (fields : list (str * json)) :
  map_get k (map_insert k' v fields) = if str_eqb k k' then Some v else map_get k fields.
Proof.
  induction fields as [|[x w] tl IH]; cbn; [done|].
  destruct (str_eqb k' x) eqn:E1; cbn.
  - apply str_eqb_eq in E1 as <-. by destruct (str_eqb k k').
  - destruct (str_leb k' x); cbn; [done|]. rewrite IH.
    destruct (str_eqb k x) eqn:E2; [|done]. apply str_eqb_eq in E2 as <-.
    destruct (str_eqb k k') eqn:E3; [|done]. apply str_eqb_eq in E3 as <-.
    by rewrite str_eqb_refl in E1.
Qed.
