(* ===== verification/Codec.v ===== *)
(** Codecs of values as lists of integers, each with its law: what is put is
    got back, and the rest is left.  The instances of the crates that write and
    parse text ([serde_json], [jsonwebtoken]) are built from them. *)
From S2P Require Import Prelude Crates.

Class Codec (A : Type) := {
  put : A -> list Z;
  get : list Z -> option (A * list Z);
  get_put : forall a r, get (put a ++ r) = Some (a, r);
}.

(** * Scalars *)

#[export] Instance codec_Z : Codec Z.
Proof. refine {| put z := [z]; get l := match l with z :: r => Some (z, r) | [] => None end |}. done. Defined.

(** A type that embeds in another. *)
Definition codec_iso {A B} `{Codec B} (f : A -> B) (g : B -> option A) (Hg : forall a, g (f a) = Some a) : Codec A.
Proof.
  refine {| put a := put (f a); get l := '(b, r) ← get l; a ← g b; Some (a, r) |}.
  intros a r. rewrite get_put. cbn. by rewrite Hg.
Defined.

#[export] Instance codec_bool : Codec bool.
Proof. refine (codec_iso (fun b : bool => if b then 1 else 0) (fun z => Some (z =? 1)) _). by intros []. Defined.

#[export] Instance codec_N : Codec N.
Proof. refine (codec_iso Z.of_N (fun z => Some (Z.to_N z)) _). intros a. by rewrite N2Z.id. Defined.

#[export] Instance codec_unit : Codec unit.
Proof. refine {| put _ := []; get l := Some (tt, l) |}. by intros []. Defined.

(** * Composites *)

#[export] Instance codec_pair {A B} `{Codec A} `{Codec B} : Codec (A * B).
Proof.
  refine {| put p := put p.1 ++ put p.2; get l := '(a, r) ← get l; '(b, r) ← get r; Some ((a, b), r) |}.
  intros [a b] r. rewrite <- app_assoc, get_put. cbn. by rewrite get_put.
Defined.

#[export] Instance codec_option {A} `{Codec A} : Codec (option A).
Proof.
  refine {| put o := match o with Some a => 1 :: put a | None => [0] end;
            get l := match l with
                     | 1 :: r => '(a, r) ← get r; Some (Some a, r)
                     | 0 :: r => Some (None, r)
                     | _ => None
                     end |}.
  intros [a|] r; [|done]. cbn. by rewrite get_put.
Defined.

(** A list is its length and its elements. *)
Fixpoint get_n {A} `{Codec A} (n : nat) (l : list Z) : option (list A * list Z) :=
  match n with
  | O => Some ([], l)
  | S n => '(a, r) ← get l; '(xs, r) ← get_n n r; Some (a :: xs, r)
  end.

Lemma get_n_put {A} `{Codec A} (xs : list A) (r : list Z) :
  get_n (length xs) (concat (map put xs) ++ r) = Some (xs, r).
Proof.
  induction xs as [|x xs IH]; [done|]. cbn. rewrite <- app_assoc, get_put. cbn. by rewrite IH.
Qed.

#[export] Instance codec_list {A} `{Codec A} : Codec (list A).
Proof.
  refine {| put xs := Z.of_nat (length xs) :: concat (map put xs);
            get l := match l with n :: r => get_n (Z.to_nat n) r | [] => None end |}.
  intros xs r. cbn. by rewrite Nat2Z.id, get_n_put.
Defined.

(** * Whole texts *)

(** Characters that are no ASCII: zigzag, moved past the first thousand. *)
Definition zigzag (z : Z) : Z := 1000 + (if 0 <=? z then 2 * z else - 2 * z - 1).
Definition unzigzag (c : Z) : Z :=
  let n := c - 1000 in if Z.even n then n / 2 else - ((n + 1) / 2).

Lemma unzigzag_zigzag (z : Z) : unzigzag (zigzag z) = z.
Proof.
  unfold unzigzag, zigzag. destruct (0 <=? z) eqn:E; breflect.
  - replace (1000 + 2 * z - 1000) with (2 * z) by lia. rewrite Z.even_mul. cbn. rewrite Z.mul_comm. by apply Z.div_mul.
  - replace (1000 + (- 2 * z - 1) - 1000) with (1 + 2 * (- z - 1)) by lia.
    rewrite Z.even_add_mul_2. cbn [Z.even]. replace (1 + 2 * (- z - 1) + 1) with (- z * 2) by lia.
    rewrite Z.div_mul; lia.
Qed.

Lemma zigzag_ge (z : Z) : 1000 <= zigzag z.
Proof. unfold zigzag. destruct (0 <=? z) eqn:E; breflect; lia. Qed.

Definition encode {A} `{Codec A} (a : A) : str := map zigzag (put a).
Definition decode {A} `{Codec A} (s : str) : option A :=
  match get (map unzigzag s) with Some (a, []) => Some a | _ => None end.

Lemma decode_encode {A} `{Codec A} (a : A) : decode (encode a) = Some a.
Proof.
  unfold decode, encode. rewrite map_map, (map_ext _ id), map_id by apply unzigzag_zigzag.
  rewrite <- (app_nil_r (put a)), get_put. done.
Qed.

Lemma encode_no_ascii {A} `{Codec A} (a : A) (c : Z) : c ∈ encode a -> 1000 <= c.
Proof. unfold encode. intros (z & -> & _)%list_elem_of_fmap. apply zigzag_ge. Qed.

(** * [serde]: a type with its JSON text, read back as written *)

Class Serde (A : Type) := {
  to_json_text : A -> str;
  from_json_text : str -> option A;
  serde_read_back : forall a, from_json_text (to_json_text a) = Some a;
}.

Definition serde_of_codec {A} `{Codec A} : Serde A.
Proof. refine {| to_json_text := encode; from_json_text := decode |}. apply decode_encode. Defined.
