(* ===== verification/Session.v ===== *)
(** The session domain (src/src/domain/session.rs): device labels, expiry,
    the verdict on a presented refresh token, first-party sessions and the
    values of the session validity cache. *)
From S2P Require Import Prelude Crates.

(** * Data *)

Inductive SessionType := Web | Device | PersonalAccessToken.

#[export] Instance session_type_eq_dec : EqDecision SessionType.
Proof. solve_decision. Defined.

Inductive SessionCompromiseReason :=
| RefreshTokenReuse
| ManualSecurityAction
| CredentialsRotated.

#[export] Instance compromise_reason_eq_dec : EqDecision SessionCompromiseReason.
Proof. solve_decision. Defined.

Definition session_type_str (t : SessionType) : str :=
  match t with
  | Web => u"web"
  | Device => u"device"
  | PersonalAccessToken => u"personal_access_token"
  end.

Record Session := {
  s_id : Uuid;
  s_user_id : Uuid;
  s_family : Uuid;
  s_last_used_at : OffsetDateTime;
  s_expires_at : OffsetDateTime;
  s_created_at : OffsetDateTime;
  s_family_created_at : OffsetDateTime;
  s_scopes : option (list str);
  s_revoked_at : option OffsetDateTime;
  s_rotated_at : option OffsetDateTime;
  s_compromised_at : option OffsetDateTime;
  s_replaced_by : option Uuid;
  s_ip_address : option IpNetwork;
  s_device_name : option str;
  s_remember_me : bool;
  s_token_hash : bytes;
  s_user_agent : option str;
  s_session_type : SessionType;
  s_client_id : option str;
  s_compromise_reason : option SessionCompromiseReason;
  s_mfa : bool;
  s_auth_time : option OffsetDateTime;
}.

#[export] Instance session_eq_dec : EqDecision Session.
Proof. solve_decision. Defined.

(** * Device labels *)

Definition DEVICE_NAME_MAX_CHARS : nat := 100.

Definition device_label (raw : str) : option str :=
  let cleaned := List.filter (fun c => negb (is_control c)) raw in
  let label := take DEVICE_NAME_MAX_CHARS (trim cleaned) in
  let label := trim_end label in
  if bool_decide (label = []) then None else Some label.

(** * Expiry and the refresh verdict *)

Section Verdict.
Context `{TimeCrate}.

Definition capped_expiry (now : OffsetDateTime) (ttl_secs : Z)
    (family_started_at : OffsetDateTime) (max_lifetime_secs : Z) : OffsetDateTime :=
  Z.min (saturating_add now (seconds (i64_or_max ttl_secs)))
        (saturating_add family_started_at (seconds (i64_or_max max_lifetime_secs))).

Definition is_active (s : Session) (now : OffsetDateTime) : bool :=
  bool_decide (s_revoked_at s = None) && (now <? s_expires_at s).

Definition is_compromised (s : Session) : bool :=
  bool_decide (is_Some (s_compromised_at s)).

Definition rotated_within (s : Session) (grace : Duration) (now : OffsetDateTime) : bool :=
  bool_decide (s_compromised_at s = None) &&
  match s_rotated_at s with
  | Some rotated => now - rotated <=? grace
  | None => false
  end.

Inductive RefreshVerdict := Rotate | ConcurrentRefresh | Replay | Expired | AddressMismatch.

Record RefreshPolicy := {
  reuse_grace : Duration;
  max_lifetime_secs : Z;
  strict_binding : bool;
}.

Definition refresh_verdict (s : Session) (now : OffsetDateTime) (request_ip : option IpAddr)
    (policy : RefreshPolicy) : RefreshVerdict :=
  if bool_decide (is_Some (s_revoked_at s)) then
    if rotated_within s (reuse_grace policy) now then ConcurrentRefresh else Replay
  else if negb (is_active s now) then Expired
  else
    let max_lifetime := i64_or_max (max_lifetime_secs policy) in
    if max_lifetime <=? whole_seconds (now - s_family_created_at s) then Expired
    else if strict_binding policy && negb (bool_decide (net_ip <$> s_ip_address s = request_ip))
    then AddressMismatch
    else Rotate.
End Verdict.

#[export] Instance refresh_verdict_eq_dec : EqDecision RefreshVerdict.
Proof. solve_decision. Defined.

(** * First-party sessions and the validity cache *)

Definition is_first_party (t : SessionType) (scoped for_client primary_client : bool) : bool :=
  negb (bool_decide (t = PersonalAccessToken)) && negb scoped && (negb for_client || primary_client).

Inductive TokenState :=
| Revoked
| Active (first_party : bool)
| Ended
| Unknown.

Definition CACHED_ENDED : Z := 0.
Definition CACHED_FIRST_PARTY : Z := 1.
Definition CACHED_DELEGATED : Z := 2.

Definition cached_value (active first_party : bool) : Z :=
  match active, first_party with
  | false, _ => CACHED_ENDED
  | true, true => CACHED_FIRST_PARTY
  | true, false => CACHED_DELEGATED
  end.

Definition token_state (blocklisted : bool) (cached : option Z) : TokenState :=
  match blocklisted, cached with
  | true, _ => Revoked
  | false, None => Unknown
  | false, Some v =>
      if v =? CACHED_FIRST_PARTY then Active true
      else if v =? CACHED_DELEGATED then Active false
      else Ended
  end.

(** * Theorems *)

Definition clean (s : str) : Prop := Forall (fun c => is_control c = false) s.

Lemma clean_filter (raw : str) : clean (List.filter (fun c => negb (is_control c)) raw).
Proof.
  apply Forall_forall. intros c Hc. apply list_elem_of_In, filter_In in Hc as [_ Hc].
  by apply negb_true_iff in Hc.
Qed.

Lemma filter_clean (s : str) : clean s -> List.filter (fun c => negb (is_control c)) s = s.
Proof. induction 1 as [|c s Hc _ IH]; [done|]. cbn. by rewrite Hc, IH. Qed.

Lemma trim_start_clean (s : str) : clean s -> clean (trim_start s).
Proof.
  destruct (trim_start_suffix s) as [ws [E _]]. intros Hs. rewrite E in Hs.
  by apply Forall_app in Hs as [_ Hs].
Qed.

Lemma trim_end_clean (s : str) : clean s -> clean (trim_end s).
Proof.
  destruct (trim_end_prefix s) as [ws [E _]]. intros Hs. rewrite E in Hs.
  by apply Forall_app in Hs as [Hs _].
Qed.

Lemma take_clean (n : nat) (s : str) : clean s -> clean (take n s).
Proof. apply Forall_take. Qed.

Lemma take_no_leading (n : nat) (s : str) : no_leading_ws s -> no_leading_ws (take n s).
Proof. by destruct n, s. Qed.

Lemma trim_end_length (s : str) : (length (trim_end s) <= length s)%nat.
Proof.
  destruct (trim_end_prefix s) as [ws [E _]]. apply (f_equal length) in E.
  rewrite length_app in E. lia.
Qed.

#[export] Hint Resolve clean_filter trim_start_clean trim_end_clean take_clean
  take_no_leading trim_end_no_leading : auth.

Lemma trim_no_leading (s : str) : no_leading_ws (trim s).
Proof. apply trim_start_fixed, trim_start_trim. Qed.

Lemma device_label_stable (raw label : str) :
  device_label raw = Some label ->
  label <> [] /\ (length label <= DEVICE_NAME_MAX_CHARS)%nat /\ clean label /\
  trim_start label = label /\ trim_end label = label.
Proof.
  unfold device_label. case_bool_decide as Hne; [done|]. intros [= <-].
  split_and!; [done| | | |apply trim_end_idem].
  - etrans; [apply trim_end_length|]. rewrite length_take. lia.
  - unfold trim. auto with auth.
  - apply trim_start_fixed. auto using trim_no_leading with auth.
Qed.

Lemma trim_fixed (s : str) : trim_start s = s -> trim_end s = s -> trim s = s.
Proof. unfold trim. by intros -> ->. Qed.

(** A device label is never empty nor longer than its column, holds no
    control character, has no white space around it, and stored again is the
    same label. *)
Theorem device_label_normal (raw label : str) :
  device_label raw = Some label ->
  label <> [] /\ (length label <= DEVICE_NAME_MAX_CHARS)%nat /\ clean label /\
  trim label = label /\ device_label label = Some label.
Proof.
  intros (Hne & Hlen & Hcl & Hs & He)%device_label_stable. pose proof (trim_fixed _ Hs He) as Ht.
  split_and!; [done..|]. unfold device_label. rewrite filter_clean, Ht, take_ge, He by done.
  by rewrite bool_decide_false.
Qed.

Lemma device_label_normal_witness : device_label u"my phone" = Some u"my phone".
Proof. apply (device_label_normal u"  my phone "). vm_compute. reflexivity. Defined.

Section VerdictTheorems.
Context `{TimeCrate}.

Lemma is_active_spec (s : Session) (now : Z) :
  is_active s now = true <-> s_revoked_at s = None /\ now < s_expires_at s.
Proof. unfold is_active. rewrite andb_true_iff, bool_decide_eq_true, Z.ltb_lt. done. Qed.

Lemma rotated_within_spec (s : Session) (grace now : Z) :
  rotated_within s grace now = true <->
  s_compromised_at s = None /\ exists r, s_rotated_at s = Some r /\ now - r <= grace.
Proof.
  unfold rotated_within. rewrite andb_true_iff, bool_decide_eq_true.
  destruct (s_rotated_at s) as [r|].
  - rewrite Z.leb_le. naive_solver.
  - naive_solver.
Qed.

Lemma refresh_verdict_rotate (s : Session) (now : Z) ip policy :
  refresh_verdict s now ip policy = Rotate <->
  s_revoked_at s = None /\ now < s_expires_at s /\
  whole_seconds (now - s_family_created_at s) < i64_or_max (max_lifetime_secs policy) /\
  (strict_binding policy = true -> net_ip <$> s_ip_address s = ip).
Proof.
  unfold refresh_verdict, is_active. destruct (s_revoked_at s) as [r|] eqn:Er; cbn.
  { case_match; naive_solver. }
  destruct (now <? s_expires_at s) eqn:Ee; cbn; breflect; [|naive_solver lia].
  case_cond; breflect; [naive_solver lia|].
  destruct (strict_binding policy); cbn; [|naive_solver].
  case_bool_decide; cbn; naive_solver.
Qed.

Lemma refresh_verdict_revoked (s : Session) (now : Z) ip policy :
  (refresh_verdict s now ip policy = ConcurrentRefresh <->
     is_Some (s_revoked_at s) /\ rotated_within s (reuse_grace policy) now = true) /\
  (refresh_verdict s now ip policy = Replay <->
     is_Some (s_revoked_at s) /\ rotated_within s (reuse_grace policy) now = false).
Proof.
  unfold refresh_verdict. case_bool_decide; [case_match; naive_solver|].
  split; repeat case_cond; naive_solver.
Qed.

Lemma capped_expiry_le (now ttl fam max : Z) :
  capped_expiry now ttl fam max <= saturating_add now (seconds (i64_or_max ttl)) /\
  capped_expiry now ttl fam max <= saturating_add fam (seconds (i64_or_max max)).
Proof. unfold capped_expiry. lia. Qed.

Lemma capped_expiry_lifetime (now ttl fam max : Z) :
  dt_min <= fam <= dt_max -> 0 <= max ->
  fam <= saturating_add fam (seconds (i64_or_max max)) /\
  capped_expiry now ttl fam max <= fam + seconds max.
Proof.
  intros Hf Hm. rewrite i64_or_max_min. assert (0 <= I64_MAX) by done.
  split; [apply saturating_add_ge; [done|]; unfold seconds, NS; lia|].
  pose proof (capped_expiry_le now ttl fam max) as [_ Hle].
  rewrite i64_or_max_min in Hle. etrans; [exact Hle|].
  etrans; [apply saturating_add_le|]; unfold seconds, NS; lia.
Qed.
End VerdictTheorems.
