(* ===== verification/Account.v ===== *)
(** Accounts and what decides about them: users (src/src/domain/user.rs),
    sign-in failures (domain/login_attempt.rs), one-time tokens
    (domain/token.rs), second factors (domain/two_factor.rs), roles
    (domain/role.rs), audit actions (domain/audit.rs), known devices
    (domain/known_device.rs) and the email change flow
    (domain/email_change.rs). *)
From S2P Require Import Prelude Crates.

(** * Users *)

Module User.

Inductive UserStatus := ActiveUser | Inactive | Suspended | PendingVerification.

#[export] Instance user_status_eq_dec : EqDecision UserStatus.
Proof. solve_decision. Defined.

Record User := {
  u_id : Uuid;
  u_created_at : OffsetDateTime;
  u_updated_at : OffsetDateTime;
  u_email_verified_at : option OffsetDateTime;
  u_last_login_at : option OffsetDateTime;
  u_locked_until : option OffsetDateTime;
  u_status : UserStatus;
  u_preferred_locale : str;
  u_username : str;
  u_email : str;
  u_password_hash : str;
}.

#[export] Instance user_eq_dec : EqDecision User.
Proof. solve_decision. Defined.

Definition is_locked (self : User) (now : OffsetDateTime) : bool :=
  match u_locked_until self with Some t => now <? t | None => false end.

Definition user_is_active (self : User) : bool := bool_decide (u_status self = ActiveUser).

Definition is_email_verified (self : User) : bool :=
  bool_decide (is_Some (u_email_verified_at self)).

Definition is_valid_username (username : str) : bool :=
  negb (bool_decide (username = [])) &&
  bytes_all (fun b => is_ascii_alphanumeric b || (b =? 95)) username.

Definition local_byte (b : Z) : bool := is_ascii_alphanumeric b || byte_in u"._%+-" b.
Definition host_byte (b : Z) : bool := is_ascii_alphanumeric b || byte_in u".-" b.

Definition is_storable_email (email : str) : bool :=
  if (254 <? byte_len email) || negb (is_ascii email) then false
  else match split_once 64 email with
  | None => false
  | Some (local, domain) =>
      match rsplit_once 46 domain with
      | None => false
      | Some (host, tld) =>
          negb (bool_decide (local = [])) && bytes_all local_byte local &&
          negb (bool_decide (host = [])) && bytes_all host_byte host &&
          (2 <=? byte_len tld) && bytes_all is_ascii_alphabetic tld
      end
  end.

Section Search.
(** [str::to_lowercase], the Unicode lower-case mapping. *)
Variable to_lowercase : str -> str.

Definition escape_like (c : Z) : str :=
  if (c =? 37) || (c =? 95) || (c =? 92) then [92; c] else [c].

Definition prefix_pattern (query : str) : str :=
  concat (map escape_like (to_lowercase (trim query))) ++ [37].
End Search.

(** The [users_email_format] constraint of migrations/0002_users.sql:
    [^[A-Z0-9._%+-]+@[A-Z0-9.-]+\.[A-Z]{2,}$], whatever the case. *)
Definition users_email_format (email : str) : Prop :=
  exists local host tld, email = local ++ 64 :: host ++ 46 :: tld /\
    local <> [] /\ Forall (fun b => local_byte b = true) local /\
    host <> [] /\ Forall (fun b => host_byte b = true) host /\
    (2 <= length tld)%nat /\ Forall (fun b => is_ascii_alphabetic b = true) tld.

(** The constraint as a check. *)
Definition email_format (email : str) : bool :=
  is_ascii email &&
  match split_once 64 email with
  | None => false
  | Some (local, domain) =>
      match rsplit_once 46 domain with
      | None => false
      | Some (host, tld) =>
          negb (bool_decide (local = [])) && bytes_all local_byte local &&
          negb (bool_decide (host = [])) && bytes_all host_byte host &&
          (2 <=? byte_len tld) && bytes_all is_ascii_alphabetic tld
      end
  end.

(** SQL's [value LIKE pattern] with its default escape character. *)
Fixpoint like (pattern : str) : str -> bool :=
  match pattern with
  | [] => fun s => match s with [] => true | _ => false end
  | p :: pattern' =>
      if p =? 37 then
        fix any s := like pattern' s || match s with [] => false | _ :: s' => any s' end
      else if p =? 92 then
        match pattern' with
        | [] => fun _ => false
        | q :: pattern'' =>
            fun s => match s with [] => false | c :: s' => (c =? q) && like pattern'' s' end
        end
      else
        fun s => match s with
                 | [] => false
                 | c :: s' => ((p =? 95) || (c =? p)) && like pattern' s'
                 end
  end.

Lemma split_once_spec (c : Z) (s a b : str) :
  split_once c s = Some (a, b) <-> s = a ++ c :: b /\ c ∉ a.
Proof.
  revert a. induction s as [|x s IH]; intros a; cbn.
  { split; [done|]. intros [H _]. by destruct a. }
  destruct (x =? c) eqn:E; breflect.
  - subst. split; [intros [= <- <-]; split; [done|]; apply not_elem_of_nil|].
    intros [H Ha]. destruct a as [|y a]; simplify_eq/=; [done|]. set_solver.
  - destruct (split_once c s) as [[a' b']|] eqn:Es.
    + split.
      * intros [= <- <-]. destruct (proj1 (IH a') eq_refl) as [-> Ha]. set_solver.
      * intros [H Ha]. destruct a as [|y a]; simplify_eq/=.
        assert (Some (a', b') = Some (a, b)) as [= -> ->] by (apply IH; set_solver).
        done.
    + split; [done|]. intros [H Ha]. destruct a as [|y a]; simplify_eq/=.
      assert (None = Some (a, b)) by (apply IH; set_solver). done.
Qed.

Lemma rsplit_once_spec (c : Z) (s a b : str) :
  rsplit_once c s = Some (a, b) <-> s = a ++ c :: b /\ c ∉ b.
Proof.
  unfold rsplit_once. split.
  - destruct (split_once c (reverse s)) as [[x y]|] eqn:E; [|done].
    intros [= <- <-]. apply split_once_spec in E as [E Hx].
    apply (f_equal reverse) in E. rewrite reverse_involutive, reverse_app, reverse_cons in E.
    rewrite E, <- app_assoc. split; [done|]. by rewrite elem_of_reverse.
  - intros [-> Hb]. rewrite reverse_app, reverse_cons, <- app_assoc. cbn.
    replace (split_once _ _) with (Some (reverse b, reverse a)).
    + by rewrite !reverse_involutive.
    + symmetry. apply split_once_spec. split; [done|]. by rewrite elem_of_reverse.
Qed.

Lemma ascii_byte_len (s : str) : is_ascii s = true -> byte_len s = Z.of_nat (length s).
Proof.
  induction s as [|c s IH]; [done|]. unfold is_ascii in *. cbn [forallb].
  intros [Hc Hs]%andb_true_iff. change (byte_len (c :: s)) with (char_len c + byte_len s).
  unfold char_len. rewrite Hc, IH by done. cbn [length]. lia.
Qed.

Lemma bytes_all_Forall (p : Z -> bool) (s : str) :
  bytes_all p s = true <-> Forall (fun b => p b = true) s.
Proof.
  unfold bytes_all. rewrite forallb_forall, Forall_forall.
  setoid_rewrite list_elem_of_In. done.
Qed.

Lemma alpha_ascii (c : Z) : is_ascii_alphabetic c = true -> 65 <= c <= 122.
Proof. unfold is_ascii_alphabetic, is_ascii_lowercase, is_ascii_uppercase. breflect. lia. Qed.

Lemma alnum_ascii (c : Z) : is_ascii_alphanumeric c = true -> 48 <= c <= 122 /\ c <> 64.
Proof.
  unfold is_ascii_alphanumeric, is_ascii_alphabetic, is_ascii_lowercase,
    is_ascii_uppercase, is_ascii_digit. breflect. lia.
Qed.

Lemma byte_in_spec (l : str) (c : Z) : byte_in l c = true <-> c ∈ l.
Proof. apply bool_decide_eq_true. Qed.

Lemma local_byte_ascii (c : Z) : local_byte c = true -> c < 128 /\ c <> 64.
Proof.
  unfold local_byte. rewrite orb_true_iff, byte_in_spec. intros [H%alnum_ascii|H]; [lia|].
  cbn in H. rewrite !elem_of_cons in H. set_solver by lia.
Qed.

Lemma host_byte_ascii (c : Z) : host_byte c = true -> c < 128.
Proof.
  unfold host_byte. rewrite orb_true_iff, byte_in_spec. intros [H%alnum_ascii|H]; [lia|].
  cbn in H. rewrite !elem_of_cons in H. set_solver by lia.
Qed.

Lemma is_ascii_Forall (s : str) : is_ascii s = true <-> Forall (fun c => c < 128) s.
Proof.
  unfold is_ascii. rewrite forallb_forall, Forall_forall.
  setoid_rewrite list_elem_of_In. setoid_rewrite Z.ltb_lt. done.
Qed.

Lemma email_format_ascii (email : str) : users_email_format email -> is_ascii email = true.
Proof.
  intros (local & host & tld & -> & _ & Hl & _ & Hh & _ & Ht). apply is_ascii_Forall.
  rewrite Forall_app, Forall_cons, Forall_app, Forall_cons. split_and!; [|lia| |lia|].
  - eapply Forall_impl; [exact Hl|]. intros c ?%local_byte_ascii. lia.
  - eapply Forall_impl; [exact Hh|]. intros c ?%host_byte_ascii. lia.
  - eapply Forall_impl; [exact Ht|]. intros c ?%alpha_ascii. lia.
Qed.

Lemma storable_email_fields (local host tld : str) :
  is_ascii tld = true ->
  negb (bool_decide (local = [])) && bytes_all local_byte local &&
  negb (bool_decide (host = [])) && bytes_all host_byte host &&
  (2 <=? byte_len tld) && bytes_all is_ascii_alphabetic tld = true <->
  local <> [] /\ Forall (fun b => local_byte b = true) local /\
  host <> [] /\ Forall (fun b => host_byte b = true) host /\
  (2 <= length tld)%nat /\ Forall (fun b => is_ascii_alphabetic b = true) tld.
Proof.
  intros Ha. rewrite (ascii_byte_len tld Ha).
  rewrite !andb_true_iff, !negb_true_iff, !bool_decide_eq_false, !bytes_all_Forall, Z.leb_le.
  split; intros; destruct_and?; split_and!; try done; lia.
Qed.

Lemma email_format_iff (email : str) : email_format email = true <-> users_email_format email.
Proof.
  unfold email_format. rewrite andb_true_iff. split.
  - intros [Ha H]. destruct (split_once 64 email) as [[local domain]|] eqn:E1; [|done].
    destruct (rsplit_once 46 domain) as [[host tld]|] eqn:E2; [|done].
    apply split_once_spec in E1 as [-> _]. apply rsplit_once_spec in E2 as [-> _].
    assert (is_ascii tld = true) as Ht.
    { rewrite is_ascii_Forall, Forall_app, Forall_cons, Forall_app, Forall_cons in Ha.
      apply is_ascii_Forall. tauto. }
    rewrite storable_email_fields in H by done. exists local, host, tld. tauto.
  - intros Hf. split; [by apply email_format_ascii|].
    destruct Hf as (local & host & tld & -> & Hl0 & Hl & Hh0 & Hh & Ht0 & Ht).
    replace (split_once 64 _) with (Some (local, host ++ 46 :: tld)).
    2:{ symmetry. apply split_once_spec. split; [done|]. intros Hin.
        rewrite Forall_forall in Hl. by apply Hl, local_byte_ascii in Hin as []. }
    replace (rsplit_once 46 _) with (Some (host, tld)).
    2:{ symmetry. apply rsplit_once_spec. split; [done|]. intros Hin.
        rewrite Forall_forall in Ht. apply Ht, alpha_ascii in Hin. lia. }
    apply storable_email_fields; [|tauto]. apply is_ascii_Forall.
    eapply Forall_impl; [exact Ht|]. intros c ?%alpha_ascii. lia.
Qed.

(** The address check at the edge accepts exactly the addresses the
    [users_email_format] constraint of the database stores, within 254 bytes, so
    an accepted address never fails at the insert nor a storable one at the
    edge. *)
Theorem is_storable_email_iff (email : str) :
  is_storable_email email = true <-> byte_len email <= 254 /\ users_email_format email.
Proof.
  rewrite <- email_format_iff. unfold is_storable_email, email_format.
  destruct (254 <? byte_len email) eqn:El; breflect; [split; [done|lia]|].
  destruct (is_ascii email); cbn; intuition lia.
Qed.

Lemma like_any (s : str) : like [37] s = true.
Proof. induction s as [|c s IH]; [done|]. cbn in *. done. Qed.

Lemma like_escaped (q s : str) :
  like (concat (map escape_like q) ++ [37]) s = starts_with q s.
Proof.
  revert s. induction q as [|c q IH]; intros s; [apply like_any|].
  cbn [map concat]. unfold escape_like at 1.
  destruct ((c =? 37) || (c =? 95) || (c =? 92)) eqn:E; cbn [app like].
  - cbn. destruct s as [|x s]; [done|]. rewrite (Z.eqb_sym c x). by rewrite <- IH.
  - rewrite !orb_false_iff in E. destruct E as [[E1 E2] E3]. rewrite E1, E3, E2. cbn.
    destruct s as [|x s]; [done|]. rewrite (Z.eqb_sym c x). by rewrite <- IH.
Qed.

(** The search pattern built from what an administrator typed matches, by
    SQL's [LIKE], exactly the values that start with it, trimmed and in lower
    case: no typed character acts as a wildcard. *)
Theorem prefix_pattern_exact (to_lowercase : str -> str) (q s : str) :
  like (prefix_pattern to_lowercase q) s = starts_with (to_lowercase (trim q)) s.
Proof. apply like_escaped. Qed.

End User.

(** * Sign-in failures *)

Module LoginAttempt.

Inductive LoginFailureReason :=
| UnknownIdentifier
| InvalidPassword
| EmailNotVerifiedReason
| AccountInactiveReason
| AccountSuspendedReason
| AccountDisabled
| TwoFactorRequiredReason
| TwoFactorFailedReason
| RateLimited
| AccountLockedReason.

#[export] Instance login_failure_reason_eq_dec : EqDecision LoginFailureReason.
Proof. solve_decision. Defined.

Record LoginAttempt := {
  la_user_id : option Uuid;
  la_attempted_at : OffsetDateTime;
  la_attempted_identifier : str;
  la_was_successful : bool;
  la_failure_reason : option LoginFailureReason;
  la_request_ip : option IpNetwork;
  la_request_user_agent : option str;
}.

Record RecentFailures := {
  by_ip : Z;
  distinct_identifiers_by_ip : Z;
  by_identifier : Z;
}.

Record FailureCeilings := {
  max_by_ip : Z;
  max_distinct_identifiers_by_ip : Z;
  max_by_identifier : Z;
}.

Definition reach (self : RecentFailures) (ceilings : FailureCeilings) : bool :=
  (max_by_ip ceilings <=? by_ip self)
  || (max_distinct_identifiers_by_ip ceilings <=? distinct_identifiers_by_ip self)
  || (max_by_identifier ceilings <=? by_identifier self).

Definition UNRECOGNIZED_IDENTIFIER : str := u"<unrecognized>".

Definition storable_identifier (typed : str) : str :=
  let username := ((3 <=? byte_len typed) && (byte_len typed <=? 50)) && User.is_valid_username typed in
  if username || User.is_storable_email typed then typed else UNRECOGNIZED_IDENTIFIER.

Lemma reach_false (f : RecentFailures) (c : FailureCeilings) :
  reach f c = false <->
  by_ip f < max_by_ip c /\ distinct_identifiers_by_ip f < max_distinct_identifiers_by_ip c /\
  by_identifier f < max_by_identifier c.
Proof. unfold reach. breflect. tauto. Qed.

End LoginAttempt.

(** * One-time tokens *)

Module Token.

Record EmailVerificationToken := {
  ev_id : Uuid;
  ev_user_id : Uuid;
  ev_token_hash : bytes;
  ev_created_at : OffsetDateTime;
  ev_expires_at : OffsetDateTime;
  ev_used_at : option OffsetDateTime;
  ev_request_ip : option IpNetwork;
  ev_request_user_agent : option str;
  ev_target_email : str;
  ev_password_hash : option str;
  ev_username : option str;
  ev_preferred_locale : option str;
}.

Record PendingCredentials := {
  pc_password_hash : str;
  pc_username : str;
  pc_preferred_locale : str;
}.

Record PasswordResetToken := {
  pr_id : Uuid;
  pr_user_id : Uuid;
  pr_token_hash : bytes;
  pr_created_at : OffsetDateTime;
  pr_expires_at : OffsetDateTime;
  pr_used_at : option OffsetDateTime;
  pr_request_ip : option IpNetwork;
  pr_request_user_agent : option str;
}.

Record MagicLinkToken := {
  ml_id : Uuid;
  ml_user_id : Uuid;
  ml_token_hash : bytes;
  ml_created_at : OffsetDateTime;
  ml_expires_at : OffsetDateTime;
  ml_used_at : option OffsetDateTime;
  ml_request_ip : option IpNetwork;
  ml_request_user_agent : option str;
}.

Inductive TokenVerdict := ValidToken | ExpiredToken | UsedToken.

(** The trait [OneTimeToken]. *)
Class OneTimeToken (T : Type) := {
  used_at : T -> option OffsetDateTime;
  expires_at : T -> OffsetDateTime;
}.

Section OneTimeTokenMethods.
Context {T : Type} `{OneTimeToken T}.

Definition is_used (self : T) : bool := bool_decide (is_Some (used_at self)).

Definition is_expired (self : T) (now : OffsetDateTime) : bool := expires_at self <? now.

Definition is_valid (self : T) (now : OffsetDateTime) : bool :=
  negb (is_used self) && negb (is_expired self now).

Definition verdict (self : T) (now : OffsetDateTime) : TokenVerdict :=
  if is_expired self now then ExpiredToken
  else if is_used self then UsedToken
  else ValidToken.

Lemma verdict_valid (self : T) (now : Z) :
  verdict self now = ValidToken <-> used_at self = None /\ now <= expires_at self.
Proof.
  unfold verdict, is_expired, is_used. case_cond; breflect; [naive_solver lia|].
  case_bool_decide as Hu; [|rewrite eq_None_not_Some; tauto].
  destruct Hu as [x Hx]. rewrite Hx. naive_solver.
Qed.
End OneTimeTokenMethods.

#[export] Instance email_verification_one_time : OneTimeToken EmailVerificationToken :=
  {| used_at := ev_used_at; expires_at := ev_expires_at |}.
#[export] Instance password_reset_one_time : OneTimeToken PasswordResetToken :=
  {| used_at := pr_used_at; expires_at := pr_expires_at |}.
#[export] Instance magic_link_one_time : OneTimeToken MagicLinkToken :=
  {| used_at := ml_used_at; expires_at := ml_expires_at |}.

End Token.

(** * Second factors *)

Module TwoFactor.

Inductive TwoFactorType := Totp | Email.

#[export] Instance two_factor_type_eq_dec : EqDecision TwoFactorType.
Proof. solve_decision. Defined.

Record TwoFactorMethod := {
  tf_id : Uuid;
  tf_user_id : Uuid;
  tf_last_used_at : option OffsetDateTime;
  tf_created_at : OffsetDateTime;
  tf_updated_at : OffsetDateTime;
  tf_method_type : TwoFactorType;
  tf_is_primary : bool;
  tf_is_verified : bool;
  tf_totp_secret : option str;
}.

Record RecoveryCode := {
  rc_id : Uuid;
  rc_user_id : Uuid;
  rc_created_at : OffsetDateTime;
  rc_expires_at : option OffsetDateTime;
  rc_used_at : option OffsetDateTime;
  rc_code_position : Z;
  rc_code_hash : bytes;
}.

Definition recovery_is_used (self : RecoveryCode) : bool :=
  bool_decide (is_Some (rc_used_at self)).

End TwoFactor.

(** * Roles *)

Module Role.

Record Role := {
  ro_id : Uuid;
  ro_created_at : OffsetDateTime;
  ro_is_default : bool;
  ro_name : str;
  ro_description : option str;
}.

Record UserRole := {
  ur_user_id : Uuid;
  ur_role_id : Uuid;
  ur_granted_by : option Uuid;
  ur_granted_at : OffsetDateTime;
}.

Definition ADMIN_PERMISSIONS : list str :=
  [u"users:read"; u"users:manage"; u"roles:manage"; u"clients:manage"; u"audit:read";
   u"webhooks:manage"].

Definition is_admin_permission (permission : str) : bool := contains ADMIN_PERMISSIONS permission.

Definition ROLES_MANAGE : str := u"roles:manage".

Definition is_valid_role_name (name : str) : bool :=
  ((2 <=? byte_len name) && (byte_len name <=? 50)) &&
  match as_bytes name with b :: _ => is_ascii_lowercase b | [] => false end &&
  bytes_all (fun b => is_ascii_lowercase b || is_ascii_digit b || (b =? 95)) name.

End Role.

(** * The audit log *)

Module Audit.

Inductive AuditAction :=
| Login | LoginFailed | Logout | Register | EmailVerificationSent | EmailVerified
| PasswordChanged | PasswordResetRequested | PasswordResetCompleted | TwoFactorEnabled
| TwoFactorDisabled | TwoFactorVerified | TwoFactorFailed | RoleAssigned | RoleRevoked
| SessionRevoked | SessionReplayDetected | SessionFamilyRevoked | AccountSuspended
| AccountReactivated | RateLimitExceeded | SuspiciousLogin | NewDeviceLogin
| AccountDeleted | Reauthenticated | UsernameChanged | RecoveryCodeUsed | EmailChanged
| EncryptionKeyRotated | AccountUnlocked | PasswordResetForced | AccessFactorsRemoved
| ClientAuthorized | DeviceApproved | DeviceDenied | AdminDataRead | RoleCreated
| RoleDeleted | RolePermissionsChanged | ClientRegistered | ClientUpdated | ClientDeleted
| DataExported | MagicLinkSent | PersonalAccessTokenCreated | PersonalAccessTokenRevoked
| WebhookCreated | WebhookUpdated | WebhookDeleted | WebhookSecretRotated
| ClientSecretRotated | PasskeyRegistered | PasskeyRemoved | ExternalIdentityLinked
| ExternalIdentityUnlinked.

#[export] Instance audit_action_eq_dec : EqDecision AuditAction.
Proof. solve_decision. Defined.

Record AuditLog := {
  al_id : Uuid;
  al_user_id : option Uuid;
  al_request_id : option Uuid;
  al_created_at : OffsetDateTime;
  al_action : AuditAction;
  al_ip_address : option IpNetwork;
  al_metadata : json;
}.

Definition OPERATOR_FIELDS : list str := [u"administrator_id"; u"operator"; u"host"].

Definition owner_view (metadata : json) (ip_address : option IpNetwork) :
    json * option IpNetwork :=
  let by_ := json_get u"by" metadata ≫= as_str in
  if negb (bool_decide (by_ = Some u"administrator" \/ by_ = Some u"command_line"))
  then (metadata, ip_address)
  else
    let metadata :=
      match metadata with
      | JObj fields => JObj (foldl (fun fs field => map_remove field fs) fields OPERATOR_FIELDS)
      | other => other
      end in
    (metadata, None).

(** An entry made by an operator. *)
Definition by_operator (metadata : json) : Prop :=
  json_get u"by" metadata = Some (JStr u"administrator") \/
  json_get u"by" metadata = Some (JStr u"command_line").

Lemma by_operator_spec (metadata : json) :
  by_operator metadata <->
  (json_get u"by" metadata ≫= as_str = Some u"administrator" \/
   json_get u"by" metadata ≫= as_str = Some u"command_line").
Proof.
  unfold by_operator. destruct (json_get u"by" metadata) as [[]|]; cbn; naive_solver.
Qed.

Lemma map_get_remove_all (k : str) (ks : list str) (fields : list (str * json)) :
  map_get k (foldl (fun fs field => map_remove field fs) fields ks) =
  if contains ks k then None else map_get k fields.
Proof.
  revert fields. induction ks as [|x ks IH]; intros fields; cbn; [done|].
  rewrite IH, map_get_remove. unfold contains, str_eqb.
  repeat case_bool_decide; set_solver.
Qed.

(** An account's owner never learns which operator acted on the account:
    in an entry made by an administrator or from the command line the address
    and every operator field are gone, and the other fields are kept; any other
    entry is shown as it is. *)
Theorem owner_view_hides_operator (metadata : json) (ip : option IpNetwork) :
  (by_operator metadata ->
     (owner_view metadata ip).2 = None /\
     forall k, json_get k (owner_view metadata ip).1 =
               if contains OPERATOR_FIELDS k then None else json_get k metadata) /\
  (~ by_operator metadata -> owner_view metadata ip = (metadata, ip)).
Proof.
  unfold owner_view. rewrite by_operator_spec. split; intros Hby.
  - rewrite bool_decide_true by done. cbn [negb]. split; [done|]. intros k.
    destruct metadata as [| | | | |fields]; cbn in Hby; try (by destruct Hby).
    apply map_get_remove_all.
  - by rewrite bool_decide_false.
Qed.

Lemma owner_view_hides_operator_witness :
  let metadata := JObj [(u"by", JStr u"administrator"); (u"host", JStr u"ops-1")] in
  json_get u"host" (owner_view metadata None).1 = None.
Proof.
  intros metadata.
  exact (proj2 (proj1 (owner_view_hides_operator metadata None) (or_introl eq_refl)) u"host").
Defined.

End Audit.

(** * Known devices *)

Module KnownDevice.

Record DeviceFamily := { browser : str; os : str }.

Definition describe (self : DeviceFamily) : str := browser self ++ u" on " ++ os self.

Definition fingerprint `{CryptoCrates} (self : DeviceFamily) : bytes :=
  sha256 (as_bytes (browser self ++ u"|" ++ os self)).

Definition device_family (user_agent : option str) : DeviceFamily :=
  let ua := trim (default [] user_agent) in
  let has token := has_substring token ua in
  {| os :=
       if has u"Android" then u"Android"
       else if has u"iPhone" || has u"iPad" || has u"iPod" then u"iOS"
       else if has u"CrOS" then u"ChromeOS"
       else if has u"Windows" then u"Windows"
       else if has u"Macintosh" || has u"Mac OS X" then u"macOS"
       else if has u"Linux" then u"Linux"
       else u"an unknown system";
     browser :=
       if bool_decide (ua = []) then u"an unknown client"
       else if has u"Edg/" || has u"Edge/" || has u"EdgiOS" || has u"EdgA/" then u"Edge"
       else if has u"OPR/" || has u"Opera" then u"Opera"
       else if has u"Firefox/" || has u"FxiOS" then u"Firefox"
       else if has u"SamsungBrowser" then u"Samsung Internet"
       else if has u"Chrome/" || has u"CriOS" then u"Chrome"
       else if has u"Safari/" then u"Safari"
       else u"another client" |}.

(** The versions and the rest of an agent string do not count: two agents
    carrying the same tokens are one device. *)
Definition KNOWN_TOKENS : list str :=
  [u"Android"; u"iPhone"; u"iPad"; u"iPod"; u"CrOS"; u"Windows"; u"Macintosh"; u"Mac OS X";
   u"Linux"; u"Edg/"; u"Edge/"; u"EdgiOS"; u"EdgA/"; u"OPR/"; u"Opera"; u"Firefox/"; u"FxiOS";
   u"SamsungBrowser"; u"Chrome/"; u"CriOS"; u"Safari/"].

Lemma device_family_tokens (a b : str) :
  trim a <> [] -> trim b <> [] ->
  Forall (fun token => has_substring token (trim a) = has_substring token (trim b)) KNOWN_TOKENS ->
  device_family (Some a) = device_family (Some b).
Proof.
  intros Ha Hb HF. unfold KNOWN_TOKENS in HF.
  repeat match goal with H : Forall _ (_ :: _) |- _ => apply Forall_cons in H as [? H] end.
  unfold device_family. cbn [default from_option id]. cbv zeta beta.
  rewrite !bool_decide_false by done.
  repeat match goal with E : has_substring _ _ = _ |- _ => rewrite E; clear E end. done.
Qed.

End KnownDevice.

(** * The email change flow *)

Module EmailChangeFlow.

Inductive FlowStep := CurrentVerify | NewSubmit | NewVerify.
Inductive FlowEvent := CurrentConfirmed | NewAddressSubmitted | NewConfirmed.
Inductive Transition := To (s : FlowStep) | Done.

#[export] Instance flow_step_eq_dec : EqDecision FlowStep.
Proof. solve_decision. Defined.

Definition after (self : FlowStep) (event : FlowEvent) : option Transition :=
  match self, event with
  | CurrentVerify, CurrentConfirmed => Some (To NewSubmit)
  | NewSubmit, NewAddressSubmitted => Some (To NewVerify)
  | NewVerify, NewConfirmed => Some Done
  | _, _ => None
  end.

(** Events arriving in any order: one that does not belong to the step is
    refused and changes nothing; once done, nothing is left to do. *)
Definition flow_feed (t : Transition) (event : FlowEvent) : Transition :=
  match t with
  | To s => default t (after s event)
  | Done => Done
  end.

Definition order (t : Transition) : list FlowEvent :=
  match t with
  | To CurrentVerify => [CurrentConfirmed; NewAddressSubmitted; NewConfirmed]
  | To NewSubmit => [NewAddressSubmitted; NewConfirmed]
  | To NewVerify => [NewConfirmed]
  | Done => []
  end.

(** Whatever events arrive, repeated or out of order, an address change
    completes exactly when the confirmation of the current address, the new
    address and its confirmation came in that order. *)
Theorem flow_order (t : Transition) (events : list FlowEvent) :
  foldl flow_feed t events = Done <-> sublist (order t) events.
Proof.
  revert t. induction events as [|e events IH]; intros t; cbn [foldl].
  - split; [intros ->; apply sublist_nil_l|]. intros H%sublist_nil_r.
    by destruct t as [[]|].
  - rewrite IH. destruct t as [[]|], e; cbn [flow_feed after default from_option id order];
    (split; intros H; [by constructor|inv H; try done]);
    first [apply sublist_nil_l | etrans; [by apply sublist_cons|eassumption]].
Qed.

End EmailChangeFlow.
