(* ===== verification/OAuthDomain.v ===== *)
(** OAuth and OpenID Connect vocabulary and decisions: scopes and request
    parameters (src/src/domain/oauth.rs), identity scopes and claims
    (domain/oidc.rs), registered clients (domain/registered_client.rs),
    personal access tokens (domain/personal_access_token.rs), device requests
    (domain/device.rs), external identities (domain/external_identity.rs). *)
From S2P Require Import Prelude Crates Account.
Import Account.User.

(** [s.trim_end_matches(c)] and [s.trim_start_matches(c)] for one character. *)
Fixpoint trim_start_matches (c : Z) (s : str) : str :=
  match s with
  | [] => []
  | x :: s' => if x =? c then trim_start_matches c s' else s
  end.

Definition trim_end_matches (c : Z) (s : str) : str := reverse (trim_start_matches c (reverse s)).

(** * URLs: the crate [url], read through its accessors *)

Record Url := {
  url_scheme : str;
  url_host_str : option str;
  url_username : str;
  url_password : option str;
  url_fragment : option str;
  url_port : option Z;
  url_path : str;
  url_query : option str;
  (** [as_str]: the URL serialized. *)
  url_as_str : str;
}.

Class UrlCrate := {
  (** [Url::parse]; the error is the message shown. *)
  url_parse : str -> result Url str;
  (** [url.query_pairs_mut().append_pair] for each pair, then [to_string]. *)
  url_append_pairs : str -> list (str * str) -> option str;
  (** [str::parse::<IpAddr>]. *)
  parse_ip : str -> option IpAddr;
  (** A URL that does not parse cannot be extended. *)
  url_append_parse : forall x ps, is_Some (url_append_pairs x ps) <-> exists p, url_parse x = Ok p;
}.

(** An instance to run the model with: absolute [https] URLs, IPv4 addresses. *)
Definition parse_u8 (s : str) : option Z :=
  let n := foldl (fun acc c => 10 * acc + (c - 48)) 0 s in
  if bytes_all is_ascii_digit s && (0 <? char_count s) && (char_count s <=? 3) && (n <? 256)
  then Some n else None.

Definition parse_ipv4 (s : str) : option IpAddr :=
  match map parse_u8 (split_on 46 s) with
  | [Some a; Some b; Some c; Some d] => Some (V4 (a * 2 ^ 24 + b * 2 ^ 16 + c * 2 ^ 8 + d))
  | _ => None
  end.

Definition parse_https (s : str) : result Url str :=
  match strip_prefix u"https://" s with
  | Some rest =>
      Ok {| url_scheme := u"https"; url_host_str := Some (List.hd [] (split_on 47 rest));
            url_username := []; url_password := None; url_fragment := None; url_port := None;
            url_path := u"/" ++ join u"/" (tail (split_on 47 rest)); url_query := None; url_as_str := s |}
  | None => Err u"relative URL without a base"
  end.

#[export] Instance url_crate : UrlCrate.
Proof.
  refine {|
    url_parse := parse_https;
    url_append_pairs x ps :=
      match parse_https x with
      | Ok _ => Some (x ++ u"?" ++ join u"&" (map (fun p => p.1 ++ u"=" ++ p.2) ps))
      | Err _ => None
      end;
    parse_ip := parse_ipv4;
  |}.
  intros x ps. destruct (parse_https x); split; [eauto|eauto|by intros []|by intros []].
Defined.

Definition is_loopback (ip : IpAddr) : bool :=
  match ip with
  | V4 b => octet b 0 =? 127
  | V6 b => b =? 1
  end.

(** * OpenID Connect *)

Module Oidc.

Definition SCOPE_OPENID : str := u"openid".
Definition SCOPE_PROFILE : str := u"profile".
Definition SCOPE_EMAIL : str := u"email".
Definition SCOPES : list str := [SCOPE_OPENID; SCOPE_PROFILE; SCOPE_EMAIL].

Definition is_oidc_scope (scope : str) : bool := contains SCOPES scope.

Definition requests_identity (scopes : option (list str)) : bool :=
  match scopes with Some scopes => existsb (str_eqb SCOPE_OPENID) scopes | None => false end.

Definition at_hash `{CryptoCrates} (access_token : str) : str :=
  b64url (take 16 (sha256 (as_bytes access_token))).

Record UserClaims := {
  preferred_username : option str;
  locale : option str;
  updated_at : option Z;
  email : option str;
  email_verified : option bool;
}.

Record IdTokenClaims := {
  iss : str;
  sub : Uuid;
  aud : str;
  azp : str;
  exp : Z;
  iat : Z;
  auth_time : Z;
  nonce : option str;
  it_at_hash : str;
  profile : UserClaims;
}.

Definition user_claims `{TimeCrate} (user : User) (scopes : list str) : UserClaims :=
  let has scope := existsb (str_eqb scope) scopes in
  let prof := has SCOPE_PROFILE in
  let mail := has SCOPE_EMAIL in
  {| preferred_username := if prof then Some (u_username user) else None;
     locale := if prof then Some (u_preferred_locale user) else None;
     updated_at := if prof then Some (unix_timestamp (u_updated_at user)) else None;
     email := if mail then Some (u_email user) else None;
     email_verified :=
       if mail then Some (bool_decide (is_Some (u_email_verified_at user))) else None |}.

Lemma existsb_str (x : str) (l : list str) : existsb (str_eqb x) l = true <-> x ∈ l.
Proof.
  rewrite existsb_exists. setoid_rewrite <- list_elem_of_In. setoid_rewrite str_eqb_eq.
  naive_solver.
Qed.

End Oidc.

(** * Requests and scopes *)

Module OAuth.

Inductive ErrorCode :=
| InvalidRequest | InvalidClient | InvalidGrant | UnauthorizedClient
| UnsupportedGrantType | UnsupportedResponseType | InvalidScope | AccessDenied
| AuthorizationPending | SlowDown | ExpiredTokenCode | InteractionRequired
| RequestNotSupported | RequestUriNotSupported.

#[export] Instance error_code_eq_dec : EqDecision ErrorCode.
Proof. solve_decision. Defined.

Definition as_str (self : ErrorCode) : str :=
  match self with
  | InvalidRequest => u"invalid_request"
  | InvalidClient => u"invalid_client"
  | InvalidGrant => u"invalid_grant"
  | UnauthorizedClient => u"unauthorized_client"
  | UnsupportedGrantType => u"unsupported_grant_type"
  | UnsupportedResponseType => u"unsupported_response_type"
  | InvalidScope => u"invalid_scope"
  | AccessDenied => u"access_denied"
  | AuthorizationPending => u"authorization_pending"
  | SlowDown => u"slow_down"
  | ExpiredTokenCode => u"expired_token"
  | InteractionRequired => u"interaction_required"
  | RequestNotSupported => u"request_not_supported"
  | RequestUriNotSupported => u"request_uri_not_supported"
  end.

Definition GRANT_AUTHORIZATION_CODE : str := u"authorization_code".
Definition GRANT_REFRESH_TOKEN : str := u"refresh_token".
Definition GRANT_DEVICE_CODE : str := u"urn:ietf:params:oauth:grant-type:device_code".
Definition GRANT_CLIENT_CREDENTIALS : str := u"client_credentials".
Definition MAX_STATE_LEN : Z := 512.
Definition CLIENT_SECRET_PREFIX : str := u"aacs_".

(** [Uuid::new_v5] in the URL name space is a parameter. *)
Definition client_subject (new_v5_url : bytes -> Uuid) (issuer client_id : str) : Uuid :=
  new_v5_url (as_bytes (trim_end_matches 47 issuer ++ u"/clients/" ++ client_id)).

(** The loop over [form_urlencoded::parse(body)]; the pairs are a parameter. *)
Fixpoint form_loop (pairs parameters : list (str * str)) : result (list (str * str)) str :=
  match pairs with
  | [] => Ok parameters
  | (name, value) :: rest =>
      if existsb (fun p => str_eqb p.1 name) parameters then Err (name ++ u" is repeated")
      else if bool_decide (value = []) then form_loop rest parameters
      else form_loop rest (parameters ++ [(name, value)])
  end.

Definition form_parameters (form_parse : bytes -> list (str * str)) (body : bytes) :
    result (list (str * str)) str :=
  form_loop (form_parse body) [].

Definition parameter (parameters : list (str * str)) (name : str) : option str :=
  snd <$> List.find (fun p => str_eqb p.1 name) parameters.

Definition scope_byte (b : Z) : bool :=
  (b =? 0x21) || ((0x23 <=? b) && (b <=? 0x5b)) || ((0x5d <=? b) && (b <=? 0x7e)).

Definition scope_error : str := u"scope holds a character outside RFC 6749 scope tokens".

Fixpoint scope_tokens (parts : list str) : result (list str) str :=
  match parts with
  | [] => Ok []
  | [] :: rest => scope_tokens rest
  | token :: rest =>
      if negb (bytes_all scope_byte token) then Err scope_error
      else match scope_tokens rest with
           | Ok scopes => Ok (token :: scopes)
           | Err e => Err e
           end
  end.

Definition parse_scope (scope : option str) : result (option (list str)) str :=
  match scope with
  | None => Ok None
  | Some raw =>
      let scope := trim raw in
      if bool_decide (scope = []) then Ok None
      else match scope_tokens (split_on 32 scope) with
           | Err e => Err e
           | Ok scopes => Ok (Some (dedup (sort_strs scopes)))
           end
  end.

Definition requested_scopes (requested : option (list str)) (client_scopes : list str) :
    result (option (list str)) (list str) :=
  match requested with
  | None => Ok (if bool_decide (client_scopes = []) then None else Some client_scopes)
  | Some requested =>
      if bool_decide (client_scopes = []) then Ok (Some requested)
      else
        let outside :=
          List.filter (fun scope => negb (Oidc.is_oidc_scope scope) &&
                                    negb (contains client_scopes scope)) requested in
        if bool_decide (outside = []) then Ok (Some requested) else Err outside
  end.

Definition within_client_scopes (consented client_scopes : option (list str)) : option (list str) :=
  match client_scopes with
  | Some ((_ :: _) as registered) =>
      Some (match consented with
            | Some consented =>
                List.filter (fun scope => Oidc.is_oidc_scope scope || contains registered scope)
                  consented
            | None => registered
            end)
  | _ => consented
  end.

Definition replace_plus (s : str) : str := map (fun c => if c =? 43 then 32 else c) s.

(** Standard base64 with UTF-8 decoding, and percent-decoding, are parameters. *)
Definition basic_credentials (b64_utf8 unpercent : str -> option str) (header : str) :
    option (str * str) :=
  encoded ← match strip_prefix u"Basic " header with
            | Some e => Some e
            | None => strip_prefix u"basic " header
            end;
  decoded ← b64_utf8 (trim encoded);
  pair ← split_once 58 decoded;
  id ← unpercent (replace_plus pair.1);
  secret ← unpercent (replace_plus pair.2);
  if bool_decide (id = []) then None else Some (id, secret).

Definition format_client_secret (random : str) : str := CLIENT_SECRET_PREFIX ++ random.

Definition redirect_with `{UrlCrate} (redirect_uri : str) (parameters : list (str * str)) :
    option str :=
  url_append_pairs redirect_uri parameters.

(** ** Scope tokens *)

Definition scope_token (t : str) : Prop := t <> [] /\ Forall (fun b => scope_byte b = true) t.

Lemma scope_tokens_ok (parts scopes : list str) :
  scope_tokens parts = Ok scopes ->
  scopes = List.filter (fun t => negb (bool_decide (t = []))) parts /\
  Forall scope_token scopes.
Proof.
  revert scopes. induction parts as [|t rest IH]; intros scopes; cbn.
  { intros [= <-]. by split. }
  destruct t as [|c t]; [apply IH|]. case_cond; [done|].
  destruct (scope_tokens rest) as [sc|] eqn:Er; [|done]. intros [= <-].
  destruct (IH _ eq_refl) as [-> HF]. split; [done|]. constructor; [|done].
  split; [done|]. apply negb_false_iff, bytes_all_Forall in E. done.
Qed.

Lemma scope_tokens_of (scopes : list str) :
  Forall scope_token scopes -> scope_tokens scopes = Ok scopes.
Proof.
  induction 1 as [|t scopes [Ht HF] _ IH]; [done|]. cbn.
  destruct t as [|c t]; [done|]. apply bytes_all_Forall in HF. rewrite HF, IH. done.
Qed.

Lemma scope_byte_range (c : Z) : scope_byte c = true -> 33 <= c <= 126.
Proof. unfold scope_byte. breflect. lia. Qed.

Lemma scope_byte_no_ws (c : Z) : scope_byte c = true -> is_whitespace c = false.
Proof.
  intros H%scope_byte_range. unfold is_whitespace. breflect. lia.
Qed.

Lemma split_on_cons (c x : Z) (s : str) (part : str) (rest : list str) :
  x <> c -> split_on c s = part :: rest -> split_on c (x :: s) = (x :: part) :: rest.
Proof. intros Hx Hs. cbn. rewrite Hs. by apply Z.eqb_neq in Hx as ->. Qed.

Lemma split_on_token (c : Z) (t s part : str) (rest : list str) :
  c ∉ t -> split_on c s = part :: rest -> split_on c (t ++ s) = (t ++ part) :: rest.
Proof.
  intros Ht Hs. induction t as [|x t IH]; [done|]. cbn [app].
  apply split_on_cons; [set_solver|]. apply IH. set_solver.
Qed.

Lemma split_on_join (c : Z) (l : list str) :
  l <> [] -> Forall (fun t => c ∉ t) l -> split_on c (join [c] l) = l.
Proof.
  intros Hne HF. induction HF as [|t l Ht HF IH]; [done|].
  destruct l as [|t' l].
  - cbn. rewrite <- (app_nil_r t) at 1. rewrite (split_on_token _ _ _ [] []); [|done|done].
    by rewrite app_nil_r.
  - change (join [c] (t :: t' :: l)) with (t ++ c :: join [c] (t' :: l)).
    rewrite (split_on_token _ _ _ [] (t' :: l)); [by rewrite app_nil_r|done|].
    cbn [split_on]. rewrite Z.eqb_refl. f_equal. by apply IH.
Qed.

Lemma token_no_space (t : str) : scope_token t -> 32 ∉ t.
Proof.
  intros [_ HF] Hin. rewrite Forall_forall in HF. apply HF, scope_byte_range in Hin. lia.
Qed.

(** Text whose first and last characters are not white space is trimmed. *)
Lemma join_no_leading (sep : str) (l : list str) :
  l <> [] -> Forall scope_token l -> no_leading_ws (join sep l).
Proof.
  intros Hne HF. destruct HF as [|t l [Ht0 Ht] _]; [done|].
  destruct t as [|c t]; [done|]. apply Forall_cons in Ht as [Hc _].
  destruct l; cbn; by apply scope_byte_no_ws.
Qed.

Lemma join_last (sep : str) (l : list str) :
  l <> [] -> Forall scope_token l -> exists s c, join sep l = s ++ [c] /\ scope_byte c = true.
Proof.
  intros Hne HF. induction HF as [|t l [Ht0 Ht] HF IH]; [done|].
  destruct l as [|t' l].
  - cbn. destruct (exists_last Ht0) as (s & c & ->). exists s, c. split; [done|].
    rewrite Forall_app, Forall_singleton in Ht. tauto.
  - destruct IH as (s & c & E & Hc); [done|].
    change (join sep (t :: t' :: l)) with (t ++ sep ++ join sep (t' :: l)).
    rewrite E. exists (t ++ sep ++ s), c. by rewrite !app_assoc.
Qed.

Lemma join_trim (sep : str) (l : list str) :
  l <> [] -> Forall scope_token l -> trim (join sep l) = join sep l.
Proof.
  intros Hne HF. unfold trim. rewrite (proj2 (trim_start_fixed _)) by by apply join_no_leading.
  destruct (join_last sep l Hne HF) as (s & c & -> & Hc). unfold trim_end.
  rewrite reverse_snoc. cbn [trim_start]. rewrite scope_byte_no_ws by done.
  by rewrite reverse_cons, reverse_involutive.
Qed.

Lemma join_nonempty (sep : str) (l : list str) :
  l <> [] -> Forall scope_token l -> join sep l <> [].
Proof.
  intros Hne HF. destruct (join_last sep l Hne HF) as (s & c & -> & _). by destruct s.
Qed.

Lemma parse_scope_ok (raw : str) (scopes : list str) :
  parse_scope (Some raw) = Ok (Some scopes) ->
  canonical scopes /\ Forall scope_token scopes /\
  forall t, t ∈ scopes <-> t <> [] /\ t ∈ split_on 32 (trim raw).
Proof.
  unfold parse_scope. case_bool_decide; [done|].
  destruct (scope_tokens _) as [sc|] eqn:E; [|done]. intros [= <-].
  apply scope_tokens_ok in E as [-> HF]. split; [apply sort_dedup_canonical|]. split.
  - rewrite Forall_forall in *. intros t Ht. apply HF. by rewrite elem_of_sort_dedup in Ht.
  - intros t. rewrite elem_of_sort_dedup, !list_elem_of_In, filter_In.
    rewrite negb_true_iff, bool_decide_eq_false. tauto.
Qed.

Lemma parse_scope_join (scopes : list str) :
  scopes <> [] -> canonical scopes -> Forall scope_token scopes ->
  parse_scope (Some (join [32] scopes)) = Ok (Some scopes).
Proof.
  intros Hne Hc HF. unfold parse_scope. rewrite join_trim by done.
  rewrite bool_decide_false by by apply join_nonempty.
  rewrite split_on_join; [|done|].
  - rewrite scope_tokens_of by done. by rewrite sort_dedup_id.
  - eapply Forall_impl; [exact HF|]. apply token_no_space.
Qed.

(** A parsed scope list is sorted, without duplicates, of valid tokens, and
    written back as the [scope] parameter it parses to itself. *)
Theorem scope_round_trip (raw : str) (scopes : list str) :
  parse_scope (Some raw) = Ok (Some scopes) ->
  (forall t, t ∈ scopes <-> t <> [] /\ t ∈ split_on 32 (trim raw)) /\
  Forall scope_token scopes /\
  (scopes <> [] -> parse_scope (Some (join [32] scopes)) = Ok (Some scopes)).
Proof.
  intros (Hc & HF & Hin)%parse_scope_ok. split_and!; [done..|]. intros Hne. by apply parse_scope_join.
Qed.

Lemma scope_round_trip_witness :
  parse_scope (Some (join [32] [u"email"; u"openid"])) = Ok (Some [u"email"; u"openid"]).
Proof. by apply (scope_round_trip u" openid email  openid "). Defined.

(** ** Requested scopes *)

Lemma filter_nil_iff {A} (p : A -> bool) (l : list A) :
  List.filter p l = [] <-> Forall (fun x => p x = false) l.
Proof.
  induction l as [|x l IH]; cbn; [by split|].
  rewrite Forall_cons, <- IH. destruct (p x); naive_solver.
Qed.

(** A client with registered scopes is granted none outside them, identity
    scopes apart, and asking for nothing means all of them. *)
Theorem requested_scopes_within (requested : option (list str)) (client_scopes granted : list str) :
  requested_scopes requested client_scopes = Ok (Some granted) ->
  client_scopes <> [] ->
  forall s, s ∈ granted -> s ∈ client_scopes \/ s ∈ Oidc.SCOPES.
Proof.
  unfold requested_scopes. intros H Hne s Hs. rewrite bool_decide_false in H by done.
  destruct requested as [req|]; [|naive_solver].
  case_bool_decide as Hout; [|done]. injection H as ->.
  rewrite filter_nil_iff, Forall_forall in Hout. specialize (Hout s Hs).
  rewrite andb_false_iff, !negb_false_iff, contains_true in Hout.
  destruct Hout as [Ho|]; [right; by apply contains_true|by left].
Qed.

Lemma requested_scopes_within_witness :
  u"posts:read" ∈ [u"posts:read"; u"posts:write"] \/ u"posts:read" ∈ Oidc.SCOPES.
Proof.
  apply (requested_scopes_within (Some [u"openid"; u"posts:read"]) [u"posts:read"; u"posts:write"]
    [u"openid"; u"posts:read"]); [by vm_compute|done|by right; left].
Defined.

(** ** Form parameters *)

Lemma form_loop_spec (pairs acc ps : list (str * str)) :
  NoDup acc.*1 -> Forall (fun p => p.2 <> []) acc ->
  form_loop pairs acc = Ok ps ->
  NoDup ps.*1 /\ Forall (fun p => p.2 <> []) ps /\
  forall p, p ∈ ps <-> p ∈ acc \/ (p.2 <> [] /\ p ∈ pairs).
Proof.
  revert acc. induction pairs as [|[n v] pairs IH]; intros acc HN HF; cbn.
  { intros [= <-]. split_and!; [done..|]. set_solver. }
  destruct (existsb _ acc) eqn:Ex; [done|]. case_bool_decide as Hv; intros H.
  - destruct (IH _ HN HF H) as (? & ? & Hp). split_and!; [done..|].
    intros p. rewrite Hp, elem_of_cons. destruct p as [n' v']; cbn. naive_solver.
  - destruct (IH (acc ++ [(n, v)])) as (? & ? & Hp); [| |done|].
    + rewrite fmap_app. apply NoDup_app. split_and!; [done| |apply NoDup_singleton].
      intros x Hx Hx'. cbn in Hx'. apply list_elem_of_singleton in Hx' as ->.
      apply list_elem_of_fmap in Hx as ([n' v'] & E & Hin). cbn in E. subst.
      apply not_true_iff_false in Ex. apply Ex, existsb_exists. exists (n', v').
      split; [by apply list_elem_of_In|apply str_eqb_refl].
    + apply Forall_app. split; [done|]. by apply Forall_singleton.
    + split_and!; [done..|]. intros p. rewrite Hp, elem_of_app, !elem_of_cons.
      rewrite elem_of_nil. destruct p; naive_solver.
Qed.

Lemma parameter_spec (ps : list (str * str)) (n v : str) :
  NoDup ps.*1 -> parameter ps n = Some v <-> (n, v) ∈ ps.
Proof.
  unfold parameter. intros HN. induction ps as [|[n' v'] ps IH]; cbn; [set_solver|].
  apply NoDup_cons in HN as [Hn HN]. destruct (str_eqb n' n) eqn:E.
  - apply str_eqb_eq in E as ->. cbn. rewrite elem_of_cons. split; [intros [= ->]; by left|].
    intros [[= ->]|Hin]; [done|]. destruct Hn. by apply (list_elem_of_fmap_2 fst) in Hin.
  - apply str_eqb_neq in E. rewrite IH by done. rewrite elem_of_cons. naive_solver.
Qed.

End OAuth.

(** * Registered clients *)

Module Client.

Record UserClientQuota := {
  q_id : Uuid;
  q_user_id : Uuid;
  q_client_id : str;
  q_max_sessions : Z;
  q_created_at : OffsetDateTime;
  q_updated_at : OffsetDateTime;
}.

Record RegisteredClient := {
  c_client_id : str;
  c_display_name : str;
  c_is_primary : bool;
  c_created_at : OffsetDateTime;
  c_scopes : list str;
  c_redirect_uris : list str;
  c_allows_loopback_redirect : bool;
  c_default_max_sessions : Z;
  c_client_secret_hash : option bytes;
  c_allows_client_credentials : bool;
  c_allows_introspection : bool;
}.

Definition is_confidential (self : RegisteredClient) : bool :=
  bool_decide (is_Some (c_client_secret_hash self)).

Definition session_limit (self : RegisteredClient) (quota : option UserClientQuota) : option Z :=
  match quota with
  | Some quota => Some (q_max_sessions quota)
  | None => if c_is_primary self then None else Some (c_default_max_sessions self)
  end.

Definition granted (self : RegisteredClient) (user_permissions : list str) : list str :=
  if bool_decide (c_scopes self = []) then user_permissions
  else List.filter (contains (c_scopes self)) user_permissions.

Definition consented_scopes (self : RegisteredClient) (user_permissions : list str) :
    option (list str) :=
  if bool_decide (c_scopes self = []) then None else Some (granted self user_permissions).

Definition restrict_to_consent (roles permissions : list str) (consent : option (list str)) :
    list str * list str :=
  match consent with
  | None => (roles, permissions)
  | Some consent => ([], List.filter (contains consent) permissions)
  end.

Definition is_valid_client_id (client_id : str) : bool :=
  ((1 <=? byte_len client_id) && (byte_len client_id <=? 100)) &&
  bytes_all (fun b => is_ascii_alphanumeric b || byte_in u"._-" b) client_id.

Section WithUrls.
Context `{UrlCrate}.

Definition forbidden_schemes : list str :=
  [u"javascript"; u"data"; u"vbscript"; u"file"; u"blob"; u"about"].

Definition is_allowed_redirect_scheme (uri : Url) : bool :=
  let scheme := url_scheme uri in
  if str_eqb scheme u"https" then bool_decide (is_Some (url_host_str uri))
  else if str_eqb scheme u"http" then
    match url_host_str uri ≫= fun host =>
          parse_ip (trim_end_matches 93 (trim_start_matches 91 host)) with
    | Some ip => is_loopback ip
    | None => false
    end
  else
    bool_decide (46 ∈ scheme) &&
    negb (existsb (eq_ignore_ascii_case scheme) forbidden_schemes).

Fixpoint check_redirects (uris : list str) : result unit str :=
  match uris with
  | [] => Ok tt
  | uri :: rest =>
      match url_parse uri with
      | Err e => Err (u"invalid redirect uri " ++ uri ++ u": " ++ e)
      | Ok parsed =>
          if bool_decide (is_Some (url_fragment parsed))
             || negb (bool_decide (url_username parsed = []))
             || bool_decide (is_Some (url_password parsed))
          then Err (u"redirect uri " ++ uri ++ u": no fragment and no user or password")
          else if negb (is_allowed_redirect_scheme parsed)
          then Err (u"redirect uri " ++ uri ++
                    u": use https, http on 127.0.0.1 or [::1], or a private-use scheme containing a dot (RFC 8252)")
          else check_redirects rest
      end
  end.

Definition check_settings (client_id display_name : str) (redirect_uris : list str)
    (default_max_sessions : Z) : result unit str :=
  if negb (is_valid_client_id client_id)
  then Err u"client id must be 1 to 100 of [A-Za-z0-9._-]"
  else if bool_decide (trim display_name = []) || (200 <? char_count display_name)
  then Err u"name must be 1 to 200 characters"
  else match check_redirects redirect_uris with
  | Err e => Err e
  | Ok _ =>
      if default_max_sessions <=? 0 then Err u"max sessions must be a positive number"
      else Ok tt
  end.

(** A redirect target that carries no secret and runs no code. *)
Definition safe_redirect (uri : str) : Prop :=
  exists p, url_parse uri = Ok p /\
    url_fragment p = None /\ url_username p = [] /\ url_password p = None /\
    ((url_scheme p = u"https" /\ is_Some (url_host_str p)) \/
     (url_scheme p = u"http" /\ exists host ip,
        url_host_str p = Some host /\
        parse_ip (trim_end_matches 93 (trim_start_matches 91 host)) = Some ip /\
        is_loopback ip = true) \/
     (46 ∈ url_scheme p /\ Forall (fun f => eq_ignore_ascii_case (url_scheme p) f = false)
                             forbidden_schemes)).

Lemma allowed_scheme (p : Url) :
  is_allowed_redirect_scheme p = true ->
  (url_scheme p = u"https" /\ is_Some (url_host_str p)) \/
  (url_scheme p = u"http" /\ exists host ip,
     url_host_str p = Some host /\
     parse_ip (trim_end_matches 93 (trim_start_matches 91 host)) = Some ip /\
     is_loopback ip = true) \/
  (46 ∈ url_scheme p /\ Forall (fun f => eq_ignore_ascii_case (url_scheme p) f = false)
                          forbidden_schemes).
Proof.
  unfold is_allowed_redirect_scheme.
  destruct (str_eqb (url_scheme p) u"https") eqn:E1.
  { apply str_eqb_eq in E1. rewrite bool_decide_eq_true. auto. }
  destruct (str_eqb (url_scheme p) u"http") eqn:E2.
  { apply str_eqb_eq in E2. destruct (url_host_str p) as [host|] eqn:Eh; cbn; [|done].
    destruct (parse_ip _) as [ip|] eqn:Ei; [|done]. intros Hl. right; left. eauto 6. }
  rewrite andb_true_iff, bool_decide_eq_true, negb_true_iff. intros [Hd Hf].
  right; right. split; [done|]. apply Forall_forall. intros f Hin.
  destruct (eq_ignore_ascii_case (url_scheme p) f) eqn:E; [|done].
  apply not_true_iff_false in Hf. destruct Hf. apply existsb_exists.
  exists f. by rewrite <- list_elem_of_In.
Qed.

Lemma check_redirects_safe (uris : list str) :
  check_redirects uris = Ok tt -> Forall safe_redirect uris.
Proof.
  induction uris as [|uri rest IH]; [done|]. cbn.
  destruct (url_parse uri) as [p|] eqn:Ep; [|done]. case_cond; [done|].
  destruct (is_allowed_redirect_scheme p) eqn:Ea; [|done]. cbn. intros H1.
  constructor; [|by apply IH]. rewrite !orb_false_iff in E. destruct E as [[E1 E2] E3].
  apply bool_decide_eq_false in E1, E3. apply negb_false_iff, bool_decide_eq_true in E2.
  exists p. split_and!; try done.
  - by apply eq_None_not_Some.
  - by apply eq_None_not_Some.
  - by apply allowed_scheme.
Qed.

(** A client that passes the checks on its settings redirects only to
    parsed URLs without fragment or credentials, over https, over http to a
    loopback address, or to a private scheme with a dot in its name that is
    none of the dangerous ones; and has a valid id and a positive quota. *)
Theorem check_settings_safe (client_id display_name : str) (uris : list str) (max : Z) :
  check_settings client_id display_name uris max = Ok tt ->
  is_valid_client_id client_id = true /\ 0 < max /\ Forall safe_redirect uris.
Proof.
  unfold check_settings. destruct (is_valid_client_id client_id); [|done]. cbn [negb].
  case_cond; [done|]. destruct (check_redirects uris) as [[]|] eqn:Er; [|done].
  case_cond; [done|]. intros _. breflect. split_and!; [done|lia|]. by apply check_redirects_safe.
Qed.
End WithUrls.

Lemma check_settings_safe_witness : Forall safe_redirect [u"https://app.example/cb"].
Proof.
  apply (check_settings_safe u"app" u"App" [u"https://app.example/cb"] 3). vm_compute. reflexivity.
Defined.

(** ** Audit metadata of a saved client *)

Section AuditChanges.
Context `{UrlCrate}.

Definition hosts (uris : list str) : list str :=
  dedup (sort_strs (omap (fun uri => match url_parse uri with
                                     | Ok p => url_host_str p
                                     | Err _ => None
                                     end) uris)).

Definition json_strs (l : list str) : json := JArr (map JStr l).

(** [before != after] on the values compared. *)
Definition json_strs_eqb (a b : option (list str)) : bool := bool_decide (a = b).

(** [compare(field, previous value or null, saved value)]. *)
Definition compare {A} `{EqDecision A} (to_json : A -> json) (field : str)
    (before : option A) (after : A) (changes : list (str * json)) : list (str * json) :=
  if bool_decide (before = Some after) then changes
  else map_insert field
         (JObj [(u"after", to_json after); (u"before", default JNull (to_json <$> before))])
         changes.

Definition audit_changes (previous : option RegisteredClient) (saved : RegisteredClient) : json :=
  let changes :=
    compare JBool u"allows_loopback_redirect"
      (c_allows_loopback_redirect <$> previous) (c_allows_loopback_redirect saved) (
    compare JBool u"allows_introspection"
      (c_allows_introspection <$> previous) (c_allows_introspection saved) (
    compare JBool u"allows_client_credentials"
      (c_allows_client_credentials <$> previous) (c_allows_client_credentials saved) (
    compare JBool u"is_primary" (c_is_primary <$> previous) (c_is_primary saved) (
    compare json_strs u"scopes" (c_scopes <$> previous) (c_scopes saved) (
    compare json_strs u"redirect_hosts"
      ((fun p => hosts (c_redirect_uris p)) <$> previous) (hosts (c_redirect_uris saved)) []))))) in
  JObj [(u"changes", JObj changes); (u"client_id", JStr (c_client_id saved))].
End AuditChanges.

(** ** Theorems *)

Lemma elem_of_granted (c : RegisteredClient) (perms : list str) (p : str) :
  p ∈ granted c perms <-> p ∈ perms /\ (c_scopes c = [] \/ p ∈ c_scopes c).
Proof.
  unfold granted. case_bool_decide; [naive_solver|].
  rewrite elem_of_lfilter, contains_true. naive_solver.
Qed.

Lemma elem_of_restrict (roles perms : list str) (consent : option (list str)) (p : str) :
  p ∈ (restrict_to_consent roles perms consent).2 <->
  p ∈ perms /\ match consent with None => True | Some consent => p ∈ consent end.
Proof.
  destruct consent as [consent|]; cbn; [|tauto].
  rewrite elem_of_lfilter, contains_true. done.
Qed.

(** Freezing what the user consents to, then restricting a later token to it,
    grants what both the user holds now and the client asked for then. *)
Lemma restrict_consented (c : RegisteredClient) (roles perms_then perms_now : list str) (p : str) :
  p ∈ (restrict_to_consent roles perms_now (consented_scopes c perms_then)).2 <->
  p ∈ perms_now /\ (c_scopes c <> [] -> p ∈ perms_then /\ p ∈ c_scopes c).
Proof.
  rewrite elem_of_restrict. unfold consented_scopes. case_bool_decide as Hc; [naive_solver|].
  rewrite elem_of_granted. naive_solver.
Qed.

End Client.

(** * Personal access tokens *)

Module Pat.

Definition PREFIX : str := u"aapat_".
Definition MAX_LIFETIME_DAYS : Z := 365.
Definition DEFAULT_LIFETIME_DAYS : Z := 90.
Definition MAX_ACTIVE_PER_ACCOUNT : Z := 20.

Record PersonalAccessToken := {
  pat_id : Uuid;
  pat_user_id : Uuid;
  pat_session_id : Uuid;
  pat_name : str;
  pat_scopes : list str;
  pat_created_at : OffsetDateTime;
  pat_expires_at : OffsetDateTime;
  pat_last_used_at : option OffsetDateTime;
}.

Definition format_token (random : str) : str := PREFIX ++ random.

Definition token_byte (b : Z) : bool := is_ascii_alphanumeric b || (b =? 45) || (b =? 95).

Definition random_part (presented : str) : option str :=
  random ← strip_prefix PREFIX presented;
  if (byte_len random =? 43) && bytes_all token_byte random then Some random else None.

Definition grantable_scopes (requested held : list str) : result (list str) (list str) :=
  let scopes := dedup (sort_strs requested) in
  let missing := List.filter (fun scope => negb (contains held scope)) scopes in
  if bool_decide (missing = []) then Ok scopes else Err missing.

Definition valid_name (name : str) : option str :=
  let name := trim name in
  if ((1 <=? char_count name) && (char_count name <=? 100)) && negb (existsb is_control name)
  then Some name else None.

Lemma random_part_format (random : str) :
  byte_len random = 43 -> bytes_all token_byte random = true ->
  random_part (format_token random) = Some random.
Proof.
  intros Hl Hb. unfold random_part, format_token. rewrite strip_prefix_app. cbn.
  by rewrite Hl, Hb.
Qed.

Lemma random_part_Some (presented random : str) :
  random_part presented = Some random -> presented = format_token random.
Proof.
  unfold random_part. intros (r & Hr & H)%bind_Some. apply strip_prefix_Some in Hr as ->.
  case_cond; by simplify_eq.
Qed.

(** A presented personal access token is recognised exactly when it is the
    prefix followed by 43 bytes of the URL-safe alphabet, and yields those bytes:
    what was issued is read back, and nothing else is looked up. *)
Theorem random_part_exact (presented random : str) :
  random_part presented = Some random <->
  presented = format_token random /\ byte_len random = 43 /\ bytes_all token_byte random = true.
Proof.
  split; [|intros (-> & ? & ?); by apply random_part_format]. intros Hp.
  split; [by apply random_part_Some|]. revert Hp. unfold random_part.
  intros (r & _ & Hr)%bind_Some. case_cond; [|done]. injection Hr as <-. by breflect.
Qed.

Lemma grantable_scopes_ok (requested held scopes : list str) :
  grantable_scopes requested held = Ok scopes <->
  scopes = dedup (sort_strs requested) /\ (forall s, s ∈ requested -> s ∈ held).
Proof.
  unfold grantable_scopes. case_bool_decide as Hm.
  - rewrite OAuth.filter_nil_iff, Forall_forall in Hm. split; [|naive_solver].
    intros [= <-]. split; [done|]. intros s Hs. apply elem_of_sort_dedup, Hm in Hs.
    by apply negb_false_iff, contains_true in Hs.
  - split; [done|]. intros [_ H]. destruct Hm. apply OAuth.filter_nil_iff, Forall_forall.
    intros s Hs. rewrite elem_of_sort_dedup in Hs. by apply negb_false_iff, contains_true, H.
Qed.

Lemma grantable_scopes_err (requested held missing : list str) :
  grantable_scopes requested held = Err missing ->
  missing <> [] /\ forall s, s ∈ missing <-> s ∈ requested /\ s ∉ held.
Proof.
  unfold grantable_scopes. case_bool_decide; [done|]. intros [= <-]. split; [done|].
  intros s. rewrite elem_of_lfilter, negb_true_iff, contains_false.
  by rewrite elem_of_sort_dedup.
Qed.

End Pat.

(** * Device requests *)

Module DeviceDomain.

Inductive DeviceAuthStatus := Pending | Authorized | Denied.

#[export] Instance device_auth_status_eq_dec : EqDecision DeviceAuthStatus.
Proof. solve_decision. Defined.

Definition is_undecided (self : DeviceAuthStatus) : bool := bool_decide (self = Pending).

Inductive PollOutcome :=
| PollPending
| PollDenied
| PollAuthorized (user_id : Uuid) (client_id : str)
| MissingUser
| MissingClient.

Definition poll_outcome (status : DeviceAuthStatus) (user_id : option Uuid)
    (client_id : option str) : PollOutcome :=
  match status, user_id, client_id with
  | Pending, _, _ => PollPending
  | Denied, _, _ => PollDenied
  | Authorized, None, _ => MissingUser
  | Authorized, Some _, None => MissingClient
  | Authorized, Some user_id, Some client_id => PollAuthorized user_id client_id
  end.

End DeviceDomain.

(** * External identities *)

Module ExternalIdentity.

Definition is_valid_provider_name (name : str) : bool :=
  ((1 <=? byte_len name) && (byte_len name <=? 50)) &&
  bytes_all (fun b => is_ascii_lowercase b || is_ascii_digit b || (b =? 45) || (b =? 95)) name.

Record IdTokenExpectations := {
  exp_issuer : str;
  exp_client_id : str;
  exp_nonce : str;
  exp_now : Z;
}.

Definition LEEWAY_SECS : Z := 60.

Definition audiences_of (aud : json) : option (list str) :=
  match aud with
  | JStr aud => Some [aud]
  | JArr l => Some (omap Crates.as_str l)
  | _ => None
  end.

Definition id_token_subject (claims : json) (expected : IdTokenExpectations) : result str str :=
  let claim k := json_index k claims in
  if negb (bool_decide (trim_end_matches 47 <$> Crates.as_str (claim u"iss")
                        = Some (trim_end_matches 47 (exp_issuer expected))))
  then Err u"issuer mismatch"
  else match audiences_of (claim u"aud") with
  | None => Err u"missing audience"
  | Some audiences =>
      if negb (contains audiences (exp_client_id expected)) then Err u"audience mismatch"
      else if (1 <? Z.of_nat (length audiences)) &&
              negb (bool_decide (Crates.as_str (claim u"azp") = Some (exp_client_id expected)))
      then Err u"authorized party mismatch"
      else if negb (match as_i64 (claim u"exp") with
                    | Some exp => exp_now expected <? wrap_i64 (exp + LEEWAY_SECS)
                    | None => false
                    end)
      then Err u"expired"
      else if match as_i64 (claim u"iat") with
              | Some iat => wrap_i64 (exp_now expected + LEEWAY_SECS) <? iat
              | None => false
              end
      then Err u"issued in the future"
      else if negb (bool_decide (Crates.as_str (claim u"nonce") = Some (exp_nonce expected)))
      then Err u"nonce mismatch"
      else match Crates.as_str (claim u"sub") with
      | Some sub => if (1 <=? byte_len sub) && (byte_len sub <=? 255)
                    then Ok sub else Err u"missing subject"
      | None => Err u"missing subject"
      end
  end.

Definition github_subject (user : json) : option str :=
  id ← as_u64 (json_index u"id" user);
  if 0 <? id then Some (to_string id) else None.

Lemma as_i64_range (v : json) (n : Z) : as_i64 v = Some n -> I64_MIN <= n <= I64_MAX.
Proof.
  destruct v as [| |[n'|]| | |]; try done. cbn [as_i64]. case_cond; [|done].
  intros [= ->]. by breflect.
Qed.

(** The claims of an ID token name a person only when they come from the
    expected issuer, are meant for this client (as its authorized party when
    there are several audiences), are not expired by more than the leeway,
    answer this sign-in's nonce and carry a subject of 1 to 255 bytes.  The
    sum with the leeway may wrap around; it never makes a token last longer. *)
Theorem id_token_subject_sound (claims : json) (expected : IdTokenExpectations) (sub : str) :
  id_token_subject claims expected = Ok sub ->
  (exists iss, json_index u"iss" claims = JStr iss /\
     trim_end_matches 47 iss = trim_end_matches 47 (exp_issuer expected)) /\
  (exists auds, audiences_of (json_index u"aud" claims) = Some auds /\
     exp_client_id expected ∈ auds /\
     ((1 < length auds)%nat -> json_index u"azp" claims = JStr (exp_client_id expected))) /\
  (exists exp, as_i64 (json_index u"exp" claims) = Some exp /\ exp_now expected < exp + 60) /\
  json_index u"nonce" claims = JStr (exp_nonce expected) /\
  json_index u"sub" claims = JStr sub /\ 1 <= byte_len sub <= 255.
Proof.
  assert (forall v s, Crates.as_str v = Some s -> v = JStr s) as Has by (intros [] ?; cbn; naive_solver).
  unfold id_token_subject. case_bool_decide as Hiss; [|done]. cbn [negb].
  apply fmap_Some in Hiss as (iss & Hiss%Has & Eiss).
  destruct (audiences_of _) as [auds|] eqn:Eaud; [|done].
  destruct (contains auds _) eqn:Ec; [|done]. cbn [negb].
  case_cond; [done|]. destruct (as_i64 (json_index u"exp" claims)) as [exp|] eqn:Ee; [|done].
  destruct (exp_now expected <? wrap_i64 (exp + LEEWAY_SECS)) eqn:Ex; [|done]. cbn [negb].
  case_cond; [done|].
  destruct (bool_decide (Crates.as_str (json_index u"nonce" claims) = _)) eqn:Hn; [|done].
  apply bool_decide_eq_true in Hn. cbn [negb].
  destruct (Crates.as_str (json_index u"sub" claims)) as [s|] eqn:Es; [|done].
  case_cond; [|done]. intros [= ->]. breflect. apply as_i64_range in Ee as Hr.
  split_and!; [by eauto| |exists exp; split; [done|]|auto..|lia|lia].
  - exists auds. split_and!; [done|done|]. intros Hlen. destruct E as [E|E]; [lia|].
    apply bool_decide_eq_true in E. auto.
  - pose proof (wrap_i64_le (exp + LEEWAY_SECS)). unfold LEEWAY_SECS, I64_MIN in *. lia.
Qed.

Definition example_claims : json :=
  JObj [(u"aud", JStr u"app"); (u"exp", JNum (JInt 1000)); (u"iss", JStr u"https://idp.example/");
        (u"nonce", JStr u"n"); (u"sub", JStr u"42")].

Lemma id_token_subject_sound_witness :
  exists exp, as_i64 (json_index u"exp" example_claims) = Some exp /\ 1010 < exp + 60.
Proof.
  apply (id_token_subject_sound example_claims
    {| exp_issuer := u"https://idp.example"; exp_client_id := u"app"; exp_nonce := u"n";
       exp_now := 1010 |} u"42"). vm_compute. reflexivity.
Defined.

End ExternalIdentity.
