(* ===== verification/Network.v ===== *)
(** Webhooks: their events, retries, targets, signatures and the addresses they
    may be sent to (src/src/domain/webhook.rs). *)
From S2P Require Import Prelude Crates Account OAuthDomain.

#[local] Ltac Zify.zify_post_hook ::= Z.to_euclidean_division_equations.

(** * Bits of addresses *)

Definition is_u32 (b : Z) : Prop := 0 <= b < 2 ^ 32.
Definition is_u128 (b : Z) : Prop := 0 <= b < 2 ^ 128.
Definition ip_ok (ip : IpAddr) : Prop :=
  match ip with V4 b => is_u32 b | V6 b => is_u128 b end.

Lemma octet_div (b i : Z) : 0 <= i <= 3 -> octet b i = (b / 2 ^ (24 - 8 * i)) mod 256.
Proof.
  intros Hi. unfold octet. change 0xff with (Z.ones 8). rewrite Z.land_ones by lia.
  by rewrite Z.shiftr_div_pow2 by lia.
Qed.

Lemma segment_div (b i : Z) : 0 <= i <= 7 -> segment b i = (b / 2 ^ (112 - 16 * i)) mod 65536.
Proof.
  intros Hi. unfold segment. change 0xffff with (Z.ones 16). rewrite Z.land_ones by lia.
  by rewrite Z.shiftr_div_pow2 by lia.
Qed.

(** An IPv4 address is its octets, an IPv6 address its segments. *)
Lemma octets_split (b : Z) : is_u32 b ->
  let o := octet b in
  b = o 0 * 2 ^ 24 + o 1 * 2 ^ 16 + o 2 * 2 ^ 8 + o 3 /\
  0 <= o 0 < 256 /\ 0 <= o 1 < 256 /\ 0 <= o 2 < 256 /\ 0 <= o 3 < 256.
Proof.
  unfold is_u32. intros Hb. cbn zeta. rewrite !octet_div by lia.
  change (24 - 8 * 0) with 24. change (24 - 8 * 1) with 16.
  change (24 - 8 * 2) with 8. change (24 - 8 * 3) with 0. lia.
Qed.

Lemma segments_split (b : Z) : is_u128 b ->
  let s := segment b in
  b = s 0 * 2 ^ 112 + s 1 * 2 ^ 96 + s 2 * 2 ^ 80 + s 3 * 2 ^ 64 +
      s 4 * 2 ^ 48 + s 5 * 2 ^ 32 + s 6 * 2 ^ 16 + s 7 /\
  0 <= s 0 < 65536 /\ 0 <= s 1 < 65536 /\ 0 <= s 2 < 65536 /\ 0 <= s 3 < 65536 /\
  0 <= s 4 < 65536 /\ 0 <= s 5 < 65536 /\ 0 <= s 6 < 65536 /\ 0 <= s 7 < 65536.
Proof.
  unfold is_u128. intros Hb. cbn zeta. rewrite !segment_div by lia.
  change (112 - 16 * 0) with 112. change (112 - 16 * 1) with 96.
  change (112 - 16 * 2) with 80. change (112 - 16 * 3) with 64.
  change (112 - 16 * 4) with 48. change (112 - 16 * 5) with 32.
  change (112 - 16 * 6) with 16. change (112 - 16 * 7) with 0. lia.
Qed.

(** A mask of [m] bits above bit [k]. *)
Lemma land_mask (x k m : Z) : 0 <= k -> 0 <= m ->
  Z.land x (Z.shiftl (Z.ones m) k) = (x / 2 ^ k) mod 2 ^ m * 2 ^ k.
Proof.
  intros Hk Hm. rewrite <- Z.land_ones, <- Z.shiftr_div_pow2, <- Z.shiftl_mul_pow2 by lia.
  rewrite Z.shiftl_land. apply Z.bits_inj'. intros n Hn.
  rewrite !Z.land_spec, (Z.shiftl_spec (Z.shiftr x k)) by lia.
  destruct (Z.lt_ge_cases n k) as [Hlt|Hge].
  - rewrite Z.shiftl_spec_low by lia. by rewrite !andb_false_r.
  - rewrite Z.shiftr_spec by lia. by replace (n - k + k) with n by lia.
Qed.

(** * Webhooks *)

Module Webhook.

Definition EVENT_NAMES : list str :=
  [u"user.created"; u"user.email_verified"; u"user.email_changed"; u"user.password_changed";
   u"user.sessions_revoked"; u"user.suspended"; u"user.reactivated"; u"user.deleted"].

Definition MAX_ATTEMPTS : Z := 12.

(** Durations in seconds. *)
Definition FIRST_RETRY : Z := 30.
Definition MAX_RETRY : Z := 6 * 3600.

Definition U32_MAX : Z := 2 ^ 32 - 1.

(** [failed_attempts : i32]; [2u32.saturating_pow]; the product of a
    [std::time::Duration] saturates at the type's bound, far above. *)
Definition retry_delay (failed_attempts : Z) : Z :=
  if failed_attempts <=? 0 then 0
  else
    let doublings := Z.abs (Z.min (failed_attempts - 1) 16) in
    Z.min (FIRST_RETRY * Z.min U32_MAX (2 ^ doublings)) MAX_RETRY.

Definition check_events (events : list str) : result (list str) str :=
  if bool_decide (events = []) then Err u"subscribe to at least one event, or `*`"
  else
    let unknown := List.filter (fun event => negb (str_eqb event u"*") &&
                                             negb (contains EVENT_NAMES event)) events in
    if negb (bool_decide (unknown = [])) then Err (u"unknown events: " ++ join u", " unknown)
    else Ok (dedup (sort_strs events)).

Definition subscribes (events : list str) (event : str) : bool :=
  existsb (fun e => str_eqb e u"*" || str_eqb e event) events.

Definition check_url `{UrlCrate} (url : str) (allow_http : bool) : result Url str :=
  if 2000 <? byte_len url then Err u"url must be at most 2000 characters"
  else match url_parse url with
  | Err e => Err (u"invalid url: " ++ e)
  | Ok parsed =>
      if negb (str_eqb (url_scheme parsed) u"https" ||
               (str_eqb (url_scheme parsed) u"http" && allow_http))
      then Err u"url must use https"
      else if match url_host_str parsed with None => true | Some h => bool_decide (h = []) end
      then Err u"url must name a host"
      else if negb (bool_decide (url_username parsed = []))
              || bool_decide (is_Some (url_password parsed))
      then Err u"url must not carry credentials"
      else if bool_decide (is_Some (url_fragment parsed))
      then Err u"url must not carry a fragment"
      else Ok parsed
  end.

(** The predicates of [Ipv4Addr] the code uses. *)
Definition v4_is_unspecified (ip : Z) : bool := ip =? 0.
Definition v4_is_loopback (ip : Z) : bool := octet ip 0 =? 127.
Definition v4_is_private (ip : Z) : bool :=
  (octet ip 0 =? 10)
  || ((octet ip 0 =? 172) && ((16 <=? octet ip 1) && (octet ip 1 <=? 31)))
  || ((octet ip 0 =? 192) && (octet ip 1 =? 168)).
Definition v4_is_link_local (ip : Z) : bool := (octet ip 0 =? 169) && (octet ip 1 =? 254).
Definition v4_is_broadcast (ip : Z) : bool := ip =? 0xffffffff.
Definition v4_is_documentation (ip : Z) : bool :=
  ((octet ip 0 =? 192) && (octet ip 1 =? 0) && (octet ip 2 =? 2))
  || ((octet ip 0 =? 198) && (octet ip 1 =? 51) && (octet ip 2 =? 100))
  || ((octet ip 0 =? 203) && (octet ip 1 =? 0) && (octet ip 2 =? 113)).
Definition v4_is_multicast (ip : Z) : bool := (224 <=? octet ip 0) && (octet ip 0 <=? 239).

Definition is_public_v4 (ip : Z) : bool :=
  let a := octet ip 0 in
  let b := octet ip 1 in
  let c := octet ip 2 in
  negb (v4_is_unspecified ip
        || v4_is_loopback ip
        || v4_is_private ip
        || v4_is_link_local ip
        || v4_is_broadcast ip
        || v4_is_documentation ip
        || v4_is_multicast ip
        || (a =? 0)
        || ((a =? 100) && ((64 <=? b) && (b <=? 127)))
        || ((a =? 192) && (b =? 0) && (c =? 0))
        || ((a =? 192) && (b =? 88) && (c =? 99))
        || ((a =? 198) && ((18 <=? b) && (b <=? 19)))
        || (240 <=? a)).

Definition segs_eq (ip : Z) (idxs : list Z) (v : Z) : bool :=
  forallb (fun i => segment ip i =? v) idxs.

Definition is_public_v6 (ip : Z) : bool :=
  match to_ipv4_mapped ip with
  | Some v4 => is_public_v4 v4
  | None =>
      let s := segment ip in
      if (s 0 =? 0x64) && (s 1 =? 0xff9b) && segs_eq ip [2; 3; 4; 5] 0 then
        is_public_v4 (Z.lor (Z.shiftl (s 6) 16) (s 7))
      else if (s 0 =? 0x64) && (s 1 =? 0xff9b) && (s 2 =? 1) then false
      else if s 0 =? 0x2002 then
        is_public_v4 (Z.lor (Z.shiftl (s 1) 16) (s 2))
      else
        negb ((ip =? 0)
              || (ip =? 1)
              || (Z.land (s 0) 0xff00 =? 0xff00)
              || segs_eq ip [0; 1; 2; 3; 4; 5] 0
              || (Z.land (s 0) 0xfe00 =? 0xfc00)
              || (Z.land (s 0) 0xffc0 =? 0xfe80)
              || (Z.land (s 0) 0xffc0 =? 0xfec0)
              || ((s 0 =? 0x2001) && ((s 1 =? 0x0db8) || (s 1 =? 0)))
              || ((s 0 =? 0x0100) && segs_eq ip [1; 2; 3] 0))
  end.

Definition is_public_address (ip : IpAddr) : bool :=
  match ip with
  | V4 v4 => is_public_v4 v4
  | V6 v6 => is_public_v6 v6
  end.

Definition SECRET_PREFIX : str := u"whsec_".

Definition format_secret (b64 : bytes -> str) (key : bytes) : str := SECRET_PREFIX ++ b64 key.

Definition secret_bytes (unb64 : str -> option bytes) (secret : str) : option bytes :=
  strip_prefix SECRET_PREFIX secret ≫= unb64.

(** The bytes authenticated: [{id}.{timestamp}.{body}]. *)
Definition signed_content (id : str) (timestamp : Z) (body : bytes) : bytes :=
  as_bytes id ++ u"." ++ as_bytes (to_string timestamp) ++ u"." ++ body.

Definition signature (hmac : bytes -> bytes -> bytes) (b64 : bytes -> str)
    (key : bytes) (id : str) (timestamp : Z) (body : bytes) : str :=
  u"v1," ++ b64 (hmac key (signed_content id timestamp body)).

(** ** Theorems *)

(** The special-purpose IPv4 blocks, as base address and prefix length. *)
Definition RESERVED_V4 : list (Z * Z) :=
  [(0 * 2 ^ 24, 8); (10 * 2 ^ 24, 8); (100 * 2 ^ 24 + 64 * 2 ^ 16, 10); (127 * 2 ^ 24, 8);
   (169 * 2 ^ 24 + 254 * 2 ^ 16, 16); (172 * 2 ^ 24 + 16 * 2 ^ 16, 12);
   (192 * 2 ^ 24 + 0 * 2 ^ 16 + 0 * 2 ^ 8, 24); (192 * 2 ^ 24 + 0 * 2 ^ 16 + 2 * 2 ^ 8, 24);
   (192 * 2 ^ 24 + 88 * 2 ^ 16 + 99 * 2 ^ 8, 24); (192 * 2 ^ 24 + 168 * 2 ^ 16, 16);
   (198 * 2 ^ 24 + 18 * 2 ^ 16, 15); (198 * 2 ^ 24 + 51 * 2 ^ 16 + 100 * 2 ^ 8, 24);
   (203 * 2 ^ 24 + 0 * 2 ^ 16 + 113 * 2 ^ 8, 24); (14 * 16 * 2 ^ 24, 4); (15 * 16 * 2 ^ 24, 4)].

Definition in_block (width b : Z) (block : Z * Z) : Prop :=
  b / 2 ^ (width - block.2) = block.1 / 2 ^ (width - block.2).

(** One of the hypotheses, with four more, is enough. *)
Ltac by_one_of A B C D :=
  match goal with H : _ |- _ => clear - H A B C D; lia end.

(** A block test, read on the octets. *)
Section Blocks4.
Variables o0 o1 o2 o3 : Z.
Hypotheses (H0 : 0 <= o0 < 256) (H1 : 0 <= o1 < 256) (H2 : 0 <= o2 < 256) (H3 : 0 <= o3 < 256).
#[local] Abbreviation b := (o0 * 2 ^ 24 + o1 * 2 ^ 16 + o2 * 2 ^ 8 + o3).

Lemma block4_8 (x : Z) : in_block 32 b (x * 2 ^ 24, 8) <-> o0 = x.
Proof. unfold in_block. cbn [fst snd]. change (32 - 8) with 24. lia. Qed.

Lemma block4_16 (x y : Z) : 0 <= y < 256 ->
  in_block 32 b (x * 2 ^ 24 + y * 2 ^ 16, 16) <-> o0 = x /\ o1 = y.
Proof. unfold in_block. cbn [fst snd]. change (32 - 16) with 16. lia. Qed.

Lemma block4_24 (x y z : Z) : 0 <= y < 256 -> 0 <= z < 256 ->
  in_block 32 b (x * 2 ^ 24 + y * 2 ^ 16 + z * 2 ^ 8, 24) <-> o0 = x /\ o1 = y /\ o2 = z.
Proof. unfold in_block. cbn [fst snd]. change (32 - 24) with 8. lia. Qed.

Lemma block4_4 (x : Z) : in_block 32 b (x * 16 * 2 ^ 24, 4) <-> x * 16 <= o0 < x * 16 + 16.
Proof. unfold in_block. cbn [fst snd]. change (32 - 4) with 28. lia. Qed.

Lemma block4_mid (x y len : Z) : 8 <= len <= 16 -> 0 <= y < 256 -> (2 ^ (16 - len) | y) ->
  in_block 32 b (x * 2 ^ 24 + y * 2 ^ 16, len) <-> o0 = x /\ y <= o1 < y + 2 ^ (16 - len).
Proof.
  intros Hl Hy [k Hk]. unfold in_block. cbn [fst snd].
  assert (exists n, (n <= 8)%nat /\ len = 16 - Z.of_nat n) as (n & Hn & ->)
    by (exists (Z.to_nat (16 - len)); lia).
  do 9 (destruct n as [|n]; [cbn -[Z.div Z.mul Z.add] in *; lia|]). lia.
Qed.
End Blocks4.

Lemma public_v4_iff (b : Z) : is_u32 b ->
  is_public_v4 b = true <-> Forall (fun block => ~ in_block 32 b block) RESERVED_V4.
Proof.
  intros Hb. destruct (octets_split b Hb) as (Eb & H0 & H1 & H2 & H3).
  unfold is_public_v4, v4_is_unspecified, v4_is_loopback, v4_is_private, v4_is_link_local,
    v4_is_broadcast, v4_is_documentation, v4_is_multicast, RESERVED_V4.
  rewrite !Forall_cons, Forall_nil.
  set (o0 := octet b 0) in *. set (o1 := octet b 1) in *.
  set (o2 := octet b 2) in *. set (o3 := octet b 3) in *. clearbody o0 o1 o2 o3. subst b.
  rewrite !block4_8, !block4_24, !block4_4 by lia.
  rewrite (block4_mid _ _ _ _ H0 H1 H2 H3 100 64 10), (block4_mid _ _ _ _ H0 H1 H2 H3 169 254 16),
    (block4_mid _ _ _ _ H0 H1 H2 H3 172 16 12), (block4_mid _ _ _ _ H0 H1 H2 H3 192 168 16),
    (block4_mid _ _ _ _ H0 H1 H2 H3 198 18 15) by first [lia | by apply Z.mod_divide].
  rewrite negb_true_iff, !orb_false_iff, !andb_false_iff, !Z.eqb_neq, !Z.leb_gt.
  change (2 ^ (16 - 10)) with 64. change (2 ^ (16 - 16)) with 1.
  change (2 ^ (16 - 12)) with 16. change (2 ^ (16 - 15)) with 2. clear Hb.
  split; intros Hand; destruct_and! Hand; split_and!;
    solve [by_one_of H0 H1 H2 H3].
Qed.
(** The IPv4 address an IPv6 address stands for: IPv4-mapped
    ([::ffff:0:0/96]), NAT64 ([64:ff9b::/96]) or 6to4 ([2002::/16]). *)
Definition embedded_v4 (b : Z) : option Z :=
  if b / 2 ^ 32 =? 0xffff then Some (b mod 2 ^ 32)
  else if b / 2 ^ 32 =? 0x64ff9b * 2 ^ 64 then Some (b mod 2 ^ 32)
  else if b / 2 ^ 112 =? 0x2002 then Some ((b / 2 ^ 80) mod 2 ^ 32)
  else None.

(** The special-purpose IPv6 blocks: unspecified, loopback and IPv4-compatible,
    local NAT64, discard, Teredo, documentation, unique local, link-local,
    site-local, multicast. *)
Definition RESERVED_V6 : list (Z * Z) :=
  [(0, 96); (0x64ff9b0001 * 2 ^ 80, 48); (0x100 * 2 ^ 112, 64); (0x2001 * 2 ^ 112, 32);
   (0x20010db8 * 2 ^ 96, 32); (0xfc00 * 2 ^ 112, 7); (0xfe80 * 2 ^ 112, 10);
   (0xfec0 * 2 ^ 112, 10); (0xff00 * 2 ^ 112, 8)].

Lemma lor_shift (x y : Z) : 0 <= y < 65536 -> Z.lor (Z.shiftl x 16) y = x * 65536 + y.
Proof.
  intros Hy. rewrite <- Z.add_nocarry_lor; [by rewrite Z.shiftl_mul_pow2 by lia|].
  apply Z.bits_inj'. intros n Hn. rewrite Z.land_spec, Z.bits_0.
  destruct (Z.lt_ge_cases n 16) as [Hlt|Hge].
  - by rewrite Z.shiftl_spec_low by lia.
  - replace y with (y mod 2 ^ 16) by (rewrite Z.mod_small; lia).
    rewrite Z.mod_pow2_bits_high by lia. apply andb_false_r.
Qed.

(** Numbers in base 65536. *)
Lemma base_div (q x : Z) : 0 <= x < 65536 -> (q * 65536 + x) / 65536 = q.
Proof. lia. Qed.

Lemma base_eq (q x q' y : Z) : 0 <= x < 65536 -> 0 <= y < 65536 ->
  q * 65536 + x = q' * 65536 + y <-> q = q' /\ x = y.
Proof. lia. Qed.

Lemma mask6 (s0 : Z) (H0 : 0 <= s0 < 65536) (k m x : Z) : 0 <= k -> 0 <= m -> k + m = 16 ->
  Z.land s0 (Z.shiftl (Z.ones m) k) = x * 2 ^ k <-> s0 / 2 ^ k = x.
Proof.
  intros Hk Hm Hkm. rewrite land_mask by done. rewrite Z.mod_small.
  - split; [|by intros ->]. intros E. apply Z.mul_cancel_r in E; [done|].
    pose proof (Z.pow_pos_nonneg 2 k). lia.
  - split; [apply Z.div_pos; [lia|]; pose proof (Z.pow_pos_nonneg 2 k); lia|].
    apply Z.div_lt_upper_bound; [pose proof (Z.pow_pos_nonneg 2 k); lia|].
    rewrite <- Z.pow_add_r, Hkm by lia. lia.
Qed.

(** The tests of the code, read on the segments. *)
Section Blocks6.
Variables s0 s1 s2 s3 s4 s5 s6 s7 : Z.
Hypotheses (H0 : 0 <= s0 < 65536) (H1 : 0 <= s1 < 65536) (H2 : 0 <= s2 < 65536)
  (H3 : 0 <= s3 < 65536) (H4 : 0 <= s4 < 65536) (H5 : 0 <= s5 < 65536)
  (H6 : 0 <= s6 < 65536) (H7 : 0 <= s7 < 65536).
#[local] Abbreviation b := (s0 * 2 ^ 112 + s1 * 2 ^ 96 + s2 * 2 ^ 80 + s3 * 2 ^ 64 +
    s4 * 2 ^ 48 + s5 * 2 ^ 32 + s6 * 2 ^ 16 + s7).

#[local] Abbreviation horner :=
  (((((((s0 * 65536 + s1) * 65536 + s2) * 65536 + s3) * 65536 + s4) * 65536 + s5)
    * 65536 + s6) * 65536 + s7).

Lemma horner_eq : b = horner.
Proof. ring. Qed.

Lemma quot_32 : b / 2 ^ 32 = (((((s0 * 65536 + s1) * 65536 + s2) * 65536 + s3) * 65536 + s4) * 65536 + s5).
Proof.
  rewrite horner_eq.
  transitivity (horner / 65536 / 65536); [by rewrite Z.div_div by lia|].
  by rewrite !base_div by lia.
Qed.

Lemma quot_64 : b / 2 ^ 64 = ((s0 * 65536 + s1) * 65536 + s2) * 65536 + s3.
Proof.
  transitivity (b / 2 ^ 32 / 65536 / 65536); [by rewrite !Z.div_div by lia|].
  by rewrite quot_32, !base_div by lia.
Qed.

Lemma quot_80 : b / 2 ^ 80 = (s0 * 65536 + s1) * 65536 + s2.
Proof.
  transitivity (b / 2 ^ 64 / 65536); [by rewrite Z.div_div by lia|].
  by rewrite quot_64, base_div by lia.
Qed.

Lemma quot_96 : b / 2 ^ 96 = s0 * 65536 + s1.
Proof.
  transitivity (b / 2 ^ 80 / 65536); [by rewrite Z.div_div by lia|].
  by rewrite quot_80, base_div by lia.
Qed.

Lemma quot_112 : b / 2 ^ 112 = s0.
Proof.
  transitivity (b / 2 ^ 96 / 65536); [by rewrite Z.div_div by lia|].
  by rewrite quot_96, base_div by lia.
Qed.

Lemma block6_seg0 (x len : Z) : 0 <= len <= 16 -> 0 <= x < 65536 ->
  in_block 128 b (x * 2 ^ 112, len) <-> s0 / 2 ^ (16 - len) = x / 2 ^ (16 - len).
Proof.
  intros Hl Hx. unfold in_block. cbn [fst snd].
  replace (128 - len) with (112 + (16 - len)) by lia.
  assert (0 < 2 ^ (16 - len)) by (apply Z.pow_pos_nonneg; lia).
  rewrite Z.pow_add_r, <- !Z.div_div by lia. by rewrite Z.div_mul, quot_112 by lia.
Qed.

Lemma block6_96 : in_block 128 b (0, 96) <->
  s0 = 0 /\ s1 = 0 /\ s2 = 0 /\ s3 = 0 /\ s4 = 0 /\ s5 = 0.
Proof.
  unfold in_block. cbn [fst snd]. change (128 - 96) with 32. rewrite quot_32.
  change (0 / 2 ^ 32) with (((((0 * 65536 + 0) * 65536 + 0) * 65536 + 0) * 65536 + 0) * 65536 + 0).
  rewrite !base_eq by lia. tauto.
Qed.

Lemma tiny_96 : b = 0 \/ b = 1 -> s0 = 0 /\ s1 = 0 /\ s2 = 0 /\ s3 = 0 /\ s4 = 0 /\ s5 = 0.
Proof. intros Hb. apply block6_96. unfold in_block. by destruct Hb as [-> | ->]. Qed.

Lemma block6_48 (x y z : Z) : 0 <= y < 65536 -> 0 <= z < 65536 ->
  in_block 128 b (((x * 65536 + y) * 65536 + z) * 2 ^ 80, 48) <-> s0 = x /\ s1 = y /\ s2 = z.
Proof.
  intros. unfold in_block. cbn [fst snd]. change (128 - 48) with 80.
  rewrite quot_80, Z.div_mul, !base_eq by lia. tauto.
Qed.

Lemma block6_32 (x y : Z) : 0 <= y < 65536 ->
  in_block 128 b ((x * 65536 + y) * 2 ^ 96, 32) <-> s0 = x /\ s1 = y.
Proof.
  intros. unfold in_block. cbn [fst snd]. change (128 - 32) with 96.
  by rewrite quot_96, Z.div_mul, !base_eq by lia.
Qed.

Lemma block6_64 (x : Z) :
  in_block 128 b (x * 2 ^ 112, 64) <-> s0 = x /\ s1 = 0 /\ s2 = 0 /\ s3 = 0.
Proof.
  intros. unfold in_block. cbn [fst snd]. change (128 - 64) with 64.
  replace (x * 2 ^ 112) with ((((x * 65536 + 0) * 65536 + 0) * 65536 + 0) * 2 ^ 64) by ring.
  rewrite quot_64, Z.div_mul, !base_eq by lia. tauto.
Qed.

Lemma nat64_eq : b / 2 ^ 32 = 0x64ff9b * 2 ^ 64 <->
  s0 = 0x64 /\ s1 = 0xff9b /\ s2 = 0 /\ s3 = 0 /\ s4 = 0 /\ s5 = 0.
Proof.
  rewrite quot_32. change (0x64ff9b * 2 ^ 64)
    with (((((0x64 * 65536 + 0xff9b) * 65536 + 0) * 65536 + 0) * 65536 + 0) * 65536 + 0).
  rewrite !base_eq by lia. tauto.
Qed.

Lemma low_32 : b mod 2 ^ 32 = s6 * 65536 + s7.
Proof. rewrite Z.mod_eq, quot_32 by lia. ring. Qed.

Lemma mid_32 : (b / 2 ^ 80) mod 2 ^ 32 = s1 * 65536 + s2.
Proof.
  rewrite quot_80. change (2 ^ 32) with (65536 * 65536).
  rewrite Z.mod_eq, <- Z.div_div, !base_div by lia. ring.
Qed.
End Blocks6.

Lemma land_low (b : Z) : Z.land b 0xffffffff = b mod 2 ^ 32.
Proof. by rewrite <- Z.land_ones. Qed.

(** The segments of a NAT64 or 6to4 address, and the IPv4 address in them. *)
Lemma embedded_cases (b : Z) : is_u128 b ->
  let s := segment b in
  ((s 0 =? 0x64) && (s 1 =? 0xff9b) && segs_eq b [2; 3; 4; 5] 0 = (b / 2 ^ 32 =? 0x64ff9b * 2 ^ 64)) /\
  ((s 0 =? 0x2002) = (b / 2 ^ 112 =? 0x2002)) /\
  Z.lor (Z.shiftl (s 6) 16) (s 7) = b mod 2 ^ 32 /\
  Z.lor (Z.shiftl (s 1) 16) (s 2) = (b / 2 ^ 80) mod 2 ^ 32.
Proof.
  intros Hb. cbn zeta. destruct (segments_split b Hb) as (Eb & H0 & H1 & H2 & H3 & H4 & H5 & H6 & H7).
  unfold segs_eq, forallb. rewrite !lor_shift by done.
  set (s0 := segment b 0) in *. set (s1 := segment b 1) in *. set (s2 := segment b 2) in *.
  set (s3 := segment b 3) in *. set (s4 := segment b 4) in *. set (s5 := segment b 5) in *.
  set (s6 := segment b 6) in *. set (s7 := segment b 7) in *.
  clearbody s0 s1 s2 s3 s4 s5 s6 s7. subst b. split_and!.
  - apply eq_iff_eq_true. rewrite !andb_true_iff, !Z.eqb_eq, nat64_eq by done. tauto.
  - by rewrite quot_112.
  - by rewrite low_32.
  - by rewrite mid_32.
Qed.

Lemma public_v6_iff (b : Z) : is_u128 b ->
  is_public_v6 b = true <->
  match embedded_v4 b with
  | Some v4 => is_public_v4 v4 = true
  | None => Forall (fun block => ~ in_block 128 b block) RESERVED_V6
  end.
Proof.
  intros Hb. unfold is_public_v6, to_ipv4_mapped, embedded_v4.
  rewrite Z.shiftr_div_pow2, land_low by lia.
  destruct (b / 2 ^ 32 =? 0xffff) eqn:Em; [done|].
  destruct (embedded_cases b Hb) as (E1 & E2 & E3 & E4). cbn zeta in *.
  rewrite E1. destruct (b / 2 ^ 32 =? 0x64ff9b * 2 ^ 64) eqn:En; [by rewrite E3|].
  destruct ((segment b 0 =? 0x64) && (segment b 1 =? 0xff9b) && (segment b 2 =? 1)) eqn:El.
  - assert (b / 2 ^ 112 =? 0x2002 = false) as ->.
    { rewrite <- E2. breflect. destruct El as [[-> _] _]. lia. }
    split; [done|]. intros HF. unfold RESERVED_V6 in HF. rewrite !Forall_cons in HF.
    destruct HF as (_ & HF & _). destruct HF.
    destruct (segments_split b Hb) as (Eb & ?). destruct_and?. breflect. destruct_and?.
    rewrite Eb. change 0x64ff9b0001 with ((0x64 * 65536 + 0xff9b) * 65536 + 1).
    by apply block6_48.
  - rewrite E2. destruct (b / 2 ^ 112 =? 0x2002) eqn:E6; [by rewrite E4|].
    clear E1 E2 E3 E4 Em En E6.
    destruct (segments_split b Hb) as (Eb & H0 & H1 & H2 & H3 & H4 & H5 & H6 & H7).
    unfold segs_eq, forallb, RESERVED_V6. rewrite !Forall_cons, Forall_nil.
    set (s0 := segment b 0) in *. set (s1 := segment b 1) in *. set (s2 := segment b 2) in *.
    set (s3 := segment b 3) in *. set (s4 := segment b 4) in *. set (s5 := segment b 5) in *.
    set (s6 := segment b 6) in *. set (s7 := segment b 7) in *.
    clearbody s0 s1 s2 s3 s4 s5 s6 s7. subst b.
    change 0x64ff9b0001 with ((0x64 * 65536 + 0xff9b) * 65536 + 1).
    change 0x20010db8 with (0x2001 * 65536 + 0x0db8).
    change (0x2001 * 2 ^ 112) with ((0x2001 * 65536 + 0) * 2 ^ 96).
    pose proof (tiny_96 s0 s1 s2 s3 s4 s5 s6 s7 H0 H1 H2 H3 H4 H5 H6 H7) as Htiny.
    rewrite block6_96, block6_48, !block6_32, block6_64, !block6_seg0 by lia.
    pose proof (mask6 s0 H0 8 8 0xff ltac:(lia) ltac:(lia) eq_refl) as M1.
    pose proof (mask6 s0 H0 9 7 0x7e ltac:(lia) ltac:(lia) eq_refl) as M2.
    pose proof (mask6 s0 H0 6 10 0x3fa ltac:(lia) ltac:(lia) eq_refl) as M3.
    pose proof (mask6 s0 H0 6 10 0x3fb ltac:(lia) ltac:(lia) eq_refl) as M4.
    change (Z.shiftl (Z.ones 8) 8) with 0xff00 in M1. change (Z.shiftl (Z.ones 7) 9) with 0xfe00 in M2.
    change (Z.shiftl (Z.ones 10) 6) with 0xffc0 in M3. change (Z.shiftl (Z.ones 10) 6) with 0xffc0 in M4.
    change (2 ^ (16 - 7)) with (2 ^ 9). change (2 ^ (16 - 10)) with (2 ^ 6).
    change (2 ^ (16 - 8)) with (2 ^ 8). change (0xfc00 / 2 ^ 9) with 0x7e.
    change (0xfe80 / 2 ^ 6) with 0x3fa. change (0xfec0 / 2 ^ 6) with 0x3fb.
    change (0xff00 / 2 ^ 8) with 0xff. change (0xff * 2 ^ 8) with 0xff00 in M1.
    change (0x7e * 2 ^ 9) with 0xfc00 in M2. change (0x3fa * 2 ^ 6) with 0xfe80 in M3.
    change (0x3fb * 2 ^ 6) with 0xfec0 in M4. rewrite <- M1, <- M2, <- M3, <- M4.
    rewrite negb_true_iff, <- not_true_iff_false. rewrite <- not_true_iff_false in El.
    rewrite !andb_true_r. rewrite !orb_true_iff, !andb_true_iff, !orb_true_iff, !Z.eqb_eq in *. clear - El Htiny. tauto.
Qed.

(** C40: a webhook is delivered to an address only when it is outside every
    special-purpose block: an IPv4 address outside the fifteen reserved blocks,
    an IPv6 address that embeds such an IPv4 address (mapped, NAT64, 6to4), or
    one outside the nine reserved IPv6 blocks; and to every such address. *)
Theorem public_address_iff (ip : IpAddr) : ip_ok ip ->
  is_public_address ip = true <->
  let outside4 b := Forall (fun block => ~ in_block 32 b block) RESERVED_V4 in
  match ip with
  | V4 b => outside4 b
  | V6 b => match embedded_v4 b with
            | Some v4 => outside4 v4
            | None => Forall (fun block => ~ in_block 128 b block) RESERVED_V6
            end
  end.
Proof.
  destruct ip as [b|b]; cbn [ip_ok is_public_address]; intros Hb; [by apply public_v4_iff|].
  rewrite public_v6_iff by done. destruct (embedded_v4 b) as [v4|] eqn:E; [|done].
  apply public_v4_iff. unfold embedded_v4 in E. unfold is_u32.
  repeat case_cond; simplify_eq; apply Z.mod_pos_bound; lia.
Qed.

Lemma public_address_iff_witness :
  is_public_address (V6 (0x2002 * 2 ^ 112 + (10 * 2 ^ 24 + 1) * 2 ^ 80)) = false.
Proof.
  apply not_true_iff_false. intros H. apply public_address_iff in H; [|done].
  change (embedded_v4 _) with (Some (10 * 2 ^ 24 + 1)) in H. cbv zeta beta iota in H.
  unfold RESERVED_V4 in H. rewrite !Forall_cons in H. by destruct H as (_ & H & _).
Defined.

(** ** Retries *)

Lemma retry_delay_bounds (n : Z) : 0 <= retry_delay n <= MAX_RETRY.
Proof.
  unfold retry_delay, FIRST_RETRY, MAX_RETRY, U32_MAX. case_cond; [lia|].
  pose proof (Z.pow_nonneg 2 (Z.abs (Z.min (n - 1) 16))). lia.
Qed.

Lemma retry_delay_mono (n m : Z) : n <= m -> retry_delay n <= retry_delay m.
Proof.
  intros Hnm. unfold retry_delay. case_cond.
  { case_cond; [lia|]. pose proof (retry_delay_bounds m) as Hb. unfold retry_delay in Hb.
    rewrite E0 in Hb. lia. }
  breflect. replace (m <=? 0) with false by (symmetry; breflect; lia).
  apply Z.min_le_compat_r, Z.mul_le_mono_nonneg_l; [done|]. apply Z.min_le_compat_l.
  apply Z.pow_le_mono_r; lia.
Qed.

(** The twelve attempts span 52,290 seconds of waiting, about fourteen hours and a half. *)
Definition total_wait : Z :=
  foldr Z.add 0 (map (fun n => retry_delay (Z.of_nat n)) (seq 1 (Z.to_nat (MAX_ATTEMPTS - 1)))).

Example total_wait_value : total_wait = 52290.
Proof. reflexivity. Qed.

(** ** Subscriptions *)

(** The pauses between the attempts of a delivery never shrink and stay
    within the longest one, and a delivery is given up only after more than
    fourteen hours of them. *)
Theorem retry_schedule (n m : Z) :
  0 <= retry_delay n <= MAX_RETRY /\ (n <= m -> retry_delay n <= retry_delay m) /\
  14 * 3600 < total_wait.
Proof.
  split_and!; [apply retry_delay_bounds..|apply retry_delay_mono|]. by rewrite total_wait_value.
Qed.

Lemma check_events_ok (events subs : list str) :
  check_events events = Ok subs <->
  events <> [] /\ (forall e, e ∈ events -> e = u"*" \/ e ∈ EVENT_NAMES) /\
  subs = dedup (sort_strs events).
Proof.
  unfold check_events. case_bool_decide; [naive_solver|].
  destruct (bool_decide (List.filter _ events = [])) eqn:E; cbn [negb].
  - apply bool_decide_eq_true in E. rewrite OAuth.filter_nil_iff, Forall_forall in E.
    split; [intros [= <-]|intros (_ & _ & ->); done]. split_and!; [done| |done].
    intros e He. apply E in He. rewrite andb_false_iff, !negb_false_iff in He.
    by rewrite str_eqb_eq, contains_true in He.
  - apply bool_decide_eq_false in E. split; [done|]. intros (_ & Hall & _). destruct E.
    apply OAuth.filter_nil_iff, Forall_forall. intros e He.
    rewrite andb_false_iff, !negb_false_iff, str_eqb_eq, contains_true. auto.
Qed.

Lemma subscribes_iff (events : list str) (e : str) :
  subscribes events e = true <-> u"*" ∈ events \/ e ∈ events.
Proof.
  unfold subscribes. rewrite existsb_exists. setoid_rewrite <- list_elem_of_In.
  setoid_rewrite orb_true_iff. setoid_rewrite str_eqb_eq. naive_solver.
Qed.

End Webhook.
