(* ===== verification/Edge.v ===== *)
(** The network edge: the client address behind trusted proxies
    (src/src/middleware/client_ip.rs), the keys clients are counted under and
    the sliding-window limiter (middleware/rate_limit.rs), and the limiter's
    verdict (domain/rate_limit.rs). *)
From S2P Require Import Prelude Crates Account OAuthDomain Network.

(** * The client address *)

Module ClientIp.

(** The forwarding headers: each value is its text when it is visible ASCII
    ([HeaderValue::to_str]), [None] otherwise. *)
Record HeaderMap := {
  x_forwarded_for : list (option str);
  x_real_ip : option (option str);
}.

Definition canonical_ip (ip : IpAddr) : IpAddr :=
  match ip with
  | V6 v6 => match to_ipv4_mapped v6 with Some v4 => V4 v4 | None => ip end
  | V4 _ => ip
  end.

Section Resolve.
Context `{UrlCrate} `{IpNetworkCrate}.

Definition is_trusted_proxy (ip : IpAddr) (trusted_proxy_cidrs : list IpNetwork) : bool :=
  existsb (fun cidr => net_contains cidr (canonical_ip ip)) trusted_proxy_cidrs.

(** The hops of every line; no answer when a line is not text. *)
Fixpoint hops_of (lines : list (option str)) : option (list str) :=
  match lines with
  | [] => Some []
  | line :: rest =>
      text ← line;
      hops ← hops_of rest;
      Some (map trim (split_on 44 text) ++ hops)
  end.

(** The walk over the hops, rightmost first. *)
Fixpoint walk (hops : list str) (trusted : list IpNetwork) (leftmost_trusted : option IpAddr) :
    option IpAddr :=
  match hops with
  | [] => leftmost_trusted
  | hop :: rest =>
      match parse_ip hop with
      | None => None
      | Some ip =>
          if negb (is_trusted_proxy ip trusted) then Some ip
          else walk rest trusted (Some ip)
      end
  end.

Definition forwarded_client_ip (headers : HeaderMap) (trusted : list IpNetwork) : option IpAddr :=
  match x_forwarded_for headers with
  | [] => match x_real_ip headers with
          | Some (Some s) => parse_ip (trim s)
          | _ => None
          end
  | lines => hops ← hops_of lines; walk (rev hops) trusted None
  end.

Definition resolve_client_ip (peer : option IpAddr) (headers : HeaderMap)
    (trusted_proxy_cidrs : list IpNetwork) : option IpAddr :=
  match peer with
  | None => None
  | Some peer =>
      let peer := canonical_ip peer in
      if negb (is_trusted_proxy peer trusted_proxy_cidrs) then Some peer
      else Some (default peer (forwarded_client_ip headers trusted_proxy_cidrs))
  end.

(** A hop written by a trusted proxy about another one. *)
Definition trusted_hop (trusted : list IpNetwork) (hop : str) : Prop :=
  exists ip, parse_ip hop = Some ip /\ is_trusted_proxy ip trusted = true.

Lemma walk_app (l1 l2 : list str) (trusted : list IpNetwork) (acc : option IpAddr) :
  Forall (trusted_hop trusted) l1 -> exists acc', walk (l1 ++ l2) trusted acc = walk l2 trusted acc'.
Proof.
  intros HF. revert acc. induction HF as [|hop l1 (ip & Hip & Ht) _ IH]; intros acc; [by exists acc|].
  cbn. rewrite Hip, Ht. cbn. apply IH.
Qed.

Lemma rev_Forall (P : str -> Prop) (l : list str) : Forall P l -> Forall P (rev l).
Proof. rewrite !Forall_forall. intros HP x Hx. apply HP. by rewrite list_elem_of_In, <- in_rev, <- list_elem_of_In in Hx. Qed.

End Resolve.


End ClientIp.

(** * The keys clients are counted under *)

Module IpBucket.

(** [{}] of a [u8] and [{:x}] of a [u16]. *)
Definition dec_u8 (n : Z) : str :=
  if n <? 10 then [48 + n]
  else if n <? 100 then [48 + n / 10; 48 + n mod 10]
  else [48 + n / 100; 48 + n / 10 mod 10; 48 + n mod 10].

Definition hex_digit (d : Z) : Z := if d <? 10 then 48 + d else 87 + d.

Definition hex_u16 (n : Z) : str :=
  if n <? 16 then [hex_digit n]
  else if n <? 256 then [hex_digit (n / 16); hex_digit (n mod 16)]
  else if n <? 4096 then [hex_digit (n / 256); hex_digit (n / 16 mod 16); hex_digit (n mod 16)]
  else [hex_digit (n / 4096); hex_digit (n / 256 mod 16); hex_digit (n / 16 mod 16);
        hex_digit (n mod 16)].

Definition v4_text (b : Z) : str := join [46] (map (fun i => dec_u8 (octet b i)) [0; 1; 2; 3]).

Definition ip_bucket (ip : IpAddr) : str :=
  match ip with
  | V4 v4 => v4_text v4
  | V6 v6 =>
      match to_ipv4_mapped v6 with
      | Some v4 => v4_text v4
      | None => join [58] (map (fun i => hex_u16 (segment v6 i)) [0; 1; 2; 3]) ++ u"::/64"
      end
  end.

(** [Ipv6Addr::new(s[0], s[1], s[2], s[3], 0, 0, 0, 0)] *)
Definition v6_prefix (v6 : Z) : Z :=
  segment v6 0 * 2 ^ 112 + segment v6 1 * 2 ^ 96 + segment v6 2 * 2 ^ 80 + segment v6 3 * 2 ^ 64.

Definition ip_bucket_network (ip : IpAddr) : IpNetwork :=
  match ip with
  | V4 v4 => {| net_ip := V4 v4; net_prefix := 32 |}
  | V6 v6 =>
      match to_ipv4_mapped v6 with
      | Some v4 => {| net_ip := V4 v4; net_prefix := 32 |}
      | None => {| net_ip := V6 (v6_prefix v6); net_prefix := 64 |}
      end
  end.

#[local] Ltac Zify.zify_post_hook ::= Z.to_euclidean_division_equations.

Lemma dec_u8_inj (a b : Z) : 0 <= a < 256 -> 0 <= b < 256 -> dec_u8 a = dec_u8 b -> a = b.
Proof. unfold dec_u8. intros Ha Hb. repeat case_cond; breflect; intros [=]; lia. Qed.

Lemma hex_digit_inj (a b : Z) : 0 <= a < 16 -> 0 <= b < 16 -> hex_digit a = hex_digit b -> a = b.
Proof. unfold hex_digit. intros Ha Hb. repeat case_cond; breflect; lia. Qed.

Lemma hex_u16_inj (a b : Z) : 0 <= a < 65536 -> 0 <= b < 65536 -> hex_u16 a = hex_u16 b -> a = b.
Proof.
  unfold hex_u16. intros Ha Hb. repeat case_cond; breflect; intros E'; try discriminate E';
    injection E'; intros; repeat match goal with
    | H : hex_digit _ = hex_digit _ |- _ => apply hex_digit_inj in H; [|lia|lia]
    end; lia.
Qed.

Lemma dec_u8_chars (n c : Z) : 0 <= n < 256 -> c ∈ dec_u8 n -> 48 <= c <= 57.
Proof.
  unfold dec_u8. intros Hn. repeat case_cond; breflect; rewrite !elem_of_cons, elem_of_nil; lia.
Qed.

Lemma hex_digit_range (d : Z) : 0 <= d < 16 -> 48 <= hex_digit d <= 102 /\ hex_digit d <> 58.
Proof. unfold hex_digit. case_cond; breflect; lia. Qed.

Lemma hex_u16_chars (n c : Z) : 0 <= n < 65536 -> c ∈ hex_u16 n -> 48 <= c <= 102 /\ c <> 58.
Proof.
  unfold hex_u16. intros Hn. repeat case_cond; breflect; rewrite !elem_of_cons, elem_of_nil;
    intros Hc; destruct_or? Hc; try done; subst; apply hex_digit_range; lia.
Qed.

Lemma octet_range (b i : Z) : 0 <= octet b i < 256.
Proof.
  unfold octet. change 0xff with (Z.ones 8). rewrite Z.land_ones by lia.
  apply Z.mod_pos_bound. lia.
Qed.

Lemma segment_range (b i : Z) : 0 <= segment b i < 65536.
Proof.
  unfold segment. change 0xffff with (Z.ones 16). rewrite Z.land_ones by lia.
  apply Z.mod_pos_bound. lia.
Qed.

(** Fields joined by a separator none of them holds can be told apart. *)
Lemma join_inj (c : Z) (l1 l2 : list str) :
  l1 <> [] -> l2 <> [] -> Forall (fun t => c ∉ t) l1 -> Forall (fun t => c ∉ t) l2 ->
  join [c] l1 = join [c] l2 -> l1 = l2.
Proof.
  intros N1 N2 F1 F2 E. rewrite <- (OAuth.split_on_join c l1), <- (OAuth.split_on_join c l2) by done.
  by rewrite E.
Qed.

Lemma v4_text_inj (a b : Z) : is_u32 a -> is_u32 b -> v4_text a = v4_text b -> a = b.
Proof.
  intros Ha Hb E. apply join_inj in E; [|done|done| |].
  - cbn in E. injection E. intros E3 E2 E1 E0.
    apply dec_u8_inj in E0, E1, E2, E3; auto using octet_range.
    destruct (octets_split a Ha) as [-> _]. destruct (octets_split b Hb) as [-> _]. congruence.
  - repeat constructor; intros Hin; apply dec_u8_chars in Hin; auto using octet_range; lia.
  - repeat constructor; intros Hin; apply dec_u8_chars in Hin; auto using octet_range; lia.
Qed.

Lemma v6_text_inj (a b : Z) :
  join [58] (map (fun i => hex_u16 (segment a i)) [0; 1; 2; 3]) ++ u"::/64" =
  join [58] (map (fun i => hex_u16 (segment b i)) [0; 1; 2; 3]) ++ u"::/64" ->
  v6_prefix a = v6_prefix b.
Proof.
  intros E. apply (inj (fun x => x ++ _)) in E. apply join_inj in E; [|done|done| |].
  - cbn in E. injection E. intros E3 E2 E1 E0.
    apply hex_u16_inj in E0, E1, E2, E3; auto using segment_range.
    unfold v6_prefix. congruence.
  - repeat constructor; intros Hin; apply hex_u16_chars in Hin; auto using segment_range; lia.
  - repeat constructor; intros Hin; apply hex_u16_chars in Hin; auto using segment_range; lia.
Qed.

Lemma v6_prefix_segments (a b : Z) :
  v6_prefix a = v6_prefix b ->
  segment a 0 = segment b 0 /\ segment a 1 = segment b 1 /\
  segment a 2 = segment b 2 /\ segment a 3 = segment b 3.
Proof.
  unfold v6_prefix. pose proof (segment_range a 0). pose proof (segment_range a 1).
  pose proof (segment_range a 2). pose proof (segment_range a 3).
  pose proof (segment_range b 0). pose proof (segment_range b 1).
  pose proof (segment_range b 2). pose proof (segment_range b 3). lia.
Qed.

(** No IPv4 bucket reads like an IPv6 one: only the latter ends with a prefix
    length. *)
Lemma v4_text_no_colon (b : Z) : 58 ∉ v4_text b.
Proof.
  unfold v4_text. cbn. intros Hin.
  rewrite !elem_of_app, !elem_of_cons, !elem_of_app, !elem_of_cons, !elem_of_app, !elem_of_cons in Hin.
  destruct_or? Hin; try lia; apply dec_u8_chars in Hin; auto using octet_range; lia.
Qed.

Lemma v4_v6_text (x : Z) (s : str) : v4_text x <> s ++ u"::/64".
Proof.
  intros E. apply (v4_text_no_colon x). rewrite E. apply elem_of_app. right. cbn. left.
Qed.

Lemma mapped_u32 (b v4 : Z) : to_ipv4_mapped b = Some v4 -> is_u32 v4.
Proof.
  unfold to_ipv4_mapped. case_cond; [|done]. intros [= <-]. rewrite Webhook.land_low.
  apply Z.mod_pos_bound. lia.
Qed.

(** The budgets counted in Redis and those counted in SQL group clients the
    same way: two addresses share a bucket key exactly when they share a bucket
    network. *)
Theorem buckets_agree (a b : IpAddr) :
  ip_ok a -> ip_ok b ->
  ip_bucket a = ip_bucket b <-> ip_bucket_network a = ip_bucket_network b.
Proof.
  assert (forall x y : Z, v6_prefix x = v6_prefix y ->
    join [58] (map (fun i => hex_u16 (segment x i)) [0; 1; 2; 3]) ++ u"::/64" =
    join [58] (map (fun i => hex_u16 (segment y i)) [0; 1; 2; 3]) ++ u"::/64") as Hcong.
  { intros x y Hxy. apply v6_prefix_segments in Hxy as (E0 & E1 & E2 & E3).
    cbn [map]. congruence. }
  assert (forall (v : option Z) x, v = Some x -> v <> None) by congruence.
  destruct a as [a|a], b as [b|b]; cbn [ip_ok ip_bucket ip_bucket_network]; intros Ha Hb;
    try destruct (to_ipv4_mapped a) as [a'|] eqn:Ea; try destruct (to_ipv4_mapped b) as [b'|] eqn:Eb;
    repeat match goal with H : to_ipv4_mapped _ = Some _ |- _ => apply mapped_u32 in H end;
    (split; [intros E|intros [= E]]);
    try first [ by apply v4_text_inj in E as -> | by subst | by apply v4_v6_text in E
              | symmetry in E; by apply v4_v6_text in E
              | by apply v6_text_inj in E as -> | by apply Hcong ].
Qed.

Lemma buckets_agree_witness :
  ip_bucket (V6 (0x20010db8 * 2 ^ 96 + 1)) = ip_bucket (V6 (0x20010db8 * 2 ^ 96 + 2)).
Proof. apply buckets_agree; done. Defined.

End IpBucket.

(** * The sliding-window limiter *)

Module RateLimit.

(** ** The verdict *)

Inductive LimiterAnswer := Clear | Wait (ms : Z) | Unreachable.

Inductive RateLimitVerdict := Allow | Refuse (retry_after_secs : Z) | UnavailableVerdict.

(** [wait_ms.div_ceil(1000).max(1)] *)
Definition retry_after_secs (wait_ms : Z) : Z := Z.max ((wait_ms + 999) / 1000) 1.

Definition rate_limit_verdict (answer : LimiterAnswer) (fail_open : bool) : RateLimitVerdict :=
  match answer with
  | Clear => Allow
  | Wait ms => Refuse (retry_after_secs ms)
  | Unreachable => if fail_open then Allow else UnavailableVerdict
  end.

(** ** The script

    Lua computes with doubles; here the comparison and the division are exact,
    with both sides multiplied by the window. *)

Definition WINDOW_MS : Z := 60000.

(** The counts of the current and of the previous window, as seen in window
    [current]. *)
Definition window_counts (h : gmap str Z) (current : Z) : Z * Z :=
  let c := default 0 (h !! u"c") in
  let p := default 0 (h !! u"p") in
  match h !! u"w" with
  | None => (0, 0)
  | Some w =>
      if w <? current - 1 then (0, 0)
      else if w =? current - 1 then (0, c)
      else (c, p)
  end.

(** [p * (1 - into) + c + 1 > limit] *)
Definition over (c p limit now window : Z) : bool :=
  limit * window <? p * (window - now mod window) + (c + 1) * window.

Definition ceil_div (a b : Z) : Z := - ((- a) / b).

Definition wait_for (c p limit now window : Z) : Z :=
  let wait :=
    if (c + 1 <=? limit) && (0 <? p)
    then ceil_div (p * (window - now mod window) + (c + 1 - limit) * window) p
    else window - now mod window in
  Z.max wait 1.

(** One bucket: refused with a wait, or admitted with its counts. *)
Definition check_bucket (h : gmap str Z) (limit now window : Z) : Z + Z * Z :=
  let '(c, p) := window_counts h (now / window) in
  if over c p limit now window then inl (wait_for c p limit now window) else inr (c, p).

Record Bucket := { b_prefix : str; b_limit : Z }.

Section Script.
Context `{RedisServer}.

(** The first loop: the first bucket that refuses, or every bucket's counts. *)
Fixpoint check_all (s : rstore) (t : Z) (buckets : list (str * Z)) (now window : Z) :
    Z + list (Z * Z) :=
  match buckets with
  | [] => inr []
  | (key, limit) :: rest =>
      match check_bucket (hash_of (live t (dump s key))) limit now window with
      | inl wait => inl wait
      | inr cp =>
          match check_all s t rest now window with
          | inl wait => inl wait
          | inr state => inr (cp :: state)
          end
      end
  end.

(** The second loop: count the request in every bucket. *)
Fixpoint count_all (s : rstore) (t : Z) (buckets : list (str * Z)) (state : list (Z * Z))
    (now window : Z) : rstore :=
  match buckets, state with
  | (key, _) :: rest, (c, p) :: state' =>
      let s := r_hset s t key
                 (<[u"w" := now / window]> (<[u"c" := c + 1]> (<[u"p" := p]> ∅))) in
      let s := r_pexpire s t key (2 * window) in
      count_all s t rest state' now window
  | _, _ => s
  end.

Definition sliding_window (s : rstore) (t : Z) (buckets : list (str * Z)) (now window : Z) :
    rstore * Z :=
  match check_all s t buckets now window with
  | inl wait => (s, wait)
  | inr state => (count_all s t buckets state now window, 0)
  end.

(** [check]: the keys of the client, the script, its reply. *)
Definition check (s : rstore) (t : Z) (buckets : list Bucket) (client : str) (now_ms : Z) :
    rstore * option Z :=
  let keyed := map (fun b => (b_prefix b ++ u":" ++ client, b_limit b)) buckets in
  let '(s, wait_ms) := sliding_window s t keyed now_ms WINDOW_MS in
  (s, if 0 <? wait_ms then Some wait_ms else None).

Record RateLimitState := {
  rl_buckets : list Bucket;
  fail_open_on_redis_error : bool;
  allow_requests_without_ip : bool;
}.

Inductive Response :=
| RunNext
| TooManyRequests (retry_after : Z)
| ServiceUnavailableResponse (message : str).

(** [layer_with_state]; [reachable] tells whether the limiter could be asked. *)
Definition layer_with_state (state : RateLimitState) (reachable : bool) (s : rstore) (t : Z)
    (client_ip : option IpNetwork) (now_ms : Z) : rstore * Response :=
  match client_ip with
  | None =>
      (s, if allow_requests_without_ip state then RunNext
          else ServiceUnavailableResponse u"client IP unavailable")
  | Some ip =>
      let '(s, answer) :=
        if reachable then
          let '(s, r) := check s t (rl_buckets state) (IpBucket.ip_bucket (net_ip ip)) now_ms in
          (s, match r with None => Clear | Some ms => Wait ms end)
        else (s, Unreachable) in
      (s, match rate_limit_verdict answer (fail_open_on_redis_error state) with
          | Allow => RunNext
          | Refuse secs => TooManyRequests secs
          | UnavailableVerdict => ServiceUnavailableResponse u"rate limiter unavailable"
          end)
  end.
End Script.

(** ** Theorems *)

#[local] Ltac Zify.zify_post_hook ::= Z.to_euclidean_division_equations.

Lemma retry_after_covers (ms : Z) :
  1 <= retry_after_secs ms /\ ms <= 1000 * retry_after_secs ms /\
  (1 <= ms -> 1000 * (retry_after_secs ms - 1) < ms).
Proof. unfold retry_after_secs. lia. Qed.

Lemma ceil_div_spec (a b : Z) : 0 < b -> a <= b * ceil_div a b < a + b.
Proof. unfold ceil_div. intros Hb. pose proof (Z.div_mod (- a) b). pose proof (Z.mod_pos_bound (- a) b). lia. Qed.

Lemma over_false (c p limit now window : Z) :
  over c p limit now window = false <->
  p * (window - now mod window) + (c + 1) * window <= limit * window.
Proof. unfold over. by rewrite Z.ltb_ge. Qed.

(** A later instant: how far into its window, and which. *)
Lemma later_same (now d window : Z) : 0 < window -> 0 <= d -> d < window - now mod window ->
  (now + d) / window = now / window /\ (now + d) mod window = now mod window + d.
Proof.
  intros Hw Hd Hlt. pose proof (Z.mod_pos_bound now window Hw) as Hm.
  pose proof (Z.div_mod now window ltac:(lia)) as Hn.
  split; symmetry.
  - apply (Z.div_unique _ _ _ (now mod window + d)); [left; lia|]. lia.
  - apply (Z.mod_unique _ _ (now / window)); [left; lia|]. lia.
Qed.

Lemma later_next (now window : Z) : 0 < window ->
  (now + (window - now mod window)) / window = now / window + 1 /\
  (now + (window - now mod window)) mod window = 0.
Proof.
  intros Hw. pose proof (Z.div_mod now window ltac:(lia)) as Hn.
  replace (now + (window - now mod window)) with ((now / window + 1) * window) by nia.
  split; [apply Z.div_mul; lia|]. apply Z.mod_mul. lia.
Qed.

Definition counts_ok (h : gmap str Z) : Prop :=
  0 <= default 0 (h !! u"c") /\ 0 <= default 0 (h !! u"p").

Lemma window_counts_nonneg (h : gmap str Z) (current : Z) : counts_ok h ->
  0 <= (window_counts h current).1 /\ 0 <= (window_counts h current).2.
Proof.
  unfold counts_ok, window_counts. intros [Hc Hp]. destruct (h !! u"w"); cbn [fst snd]; [|lia].
  repeat case_cond; cbn [fst snd]; lia.
Qed.

(** The next window sees the counts of this one as the previous ones. *)
Lemma window_counts_next (h : gmap str Z) (current : Z) :
  (forall w, h !! u"w" = Some w -> w <= current) ->
  window_counts h (current + 1) =
  (0, (window_counts h current).1).
Proof.
  unfold window_counts. intros Hw. destruct (h !! u"w") as [w|]; [|done].
  specialize (Hw w eq_refl).
  destruct (w <? current + 1 - 1) eqn:E1, (w <? current - 1) eqn:E2; breflect; cbn [fst snd]; try lia.
  - done.
  - destruct (w =? current - 1) eqn:E3; breflect; [done|lia].
  - destruct (w =? current + 1 - 1) eqn:E3; breflect; [|lia].
    destruct (w =? current - 1) eqn:E4; breflect; [lia|done].
Qed.

(** The store a client finds later: the bucket as it was, or expired. *)
Definition same_or_expired (h h' : gmap str Z) : Prop := h' = h \/ h' = ∅.

Lemma empty_counts (current : Z) : window_counts ∅ current = (0, 0).
Proof. unfold window_counts. by rewrite lookup_empty. Qed.

Lemma decay_arith (p r c limit W k : Z) :
  0 < p -> c + 1 <= limit -> 0 < W -> limit * W < p * r + (c + 1) * W ->
  p * r + (c + 1 - limit) * W <= p * k < p * r + (c + 1 - limit) * W + p ->
  1 <= k <= r /\ p * (r - k) + (c + 1) * W <= limit * W.
Proof.
  intros Hp Hc HW Hover [H1 H2].
  assert ((c + 1 - limit) * W <= 0) by nia.
  assert (0 < k) by (apply (Z.mul_pos_cancel_l p); lia).
  assert (k < r + 1) by (apply (Z.mul_lt_mono_pos_l p); lia). lia.
Qed.

(** While only the weight of the previous window refuses a client, the wait
    it is told is enough: if it stays silent that long, it is let in. *)
Theorem decaying_wait (h h' : gmap str Z) (limit now window c p wait : Z) :
  0 < window -> 0 <= now -> counts_ok h -> same_or_expired h h' ->
  (forall w, h !! u"w" = Some w -> w <= now / window) ->
  window_counts h (now / window) = (c, p) -> c + 1 <= limit ->
  check_bucket h limit now window = inl wait ->
  exists cp, check_bucket h' limit (now + wait) window = inr cp.
Proof.
  intros Hw Hnow Hok Hh' Hle Ecp Hc. unfold check_bucket at 1. rewrite Ecp.
  destruct (over c p limit now window) eqn:Eo; [|done]. intros [= <-].
  pose proof (window_counts_nonneg h (now / window) Hok) as [Hc0 Hp0]. rewrite Ecp in Hc0, Hp0.
  cbn [fst snd] in *. pose proof (Z.mod_pos_bound now window Hw) as Hm.
  unfold over in Eo. apply Z.ltb_lt in Eo.
  assert (0 < p) as Hp.
  { destruct (Z.eq_dec p 0) as [->|]; [|lia]. assert ((c + 1) * window <= limit * window); [|lia].
    apply Z.mul_le_mono_nonneg_r; lia. }
  set (r := window - now mod window) in *. set (x := p * r + (c + 1 - limit) * window) in *.
  destruct (decay_arith p r c limit window (ceil_div x p)) as [[Hw1 Hw2] Hx];
    [done..|by apply ceil_div_spec|].
  unfold wait_for. fold r. fold x.
  replace ((c + 1 <=? limit) && (0 <? p)) with true by (symmetry; breflect; lia).
  rewrite Z.max_l by lia. unfold check_bucket.
  assert (forall n, over 0 0 limit n window = false) as Hzero.
  { intros n. apply over_false. rewrite Z.mul_0_l. apply Z.mul_le_mono_nonneg_r; lia. }
  destruct Hh' as [-> | ->]; [|rewrite empty_counts, Hzero; by eexists].
  destruct (Z.eq_dec (ceil_div x p) r) as [->|Hne].
  - destruct (later_next now window Hw) as [Hdiv Hmod]. fold r in Hdiv, Hmod.
    rewrite Hdiv, window_counts_next, Ecp by done. cbn [fst snd].
    replace (over 0 c limit _ window) with false; [by eexists|].
    symmetry. apply over_false. rewrite Hmod.
    replace (c * (window - 0) + (0 + 1) * window) with ((c + 1) * window) by ring.
    apply Z.mul_le_mono_nonneg_r; lia.
  - destruct (later_same now (ceil_div x p) window) as [-> Hmod]; [lia..|]. rewrite Ecp.
    replace (over c p limit _ window) with false; [by eexists|].
    symmetry. apply over_false. rewrite Hmod.
    by replace (window - (now mod window + ceil_div x p)) with (r - ceil_div x p) by lia.
Qed.

Definition example_hash : gmap str Z := <[u"w" := 1]> (<[u"c" := 2]> (<[u"p" := 10]> ∅)).

Lemma decaying_wait_witness :
  exists cp, check_bucket example_hash 10 (61000 + 17000) 60000 = inr cp.
Proof.
  apply (decaying_wait example_hash example_hash 10 61000 60000 2 10 17000).
  - reflexivity.
  - vm_compute. discriminate.
  - unfold counts_ok. vm_compute. repeat split; discriminate.
  - left. reflexivity.
  - intros w E. vm_compute in E. injection E as <-. vm_compute. discriminate.
  - vm_compute. reflexivity.
  - vm_compute. discriminate.
  - vm_compute. reflexivity.
Defined.

(** A client refused because its current window is full is told to wait
    until the window turns, and is refused again then: the full count of the
    past window still weighs in whole.  The time it is told is too short. *)
Theorem full_window_wait_too_short (h : gmap str Z) (limit now window p : Z) :
  0 < window -> 0 < limit -> 0 <= p ->
  h !! u"w" = Some (now / window) -> window_counts h (now / window) = (limit, p) ->
  exists wait again,
    check_bucket h limit now window = inl wait /\
    wait = window - now mod window /\
    check_bucket h limit (now + wait) window = inl again /\
    again = Z.max 1 (ceil_div window limit).
Proof.
  intros Hw Hl Hp Ew Ecp. pose proof (Z.mod_pos_bound now window Hw) as Hm.
  exists (window - now mod window), (Z.max 1 (ceil_div window limit)). split_and!; [|done| |done].
  - unfold check_bucket. rewrite Ecp.
    replace (over limit p limit now window) with true.
    + f_equal. unfold wait_for. replace (limit + 1 <=? limit) with false by (symmetry; breflect; lia).
      cbn [andb]. lia.
    + symmetry. unfold over. apply Z.ltb_lt.
      assert (0 <= p * (window - now mod window)) by (apply Z.mul_nonneg_nonneg; lia).
      rewrite Z.mul_add_distr_r. lia.
  - destruct (later_next now window Hw) as [Hdiv Hmod]. unfold check_bucket.
    rewrite Hdiv, window_counts_next, Ecp by (intros w Hw'; rewrite Ew in Hw'; simplify_eq; lia).
    cbn [fst snd]. replace (over 0 limit limit _ window) with true.
    + f_equal. unfold wait_for. rewrite Hmod.
      replace (0 + 1 <=? limit) with true by (symmetry; breflect; lia).
      replace (0 <? limit) with true by (symmetry; breflect; lia). cbn [andb].
      replace (limit * (window - 0) + (0 + 1 - limit) * window) with window by ring. lia.
    + symmetry. unfold over. rewrite Hmod. apply Z.ltb_lt. lia.
Qed.

(** Ten requests in a window of ten: told to wait 10 seconds, refused then for
    6 more. *)
Lemma full_window_wait_too_short_witness :
  exists wait again,
    check_bucket (<[u"w" := 1]> (<[u"c" := 10]> (<[u"p" := 0]> ∅))) 10 110000 60000 = inl wait /\
    wait = 10000 /\
    check_bucket (<[u"w" := 1]> (<[u"c" := 10]> (<[u"p" := 0]> ∅))) 10 (110000 + wait) 60000
      = inl again /\ again = 6000.
Proof.
  destruct (full_window_wait_too_short (<[u"w" := 1]> (<[u"c" := 10]> (<[u"p" := 0]> ∅)))
    10 110000 60000 0) as (wait & again & E1 & E2 & E3 & E4); [lia..|reflexivity|reflexivity|].
  exists wait, again. split; [exact E1|]. split; [rewrite E2; reflexivity|].
  split; [exact E3|]. rewrite E4. reflexivity.
Defined.

Section ScriptTheorems.
Context `{RedisServer}.

Lemma check_bucket_inr (h : gmap str Z) (limit now window c p : Z) :
  0 < window -> counts_ok h ->
  check_bucket h limit now window = inr (c, p) ->
  window_counts h (now / window) = (c, p) /\ 0 <= c /\ 0 <= p /\ c + 1 <= limit.
Proof.
  intros Hw Hok. unfold check_bucket. pose proof (window_counts_nonneg h (now / window) Hok) as [Hc Hp].
  destruct (window_counts h (now / window)) as [c' p']. case_cond; [done|].
  intros [= -> ->]. apply over_false in E. cbn [fst snd] in *. split_and!; [done..|].
  pose proof (Z.mod_pos_bound now window Hw) as Hm.
  assert (0 <= p * (window - now mod window)) by (apply Z.mul_nonneg_nonneg; lia).
  apply (Z.mul_le_mono_pos_r _ _ window); lia.
Qed.

Lemma check_all_length (s : rstore) (t : Z) bs now window st :
  check_all s t bs now window = inr st -> length st = length bs.
Proof.
  revert st. induction bs as [|[key limit] bs IH]; intros st; cbn; [by intros [= <-]|].
  destruct (check_bucket _ _ _ _); [done|]. destruct (check_all _ _ _ _ _); [done|].
  intros [= <-]. cbn. by rewrite IH.
Qed.

Lemma count_all_other (s : rstore) (t : Z) bs st now window k :
  k ∉ bs.*1 -> dump (count_all s t bs st now window) k = dump s k.
Proof.
  revert s st. induction bs as [|[key limit] bs IH]; intros s st Hk; [by destruct st|].
  cbn in Hk. apply not_elem_of_cons in Hk as [Hne Hk].
  destruct st as [|[c p] st]; [done|]. cbn [count_all]. rewrite IH by done.
  by autorewrite with redis.
Qed.

(** What an admitted request leaves in a bucket. *)
Definition counted (s s' : rstore) (t : Z) (now window : Z) (key : str) (limit : Z) : Prop :=
  let h := hash_of (live t (dump s key)) in
  let h' := hash_of (live t (dump s' key)) in
  let '(c, p) := window_counts h (now / window) in
  h' !! u"w" = Some (now / window) /\ h' !! u"c" = Some (c + 1) /\ h' !! u"p" = Some p /\
  c + 1 <= limit.

Lemma count_one (s : rstore) (t : Z) (key : str) (now window c p : Z) :
  0 < window ->
  let fs := <[u"w" := now / window]> (<[u"c" := c + 1]> (<[u"p" := p]> ∅)) in
  let h' := hash_of (live t (dump (r_pexpire (r_hset s t key fs) t key (2 * window)) key)) in
  h' !! u"w" = Some (now / window) /\ h' !! u"c" = Some (c + 1) /\ h' !! u"p" = Some p.
Proof.
  intros Hw fs. cbn zeta. rewrite dump_pexpire, upd_eq, dump_hset, upd_eq.
  assert (live t (Some (Entry (RHash (fs ∪ hash_of (live t (dump s key))))
                          (exp_of (live t (dump s key)))))
          = Some (Entry (RHash (fs ∪ hash_of (live t (dump s key))))
                          (exp_of (live t (dump s key))))) as ->.
  { destruct (live t (dump s key)) as [e|] eqn:El; [|done]. cbn. unfold live in El.
    destruct (dump s key) as [e'|]; [|done]. destruct (alive t e') eqn:Ea; [|done].
    injection El as ->. unfold alive in *. cbn. by rewrite Ea. }
  cbn [e_val]. unfold live, alive. cbn [e_exp].
  replace (t <? t + 2 * window * MS) with true by (symmetry; unfold MS; breflect; lia).
  cbn [hash_of]. unfold fs. split_and!; apply lookup_union_Some_l; by simplify_map_eq.
Qed.

Lemma count_all_counted (s0 s : rstore) (t : Z) bs st now window :
  0 < window -> NoDup bs.*1 ->
  (forall k, k ∈ bs.*1 -> dump s k = dump s0 k) ->
  (forall k, k ∈ bs.*1 -> counts_ok (hash_of (live t (dump s0 k)))) ->
  check_all s0 t bs now window = inr st ->
  forall key limit, (key, limit) ∈ bs ->
    counted s0 (count_all s t bs st now window) t now window key limit.
Proof.
  intros Hw. revert s st. induction bs as [|[k0 l0] bs IH]; intros s st HN Hs Hok Hc key limit Hin.
  { by apply elem_of_nil in Hin. }
  cbn in HN. apply NoDup_cons in HN as [Hk0 HN]. cbn in Hc.
  destruct (check_bucket _ l0 now window) as [|[c p]] eqn:Eb; [done|].
  destruct (check_all s0 t bs now window) as [|st'] eqn:Es; [done|]. injection Hc as <-.
  cbn [count_all]. apply elem_of_cons in Hin as [[= -> ->]|Hin].
  - apply check_bucket_inr in Eb as (Ecp & _ & _ & Hl); [|done|apply Hok; cbn; by left].
    unfold counted. rewrite Ecp, count_all_other by done.
    destruct (count_one s t k0 now window c p Hw) as (? & ? & ?). by split_and!.
  - apply IH; [done| |intros; apply Hok; cbn; by right|done|done].
    intros k Hk. assert (k <> k0) by (intros ->; done).
    autorewrite with redis. apply Hs. cbn. by right.
Qed.

Lemma check_all_wait (s : rstore) (t : Z) bs now window wait :
  check_all s t bs now window = inl wait -> 1 <= wait.
Proof.
  induction bs as [|[k l] bs IH]; cbn; [done|].
  destruct (check_bucket _ l now window) as [w|cp] eqn:E.
  - intros [= ->]. unfold check_bucket in E. destruct (window_counts _ _).
    case_cond; [|done]. injection E as <-. unfold wait_for. lia.
  - destruct (check_all s t bs now window); [|done]. auto.
Qed.

(** One script call counts a request in every bucket or in none.  A
    refusal, which always comes with a positive wait, changes nothing; an
    admission adds one to the current window of every bucket, none of which
    then exceeds its limit, and touches no other key. *)
Theorem sliding_window_all_or_nothing (s : rstore) (t : Z) bs now window :
  0 < window -> NoDup bs.*1 ->
  (forall k, k ∈ bs.*1 -> counts_ok (hash_of (live t (dump s k)))) ->
  let '(s', reply) := sliding_window s t bs now window in
  (0 < reply -> s' = s) /\
  (reply <= 0 ->
     (forall key limit, (key, limit) ∈ bs -> counted s s' t now window key limit) /\
     (forall k, k ∉ bs.*1 -> dump s' k = dump s k)).
Proof.
  intros Hw HN Hok. unfold sliding_window.
  destruct (check_all s t bs now window) as [wait|st] eqn:E.
  - apply check_all_wait in E. split; [done|lia].
  - split; [lia|]. intros _. split; [by apply count_all_counted|].
    intros k Hk. by apply count_all_other.
Qed.
End ScriptTheorems.

Lemma sliding_window_all_or_nothing_witness :
  let '(s', reply) := sliding_window (H := redis_gmap) ∅ 0 [(u"rl:a", 5); (u"auth:a", 2)] 90000 60000 in
  reply = 0 /\ counted (H := redis_gmap) ∅ s' 0 90000 60000 u"auth:a" 2.
Proof.
  pose proof (sliding_window_all_or_nothing (H := redis_gmap) ∅ 0
    [(u"rl:a", 5); (u"auth:a", 2)] 90000 60000) as P.
  destruct (sliding_window _ _ _ _ _) as [s' reply] eqn:E.
  assert (reply = 0) as -> by (vm_compute in E; congruence).
  destruct P as [_ P]; [lia| | |].
  - apply NoDup_cons. split; [set_solver|apply NoDup_singleton].
  - intros k _. split; reflexivity.
  - destruct P as [P _]; [lia|]. split; [reflexivity|]. apply P. right. left.
Defined.

End RateLimit.
