(* ===== verification/Crypto.v ===== *)
(** Cryptographic plumbing (src/src/utils/crypto.rs): ids of bearer tokens,
    unbiased random draws, keyed digests of one-time codes and the keyring that
    encrypts secrets at rest.  HMAC-SHA256, AES-256-GCM and base64 are classes;
    what is proved is what the code builds from them. *)
From S2P Require Import Prelude Crates Network Edge.
Import Edge.IpBucket.

(** * Interfaces *)

Class MacCrate := {
  hmac_sha256 : bytes -> bytes -> bytes;
  hmac_length : forall k m, length (hmac_sha256 k m) = 32%nat;
  hmac_bytes : forall k m, Forall is_byte (hmac_sha256 k m);
}.

#[export] Instance toy_mac : MacCrate :=
  {| hmac_sha256 k m := toy_sha256 (take 1 k ++ m);
     hmac_length k m := sha256_length (CryptoCrates := toy_crypto) _;
     hmac_bytes k m := sha256_bytes (CryptoCrates := toy_crypto) _ |}.

(** AES-256-GCM: what was sealed opens under the same key, nonce and associated
    data, and under no other associated data; the tag takes 16 bytes. *)
Class AeadCrate := {
  gcm_seal : bytes -> bytes -> bytes -> bytes -> option bytes;
  gcm_open : bytes -> bytes -> bytes -> bytes -> option bytes;
  gcm_open_seal : forall k n a m c, gcm_seal k n a m = Some c -> gcm_open k n a c = Some m;
  gcm_open_other : forall k n a a' m c,
    gcm_seal k n a m = Some c -> a' <> a -> gcm_open k n a' c = None;
  gcm_seal_length : forall k n a m c, gcm_seal k n a m = Some c -> (16 <= length c)%nat;
  (** Standard base64. *)
  b64_encode : bytes -> str;
  b64_decode : str -> option bytes;
  b64_decode_encode : forall b, b64_decode (b64_encode b) = Some b;
}.

Definition toy_tag (k n a : bytes) : bytes := replicate 15 0 ++ [Zpos (encode (k, n, a))].

#[export] Instance toy_aead : AeadCrate.
Proof.
  refine {|
    gcm_seal k n a m := Some (toy_tag k n a ++ m);
    gcm_open k n a c := if bool_decide (take 16 c = toy_tag k n a) then Some (drop 16 c) else None;
    b64_encode b := b;
    b64_decode s := Some s;
  |}.
  - intros k n a m c [= <-]. by rewrite bool_decide_true.
  - intros k n a a' m c [= <-] Hne. rewrite bool_decide_false; [done|].
    cbn. intros [= E]. apply (inj encode) in E. congruence.
  - intros k n a m c [= <-]. cbn. lia.
  - done.
Defined.

(** * Text of bytes *)

(** [format!("{b:02x}")] *)
Definition hex2 (b : Z) : str := [hex_digit (b / 16); hex_digit (b mod 16)].
Definition hex_text (b : bytes) : str := concat (map hex2 b).

(** [String::from_utf8]: shortest forms only, no surrogates, at most U+10FFFF. *)
Definition continuation (b : Z) : bool := (0x80 <=? b) && (b <? 0xc0).

Definition is_scalar (c : Z) : bool :=
  ((0 <=? c) && (c <? 0xd800)) || ((0xe000 <=? c) && (c <=? 0x10ffff)).

Fixpoint from_utf8 (b : bytes) : option str :=
  match b with
  | [] => Some []
  | b0 :: r0 =>
      if (0 <=? b0) && (b0 <? 0x80) then cons b0 <$> from_utf8 r0
      else match r0 with
      | [] => None
      | b1 :: r1 =>
          if (0xc2 <=? b0) && (b0 <? 0xe0) && continuation b1
          then cons ((b0 - 0xc0) * 64 + (b1 - 0x80)) <$> from_utf8 r1
          else match r1 with
          | [] => None
          | b2 :: r2 =>
              let c3 := ((b0 - 0xe0) * 64 + (b1 - 0x80)) * 64 + (b2 - 0x80) in
              if (0xe0 <=? b0) && (b0 <? 0xf0) && continuation b1 && continuation b2
                 && (0x800 <=? c3) && is_scalar c3
              then cons c3 <$> from_utf8 r2
              else match r2 with
              | [] => None
              | b3 :: r3 =>
                  let c4 := (((b0 - 0xf0) * 64 + (b1 - 0x80)) * 64 + (b2 - 0x80)) * 64
                            + (b3 - 0x80) in
                  if (0xf0 <=? b0) && (b0 <? 0xf8) && continuation b1 && continuation b2
                     && continuation b3 && (0x10000 <=? c4) && is_scalar c4
                  then cons c4 <$> from_utf8 r3
                  else None
              end
          end
      end
  end.

(** [(n as u64).to_be_bytes()] *)
Definition be_bytes (n : Z) : bytes :=
  map (fun i => (n / 256 ^ (7 - Z.of_nat i)) mod 256) (seq 0 8).

(** * Ids, comparisons, draws *)

Section Ids.
Context `{CryptoCrates}.

Definition token_id (token : str) : str := hex_text (sha256 (as_bytes token)).

End Ids.

(** [subtle] compares equal lengths byte by byte. *)
Definition constant_time_eq (a b : bytes) : bool :=
  bool_decide (length a = length b) && bool_decide (a = b).

Definition U32_MAX : Z := 2 ^ 32 - 1.

Definition zone (bound : Z) : Z := U32_MAX - U32_MAX mod bound.

(** The draws of the generator are a stream, of which [random_below] takes what
    it needs: the first below the zone. *)
Fixpoint random_below (bound : Z) (draws : list Z) : option (Z * list Z) :=
  match draws with
  | [] => None
  | draw :: rest => if draw <? zone bound then Some (draw mod bound, rest) else random_below bound rest
  end.

(** [format!("{:06}", n)] *)
Definition pad6 (n : Z) : str :=
  map (fun i => 48 + (n / 10 ^ (5 - Z.of_nat i)) mod 10) (seq 0 6).

Definition generate_otp (draws : list Z) : option (str * list Z) :=
  '(n, rest) ← random_below 1000000 draws;
  Some (pad6 n, rest).

(** [{:02X}] *)
Definition upper_digit (d : Z) : Z := if d <? 10 then 48 + d else 55 + d.
Definition hex2_upper (b : Z) : str := [upper_digit (b / 16); upper_digit (b mod 16)].

(** Ten bytes in five groups of four digits. *)
Fixpoint groups (b : bytes) : list str :=
  match b with
  | x :: y :: tl => (hex2_upper x ++ hex2_upper y) :: groups tl
  | _ => []
  end.

Definition recovery_code (b : bytes) : str := join [45] (groups b).

(** * The keyring *)

Inductive CryptoError := Encryption | Decryption | InvalidKey | InvalidInput | UnknownKey.

Record KeyEntry := { ke_kid : str; ke_key : bytes; ke_otp_key : bytes }.
Record Keyring := { kr_current : KeyEntry; kr_previous : option KeyEntry }.

Definition V2_PREFIX : str := u"v2:".
Definition V2_AAD_LABEL : bytes := u"auth-api v2:".
Definition KID_INFO : bytes := u"key id".
Definition OTP_KEY_SALT : bytes := u"auth-api keyring".
Definition OTP_KEY_INFO : bytes := u"auth-api otp v1".

Section Keyring.
Context `{MacCrate}.

Definition hkdf_sha256 (ikm salt info : bytes) : bytes :=
  let prk := hmac_sha256 salt ikm in
  hmac_sha256 prk (info ++ [1]).

Definition key_entry (key : bytes) : KeyEntry :=
  {| ke_kid := hex_text (take 8 (hkdf_sha256 key OTP_KEY_SALT KID_INFO));
     ke_key := key;
     ke_otp_key := hkdf_sha256 key OTP_KEY_SALT OTP_KEY_INFO |}.

(** What the digest of a code covers: its fields, each behind its length. *)
Definition otp_message (purpose : str) (subject : bytes) (code : str) : bytes :=
  concat (map (fun field => be_bytes (Z.of_nat (length field)) ++ field)
            [as_bytes purpose; subject; as_bytes code]).

Definition entry_otp_digest (self : KeyEntry) (purpose : str) (subject : bytes) (code : str) : bytes :=
  hmac_sha256 (ke_otp_key self) (otp_message purpose subject code).

Definition keyring_new (current : bytes) (previous : option bytes) : Keyring :=
  {| kr_current := key_entry current; kr_previous := key_entry <$> previous |}.

Definition entries (self : Keyring) : list KeyEntry :=
  kr_current self :: match kr_previous self with Some e => [e] | None => [] end.

Definition kids (self : Keyring) : list str := map ke_kid (entries self).

Definition otp_digest (self : Keyring) (purpose : str) (subject : bytes) (code : str) : bytes :=
  entry_otp_digest (kr_current self) purpose subject code.

Definition otp_digests (self : Keyring) (purpose : str) (subject : bytes) (code : str) : list bytes :=
  map (fun e => entry_otp_digest e purpose subject code) (entries self).

Definition key_for (self : Keyring) (kid : str) : option bytes :=
  ke_key <$> List.find (fun e => str_eqb (ke_kid e) kid) (entries self).

Definition v2_aad (context : bytes) : bytes := V2_AAD_LABEL ++ context.

Context `{AeadCrate}.

(** The nonce is twelve bytes of the generator. *)
Definition encrypt_with_aad (nonce : bytes) (plaintext : str) (key aad : bytes) :
    result str CryptoError :=
  match gcm_seal key nonce aad (as_bytes plaintext) with
  | Some ciphertext => Ok (b64_encode (nonce ++ ciphertext))
  | None => Err Encryption
  end.

Definition decrypt_with_aad (encoded : str) (key aad : bytes) : result str CryptoError :=
  match b64_decode encoded with
  | None => Err InvalidInput
  | Some combined =>
      if (length combined <? 28)%nat then Err InvalidInput
      else match gcm_open key (take 12 combined) aad (drop 12 combined) with
      | None => Err Decryption
      | Some plaintext =>
          match from_utf8 plaintext with Some s => Ok s | None => Err InvalidInput end
      end
  end.

Definition encrypt (self : Keyring) (nonce : bytes) (plaintext : str) (context : bytes) :
    result str CryptoError :=
  match encrypt_with_aad nonce plaintext (ke_key (kr_current self)) (v2_aad context) with
  | Ok body => Ok (V2_PREFIX ++ ke_kid (kr_current self) ++ [58] ++ body)
  | Err e => Err e
  end.

Definition decrypt (self : Keyring) (stored : str) (context : bytes) : result str CryptoError :=
  match strip_prefix V2_PREFIX stored with
  | None => Err InvalidInput
  | Some rest =>
      match split_once 58 rest with
      | None => Err InvalidInput
      | Some (kid, body) =>
          match key_for self kid with
          | None => Err UnknownKey
          | Some key => decrypt_with_aad body key (v2_aad context)
          end
      end
  end.

Definition needs_rotation (self : Keyring) (stored : str) : bool :=
  match strip_prefix V2_PREFIX stored ≫= split_once 58 with
  | None => true
  | Some (kid, _) => negb (str_eqb kid (ke_kid (kr_current self)))
  end.

Definition knows_key_of (self : Keyring) (stored : str) : bool :=
  match strip_prefix V2_PREFIX stored ≫= split_once 58 with
  | None => false
  | Some (kid, _) => bool_decide (is_Some (key_for self kid))
  end.

End Keyring.

(** * Theorems *)

#[local] Ltac Zify.zify_post_hook ::= Z.to_euclidean_division_equations.

(** ** Decoding what was encoded *)

Lemma shiftr_div (c k : Z) : 0 <= k -> Z.shiftr c k = c / 2 ^ k.
Proof. intros. by rewrite Z.shiftr_div_pow2. Qed.

Lemma land_63 (c : Z) : Z.land c 0x3f = c mod 64.
Proof. change 0x3f with (Z.ones 6). by rewrite Z.land_ones. Qed.

Ltac decide_tests :=
  repeat match goal with
  | |- context [?x <=? ?y] => first
      [ replace (x <=? y) with true by (symmetry; apply Z.leb_le; lia)
      | replace (x <=? y) with false by (symmetry; apply Z.leb_gt; lia) ]
  | |- context [?x <? ?y] => first
      [ replace (x <? y) with true by (symmetry; apply Z.ltb_lt; lia)
      | replace (x <? y) with false by (symmetry; apply Z.ltb_ge; lia) ]
  end; cbn [andb orb].

Lemma from_utf8_char (c : Z) (rest : bytes) :
  is_scalar c = true -> from_utf8 (utf8_char c ++ rest) = cons c <$> from_utf8 rest.
Proof.
  unfold is_scalar. intros Hc. breflect. unfold utf8_char.
  rewrite !land_63, !shiftr_div by lia. change (2 ^ 6) with 64. change (2 ^ 12) with 4096.
  change (2 ^ 18) with 262144. repeat case_cond; breflect; cbn [app from_utf8]; unfold continuation.
  - by decide_tests.
  - decide_tests. do 2 f_equal. lia.
  - decide_tests.
    replace (((0xe0 + c / 4096 - 0xe0) * 64 + (0x80 + c / 64 mod 64 - 0x80)) * 64
             + (0x80 + c mod 64 - 0x80)) with c by lia.
    unfold is_scalar. destruct Hc as [Hc|Hc]; by decide_tests.
  - decide_tests.
    replace ((((0xf0 + c / 262144 - 0xf0) * 64 + (0x80 + c / 4096 mod 64 - 0x80)) * 64
              + (0x80 + c / 64 mod 64 - 0x80)) * 64 + (0x80 + c mod 64 - 0x80)) with c by lia.
    unfold is_scalar. destruct Hc as [Hc|Hc]; by decide_tests.
Qed.

Lemma from_utf8_as_bytes (s : str) :
  Forall (fun c => is_scalar c = true) s -> from_utf8 (as_bytes s) = Some s.
Proof.
  unfold as_bytes. induction 1 as [|c s Hc _ IH]; [done|]. cbn [map concat].
  by rewrite from_utf8_char, IH.
Qed.

Lemma as_bytes_inj (a b : str) :
  Forall (fun c => is_scalar c = true) a -> Forall (fun c => is_scalar c = true) b ->
  as_bytes a = as_bytes b -> a = b.
Proof.
  intros Ha%from_utf8_as_bytes Hb%from_utf8_as_bytes E. rewrite E in Ha. congruence.
Qed.

(** ** What a digest covers *)

Lemma be_bytes_eq (n : Z) :
  be_bytes n = [(n / 256 ^ 7) mod 256; (n / 256 ^ 6) mod 256; (n / 256 ^ 5) mod 256;
                (n / 256 ^ 4) mod 256; (n / 256 ^ 3) mod 256; (n / 256 ^ 2) mod 256;
                (n / 256 ^ 1) mod 256; (n / 256 ^ 0) mod 256].
Proof. reflexivity. Qed.

Lemma be_bytes_inj (n m : Z) :
  0 <= n < 2 ^ 64 -> 0 <= m < 2 ^ 64 -> be_bytes n = be_bytes m -> n = m.
Proof.
  intros Hn Hm. rewrite !be_bytes_eq. intros [= E0 E1 E2 E3 E4 E5 E6 E7].
  assert (forall x, 0 <= x < 2 ^ 64 ->
    x = ((((((((x / 256 ^ 7) mod 256 * 256 + (x / 256 ^ 6) mod 256) * 256 + (x / 256 ^ 5) mod 256) * 256
         + (x / 256 ^ 4) mod 256) * 256 + (x / 256 ^ 3) mod 256) * 256 + (x / 256 ^ 2) mod 256) * 256
         + (x / 256 ^ 1) mod 256) * 256) + (x / 256 ^ 0) mod 256) as H.
  { intros x Hx. change (256 ^ 7) with 72057594037927936. change (256 ^ 6) with 281474976710656.
    change (256 ^ 5) with 1099511627776. change (256 ^ 4) with 4294967296.
    change (256 ^ 3) with 16777216. change (256 ^ 2) with 65536. change (256 ^ 1) with 256.
    change (256 ^ 0) with 1. lia. }
  rewrite (H n Hn), (H m Hm). by rewrite E0, E1, E2, E3, E4, E5, E6, E7.
Qed.

(** A field the platform can hold. *)
Definition field_ok (b : bytes) : Prop := Z.of_nat (length b) < 2 ^ 64.

Lemma framed_inj (fields fields' : list bytes) :
  length fields = length fields' -> Forall field_ok fields -> Forall field_ok fields' ->
  concat (map (fun f => be_bytes (Z.of_nat (length f)) ++ f) fields) =
  concat (map (fun f => be_bytes (Z.of_nat (length f)) ++ f) fields') ->
  fields = fields'.
Proof.
  revert fields'. induction fields as [|f fields IH]; intros [|f' fields'] Hl HF HF'; try done.
  cbn [map concat]. rewrite <- !app_assoc. inv HF. inv HF'. intros E.
  apply app_inj_1 in E as [Eb E]; [|done]. unfold field_ok in *.
  apply be_bytes_inj in Eb; [|lia..]. apply app_inj_1 in E as [-> E]; [|lia].
  f_equal. apply IH; [cbn in Hl; congruence|done..].
Qed.

(** Two one-time codes share the message their digest is computed from only
    if they share purpose, subject and code: no digest of one flow, account or
    challenge stands for another. *)
Theorem otp_message_injective (p p' : str) (subj subj' : bytes) (c c' : str) :
  Forall (fun x => is_scalar x = true) (p ++ p' ++ c ++ c') ->
  Forall field_ok [as_bytes p; subj; as_bytes c] -> Forall field_ok [as_bytes p'; subj'; as_bytes c'] ->
  otp_message p subj c = otp_message p' subj' c' -> p = p' /\ subj = subj' /\ c = c'.
Proof.
  rewrite !Forall_app. intros (Hp & Hp' & Hc & Hc') HF HF' E.
  apply framed_inj in E; [|done..]. injection E as Ep -> Ec.
  split_and!; [by apply as_bytes_inj|done|by apply as_bytes_inj].
Qed.

Lemma otp_message_injective_witness :
  otp_message u"email_2fa" [1] u"123456" <> otp_message u"email_2fa" [1; 49] u"23456".
Proof.
  intros E.
  destruct (otp_message_injective u"email_2fa" u"email_2fa" [1] [1; 49] u"123456" u"23456")
    as (_ & H & _); [..|discriminate H].
  - apply Forall_forall. intros x Hx. cbn in Hx. repeat (apply elem_of_cons in Hx as [->|Hx];
      [vm_compute; reflexivity|]). by apply elem_of_nil in Hx.
  - repeat constructor.
  - repeat constructor.
  - exact E.
Defined.

(** ** Encrypted at rest *)

Lemma hex2_chars (b c : Z) : is_byte b -> c ∈ hex2 b -> c <> 58.
Proof.
  unfold is_byte, hex2. intros Hb. rewrite !elem_of_cons, elem_of_nil.
  intros [->|[->|[]]]; apply hex_digit_range; lia.
Qed.

Lemma hex_text_no_colon (b : bytes) : Forall is_byte b -> 58 ∉ hex_text b.
Proof.
  intros Hb Hin. unfold hex_text in Hin. apply list_elem_of_In, in_concat in Hin as (t & Ht & Hin).
  apply in_map_iff in Ht as (x & <- & Hx). apply list_elem_of_In in Hx, Hin.
  rewrite Forall_forall in Hb. by apply (hex2_chars x 58 (Hb x Hx)).
Qed.

Lemma split_once_app (c : Z) (a b : str) : c ∉ a -> split_once c (a ++ c :: b) = Some (a, b).
Proof.
  induction a as [|x a IH]; intros Hc; cbn; [by rewrite Z.eqb_refl|].
  rewrite not_elem_of_cons in Hc. destruct (x =? c) eqn:E; [apply Z.eqb_eq in E; subst; tauto|].
  rewrite IH by tauto. done.
Qed.

Section KeyringTheorems.
Context `{MacCrate} `{AeadCrate}.

Lemma kid_no_colon (key : bytes) : 58 ∉ ke_kid (key_entry key).
Proof. apply hex_text_no_colon, Forall_take, hmac_bytes. Qed.

(** What a stored value reads as: its key's id and its body. *)
Lemma stored_parts (key : bytes) (body : str) :
  strip_prefix V2_PREFIX (V2_PREFIX ++ ke_kid (key_entry key) ++ [58] ++ body)
    ≫= split_once 58 = Some (ke_kid (key_entry key), body).
Proof.
  rewrite strip_prefix_app. apply split_once_app, kid_no_colon.
Qed.

Lemma decrypt_with_aad_seal (nonce : bytes) (plaintext : str) (key aad aad' : bytes) (body : str) :
  length nonce = 12%nat -> Forall (fun c => is_scalar c = true) plaintext ->
  encrypt_with_aad nonce plaintext key aad = Ok body ->
  decrypt_with_aad body key aad' = if decide (aad' = aad) then Ok plaintext else Err Decryption.
Proof.
  intros Hn Hp. unfold encrypt_with_aad, decrypt_with_aad.
  destruct (gcm_seal _ _ _ _) as [c|] eqn:Es; [|done]. intros [= <-].
  rewrite b64_decode_encode. pose proof (gcm_seal_length _ _ _ _ _ Es) as Hc.
  replace (length (nonce ++ c) <? 28)%nat with false
    by (symmetry; apply Nat.ltb_ge; rewrite length_app; lia).
  rewrite take_app_length', drop_app_length' by done. case_decide as Ea.
  - subst. rewrite (gcm_open_seal _ _ _ _ _ Es). by rewrite from_utf8_as_bytes.
  - by rewrite (gcm_open_other _ _ _ _ _ _ Es).
Qed.

(** A secret encrypted under a key is read back, for the row it was written
    for and for no other, by every keyring that holds the key, as current or as
    previous while a rotation runs; it asks for rotation exactly when its key is
    not the current one, and a keyring without the key says so. *)
Theorem keyring_round_trip (key : bytes) (kr : Keyring) (nonce : bytes) (plaintext : str)
    (context context' : bytes) (previous : option bytes) (stored : str) :
  length nonce = 12%nat -> Forall (fun c => is_scalar c = true) plaintext ->
  encrypt (keyring_new key previous) nonce plaintext context = Ok stored ->
  let kid := ke_kid (key_entry key) in
  (key_for kr kid = Some key ->
     decrypt kr stored context' =
       (if decide (context' = context) then Ok plaintext else Err Decryption) /\
     knows_key_of kr stored = true) /\
  (key_for kr kid = None -> decrypt kr stored context' = Err UnknownKey /\ knows_key_of kr stored = false) /\
  (needs_rotation kr stored = true <-> ke_kid (kr_current kr) <> kid).
Proof.
  intros Hn Hp. unfold encrypt. cbn [keyring_new kr_current].
  destruct (encrypt_with_aad _ _ _ _) as [body|] eqn:Eb; [|done]. intros Hst.
  assert (strip_prefix V2_PREFIX stored ≫= split_once 58 = Some (ke_kid (key_entry key), body)) as Hs
    by (injection Hst as <-; apply stored_parts).
  unfold needs_rotation, knows_key_of. rewrite Hs. clear Hst. apply bind_Some in Hs as (rest & Hr & Hs). split_and!.
  - intros Hk. rewrite Hk. split; [|done]. unfold decrypt. rewrite Hr, Hs, Hk.
    rewrite (decrypt_with_aad_seal nonce plaintext key _ (v2_aad context') _ Hn Hp Eb).
    unfold v2_aad. case_decide as E1; case_decide as E2; try done; [|congruence].
    by apply app_inv_head in E1.
  - intros Hk. rewrite Hk. split; [|done]. unfold decrypt. by rewrite Hr, Hs, Hk.
  - rewrite negb_true_iff, str_eqb_neq. split; congruence.
Qed.

End KeyringTheorems.

Lemma keyring_round_trip_witness :
  let old := keyring_new (1 :: replicate 31 0) None in
  let rotated := keyring_new (2 :: replicate 31 0) (Some (1 :: replicate 31 0)) in
  exists stored, encrypt old (replicate 12 0) u"secret" [7] = Ok stored /\
    decrypt rotated stored [7] = Ok u"secret" /\ decrypt rotated stored [8] = Err Decryption /\
    needs_rotation rotated stored = true.
Proof.
  intros old rotated. eexists. split; [reflexivity|].
  assert (key_for rotated (ke_kid (key_entry (1 :: replicate 31 0))) = Some (1 :: replicate 31 0)) as Hk
    by (vm_compute; reflexivity).
  assert (Forall (fun c => is_scalar c = true) u"secret") as Hp by (repeat constructor).
  pose proof (keyring_round_trip (1 :: replicate 31 0) rotated (replicate 12 0) u"secret" [7] [7] None _
    eq_refl Hp eq_refl) as (H1 & _ & H3).
  pose proof (keyring_round_trip (1 :: replicate 31 0) rotated (replicate 12 0) u"secret" [7] [8] None _
    eq_refl Hp eq_refl) as (H2 & _ & _).
  split; [exact (proj1 (H1 Hk))|]. split; [exact (proj1 (H2 Hk))|]. apply H3.
  vm_compute. discriminate.
Defined.

(** ** Draws *)

Lemma zone_multiple (bound : Z) : 0 < bound -> zone bound = bound * (U32_MAX / bound).
Proof. intros Hb. unfold zone. rewrite (Z.div_mod U32_MAX bound) at 1; lia. Qed.

(** The draws accepted for a value are one per multiple of the bound. *)
Lemma accepted_iff (bound r d : Z) : 0 < bound -> 0 <= r < bound ->
  (0 <= d < zone bound /\ d mod bound = r) <->
  exists q, 0 <= q < U32_MAX / bound /\ d = bound * q + r.
Proof.
  intros Hb Hr. rewrite zone_multiple by done. split.
  - intros [Hd <-]. exists (d / bound). rewrite <- Z.div_mod by lia. split; [|done].
    split; [apply Z.div_pos; lia|]. apply Z.div_lt_upper_bound; lia.
  - intros (q & Hq & ->). split; [nia|]. rewrite Z.add_comm, Z.mul_comm, Z.mod_add by lia.
    by apply Z.mod_small.
Qed.

Lemma random_below_spec (bound n : Z) (draws rest : list Z) :
  random_below bound draws = Some (n, rest) <->
  exists refused d, draws = refused ++ d :: rest /\ Forall (fun x => zone bound <= x) refused /\
    d < zone bound /\ n = d mod bound.
Proof.
  induction draws as [|d draws IH]; cbn.
  - split; [done|]. intros (refused & d & E & _). by destruct refused.
  - destruct (d <? zone bound) eqn:Ed; breflect.
    + split; [intros [= <- <-]; by exists [], d|].
      intros (refused & d' & E & HF & Hd' & ->). destruct refused as [|x refused].
      * by injection E as <- <-.
      * injection E as <- _. apply Forall_cons in HF as [HF _]. lia.
    + rewrite IH. split; intros (refused & d' & E & HF & Hd' & Hn).
      * exists (d :: refused), d'. subst. split_and!; [done|by constructor|done|done].
      * destruct refused as [|x refused]; injection E as <- ->; [lia|].
        apply Forall_cons in HF as [_ HF]. by exists refused, d'.
Qed.

(** A random index favours no value: every index below the bound is given by
    exactly the same number of the generator's draws, draws past the zone are
    refused, and some draw is always accepted. *)
Theorem random_below_uniform (bound : Z) :
  0 < bound <= U32_MAX ->
  (forall draws n rest, random_below bound draws = Some (n, rest) ->
     Forall (fun d => 0 <= d <= U32_MAX) draws -> 0 <= n < bound) /\
  (forall r, 0 <= r < bound ->
     exists accepted : list Z, NoDup accepted /\ length accepted = Z.to_nat (U32_MAX / bound) /\
       forall d, d ∈ accepted <-> (0 <= d < zone bound /\ d mod bound = r)) /\
  0 < zone bound.
Proof.
  intros Hb. split_and!.
  - intros draws n rest (refused & d & -> & _ & _ & ->)%random_below_spec HF.
    apply Z.mod_pos_bound. lia.
  - intros r Hr. exists (map (fun q => bound * Z.of_nat q + r) (seq 0 (Z.to_nat (U32_MAX / bound)))).
    split_and!.
    + apply (NoDup_fmap_2_strong (fun q => bound * Z.of_nat q + r)); [|apply NoDup_seq].
      intros x y _ _ E. nia.
    + by rewrite length_map, length_seq.
    + intros d. rewrite accepted_iff, list_elem_of_In, in_map_iff by lia. split.
      * intros (q & <- & Hq%in_seq). exists (Z.of_nat q). split; [lia|done].
      * intros (q & Hq & ->). exists (Z.to_nat q). rewrite Z2Nat.id by lia. split; [done|].
        apply in_seq. lia.
  - rewrite zone_multiple by lia. apply Z.mul_pos_pos; [lia|]. apply Z.div_str_pos. lia.
Qed.

Lemma random_below_uniform_witness : 0 < zone 1000000 /\ zone 1000000 = 4294000000.
Proof.
  split; [|vm_compute; reflexivity].
  apply (random_below_uniform 1000000). vm_compute. split; [reflexivity|discriminate].
Defined.
