(* ===== verification/Tables.v ===== *)
(** The database tables the modelled services use (src/migrations/), with the
    rows the repositories name (src/src/repositories/) and one function per
    table that changes it and nothing else.  A personal access token is stored
    beside its digest. *)
From S2P Require Import Prelude Crates Session Account OAuthDomain.
Import Account.User Account.LoginAttempt Account.Audit Account.TwoFactor Account.Token Account.Role OAuthDomain.Client OAuthDomain.Pat.

(** * Rows *)

(** A row of [email_2fa_codes] (repositories/email_2fa.rs). *)
Record Email2faCode := {
  ec_id : Uuid;
  ec_user_id : Uuid;
  ec_code_hash : bytes;
  ec_created_at : Z;
  ec_expires_at : Z;
  ec_used_at : option Z;
}.

(** A row of [users], with the column [domain::user::User] leaves out. *)
Record UserRow := { ur_user : User; ur_lockout_cleared_at : option Z }.

(** A row of [username_reservations]. *)
Record UsernameReservation := {
  un_username : str;
  un_expires_at : Z;
  un_reserved_for : Uuid;
}.

(** A row of [passkeys] (repositories/passkey.rs). *)
Record Passkey := {
  pk_id : Uuid;
  pk_user_id : Uuid;
  pk_credential_id : bytes;
  pk_public_key : bytes;
  pk_algorithm : Z;
  pk_sign_count : Z;
  pk_aaguid : Uuid;
  pk_name : str;
  pk_backup_eligible : bool;
  pk_backed_up : bool;
  pk_created_at : Z;
  pk_last_used_at : option Z;
}.

(** A row of [external_identities] (repositories/external_identity.rs). *)
Record ExternalIdentity := {
  xi_id : Uuid;
  xi_user_id : Uuid;
  xi_provider : str;
  xi_subject : str;
  xi_created_at : Z;
  xi_last_used_at : option Z;
}.

(** A row of [event_outbox]; its [seq] is its place in the table. *)
Record OutboxEvent := {
  ob_id : Uuid;
  ob_subject : str;
  ob_payload : json;
  ob_created_at : Z;
  ob_published_at : option Z;
  ob_attempts : Z;
  ob_next_attempt_at : Z;
  ob_last_error : option str;
}.

(** Rows of [webhook_endpoints] and [webhook_deliveries] (repositories/
    webhook.rs), the latter with its payload. *)
Record WebhookEndpoint := {
  we_id : Uuid;
  we_url : str;
  we_description : option str;
  we_events : list str;
  we_secret : str;
  we_enabled : bool;
  we_created_at : Z;
  we_updated_at : Z;
}.

Record WebhookDelivery := {
  wd_id : Uuid;
  wd_endpoint_id : Uuid;
  wd_event_id : Uuid;
  wd_event_name : str;
  wd_payload : json;
  wd_occurred_at : Z;
  wd_created_at : Z;
  wd_attempts : Z;
  wd_next_attempt_at : Z;
  wd_delivered_at : option Z;
  wd_failed_at : option Z;
  wd_last_status : option Z;
  wd_last_error : option str;
}.

(** A row of [authorization_codes] (repositories/authorization_code.rs), with
    the digest it is found by. *)
Record AuthorizationCode := {
  ac_id : Uuid;
  ac_code_hash : bytes;
  ac_user_id : Uuid;
  ac_client_id : str;
  ac_redirect_uri : str;
  ac_code_challenge : str;
  ac_scopes : option (list str);
  ac_expires_at : Z;
  ac_consumed_at : option Z;
  ac_session_id : option Uuid;
  ac_nonce : option str;
  ac_auth_time : Z;
}.

(** * The tables *)

(** Links sent by mail and the user names they keep aside (migrations/0008, 0014). *)
Record Links := {
  l_resets : list PasswordResetToken;
  l_magic_links : list MagicLinkToken;
  l_reservations : list UsernameReservation;
}.

(** Ways into an account besides its password (migrations/0015, 0017, 0018). *)
Record Access := {
  a_passkeys : list Passkey;
  a_identities : list ExternalIdentity;
  a_tokens : list (bytes * PersonalAccessToken);
}.

(** Events and their webhook deliveries (migrations/0011, 0016). *)
Record Events := {
  e_outbox : list OutboxEvent;
  e_endpoints : list WebhookEndpoint;
  e_deliveries : list WebhookDelivery;
}.

(** What clients were granted (migrations/0004, 0006). *)
Record Grants := {
  g_codes : list AuthorizationCode;
  g_quotas : list UserClientQuota;
}.

Record Db := {
  t_sessions : gmap Uuid Session;
  t_users : gmap Uuid UserRow;
  t_login_attempts : list LoginAttempt;
  t_audit_log : list AuditLog;
  t_clients : list RegisteredClient;
  t_methods : list TwoFactorMethod;
  t_user_roles : list UserRole;
  t_roles : gmap Uuid Role;
  t_role_permissions : list (Uuid * str);
  t_permissions : list str;
  t_known_devices : list (Uuid * bytes);
  t_email_codes : list Email2faCode;
  t_verifications : list EmailVerificationToken;
  t_recovery_codes : list RecoveryCode;
  t_used_totp : list (Uuid * bytes * Z);
  t_links : Links;
  t_access : Access;
  t_events : Events;
  t_grants : Grants;
}.

(** ** One table at a time *)

Definition set_sessions (f : gmap Uuid Session -> gmap Uuid Session) (d : Db) : Db :=
  {| t_sessions := f (t_sessions d); t_users := t_users d; t_login_attempts := t_login_attempts d;
     t_audit_log := t_audit_log d; t_clients := t_clients d; t_methods := t_methods d;
     t_user_roles := t_user_roles d; t_roles := t_roles d; t_role_permissions := t_role_permissions d;
     t_permissions := t_permissions d; t_known_devices := t_known_devices d;
     t_email_codes := t_email_codes d; t_verifications := t_verifications d;
     t_recovery_codes := t_recovery_codes d; t_used_totp := t_used_totp d; t_links := t_links d;
     t_access := t_access d; t_events := t_events d; t_grants := t_grants d |}.

Definition set_users (f : gmap Uuid UserRow -> gmap Uuid UserRow) (d : Db) : Db :=
  {| t_sessions := t_sessions d; t_users := f (t_users d); t_login_attempts := t_login_attempts d;
     t_audit_log := t_audit_log d; t_clients := t_clients d; t_methods := t_methods d;
     t_user_roles := t_user_roles d; t_roles := t_roles d; t_role_permissions := t_role_permissions d;
     t_permissions := t_permissions d; t_known_devices := t_known_devices d;
     t_email_codes := t_email_codes d; t_verifications := t_verifications d;
     t_recovery_codes := t_recovery_codes d; t_used_totp := t_used_totp d; t_links := t_links d;
     t_access := t_access d; t_events := t_events d; t_grants := t_grants d |}.

Definition set_login_attempts (f : list LoginAttempt -> list LoginAttempt) (d : Db) : Db :=
  {| t_sessions := t_sessions d; t_users := t_users d; t_login_attempts := f (t_login_attempts d);
     t_audit_log := t_audit_log d; t_clients := t_clients d; t_methods := t_methods d;
     t_user_roles := t_user_roles d; t_roles := t_roles d; t_role_permissions := t_role_permissions d;
     t_permissions := t_permissions d; t_known_devices := t_known_devices d;
     t_email_codes := t_email_codes d; t_verifications := t_verifications d;
     t_recovery_codes := t_recovery_codes d; t_used_totp := t_used_totp d; t_links := t_links d;
     t_access := t_access d; t_events := t_events d; t_grants := t_grants d |}.

Definition set_audit_log (f : list AuditLog -> list AuditLog) (d : Db) : Db :=
  {| t_sessions := t_sessions d; t_users := t_users d; t_login_attempts := t_login_attempts d;
     t_audit_log := f (t_audit_log d); t_clients := t_clients d; t_methods := t_methods d;
     t_user_roles := t_user_roles d; t_roles := t_roles d; t_role_permissions := t_role_permissions d;
     t_permissions := t_permissions d; t_known_devices := t_known_devices d;
     t_email_codes := t_email_codes d; t_verifications := t_verifications d;
     t_recovery_codes := t_recovery_codes d; t_used_totp := t_used_totp d; t_links := t_links d;
     t_access := t_access d; t_events := t_events d; t_grants := t_grants d |}.

Definition set_clients (f : list RegisteredClient -> list RegisteredClient) (d : Db) : Db :=
  {| t_sessions := t_sessions d; t_users := t_users d; t_login_attempts := t_login_attempts d;
     t_audit_log := t_audit_log d; t_clients := f (t_clients d); t_methods := t_methods d;
     t_user_roles := t_user_roles d; t_roles := t_roles d; t_role_permissions := t_role_permissions d;
     t_permissions := t_permissions d; t_known_devices := t_known_devices d;
     t_email_codes := t_email_codes d; t_verifications := t_verifications d;
     t_recovery_codes := t_recovery_codes d; t_used_totp := t_used_totp d; t_links := t_links d;
     t_access := t_access d; t_events := t_events d; t_grants := t_grants d |}.

Definition set_methods (f : list TwoFactorMethod -> list TwoFactorMethod) (d : Db) : Db :=
  {| t_sessions := t_sessions d; t_users := t_users d; t_login_attempts := t_login_attempts d;
     t_audit_log := t_audit_log d; t_clients := t_clients d; t_methods := f (t_methods d);
     t_user_roles := t_user_roles d; t_roles := t_roles d; t_role_permissions := t_role_permissions d;
     t_permissions := t_permissions d; t_known_devices := t_known_devices d;
     t_email_codes := t_email_codes d; t_verifications := t_verifications d;
     t_recovery_codes := t_recovery_codes d; t_used_totp := t_used_totp d; t_links := t_links d;
     t_access := t_access d; t_events := t_events d; t_grants := t_grants d |}.

Definition set_user_roles (f : list UserRole -> list UserRole) (d : Db) : Db :=
  {| t_sessions := t_sessions d; t_users := t_users d; t_login_attempts := t_login_attempts d;
     t_audit_log := t_audit_log d; t_clients := t_clients d; t_methods := t_methods d;
     t_user_roles := f (t_user_roles d); t_roles := t_roles d; t_role_permissions := t_role_permissions d;
     t_permissions := t_permissions d; t_known_devices := t_known_devices d;
     t_email_codes := t_email_codes d; t_verifications := t_verifications d;
     t_recovery_codes := t_recovery_codes d; t_used_totp := t_used_totp d; t_links := t_links d;
     t_access := t_access d; t_events := t_events d; t_grants := t_grants d |}.

Definition set_roles (f : gmap Uuid Role -> gmap Uuid Role) (d : Db) : Db :=
  {| t_sessions := t_sessions d; t_users := t_users d; t_login_attempts := t_login_attempts d;
     t_audit_log := t_audit_log d; t_clients := t_clients d; t_methods := t_methods d;
     t_user_roles := t_user_roles d; t_roles := f (t_roles d); t_role_permissions := t_role_permissions d;
     t_permissions := t_permissions d; t_known_devices := t_known_devices d;
     t_email_codes := t_email_codes d; t_verifications := t_verifications d;
     t_recovery_codes := t_recovery_codes d; t_used_totp := t_used_totp d; t_links := t_links d;
     t_access := t_access d; t_events := t_events d; t_grants := t_grants d |}.

Definition set_role_permissions (f : list (Uuid * str) -> list (Uuid * str)) (d : Db) : Db :=
  {| t_sessions := t_sessions d; t_users := t_users d; t_login_attempts := t_login_attempts d;
     t_audit_log := t_audit_log d; t_clients := t_clients d; t_methods := t_methods d;
     t_user_roles := t_user_roles d; t_roles := t_roles d; t_role_permissions := f (t_role_permissions d);
     t_permissions := t_permissions d; t_known_devices := t_known_devices d;
     t_email_codes := t_email_codes d; t_verifications := t_verifications d;
     t_recovery_codes := t_recovery_codes d; t_used_totp := t_used_totp d; t_links := t_links d;
     t_access := t_access d; t_events := t_events d; t_grants := t_grants d |}.

Definition set_known_devices (f : list (Uuid * bytes) -> list (Uuid * bytes)) (d : Db) : Db :=
  {| t_sessions := t_sessions d; t_users := t_users d; t_login_attempts := t_login_attempts d;
     t_audit_log := t_audit_log d; t_clients := t_clients d; t_methods := t_methods d;
     t_user_roles := t_user_roles d; t_roles := t_roles d; t_role_permissions := t_role_permissions d;
     t_permissions := t_permissions d; t_known_devices := f (t_known_devices d);
     t_email_codes := t_email_codes d; t_verifications := t_verifications d;
     t_recovery_codes := t_recovery_codes d; t_used_totp := t_used_totp d; t_links := t_links d;
     t_access := t_access d; t_events := t_events d; t_grants := t_grants d |}.

Definition set_email_codes (f : list Email2faCode -> list Email2faCode) (d : Db) : Db :=
  {| t_sessions := t_sessions d; t_users := t_users d; t_login_attempts := t_login_attempts d;
     t_audit_log := t_audit_log d; t_clients := t_clients d; t_methods := t_methods d;
     t_user_roles := t_user_roles d; t_roles := t_roles d; t_role_permissions := t_role_permissions d;
     t_permissions := t_permissions d; t_known_devices := t_known_devices d;
     t_email_codes := f (t_email_codes d); t_verifications := t_verifications d;
     t_recovery_codes := t_recovery_codes d; t_used_totp := t_used_totp d; t_links := t_links d;
     t_access := t_access d; t_events := t_events d; t_grants := t_grants d |}.

Definition set_verifications (f : list EmailVerificationToken -> list EmailVerificationToken) (d : Db) : Db :=
  {| t_sessions := t_sessions d; t_users := t_users d; t_login_attempts := t_login_attempts d;
     t_audit_log := t_audit_log d; t_clients := t_clients d; t_methods := t_methods d;
     t_user_roles := t_user_roles d; t_roles := t_roles d; t_role_permissions := t_role_permissions d;
     t_permissions := t_permissions d; t_known_devices := t_known_devices d;
     t_email_codes := t_email_codes d; t_verifications := f (t_verifications d);
     t_recovery_codes := t_recovery_codes d; t_used_totp := t_used_totp d; t_links := t_links d;
     t_access := t_access d; t_events := t_events d; t_grants := t_grants d |}.

Definition set_recovery_codes (f : list RecoveryCode -> list RecoveryCode) (d : Db) : Db :=
  {| t_sessions := t_sessions d; t_users := t_users d; t_login_attempts := t_login_attempts d;
     t_audit_log := t_audit_log d; t_clients := t_clients d; t_methods := t_methods d;
     t_user_roles := t_user_roles d; t_roles := t_roles d; t_role_permissions := t_role_permissions d;
     t_permissions := t_permissions d; t_known_devices := t_known_devices d;
     t_email_codes := t_email_codes d; t_verifications := t_verifications d;
     t_recovery_codes := f (t_recovery_codes d); t_used_totp := t_used_totp d; t_links := t_links d;
     t_access := t_access d; t_events := t_events d; t_grants := t_grants d |}.

Definition set_used_totp (f : list (Uuid * bytes * Z) -> list (Uuid * bytes * Z)) (d : Db) : Db :=
  {| t_sessions := t_sessions d; t_users := t_users d; t_login_attempts := t_login_attempts d;
     t_audit_log := t_audit_log d; t_clients := t_clients d; t_methods := t_methods d;
     t_user_roles := t_user_roles d; t_roles := t_roles d; t_role_permissions := t_role_permissions d;
     t_permissions := t_permissions d; t_known_devices := t_known_devices d;
     t_email_codes := t_email_codes d; t_verifications := t_verifications d;
     t_recovery_codes := t_recovery_codes d; t_used_totp := f (t_used_totp d); t_links := t_links d;
     t_access := t_access d; t_events := t_events d; t_grants := t_grants d |}.

Definition set_links (f : Links -> Links) (d : Db) : Db :=
  {| t_sessions := t_sessions d; t_users := t_users d; t_login_attempts := t_login_attempts d;
     t_audit_log := t_audit_log d; t_clients := t_clients d; t_methods := t_methods d;
     t_user_roles := t_user_roles d; t_roles := t_roles d; t_role_permissions := t_role_permissions d;
     t_permissions := t_permissions d; t_known_devices := t_known_devices d;
     t_email_codes := t_email_codes d; t_verifications := t_verifications d;
     t_recovery_codes := t_recovery_codes d; t_used_totp := t_used_totp d; t_links := f (t_links d);
     t_access := t_access d; t_events := t_events d; t_grants := t_grants d |}.

Definition set_access (f : Access -> Access) (d : Db) : Db :=
  {| t_sessions := t_sessions d; t_users := t_users d; t_login_attempts := t_login_attempts d;
     t_audit_log := t_audit_log d; t_clients := t_clients d; t_methods := t_methods d;
     t_user_roles := t_user_roles d; t_roles := t_roles d; t_role_permissions := t_role_permissions d;
     t_permissions := t_permissions d; t_known_devices := t_known_devices d;
     t_email_codes := t_email_codes d; t_verifications := t_verifications d;
     t_recovery_codes := t_recovery_codes d; t_used_totp := t_used_totp d; t_links := t_links d;
     t_access := f (t_access d); t_events := t_events d; t_grants := t_grants d |}.

Definition set_events (f : Events -> Events) (d : Db) : Db :=
  {| t_sessions := t_sessions d; t_users := t_users d; t_login_attempts := t_login_attempts d;
     t_audit_log := t_audit_log d; t_clients := t_clients d; t_methods := t_methods d;
     t_user_roles := t_user_roles d; t_roles := t_roles d; t_role_permissions := t_role_permissions d;
     t_permissions := t_permissions d; t_known_devices := t_known_devices d;
     t_email_codes := t_email_codes d; t_verifications := t_verifications d;
     t_recovery_codes := t_recovery_codes d; t_used_totp := t_used_totp d; t_links := t_links d;
     t_access := t_access d; t_events := f (t_events d); t_grants := t_grants d |}.

Definition set_grants (f : Grants -> Grants) (d : Db) : Db :=
  {| t_sessions := t_sessions d; t_users := t_users d; t_login_attempts := t_login_attempts d;
     t_audit_log := t_audit_log d; t_clients := t_clients d; t_methods := t_methods d;
     t_user_roles := t_user_roles d; t_roles := t_roles d; t_role_permissions := t_role_permissions d;
     t_permissions := t_permissions d; t_known_devices := t_known_devices d;
     t_email_codes := t_email_codes d; t_verifications := t_verifications d;
     t_recovery_codes := t_recovery_codes d; t_used_totp := t_used_totp d; t_links := t_links d;
     t_access := t_access d; t_events := t_events d; t_grants := f (t_grants d) |}.

Definition set_resets (f : list PasswordResetToken -> list PasswordResetToken) (d : Db) : Db :=
  set_links (fun _ => {| l_resets := f (l_resets (t_links d));
    l_magic_links := l_magic_links (t_links d);
    l_reservations := l_reservations (t_links d) |}) d.

Definition set_magic_links (f : list MagicLinkToken -> list MagicLinkToken) (d : Db) : Db :=
  set_links (fun _ => {| l_resets := l_resets (t_links d);
    l_magic_links := f (l_magic_links (t_links d));
    l_reservations := l_reservations (t_links d) |}) d.

Definition set_reservations (f : list UsernameReservation -> list UsernameReservation) (d : Db) : Db :=
  set_links (fun _ => {| l_resets := l_resets (t_links d);
    l_magic_links := l_magic_links (t_links d);
    l_reservations := f (l_reservations (t_links d)) |}) d.

Definition set_passkeys (f : list Passkey -> list Passkey) (d : Db) : Db :=
  set_access (fun _ => {| a_passkeys := f (a_passkeys (t_access d));
    a_identities := a_identities (t_access d);
    a_tokens := a_tokens (t_access d) |}) d.

Definition set_identities (f : list ExternalIdentity -> list ExternalIdentity) (d : Db) : Db :=
  set_access (fun _ => {| a_passkeys := a_passkeys (t_access d);
    a_identities := f (a_identities (t_access d));
    a_tokens := a_tokens (t_access d) |}) d.

Definition set_tokens (f : list (bytes * PersonalAccessToken) -> list (bytes * PersonalAccessToken)) (d : Db) : Db :=
  set_access (fun _ => {| a_passkeys := a_passkeys (t_access d);
    a_identities := a_identities (t_access d);
    a_tokens := f (a_tokens (t_access d)) |}) d.

Definition set_outbox (f : list OutboxEvent -> list OutboxEvent) (d : Db) : Db :=
  set_events (fun _ => {| e_outbox := f (e_outbox (t_events d));
    e_endpoints := e_endpoints (t_events d);
    e_deliveries := e_deliveries (t_events d) |}) d.

Definition set_endpoints (f : list WebhookEndpoint -> list WebhookEndpoint) (d : Db) : Db :=
  set_events (fun _ => {| e_outbox := e_outbox (t_events d);
    e_endpoints := f (e_endpoints (t_events d));
    e_deliveries := e_deliveries (t_events d) |}) d.

Definition set_deliveries (f : list WebhookDelivery -> list WebhookDelivery) (d : Db) : Db :=
  set_events (fun _ => {| e_outbox := e_outbox (t_events d);
    e_endpoints := e_endpoints (t_events d);
    e_deliveries := f (e_deliveries (t_events d)) |}) d.

Definition set_codes (f : list AuthorizationCode -> list AuthorizationCode) (d : Db) : Db :=
  set_grants (fun _ => {| g_codes := f (g_codes (t_grants d));
    g_quotas := g_quotas (t_grants d) |}) d.

Definition set_quotas (f : list UserClientQuota -> list UserClientQuota) (d : Db) : Db :=
  set_grants (fun _ => {| g_codes := g_codes (t_grants d);
    g_quotas := f (g_quotas (t_grants d)) |}) d.

(** ** Additions *)

Definition add_attempt (a : LoginAttempt) : Db -> Db := set_login_attempts (fun l => l ++ [a]).
Definition add_audit (a : AuditLog) : Db -> Db := set_audit_log (fun l => l ++ [a]).

(** [INSERT ... ON CONFLICT DO UPDATE] of a device: one row per device. *)
Definition add_device (k : Uuid * bytes) : Db -> Db :=
  set_known_devices (fun l => if bool_decide (k ∈ l) then l else l ++ [k]).

(** ** Footprints

    The tables by name, so that a property says which ones it is about. *)

Inductive table :=
| TSessions | TUsers | TLoginAttempts | TAuditLog | TClients | TMethods | TUserRoles | TRoles
| TRolePermissions | TPermissions | TKnownDevices | TEmailCodes | TVerifications | TRecoveryCodes
| TUsedTotp | TResets | TMagicLinks | TReservations | TPasskeys | TIdentities | TTokens | TOutbox
| TEndpoints | TDeliveries | TCodes | TQuotas.

#[export] Instance table_eq_dec : EqDecision table.
Proof. solve_decision. Defined.

Definition agree (t : table) (d d' : Db) : Prop :=
  match t with
  | TSessions => t_sessions d' = t_sessions d
  | TUsers => t_users d' = t_users d
  | TLoginAttempts => t_login_attempts d' = t_login_attempts d
  | TAuditLog => t_audit_log d' = t_audit_log d
  | TClients => t_clients d' = t_clients d
  | TMethods => t_methods d' = t_methods d
  | TUserRoles => t_user_roles d' = t_user_roles d
  | TRoles => t_roles d' = t_roles d
  | TRolePermissions => t_role_permissions d' = t_role_permissions d
  | TPermissions => t_permissions d' = t_permissions d
  | TKnownDevices => t_known_devices d' = t_known_devices d
  | TEmailCodes => t_email_codes d' = t_email_codes d
  | TVerifications => t_verifications d' = t_verifications d
  | TRecoveryCodes => t_recovery_codes d' = t_recovery_codes d
  | TUsedTotp => t_used_totp d' = t_used_totp d
  | TResets => l_resets (t_links d') = l_resets (t_links d)
  | TMagicLinks => l_magic_links (t_links d') = l_magic_links (t_links d)
  | TReservations => l_reservations (t_links d') = l_reservations (t_links d)
  | TPasskeys => a_passkeys (t_access d') = a_passkeys (t_access d)
  | TIdentities => a_identities (t_access d') = a_identities (t_access d)
  | TTokens => a_tokens (t_access d') = a_tokens (t_access d)
  | TOutbox => e_outbox (t_events d') = e_outbox (t_events d)
  | TEndpoints => e_endpoints (t_events d') = e_endpoints (t_events d)
  | TDeliveries => e_deliveries (t_events d') = e_deliveries (t_events d)
  | TCodes => g_codes (t_grants d') = g_codes (t_grants d)
  | TQuotas => g_quotas (t_grants d') = g_quotas (t_grants d)
  end.

Lemma agree_refl (t : table) (d : Db) : agree t d d.
Proof. by destruct t. Qed.

Lemma agree_trans (t : table) (d1 d2 d3 : Db) : agree t d1 d2 -> agree t d2 d3 -> agree t d1 d3.
Proof. destruct t; cbn; congruence. Qed.
