(* ===== verification/App.v ===== *)
(** The application the services run in: its errors (src/src/error.rs), its
    state (src/src/state.rs) with the database, Redis and the clocks, and the
    monad of fallible operations.

    An operation takes the world and returns the world it leaves with a result.
    Every exchange with PostgreSQL or Redis consults the environment's plan,
    which may lose the request or, after it took effect, its answer: a theorem
    about an operation holds for every pattern of outages. *)
From S2P Require Import Prelude Crates Session Account OAuthDomain Network Edge Crypto Tables.
Import Account.User Account.LoginAttempt Account.Audit Account.TwoFactor Account.Token OAuthDomain.Client.

(** * Errors *)

Inductive AppError :=
| Unauthorized
| InvalidCredentials
| TwoFactorFailedError
| TokenExpired
| TokenInvalid
| ReauthenticationFailed
| Forbidden
| EmailNotVerified
| AccountSuspendedError
| AccountInactive
| AccountLocked
| TwoFactorRequiredError
| ReauthenticationRequired
| FirstPartySessionRequired
| SecondFactorSessionRequired
| NotFound
| Conflict (code : str)
| Validation (message : str)
| CaptchaFailed
| PasswordCompromised
| DeviceAuthPending
| DeviceCodeExpired
| DeviceAccessDenied
| DeviceSlowDown
| DeviceSessionLimitReached
| DeviceClientNotAllowed
| DeviceClientUnknown
| InvalidAuthorizationCode
| RateLimitExceededError
| ServiceUnavailable (dependency : str)
| Internal.

#[export] Instance app_error_eq_dec : EqDecision AppError.
Proof. solve_decision. Defined.

(** What [sqlx] reports, as far as the code tells errors apart; what a Redis
    exchange reports. *)
Inductive SqlError := RowNotFound | UniqueViolation (constraint : str) | CheckViolation (constraint : str) | SqlFailed.
Inductive RedisError := RedisFailed.

(** * Configuration (src/src/config/mod.rs), the settings the services read *)

Record JwtConfig := {
  access_expiry_secs : Z;
  refresh_expiry_secs : Z;
  short_session_expiry_secs : Z;
  max_session_lifetime_secs : Z;
  strict_session_binding : bool;
  audience : list str;
}.

Definition session_ttl_secs (self : JwtConfig) (remember_me : bool) : Z :=
  if remember_me then refresh_expiry_secs self else short_session_expiry_secs self.

Record SecurityConfig := {
  lockout_threshold : Z;
  lockout_duration_secs : Z;
  sensitive_action_reauth_secs : Z;
  new_device_alerts : bool;
  magic_links : bool;
  registrations_per_ip_per_hour : Z;
  reset_revokes_factors_added_hours : Z;
}.

Record PwnedPasswordsConfig := { pwned_enabled : bool; pwned_fail_open : bool }.

Record DeviceAuthConfig := {
  device_ttl_secs : Z;
  poll_interval_secs : Z;
  verification_uri : str;
}.

Record WebauthnConfig := { rp_id : str; rp_name : str; rp_origins : list str }.

Record WebhooksConfig := { allow_http : bool; allow_private_networks : bool }.

Inductive IdentityProviderKind := Oidc | Github.

Record IdentityProviderConfig := {
  idp_name : str;
  idp_kind : IdentityProviderKind;
  idp_display_name : str;
  idp_client_id : str;
  idp_client_secret : str;
  idp_issuer : str;
  idp_scopes : list str;
  idp_authorization_url : str;
  idp_token_url : str;
  idp_user_url : str;
}.

Record Config := {
  cfg_jwt : JwtConfig;
  cfg_security : SecurityConfig;
  cfg_public_url : str;
  cfg_captcha_secret : option str;
  cfg_pwned : PwnedPasswordsConfig;
  cfg_totp_skew : Z;
  cfg_totp_issuer : str;
  cfg_recovery_code_expiry_days : Z;
  cfg_device_auth : DeviceAuthConfig;
  cfg_webauthn : WebauthnConfig;
  cfg_webhooks : WebhooksConfig;
  cfg_identity_providers : list IdentityProviderConfig;
  cfg_external_login_uri : str;
}.

(** * The environment

    The plan of outages, and the values drawn from the operating system's
    generator, by order of use. *)

Inductive IoOutcome :=
| Answered
| Lost
| Unacknowledged.

Class Env := {
  config : Config;
  io_plan : nat -> IoOutcome;
  draw_token : nat -> str;
  draw_uuid : nat -> Uuid;
  (** The bytes of a nonce or a recovery code, a new TOTP secret in base 32. *)
  draw_bytes : nat -> nat -> bytes;
  draw_secret : nat -> str;
  (** The index [random_below] gives a one-time code, the member [SPOP] takes. *)
  draw_otp : nat -> Z;
  draw_pick : nat -> nat;
  (** [gen_random_uuid()] of the database for the [n]-th row of the audit log. *)
  draw_entry : nat -> Uuid;
  (** What [Instant::elapsed] measures between two exchanges. *)
  stopwatch : nat -> nat -> Duration;
  keyring : Keyring;
}.

(** * The world and its operations *)

(** A way into an account, as mails list it ([email::AccessItem]). *)
Record AccessItem := { ai_kind : str; ai_name : str }.

Inductive MailKind :=
| NewDeviceLoginMail
| AccountLockedMail (minutes : Z)
| SecondFactorAttemptsMail
| VerificationMail (token : str)
| EmailCodeMail (code : str)
| RecoveryCodeUsedMail
| AccountExistsMail
| PasswordResetMail (token : str)
| MagicLinkMail (token : str) (minutes : Z)
| PasswordChangedMail (access removed : list AccessItem)
| AccessAddedMail (access : AccessItem)
| TwoFactorEnabledMail (method : str)
| TwoFactorDisabledMail (method : str)
| ChangedByAdministratorMail (change : str) (role : option str)
| EmailChangeOtpMail (code : str)
| EmailChangeNewOtpMail (code : str)
| EmailChangedMail (masked : str).

Record Mail := { m_kind : MailKind; m_to : str }.

(** Work left to the background. *)
Inductive Task := RehashPassword (user_id : Uuid) (current plaintext : str).

(** What leaves the process for a webhook endpoint (the request of services/
    webhooks.rs and the address it is sent to), what the event broker stores
    (services/events.rs), and a form for the token endpoint of an identity
    provider (services/external_identity.rs). *)
Record Post := {
  po_address : IpAddr * Z;
  po_url : str;
  po_id : str;
  po_timestamp : str;
  po_signature : str;
  po_body : bytes;
}.

Record Publication := { pb_subject : str; pb_message_id : str; pb_body : bytes }.

Inductive Sent :=
| Posted (p : Post)
| Published (m : Publication)
| Submitted (url : str) (form : list (str * str)).

Section World.
Context `{RedisServer}.

Record World := {
  w_db : Db;
  w_redis : rstore;
  (** The application's clock, and the clock of PostgreSQL and Redis. *)
  w_now : Z;
  w_wall : Z;
  w_io : nat;
  w_draws : nat;
  w_mails : list Mail;
  w_slept : Duration;
  w_tasks : list Task;
  w_sent : list Sent;
  (** [STREAM_READY] of services/events.rs. *)
  w_stream_ready : bool;
  (** [DISCOVERED] of services/external_identity.rs: what was fetched, and at
      which exchange, the latest first. *)
  w_documents : list (str * (nat * json));
}.

Definition with_db (f : Db -> Db) (w : World) : World :=
  {| w_db := f (w_db w); w_redis := w_redis w; w_now := w_now w; w_wall := w_wall w;
     w_io := w_io w; w_draws := w_draws w; w_mails := w_mails w; w_slept := w_slept w; w_tasks := w_tasks w;
     w_sent := w_sent w; w_stream_ready := w_stream_ready w; w_documents := w_documents w |}.
Definition with_redis (r : rstore) (w : World) : World :=
  {| w_db := w_db w; w_redis := r; w_now := w_now w; w_wall := w_wall w;
     w_io := w_io w; w_draws := w_draws w; w_mails := w_mails w; w_slept := w_slept w; w_tasks := w_tasks w;
     w_sent := w_sent w; w_stream_ready := w_stream_ready w; w_documents := w_documents w |}.
Definition bump_io (w : World) : World :=
  {| w_db := w_db w; w_redis := w_redis w; w_now := w_now w; w_wall := w_wall w;
     w_io := S (w_io w); w_draws := w_draws w; w_mails := w_mails w; w_slept := w_slept w; w_tasks := w_tasks w;
     w_sent := w_sent w; w_stream_ready := w_stream_ready w; w_documents := w_documents w |}.
Definition bump_draws (w : World) : World :=
  {| w_db := w_db w; w_redis := w_redis w; w_now := w_now w; w_wall := w_wall w;
     w_io := w_io w; w_draws := S (w_draws w); w_mails := w_mails w; w_slept := w_slept w; w_tasks := w_tasks w;
     w_sent := w_sent w; w_stream_ready := w_stream_ready w; w_documents := w_documents w |}.
Definition add_mail (m : Mail) (w : World) : World :=
  {| w_db := w_db w; w_redis := w_redis w; w_now := w_now w; w_wall := w_wall w;
     w_io := w_io w; w_draws := w_draws w; w_mails := w_mails w ++ [m]; w_slept := w_slept w; w_tasks := w_tasks w;
     w_sent := w_sent w; w_stream_ready := w_stream_ready w; w_documents := w_documents w |}.
Definition add_sleep (d : Duration) (w : World) : World :=
  {| w_db := w_db w; w_redis := w_redis w; w_now := w_now w; w_wall := w_wall w;
     w_io := w_io w; w_draws := w_draws w; w_mails := w_mails w; w_slept := w_slept w + d; w_tasks := w_tasks w;
     w_sent := w_sent w; w_stream_ready := w_stream_ready w; w_documents := w_documents w |}.
Definition add_task (t : Task) (w : World) : World :=
  {| w_db := w_db w; w_redis := w_redis w; w_now := w_now w; w_wall := w_wall w;
     w_io := w_io w; w_draws := w_draws w; w_mails := w_mails w; w_slept := w_slept w;
     w_tasks := w_tasks w ++ [t]; w_sent := w_sent w; w_stream_ready := w_stream_ready w; w_documents := w_documents w |}.
Definition add_sent (x : Sent) (w : World) : World :=
  {| w_db := w_db w; w_redis := w_redis w; w_now := w_now w; w_wall := w_wall w;
     w_io := w_io w; w_draws := w_draws w; w_mails := w_mails w; w_slept := w_slept w; w_tasks := w_tasks w;
     w_sent := w_sent w ++ [x]; w_stream_ready := w_stream_ready w; w_documents := w_documents w |}.
Definition set_stream_ready (w : World) : World :=
  {| w_db := w_db w; w_redis := w_redis w; w_now := w_now w; w_wall := w_wall w;
     w_io := w_io w; w_draws := w_draws w; w_mails := w_mails w; w_slept := w_slept w; w_tasks := w_tasks w;
     w_sent := w_sent w; w_stream_ready := true; w_documents := w_documents w |}.

Definition set_documents (l : list (str * (nat * json))) (w : World) : World :=
  {| w_db := w_db w; w_redis := w_redis w; w_now := w_now w; w_wall := w_wall w;
     w_io := w_io w; w_draws := w_draws w; w_mails := w_mails w; w_slept := w_slept w; w_tasks := w_tasks w;
     w_sent := w_sent w; w_stream_ready := w_stream_ready w; w_documents := l |}.

(** ** The monad: fallible operations on the world *)

Definition M (E A : Type) : Type := World -> World * result A E.

#[export] Instance M_ret E : MRet (M E) := fun A a w => (w, Ok a).

#[export] Instance M_bind E : MBind (M E) := fun A B k m w =>
  match m w with
  | (w', Ok a) => k a w'
  | (w', Err e) => (w', Err e)
  end.

Definition fail {E A} (e : E) : M E A := fun w => (w, Err e).

(** [r.map_err(f)] *)
Definition map_err {E E' A} (f : E -> E') (m : M E A) : M E' A := fun w =>
  match m w with
  | (w', Ok a) => (w', Ok a)
  | (w', Err e) => (w', Err (f e))
  end.

(** The result as a value: [match m.await { ... }]. *)
Definition attempt {E E' A} (m : M E A) : M E' (result A E) := fun w =>
  let '(w', r) := m w in (w', Ok r).

(** [o.ok_or(e)] *)
Definition ok_or {E A} (o : option A) (e : E) : M E A :=
  match o with Some a => mret a | None => fail e end.

Definition lift {E A} (r : result A E) : M E A := fun w => (w, r).

Definition asks {E A} (f : World -> A) : M E A := fun w => (w, Ok (f w)).
Definition clock_now {E} : M E Z := asks w_now.
Definition tell {E} (f : World -> World) : M E unit := fun w => (f w, Ok tt).

Context `{Env}.

(** One exchange: [step] is what the server does. *)
Definition io {E A} (e : E) (step : World -> World * result A E) : M E A := fun w =>
  let w1 := bump_io w in
  match io_plan (w_io w) with
  | Answered => step w1
  | Lost => (w1, Err e)
  | Unacknowledged => ((step w1).1, Err e)
  end.

(** An SQL statement that reads, and one that writes. *)
Definition query {A} (f : Db -> Z -> A) : M SqlError A :=
  io SqlFailed (fun w => (w, Ok (f (w_db w) (w_wall w)))).

Definition execute {A} (f : Db -> Z -> result (Db * A) SqlError) : M SqlError A :=
  io SqlFailed (fun w =>
    match f (w_db w) (w_wall w) with
    | Ok (d, a) => (with_db (fun _ => d) w, Ok a)
    | Err e => (w, Err e)
    end).

(** A transaction: begun, run, committed; an error in between rolls the
    tables back.  A commit whose answer is lost may have taken effect. *)
Definition transaction {A E} (e : E) (body : M E A) : M E A := fun w =>
  match io e (fun w => (w, Ok tt)) w with
  | (w1, Err e) => (w1, Err e)
  | (w1, Ok _) =>
      match body w1 with
      | (w2, Err e) => (with_db (fun _ => w_db w1) w2, Err e)
      | (w2, Ok a) =>
          match io_plan (w_io w2) with
          | Answered => (bump_io w2, Ok a)
          | Lost => (with_db (fun _ => w_db w1) (bump_io w2), Err e)
          | Unacknowledged => (bump_io w2, Err e)
          end
      end
  end.

(** One whose body may return before the commit, which rolls it back too. *)
Definition try_transaction {A E} (e : E) (body : M E (option A)) : M E (option A) := fun w =>
  match io e (fun w => (w, Ok tt)) w with
  | (w1, Err e) => (w1, Err e)
  | (w1, Ok _) =>
      match body w1 with
      | (w2, Err e) => (with_db (fun _ => w_db w1) w2, Err e)
      | (w2, Ok None) => (with_db (fun _ => w_db w1) w2, Ok None)
      | (w2, Ok (Some a)) =>
          match io_plan (w_io w2) with
          | Answered => (bump_io w2, Ok (Some a))
          | Lost => (with_db (fun _ => w_db w1) (bump_io w2), Err e)
          | Unacknowledged => (bump_io w2, Err e)
          end
      end
  end.

(** A Redis connection from the pool, and commands on it. *)
Definition redis_conn : M RedisError unit := io RedisFailed (fun w => (w, Ok tt)).

Definition redis_cmd {A} (f : rstore -> Z -> rstore * A) : M RedisError A :=
  io RedisFailed (fun w =>
    let '(s, a) := f (w_redis w) (w_wall w) in (with_redis s w, Ok a)).

(** Random values. *)
Definition generate_token {E} : M E str := fun w => (bump_draws w, Ok (draw_token (w_draws w))).
Definition generate_code {E} : M E str := fun w => (bump_draws w, Ok (pad6 (draw_otp (w_draws w)))).
Definition random_bytes {E} (len : nat) : M E bytes := fun w => (bump_draws w, Ok (draw_bytes len (w_draws w))).
Definition generate_secret {E} : M E str := fun w => (bump_draws w, Ok (draw_secret (w_draws w))).

(** [state.clock.in_secs(secs)] *)
Definition in_secs `{TimeCrate} {E} (secs : Z) : M E Z :=
  asks (fun w => saturating_add (w_now w) (seconds (i64_or_max secs))).

(** [tokio::time::sleep] *)
Definition sleep {E} (secs : Z) : M E unit := tell (add_sleep (seconds secs)).

(** An answer that takes at least [d] since the exchange [started]: the work,
    then the rest of the time. *)
Definition padded_since {E A} (started : nat) (d : Duration) (m : M E A) : M E A := fun w =>
  let '(w1, r) := m w in
  (add_sleep (Z.max 0 (d - stopwatch started (w_io w1))) w1, r).

Definition padded {E A} (d : Duration) (m : M E A) : M E A := fun w => padded_since (w_io w) d m w.

Definition new_v4 {E} : M E Uuid := fun w => (bump_draws w, Ok (draw_uuid (w_draws w))).
End World.

Arguments M {_} E A.

(** * Reasoning about operations *)

Create HintDb frame discriminated.

Section Reasoning.
Context `{RedisServer} `{Env}.

(** ** Runs, step by step *)

Lemma bind_run {E A B} (m : M E A) (k : A -> M E B) (w w' : World) (r : result B E) :
  (m ≫= k) w = (w', r) <->
  (exists a w1, m w = (w1, Ok a) /\ k a w1 = (w', r)) \/
  (exists e, m w = (w', Err e) /\ r = Err e).
Proof.
  unfold mbind, M_bind. destruct (m w) as [w1 [a|e]]; split.
  - intros ?. left. eauto.
  - by intros [(? & ? & [= <- <-] & ?)|(? & [=] & _)].
  - intros [= -> <-]. right. eauto.
  - by intros [(? & ? & [=] & _)|(? & [= -> ->] & ->)].
Qed.

Lemma bind_Ok {E A B} (m : M E A) (k : A -> M E B) (w w' : World) (b : B) :
  (m ≫= k) w = (w', Ok b) <-> exists a w1, m w = (w1, Ok a) /\ k a w1 = (w', Ok b).
Proof. rewrite bind_run. split; [intros [?|(? & _ & [=])]; done|auto]. Qed.

Lemma bind_step {E A B} (m : M E A) (k : A -> M E B) (w w1 : World) (a : A) :
  m w = (w1, Ok a) -> (m ≫= k) w = k a w1.
Proof. unfold mbind, M_bind. by intros ->. Qed.

Lemma bind_fail {E A B} (m : M E A) (k : A -> M E B) (w w1 : World) (e : E) :
  m w = (w1, Err e) -> (m ≫= k) w = (w1, Err e).
Proof. unfold mbind, M_bind. by intros ->. Qed.

Lemma map_err_Ok {E E' A} (f : E -> E') (m : M E A) (w w' : World) (a : A) :
  map_err f m w = (w', Ok a) <-> m w = (w', Ok a).
Proof. unfold map_err. destruct (m w) as [w1 [a'|e]]; naive_solver. Qed.

Lemma attempt_run {E E' A} (m : M E A) (w w' : World) (r : result (result A E) E') :
  attempt m w = (w', r) <-> exists r', m w = (w', r') /\ r = Ok r'.
Proof. unfold attempt. destruct (m w) as [w1 r1]. naive_solver. Qed.

Lemma attempt_step {E E' A} (m : M E A) (w w1 : World) (r : result A E) :
  m w = (w1, r) -> (attempt m : M E' _) w = (w1, Ok r).
Proof. unfold attempt. by intros ->. Qed.

Lemma padded_since_run {E A} (n : nat) (d : Duration) (m : M E A) (w w' : World) (r : result A E) :
  padded_since n d m w = (w', r) <-> exists w1, m w = (w1, r) /\
    w' = add_sleep (Z.max 0 (d - stopwatch n (w_io w1))) w1.
Proof. unfold padded_since. destruct (m w) as [w1 r1]. naive_solver. Qed.

Lemma padded_run {E A} (d : Duration) (m : M E A) (w w' : World) (r : result A E) :
  padded d m w = (w', r) <-> exists w1, m w = (w1, r) /\
    w' = add_sleep (Z.max 0 (d - stopwatch (w_io w) (w_io w1))) w1.
Proof. apply padded_since_run. Qed.

Lemma ok_or_Ok {E A} (o : option A) (e : E) (w w' : World) (a : A) :
  ok_or o e w = (w', Ok a) <-> o = Some a /\ w' = w.
Proof. unfold ok_or, mret, M_ret, fail. destruct o; naive_solver. Qed.

Lemma lift_Ok {E A} (r : result A E) (w w' : World) (a : A) :
  lift r w = (w', Ok a) <-> r = Ok a /\ w' = w.
Proof. unfold lift. naive_solver. Qed.

Lemma ret_Ok {E A} (x : A) (w w' : World) (a : A) :
  (mret x : M E A) w = (w', Ok a) <-> a = x /\ w' = w.
Proof. unfold mret, M_ret. naive_solver. Qed.

Lemma asks_Ok {E A} (f : World -> A) (w w' : World) (a : A) :
  (asks f : M E A) w = (w', Ok a) <-> a = f w /\ w' = w.
Proof. unfold asks. naive_solver. Qed.

Lemma fail_Ok {E A} (e : E) (w w' : World) (a : A) : (fail e : M E A) w = (w', Ok a) <-> False.
Proof. unfold fail. naive_solver. Qed.

(** ** What an operation leaves alone *)

(** The clocks stand still during an operation. *)
Definition same_clocks (w w' : World) : Prop := w_now w' = w_now w /\ w_wall w' = w_wall w.

(** The tables and the clocks. *)
Definition same_db (w w' : World) : Prop := w_db w' = w_db w /\ same_clocks w w'.

Lemma query_Ok {A} (f : Db -> Z -> A) (w w' : World) (a : A) :
  query f w = (w', Ok a) -> a = f (w_db w) (w_wall w) /\ same_db w w'.
Proof. unfold query, io. destruct (io_plan (w_io w)); [|done..]. by intros [= <- <-]. Qed.

Lemma execute_Ok {A} (f : Db -> Z -> result (Db * A) SqlError) (w w' : World) (a : A) :
  execute f w = (w', Ok a) -> f (w_db w) (w_wall w) = Ok (w_db w', a) /\ same_clocks w w'.
Proof.
  unfold execute, io. destruct (io_plan (w_io w)); [|done..]. cbn.
  destruct (f (w_db w) (w_wall w)) as [[d a']|e] eqn:E; [|done]. by intros [= <- <-].
Qed.

(** Whatever the answer, the statement was applied or it was not. *)
Lemma execute_run {A} (f : Db -> Z -> result (Db * A) SqlError) (w : World) :
  same_clocks w (execute f w).1 /\
  (w_db (execute f w).1 = w_db w \/
   exists a, f (w_db w) (w_wall w) = Ok (w_db (execute f w).1, a)).
Proof.
  unfold execute, io. destruct (io_plan (w_io w)); cbn; [|by split; [|left]|];
    destruct (f (w_db w) (w_wall w)) as [[d a']|e] eqn:E; cbn; (split; [done|]); eauto.
Qed.

(** A transaction commits its body's tables whole, or changes nothing. *)
Lemma transaction_run {A E} (e : E) (body : M E A) (w w' : World) (r : result A E) :
  transaction e body w = (w', r) ->
  ((exists e', r = Err e') /\ w_db w' = w_db w) \/
  (exists w2 a, body (bump_io w) = (w2, Ok a) /\ w_db w' = w_db w2 /\
     same_clocks w2 w' /\ (r = Ok a \/ r = Err e)).
Proof.
  unfold transaction, io. destruct (io_plan (w_io w)); try (intros [= <- <-]; by left; eauto).
  destruct (body (bump_io w)) as [w2 [a|e']] eqn:E1; [|intros [= <- <-]; left; by eauto].
  destruct (io_plan (w_io w2)); intros [= <- <-]; [right|left; by eauto|right];
    exists w2, a; (split_and!; [done..|]); auto.
Qed.

(** ** Frames: relations every step of an operation respects *)

Class CoreFrame (R : World -> World -> Prop) := {
  frame_refl : forall w, R w w;
  frame_trans : forall w1 w2 w3, R w1 w2 -> R w2 w3 -> R w1 w3;
  frame_io : forall w, R w (bump_io w);
  frame_draws : forall w, R w (bump_draws w);
  frame_mail : forall m w, R w (add_mail m w);
  frame_task : forall t w, R w (add_task t w);
}.

(** One that does not look at the delays, at Redis, at either. *)
Class SleepFrame (R : World -> World -> Prop) := frame_sleep : forall n w, R w (add_sleep n w).
Class RedisFrame (R : World -> World -> Prop) := frame_redis : forall s w, R w (with_redis s w).

Class Frame (R : World -> World -> Prop) := {
  frame_core :: CoreFrame R;
  frame_slept :: SleepFrame R;
  frame_stored :: RedisFrame R;
}.

(** One that outlives a rollback. *)
Class Rollback (R : World -> World -> Prop) :=
  rollback : forall w w', R w w' -> R w (with_db (fun _ => w_db w) w').

Definition keeps {E A} (R : World -> World -> Prop) (m : M E A) : Prop := forall w, R w (m w).1.

#[export] Instance same_db_frame : Frame same_db.
Proof. constructor; [constructor| |]; unfold SleepFrame, RedisFrame, same_db, same_clocks; try done; naive_solver congruence. Qed.

#[export] Instance same_clocks_frame : Frame same_clocks.
Proof. constructor; [constructor| |]; unfold SleepFrame, RedisFrame, same_clocks; try done; naive_solver congruence. Qed.

#[export] Instance same_clocks_rollback : Rollback same_clocks.
Proof. by intros w w'. Qed.

Section Keeps.
Context {R : World -> World -> Prop} `{!CoreFrame R}.

Lemma keeps_ret {E A} (a : A) : keeps R (mret a : M E A).
Proof. intros w. apply frame_refl. Qed.

Lemma keeps_fail {E A} (e : E) : keeps R (fail e : M E A).
Proof. intros w. apply frame_refl. Qed.

Lemma keeps_lift {E A} (r : result A E) : keeps R (lift r).
Proof. intros w. apply frame_refl. Qed.

Lemma keeps_asks {E A} (f : World -> A) : keeps R (asks f : M E A).
Proof. intros w. apply frame_refl. Qed.

Lemma keeps_ok_or {E A} (o : option A) (e : E) : keeps R (ok_or o e).
Proof. destruct o; intros w; apply frame_refl. Qed.

Lemma keeps_mail {E} (m : Mail) : keeps R (tell (add_mail m) : M E unit).
Proof. intros w. apply frame_mail. Qed.

Lemma keeps_task {E} (t : Task) : keeps R (tell (add_task t) : M E unit).
Proof. intros w. apply frame_task. Qed.

Lemma keeps_code {E} : keeps R (generate_code : M E str).
Proof. intros w. apply frame_draws. Qed.

Lemma keeps_in_secs `{TimeCrate} {E} (n : Z) : keeps R (in_secs n : M E Z).
Proof. intros w. apply frame_refl. Qed.

Lemma keeps_bind {E A B} (m : M E A) (k : A -> M E B) :
  keeps R m -> (forall a, keeps R (k a)) -> keeps R (m ≫= k).
Proof.
  intros Hm Hk w. unfold mbind, M_bind. specialize (Hm w).
  destruct (m w) as [w1 [a|e]]; [|done]. by apply (frame_trans w w1), Hk.
Qed.

Lemma keeps_map_err {E E' A} (f : E -> E') (m : M E A) : keeps R m -> keeps R (map_err f m).
Proof. intros Hm w. unfold map_err. specialize (Hm w). by destruct (m w) as [w1 [a|e]]. Qed.

Lemma keeps_attempt {E E' A} (m : M E A) : keeps R m -> keeps R (attempt m : M E' _).
Proof. intros Hm w. unfold attempt. specialize (Hm w). by destruct (m w). Qed.

Lemma keeps_io {E A} (e : E) (step : World -> World * result A E) :
  (forall w, R w (step w).1) -> keeps R (io e step).
Proof.
  intros Hs w. unfold io. destruct (io_plan (w_io w)); cbn; [|apply frame_io|];
    (eapply frame_trans; [apply frame_io|apply Hs]).
Qed.

Lemma keeps_query {A} (f : Db -> Z -> A) : keeps R (query f).
Proof. apply keeps_io. intros w. apply frame_refl. Qed.

Lemma keeps_redis_conn : keeps R redis_conn.
Proof. apply keeps_io. intros w. apply frame_refl. Qed.

Lemma keeps_token {E} : keeps R (generate_token : M E str).
Proof. intros w. apply frame_draws. Qed.

Lemma keeps_uuid {E} : keeps R (new_v4 : M E Uuid).
Proof. intros w. apply frame_draws. Qed.

Lemma keeps_random_bytes {E} (n : nat) : keeps R (random_bytes n : M E bytes).
Proof. intros w. apply frame_draws. Qed.

Lemma keeps_secret {E} : keeps R (generate_secret : M E str).
Proof. intros w. apply frame_draws. Qed.
End Keeps.

Lemma keeps_sleep {E} {R : World -> World -> Prop} `{!SleepFrame R} (n : Z) : keeps R (sleep n : M E unit).
Proof. intros w. apply frame_sleep. Qed.

Lemma keeps_padded_since {E A} {R : World -> World -> Prop} `{!CoreFrame R, !SleepFrame R} (n : nat)
    (d : Duration) (m : M E A) :
  keeps R m -> keeps R (padded_since n d m).
Proof.
  intros Hm w. unfold padded_since. specialize (Hm w). destruct (m w) as [w1 r].
  eapply frame_trans; [done|apply frame_sleep].
Qed.

Lemma keeps_padded {E A} {R : World -> World -> Prop} `{!CoreFrame R, !SleepFrame R} (d : Duration) (m : M E A) :
  keeps R m -> keeps R (padded d m).
Proof. intros Hm w. by apply keeps_padded_since. Qed.

Lemma keeps_redis_cmd {A} {R : World -> World -> Prop} `{!CoreFrame R, !RedisFrame R} (f : rstore -> Z -> rstore * A) :
  keeps R (redis_cmd f).
Proof. apply keeps_io. intros w. destruct (f (w_redis w) (w_wall w)). apply frame_redis. Qed.

Lemma keeps_execute {A} {R : World -> World -> Prop} `{!CoreFrame R}
    (f : Db -> Z -> result (Db * A) SqlError) :
  (forall w d a, f (w_db w) (w_wall w) = Ok (d, a) -> R w (with_db (fun _ => d) w)) ->
  keeps R (execute f).
Proof.
  intros Hf. apply keeps_io. intros w. destruct (f _ _) as [[d a]|e] eqn:E; [by eapply Hf|apply frame_refl].
Qed.

Lemma keeps_transaction {A E} {R : World -> World -> Prop} `{!CoreFrame R, !Rollback R}
    (e : E) (body : M E A) :
  keeps R body -> keeps R (transaction e body).
Proof.
  intros Hb w. unfold transaction, io. destruct (io_plan (w_io w)); [|apply frame_io..].
  specialize (Hb (bump_io w)).
  assert (forall w', R (bump_io w) w' -> R w w') as Hio by
    (intros w' HR; by eapply frame_trans; [apply frame_io|]).
  assert (forall w', R (bump_io w) w' -> R w (bump_io w')) as Hio' by
    (intros w' HR; eapply Hio, frame_trans; [done|apply frame_io]).
  destruct (body (bump_io w)) as [w2 [a|e']]; [|by apply Hio, (rollback (bump_io w))].
  destruct (io_plan (w_io w2)); cbn; [by apply Hio'| |by apply Hio'].
  apply Hio, (rollback (bump_io w)). by eapply frame_trans, frame_io.
Qed.

Lemma keeps_try_transaction {A E} {R : World -> World -> Prop} `{!CoreFrame R, !Rollback R}
    (e : E) (body : M E (option A)) :
  keeps R body -> keeps R (try_transaction e body).
Proof.
  intros Hb w. unfold try_transaction, io. destruct (io_plan (w_io w)); [|apply frame_io..].
  specialize (Hb (bump_io w)).
  assert (forall w', R (bump_io w) w' -> R w w') as Hio by
    (intros w' HR; by eapply frame_trans; [apply frame_io|]).
  assert (forall w', R (bump_io w) w' -> R w (bump_io w')) as Hio' by
    (intros w' HR; eapply Hio, frame_trans; [done|apply frame_io]).
  destruct (body (bump_io w)) as [w2 [[a|]|e']]; [|by apply Hio, (rollback (bump_io w))..].
  destruct (io_plan (w_io w2)); cbn; [by apply Hio'| |by apply Hio'].
  apply Hio, (rollback (bump_io w)). by eapply frame_trans, frame_io.
Qed.

Lemma keeps_clocks_execute {A} (f : Db -> Z -> result (Db * A) SqlError) : keeps same_clocks (execute f).
Proof. intros w. apply execute_run. Qed.

Lemma keeps_clocks_transaction {A E} (e : E) (body : M E A) :
  keeps same_clocks body -> keeps same_clocks (transaction e body).
Proof. apply keeps_transaction. Qed.

(** ** Footprints *)

(** A relation that looks at the tables [rs] only. *)
Class Reads (R : World -> World -> Prop) (rs : list table) :=
  reads : forall w d, (forall t, t ∈ rs -> agree t (w_db w) d) -> R w (with_db (fun _ => d) w).

Lemma keeps_reads {A} {R : World -> World -> Prop} (rs : list table) `{!CoreFrame R, !Reads R rs}
    (f : Db -> Z -> result (Db * A) SqlError) :
  (forall d t d' a, f d t = Ok (d', a) -> forall tb, tb ∈ rs -> agree tb d d') -> keeps R (execute f).
Proof. intros Hf. apply keeps_execute. intros w d a E. apply reads. by eapply Hf. Qed.

#[export] Instance same_clocks_reads : Reads same_clocks [].
Proof. by intros w d _. Qed.

(** Some tables, and the clocks, as they were. *)
Definition leaves (ts : list table) (w w' : World) : Prop :=
  (forall t, t ∈ ts -> agree t (w_db w) (w_db w')) /\ same_clocks w w'.

#[export] Instance leaves_frame (ts : list table) : Frame (leaves ts).
Proof.
  constructor; [constructor| |]; unfold SleepFrame, RedisFrame, leaves;
    try (intros; split; [intros; apply agree_refl|done]).
  intros w1 w2 w3 [A1 C1] [A2 C2]. split; [|by eapply frame_trans].
  intros t Ht. eapply agree_trans; eauto.
Qed.

#[export] Instance leaves_rollback (ts : list table) : Rollback (leaves ts).
Proof. intros w w' [_ C]. split; [intros; apply agree_refl|done]. Qed.

#[export] Instance leaves_reads (ts : list table) : Reads (leaves ts) ts.
Proof. by intros w d Ha. Qed.

(** ** Properties of the tables that operations preserve *)

Class Depends (P : Db -> Prop) (rs : list table) :=
  depends : forall d d', (forall t, t ∈ rs -> agree t d d') -> P d -> P d'.

Definition pres (P : Db -> Prop) (w w' : World) : Prop := P (w_db w) -> P (w_db w').

#[export] Instance pres_frame (P : Db -> Prop) : Frame (pres P).
Proof. constructor; [constructor| |]; unfold SleepFrame, RedisFrame, pres; try done; naive_solver. Qed.

#[export] Instance pres_rollback (P : Db -> Prop) : Rollback (pres P).
Proof. by intros w w' _ ?. Qed.

#[export] Instance pres_reads (P : Db -> Prop) (rs : list table) : Depends P rs -> Reads (pres P) rs.
Proof. intros Hd w d Ha. unfold pres. cbn. by apply Hd. Qed.

Lemma keeps_pres_execute {A} (P : Db -> Prop) (f : Db -> Z -> result (Db * A) SqlError) :
  (forall d t d' a, f d t = Ok (d', a) -> P d -> P d') -> keeps (pres P) (execute f).
Proof. intros Hf. apply keeps_execute. intros w d a E ?. by eapply Hf. Qed.

(** A successful sequence whose first operation establishes a property, or
    whose rest does. *)
Lemma bind_establishes {E A B} (P : Db -> Prop) (m : M E A) (k : A -> M E B) (w w' : World) (b : B) :
  (forall w1 a, m w = (w1, Ok a) -> P (w_db w1)) -> (forall a, keeps (pres P) (k a)) ->
  (m ≫= k) w = (w', Ok b) -> P (w_db w').
Proof.
  intros Hm Hk R. apply bind_Ok in R as (a & w1 & R1 & R2). specialize (Hk a w1). rewrite R2 in Hk.
  by apply Hk, (Hm w1 a).
Qed.

Lemma bind_later {E A B} (P : Db -> Prop) (m : M E A) (k : A -> M E B) (w w' : World) (b : B) :
  (forall a w1, k a w1 = (w', Ok b) -> P (w_db w')) -> (m ≫= k) w = (w', Ok b) -> P (w_db w').
Proof. intros Hk R. apply bind_Ok in R as (a & w1 & R1 & R2). eauto. Qed.

(** One bind of a run, whatever follows. *)
Lemma at_bind {E A B} (R : World -> World -> Prop) `{!CoreFrame R} (m : M E A) (k : A -> M E B) (w : World) :
  R w (m w).1 -> (forall a w1, m w = (w1, Ok a) -> R w1 (k a w1).1) -> R w ((m ≫= k) w).1.
Proof.
  intros Hm Hk. unfold mbind, M_bind. destruct (m w) as [w1 [a|e]]; [|done].
  by apply (frame_trans w w1), Hk.
Qed.

(** A run from its answer. *)
Lemma run_answer {E A} (m : M E A) (w : World) (r : result A E) : (m w).2 = r -> m w = ((m w).1, r).
Proof. intros <-. by destruct (m w). Qed.

(** ** Runs without outages *)

Definition all_answered : Prop := forall n, io_plan n = Answered.

Lemma query_answered {A} (f : Db -> Z -> A) (w : World) :
  all_answered -> query f w = (bump_io w, Ok (f (w_db w) (w_wall w))).
Proof. intros Ha. unfold query, io. by rewrite Ha. Qed.

Lemma execute_answered {A} (f : Db -> Z -> result (Db * A) SqlError) (w : World) :
  all_answered ->
  execute f w = match f (w_db w) (w_wall w) with
                | Ok (d, a) => (with_db (fun _ => d) (bump_io w), Ok a)
                | Err e => (bump_io w, Err e)
                end.
Proof. intros Ha. unfold execute, io. by rewrite Ha. Qed.

Lemma execute_done {A} (f : Db -> Z -> result (Db * A) SqlError) (w : World) (d : Db) (a : A) :
  all_answered -> f (w_db w) (w_wall w) = Ok (d, a) ->
  execute f w = (with_db (fun _ => d) (bump_io w), Ok a).
Proof. intros Ha Hf. by rewrite execute_answered, Hf. Qed.

Lemma redis_conn_answered (w : World) : all_answered -> redis_conn w = (bump_io w, Ok tt).
Proof. intros Ha. unfold redis_conn, io. by rewrite Ha. Qed.

Lemma redis_cmd_answered {A} (f : rstore -> Z -> rstore * A) (w : World) :
  all_answered ->
  redis_cmd f w = (with_redis (f (w_redis w) (w_wall w)).1 (bump_io w),
                   Ok (f (w_redis w) (w_wall w)).2).
Proof. intros Ha. unfold redis_cmd, io. rewrite Ha. cbn. by destruct (f _ _). Qed.

Lemma keeps_run {E A} (R : World -> World -> Prop) (m : M E A) (w w' : World) (r : result A E) :
  keeps R m -> m w = (w', r) -> R w w'.
Proof. intros Hm Hr. specialize (Hm w). by rewrite Hr in Hm. Qed.

Lemma same_db_run {E A} (m : M E A) (w w' : World) r : keeps same_db m -> m w = (w', r) -> w_db w' = w_db w.
Proof. intros Hm R. by apply (keeps_run _ _ _ _ _ Hm R). Qed.

Lemma pres_run {A E} (P : Db -> Prop) (m : M E A) (w w' : World) (r : result A E) :
  keeps (pres P) m -> P (w_db w) -> m w = (w', r) -> P (w_db w').
Proof. intros Hm HP R. by apply (keeps_run _ _ _ _ _ Hm R). Qed.
End Reasoning.

#[export] Hint Resolve keeps_ret keeps_fail keeps_lift keeps_asks keeps_ok_or keeps_mail keeps_sleep
  keeps_task keeps_code keeps_in_secs
  keeps_query keeps_redis_conn keeps_redis_cmd keeps_token keeps_uuid keeps_random_bytes keeps_secret keeps_clocks_execute : frame.

#[export] Hint Extern 1 (Frame _) => apply _ : frame.
#[export] Hint Extern 1 (CoreFrame _) => apply _ : frame.
#[export] Hint Extern 1 (SleepFrame _) => apply _ : frame.
#[export] Hint Extern 1 (RedisFrame _) => apply _ : frame.

(** Decompose an operation down to its exchanges. *)
Ltac frame_step :=
  lazymatch goal with
  | |- keeps _ (_ ≫= _) => apply keeps_bind; [|intros ?]
  | |- keeps _ (map_err _ _) => apply keeps_map_err
  | |- keeps _ (attempt _) => apply keeps_attempt
  | |- keeps _ (padded _ _) => apply keeps_padded
  | |- keeps _ (padded_since _ _ _) => apply keeps_padded_since
  | |- keeps _ (if ?c then _ else _) => destruct c
  | |- keeps _ (match ?x with _ => _ end) => destruct x
  end.

(** A transaction may keep what its statements taken alone do not. *)
Ltac frame_commit :=
  lazymatch goal with
  | |- keeps _ (transaction _ _) => apply keeps_transaction
  | |- keeps _ (try_transaction _ _) => apply keeps_try_transaction
  end.

Ltac frame_auto := repeat first [frame_step | solve [auto with frame] | frame_commit].

(** Read a successful run backwards: one bind, then what its first operation
    did. *)
Ltac unbind H x w1 R := apply bind_Ok in H as (x & w1 & R & H).

Ltac read_run R :=
  repeat lazymatch type of R with
  | map_err _ _ _ = (_, Ok _) => apply map_err_Ok in R
  end;
  lazymatch type of R with
  | ok_or _ _ _ = (_, Ok _) => apply ok_or_Ok in R as [R ->]
  | lift _ _ = (_, Ok _) => apply lift_Ok in R as [R ->]
  | mret _ _ = (_, Ok _) => first [apply ret_Ok in R as [-> ->] | apply ret_Ok in R as [R ->]]
  | asks _ _ = (_, Ok _) => apply asks_Ok in R as [-> ->]
  | fail _ _ = (_, Ok _) => by apply fail_Ok in R
  | query _ _ = (_, Ok _) => apply query_Ok in R as [-> R]
  | execute _ _ = (_, Ok _) => apply execute_Ok in R
  end.

Ltac head_of t := lazymatch t with ?f _ => head_of f | _ => t end.

(** What a statement that was not refused did. *)
Ltac open_statement E :=
  cbn in E; repeat case_match; simplify_eq;
  repeat match goal with
  | H : ?lhs = Ok _ |- _ => let h := head_of lhs in unfold h in H; cbn in H; repeat case_match; simplify_eq
  end.

(** A statement that leaves alone the tables a relation looks at. *)
Ltac other_tables :=
  let E := fresh "E" in let tb := fresh "tb" in let Htb := fresh "Htb" in
  eapply keeps_reads; [apply _..|]; intros ? ? ? ? E tb Htb; open_statement E;
  repeat (apply elem_of_cons in Htb as [->|Htb]; [reflexivity|]); by apply not_elem_of_nil in Htb.

(** Decompose an operation through its definitions, down to the statements,
    which must leave the relation's tables alone. *)
Ltac tables_auto :=
  repeat first
    [ frame_step
    | solve [auto with frame]
    | frame_commit
    | lazymatch goal with
      | |- keeps _ (execute _) => solve [other_tables]
      | |- keeps _ (query _) => apply keeps_query
      | |- keeps _ ?m => let h := head_of m in unfold h
      end ].

(** A property of the tables, one exchange earlier. *)
Ltac earlier P := refine (pres_run P _ _ _ _ _ _ _); [| |eassumption]; [tables_auto|].
