(* ===== verification/Outside.v ===== *)
(** The checks that ask a service outside: breached passwords (src/src/domain/
    pwned.rs, src/src/services/pwned.rs) and CAPTCHAs (src/src/domain/captcha.rs,
    src/src/services/captcha.rs).  What the other side answers is part of the
    environment. *)
From S2P Require Import Prelude Crates Session Account OAuthDomain Network Edge Crypto Tables App.

(** * Text *)

(** [s.lines()]: the parts between line feeds, without a carriage return at
    their end nor an empty last part. *)
Definition strip_cr (s : str) : str := if ends_with [13] s then removelast s else s.

Definition lines (s : str) : list str :=
  let parts := split_on 10 s in
  map strip_cr (if bool_decide (last parts = Some []) then removelast parts else parts).

(** [s.parse::<u64>()] *)
Definition parse_u64 (s : str) : option Z :=
  let digits := match s with 43 :: rest => rest | _ => s end in
  if bool_decide (digits = []) || negb (bytes_all is_ascii_digit digits) then None
  else
    let n := foldl (fun acc c => 10 * acc + (c - 48)) 0 digits in
    if n <=? U64_MAX then Some n else None.

(** * Breached passwords *)

Module Pwned.

Class Sha1Crate := { sha1 : bytes -> bytes; sha1_length : forall b, length (sha1 b) = 20%nat }.

#[export] Instance toy_sha1 : Sha1Crate.
Proof.
  refine {| sha1 b := map (fun i => (foldr (fun x acc => (x + 7 * acc + Z.of_nat i) mod 256) 3 b)) (seq 0 20) |}.
  intros b. by rewrite length_map, length_seq.
Defined.

Definition hex_upper (b : bytes) : str := concat (map hex2_upper b).

Definition range_key `{Sha1Crate} (password : str) : str * str :=
  let hex := hex_upper (sha1 (as_bytes password)) in (take 5 hex, drop 5 hex).

Definition candidates (range : str) : list (str * str) := omap (fun line => split_once 58 (trim line)) (lines range).

Definition breach_count (range suffix : str) : Z :=
  default 0 (x ← List.find (fun c => eq_ignore_ascii_case c.1 suffix) (candidates range);
             parse_u64 (trim x.2)).

Inductive Verdict := Accepted | Compromised | Unavailable.

Definition verdict (count : option Z) (fail_open : bool) : Verdict :=
  match count with
  | Some 0 => Accepted
  | Some _ => Compromised
  | None => if fail_open then Accepted else Unavailable
  end.

(** ** What a range answer says *)

(** The answer of the range API: a line per suffix. *)
Definition range_line (x : str * str) : str := x.1 ++ [58] ++ x.2 ++ [13; 10].
Definition range_answer (l : list (str * str)) : str := concat (map range_line l).

(** Hexadecimal digits and decimal digits. *)
Definition well_formed (x : str * str) : Prop :=
  x.1 <> [] /\ Forall (fun c => is_ascii_alphanumeric c = true) x.1 /\
  x.2 <> [] /\ Forall (fun c => is_ascii_digit c = true) x.2.

Lemma split_on_part (c : Z) (a s : str) : c ∉ a -> split_on c (a ++ c :: s) = a :: split_on c s.
Proof.
  induction a as [|x a IH]; cbn; intros Ha; [by rewrite Z.eqb_refl|].
  apply not_elem_of_cons in Ha as [Hx Ha]. rewrite (proj2 (Z.eqb_neq _ _)) by done. by rewrite IH.
Qed.

Lemma alnum_plain (c : Z) : is_ascii_alphanumeric c = true -> 48 <= c <= 122 /\ c <> 58.
Proof.
  unfold is_ascii_alphanumeric, is_ascii_alphabetic, is_ascii_lowercase, is_ascii_uppercase, is_ascii_digit.
  breflect. lia.
Qed.

Lemma digit_plain (c : Z) : is_ascii_digit c = true -> 48 <= c <= 57.
Proof. unfold is_ascii_digit. breflect. lia. Qed.

Lemma plain_no_ws (c : Z) : 48 <= c <= 122 -> is_whitespace c = false.
Proof. intros Hc. unfold is_whitespace. breflect. lia. Qed.

Lemma line_bytes (x : str * str) :
  well_formed x -> Forall (fun c => 48 <= c <= 122) (x.1 ++ [58] ++ x.2) /\ 58 ∉ x.1.
Proof.
  intros (_ & H1 & _ & H2). rewrite Forall_forall in H1, H2. rewrite Forall_forall. split.
  - intros c. rewrite !elem_of_app, list_elem_of_singleton. intros [Hc|[->|Hc]]; [|lia|].
    + apply H1, alnum_plain in Hc. lia.
    + apply H2, digit_plain in Hc. lia.
  - intros Hc. by apply H1, alnum_plain in Hc as [].
Qed.

Lemma trim_plain (s : str) : Forall (fun c => 48 <= c <= 122) s -> trim s = s.
Proof.
  assert (forall s, Forall (fun c => 48 <= c <= 122) s -> trim_start s = s) as Hs.
  { intros [|c s']; [done|]. rewrite Forall_cons. intros [Hc _]. cbn. by rewrite plain_no_ws. }
  intros H. unfold trim, trim_end. rewrite (Hs s H), Hs by (by apply Forall_reverse). apply reverse_involutive.
Qed.

Lemma split_answer (l : list (str * str)) :
  Forall well_formed l ->
  split_on 10 (range_answer l) = map (fun x => x.1 ++ [58] ++ x.2 ++ [13]) l ++ [[]].
Proof.
  induction 1 as [|x l Hx _ IH]; [done|]. unfold range_answer. cbn [map concat].
  assert (10 ∉ x.1 ++ [58] ++ x.2 ++ [13]) as Hn.
  { apply line_bytes in Hx as [Hx _]. rewrite Forall_forall in Hx. intros Hin.
    rewrite !app_assoc, elem_of_app, list_elem_of_singleton in Hin. destruct Hin as [Hin|[=]].
    rewrite <- app_assoc in Hin. apply Hx in Hin. lia. }
  replace (range_line x ++ concat (map range_line l))
    with ((x.1 ++ [58] ++ x.2 ++ [13]) ++ 10 :: range_answer l)
    by (unfold range_line, range_answer; by rewrite <- !app_assoc).
  by rewrite split_on_part, IH.
Qed.

Lemma candidates_answer (l : list (str * str)) : Forall well_formed l -> candidates (range_answer l) = l.
Proof.
  intros Hl. unfold candidates, lines. rewrite split_answer by done.
  rewrite last_snoc, bool_decide_eq_true_2, removelast_app by done. rewrite app_nil_r.
  induction Hl as [|x l Hx _ IH]; [done|]. cbn [map omap list_omap].
  assert (strip_cr (x.1 ++ [58] ++ x.2 ++ [13]) = x.1 ++ [58] ++ x.2) as ->.
  { rewrite !app_assoc. set (s := (x.1 ++ [58]) ++ x.2). unfold strip_cr, ends_with.
    rewrite reverse_snoc. cbn. by rewrite removelast_last. }
  destruct (line_bytes x Hx) as [Hb Hc]. rewrite trim_plain by done.
  rewrite (proj2 (User.split_once_spec 58 _ x.1 x.2)) by done. rewrite IH. by destruct x.
Qed.

(** The count a range answer gives a suffix is the one of its line, and zero
    without one. *)
Lemma breach_count_answer (l : list (str * str)) (suffix : str) :
  Forall well_formed l ->
  breach_count (range_answer l) suffix =
  match List.find (fun x => eq_ignore_ascii_case x.1 suffix) l with
  | Some x => default 0 (parse_u64 x.2)
  | None => 0
  end.
Proof.
  intros Hl. unfold breach_count. rewrite candidates_answer by done.
  destruct (List.find _ l) as [x|] eqn:Ef; [|done]. apply find_some in Ef as [Hin _].
  rewrite Forall_forall in Hl. apply list_elem_of_In, Hl, line_bytes in Hin as [Hb _]. cbn.
  rewrite trim_plain; [done|]. by apply Forall_app in Hb as [_ [_ ?]%Forall_app].
Qed.

End Pwned.

(** * CAPTCHA *)

Module Captcha.

Inductive CaptchaUpstream := Unreachable | Failed | Unreadable | Replied (success : bool).
Inductive CaptchaVerdict := Accepted | Rejected | Unavailable.

Definition captcha_verdict (upstream : CaptchaUpstream) (fail_open : bool) : CaptchaVerdict :=
  match upstream with
  | Replied true => Accepted
  | Replied false => Rejected
  | _ => if fail_open then Accepted else Unavailable
  end.

(** What the endpoint sends back: nothing, an error status, a body that does
    not parse, or the answer with the site it was solved on. *)
Inductive Reply :=
| NoReply
| ErrorStatus
| NotJson
| HCaptchaResponse (success : bool) (hostname : option str).

End Captcha.

(** * The services *)

Class Web := {
  (** The text of a successful range answer, by exchange and prefix. *)
  http_range : nat -> str -> option str;
  http_captcha : nat -> str -> str -> option IpNetwork -> Captcha.Reply;
}.

Record CaptchaConfig := {
  captcha_fail_open : bool;
  captcha_expected_hostnames : list str;
  captcha_frontend_host : option str;
}.

Section Outside.
Context `{RedisServer} `{Env} `{Web} `{Pwned.Sha1Crate}.

Definition http {E A} (f : nat -> A) : M E A := fun w => (bump_io w, Ok (f (w_io w))).

(** Only the first five digits of the digest leave the service. *)
Definition fetch_range (prefix : str) : M AppError (option str) := http (fun n => http_range n prefix).

Definition ensure_not_breached (password : str) : M AppError unit :=
  if negb (pwned_enabled (cfg_pwned config)) then mret tt
  else
    let '(prefix, suffix) := Pwned.range_key password in
    range ← fetch_range prefix;
    match Pwned.verdict ((fun range => Pwned.breach_count range suffix) <$> range)
            (pwned_fail_open (cfg_pwned config)) with
    | Pwned.Accepted => mret tt
    | Pwned.Compromised => fail PasswordCompromised
    | Pwned.Unavailable => fail (ServiceUnavailable u"pwned_passwords")
    end.

(** ** CAPTCHA: [host_str] of [FRONTEND_URL] stands in the configuration. *)
Variable captcha : CaptchaConfig.

Definition solved_here (hostname : option str) : bool :=
  match hostname with
  | None => true
  | Some hostname =>
      match captcha_expected_hostnames captcha with
      | [] => match captcha_frontend_host captcha with
              | Some host => eq_ignore_ascii_case host hostname
              | None => false
              end
      | expected => existsb (fun host => eq_ignore_ascii_case host hostname) expected
      end
  end.

Definition ask_upstream (secret token : str) (remote_ip : option IpNetwork) :
    M AppError Captcha.CaptchaUpstream :=
  reply ← http (fun n => http_captcha n secret token remote_ip);
  mret (match reply with
        | Captcha.NoReply => Captcha.Unreachable
        | Captcha.ErrorStatus => Captcha.Failed
        | Captcha.NotJson => Captcha.Unreadable
        | Captcha.HCaptchaResponse success hostname => Captcha.Replied (success && solved_here hostname)
        end).

Definition captcha_verify (token : str) (remote_ip : option IpNetwork) : M AppError unit :=
  match cfg_captcha_secret config with
  | Some ((_ :: _) as secret) =>
      if bool_decide (trim token = []) then fail CaptchaFailed
      else
        upstream ← ask_upstream secret token remote_ip;
        match Captcha.captcha_verdict upstream (captcha_fail_open captcha) with
        | Captcha.Accepted => mret tt
        | Captcha.Rejected => fail CaptchaFailed
        | Captcha.Unavailable => fail (ServiceUnavailable u"captcha")
        end
  | _ => mret tt
  end.
End Outside.

Lemma keeps_http `{RedisServer} `{Web} {E A} {R : World -> World -> Prop} `{!CoreFrame R} (f : nat -> A) :
  keeps R (http f : M E A).
Proof. intros w. apply frame_io. Qed.

#[export] Hint Resolve keeps_http : frame.
