(* ===== verification/RedisCounter.v ===== *)
(** Attempt budgets (src/src/utils/redis_counter.rs): the two Lua scripts, the
    operations built on them, and what a budget guarantees. *)
From S2P Require Import Prelude Crates Session Account OAuthDomain Tables App.

Record Budget := { bg_key : str; bg_limit : Z; bg_window_secs : Z }.

Record Consumed := { exceeded : bool; counts : list Z }.

(** [counts.iter().max().unwrap_or(0)] *)
Definition max_count (self : Consumed) : Z :=
  match counts self with
  | [] => 0
  | n :: ns => foldl Z.max n ns
  end.

Section Scripts.
Context `{RedisServer}.

(** [INCR], and [EXPIRE] when the counter starts. *)
Definition hit (s : rstore) (t : Z) (b : Budget) : rstore * Z :=
  let '(s, n) := r_incr s t (bg_key b) in
  ((if n =? 1 then r_expire s t (bg_key b) (bg_window_secs b) else s), n).

(** The script [CONSUME]: every budget. *)
Fixpoint consume_all (s : rstore) (t : Z) (bs : list Budget) : rstore * (bool * list Z) :=
  match bs with
  | [] => (s, (false, []))
  | b :: rest =>
      let '(s, n) := hit s t b in
      let '(s, (ex, ns)) := consume_all s t rest in
      (s, ((bg_limit b <? n) || ex, n :: ns))
  end.

(** The script [CONSUME_IN_ORDER]: up to the first budget past its limit; the
    counts of the budgets after it stay 0. *)
Fixpoint consume_until (s : rstore) (t : Z) (bs : list Budget) : rstore * (bool * list Z) :=
  match bs with
  | [] => (s, (false, []))
  | b :: rest =>
      let '(s, n) := hit s t b in
      if bg_limit b <? n then (s, (true, n :: map (fun _ => 0) rest))
      else
        let '(s, (ex, ns)) := consume_until s t rest in
        (s, (ex, n :: ns))
  end.
End Scripts.

(** * Operations *)

Section Operations.
Context `{RedisServer} `{Env}.

Definition redis_failure {A} (reason : str) : M AppError A := fail (ServiceUnavailable reason).

Definition run (script : rstore -> Z -> list Budget -> rstore * (bool * list Z))
    (budgets : list Budget) : M AppError Consumed :=
  if bool_decide (length budgets = 0%nat) then mret {| exceeded := false; counts := [] |}
  else
    _ ← map_err (fun _ => ServiceUnavailable u"redis_unavailable") redis_conn;
    reply ← map_err (fun _ => ServiceUnavailable u"redis_query_failed")
              (redis_cmd (fun s t => script s t budgets));
    mret {| exceeded := reply.1; counts := reply.2 |}.

Definition consume (budgets : list Budget) : M AppError Consumed := run consume_all budgets.

Definition consume_in_order (budgets : list Budget) : M AppError Consumed :=
  run consume_until budgets.

(** [GET] read as an [Option<i64>]; the key of a budget holds an integer. *)
Definition peek (key : str) : M AppError Z :=
  _ ← map_err (fun _ => ServiceUnavailable u"redis_unavailable") redis_conn;
  map_err (fun _ => ServiceUnavailable u"redis_query_failed")
    (redis_cmd (fun s t => (s, int_of (live t (dump s key))))).

Definition claim_cooldown_strict (key : str) (ttl_secs : Z) : M AppError bool :=
  _ ← map_err (fun _ => ServiceUnavailable u"redis_unavailable") redis_conn;
  map_err (fun _ => ServiceUnavailable u"redis_query_failed")
    (redis_cmd (fun s t => r_set_nx_ex s t key (RInt 1) ttl_secs)).

Definition claim_cooldown {E} (key : str) (ttl_secs : Z) : M E bool :=
  conn ← attempt redis_conn;
  match conn with
  | Err _ => mret true
  | Ok _ =>
      claimed ← attempt (redis_cmd (fun s t => r_set_nx_ex s t key (RInt 1) ttl_secs));
      mret (match claimed with Ok c => c | Err _ => true end)
  end.

(** One [DECR] per key, each on its own; failures are ignored. *)
Fixpoint decr_all {E} (keys : list str) : M E unit :=
  match keys with
  | [] => mret tt
  | key :: rest => _ ← attempt (redis_cmd (fun s t => r_decr s t key)); decr_all rest
  end.

Definition release {E} (keys : list str) : M E unit :=
  conn ← attempt redis_conn;
  match conn with Err _ => mret tt | Ok _ => decr_all keys end.

Definition reset {E} (keys : list str) : M E unit :=
  if bool_decide (length keys = 0%nat) then mret tt
  else
    conn ← attempt redis_conn;
    match conn with
    | Err _ => mret tt
    | Ok _ =>
        _ ← attempt (redis_cmd (fun s t => (foldl (fun s k => r_del s t k) s keys, tt)));
        mret tt
    end.
End Operations.

(** * What the scripts do to a key *)

Section ScriptLemmas.
Context `{RedisServer}.

(** A counter after a hit. *)
Definition hit_entry (t : Z) (o : option entry) (window : Z) : entry :=
  let n := int_of (live t o) + 1 in
  Entry (RInt n) (if n =? 1 then Some (t + window * NS) else exp_of (live t o)).

Lemma live_live (t : Z) (o : option entry) (e : entry) :
  live t o = Some e -> e_exp e = None \/ exists x, e_exp e = Some x /\ t < x.
Proof.
  unfold live, alive. destruct o as [e'|]; [|done]. destruct (e_exp e') as [x|] eqn:Ex.
  - case_cond; [|done]. intros [= <-]. breflect. right. eauto.
  - intros [= <-]. by left.
Qed.

Lemma hit_reply (s : rstore) (t : Z) (b : Budget) :
  (hit s t b).2 = int_of (live t (dump s (bg_key b))) + 1.
Proof.
  unfold hit. destruct (r_incr s t (bg_key b)) as [s' n] eqn:E. cbn.
  by rewrite <- (incr_reply s t (bg_key b)), E.
Qed.

Lemma hit_dump (s : rstore) (t : Z) (b : Budget) (k : str) :
  dump (hit s t b).1 k =
  if decide (k = bg_key b) then Some (hit_entry t (dump s (bg_key b)) (bg_window_secs b))
  else dump s k.
Proof.
  unfold hit. destruct (r_incr s t (bg_key b)) as [s' n] eqn:E. cbn.
  pose proof (incr_reply s t (bg_key b)) as Hn. pose proof (fun k => dump_incr s t (bg_key b) k) as Hd.
  rewrite E in Hn, Hd. cbn in Hn, Hd. unfold hit_entry. rewrite <- Hn.
  case_decide as Hk.
  - subst k. destruct (n =? 1) eqn:En; [|by rewrite Hd, upd_eq, Hn].
    rewrite dump_expire, upd_eq, Hd, upd_eq, <- Hn.
    destruct (live t (dump s (bg_key b))) as [e|] eqn:El; [|done].
    cbn [exp_of]. unfold live at 1, alive. cbn [e_exp].
    destruct (live_live _ _ _ El) as [-> | (x & -> & Hx)]; [done|].
    by replace (t <? x) with true by (symmetry; breflect; lia).
  - destruct (n =? 1); [rewrite dump_expire, upd_ne by done|]; by rewrite Hd, upd_ne.
Qed.

Lemma consume_all_other (s : rstore) (t : Z) (bs : list Budget) (k : str) :
  k ∉ map bg_key bs -> dump (consume_all s t bs).1 k = dump s k.
Proof.
  revert s. induction bs as [|b bs IH]; intros s Hk; [done|]. cbn in Hk |- *.
  apply not_elem_of_cons in Hk as [Hne Hk]. pose proof (hit_dump s t b k) as Hd.
  destruct (hit s t b) as [s1 n]. specialize (IH s1 Hk).
  destruct (consume_all s1 t bs) as [s2 [ex ns]]. cbn in *. by rewrite IH, Hd, decide_False.
Qed.

(** Every budget is counted once, from what the store held before. *)
Lemma consume_all_hit (s : rstore) (t : Z) (bs : list Budget) (b : Budget) :
  NoDup (map bg_key bs) -> b ∈ bs ->
  dump (consume_all s t bs).1 (bg_key b) =
    Some (hit_entry t (dump s (bg_key b)) (bg_window_secs b)) /\
  ((consume_all s t bs).2.1 = false -> int_of (live t (dump s (bg_key b))) + 1 <= bg_limit b).
Proof.
  revert s. induction bs as [|b0 bs IH]; intros s HN Hin; [by apply elem_of_nil in Hin|].
  cbn in HN. apply NoDup_cons in HN as [Hb0 HN]. cbn.
  pose proof (hit_dump s t b0 (bg_key b)) as Hd. pose proof (hit_reply s t b0) as Hr.
  destruct (hit s t b0) as [s1 n] eqn:Eh. cbn in Hd, Hr.
  pose proof (consume_all_other s1 t bs (bg_key b)) as Ho.
  pose proof (IH s1 HN) as IH1.
  destruct (consume_all s1 t bs) as [s2 [ex ns]]. cbn in *.
  apply elem_of_cons in Hin as [->|Hin].
  - rewrite Ho, Hd, decide_True by done. split; [done|]. intros Hex. breflect. lia.
  - destruct (IH1 Hin) as [E1 E2].
    assert (bg_key b <> bg_key b0) as Hne.
    { intros Heq. apply Hb0. rewrite <- Heq, list_elem_of_In. by apply in_map, list_elem_of_In. }
    rewrite decide_False in Hd by done. rewrite Hd in E1, E2. split; [done|].
    intros Hex. breflect. naive_solver.
Qed.
End ScriptLemmas.

(** * The guarantee of a budget

    Requests reach Redis one at a time, in any order, each asking for the
    budgets it needs. *)

Record Call := { at_time : Z; asked : list Budget }.

Section Guarantee.
Context `{RedisServer}.

(** The replies to a sequence of calls. *)
Fixpoint serve (s : rstore) (calls : list Call) : list bool :=
  match calls with
  | [] => []
  | c :: rest =>
      let '(s, (ex, _)) := consume_all s (at_time c) (asked c) in
      ex :: serve s rest
  end.

Definition asks_for (k : str) (c : Call) : bool := bool_decide (k ∈ map bg_key (asked c)).

(** The calls on [k] that were let through. *)
Definition admitted (k : str) (s : rstore) (calls : list Call) : nat :=
  length (List.filter (fun p => asks_for k p.1 && negb p.2) (zip calls (serve s calls))).

Section Window.
Variables (k : str) (limit window t0 : Z).

(** A call during the window, on the budget as configured. *)
Definition call_ok (c : Call) : Prop :=
  t0 <= at_time c < t0 + window * NS /\ NoDup (map bg_key (asked c)) /\
  forall b, b ∈ asked c -> bg_key b = k -> bg_limit b = limit /\ bg_window_secs b = window.

(** The counter after [n] hits in the window. *)
Definition counter_at (s : rstore) (n : Z) : Prop :=
  (n = 0 /\ forall t, t0 <= t -> live t (dump s k) = None) \/
  (0 < n /\ exists x, dump s k = Some (Entry (RInt n) (Some x)) /\ t0 + window * NS <= x).

Lemma counter_hit (s : rstore) (n t : Z) :
  counter_at s n -> t0 <= t < t0 + window * NS ->
  int_of (live t (dump s k)) = n /\
  exists x, hit_entry t (dump s k) window = Entry (RInt (n + 1)) (Some x) /\
            t0 + window * NS <= x.
Proof.
  intros Hc Ht. unfold hit_entry. destruct Hc as [[-> Hd] | (Hn & x & Hd & Hx)].
  - rewrite Hd by lia. cbn. split; [done|]. eexists. split; [done|]. lia.
  - rewrite Hd. unfold live, alive. cbn [e_exp].
    replace (t <? x) with true by (symmetry; breflect; lia). cbn. split; [done|].
    replace (n + 1 =? 1) with false by (symmetry; breflect; lia). eauto.
Qed.

Lemma admitted_cons (s s' : rstore) (ex : bool) ns (c : Call) (rest : list Call) :
  consume_all s (at_time c) (asked c) = (s', (ex, ns)) ->
  admitted k s (c :: rest) =
  ((if asks_for k c && negb ex then 1 else 0) + admitted k s' rest)%nat.
Proof.
  intros E. unfold admitted. cbn [serve]. rewrite E. cbn [zip_with List.filter fst snd].
  by destruct (asks_for k c && negb ex).
Qed.

Lemma admitted_bound (s : rstore) (calls : list Call) (n : Z) :
  counter_at s n -> Forall call_ok calls ->
  Z.of_nat (admitted k s calls) <= Z.max 0 (limit - n).
Proof.
  intros Hc HF. revert s n Hc. induction HF as [|c rest (Ht & HN & Hb) _ IH]; intros s n Hc.
  { cbn. lia. }
  destruct (consume_all s (at_time c) (asked c)) as [s' [ex ns]] eqn:E.
  rewrite (admitted_cons _ _ _ _ _ _ E). unfold asks_for. case_bool_decide as Hk.
  - assert (exists b, b ∈ asked c /\ bg_key b = k) as (b & Hin & Hbk).
    { rewrite list_elem_of_In, in_map_iff in Hk. setoid_rewrite list_elem_of_In. naive_solver. }
    destruct (Hb b Hin Hbk) as [Hl Hw].
    pose proof (consume_all_hit s (at_time c) (asked c) b HN Hin) as [Hd Hex].
    rewrite E, Hw, Hbk in Hd. rewrite E, Hl, Hbk in Hex. cbn in Hd, Hex.
    destruct (counter_hit s n (at_time c) Hc Ht) as (Hi & x & Hh & Hx).
    assert (0 <= n) by (destruct Hc as [[? ?]|[? ?]]; lia).
    assert (counter_at s' (n + 1)) as Hc'.
    { right. split; [lia|]. exists x. by rewrite Hd, Hh. }
    specialize (IH s' (n + 1) Hc'). destruct ex; cbn [andb negb]; [lia|].
    specialize (Hex eq_refl). lia.
  - assert (counter_at s' n) as Hc'.
    { pose proof (consume_all_other s (at_time c) (asked c) k Hk) as Hd. rewrite E in Hd. cbn in Hd.
      unfold counter_at. by rewrite Hd. }
    specialize (IH s' n Hc'). cbn. lia.
Qed.
End Window.

(** C36: an attempt budget holds whatever the interleaving: from the moment no
    counter is alive, and for as long as its window lasts, at most [limit] of
    the attempts on it are let through, whichever other budgets they are
    counted against and whoever makes them. *)
Theorem budget_holds (k : str) (limit window t0 : Z) (s : rstore) (calls : list Call) :
  live t0 (dump s k) = None ->
  Forall (call_ok k limit window t0) calls ->
  Z.of_nat (admitted k s calls) <= Z.max 0 limit.
Proof.
  intros Hd HF. pose proof (admitted_bound k limit window t0 s calls 0) as Hb.
  replace (limit - 0) with limit in Hb by lia. apply Hb; [|done].
  left. split; [done|]. intros t Ht. by apply (live_None_later t0).
Qed.
End Guarantee.

(** Three attempts on a budget of two, the third refused. *)
Lemma budget_holds_witness :
  let b := {| bg_key := u"k"; bg_limit := 2; bg_window_secs := 60 |} in
  let calls := map (fun t => {| at_time := t; asked := [b] |}) [1; 2; 3] in
  admitted (H := redis_gmap) u"k" ∅ calls = 2%nat /\
  Z.of_nat (admitted (H := redis_gmap) u"k" ∅ calls) <= Z.max 0 2.
Proof.
  split; [reflexivity|].
  apply (budget_holds (H := redis_gmap) u"k" 2 60 0); [reflexivity|].
  repeat constructor; cbn; try lia; try (by intros ?%elem_of_nil);
    intros; set_solver.
Defined.

(** * Budgets taken in order *)

Section InOrder.
Context `{RedisServer}.

Lemma consume_until_other (s : rstore) (t : Z) (bs : list Budget) (k : str) :
  k ∉ map bg_key bs -> dump (consume_until s t bs).1 k = dump s k.
Proof.
  revert s. induction bs as [|b bs IH]; intros s Hk; [done|]. cbn in Hk |- *.
  apply not_elem_of_cons in Hk as [Hne Hk]. pose proof (hit_dump s t b k) as Hd.
  destruct (hit s t b) as [s1 n]. specialize (IH s1 Hk). rewrite decide_False in Hd by done.
  destruct (bg_limit b <? n); [done|].
  destruct (consume_until s1 t bs) as [s2 [ex ns]]. cbn in *. by rewrite IH, Hd.
Qed.

(** Refused by none, the two scripts do the same. *)
Lemma consume_until_all (s : rstore) (t : Z) (bs : list Budget) :
  (consume_until s t bs).2.1 = false \/ (consume_all s t bs).2.1 = false ->
  consume_until s t bs = consume_all s t bs.
Proof.
  revert s. induction bs as [|b bs IH]; intros s; [done|]. cbn.
  destruct (hit s t b) as [s1 n]. specialize (IH s1).
  destruct (bg_limit b <? n) eqn:E; cbn.
  - destruct (consume_all s1 t bs) as [s2 [ex ns]]. cbn. by intros [|].
  - destruct (consume_until s1 t bs) as [s2 [ex ns]], (consume_all s1 t bs) as [s3 [ex' ns']].
    cbn in *. intros Hex. by specialize (IH Hex) as [= -> -> ->].
Qed.

(** An attempt refused by a narrow budget is not counted against the wider
    ones after it: the budgets behind the first exhausted one keep their
    counters and expiries, and an attempt refused by none is counted exactly
    as [consume] counts it. *)
Theorem consume_in_order_stops (s : rstore) (t : Z) (narrow wide : list Budget) (b : Budget) :
  NoDup (map bg_key (narrow ++ b :: wide)) ->
  (consume_until s t narrow).2.1 = false ->
  bg_limit b <= int_of (live t (dump s (bg_key b))) ->
  let '(s', (refused, _)) := consume_until s t (narrow ++ b :: wide) in
  refused = true /\ forall k, k ∈ map bg_key wide -> dump s' k = dump s k.
Proof.
  revert s. induction narrow as [|b0 narrow IH]; intros s HN Hex Hl; cbn.
  - cbn in HN. apply NoDup_cons in HN as [Hb HN].
    pose proof (hit_reply s t b) as Hr. pose proof (fun k => hit_dump s t b k) as Hd.
    destruct (hit s t b) as [s1 n]. cbn in Hr, Hd.
    replace (bg_limit b <? n) with true by (symmetry; breflect; lia).
    split; [done|]. intros k Hk. by rewrite Hd, decide_False by (intros ->; done).
  - cbn in HN, Hex. apply NoDup_cons in HN as [Hb0 HN].
    pose proof (fun k => hit_dump s t b0 k) as Hd.
    destruct (hit s t b0) as [s1 n]. cbn in Hd.
    destruct (bg_limit b0 <? n) eqn:En; [done|].
    assert (forall k, k ∈ map bg_key (narrow ++ b :: wide) -> dump s1 k = dump s k) as Hsame.
    { intros k Hk. rewrite Hd, decide_False; [done|]. intros ->. done. }
    specialize (IH s1 HN). destruct (consume_until s1 t narrow) as [s2 [ex ns]]. cbn in Hex.
    destruct (consume_until s1 t (narrow ++ b :: wide)) as [s3 [ex' ns']].
    assert (ex' = true /\ forall k, k ∈ map bg_key wide -> dump s3 k = dump s1 k) as [-> Hw].
    { apply IH; [done|]. rewrite Hsame; [done|]. rewrite map_app. set_solver. }
    split; [done|]. intros k Hk. rewrite Hw by done. apply Hsame. rewrite map_app. set_solver.
Qed.
End InOrder.

(** An exhausted challenge budget leaves the account's untouched. *)
Lemma consume_in_order_stops_witness :
  let challenge := {| bg_key := u"c"; bg_limit := 0; bg_window_secs := 60 |} in
  let account := {| bg_key := u"a"; bg_limit := 9; bg_window_secs := 60 |} in
  let '(s', (refused, _)) := consume_until (H := redis_gmap) ∅ 0 ([] ++ challenge :: [account]) in
  refused = true /\ forall k, k ∈ map bg_key [account] -> dump (RedisServer := redis_gmap) s' k = dump (RedisServer := redis_gmap) ∅ k.
Proof.
  exact (consume_in_order_stops (H := redis_gmap) ∅ 0 []
    [{| bg_key := u"a"; bg_limit := 9; bg_window_secs := 60 |}]
    {| bg_key := u"c"; bg_limit := 0; bg_window_secs := 60 |}
    ltac:(repeat constructor; set_solver) eq_refl ltac:(reflexivity || (cbn; lia))).
Defined.

(** * Giving back an attempt whose window is over *)

Section Release.
Context `{RedisServer}.

(** An attempt given back after its window expired leaves the counter at
    -1 with no expiry, so the next window lets one attempt more than the limit
    through: with a budget of [limit], the attempts counted 0, 1, ..., [limit]
    are all let through. *)
Theorem release_after_expiry (s : rstore) (t : Z) (b : Budget) :
  live t (dump s (bg_key b)) = None -> 0 <= bg_limit b ->
  let s1 := (r_decr s t (bg_key b)).1 in
  dump s1 (bg_key b) = Some (Entry (RInt (-1)) None) /\
  forall t', 0 < bg_window_secs b ->
    let '(s2, (refused, cs)) := consume_all s1 t' [b] in
    refused = false /\ cs = [0] /\
    dump s2 (bg_key b) = Some (Entry (RInt 0) None).
Proof.
  intros Hd Hl. cbn zeta. assert (dump (r_decr s t (bg_key b)).1 (bg_key b) = Some (Entry (RInt (-1)) None)) as E.
  { by rewrite dump_decr, upd_eq, Hd. }
  split; [done|]. intros t' Hw. cbn.
  pose proof (hit_reply (r_decr s t (bg_key b)).1 t' b) as Hr.
  pose proof (hit_dump (r_decr s t (bg_key b)).1 t' b (bg_key b)) as Hdump.
  rewrite decide_True in Hdump by done. rewrite E in Hr, Hdump.
  destruct (hit (r_decr s t (bg_key b)).1 t' b) as [s2 n]. cbn in Hr, Hdump. subst n.
  change (-1 + 1) with 0. replace (bg_limit b <? 0) with false by (symmetry; breflect; lia).
  split_and!; [done..|]. rewrite Hdump. reflexivity.
Qed.
End Release.

Lemma release_after_expiry_witness :
  let b := {| bg_key := u"login_try:x"; bg_limit := 10; bg_window_secs := 900 |} in
  dump (RedisServer := redis_gmap) (r_decr (RedisServer := redis_gmap) ∅ 5 (bg_key b)).1 (bg_key b)
  = Some (Entry (RInt (-1)) None).
Proof.
  refine (proj1 (release_after_expiry (H := redis_gmap) ∅ 5
    {| bg_key := u"login_try:x"; bg_limit := 10; bg_window_secs := 900 |} _ _)); [reflexivity|cbn; lia].
Defined.
