(* ===== verification/SessionRepo.v ===== *)
(** The [sessions] table (src/src/repositories/session.rs and the table of
    migrations/0005): its constraints, its statements, and the invariant that
    every sequence of them keeps. *)
From S2P Require Import Prelude Crates Session Account OAuthDomain Tables App.

Abbreviation Sessions := (gmap Uuid Session).

(** * Inputs *)

Record NewSession := {
  ns_user_id : Uuid;
  ns_family : Uuid;
  ns_expires_at : Z;
  ns_ip_address : option IpNetwork;
  ns_device_name : option str;
  ns_remember_me : bool;
  ns_token_hash : bytes;
  ns_user_agent : option str;
  ns_session_type : SessionType;
  ns_client_id : option str;
  ns_family_created_at : option Z;
  ns_scopes : option (list str);
  ns_mfa : bool;
}.

Record SessionValidation := {
  sv_expires_at : Z;
  sv_revoked_at : option Z;
  sv_session_type : SessionType;
  sv_scoped : bool;
  sv_for_client : bool;
  sv_primary_client : bool;
}.

Definition sv_is_active (self : SessionValidation) (now : Z) : bool :=
  bool_decide (sv_revoked_at self = None) && (now <? sv_expires_at self).

Definition first_party (self : SessionValidation) : bool :=
  is_first_party (sv_session_type self) (sv_scoped self) (sv_for_client self)
    (sv_primary_client self).

(** * Rows and constraints *)

(** The row an [INSERT] builds at [now]; [family_created_at], [scopes], [mfa] and
    [auth_time] come from the statement. *)
Definition new_row (id : Uuid) (now : Z) (input : NewSession) (family_created_at : Z)
    (scopes : option (list str)) (mfa : bool) (auth_time : option Z) : Session :=
  {| s_id := id;
     s_user_id := ns_user_id input;
     s_family := ns_family input;
     s_last_used_at := now;
     s_expires_at := ns_expires_at input;
     s_created_at := now;
     s_family_created_at := family_created_at;
     s_scopes := scopes;
     s_revoked_at := None;
     s_rotated_at := None;
     s_compromised_at := None;
     s_replaced_by := None;
     s_ip_address := ns_ip_address input;
     s_device_name := ns_device_name input;
     s_remember_me := ns_remember_me input;
     s_token_hash := ns_token_hash input;
     s_user_agent := ns_user_agent input;
     s_session_type := ns_session_type input;
     s_client_id := ns_client_id input;
     s_compromise_reason := None;
     s_mfa := mfa;
     s_auth_time := auth_time |}.

(** The CHECK constraints of the table on one row. *)
Definition row_ok (s : Session) : Prop :=
  s_created_at s < s_expires_at s /\
  (forall r, s_revoked_at s = Some r -> s_created_at s <= r) /\
  (forall r, s_rotated_at s = Some r -> s_created_at s <= r) /\
  (forall r, s_compromised_at s = Some r -> s_created_at s <= r) /\
  (is_Some (s_replaced_by s) <-> is_Some (s_rotated_at s)) /\
  (is_Some (s_rotated_at s) -> is_Some (s_revoked_at s)) /\
  (is_Some (s_compromised_at s) <-> is_Some (s_compromise_reason s)) /\
  (is_Some (s_compromised_at s) -> is_Some (s_revoked_at s)) /\
  s_replaced_by s <> Some (s_id s) /\
  length (s_token_hash s) = 32%nat.

(** What an [INSERT] is refused for: a key or token hash in use, an expiry that
    is already past, a hash of another length, a label or client id too long for
    its column, an unknown user. *)
Definition insert_refused (d : Db) (row : Session) : bool :=
  bool_decide (is_Some (t_sessions d !! s_id row))
  || existsb (fun p => bool_decide (s_token_hash p.2 = s_token_hash row)) (map_to_list (t_sessions d))
  || negb (s_created_at row <? s_expires_at row)
  || negb (bool_decide (length (s_token_hash row) = 32%nat))
  || (100 <? char_count (default [] (s_device_name row)))
  || (100 <? char_count (default [] (s_client_id row)))
  || negb (bool_decide (is_Some (t_users d !! s_user_id row))).

Definition insert_row (d : Db) (row : Session) : result (Db * Session) SqlError :=
  if insert_refused d row then Err SqlFailed
  else Ok (set_sessions (insert (s_id row) row) d, row).

(** * Statements *)

Definition revoked_row (now : Z) (s : Session) : Session :=
  {| s_id := s_id s; s_user_id := s_user_id s; s_family := s_family s;
     s_last_used_at := s_last_used_at s; s_expires_at := s_expires_at s;
     s_created_at := s_created_at s; s_family_created_at := s_family_created_at s;
     s_scopes := s_scopes s; s_revoked_at := Some now; s_rotated_at := s_rotated_at s;
     s_compromised_at := s_compromised_at s; s_replaced_by := s_replaced_by s;
     s_ip_address := s_ip_address s; s_device_name := s_device_name s;
     s_remember_me := s_remember_me s; s_token_hash := s_token_hash s;
     s_user_agent := s_user_agent s; s_session_type := s_session_type s;
     s_client_id := s_client_id s; s_compromise_reason := s_compromise_reason s;
     s_mfa := s_mfa s; s_auth_time := s_auth_time s |}.

(** [UPDATE sessions SET revoked_at = NOW() WHERE p AND revoked_at IS NULL] *)
Definition revoke_where (p : Session -> bool) (now : Z) : Sessions -> Sessions :=
  fmap (fun s => if p s && bool_decide (s_revoked_at s = None) then revoked_row now s else s).

Definition rotated_row (now : Z) (next : Uuid) (s : Session) : Session :=
  {| s_id := s_id s; s_user_id := s_user_id s; s_family := s_family s;
     s_last_used_at := s_last_used_at s; s_expires_at := s_expires_at s;
     s_created_at := s_created_at s; s_family_created_at := s_family_created_at s;
     s_scopes := s_scopes s; s_revoked_at := Some now; s_rotated_at := Some now;
     s_compromised_at := s_compromised_at s; s_replaced_by := Some next;
     s_ip_address := s_ip_address s; s_device_name := s_device_name s;
     s_remember_me := s_remember_me s; s_token_hash := s_token_hash s;
     s_user_agent := s_user_agent s; s_session_type := s_session_type s;
     s_client_id := s_client_id s; s_compromise_reason := s_compromise_reason s;
     s_mfa := s_mfa s; s_auth_time := s_auth_time s |}.

Definition compromised_row (now : Z) (reason : SessionCompromiseReason) (s : Session) : Session :=
  {| s_id := s_id s; s_user_id := s_user_id s; s_family := s_family s;
     s_last_used_at := s_last_used_at s; s_expires_at := s_expires_at s;
     s_created_at := s_created_at s; s_family_created_at := s_family_created_at s;
     s_scopes := s_scopes s; s_revoked_at := Some (default now (s_revoked_at s));
     s_rotated_at := s_rotated_at s;
     s_compromised_at := Some (default now (s_compromised_at s));
     s_replaced_by := s_replaced_by s;
     s_ip_address := s_ip_address s; s_device_name := s_device_name s;
     s_remember_me := s_remember_me s; s_token_hash := s_token_hash s;
     s_user_agent := s_user_agent s; s_session_type := s_session_type s;
     s_client_id := s_client_id s;
     s_compromise_reason := Some (default reason (s_compromise_reason s));
     s_mfa := s_mfa s; s_auth_time := s_auth_time s |}.

(** The database function [revoke_session_family]. *)
Definition revoke_session_family (id : Uuid) (reason : SessionCompromiseReason) (now : Z)
    (t : Sessions) : result (Sessions * Z) SqlError :=
  match t !! id with
  | None => Err SqlFailed
  | Some target =>
      let affected s :=
        bool_decide (s_family s = s_family target) &&
        (bool_decide (s_revoked_at s = None) || bool_decide (s_compromised_at s = None)
         || bool_decide (s_compromise_reason s = None)) in
      Ok ((fun s => if affected s then compromised_row now reason s else s) <$> t,
          Z.of_nat (length (List.filter (fun p => affected p.2) (map_to_list t))))
  end.

Definition set_auth_time_row (auth_time : Z) (s : Session) : Session :=
  {| s_id := s_id s; s_user_id := s_user_id s; s_family := s_family s;
     s_last_used_at := s_last_used_at s; s_expires_at := s_expires_at s;
     s_created_at := s_created_at s; s_family_created_at := s_family_created_at s;
     s_scopes := s_scopes s; s_revoked_at := s_revoked_at s; s_rotated_at := s_rotated_at s;
     s_compromised_at := s_compromised_at s; s_replaced_by := s_replaced_by s;
     s_ip_address := s_ip_address s; s_device_name := s_device_name s;
     s_remember_me := s_remember_me s; s_token_hash := s_token_hash s;
     s_user_agent := s_user_agent s; s_session_type := s_session_type s;
     s_client_id := s_client_id s; s_compromise_reason := s_compromise_reason s;
     s_mfa := s_mfa s; s_auth_time := Some auth_time |}.

(** A use of the session outside rotations. *)
Definition touched_session_row (now : Z) (s : Session) : Session :=
  {| s_id := s_id s; s_user_id := s_user_id s; s_family := s_family s;
     s_last_used_at := now; s_expires_at := s_expires_at s;
     s_created_at := s_created_at s; s_family_created_at := s_family_created_at s;
     s_scopes := s_scopes s; s_revoked_at := s_revoked_at s; s_rotated_at := s_rotated_at s;
     s_compromised_at := s_compromised_at s; s_replaced_by := s_replaced_by s;
     s_ip_address := s_ip_address s; s_device_name := s_device_name s;
     s_remember_me := s_remember_me s; s_token_hash := s_token_hash s;
     s_user_agent := s_user_agent s; s_session_type := s_session_type s;
     s_client_id := s_client_id s; s_compromise_reason := s_compromise_reason s;
     s_mfa := s_mfa s; s_auth_time := s_auth_time s |}.

(** The rotation, once the old row is locked and found live. *)
Definition rotation_row (id : Uuid) (now : Z) (old : Session) (input : NewSession) : Session :=
  new_row id now input (default (s_family_created_at old) (ns_family_created_at input))
    (match ns_scopes input with Some scopes => Some scopes | None => s_scopes old end)
    (s_mfa old) (s_auth_time old).

(** [ORDER BY last_used_at DESC] *)
Definition used_after (a b : Session) : Prop := s_last_used_at b <= s_last_used_at a.

#[export] Instance used_after_dec : RelDecision used_after.
Proof. intros a b. unfold used_after. apply _. Defined.

(** * The repository *)

Section Repository.
Context `{RedisServer} `{Env}.

Definition create (input : NewSession) : M SqlError Session :=
  id ← new_v4;
  execute (fun d now =>
    insert_row d (new_row id now input (default now (ns_family_created_at input))
                    (ns_scopes input) (ns_mfa input) None)).

Definition rotate (old_session_id : Uuid) (input : NewSession) : M SqlError Session :=
  transaction SqlFailed (
    found ← query (fun d _ => t_sessions d !! old_session_id);
    old ← ok_or found RowNotFound;
    if bool_decide (is_Some (s_revoked_at old)) then fail RowNotFound
    else
      id ← new_v4;
      new_session ← execute (fun d now => insert_row d (rotation_row id now old input));
      _ ← execute (fun d now =>
            Ok (set_sessions (alter (rotated_row now (s_id new_session)) old_session_id) d, tt));
      mret new_session).

Definition revoke (id : Uuid) : M SqlError unit :=
  execute (fun d now =>
    Ok (set_sessions (revoke_where (fun s => bool_decide (s_id s = id)) now) d, tt)).

Definition revoked_by (p : Session -> bool) (d : Db) : list Session :=
  List.filter (fun s => p s && bool_decide (s_revoked_at s = None))
    (map snd (map_to_list (t_sessions d))).

(** The statements that revoke and return (or count) what they revoked. *)
Definition revoke_returning (p : Session -> bool) : M SqlError (list Session) :=
  execute (fun d now =>
    Ok (set_sessions (revoke_where p now) d, map (revoked_row now) (revoked_by p d))).

Definition revoke_all_by_user (user_id : Uuid) : M SqlError Z :=
  rows ← revoke_returning (fun s => bool_decide (s_user_id s = user_id));
  mret (Z.of_nat (length rows)).

Definition revoke_personal_access_sessions (user_id : Uuid) : M SqlError (list Session) :=
  revoke_returning (fun s => bool_decide (s_user_id s = user_id) &&
                             bool_decide (s_session_type s = PersonalAccessToken)).

Definition revoke_all_by_user_returning (user_id : Uuid) : M SqlError (list Session) :=
  revoke_returning (fun s => bool_decide (s_user_id s = user_id)).

Definition revoke_others (user_id keep : Uuid) : M SqlError Z :=
  rows ← revoke_returning (fun s => bool_decide (s_user_id s = user_id) &&
                                    negb (bool_decide (s_id s = keep)));
  mret (Z.of_nat (length rows)).

Definition revoke_by_client (client_id : str) : M SqlError (list Session) :=
  revoke_returning (fun s => bool_decide (s_client_id s = Some client_id)).

Definition revoke_family (session_id : Uuid) : M SqlError Z :=
  execute (fun d now =>
    match revoke_session_family session_id RefreshTokenReuse now (t_sessions d) with
    | Ok (t, n) => Ok (set_sessions (fun _ => t) d, n)
    | Err e => Err e
    end).

Definition set_auth_time (id : Uuid) (auth_time : Z) : M SqlError unit :=
  execute (fun d _ => Ok (set_sessions (alter (set_auth_time_row auth_time) id) d, tt)).

(** ** Reads *)

Definition family_ids (session_id : Uuid) (t : Sessions) : list Uuid :=
  match t !! session_id with
  | None => []
  | Some s => map fst (List.filter (fun p => bool_decide (s_family p.2 = s_family s)) (map_to_list t))
  end.

Definition family_session_ids (session_id : Uuid) : M SqlError (list Uuid) :=
  query (fun d _ => family_ids session_id (t_sessions d)).

Definition by_token_hash (token_hash : bytes) (t : Sessions) : option Session :=
  snd <$> List.find (fun p => bool_decide (s_token_hash p.2 = token_hash)) (map_to_list t).

Definition find_by_token_hash (token_hash : bytes) : M SqlError (option Session) :=
  query (fun d _ => by_token_hash token_hash (t_sessions d)).

Definition find_by_id (id : Uuid) : M SqlError (option Session) :=
  query (fun d _ => t_sessions d !! id).

Definition proved_second_factor (id : Uuid) : M SqlError bool :=
  query (fun d _ => match t_sessions d !! id with Some s => s_mfa s | None => false end).

(** The join with [registered_clients]. *)
Definition validation_of (d : Db) (s : Session) : SessionValidation :=
  {| sv_expires_at := s_expires_at s;
     sv_revoked_at := s_revoked_at s;
     sv_session_type := s_session_type s;
     sv_scoped := bool_decide (is_Some (s_scopes s));
     sv_for_client := bool_decide (is_Some (s_client_id s));
     sv_primary_client :=
       match s_client_id s with
       | None => false
       | Some cid =>
           match List.find (fun c => str_eqb (Client.c_client_id c) cid) (t_clients d) with
           | Some c => Client.c_is_primary c
           | None => false
           end
       end |}.

Definition find_validation_by_id (id : Uuid) : M SqlError (option SessionValidation) :=
  query (fun d _ => validation_of d <$> t_sessions d !! id).

(** Most recently used first. *)
Definition find_active_by_user (user_id : Uuid) : M SqlError (list Session) :=
  query (fun d _ =>
    merge_sort used_after
      (List.filter (fun s => bool_decide (s_user_id s = user_id) &&
                             bool_decide (s_revoked_at s = None))
         (map snd (map_to_list (t_sessions d))))).

Definition count_where (p : Session -> bool) (d : Db) (now : Z) : Z :=
  Z.of_nat (length (List.filter (fun s => p s && bool_decide (s_revoked_at s = None)
                                            && (now <? s_expires_at s))
                      (map snd (map_to_list (t_sessions d))))).

Definition count_active_by_type (user_id : Uuid) (ty : SessionType) : M SqlError Z :=
  query (count_where (fun s => bool_decide (s_user_id s = user_id) &&
                               bool_decide (s_session_type s = ty))).

Definition count_active_by_client (user_id : Uuid) (client_id : str) : M SqlError Z :=
  query (count_where (fun s => bool_decide (s_user_id s = user_id) &&
                               bool_decide (s_client_id s = Some client_id) &&
                               bool_decide (s_session_type s = Device))).
End Repository.

(** * The invariant of the table *)

(** What every row of a family shares. *)
Record family_fields := {
  ff_user : Uuid;
  ff_client : option str;
  ff_type : SessionType;
  ff_created : Z;
  ff_mfa : bool;
  ff_remember : bool;
}.

Definition fields_of (s : Session) : family_fields :=
  {| ff_user := s_user_id s; ff_client := s_client_id s; ff_type := s_session_type s;
     ff_created := s_family_created_at s; ff_mfa := s_mfa s; ff_remember := s_remember_me s |}.

(** A statement or transaction on the table, committed at [now]. *)
Inductive session_step (now : Z) (t : Sessions) : Sessions -> Prop :=
| step_create (row : Session) :
    t !! s_id row = None ->
    (forall i s, t !! i = Some s -> s_token_hash s <> s_token_hash row) ->
    (** The family id is drawn at random for each sign-in. *)
    (forall i s, t !! i = Some s -> s_family s <> s_family row) ->
    s_created_at row = now -> s_revoked_at row = None -> s_compromised_at row = None ->
    s_replaced_by row = None -> row_ok row ->
    session_step now t (<[s_id row := row]> t)
| step_rotate (old_id : Uuid) (old : Session) (id : Uuid) (input : NewSession) :
    t !! old_id = Some old -> s_revoked_at old = None ->
    t !! id = None ->
    (forall i s, t !! i = Some s -> s_token_hash s <> ns_token_hash input) ->
    ns_family input = s_family old ->
    fields_of (rotation_row id now old input) = fields_of old ->
    row_ok (rotation_row id now old input) ->
    session_step now t
      (alter (rotated_row now id) old_id (<[id := rotation_row id now old input]> t))
| step_revoke (p : Session -> bool) : session_step now t (revoke_where p now t)
| step_family (id : Uuid) (reason : SessionCompromiseReason) (t' : Sessions) (n : Z) :
    revoke_session_family id reason now t = Ok (t', n) -> session_step now t t'
| step_auth_time (id : Uuid) (auth_time : Z) :
    session_step now t (alter (set_auth_time_row auth_time) id t)
| step_touch (id : Uuid) : session_step now t (alter (touched_session_row now) id t)
| step_delete (gone : gset Uuid) :
    (** The foreign key and the check on replacements refuse a deletion that
        would leave a replaced row without its successor. *)
    (forall i s n, t !! i = Some s -> i ∉ gone -> s_replaced_by s = Some n -> n ∉ gone) ->
    session_step now t (filter (fun p => p.1 ∉ gone) t).

Inductive reachable : Z -> Sessions -> Prop :=
| reach_init (now : Z) : reachable now ∅
| reach_step (before now : Z) (t t' : Sessions) :
    reachable before t -> before <= now -> session_step now t t' -> reachable now t'.

Record table_ok (now : Z) (t : Sessions) : Prop := {
  ok_keyed : forall i s, t !! i = Some s -> s_id s = i;
  ok_rows : forall i s, t !! i = Some s -> row_ok s /\ s_created_at s <= now;
  ok_hash : forall i j s s', t !! i = Some s -> t !! j = Some s' ->
    s_token_hash s = s_token_hash s' -> i = j;
  ok_family : forall i j s s', t !! i = Some s -> t !! j = Some s' ->
    s_family s = s_family s' -> fields_of s = fields_of s';
  ok_live : forall i j s s', t !! i = Some s -> t !! j = Some s' ->
    s_family s = s_family s' -> s_revoked_at s = None -> s_revoked_at s' = None -> i = j;
  ok_compromised : forall i j s s', t !! i = Some s -> t !! j = Some s' ->
    s_family s = s_family s' -> is_Some (s_compromised_at s) -> is_Some (s_revoked_at s');
  ok_next : forall i s n, t !! i = Some s -> s_replaced_by s = Some n ->
    exists s', t !! n = Some s' /\ s_family s' = s_family s;
  ok_linear : forall i j s s' n, t !! i = Some s -> t !! j = Some s' ->
    s_replaced_by s = Some n -> s_replaced_by s' = Some n -> i = j;
}.

(** ** Updates that keep what identifies a row *)

(** [s'] is [s] after an update: identity and succession kept, revocation never
    undone. *)
Record updated (s s' : Session) : Prop := {
  up_id : s_id s' = s_id s;
  up_family : s_family s' = s_family s;
  up_fields : fields_of s' = fields_of s;
  up_hash : s_token_hash s' = s_token_hash s;
  up_created : s_created_at s' = s_created_at s;
  up_next : s_replaced_by s' = s_replaced_by s;
  up_revoked : s_revoked_at s' = None -> s_revoked_at s = None;
}.

Lemma updated_refl (s : Session) : updated s s.
Proof. by constructor. Qed.

Lemma fmap_update_ok (now : Z) (t : Sessions) (f : Session -> Session) :
  table_ok now t ->
  (forall i s, t !! i = Some s -> updated s (f s) /\ row_ok (f s)) ->
  (forall i j s s', t !! i = Some s -> t !! j = Some s' -> s_family s = s_family s' ->
     is_Some (s_compromised_at (f s)) -> is_Some (s_revoked_at (f s'))) ->
  table_ok now (f <$> t).
Proof.
  intros [Hk Hr Hh Hf Hl _ Hn Hlin] Hup Hc.
  assert (forall i s', (f <$> t) !! i = Some s' -> exists s, s' = f s /\ t !! i = Some s /\ updated s (f s)) as Hlk.
  { intros i s' (s & <- & Hs)%lookup_fmap_Some. destruct (Hup i s Hs). eauto. }
  constructor.
  - intros i s' (s & -> & Hs & U)%Hlk. rewrite (up_id _ _ U). eauto.
  - intros i s' (s & -> & Hs & U)%Hlk. split; [by apply (Hup i)|]. rewrite (up_created _ _ U). by apply (Hr i).
  - intros i j ? ? (s & -> & Hs & U)%Hlk (s' & -> & Hs' & U')%Hlk.
    rewrite (up_hash _ _ U), (up_hash _ _ U'). eauto.
  - intros i j ? ? (s & -> & Hs & U)%Hlk (s' & -> & Hs' & U')%Hlk.
    rewrite (up_family _ _ U), (up_family _ _ U'), (up_fields _ _ U), (up_fields _ _ U'). eauto.
  - intros i j ? ? (s & -> & Hs & U)%Hlk (s' & -> & Hs' & U')%Hlk.
    rewrite (up_family _ _ U), (up_family _ _ U').
    intros E R%(up_revoked _ _ U) R'%(up_revoked _ _ U'). eauto.
  - intros i j ? ? (s & -> & Hs & U)%Hlk (s' & -> & Hs' & U')%Hlk.
    rewrite (up_family _ _ U), (up_family _ _ U'). eauto.
  - intros i ? n (s & -> & Hs & U)%Hlk. rewrite (up_next _ _ U), (up_family _ _ U). intros E.
    destruct (Hn i s n Hs E) as (s' & Hs' & Ef). exists (f s'). rewrite lookup_fmap, Hs'.
    split; [done|]. destruct (Hup n s' Hs') as [U' _]. by rewrite (up_family _ _ U').
  - intros i j ? ? n (s & -> & Hs & U)%Hlk (s' & -> & Hs' & U')%Hlk.
    rewrite (up_next _ _ U), (up_next _ _ U'). eauto.
Qed.

Lemma revoked_row_ok (now : Z) (s : Session) :
  row_ok s -> s_created_at s <= now -> row_ok (revoked_row now s).
Proof. unfold row_ok. cbn. intros. destruct_and?. split_and!; naive_solver. Qed.

Lemma revoke_where_ok (p : Session -> bool) (now : Z) (t : Sessions) :
  table_ok now t -> table_ok now (revoke_where p now t).
Proof.
  intros Hok. apply fmap_update_ok; [done| |].
  - intros i s Hs. destruct (ok_rows _ _ Hok i s Hs).
    destruct (p s && bool_decide (s_revoked_at s = None)); [|by split; [apply updated_refl|]].
    split; [by constructor|by apply revoked_row_ok].
  - intros i j s s' Hs Hs' Ef Hcs.
    assert (is_Some (s_compromised_at s)) as Hc by (by destruct (p s && _)).
    pose proof (ok_compromised _ _ Hok i j s s' Hs Hs' Ef Hc). by destruct (p s' && _); cbn.
Qed.

Lemma compromised_row_ok (now : Z) (reason : SessionCompromiseReason) (s : Session) :
  row_ok s -> s_created_at s <= now -> row_ok (compromised_row now reason s).
Proof.
  unfold row_ok. cbn. intros (? & Hr & ? & Hc & ? & ? & ? & ? & ? & ?) ?. split_and!; try done.
  - intros r [= <-]. destruct (s_revoked_at s) as [r|]; cbn; auto.
  - intros r [= <-]. destruct (s_compromised_at s) as [r|]; cbn; auto.
Qed.

Lemma revoke_session_family_spec (id : Uuid) reason now (t t' : Sessions) (n : Z) :
  revoke_session_family id reason now t = Ok (t', n) ->
  exists target, t !! id = Some target /\
    forall i, t' !! i =
      (fun s => if bool_decide (s_family s = s_family target) &&
                   (bool_decide (s_revoked_at s = None) || bool_decide (s_compromised_at s = None)
                    || bool_decide (s_compromise_reason s = None))
                then compromised_row now reason s else s) <$> t !! i.
Proof.
  unfold revoke_session_family. destruct (t !! id) as [target|]; [|done].
  intros [= <- _]. exists target. split; [done|]. intros i. apply lookup_fmap.
Qed.

Lemma step_family_ok (id : Uuid) reason now (t t' : Sessions) (n : Z) :
  table_ok now t -> revoke_session_family id reason now t = Ok (t', n) -> table_ok now t'.
Proof.
  unfold revoke_session_family. intros Hok. destruct (t !! id) as [target|]; [|done].
  intros [= <- _]. apply fmap_update_ok; [done| |].
  - intros i s Hs. destruct (ok_rows _ _ Hok i s Hs). case_cond; [|by split; [apply updated_refl|]].
    split; [by constructor|by apply compromised_row_ok].
  - intros i j s s' Hs Hs' Ef Hc.
    destruct (bool_decide (s_family s' = s_family target)) eqn:Et; cbn [andb].
    + case_cond; [by eexists|]. rewrite !orb_false_iff in E. destruct E as [[E _] _].
      apply bool_decide_eq_false in E. by apply not_eq_None_Some in E.
    + rewrite Ef, Et in Hc. cbn [andb] in Hc. by apply (ok_compromised _ _ Hok i j s s').
Qed.

Lemma alter_as_fmap (f : Session -> Session) (id : Uuid) (t : Sessions) :
  (forall i s, t !! i = Some s -> s_id s = i) ->
  alter f id t = (fun s => if bool_decide (s_id s = id) then f s else s) <$> t.
Proof.
  intros Hk. apply map_eq. intros i. rewrite lookup_fmap.
  destruct (decide (i = id)) as [->|Hne].
  - rewrite lookup_alter_eq. destruct (t !! id) as [s|] eqn:E; [|done]. cbn.
    by rewrite bool_decide_true by eauto.
  - rewrite lookup_alter_ne by done. destruct (t !! i) as [s|] eqn:E; [|done]. cbn.
    rewrite bool_decide_false; [done|]. intros Hs. apply Hne. rewrite <- Hs. symmetry. eauto.
Qed.

(** An update of one row that touches neither its identity nor its fate. *)
Lemma alter_update_ok (f : Session -> Session) (id : Uuid) (now : Z) (t : Sessions) :
  (forall s, updated s (f s) /\ (row_ok s -> row_ok (f s))) ->
  (forall s, s_compromised_at (f s) = s_compromised_at s /\ s_revoked_at (f s) = s_revoked_at s) ->
  table_ok now t -> table_ok now (alter f id t).
Proof.
  intros Hu Hf Hok. rewrite alter_as_fmap by apply (ok_keyed _ _ Hok).
  apply fmap_update_ok; [done| |].
  - intros i s Hs. destruct (ok_rows _ _ Hok i s Hs), (Hu s).
    case_cond; (split; [done || by constructor|auto]).
  - intros i j s s' Hs Hs' Ef Hc. destruct (Hf s) as [E1 _], (Hf s') as [_ E2].
    assert (is_Some (s_compromised_at s)) as Hc' by (case_cond; by rewrite ?E1 in Hc).
    pose proof (ok_compromised _ _ Hok i j s s' Hs Hs' Ef Hc'). case_cond; by rewrite ?E2.
Qed.

Lemma step_auth_time_ok (id : Uuid) (auth_time now : Z) (t : Sessions) :
  table_ok now t -> table_ok now (alter (set_auth_time_row auth_time) id t).
Proof. by apply alter_update_ok. Qed.

Lemma step_touch_ok (id : Uuid) (now : Z) (t : Sessions) :
  table_ok now t -> table_ok now (alter (touched_session_row now) id t).
Proof. by apply alter_update_ok. Qed.

Lemma step_delete_ok (gone : gset Uuid) (now : Z) (t : Sessions) :
  table_ok now t ->
  (forall i s n, t !! i = Some s -> i ∉ gone -> s_replaced_by s = Some n -> n ∉ gone) ->
  table_ok now (filter (fun p => p.1 ∉ gone) t).
Proof.
  intros [Hk Hr Hh Hf Hl Hc Hn Hlin] Hg.
  assert (forall i s, filter (fun p => p.1 ∉ gone) t !! i = Some s -> t !! i = Some s /\ i ∉ gone) as Hlk.
  { intros i s. by rewrite map_lookup_filter_Some. }
  constructor; try (intros *; intros [? ?]%Hlk; intros [? ?]%Hlk; by eauto);
    try (intros *; intros [? ?]%Hlk; by eauto).
  intros i s n [Hs Hi]%Hlk En. destruct (Hn i s n Hs En) as (s' & Hs' & Ef). exists s'.
  split; [|done]. apply map_lookup_filter_Some. split; [done|]. cbn. eauto.
Qed.

Lemma step_create_ok (now : Z) (t : Sessions) (row : Session) :
  table_ok now t ->
  t !! s_id row = None ->
  (forall i s, t !! i = Some s -> s_token_hash s <> s_token_hash row) ->
  (forall i s, t !! i = Some s -> s_family s <> s_family row) ->
  s_created_at row = now -> s_compromised_at row = None -> s_replaced_by row = None -> row_ok row ->
  table_ok now (<[s_id row := row]> t).
Proof.
  intros [Hk Hr Hh Hf Hl Hc Hn Hlin] Hid Hhash Hfam Hnow Hcomp Hnext Hrow.
  assert (forall i s, <[s_id row := row]> t !! i = Some s -> (i = s_id row /\ s = row) \/ t !! i = Some s) as Hlk.
  { intros i s. rewrite lookup_insert_Some. naive_solver. }
  constructor.
  - intros i s [[-> ->]|Hs]%Hlk; eauto.
  - intros i s [[-> ->]|Hs]%Hlk; [|eauto]. split; [done|lia].
  - intros i j s s' [[-> ->]|Hs]%Hlk [[-> ->]|Hs']%Hlk; eauto; intros E; exfalso;
      [by apply (Hhash j s')|by apply (Hhash i s)].
  - intros i j s s' [[-> ->]|Hs]%Hlk [[-> ->]|Hs']%Hlk; eauto; intros E; exfalso;
      [by apply (Hfam j s')|by apply (Hfam i s)].
  - intros i j s s' [[-> ->]|Hs]%Hlk [[-> ->]|Hs']%Hlk E; eauto; exfalso;
      [by apply (Hfam j s')|by apply (Hfam i s)].
  - intros i j s s' [[-> ->]|Hs]%Hlk [[-> ->]|Hs']%Hlk E; eauto; try (rewrite Hcomp; by intros []);
      exfalso; by apply (Hfam i s).
  - intros i s n [[-> ->]|Hs]%Hlk; [by rewrite Hnext|]. intros E.
    destruct (Hn i s n Hs E) as (s' & Hs' & Ef). exists s'. split; [|done].
    rewrite lookup_insert_ne; [done|]. intros <-. by rewrite Hid in Hs'.
  - intros i j s s' n [[-> ->]|Hs]%Hlk [[-> ->]|Hs']%Hlk; rewrite ?Hnext; try done; eauto.
Qed.

Lemma rotated_row_ok (now : Z) (id : Uuid) (s : Session) :
  row_ok s -> s_created_at s <= now -> s_compromised_at s = None -> s_id s <> id ->
  row_ok (rotated_row now id s).
Proof.
  unfold row_ok. cbn. intros (? & Hr & ? & Hc & ? & ? & ? & ? & ? & ?) ? ? ?. split_and!; try done.
  - by intros r [= <-].
  - by intros r [= <-].
  - congruence.
Qed.

Lemma rotate_lookup (t : Sessions) (now : Z) (old_id id : Uuid) (old new : Session) :
  t !! old_id = Some old -> t !! id = None ->
  forall i s, alter (rotated_row now id) old_id (<[id := new]> t) !! i = Some s ->
    (i = id /\ s = new) \/ (i = old_id /\ s = rotated_row now id old) \/
    (i <> id /\ i <> old_id /\ t !! i = Some s).
Proof.
  intros Hold Hid i s. assert (id <> old_id) by congruence.
  destruct (decide (i = old_id)) as [->|Hne].
  - rewrite lookup_alter_eq, lookup_insert_ne, Hold by done. cbn. naive_solver.
  - rewrite lookup_alter_ne by done. rewrite lookup_insert_Some. naive_solver.
Qed.

(** The family of a live session is not compromised. *)
Lemma live_family_clean (now : Z) (t : Sessions) (old_id : Uuid) (old : Session) :
  table_ok now t -> t !! old_id = Some old -> s_revoked_at old = None ->
  forall i s, t !! i = Some s -> s_family s = s_family old -> s_compromised_at s = None.
Proof.
  intros Hok Hold Hlive i s Hs E. destruct (s_compromised_at s) eqn:Es; [|done].
  destruct (ok_compromised now t Hok i old_id s old Hs Hold E) as [x Hx]; [by rewrite Es|congruence].
Qed.

(** Successors stay within their family when a session is rotated. *)
Lemma rotate_next (now : Z) (t : Sessions) (old_id id : Uuid) (old new : Session) :
  table_ok now t -> t !! old_id = Some old -> t !! id = None ->
  s_family new = s_family old -> s_replaced_by new = None ->
  let t' := alter (rotated_row now id) old_id (<[id := new]> t) in
  forall i s n, t' !! i = Some s -> s_replaced_by s = Some n ->
    exists s', t' !! n = Some s' /\ s_family s' = s_family s.
Proof.
  intros Hok Hold Hid Hnf Hnn t' i s n Hi. assert (id <> old_id) as Hne by congruence. unfold t' in *.
  apply (rotate_lookup t now old_id id old new Hold Hid) in Hi as [[-> ->]|[[-> ->]|(? & ? & Hs)]].
  - by rewrite Hnn.
  - cbn. intros [= <-]. exists new. split; [|done]. rewrite lookup_alter_ne by done.
    by rewrite lookup_insert_eq.
  - intros E. destruct (ok_next now t Hok i s n Hs E) as (s' & Hs' & Ef).
    assert (n <> id) by congruence.
    destruct (decide (n = old_id)) as [->|].
    + exists (rotated_row now id old). rewrite lookup_alter_eq, lookup_insert_ne, Hold by done.
      split; [done|]. cbn. by simplify_eq.
    + exists s'. rewrite lookup_alter_ne, lookup_insert_ne by done. done.
Qed.

Lemma step_rotate_ok (now : Z) (t : Sessions) (old_id id : Uuid) (old new : Session) :
  table_ok now t ->
  t !! old_id = Some old -> s_revoked_at old = None -> t !! id = None ->
  s_id new = id -> s_family new = s_family old -> fields_of new = fields_of old ->
  s_revoked_at new = None -> s_compromised_at new = None -> s_replaced_by new = None ->
  s_created_at new = now -> row_ok new ->
  (forall i s, t !! i = Some s -> s_token_hash s <> s_token_hash new) ->
  table_ok now (alter (rotated_row now id) old_id (<[id := new]> t)).
Proof.
  intros Hok Hold Hlive Hid Hnid Hnf Hff Hnr Hnc Hnn Hnow Hnew Hhash.
  pose proof Hok as [Hk Hr Hh Hf Hl Hc Hn Hlin].
  assert (id <> old_id) as Hne by congruence.
  pose proof (live_family_clean now t old_id old Hok Hold Hlive) as Hfc.
  pose proof (Hfc old_id old Hold eq_refl) as Hoc.
  assert (forall i s, t !! i = Some s -> s_replaced_by s <> Some id) as Hnid'.
  { intros i s Hs E. destruct (Hn i s id Hs E) as (s' & Hs' & _). congruence. }
  assert (forall i s, t !! i = Some s -> s_family s = s_family old -> s_revoked_at s = None -> i = old_id) as Hone.
  { intros i s Hs E Es. by apply (Hl i old_id s old). }
  pose proof (rotate_lookup t now old_id id old new Hold Hid) as Hlk.
  destruct (Hr old_id old Hold) as [Hrow Hcr].
  constructor.
  - intros i s [[-> ->]|[[-> ->]|(? & ? & Hs)]]%Hlk; cbn; eauto.
  - intros i s [[-> ->]|[[-> ->]|(? & ? & Hs)]]%Hlk; [split; [done|lia]| |eauto].
    split; [|done]. apply rotated_row_ok; try done. rewrite (Hk old_id old) by done. congruence.
  - intros i j s s' [[-> ->]|[[-> ->]|(? & ? & Hs)]]%Hlk [[-> ->]|[[-> ->]|(? & ? & Hs')]]%Hlk; cbn; eauto;
      intros E; exfalso; (eapply Hhash; [|first [exact E|symmetry; exact E]]; eauto).
  - intros i j s s' [[-> ->]|[[-> ->]|(? & ? & Hs)]]%Hlk [[-> ->]|[[-> ->]|(? & ? & Hs')]]%Hlk;
      change (fields_of (rotated_row now id old)) with (fields_of old);
      change (s_family (rotated_row now id old)) with (s_family old);
      rewrite ?Hnf, ?Hff; eauto.
  - intros i j s s' [[-> ->]|[[-> ->]|(? & ? & Hs)]]%Hlk [[-> ->]|[[-> ->]|(? & ? & Hs')]]%Hlk;
      cbn [rotated_row s_family s_revoked_at]; rewrite ?Hnf; intros E E1 E2; try done.
    + by apply (Hone j s') in Hs'.
    + by apply (Hone i s) in Hs.
    + by apply (Hl i j s s').
  - intros i j s s' [[-> ->]|[[-> ->]|(? & ? & Hs)]]%Hlk [[-> ->]|[[-> ->]|(? & ? & Hs')]]%Hlk;
      cbn [rotated_row s_family s_revoked_at s_compromised_at]; rewrite ?Hnf, ?Hnc, ?Hoc;
      intros E C; try (by destruct C); try (by eexists).
    + rewrite (Hfc i s Hs E) in C. by destruct C.
    + by apply (Hc i j s s').
  - by apply (rotate_next now t old_id id old new).
  - intros i j s s' n [[-> ->]|[[-> ->]|(? & ? & Hs)]]%Hlk [[-> ->]|[[-> ->]|(? & ? & Hs')]]%Hlk;
      cbn [rotated_row s_replaced_by]; rewrite ?Hnn; try done; intros E1 E2; simplify_eq.
    + by apply Hnid' in Hs'.
    + by apply Hnid' in Hs.
    + by apply (Hlin i j s s' n).
Qed.

Lemma table_ok_later (now now' : Z) (t : Sessions) :
  now <= now' -> table_ok now t -> table_ok now' t.
Proof.
  intros Hle [Hk Hr Hh Hf Hl Hc Hn Hlin]. constructor; try done.
  intros i s Hs. destruct (Hr i s Hs). split; [done|lia].
Qed.

Lemma table_ok_init (now : Z) : table_ok now ∅.
Proof. constructor; intros *; by rewrite lookup_empty. Qed.

Lemma session_step_ok (now : Z) (t t' : Sessions) :
  table_ok now t -> session_step now t t' -> table_ok now t'.
Proof.
  intros Hok [row|old_id old id input|p|id reason t'' n Hf|id a|id|gone Hg].
  - by apply step_create_ok.
  - by apply step_rotate_ok with old.
  - by apply revoke_where_ok.
  - by apply step_family_ok in Hf.
  - by apply step_auth_time_ok.
  - by apply step_touch_ok.
  - by apply step_delete_ok.
Qed.

Lemma reachable_ok (now : Z) (t : Sessions) : reachable now t -> table_ok now t.
Proof.
  induction 1 as [now|before now t t' _ IH Hle Hstep]; [apply table_ok_init|].
  by apply (session_step_ok now t), Hstep; apply (table_ok_later before).
Qed.

Lemma insert_row_Ok (d d' : Db) (row s : Session) :
  insert_row d row = Ok (d', s) ->
  s = row /\ d' = set_sessions (insert (s_id row) row) d /\
  t_sessions d !! s_id row = None /\
  (forall i s, t_sessions d !! i = Some s -> s_token_hash s <> s_token_hash row) /\
  s_created_at row < s_expires_at row /\ length (s_token_hash row) = 32%nat.
Proof.
  unfold insert_row, insert_refused. case_cond; [done|]. intros [= <- <-].
  rewrite !orb_false_iff in E. destruct E as [[[[[[E1 E2] E3] E4] _] _] _].
  apply bool_decide_eq_false in E1. apply negb_false_iff in E3, E4.
  apply bool_decide_eq_true in E4. apply Z.ltb_lt in E3.
  split_and!; try done; [by apply eq_None_not_Some|].
  intros i s Hs Heq. apply not_true_iff_false in E2. apply E2, existsb_exists. exists (i, s).
  split; [by apply list_elem_of_In, elem_of_map_to_list|by apply bool_decide_eq_true].
Qed.

Lemma new_row_ok id now input fc sc mfa at_ :
  now < ns_expires_at input -> length (ns_token_hash input) = 32%nat ->
  row_ok (new_row id now input fc sc mfa at_).
Proof.
  intros He Hl. unfold row_ok. cbn. split_and!; try done; try (by intros []); by split; intros [].
Qed.

(** Time passes without a statement. *)
Lemma reachable_later (now now' : Z) (t : Sessions) : reachable now t -> now <= now' -> reachable now' t.
Proof.
  intros Hr Hle. apply (reach_step now now' t); [done..|].
  pose proof (step_revoke now' t (fun _ => false)) as Hs. unfold revoke_where in Hs. cbn in Hs.
  by rewrite map_fmap_id in Hs.
Qed.

(** * What the invariant gives *)


(** A refresh never widens what a session is: every session of a family
    belongs to the same account and client, has the same type, the same start
    (which bounds its lifetime), the same second-factor proof and the same
    remember-me choice; and a rotated session is replaced by one session of its
    own family, no two by the same. *)
Theorem family_is_uniform (now : Z) (t : Sessions) (i j : Uuid) (s s' : Session) :
  reachable now t -> t !! i = Some s -> t !! j = Some s' ->
  (s_family s = s_family s' -> fields_of s = fields_of s') /\
  (forall n, s_replaced_by s = Some n ->
     exists next, t !! n = Some next /\ fields_of next = fields_of s /\
       (s_replaced_by s' = Some n -> i = j)).
Proof.
  intros Hr Hs Hs'. apply reachable_ok in Hr. split; [by apply (ok_family _ _ Hr i j)|].
  intros n En. destruct (ok_next _ _ Hr i s n Hs En) as (next & Hnext & Ef). exists next.
  split_and!; [done|by apply (ok_family _ _ Hr n i)|]. intros En'. by apply (ok_linear _ _ Hr i j s s' n).
Qed.

(** ** A run: a sign-in at time 0, refreshed at time 10 *)

Module Example.

Definition input (h : Z) : NewSession :=
  {| ns_user_id := 7%N; ns_family := 70%N; ns_expires_at := 1000; ns_ip_address := None;
     ns_device_name := None; ns_remember_me := false; ns_token_hash := replicate 32 h;
     ns_user_agent := None; ns_session_type := Web; ns_client_id := None;
     ns_family_created_at := Some 0; ns_scopes := None; ns_mfa := true |}.

Definition first : Session := new_row 1%N 0 (input 1) 0 None true None.
Definition second : Session := rotation_row 2%N 10 first (input 2).

Definition table : Sessions := alter (rotated_row 10 2%N) 1%N (<[2%N := second]> (<[1%N := first]> ∅)).

Lemma row_ok_fresh (id : Uuid) (now h fc : Z) (mfa : bool) :
  now < 1000 -> row_ok (new_row id now (input h) fc None mfa None).
Proof.
  intros Hnow. unfold row_ok. cbn. split_and!; try done; try (by intros []); try (by split; intros []).
Qed.

Lemma table_reachable : reachable 10 table.
Proof.
  eapply (reach_step 0); [|lia|].
  - eapply (reach_step 0); [apply reach_init|lia|].
    apply (step_create 0 ∅ first); try done. by apply row_ok_fresh.
  - apply (step_rotate 10 _ 1%N first 2%N (input 2)); try done.
    + intros i s [[<- <-]|[_ Hs]]%lookup_insert_Some; [done|by rewrite lookup_empty in Hs].
    + by apply row_ok_fresh.
Qed.

End Example.


Lemma family_is_uniform_witness :
  fields_of (rotated_row 10 2%N Example.first) = fields_of Example.second.
Proof.
  exact (proj1 (family_is_uniform 10 Example.table 1%N 2%N _ _ Example.table_reachable
    eq_refl eq_refl) eq_refl).
Defined.
