(* ===== verification/Repos.v ===== *)
(** The repositories the sign-in services use besides sessions: users
    (src/src/repositories/user.rs), login attempts (repositories/
    login_attempt.rs), roles (repositories/role.rs), registered clients
    (repositories/registered_client.rs), second-factor methods (repositories/
    two_factor.rs), known devices (repositories/known_device.rs) and the audit
    log (repositories/audit.rs). *)
From S2P Require Import Prelude Crates Session Account OAuthDomain Tables App.
Import Account.User Account.LoginAttempt Account.Audit Account.TwoFactor Account.Role OAuthDomain.Client.

(** PostgreSQL's [lower], which [citext] compares with too. *)
Class SqlText := {
  sql_lower : str -> str;
  sql_lower_ascii : forall s, is_ascii s = true -> sql_lower s = to_ascii_lowercase s;
}.

#[export] Instance sql_text : SqlText :=
  {| sql_lower := to_ascii_lowercase; sql_lower_ascii := fun _ _ => eq_refl |}.

Definition citext_eqb `{SqlText} (a b : str) : bool := str_eqb (sql_lower a) (sql_lower b).

(** * Audit log *)

Record NewAuditEntry := {
  na_user_id : option Uuid;
  na_request_id : option Uuid;
  na_action : AuditAction;
  na_ip_address : option IpNetwork;
  na_metadata : json;
}.

(** ** Columns of [users] *)

Definition with_updated_at (x : Z) (v : User) : User :=
  {| u_id := u_id v; u_created_at := u_created_at v; u_updated_at := x;
     u_email_verified_at := u_email_verified_at v; u_last_login_at := u_last_login_at v;
     u_locked_until := u_locked_until v; u_status := u_status v;
     u_preferred_locale := u_preferred_locale v; u_username := u_username v; u_email := u_email v;
     u_password_hash := u_password_hash v |}.

Definition with_email_verified_at (x : option Z) (v : User) : User :=
  {| u_id := u_id v; u_created_at := u_created_at v; u_updated_at := u_updated_at v;
     u_email_verified_at := x; u_last_login_at := u_last_login_at v; u_locked_until := u_locked_until v;
     u_status := u_status v; u_preferred_locale := u_preferred_locale v; u_username := u_username v;
     u_email := u_email v; u_password_hash := u_password_hash v |}.

Definition with_last_login_at (x : option Z) (v : User) : User :=
  {| u_id := u_id v; u_created_at := u_created_at v; u_updated_at := u_updated_at v;
     u_email_verified_at := u_email_verified_at v; u_last_login_at := x;
     u_locked_until := u_locked_until v; u_status := u_status v;
     u_preferred_locale := u_preferred_locale v; u_username := u_username v; u_email := u_email v;
     u_password_hash := u_password_hash v |}.

Definition with_locked_until (x : option Z) (v : User) : User :=
  {| u_id := u_id v; u_created_at := u_created_at v; u_updated_at := u_updated_at v;
     u_email_verified_at := u_email_verified_at v; u_last_login_at := u_last_login_at v;
     u_locked_until := x; u_status := u_status v; u_preferred_locale := u_preferred_locale v;
     u_username := u_username v; u_email := u_email v; u_password_hash := u_password_hash v |}.

Definition with_status (x : UserStatus) (v : User) : User :=
  {| u_id := u_id v; u_created_at := u_created_at v; u_updated_at := u_updated_at v;
     u_email_verified_at := u_email_verified_at v; u_last_login_at := u_last_login_at v;
     u_locked_until := u_locked_until v; u_status := x; u_preferred_locale := u_preferred_locale v;
     u_username := u_username v; u_email := u_email v; u_password_hash := u_password_hash v |}.

Definition with_preferred_locale (x : str) (v : User) : User :=
  {| u_id := u_id v; u_created_at := u_created_at v; u_updated_at := u_updated_at v;
     u_email_verified_at := u_email_verified_at v; u_last_login_at := u_last_login_at v;
     u_locked_until := u_locked_until v; u_status := u_status v; u_preferred_locale := x;
     u_username := u_username v; u_email := u_email v; u_password_hash := u_password_hash v |}.

Definition with_username (x : str) (v : User) : User :=
  {| u_id := u_id v; u_created_at := u_created_at v; u_updated_at := u_updated_at v;
     u_email_verified_at := u_email_verified_at v; u_last_login_at := u_last_login_at v;
     u_locked_until := u_locked_until v; u_status := u_status v;
     u_preferred_locale := u_preferred_locale v; u_username := x; u_email := u_email v;
     u_password_hash := u_password_hash v |}.

Definition with_email (x : str) (v : User) : User :=
  {| u_id := u_id v; u_created_at := u_created_at v; u_updated_at := u_updated_at v;
     u_email_verified_at := u_email_verified_at v; u_last_login_at := u_last_login_at v;
     u_locked_until := u_locked_until v; u_status := u_status v;
     u_preferred_locale := u_preferred_locale v; u_username := u_username v; u_email := x;
     u_password_hash := u_password_hash v |}.

Definition with_password_hash (x : str) (v : User) : User :=
  {| u_id := u_id v; u_created_at := u_created_at v; u_updated_at := u_updated_at v;
     u_email_verified_at := u_email_verified_at v; u_last_login_at := u_last_login_at v;
     u_locked_until := u_locked_until v; u_status := u_status v;
     u_preferred_locale := u_preferred_locale v; u_username := u_username v; u_email := u_email v;
     u_password_hash := x |}.

(** An [UPDATE] of a row, which its trigger stamps. *)
Definition update_row (now : Z) (f : User -> User) (r : UserRow) : UserRow :=
  {| ur_user := with_updated_at now (f (ur_user r)); ur_lockout_cleared_at := ur_lockout_cleared_at r |}.

Definition forgive_row (now : Z) (r : UserRow) : UserRow :=
  {| ur_user := ur_user r; ur_lockout_cleared_at := Some now |}.

Section Repos.
Context `{RedisServer} `{Env} `{SqlText} `{IpNetworkCrate}.

Definition audit_row (id : Uuid) (now : Z) (e : NewAuditEntry) : AuditLog :=
  {| al_id := id; al_user_id := na_user_id e; al_request_id := na_request_id e; al_created_at := now;
     al_action := na_action e; al_ip_address := na_ip_address e; al_metadata := na_metadata e |}.

(** The log after an entry; its rows keep their places, and their keys. *)
Definition logged (now : Z) (e : NewAuditEntry) (l : list AuditLog) : list AuditLog :=
  l ++ [audit_row (draw_entry (length l)) now e].

Definition audit_append (e : NewAuditEntry) : M SqlError unit :=
  execute (fun d now => Ok (set_audit_log (logged now e) d, tt)).

(** * Users *)

Definition all_users (d : Db) : list UserRow := map snd (map_to_list (t_users d)).

Definition user_find_by_id (id : Uuid) : M SqlError (option User) :=
  query (fun d _ => ur_user <$> t_users d !! id).

Definition user_find_by_email (email : str) : M SqlError (option User) :=
  query (fun d _ => ur_user <$> List.find (fun r => citext_eqb (u_email (ur_user r)) email) (all_users d)).

Definition user_find_by_username (username : str) : M SqlError (option User) :=
  query (fun d _ => ur_user <$> List.find (fun r => citext_eqb (u_username (ur_user r)) username) (all_users d)).

Definition find_by_identifier (identifier : str) : M SqlError (option User) :=
  if bool_decide (64 ∈ identifier) then user_find_by_email identifier
  else user_find_by_username identifier.

(** A lock is set on an unlocked account only; whether it was. *)
Definition set_locked_until (id : Uuid) (locked_until : Z) : M SqlError bool :=
  execute (fun d now =>
    match t_users d !! id with
    | Some r =>
        if match u_locked_until (ur_user r) with None => true | Some l => l <=? now end
        then Ok (set_users (insert id (update_row now (with_locked_until (Some locked_until)) r)) d, true)
        else Ok (d, false)
    | None => Ok (d, false)
    end).

Definition signed_in_row (now : Z) (r : UserRow) : UserRow :=
  forgive_row now (update_row now (fun v => with_last_login_at (Some now) (with_locked_until None v)) r).

Definition user_record_sign_in (id : Uuid) : M SqlError unit :=
  execute (fun d now => Ok (set_users (alter (signed_in_row now) id) d, tt)).

(** * Login attempts *)

Definition record_attempt (a : Z -> LoginAttempt) : M SqlError unit :=
  execute (fun d now => Ok (add_attempt (a now) d, tt)).

(** [SELECT COUNT( * ) FROM (SELECT 1 ... LIMIT n)] *)
Definition count_limit (p : LoginAttempt -> bool) (n : Z) (d : Db) : Z :=
  Z.min n (Z.of_nat (length (List.filter p (t_login_attempts d)))).

Definition cleared_for (identifier : str) (d : Db) : option Z :=
  List.find (fun r => citext_eqb (u_email (ur_user r)) identifier
                      || citext_eqb (u_username (ur_user r)) identifier) (all_users d)
  ≫= ur_lockout_cleared_at.

(** [GREATEST], which ignores nulls. *)
Definition greatest (l : list (option Z)) (z : Z) : Z := foldr (fun o m => match o with Some x => Z.max x m | None => m end) z l.

Definition count_recent_failures_by_identifier (identifier : str) (cutoff max_count : Z) :
    M SqlError Z :=
  query (fun d _ =>
    count_limit (fun a => citext_eqb (la_attempted_identifier a) identifier
                          && negb (la_was_successful a)
                          && (greatest [cleared_for identifier d] cutoff <? la_attempted_at a))
      max_count d).

Definition count_recent_failures_by_ip (ip : IpNetwork) (cutoff max_count : Z) : M SqlError Z :=
  query (fun d _ =>
    count_limit (fun a => match la_request_ip a with
                          | Some n => net_contains ip (net_ip n)
                          | None => false
                          end && negb (la_was_successful a) && (cutoff <? la_attempted_at a))
      max_count d).

Definition last_success (user_id : Uuid) (d : Db) : option Z :=
  foldr (fun a m =>
    if bool_decide (la_user_id a = Some user_id) && la_was_successful a
    then Some (greatest [m] (la_attempted_at a)) else m) None (t_login_attempts d).

Definition DAY : Z := 86400 * NS.

Definition count_consecutive_failures_by_user (user_id : Uuid) (max_count : Z) : M SqlError Z :=
  query (fun d now =>
    let row := t_users d !! user_id in
    let since := greatest [last_success user_id d; row ≫= ur_lockout_cleared_at;
                           row ≫= fun r => u_locked_until (ur_user r)] (now - DAY) in
    count_limit (fun a => bool_decide (la_user_id a = Some user_id)
                          && negb (la_was_successful a)
                          && bool_decide (la_failure_reason a = Some InvalidPassword)
                          && (since <? la_attempted_at a)) max_count d).

(** * Roles, clients, second factors, devices *)

Definition roles_of (user_id : Uuid) (d : Db) : list Uuid :=
  map ur_role_id (List.filter (fun g => bool_decide (ur_user_id g = user_id)) (t_user_roles d)).

Definition find_rbac_names (user_id : Uuid) : M SqlError (list str * list str) :=
  query (fun d _ =>
    let roles := roles_of user_id d in
    (sort_strs (omap (fun r => ro_name <$> t_roles d !! r) roles),
     dedup (sort_strs (map snd (List.filter (fun p => bool_decide (p.1 ∈ roles))
                                  (t_role_permissions d)))))).

Definition client_find_by_id (client_id : str) : M SqlError (option RegisteredClient) :=
  query (fun d _ => List.find (fun c => str_eqb (c_client_id c) client_id) (t_clients d)).

Definition find_primary_by_user (user_id : Uuid) : M SqlError (option TwoFactorMethod) :=
  query (fun d _ => List.find (fun m => bool_decide (tf_user_id m = user_id) && tf_is_primary m)
                      (t_methods d)).

(** Whether the device is new to an account that already knew others. *)
Definition known_device_record (user_id : Uuid) (fingerprint : bytes) : M SqlError bool :=
  execute (fun d _ =>
    let devices := List.filter (fun k => bool_decide (k.1 = user_id)) (t_known_devices d) in
    let inserted := negb (bool_decide ((user_id, fingerprint) ∈ t_known_devices d)) in
    Ok (add_device (user_id, fingerprint) d,
        inserted && negb (bool_decide (devices = [])))).
End Repos.

(** What does not look at the audit log does not see an entry. *)
Lemma keeps_audit_append `{RedisServer} `{Env} {R : World -> World -> Prop} (rs : list table) `{!CoreFrame R, !Reads R rs} e :
  Forall (fun t => t <> TAuditLog) rs -> keeps R (audit_append e).
Proof.
  intros Hrs. apply (keeps_reads rs). intros d t d' a [= <- _] tb Htb.
  rewrite Forall_forall in Hrs. specialize (Hrs tb Htb). by destruct tb.
Qed.

#[export] Hint Extern 1 (keeps _ (audit_append _)) =>
  eapply keeps_audit_append; [apply _..|]; repeat constructor; discriminate : frame.
