(* ===== verification/Tokens.v ===== *)
(** Issuing and revoking tokens (src/src/services/auth/tokens.rs): the session
    and access token of a completed sign-in, the blocklists, the validity check
    every authenticated request makes, and the revocation of a family. *)
From S2P Require Import Prelude Crates Codec Session Account OAuthDomain Tables App RedisCounter SessionRepo Repos.
Import Account.User Account.LoginAttempt Account.Audit OAuthDomain.Client.

Definition JTI_BLOCKLIST_PREFIX : str := u"jti_block:".
Definition SESSION_CACHE_PREFIX : str := u"sess_valid:".
Definition SESSION_CACHE_TTL_SECS : Z := 5.
Definition RT_BLOCKLIST_PREFIX : str := u"rt_block:".

(** Access token claims (src/src/utils/jwt.rs). *)
Record Claims := {
  cl_sub : Uuid;
  cl_sid : Uuid;
  cl_jti : Uuid;
  cl_exp : Z;
  cl_iat : Z;
  cl_nbf : option Z;
  cl_iss : option str;
  cl_aud : list str;
  cl_roles : list str;
  cl_permissions : list str;
  cl_client_id : option str;
  cl_sub_type : option str;
  cl_session_type : option str;
}.

(** Signing a token: [jsonwebtoken::encode] with the service's key. *)
Class Jwt := { encode_token : Claims -> option str }.

(** An instance to run the model with: the claims between two dots and nothing. *)
#[export] Instance codec_claims : Codec Claims.
Proof.
  refine (codec_iso
    (fun c => ((cl_sub c, cl_sid c, cl_jti c, cl_exp c, cl_iat c, cl_nbf c, cl_iss c, cl_aud c, cl_roles c),
               (cl_permissions c, cl_client_id c, cl_sub_type c, cl_session_type c)))
    (fun '((sub, sid, jti, exp, iat, nbf, iss, aud, roles), (permissions, client_id, sub_type, session_type)) =>
       Some {| cl_sub := sub; cl_sid := sid; cl_jti := jti; cl_exp := exp; cl_iat := iat; cl_nbf := nbf;
               cl_iss := iss; cl_aud := aud; cl_roles := roles; cl_permissions := permissions;
               cl_client_id := client_id; cl_sub_type := sub_type; cl_session_type := session_type |}) _).
  by intros [].
Defined.

#[export] Instance toy_jwt : Jwt := {| encode_token := fun c => Some (u"jwt." ++ encode c ++ u".") |}.

Record AuthTokens := {
  at_access_token : str;
  at_refresh_token : str;
  at_session : Session;
}.

Record SignIn := {
  si_identifier : option str;
  si_request_id : option Uuid;
  si_audit_metadata : json;
  si_second_factor : bool;
}.

Section Tokens.
Context `{RedisServer} `{Env} `{TimeCrate} `{CryptoCrates} `{SqlText} `{IpNetworkCrate} `{Jwt}.

(** [.map_err(|e| AppError::Internal(e.into()))] *)
Definition internal {A} (m : M SqlError A) : M AppError A := map_err (fun _ => Internal) m.

Definition hash_token (raw : str) : bytes := sha256 (as_bytes raw).

(** ** Access tokens *)

Definition new_claims (user_id session_id : Uuid) (issued_at exp : Z) : M AppError Claims :=
  jti ← new_v4;
  mret {| cl_sub := user_id; cl_sid := session_id; cl_jti := jti; cl_exp := exp;
          cl_iat := issued_at; cl_nbf := Some issued_at; cl_iss := None; cl_aud := [];
          cl_roles := []; cl_permissions := []; cl_client_id := None;
          cl_sub_type := Some u"user"; cl_session_type := None |}.

(** The roles and permissions of a token: what the account holds, restricted to
    the consent narrowed to what the client may ask for now; roles never go to
    a third-party client. *)
Definition token_rbac (roles permissions : list str) (scopes : option (list str))
    (client : option RegisteredClient) : list str * list str :=
  let narrowed := OAuth.within_client_scopes scopes (c_scopes <$> client) in
  let '(roles, permissions) := restrict_to_consent roles permissions narrowed in
  ((if match client with Some c => negb (c_is_primary c) | None => false end then [] else roles),
   permissions).

Definition build_access_token (user_id session_id : Uuid) (scopes : option (list str))
    (client_id : option str) (session_type : SessionType) : M AppError str :=
  issued_at ← clock_now;
  let exp := unix_timestamp (saturating_add issued_at
               (seconds (i64_or_max (access_expiry_secs (cfg_jwt config))))) in
  rbac ← internal (find_rbac_names user_id);
  client ← match client_id with
           | Some client_id => internal (client_find_by_id client_id)
           | None => mret None
           end;
  let '(role_names, permission_names) := token_rbac rbac.1 rbac.2 scopes client in
  claims ← new_claims user_id session_id (unix_timestamp issued_at) exp;
  ok_or (encode_token
    {| cl_sub := cl_sub claims; cl_sid := cl_sid claims; cl_jti := cl_jti claims;
       cl_exp := cl_exp claims; cl_iat := cl_iat claims; cl_nbf := cl_nbf claims;
       cl_iss := Some (cfg_public_url config); cl_aud := audience (cfg_jwt config);
       cl_roles := role_names; cl_permissions := permission_names;
       cl_client_id := client_id; cl_sub_type := cl_sub_type claims;
       cl_session_type := Some (session_type_str session_type) |}) Internal.

(** ** Sessions *)

(** Mail the owner about a new device; a failed lookup sends nothing. *)
Definition alert_new_device (user_id : Uuid) : M AppError unit :=
  found ← attempt (user_find_by_id user_id);
  match found with
  | Ok (Some user) => tell (add_mail {| m_kind := NewDeviceLoginMail; m_to := u_email user |})
  | _ => mret tt
  end.

(** The sign-in records of a session, within its transaction; whether the owner
    is to be alerted. *)
Definition record_sign_in (user_id : Uuid) (ip : option IpNetwork) (user_agent : option str)
    (sign_in : SignIn) : M AppError bool :=
  let family := KnownDevice.device_family user_agent in
  unknown ← internal (known_device_record user_id (KnownDevice.fingerprint family));
  let alert := unknown && new_device_alerts (cfg_security config) in
  _ ← (if alert then
         internal (audit_append {| na_user_id := Some user_id; na_request_id := si_request_id sign_in;
           na_action := NewDeviceLogin; na_ip_address := ip;
           na_metadata := JObj [(u"device", JStr (KnownDevice.describe family))] |})
       else mret tt);
  _ ← internal (user_record_sign_in user_id);
  _ ← match si_identifier sign_in with
      | Some identifier =>
          internal (record_attempt (fun now =>
            {| la_user_id := Some user_id; la_attempted_at := now;
               la_attempted_identifier := identifier; la_was_successful := true;
               la_failure_reason := None; la_request_ip := ip; la_request_user_agent := None |}))
      | None => mret tt
      end;
  _ ← internal (audit_append {| na_user_id := Some user_id; na_request_id := si_request_id sign_in;
        na_action := Login; na_ip_address := ip; na_metadata := si_audit_metadata sign_in |});
  mret alert.

(** The transaction of a sign-in: the session, then its records. *)
Definition open_session (user_id : Uuid) (ip : option IpNetwork) (user_agent device_name : option str)
    (remember_me : bool) (session_type : SessionType) (client_id : option str)
    (scopes : option (list str)) (sign_in : option SignIn) (token_hash : bytes) (expires_at : Z)
    (mfa : bool) : M AppError (Session * bool) :=
  family ← new_v4;
  session ← internal (create
    {| ns_user_id := user_id; ns_family := family; ns_expires_at := expires_at;
       ns_ip_address := ip; ns_device_name := device_name; ns_remember_me := remember_me;
       ns_token_hash := token_hash; ns_user_agent := user_agent;
       ns_session_type := session_type; ns_client_id := client_id;
       ns_family_created_at := None; ns_scopes := scopes; ns_mfa := mfa |});
  new_device ← match sign_in with
               | Some si => record_sign_in user_id ip user_agent si
               | None => mret false
               end;
  mret (session, new_device).

Definition issue_tokens (user_id : Uuid) (ip : option IpNetwork) (user_agent device_name : option str)
    (remember_me : bool) (session_type : SessionType) (client_id : option str)
    (scopes : option (list str)) (sign_in : option SignIn) : M AppError AuthTokens :=
  raw_token ← generate_token;
  let token_hash := hash_token raw_token in
  now ← clock_now;
  let expires_at := capped_expiry now (session_ttl_secs (cfg_jwt config) remember_me) now
                      (max_session_lifetime_secs (cfg_jwt config)) in
  let device_name := device_name ≫= device_label in
  let mfa := match sign_in with Some si => si_second_factor si | None => false end in
  created ← transaction Internal (open_session user_id ip user_agent device_name remember_me
              session_type client_id scopes sign_in token_hash expires_at mfa);
  let '(session, new_device) := created : Session * bool in
  _ ← (if new_device then alert_new_device user_id else mret tt);
  access_token ← build_access_token user_id (s_id session) scopes (s_client_id session)
                   (s_session_type session);
  mret {| at_access_token := access_token; at_refresh_token := raw_token; at_session := session |}.

(** ** Blocklists *)

Definition rt_hash_key (token_hash : bytes) : str := b64url token_hash.

Definition rt_block_key (token_hash : bytes) : str := RT_BLOCKLIST_PREFIX ++ rt_hash_key token_hash.
Definition jti_block_key (jti : Uuid) : str := JTI_BLOCKLIST_PREFIX ++ uuid_str jti.
Definition session_cache_key (id : Uuid) : str := SESSION_CACHE_PREFIX ++ uuid_str id.

(** Best effort: [if let Ok(conn) = ... { let _ = command }]. *)
Definition best_effort {E} (cmd : rstore -> Z -> rstore) : M E unit :=
  conn ← attempt redis_conn;
  match conn with
  | Err _ => mret tt
  | Ok _ => _ ← attempt (redis_cmd (fun s t => (cmd s t, tt))); mret tt
  end.

Definition blocklist_refresh_token (token_hash : bytes) (session_expires_at : Z) : M AppError unit :=
  now ← clock_now;
  let ttl := whole_seconds (session_expires_at - now) in
  if ttl <=? 0 then mret tt
  else best_effort (fun s t => r_set_ex s t (rt_block_key token_hash) (RInt 1) ttl).

Definition is_refresh_token_blocked (token_hash : bytes) : M AppError bool :=
  _ ← map_err (fun _ => ServiceUnavailable u"redis_unavailable") redis_conn;
  map_err (fun _ => ServiceUnavailable u"redis_query_failed")
    (redis_cmd (fun s t => (s, r_exists s t (rt_block_key token_hash)))).

Definition blocklist_jti (jti : Uuid) (token_exp : Z) : M AppError unit :=
  now ← clock_now;
  let ttl := token_exp - unix_timestamp now in
  if ttl <=? 0 then mret tt
  else best_effort (fun s t => r_set_ex s t (jti_block_key jti) (RInt 1) ttl).

Definition is_jti_blocked (jti : Uuid) : M AppError bool :=
  _ ← map_err (fun _ => ServiceUnavailable u"redis_unavailable") redis_conn;
  map_err (fun _ => ServiceUnavailable u"redis_query_failed")
    (redis_cmd (fun s t => (s, r_exists s t (jti_block_key jti)))).

(** ** The check of every authenticated request *)

(** The cached value as the [Option<u8>] the pipeline decodes; the key holds
    nothing else. *)
Definition cached_of (s : rstore) (t : Z) (key : str) : option Z :=
  match r_get s t key with Some (RInt n) => Some n | _ => None end.

Definition verify_token_state (jti session_id : Uuid) : M AppError bool :=
  let blocklist_key := jti_block_key jti in
  let cache_key := session_cache_key session_id in
  _ ← map_err (fun _ => ServiceUnavailable u"redis_unavailable") redis_conn;
  reply ← map_err (fun _ => ServiceUnavailable u"redis_query_failed")
            (redis_cmd (fun s t => (s, (r_exists s t blocklist_key, cached_of s t cache_key))));
  state ← match token_state reply.1 reply.2 with
          | Revoked => fail TokenInvalid
          | Active first_party => mret (true, first_party)
          | Ended => mret (false, false)
          | Unknown =>
              found ← internal (find_validation_by_id session_id);
              session ← ok_or found Unauthorized;
              now ← clock_now;
              let active := sv_is_active session now in
              let fp := first_party session in
              _ ← attempt (redis_cmd (fun s t =>
                    r_set_nx_ex s t cache_key (RInt (cached_value active fp))
                      SESSION_CACHE_TTL_SECS));
              mret (active, fp)
          end;
  if (state : bool * bool).1 then mret state.2 else fail Unauthorized.

Definition invalidate_session_caches (session_ids : list Uuid) : M AppError unit :=
  if bool_decide (session_ids = []) then mret tt
  else best_effort (fun s t =>
    foldl (fun s id => r_set_ex s t (session_cache_key id) (RInt CACHED_ENDED)
                         SESSION_CACHE_TTL_SECS) s session_ids).

Definition invalidate_session_cache (session_id : Uuid) : M AppError unit :=
  invalidate_session_caches [session_id].

(** [services::auth::revoke_family] *)
Definition revoke_family (session_id : Uuid) : M AppError unit :=
  _ ← internal (SessionRepo.revoke_family session_id);
  family ← internal (family_session_ids session_id);
  invalidate_session_caches family.
End Tokens.

#[global] Arguments session_cache_key {_} _ : simpl never.
#[global] Arguments jti_block_key {_} _ : simpl never.
#[global] Arguments rt_block_key {_} _ : simpl never.
