(* ===== verification/UserRepo.v ===== *)
(** The account repository (src/src/repositories/user.rs) beyond what sign-in
    uses, with the constraints of src/migrations/0002_users.sql; the role
    statements of src/src/repositories/role.rs; and the recording of events
    (repositories/webhook.rs [record_event], services/events.rs [enqueue]). *)
From S2P Require Import Prelude Crates Session Account OAuthDomain Network Edge Crypto Tables App Repos Tokens.
Import Account.User Account.LoginAttempt Account.Audit Account.TwoFactor Account.Token Account.Role OAuthDomain.Client OAuthDomain.Pat.

(** * Constraints of [users] *)

(** [^[a-zA-Z0-9_]{3,50}$] *)
Definition username_format (username : str) : bool :=
  bytes_all (fun b => is_ascii_alphanumeric b || (b =? 95)) username
  && (3 <=? char_count username) && (char_count username <=? 50).

(** [^[a-z]{2}(_[A-Z]{2})?$] *)
Definition locale_format (locale : str) : bool :=
  match locale with
  | [a; b] => is_ascii_lowercase a && is_ascii_lowercase b
  | [a; b; c; x; y] =>
      is_ascii_lowercase a && is_ascii_lowercase b && (c =? 95)
      && is_ascii_uppercase x && is_ascii_uppercase y
  | _ => false
  end.

(** The [CHECK]s of a row. *)
Definition user_checks (v : User) : bool :=
  username_format (u_username v) && locale_format (u_preferred_locale v) && email_format (u_email v)
  && (40 <=? char_count (u_password_hash v))
  && Bool.eqb (bool_decide (u_status v = PendingVerification)) (bool_decide (u_email_verified_at v = None)).

Section Constraints.
Context `{SqlText}.

Definition another (id : Uuid) (p : User -> bool) (d : Db) : bool :=
  existsb (fun r => negb (bool_decide (u_id (ur_user r) = id)) && p (ur_user r)) (all_users d).

Definition USERS_EMAIL_KEY : str := u"users_email_key".
Definition USERS_USERNAME_KEY : str := u"users_username_lower_key".

(** What PostgreSQL answers to a row it refuses: the checks come first, then
    the unique indexes in the order they were made. *)
Definition user_refused (v : User) (d : Db) : option SqlError :=
  if negb (user_checks v) then Some SqlFailed
  else if another (u_id v) (fun o => citext_eqb (u_email o) (u_email v)) d
  then Some (UniqueViolation USERS_EMAIL_KEY)
  else if another (u_id v) (fun o => citext_eqb (u_username o) (u_username v)) d
  then Some (UniqueViolation USERS_USERNAME_KEY)
  else None.

Definition put_user (r : UserRow) (d : Db) : result Db SqlError :=
  match user_refused (ur_user r) d with
  | Some e => Err e
  | None => Ok (set_users (insert (u_id (ur_user r)) r) d)
  end.

(** [UPDATE users ... WHERE id = $1 AND p]: the new tables, and whether the row
    was there. *)
Definition update_user (id : Uuid) (p : User -> bool) (f : UserRow -> UserRow) (d : Db) :
    result (Db * bool) SqlError :=
  match t_users d !! id with
  | Some r =>
      if p (ur_user r)
      then match put_user (f r) d with Ok d' => Ok (d', true) | Err e => Err e end
      else Ok (d, false)
  | None => Ok (d, false)
  end.

Definition anyone (_ : User) : bool := true.
Definition pending (v : User) : bool := bool_decide (u_status v = PendingVerification).

Definition ignore_count (r : result (Db * bool) SqlError) : result (Db * unit) SqlError :=
  match r with Ok (d, _) => Ok (d, tt) | Err e => Err e end.
End Constraints.

(** * Users *)

Record NewUser := {
  nu_username : str;
  nu_email : str;
  nu_password_hash : str;
  nu_preferred_locale : str;
}.

Section UserRepo.
Context `{RedisServer} `{Env} `{SqlText}.

Definition new_user_row (id : Uuid) (now : Z) (input : NewUser) : UserRow :=
  {| ur_user := {| u_id := id; u_created_at := now; u_updated_at := now; u_email_verified_at := None;
                   u_last_login_at := None; u_locked_until := None; u_status := PendingVerification;
                   u_preferred_locale := nu_preferred_locale input; u_username := nu_username input;
                   u_email := nu_email input; u_password_hash := nu_password_hash input |};
     ur_lockout_cleared_at := None |}.

Definition user_create (input : NewUser) : M SqlError User :=
  id ← new_v4;
  execute (fun d now =>
    let row := new_user_row id now input in
    if bool_decide (is_Some (t_users d !! id)) then Err (UniqueViolation u"users_pkey")
    else match put_user row d with Ok d' => Ok (d', ur_user row) | Err e => Err e end).

Definition update_password_hash (id : Uuid) (password_hash : str) : M SqlError unit :=
  execute (fun d now =>
    ignore_count (update_user id anyone (update_row now (with_password_hash password_hash)) d)).

Definition update_username (id : Uuid) (username : str) : M SqlError unit :=
  execute (fun d now => ignore_count (update_user id anyone (update_row now (with_username username)) d)).

Definition update_locale (id : Uuid) (locale : str) : M SqlError unit :=
  execute (fun d now =>
    ignore_count (update_user id anyone (update_row now (with_preferred_locale locale)) d)).

Definition email_taken (email : str) (except : Uuid) : M SqlError bool :=
  query (fun d _ => another except (fun o => citext_eqb (u_email o) email) d).

Definition change_email (id : Uuid) (email : str) : M SqlError unit :=
  execute (fun d now =>
    ignore_count (update_user id anyone
      (update_row now (fun v => with_email email (with_email_verified_at (Some now) v))) d)).

Definition mark_email_verified (id : Uuid) : M SqlError unit :=
  execute (fun d now =>
    ignore_count (update_user id anyone
      (update_row now (fun v => with_email_verified_at (Some now)
         (with_status (if pending v then ActiveUser else u_status v) v))) d)).

(** The credentials of the link that activates a pending account; a name
    someone else took meanwhile is left. *)
Definition adopt_pending_credentials (id : Uuid) (credentials : PendingCredentials) : M SqlError unit :=
  execute (fun d now =>
    ignore_count (update_user id pending
      (update_row now (fun v =>
         with_password_hash (pc_password_hash credentials)
           (with_preferred_locale (pc_preferred_locale credentials)
             (with_username
               (if another (u_id v) (fun o => citext_eqb (u_username o) (pc_username credentials)) d
                then u_username v else pc_username credentials) v)))) d)).

Definition verify_if_pending (id : Uuid) : M SqlError bool :=
  execute (fun d now =>
    update_user id pending
      (update_row now (fun v => with_email_verified_at (Some now) (with_status ActiveUser v))) d).

Definition clear_lockout (id : Uuid) : M SqlError unit :=
  execute (fun d now =>
    ignore_count (update_user id anyone
      (fun r => forgive_row now (update_row now (with_locked_until None) r)) d)).

Definition one_of (l : list UserStatus) (v : User) : bool := bool_decide (u_status v ∈ l).

Definition suspend (id : Uuid) : M SqlError bool :=
  execute (fun d now =>
    update_user id (one_of [ActiveUser; Inactive]) (update_row now (with_status Suspended)) d).

Definition reactivate (id : Uuid) : M SqlError bool :=
  execute (fun d now =>
    update_user id (one_of [Suspended; Inactive]) (update_row now (with_status ActiveUser)) d).

(** [SELECT 1 ... FOR UPDATE] *)
Definition lock_row (id : Uuid) : M SqlError unit := query (fun _ _ => tt).

(** ** User names *)

Definition username_unavailable (username : str) : M SqlError bool :=
  query (fun d now =>
    existsb (fun r => citext_eqb (u_username (ur_user r)) username) (all_users d)
    || existsb (fun x => citext_eqb (un_username x) username && (now <? un_expires_at x))
         (l_reservations (t_links d))).

(** One reservation per account: the new one replaces it, unless the name is
    reserved for someone else. *)
Definition reserve_username (username : str) (account : Uuid) (expires_at : Z) : M SqlError unit :=
  transaction SqlFailed (
    _ ← execute (fun d _ =>
          Ok (set_reservations (List.filter (fun x => negb (bool_decide (un_reserved_for x = account)))) d,
              tt));
    execute (fun d _ =>
      if negb (username_format username) || bool_decide (t_users d !! account = None) then Err SqlFailed
      else if existsb (fun x => citext_eqb (un_username x) username) (l_reservations (t_links d))
      then Ok (d, tt)
      else Ok (set_reservations (fun l => l ++
                 [{| un_username := username; un_expires_at := expires_at;
                     un_reserved_for := account |}]) d, tt))).

(** The latest unused link that carries a registration's identity. *)
Definition latest_registration (id : Uuid) (d : Db) : option (str * str) :=
  v ← foldl (fun best v =>
        if bool_decide (ev_user_id v = id) && bool_decide (is_Some (ev_username v))
           && bool_decide (ev_used_at v = None)
        then match best with
             | Some b => if ev_created_at b <=? ev_created_at v then Some v else best
             | None => Some v
             end
        else best) None (t_verifications d);
  username ← ev_username v;
  locale ← ev_preferred_locale v;
  Some (username, locale).

Definition adopt_latest_registration_identity (id : Uuid) : M SqlError unit :=
  execute (fun d now =>
    match latest_registration id d with
    | Some (username, locale) =>
        if another id (fun o => citext_eqb (u_username o) username) d then Ok (d, tt)
        else ignore_count (update_user id pending
               (update_row now (fun v => with_username username (with_preferred_locale locale v))) d)
    | None => Ok (d, tt)
    end).

(** ** Ways into an account *)

Definition is_own {A} (owner : A -> Uuid) (id : Uuid) (x : A) : bool := bool_decide (owner x = id).

Definition without {A} (p : A -> bool) (l : list A) : list A := List.filter (fun x => negb (p x)) l.

Definition has_second_factor (id : Uuid) : M SqlError bool :=
  query (fun d _ =>
    existsb (fun m => is_own tf_user_id id m && tf_is_verified m) (t_methods d)
    || existsb (is_own pk_user_id id) (a_passkeys (t_access d))).

Definition drop_access_factors (id : Uuid) : M SqlError unit :=
  execute (fun d _ =>
    Ok (set_methods (without (is_own tf_user_id id))
          (set_recovery_codes (without (is_own rc_user_id id))
            (set_passkeys (without (is_own pk_user_id id))
              (set_identities (without (is_own xi_user_id id))
                (set_tokens (without (fun t => is_own pat_user_id id t.2)) d)))), tt)).

(** The oldest by [ORDER BY created_at LIMIT 1]. *)
Definition oldest {A} (created : A -> Z) (l : list A) : option A :=
  foldl (fun best x => match best with
                       | Some b => if created x <? created b then Some x else best
                       | None => Some x
                       end) None l.

(** The factor an administrator keeps: the oldest of the recent ones, when
    every verified factor is recent.  [inl] a method, [inr] a passkey. *)
Definition kept_factor (id : Uuid) (since : Z) (d : Db) : option (Uuid + Uuid) :=
  let methods := List.filter (fun m => is_own tf_user_id id m && tf_is_verified m) (t_methods d) in
  let keys := List.filter (is_own pk_user_id id) (a_passkeys (t_access d)) in
  if existsb (fun m => tf_created_at m <=? since) methods
     || existsb (fun k => pk_created_at k <=? since) keys then None
  else fst <$> oldest snd
         (map (fun m => (inl (tf_id m), tf_created_at m))
            (List.filter (fun m => since <? tf_created_at m) methods)
          ++ map (fun k => (inr (pk_id k), pk_created_at k))
            (List.filter (fun k => since <? pk_created_at k) keys)).

Definition two_factor_str (t : TwoFactorType) : str :=
  match t with TwoFactor.Totp => u"totp" | TwoFactor.Email => u"email" end.

(** [DELETE ... RETURNING]: the rows that stay, and what is told of the others. *)
Definition delete_returning {A B} (p : A -> bool) (f : A -> B) (l : list A) : list A * list B :=
  (without p l, map f (List.filter p l)).

Definition primary_row (now : Z) (m : TwoFactorMethod) : TwoFactorMethod :=
  {| tf_id := tf_id m; tf_user_id := tf_user_id m; tf_last_used_at := tf_last_used_at m;
     tf_created_at := tf_created_at m; tf_updated_at := now; tf_method_type := tf_method_type m;
     tf_is_primary := true; tf_is_verified := tf_is_verified m; tf_totp_secret := tf_totp_secret m |}.

(** The oldest verified method becomes primary when none is. *)
Definition promote_oldest (now : Z) (id : Uuid) (l : list TwoFactorMethod) : list TwoFactorMethod :=
  if existsb (fun m => is_own tf_user_id id m && tf_is_primary m) l then l
  else match oldest tf_created_at (List.filter (fun m => is_own tf_user_id id m && tf_is_verified m) l) with
  | Some o => map (fun m => if bool_decide (tf_id m = tf_id o) then primary_row now m else m) l
  | None => l
  end.

Definition drop_access_factors_since (id : Uuid) (since : Z) (keep_a_second_factor : bool) :
    M SqlError (list (str * str)) :=
  kept ← (if keep_a_second_factor then query (fun d _ => kept_factor id since d) else mret None);
  methods ← execute (fun d _ =>
    let '(rest, gone) := delete_returning
      (fun m => is_own tf_user_id id m && (since <? tf_created_at m)
                && negb (bool_decide (kept = Some (inl (tf_id m)))))
      (fun m => (two_factor_str (tf_method_type m), [])) (t_methods d) in
    Ok (set_methods (fun _ => rest) d, gone));
  keys ← execute (fun d _ =>
    let '(rest, gone) := delete_returning
      (fun k => is_own pk_user_id id k && (since <? pk_created_at k)
                && negb (bool_decide (kept = Some (inr (pk_id k)))))
      (fun k => (u"passkey", pk_name k)) (a_passkeys (t_access d)) in
    Ok (set_passkeys (fun _ => rest) d, gone));
  identities ← execute (fun d _ =>
    let '(rest, gone) := delete_returning
      (fun x => is_own xi_user_id id x && (since <? xi_created_at x))
      (fun x => (u"identity", xi_provider x)) (a_identities (t_access d)) in
    Ok (set_identities (fun _ => rest) d, gone));
  _ ← execute (fun d now => Ok (set_methods (promote_oldest now id) d, tt));
  _ ← execute (fun d _ =>
        if existsb (fun m => is_own tf_user_id id m && tf_is_verified m) (t_methods d) then Ok (d, tt)
        else Ok (set_recovery_codes (without (is_own rc_user_id id)) d, tt));
  mret (methods ++ keys ++ identities).
End UserRepo.

(** * Deleting an account *)

Section Erase.
Context `{RedisServer} `{Env} `{SqlText}.

Definition orphan_audit (id : Uuid) (a : AuditLog) : AuditLog :=
  if bool_decide (al_user_id a = Some id)
  then {| al_id := al_id a; al_user_id := None; al_request_id := al_request_id a; al_created_at := al_created_at a;
          al_action := al_action a; al_ip_address := al_ip_address a; al_metadata := al_metadata a |}
  else a.

Definition orphan_attempt (id : Uuid) (a : LoginAttempt) : LoginAttempt :=
  if bool_decide (la_user_id a = Some id)
  then {| la_user_id := None; la_attempted_at := la_attempted_at a;
          la_attempted_identifier := la_attempted_identifier a; la_was_successful := la_was_successful a;
          la_failure_reason := la_failure_reason a; la_request_ip := la_request_ip a;
          la_request_user_agent := la_request_user_agent a |}
  else a.

Definition orphan_grant (id : Uuid) (g : UserRole) : UserRole :=
  if bool_decide (ur_granted_by g = Some id)
  then {| ur_user_id := ur_user_id g; ur_role_id := ur_role_id g; ur_granted_by := None;
          ur_granted_at := ur_granted_at g |}
  else g.

(** [DELETE FROM users WHERE id = $1], with what its foreign keys do. *)
Definition delete_user_row (id : Uuid) (d : Db) : Db :=
  {| t_sessions := filter (fun p => s_user_id p.2 <> id) (t_sessions d);
     t_users := delete id (t_users d);
     t_login_attempts := map (orphan_attempt id) (t_login_attempts d);
     t_audit_log := map (orphan_audit id) (t_audit_log d);
     t_clients := t_clients d;
     t_methods := without (is_own tf_user_id id) (t_methods d);
     t_user_roles := map (orphan_grant id) (without (is_own ur_user_id id) (t_user_roles d));
     t_roles := t_roles d;
     t_role_permissions := t_role_permissions d;
     t_permissions := t_permissions d;
     t_known_devices := without (is_own fst id) (t_known_devices d);
     t_email_codes := without (is_own ec_user_id id) (t_email_codes d);
     t_verifications := without (is_own ev_user_id id) (t_verifications d);
     t_recovery_codes := without (is_own rc_user_id id) (t_recovery_codes d);
     t_used_totp := without (is_own (fun x => x.1.1) id) (t_used_totp d);
     t_links :=
       {| l_resets := without (is_own pr_user_id id) (l_resets (t_links d));
          l_magic_links := without (is_own ml_user_id id) (l_magic_links (t_links d));
          l_reservations := without (is_own un_reserved_for id) (l_reservations (t_links d)) |};
     t_access :=
       {| a_passkeys := without (is_own pk_user_id id) (a_passkeys (t_access d));
          a_identities := without (is_own xi_user_id id) (a_identities (t_access d));
          a_tokens := without (fun t => is_own pat_user_id id t.2) (a_tokens (t_access d)) |};
     t_events := t_events d;
     t_grants :=
       {| g_codes := without (is_own ac_user_id id) (g_codes (t_grants d));
          g_quotas := without (is_own q_user_id id) (g_quotas (t_grants d)) |} |}.

Definition user_delete (id : Uuid) : M SqlError unit :=
  execute (fun d _ => Ok (delete_user_row id d, tt)).

Definition forget_address (id : Uuid) (a : AuditLog) : AuditLog :=
  if bool_decide (al_user_id a = Some id)
  then {| al_id := al_id a; al_user_id := al_user_id a; al_request_id := al_request_id a; al_created_at := al_created_at a;
          al_action := al_action a; al_ip_address := None; al_metadata := al_metadata a |}
  else a.

(** [forget_account_traces] of migrations/0012_personal_data.sql. *)
Definition trace_of (v : User) (a : LoginAttempt) : bool :=
  bool_decide (la_user_id a = Some (u_id v))
  || negb (la_was_successful a)
     && (citext_eqb (la_attempted_identifier a) (u_email v)
         || citext_eqb (la_attempted_identifier a) (u_username v)).

Definition erase (id : Uuid) : M SqlError unit :=
  execute (fun d _ =>
    match t_users d !! id with
    | None => Err SqlFailed
    | Some r =>
        Ok (delete_user_row id
              (set_login_attempts (without (trace_of (ur_user r)))
                (set_audit_log (map (forget_address id)) d)), tt)
    end).
End Erase.

(** * Roles *)

Section RoleRepo.
Context `{RedisServer} `{Env}.

Definition all_roles (d : Db) : list Role := map snd (map_to_list (t_roles d)).

Definition find_default : M SqlError (option Role) := query (fun d _ => List.find ro_is_default (all_roles d)).

Definition holds_role_in (user_id role_id : Uuid) (d : Db) : bool :=
  existsb (fun g => bool_decide (ur_user_id g = user_id) && bool_decide (ur_role_id g = role_id))
    (t_user_roles d).

(** A role already held answers no row, which [fetch_one] makes an error. *)
Definition assign_to_user (user_id role_id : Uuid) (granted_by : option Uuid) : M SqlError UserRole :=
  execute (fun d now =>
    if bool_decide (t_users d !! user_id = None) || bool_decide (t_roles d !! role_id = None)
    then Err SqlFailed
    else if holds_role_in user_id role_id d then Err RowNotFound
    else
      let row := {| ur_user_id := user_id; ur_role_id := role_id; ur_granted_by := granted_by;
                    ur_granted_at := now |} in
      Ok (set_user_roles (fun l => l ++ [row]) d, row)).

(** The permissions of an account, through its roles. *)
Definition permits (user_id : Uuid) (p : str -> bool) (d : Db) : bool :=
  existsb (fun g => bool_decide (ur_user_id g = user_id)
                    && existsb (fun q => bool_decide (q.1 = ur_role_id g) && p q.2) (t_role_permissions d))
    (t_user_roles d).

Definition user_has_permission (user_id : Uuid) (permission_name : str) : M SqlError bool :=
  query (fun d _ => permits user_id (str_eqb permission_name) d).

Definition holds_administration (user_id : Uuid) : M SqlError bool :=
  query (fun d _ => permits user_id is_admin_permission d).

Definition held_in (permission : str) (d : Db) : bool :=
  existsb (fun r => user_is_active (ur_user r) && permits (u_id (ur_user r)) (str_eqb permission) d)
    (all_users d).

Definition permission_held (permission : str) : M SqlError bool := query (fun d _ => held_in permission d).

(** [keep_an_administrator] of services/admin/roles.rs: an advisory lock, then
    the check. *)
Definition keep_an_administrator : M AppError unit :=
  _ ← internal (query (fun _ _ => tt));
  held ← internal (permission_held ROLES_MANAGE);
  if held : bool then mret tt else fail (Conflict u"last_administrator").

(** [keep_a_second_factor_for_administrators] of services/user.rs. *)
Definition keep_a_second_factor_for_administrators (user_id : Uuid) : M AppError unit :=
  administrator ← internal (holds_administration user_id);
  if administrator : bool then
    factor ← internal (has_second_factor user_id);
    if factor : bool then mret tt else fail (Conflict u"administrator_needs_second_factor")
  else mret tt.
End RoleRepo.

(** * Events *)

Section EventRepo.
Context `{RedisServer} `{Env}.

Definition SUBJECT_PREFIX : str := u"events.auth".

(** As many ids as the server draws. *)
Fixpoint new_v4s {E} (n : nat) : M E (list Uuid) :=
  match n with
  | O => mret []
  | S n => id ← new_v4; rest ← new_v4s n; mret (id :: rest)
  end.

Definition outbox_row (id : Uuid) (now : Z) (subject : str) (payload : json) : OutboxEvent :=
  {| ob_id := id; ob_subject := subject; ob_payload := payload; ob_created_at := now;
     ob_published_at := None; ob_attempts := 0; ob_next_attempt_at := now;
     ob_last_error := None |}.

Definition delivery_row (id : Uuid) (now : Z) (endpoint event_id : Uuid) (event_name : str)
    (payload : json) : WebhookDelivery :=
  {| wd_id := id; wd_endpoint_id := endpoint; wd_event_id := event_id; wd_event_name := event_name;
     wd_payload := payload; wd_occurred_at := now; wd_created_at := now; wd_attempts := 0;
     wd_next_attempt_at := now; wd_delivered_at := None; wd_failed_at := None; wd_last_status := None;
     wd_last_error := None |}.

Definition subscribed (event_name : str) (d : Db) : list WebhookEndpoint :=
  List.filter (fun e => we_enabled e && (contains (we_events e) event_name || contains (we_events e) u"*"))
    (e_endpoints (t_events d)).

(** The event and a delivery per endpoint that asked for it, in one statement. *)
Definition record_event (subject event_name : str) (payload : json) : M SqlError unit :=
  id ← new_v4;
  endpoints ← asks (fun w => subscribed event_name (w_db w));
  ids ← new_v4s (length endpoints);
  execute (fun d now =>
    Ok (set_deliveries (fun l => l ++
          zip_with (fun delivery e => delivery_row delivery now (we_id e) id event_name payload)
            ids (subscribed event_name d))
          (set_outbox (fun l => l ++ [outbox_row id now subject payload]) d), tt)).

Definition user_payload `{CryptoCrates} (user_id : Uuid) : json :=
  JObj [(u"user_id", JStr (uuid_str user_id))].

Definition enqueue (event_name : str) (payload : json) : M AppError unit :=
  internal (record_event (SUBJECT_PREFIX ++ u"." ++ event_name) event_name payload).
End EventRepo.

Lemma keeps_new_v4s `{RedisServer} `{Env} {E} {R : World -> World -> Prop} `{!CoreFrame R} (n : nat) :
  keeps R (new_v4s n : M E _).
Proof. induction n; cbn; frame_auto. Qed.

#[export] Hint Resolve keeps_new_v4s : frame.
