(* ===== verification/AccessRepo.v ===== *)
(** The repositories of the ways into an account: second-factor methods
    (src/src/repositories/two_factor.rs), recovery codes (repositories/
    recovery_code.rs), passkeys (repositories/passkey.rs), external identities
    (repositories/external_identity.rs) and personal access tokens
    (repositories/personal_access_token.rs). *)
From S2P Require Import Prelude Crates Session Account OAuthDomain Network Edge Crypto Tables App SessionRepo Repos Tokens UserRepo.
Import Account.User Account.TwoFactor OAuthDomain.Pat.

(** [ORDER BY key] *)
Definition by_key {A} (key : A -> Z) (a b : A) : Prop := key a <= key b.

#[export] Instance by_key_dec {A} (key : A -> Z) : RelDecision (by_key key).
Proof. intros a b. unfold by_key. apply _. Defined.

Definition sort_by {A} (key : A -> Z) (l : list A) : list A := merge_sort (by_key key) l.

(** * Second-factor methods *)

Record NewTwoFactorMethod := {
  nm_user_id : Uuid;
  nm_method_type : TwoFactorType;
  nm_totp_secret : option str;
}.

Record RemovedMethod := { was_primary : bool; remaining_verified : Z }.

Section Methods.
Context `{RedisServer} `{Env}.

Definition method_row (id : Uuid) (now : Z) (input : NewTwoFactorMethod) : TwoFactorMethod :=
  {| tf_id := id; tf_user_id := nm_user_id input; tf_last_used_at := None; tf_created_at := now;
     tf_updated_at := now; tf_method_type := nm_method_type input; tf_is_primary := false;
     tf_is_verified := false; tf_totp_secret := nm_totp_secret input |}.

(** The update of a row: its flags, and the rest by the trigger. *)
Definition flag_row (now : Z) (is_primary is_verified : bool) (m : TwoFactorMethod) : TwoFactorMethod :=
  {| tf_id := tf_id m; tf_user_id := tf_user_id m; tf_last_used_at := tf_last_used_at m;
     tf_created_at := tf_created_at m; tf_updated_at := now; tf_method_type := tf_method_type m;
     tf_is_primary := is_primary; tf_is_verified := is_verified; tf_totp_secret := tf_totp_secret m |}.

Definition secret_row (now created : Z) (secret : option str) (m : TwoFactorMethod) : TwoFactorMethod :=
  {| tf_id := tf_id m; tf_user_id := tf_user_id m; tf_last_used_at := tf_last_used_at m;
     tf_created_at := created; tf_updated_at := now; tf_method_type := tf_method_type m;
     tf_is_primary := tf_is_primary m; tf_is_verified := tf_is_verified m; tf_totp_secret := secret |}.

(** [UPDATE ... WHERE p] *)
Definition update_where {A} (p : A -> bool) (f : A -> A) (l : list A) : list A :=
  map (fun x => if p x then f x else x) l.

(** The payload constraint: an authenticator has a secret, a mailbox none. *)
Definition payload_ok (t : TwoFactorType) (secret : option str) : bool :=
  match t with
  | TwoFactor.Totp => bool_decide (is_Some secret)
  | TwoFactor.Email => bool_decide (secret = None)
  end.

Definition is_type (user_id : Uuid) (t : TwoFactorType) (m : TwoFactorMethod) : bool :=
  is_own tf_user_id user_id m && bool_decide (tf_method_type m = t).

Definition type_key (t : TwoFactorType) : str :=
  match t with TwoFactor.Totp => u"idx_2fa_user_totp" | TwoFactor.Email => u"idx_2fa_user_email" end.

Definition method_create (input : NewTwoFactorMethod) : M SqlError TwoFactorMethod :=
  id ← new_v4;
  execute (fun d now =>
    if negb (payload_ok (nm_method_type input) (nm_totp_secret input))
       || bool_decide (t_users d !! nm_user_id input = None) then Err SqlFailed
    else if existsb (is_type (nm_user_id input) (nm_method_type input)) (t_methods d)
    then Err (UniqueViolation (type_key (nm_method_type input)))
    else let row := method_row id now input in Ok (set_methods (fun l => l ++ [row]) d, row)).

(** A new secret for the pending method of the type, when there is one. *)
Definition replace_pending (input : NewTwoFactorMethod) : M SqlError (option TwoFactorMethod) :=
  execute (fun d now =>
    let p m := is_type (nm_user_id input) (nm_method_type input) m && negb (tf_is_verified m) in
    if existsb p (t_methods d) && negb (payload_ok (nm_method_type input) (nm_totp_secret input))
    then Err SqlFailed
    else Ok (set_methods (update_where p (secret_row now now (nm_totp_secret input))) d,
             secret_row now now (nm_totp_secret input) <$> List.find p (t_methods d))).

Definition mark_verified (id : Uuid) : M SqlError unit :=
  execute (fun d now =>
    Ok (set_methods (update_where (fun m => bool_decide (tf_id m = id))
          (fun m => flag_row now (tf_is_primary m) true m)) d, tt)).

(** [idx_2fa_user_primary]: one primary method per account. *)
Definition second_primary (l : list TwoFactorMethod) : bool :=
  negb (bool_decide (NoDup (map tf_user_id (List.filter tf_is_primary l)))).

Definition set_primary (id user_id : Uuid) : M SqlError unit :=
  transaction SqlFailed (
    _ ← execute (fun d now =>
          Ok (set_methods (update_where (fun m => is_own tf_user_id user_id m && tf_is_primary m)
                (fun m => flag_row now false (tf_is_verified m) m)) d, tt));
    execute (fun d now =>
      let l := update_where (fun m => bool_decide (tf_id m = id) && tf_is_verified m)
                 (flag_row now true true) (t_methods d) in
      if second_primary l then Err (UniqueViolation u"idx_2fa_user_primary")
      else Ok (set_methods (fun _ => l) d, tt))).

(** Within the caller's transaction. *)
Definition remove_method (id user_id : Uuid) (method_type : TwoFactorType) :
    M SqlError (option RemovedMethod) :=
  removed ← execute (fun d _ =>
    let '(rest, gone) := delete_returning
      (fun m => bool_decide (tf_id m = id) && is_type user_id method_type m) tf_is_primary
      (t_methods d) in
    Ok (set_methods (fun _ => rest) d, head gone));
  match removed with
  | None => mret None
  | Some was_primary =>
      _ ← (if was_primary : bool then
             execute (fun d now =>
               let verified := List.filter (fun m => is_own tf_user_id user_id m && tf_is_verified m)
                                 (t_methods d) in
               match oldest tf_created_at verified with
               | Some o => Ok (set_methods (update_where (fun m => bool_decide (tf_id m = tf_id o))
                                 (primary_row now)) d, tt)
               | None => Ok (d, tt)
               end)
           else mret tt);
      remaining ← query (fun d _ =>
        Z.of_nat (length (List.filter (fun m => is_own tf_user_id user_id m && tf_is_verified m)
                            (t_methods d))));
      _ ← (if remaining =? 0
           then execute (fun d _ => Ok (set_recovery_codes (without (is_own rc_user_id user_id)) d, tt))
           else mret tt);
      mret (Some {| was_primary := was_primary; remaining_verified := remaining |})
  end.

Definition methods_find_by_user (user_id : Uuid) : M SqlError (list TwoFactorMethod) :=
  query (fun d _ => sort_by tf_created_at (List.filter (is_own tf_user_id user_id) (t_methods d))).

Definition find_by_id_and_user (id user_id : Uuid) : M SqlError (option TwoFactorMethod) :=
  query (fun d _ => List.find (fun m => bool_decide (tf_id m = id) && is_own tf_user_id user_id m)
                      (t_methods d)).

Definition find_by_type (user_id : Uuid) (method_type : TwoFactorType) : M SqlError (option TwoFactorMethod) :=
  query (fun d _ => List.find (is_type user_id method_type) (t_methods d)).

Definition find_all_by_type (user_id : Uuid) (method_type : TwoFactorType) : M SqlError (list TwoFactorMethod) :=
  query (fun d _ => sort_by tf_created_at (List.filter (is_type user_id method_type) (t_methods d))).

(** ** Key rotation *)

Definition find_all_totp_secrets : M SqlError (list (Uuid * Uuid * str)) :=
  query (fun d _ =>
    omap (fun m => if bool_decide (tf_method_type m = TwoFactor.Totp)
                   then (fun s => (tf_id m, tf_user_id m, s)) <$> tf_totp_secret m else None) (t_methods d)).

Definition replace_totp_secret (id : Uuid) (expected new_secret : str) : M SqlError bool :=
  execute (fun d now =>
    let p m := bool_decide (tf_id m = id) && bool_decide (tf_totp_secret m = Some expected) in
    Ok (set_methods (update_where p (fun m => secret_row now (tf_created_at m) (Some new_secret) m)) d,
        bool_decide (length (List.filter p (t_methods d)) = 1%nat))).
End Methods.

(** * Recovery codes *)

Section RecoveryCodes.
Context `{RedisServer} `{Env}.

Definition recovery_row (user_id : Uuid) (now : Z) (expires_at : option Z) (x : Uuid * (Z * bytes)) :
    RecoveryCode :=
  {| rc_id := x.1; rc_user_id := user_id; rc_created_at := now; rc_expires_at := expires_at;
     rc_used_at := None; rc_code_position := x.2.1; rc_code_hash := x.2.2 |}.

(** The constraints of the table, on the rows it would hold. *)
Definition recovery_rows_ok (rows added : list RecoveryCode) : bool :=
  bool_decide (NoDup (map rc_code_hash (rows ++ added)))
  && bool_decide (NoDup (map (fun r => (rc_user_id r, rc_code_position r)) (rows ++ added)))
  && forallb (fun r => bool_decide (length (rc_code_hash r) = 32%nat)
                       && (1 <=? rc_code_position r) && (rc_code_position r <=? 20)
                       && match rc_expires_at r with Some e => rc_created_at r <? e | None => true end) added.

Definition insert_batch_in_tx (user_id : Uuid) (codes : list (Z * bytes)) (expires_at : option Z) :
    M SqlError unit :=
  if bool_decide (codes = []) then mret tt
  else
    ids ← new_v4s (length codes);
    execute (fun d now =>
      let added := map (recovery_row user_id now expires_at) (zip ids codes) in
      if recovery_rows_ok (t_recovery_codes d) added
      then Ok (set_recovery_codes (fun l => l ++ added) d, tt)
      else Err SqlFailed).

Definition replace_all_in_tx (user_id : Uuid) (codes : list (Z * bytes)) (expires_at : option Z) :
    M SqlError unit :=
  _ ← execute (fun d _ => Ok (set_recovery_codes (without (is_own rc_user_id user_id)) d, tt));
  insert_batch_in_tx user_id codes expires_at.

Definition create_batch (user_id : Uuid) (codes : list (Z * bytes)) (expires_at : option Z) : M SqlError unit :=
  transaction SqlFailed (insert_batch_in_tx user_id codes expires_at).

Definition replace_all_by_user (user_id : Uuid) (codes : list (Z * bytes)) (expires_at : option Z) :
    M SqlError unit :=
  transaction SqlFailed (replace_all_in_tx user_id codes expires_at).

Definition delete_all_by_user (user_id : Uuid) : M SqlError unit :=
  execute (fun d _ => Ok (set_recovery_codes (without (is_own rc_user_id user_id)) d, tt)).

Definition find_unused_by_user (user_id : Uuid) : M SqlError (list RecoveryCode) :=
  query (fun d _ => sort_by rc_code_position
    (List.filter (fun r => is_own rc_user_id user_id r && bool_decide (rc_used_at r = None))
       (t_recovery_codes d))).

Definition count_usable_by_user (user_id : Uuid) : M SqlError Z :=
  query (fun d now => Z.of_nat (length
    (List.filter (fun r => is_own rc_user_id user_id r && bool_decide (rc_used_at r = None)
                           && match rc_expires_at r with Some e => now <? e | None => true end)
       (t_recovery_codes d)))).
End RecoveryCodes.

(** * Passkeys *)

Record NewPasskey := {
  np_user_id : Uuid;
  np_credential_id : bytes;
  np_public_key : bytes;
  np_algorithm : Z;
  np_sign_count : Z;
  np_aaguid : Uuid;
  np_name : str;
  np_backup_eligible : bool;
  np_backed_up : bool;
}.

Section Passkeys.
Context `{RedisServer} `{Env}.

(** [i32::try_from(n).unwrap_or(0)] *)
Definition i32_or_zero (n : Z) : Z := if (- 2 ^ 31 <=? n) && (n <? 2 ^ 31) then n else 0.

Definition passkey_row (id : Uuid) (now : Z) (input : NewPasskey) : Passkey :=
  {| pk_id := id; pk_user_id := np_user_id input; pk_credential_id := np_credential_id input;
     pk_public_key := np_public_key input; pk_algorithm := i32_or_zero (np_algorithm input);
     pk_sign_count := np_sign_count input; pk_aaguid := np_aaguid input; pk_name := np_name input;
     pk_backup_eligible := np_backup_eligible input; pk_backed_up := np_backed_up input;
     pk_created_at := now; pk_last_used_at := None |}.

Definition passkey_checks (k : Passkey) : bool :=
  (1 <=? Z.of_nat (length (pk_credential_id k))) && (Z.of_nat (length (pk_credential_id k)) <=? 1023)
  && bool_decide (pk_algorithm k ∈ [-7; -8; -257])
  && (0 <=? pk_sign_count k) && (pk_sign_count k <=? 4294967295)
  && existsb (fun c => negb (c =? 32)) (pk_name k) && (char_count (pk_name k) <=? 100).

(** [None] when the credential is already registered. *)
Definition passkey_create (input : NewPasskey) : M SqlError (option Passkey) :=
  id ← new_v4;
  execute (fun d now =>
    let row := passkey_row id now input in
    if negb (passkey_checks row) || bool_decide (t_users d !! np_user_id input = None) then Err SqlFailed
    else if existsb (fun k => bool_decide (pk_credential_id k = np_credential_id input)) (a_passkeys (t_access d))
    then Ok (d, None)
    else Ok (set_passkeys (fun l => l ++ [row]) d, Some row)).

Definition find_by_credential_id (credential_id : bytes) : M SqlError (option Passkey) :=
  query (fun d _ => List.find (fun k => bool_decide (pk_credential_id k = credential_id))
                      (a_passkeys (t_access d))).

Definition passkeys_find_by_user (user_id : Uuid) : M SqlError (list Passkey) :=
  query (fun d _ => sort_by pk_created_at (List.filter (is_own pk_user_id user_id) (a_passkeys (t_access d)))).

Definition exists_for_user (user_id : Uuid) : M SqlError bool :=
  query (fun d _ => existsb (is_own pk_user_id user_id) (a_passkeys (t_access d))).

Definition used_passkey_row (now new_count : Z) (backed_up : bool) (k : Passkey) : Passkey :=
  {| pk_id := pk_id k; pk_user_id := pk_user_id k; pk_credential_id := pk_credential_id k;
     pk_public_key := pk_public_key k; pk_algorithm := pk_algorithm k; pk_sign_count := new_count;
     pk_aaguid := pk_aaguid k; pk_name := pk_name k; pk_backup_eligible := pk_backup_eligible k;
     pk_backed_up := backed_up; pk_created_at := pk_created_at k; pk_last_used_at := Some now |}.

(** Only if the counter still holds the value that was read. *)
Definition record_use (id : Uuid) (expected_count new_count : Z) (backed_up : bool) : M SqlError bool :=
  execute (fun d now =>
    let p k := bool_decide (pk_id k = id) && (pk_sign_count k =? expected_count) in
    Ok (set_passkeys (update_where p (used_passkey_row now new_count backed_up)) d,
        bool_decide (length (List.filter p (a_passkeys (t_access d))) = 1%nat))).

Definition passkey_delete_owned (id user_id : Uuid) : M SqlError bool :=
  execute (fun d _ =>
    let p k := bool_decide (pk_id k = id) && is_own pk_user_id user_id k in
    Ok (set_passkeys (without p) d, bool_decide (length (List.filter p (a_passkeys (t_access d))) = 1%nat))).
End Passkeys.

(** * External identities *)

Section Identities.
Context `{RedisServer} `{Env}.

Definition identity_find_by_subject (provider subject : str) : M SqlError (option ExternalIdentity) :=
  query (fun d _ => List.find (fun x => str_eqb (xi_provider x) provider && str_eqb (xi_subject x) subject)
                      (a_identities (t_access d))).

Definition identities_find_by_user (user_id : Uuid) : M SqlError (list ExternalIdentity) :=
  query (fun d _ => sort_by xi_created_at (List.filter (is_own xi_user_id user_id) (a_identities (t_access d)))).

Definition identity_row (id user_id : Uuid) (now : Z) (provider subject : str) : ExternalIdentity :=
  {| xi_id := id; xi_user_id := user_id; xi_provider := provider; xi_subject := subject;
     xi_created_at := now; xi_last_used_at := None |}.

Definition identity_link (user_id : Uuid) (provider subject : str) : M SqlError ExternalIdentity :=
  id ← new_v4;
  execute (fun d now =>
    let l := a_identities (t_access d) in
    if negb ((1 <=? char_count subject) && (char_count subject <=? 255))
       || (50 <? char_count provider) || bool_decide (t_users d !! user_id = None)
    then Err SqlFailed
    else if existsb (fun x => str_eqb (xi_provider x) provider && str_eqb (xi_subject x) subject) l
    then Err (UniqueViolation u"external_identities_subject_key")
    else if existsb (fun x => is_own xi_user_id user_id x && str_eqb (xi_provider x) provider) l
    then Err (UniqueViolation u"external_identities_one_per_provider")
    else let row := identity_row id user_id now provider subject in
         Ok (set_identities (fun l => l ++ [row]) d, row)).

Definition touched_identity_row (now : Z) (x : ExternalIdentity) : ExternalIdentity :=
  {| xi_id := xi_id x; xi_user_id := xi_user_id x; xi_provider := xi_provider x; xi_subject := xi_subject x;
     xi_created_at := xi_created_at x; xi_last_used_at := Some now |}.

Definition identity_touch (id : Uuid) : M SqlError unit :=
  execute (fun d now =>
    Ok (set_identities (update_where (fun x => bool_decide (xi_id x = id)) (touched_identity_row now)) d, tt)).

Definition identity_delete_owned (id user_id : Uuid) : M SqlError bool :=
  execute (fun d _ =>
    let p x := bool_decide (xi_id x = id) && is_own xi_user_id user_id x in
    Ok (set_identities (without p) d,
        bool_decide (length (List.filter p (a_identities (t_access d))) = 1%nat))).
End Identities.

(** * Personal access tokens *)

Record NewPersonalAccessToken := {
  npt_user_id : Uuid;
  npt_session_id : Uuid;
  npt_name : str;
  npt_token_hash : bytes;
  npt_scopes : list str;
  npt_expires_at : Z;
}.

Record PresentedToken := { pt_token : PersonalAccessToken; pt_session_revoked_at : option Z }.

Section AccessTokens.
Context `{RedisServer} `{Env}.

Definition pat_row (id : Uuid) (now : Z) (input : NewPersonalAccessToken) : PersonalAccessToken :=
  {| pat_id := id; pat_user_id := npt_user_id input; pat_session_id := npt_session_id input;
     pat_name := npt_name input; pat_scopes := npt_scopes input; pat_created_at := now;
     pat_expires_at := npt_expires_at input; pat_last_used_at := None |}.

Definition pat_refused (input : NewPersonalAccessToken) (now : Z) (d : Db) : bool :=
  negb (bool_decide (length (npt_token_hash input) = 32%nat))
  || negb (existsb (fun c => negb (c =? 32)) (npt_name input)) || (100 <? char_count (npt_name input))
  || negb (now <? npt_expires_at input)
  || bool_decide (t_users d !! npt_user_id input = None)
  || bool_decide (t_sessions d !! npt_session_id input = None)
  || existsb (fun t => bool_decide (t.1 = npt_token_hash input)
                       || bool_decide (pat_session_id t.2 = npt_session_id input)) (a_tokens (t_access d)).

Definition pat_create (input : NewPersonalAccessToken) : M SqlError PersonalAccessToken :=
  id ← new_v4;
  execute (fun d now =>
    if pat_refused input now d then Err SqlFailed
    else let row := pat_row id now input in
         Ok (set_tokens (fun l => l ++ [(npt_token_hash input, row)]) d, row)).

(** Of the account, not expired, on a session that was not revoked. *)
Definition pat_active (d : Db) (now : Z) (user_id : Uuid) (t : PersonalAccessToken) : bool :=
  is_own pat_user_id user_id t && (now <? pat_expires_at t)
  && match t_sessions d !! pat_session_id t with
     | Some s => bool_decide (s_revoked_at s = None)
     | None => false
     end.

Definition pats_find_active_by_user (user_id : Uuid) : M SqlError (list PersonalAccessToken) :=
  query (fun d now => sort_by (fun t => - pat_created_at t)
    (List.filter (pat_active d now user_id) (map snd (a_tokens (t_access d))))).

Definition count_active_by_user (user_id : Uuid) : M SqlError Z :=
  query (fun d now => Z.of_nat (length
    (List.filter (pat_active d now user_id) (map snd (a_tokens (t_access d)))))).

Definition find_owned (id user_id : Uuid) : M SqlError (option PersonalAccessToken) :=
  query (fun d _ => List.find (fun t => bool_decide (pat_id t = id) && is_own pat_user_id user_id t)
                      (map snd (a_tokens (t_access d)))).

(** With its session, which the foreign key keeps there. *)
Definition pat_find_by_hash (token_hash : bytes) : M SqlError (option PresentedToken) :=
  query (fun d _ =>
    x ← List.find (fun t => bool_decide (t.1 = token_hash)) (a_tokens (t_access d));
    s ← t_sessions d !! pat_session_id x.2;
    Some {| pt_token := x.2; pt_session_revoked_at := s_revoked_at s |}).

Definition touched_pat_row (now : Z) (t : PersonalAccessToken) : PersonalAccessToken :=
  {| pat_id := pat_id t; pat_user_id := pat_user_id t; pat_session_id := pat_session_id t;
     pat_name := pat_name t; pat_scopes := pat_scopes t; pat_created_at := pat_created_at t;
     pat_expires_at := pat_expires_at t; pat_last_used_at := Some now |}.

Definition touch (token : PersonalAccessToken) : M SqlError unit :=
  execute (fun d now =>
    Ok (set_sessions (alter (touched_session_row now) (pat_session_id token))
          (set_tokens (update_where (fun t => bool_decide (pat_id t.2 = pat_id token))
                         (fun t => (t.1, touched_pat_row now t.2))) d), tt)).
End AccessTokens.
