(* ===== verification/TokenRepo.v ===== *)
(** The links sent by mail as the database keeps them (src/src/repositories/
    token.rs): address verification, password reset and sign-in links, each
    known by the digest of its token and used once. *)
From S2P Require Import Prelude Crates Session Account OAuthDomain Network Edge Crypto Tables App Repos Tokens UserRepo AccessRepo.
Import Account.User Account.Token.

Section TokenRepo.
Context `{RedisServer} `{Env}.

Definition ev_used_row (now : Z) (v : EmailVerificationToken) : EmailVerificationToken :=
  {| ev_id := ev_id v; ev_user_id := ev_user_id v; ev_token_hash := ev_token_hash v;
     ev_created_at := ev_created_at v; ev_expires_at := ev_expires_at v; ev_used_at := Some now;
     ev_request_ip := ev_request_ip v; ev_request_user_agent := ev_request_user_agent v;
     ev_target_email := ev_target_email v; ev_password_hash := ev_password_hash v;
     ev_username := ev_username v; ev_preferred_locale := ev_preferred_locale v |}.

Definition pr_used_row (now : Z) (v : PasswordResetToken) : PasswordResetToken :=
  {| pr_id := pr_id v; pr_user_id := pr_user_id v; pr_token_hash := pr_token_hash v;
     pr_created_at := pr_created_at v; pr_expires_at := pr_expires_at v; pr_used_at := Some now;
     pr_request_ip := pr_request_ip v; pr_request_user_agent := pr_request_user_agent v |}.

Definition ml_used_row (now : Z) (v : MagicLinkToken) : MagicLinkToken :=
  {| ml_id := ml_id v; ml_user_id := ml_user_id v; ml_token_hash := ml_token_hash v;
     ml_created_at := ml_created_at v; ml_expires_at := ml_expires_at v; ml_used_at := Some now;
     ml_request_ip := ml_request_ip v; ml_request_user_agent := ml_request_user_agent v |}.

(** Unused, with the id or of the account. *)
Definition unused_of {T} `{OneTimeToken T} (owner : T -> Uuid) (x : Uuid) (v : T) : bool :=
  bool_decide (owner v = x) && bool_decide (used_at v = None).

Definition one_row {T} (p : T -> bool) (l : list T) : bool :=
  bool_decide (length (List.filter p l) = 1%nat).

(** ** Address verification *)

Definition verification_refused (d : Db) (now : Z) (v : EmailVerificationToken) : bool :=
  existsb (fun v' => bool_decide (ev_token_hash v' = ev_token_hash v)) (t_verifications d)
  || negb (bool_decide (length (ev_token_hash v) = 32%nat)) || negb (now <? ev_expires_at v)
  || negb (email_format (ev_target_email v))
  || match ev_username v with Some name => negb (username_format name) | None => false end
  || match ev_preferred_locale v with Some locale => negb (locale_format locale) | None => false end.

Definition create_verification (user_id : Uuid) (token_hash : bytes) (expires_at : Z)
    (request_ip : option IpNetwork) (request_user_agent : option str) (target_email : str)
    (credentials : option PendingCredentials) : M SqlError EmailVerificationToken :=
  id ← new_v4;
  execute (fun d now =>
    let v := {| ev_id := id; ev_user_id := user_id; ev_token_hash := token_hash;
                ev_created_at := now; ev_expires_at := expires_at; ev_used_at := None;
                ev_request_ip := request_ip; ev_request_user_agent := request_user_agent;
                ev_target_email := target_email; ev_password_hash := pc_password_hash <$> credentials;
                ev_username := pc_username <$> credentials;
                ev_preferred_locale := pc_preferred_locale <$> credentials |} in
    if verification_refused d now v then Err SqlFailed
    else Ok (set_verifications (fun l => l ++ [v]) d, v)).

Definition find_verification_by_hash (token_hash : bytes) : M SqlError (option EmailVerificationToken) :=
  query (fun d _ => List.find (fun v => bool_decide (ev_token_hash v = token_hash)) (t_verifications d)).

Definition consume_verification (id : Uuid) : M SqlError bool :=
  execute (fun d now =>
    let p := unused_of ev_id id in
    Ok (set_verifications (update_where p (ev_used_row now)) d, one_row p (t_verifications d))).

Definition revoke_active_verification_by_user (user_id : Uuid) : M SqlError unit :=
  execute (fun d now =>
    Ok (set_verifications (update_where (unused_of ev_user_id user_id) (ev_used_row now)) d, tt)).

(** ** Password reset *)

Definition reset_refused (d : Db) (now : Z) (v : PasswordResetToken) : bool :=
  existsb (fun v' => bool_decide (pr_token_hash v' = pr_token_hash v)) (l_resets (t_links d))
  || negb (bool_decide (length (pr_token_hash v) = 32%nat)) || negb (now <? pr_expires_at v)
  || bool_decide (t_users d !! pr_user_id v = None).

Definition create_password_reset (user_id : Uuid) (token_hash : bytes) (expires_at : Z)
    (request_ip : option IpNetwork) (request_user_agent : option str) : M SqlError PasswordResetToken :=
  id ← new_v4;
  execute (fun d now =>
    let v := {| pr_id := id; pr_user_id := user_id; pr_token_hash := token_hash; pr_created_at := now;
                pr_expires_at := expires_at; pr_used_at := None; pr_request_ip := request_ip;
                pr_request_user_agent := request_user_agent |} in
    if reset_refused d now v then Err SqlFailed
    else Ok (set_resets (fun l => l ++ [v]) d, v)).

Definition find_password_reset_by_hash (token_hash : bytes) : M SqlError (option PasswordResetToken) :=
  query (fun d _ => List.find (fun v => bool_decide (pr_token_hash v = token_hash)) (l_resets (t_links d))).

Definition consume_password_reset (id : Uuid) : M SqlError bool :=
  execute (fun d now =>
    let p := unused_of pr_id id in
    Ok (set_resets (update_where p (pr_used_row now)) d, one_row p (l_resets (t_links d)))).

Definition revoke_active_password_reset_by_user (user_id : Uuid) : M SqlError unit :=
  execute (fun d now =>
    Ok (set_resets (update_where (unused_of pr_user_id user_id) (pr_used_row now)) d, tt)).

(** ** Sign-in links *)

Definition magic_refused (d : Db) (now : Z) (v : MagicLinkToken) : bool :=
  existsb (fun v' => bool_decide (ml_token_hash v' = ml_token_hash v)) (l_magic_links (t_links d))
  || negb (bool_decide (length (ml_token_hash v) = 32%nat)) || negb (now <? ml_expires_at v)
  || bool_decide (t_users d !! ml_user_id v = None).

Definition add_magic_link (user_id : Uuid) (token_hash : bytes) (expires_at : Z)
    (request_ip : option IpNetwork) (request_user_agent : option str) : M SqlError unit :=
  id ← new_v4;
  execute (fun d now =>
    let v := {| ml_id := id; ml_user_id := user_id; ml_token_hash := token_hash; ml_created_at := now;
                ml_expires_at := expires_at; ml_used_at := None; ml_request_ip := request_ip;
                ml_request_user_agent := request_user_agent |} in
    if magic_refused d now v then Err SqlFailed
    else Ok (set_magic_links (fun l => l ++ [v]) d, tt)).

Definition find_magic_link_by_hash (token_hash : bytes) : M SqlError (option MagicLinkToken) :=
  query (fun d _ => List.find (fun v => bool_decide (ml_token_hash v = token_hash))
                      (l_magic_links (t_links d))).

(** The link and the other pending ones of its account. *)
Definition consume_magic_link (id : Uuid) : M SqlError bool :=
  committed ← try_transaction SqlFailed (
    user_id ← execute (fun d now =>
      let p := unused_of ml_id id in
      Ok (set_magic_links (update_where p (ml_used_row now)) d,
          ml_user_id <$> List.find p (l_magic_links (t_links d))));
    match user_id with
    | None => mret None
    | Some user_id =>
        _ ← execute (fun d now =>
          Ok (set_magic_links (update_where (unused_of ml_user_id user_id) (ml_used_row now)) d, tt));
        mret (Some tt)
    end);
  mret (bool_decide (is_Some committed)).

Definition revoke_active_magic_links_by_user (user_id : Uuid) : M SqlError unit :=
  execute (fun d now =>
    Ok (set_magic_links (update_where (unused_of ml_user_id user_id) (ml_used_row now)) d, tt)).

Definition revoke_mailbox_links (user_id : Uuid) : M SqlError unit :=
  _ ← revoke_active_password_reset_by_user user_id;
  revoke_active_magic_links_by_user user_id.
End TokenRepo.
