(* ===== verification/AccountsOk.v ===== *)
(** The accounts table as every operation leaves it: rows under their own id,
    within the schema's checks, no two with the same address or user name
    whatever the case.  [wf_kept] is the relation an operation respects when it
    never breaks this; the statements of repositories/user.rs respect it, and
    those on other tables trivially do. *)
From S2P Require Import Prelude Crates Session Account OAuthDomain Network Edge Crypto Tables App Repos Tokens UserRepo AccessRepo TokenRepo.
Import Account.User.

(** * The invariant *)

Section Accounts.
Context `{SqlText}.

Record users_wf (t : gmap Uuid UserRow) : Prop := {
  wf_keyed : forall i r, t !! i = Some r -> u_id (ur_user r) = i;
  wf_checks : forall i r, t !! i = Some r -> user_checks (ur_user r) = true;
  wf_email : forall i j r r', t !! i = Some r -> t !! j = Some r' ->
    citext_eqb (u_email (ur_user r)) (u_email (ur_user r')) = true -> i = j;
  wf_username : forall i j r r', t !! i = Some r -> t !! j = Some r' ->
    citext_eqb (u_username (ur_user r)) (u_username (ur_user r')) = true -> i = j;
}.

Definition accounts_wf (d : Db) : Prop := users_wf (t_users d).

#[export] Instance accounts_wf_depends : Depends accounts_wf [TUsers].
Proof. intros d d' Ha. unfold accounts_wf. rewrite (Ha TUsers); [done|apply list_elem_of_singleton; done]. Qed.

Lemma citext_sym (a b : str) : citext_eqb a b = citext_eqb b a.
Proof. unfold citext_eqb, str_eqb. apply bool_decide_ext. split; by intros ->. Qed.

Lemma another_false (id : Uuid) (p : User -> bool) (d : Db) (i : Uuid) (r : UserRow) :
  another id p d = false -> t_users d !! i = Some r -> u_id (ur_user r) <> id -> p (ur_user r) = false.
Proof.
  unfold another. intros Ha Hr Hne. apply not_true_is_false. intros Hp.
  apply not_true_iff_false in Ha. apply Ha, existsb_exists. exists r. split.
  - unfold all_users. apply in_map_iff. exists (i, r). split; [done|].
    by apply list_elem_of_In, elem_of_map_to_list.
  - by rewrite bool_decide_false, Hp.
Qed.

(** A row the constraints accept keeps the table well-formed. *)
Lemma put_user_wf (r : UserRow) (d d' : Db) : put_user r d = Ok d' -> accounts_wf d -> accounts_wf d'.
Proof.
  unfold put_user, user_refused. destruct (user_checks (ur_user r)) eqn:Hc; cbn; [|done].
  destruct (another _ _ d) eqn:He; [done|]. destruct (another _ (fun o => citext_eqb (u_username o) _) d) eqn:Hn; [done|].
  intros [= <-] [Wk Wc We Wu]. unfold accounts_wf. cbn. split.
  - intros i r' [[<- <-]|[_ Hr]]%lookup_insert_Some; eauto.
  - intros i r' [[<- <-]|[_ Hr]]%lookup_insert_Some; eauto.
  - intros i j r1 r2 [[<- <-]|[Hi H1]]%lookup_insert_Some [[<- <-]|[Hj H2]]%lookup_insert_Some; eauto.
    + rewrite citext_sym, (another_false _ _ d _ _ He H2); [done|]. by rewrite (Wk _ _ H2).
    + rewrite (another_false _ _ d _ _ He H1); [done|]. by rewrite (Wk _ _ H1).
  - intros i j r1 r2 [[<- <-]|[Hi H1]]%lookup_insert_Some [[<- <-]|[Hj H2]]%lookup_insert_Some; eauto.
    + rewrite citext_sym, (another_false _ _ d _ _ Hn H2); [done|]. by rewrite (Wk _ _ H2).
    + rewrite (another_false _ _ d _ _ Hn H1); [done|]. by rewrite (Wk _ _ H1).
Qed.

Lemma update_user_wf id p f (d d' : Db) (b : bool) :
  update_user id p f d = Ok (d', b) -> accounts_wf d -> accounts_wf d'.
Proof.
  unfold update_user. destruct (t_users d !! id); [|by intros [= <- _]].
  destruct (p _); [|by intros [= <- _]]. destruct (put_user _ d) eqn:E; [|done].
  intros [= <- _]. by eapply put_user_wf.
Qed.

Lemma ignore_count_wf (r : result (Db * bool) SqlError) (d d' : Db) (x : unit) :
  (forall d' b, r = Ok (d', b) -> accounts_wf d -> accounts_wf d') ->
  ignore_count r = Ok (d', x) -> accounts_wf d -> accounts_wf d'.
Proof. destruct r as [[d1 b]|]; [|done]. intros Hr [= <-]. eauto. Qed.

(** An update of columns the constraints do not mention. *)
Lemma users_wf_alter (f : UserRow -> UserRow) (id : Uuid) (t : gmap Uuid UserRow) :
  (forall r, u_id (ur_user (f r)) = u_id (ur_user r) /\ user_checks (ur_user (f r)) = user_checks (ur_user r) /\
     u_email (ur_user (f r)) = u_email (ur_user r) /\ u_username (ur_user (f r)) = u_username (ur_user r)) ->
  users_wf t -> users_wf (alter f id t).
Proof.
  intros Hf [Wk Wc We Wu].
  assert (forall i r, alter f id t !! i = Some r -> exists r', t !! i = Some r' /\
    u_id (ur_user r) = u_id (ur_user r') /\ user_checks (ur_user r) = user_checks (ur_user r') /\
    u_email (ur_user r) = u_email (ur_user r') /\ u_username (ur_user r) = u_username (ur_user r')) as Hlk.
  { intros i r. rewrite lookup_alter_Some. intros [(-> & r' & Hr & ->)|[_ Hr]]; eauto 10. }
  split.
  - intros i r (r' & Hr & -> & _)%Hlk. eauto.
  - intros i r (r' & Hr & _ & -> & _)%Hlk. eauto.
  - intros i j r1 r2 (r1' & H1 & _ & _ & -> & _)%Hlk (r2' & H2 & _ & _ & -> & _)%Hlk. eauto.
  - intros i j r1 r2 (r1' & H1 & _ & _ & _ & ->)%Hlk (r2' & H2 & _ & _ & _ & ->)%Hlk. eauto.
Qed.

Lemma users_wf_delete (id : Uuid) (t : gmap Uuid UserRow) : users_wf t -> users_wf (delete id t).
Proof.
  intros [Wk Wc We Wu].
  split; [intros i r [_ ?]%lookup_delete_Some; eauto..| |];
    intros i j r r' [_ ?]%lookup_delete_Some [_ ?]%lookup_delete_Some; eauto.
Qed.
End Accounts.

(** * Statements on [users] *)

Section Statements.
Context `{RedisServer} `{Env} `{SqlText}.

#[local] Notation kept := (keeps (pres accounts_wf)).

(** The statements that update one row. *)
Lemma kept_update {A} (id : Db -> Z -> Uuid) (p : Db -> Z -> User -> bool)
    (f : Db -> Z -> UserRow -> UserRow) (k : result (Db * bool) SqlError -> result (Db * A) SqlError) :
  (forall r d d' a, (forall d' b, r = Ok (d', b) -> accounts_wf d -> accounts_wf d') -> k r = Ok (d', a) ->
     accounts_wf d -> accounts_wf d') ->
  kept (execute (fun d now => k (update_user (id d now) (p d now) (f d now) d))).
Proof. intros Hk. apply keeps_pres_execute. intros d t d' a. apply Hk. intros ? ?. apply update_user_wf. Qed.

Lemma kept_update_unit (id : Uuid) (p : User -> bool) (f : Db -> Z -> UserRow -> UserRow) :
  kept (execute (fun d now => ignore_count (update_user id p (f d now) d))).
Proof. apply (kept_update (fun _ _ => id) (fun _ _ => p) f ignore_count). intros r d d' []. apply ignore_count_wf. Qed.

Lemma kept_update_bool (id : Uuid) (p : User -> bool) (f : Db -> Z -> UserRow -> UserRow) :
  kept (execute (fun d now => update_user id p (f d now) d)).
Proof. apply (kept_update (fun _ _ => id) (fun _ _ => p) f (fun r => r)). intros r d d' a Hr E. by eapply Hr. Qed.

Lemma kept_user_create (input : NewUser) : kept (user_create input).
Proof.
  unfold user_create. frame_auto. apply keeps_pres_execute. intros d t d' v.
  case_bool_decide; [done|]. destruct (put_user _ d) eqn:E; [|done]. intros [= <- _]. by eapply put_user_wf.
Qed.

Lemma kept_adopt_latest (id : Uuid) : kept (adopt_latest_registration_identity id).
Proof.
  apply keeps_pres_execute. intros d t d' x. destruct (latest_registration id d) as [[n l]|]; [|by intros [= <-]].
  destruct (another _ _ d); [by intros [= <-]|]. apply ignore_count_wf. intros ? ?. apply update_user_wf.
Qed.

Lemma kept_set_locked_until (id : Uuid) (l : Z) : kept (set_locked_until id l).
Proof.
  apply keeps_pres_execute. intros d t d' a E. destruct (t_users d !! id) as [r|] eqn:Er; [|by injection E as <-].
  destruct (match u_locked_until (ur_user r) with Some _ => _ | None => _ end); [|by injection E as <-].
  injection E as <- _. unfold accounts_wf. cbn.
  replace (insert id _ (t_users d)) with (alter (update_row t (with_locked_until (Some l))) id (t_users d)).
  - by apply users_wf_alter.
  - apply map_eq. intros i. destruct (decide (i = id)) as [->|Hi].
    + by rewrite lookup_alter_eq, lookup_insert_eq, Er.
    + by rewrite lookup_alter_ne, lookup_insert_ne.
Qed.

Lemma kept_record_sign_in (id : Uuid) : kept (user_record_sign_in id).
Proof. apply keeps_pres_execute. intros d t d' a [= <- _]. unfold accounts_wf. cbn. by apply users_wf_alter. Qed.

Lemma kept_delete (id : Uuid) : kept (user_delete id).
Proof. apply keeps_pres_execute. intros d t d' a [= <- _]. apply users_wf_delete. Qed.

Lemma kept_erase (id : Uuid) : kept (erase id).
Proof.
  apply keeps_pres_execute. intros d t d' a. destruct (t_users d !! id); [|done].
  intros [= <- _]. apply users_wf_delete.
Qed.
End Statements.

#[export] Hint Resolve kept_update_unit kept_update_bool kept_user_create kept_adopt_latest
  kept_set_locked_until kept_record_sign_in kept_delete kept_erase : frame.
