(* ===== verification/Scenario.v ===== *)
(** A run of the service to evaluate the theorems on: an account signed in at
    time 0 on a session that was refreshed at second 10; it is second 20, every
    exchange is answered. *)
From S2P Require Import Prelude Crates Session Account OAuthDomain Network Edge Crypto Tables App RedisCounter SessionRepo Repos Tokens.
Import Account.User Account.LoginAttempt Account.Audit Account.Role OAuthDomain.Client.

Module Run.

Definition settings : Config :=
  {| cfg_jwt := {| access_expiry_secs := 900; refresh_expiry_secs := 2592000;
                   short_session_expiry_secs := 86400; max_session_lifetime_secs := 7776000;
                   strict_session_binding := false; audience := [u"api"; u"https://auth.example"] |};
     cfg_security := {| lockout_threshold := 5; lockout_duration_secs := 900;
                        sensitive_action_reauth_secs := 300; new_device_alerts := true;
                        magic_links := true; registrations_per_ip_per_hour := 20;
                        reset_revokes_factors_added_hours := 72 |};
     cfg_public_url := u"https://auth.example"; cfg_captcha_secret := None;
     cfg_pwned := {| pwned_enabled := true; pwned_fail_open := true |};
     cfg_totp_skew := 1; cfg_totp_issuer := u"auth"; cfg_recovery_code_expiry_days := 0;
     cfg_device_auth := {| device_ttl_secs := 300; poll_interval_secs := 5;
                           verification_uri := u"https://app.example/device" |};
     cfg_webauthn := {| rp_id := u"app.example"; rp_name := u"Example"; rp_origins := [u"https://app.example"] |};
     cfg_webhooks := {| allow_http := false; allow_private_networks := false |};
     cfg_identity_providers :=
       [{| idp_name := u"corp"; idp_kind := Oidc; idp_display_name := u"Corp"; idp_client_id := u"auth";
           idp_client_secret := u"shh"; idp_issuer := u"https://idp.example"; idp_scopes := [u"openid"];
           idp_authorization_url := []; idp_token_url := []; idp_user_url := [] |}];
     cfg_external_login_uri := u"https://app.example/external-login" |}.

Definition calm : Env :=
  {| config := settings; io_plan := fun _ => Answered;
     draw_token := fun n => u"token" ++ [65 + Z.of_nat n];
     draw_uuid := fun n => (1000 + N.of_nat n)%N;
     draw_bytes := fun len n => replicate len (Z.of_nat n); draw_secret := fun _ => u"JBSWY3DPEHPK3PXP";
     draw_otp := fun n => Z.of_nat n; draw_pick := fun n => n; draw_entry := N.of_nat; stopwatch := fun _ _ => 0;
     keyring := keyring_new (replicate 32 5) None |}.

Definition user : User :=
  {| u_id := 7%N; u_created_at := 0; u_updated_at := 0; u_email_verified_at := Some 0;
     u_last_login_at := None; u_locked_until := None; u_status := ActiveUser;
     u_preferred_locale := u"en"; u_username := u"ada"; u_email := u"ada@example.org";
     u_password_hash := u"$argon2id$v=19$m=19456,t=2,p=1$c29tZXNhbHQ$" |}.

Definition input (raw : str) : NewSession :=
  {| ns_user_id := 7%N; ns_family := 70%N; ns_expires_at := 1000 * NS; ns_ip_address := None;
     ns_device_name := None; ns_remember_me := false; ns_token_hash := hash_token raw;
     ns_user_agent := None; ns_session_type := Web; ns_client_id := None;
     ns_family_created_at := Some 0; ns_scopes := None; ns_mfa := true |}.

Definition first : Session := new_row 1%N 0 (input u"one") 0 None true None.
Definition second : Session := rotation_row 2%N (10 * NS) first (input u"two").

Definition table : Sessions :=
  alter (rotated_row (10 * NS) 2%N) 1%N (<[2%N := second]> (<[1%N := first]> ∅)).

Definition db : Db :=
  {| t_sessions := table; t_users := {[ 7%N := {| ur_user := user; ur_lockout_cleared_at := None |} ]};
     t_login_attempts := []; t_audit_log := []; t_clients := []; t_methods := [];
     t_user_roles := [{| ur_user_id := 7%N; ur_role_id := 3%N; ur_granted_by := None; ur_granted_at := 0 |}];
     t_roles := {[ 3%N := {| ro_id := 3%N; ro_created_at := 0; ro_is_default := true;
                             ro_name := u"editor"; ro_description := None |} ]};
     t_role_permissions := [(3%N, u"posts:write")]; t_permissions := [u"posts:read"; u"posts:write"; ROLES_MANAGE];
     t_known_devices := []; t_email_codes := []; t_verifications := []; t_recovery_codes := [];
     t_used_totp := [];
     t_links := {| l_resets := []; l_magic_links := []; l_reservations := [] |};
     t_access := {| a_passkeys := []; a_identities := []; a_tokens := [] |};
     t_events := {| e_outbox := []; e_endpoints := []; e_deliveries := [] |};
     t_grants := {| g_codes := []; g_quotas := [] |} |}.

Definition world : World (H := redis_gmap) :=
  {| w_db := db; w_redis := ∅ : gmap str entry; w_now := 20 * NS; w_wall := 20 * NS; w_io := 0;
     w_draws := 0; w_mails := []; w_slept := 0; w_tasks := [];
     w_sent := []; w_stream_ready := false; w_documents := [] |}.

Lemma run_reachable : reachable (20 * NS) table.
Proof.
  apply (reachable_later (10 * NS)); [|by unfold NS].
  eapply (reach_step 0); [|by unfold NS|].
  - eapply (reach_step 0); [apply reach_init|lia|].
    apply (step_create 0 ∅ first); try done. by apply new_row_ok.
  - apply (step_rotate (10 * NS) _ 1%N first 2%N (input u"two")); try done.
    + intros i s [[<- <-]|[_ Hs]]%lookup_insert_Some; [by vm_compute|by rewrite lookup_empty in Hs].
    + by apply new_row_ok.
Qed.

Lemma table_rows (i : Uuid) (s : Session) :
  table !! i = Some s -> s = second \/ s = rotated_row (10 * NS) 2%N first.
Proof.
  intros Hs. apply (rotate_lookup _ _ _ _ first) in Hs as [[_ ->]|[[_ ->]|(_ & Hi & Hs)]]; auto.
  by rewrite lookup_insert_ne, lookup_empty in Hs.
Qed.

End Run.
