(* ===== verification/TokensCorrect.v ===== *)
(** Theorems about issuing, checking and revoking tokens: what an access token
    may carry, when a presented token is accepted, what a revocation marker
    withstands, and the atomicity of a sign-in. *)
From S2P Require Import Prelude Crates Session Account OAuthDomain Tables App RedisCounter SessionRepo Repos Tokens Scenario.
Import Account.User Account.LoginAttempt Account.Audit OAuthDomain.Client.

(** * Operations that touch no table *)

Section Keeps.
Context `{RedisServer} `{Env} `{TimeCrate} `{CryptoCrates} `{SqlText} `{IpNetworkCrate} `{Jwt}.

Lemma keeps_best_effort {E} (R : World -> World -> Prop) `{!CoreFrame R, !RedisFrame R} (cmd : rstore -> Z -> rstore) :
  keeps R (best_effort cmd : M E unit).
Proof. unfold best_effort. frame_auto. Qed.

Lemma best_effort_Ok {E} (cmd : rstore -> Z -> rstore) (w : World) :
  ((best_effort cmd : M E unit) w).2 = Ok tt.
Proof.
  unfold best_effort, mbind, M_bind, attempt. destruct (redis_conn w) as [w1 [[]|]]; [|done].
  by destruct (redis_cmd _ w1).
Qed.

Lemma best_effort_answered {E} (cmd : rstore -> Z -> rstore) (w : World) :
  all_answered ->
  (best_effort cmd : M E unit) w =
  (with_redis (cmd (w_redis w) (w_wall w)) (bump_io (bump_io w)), Ok tt).
Proof.
  intros Ha. unfold best_effort, mbind, M_bind, attempt.
  by rewrite redis_conn_answered, redis_cmd_answered.
Qed.

Lemma keeps_invalidate (R : World -> World -> Prop) `{!CoreFrame R, !RedisFrame R} (ids : list Uuid) :
  keeps R (invalidate_session_caches ids).
Proof. unfold invalidate_session_caches. frame_auto. by apply keeps_best_effort. Qed.

Lemma keeps_access_token (R : World -> World -> Prop) `{!CoreFrame R} uid sid sc cid ty :
  keeps R (build_access_token uid sid sc cid ty).
Proof.
  unfold build_access_token, internal, find_rbac_names, client_find_by_id, clock_now, new_claims.
  frame_auto.
Qed.

Lemma keeps_alert (R : World -> World -> Prop) `{!CoreFrame R} (uid : Uuid) :
  keeps R (alert_new_device uid).
Proof. unfold alert_new_device, user_find_by_id. frame_auto. Qed.
End Keeps.

#[export] Hint Resolve keeps_invalidate keeps_access_token keeps_best_effort keeps_alert : frame.

(** * What an access token may carry *)

(** An access token carries exactly the permissions the account holds that
    are within the consent of its session, if it has one, and, if its client
    registered scopes, that the client may still ask for (a consented identity
    scope passes); it carries the account's roles only when nothing narrowed the
    session and the client, if any, is a primary one. *)
Theorem token_rbac_exact (roles permissions : list str) (scopes : option (list str))
    (client : option RegisteredClient) :
  let rbac := token_rbac roles permissions scopes client in
  (forall p : str, p ∈ rbac.2 <->
     p ∈ permissions /\
     (forall consent, scopes = Some consent -> p ∈ consent) /\
     (forall c, client = Some c -> c_scopes c <> [] ->
        p ∈ c_scopes c \/ (is_Some scopes /\ Oidc.is_oidc_scope p = true))) /\
  (forall r : str, r ∈ rbac.1 <->
     r ∈ roles /\ scopes = None /\
     (forall c, client = Some c -> c_scopes c = [] /\ c_is_primary c = true)).
Proof.
  cbn zeta. unfold token_rbac.
  destruct (restrict_to_consent _ _ _) as [rs ps] eqn:E. cbn [fst snd]. split.
  - intros p. change ps with (rs, ps).2. rewrite <- E, elem_of_restrict.
    destruct client as [c|]; cbn; [|destruct scopes; naive_solver].
    destruct (c_scopes c) as [|x l] eqn:Ec; [destruct scopes; naive_solver|].
    destruct scopes as [consent|].
    + rewrite elem_of_lfilter, orb_true_iff, contains_true.
      split.
      * intros (? & Hin & Hor). split_and!; [done|by intros ? [= <-]|]. intros c' [= <-] _. rewrite Ec.
        destruct Hor; [right; by split|by left].
      * intros (? & Hin & Hc). destruct (Hc c eq_refl) as [Hp|[_ Hp]]; [by rewrite Ec| |];
          rewrite ?Ec in Hp; split_and!; auto.
    + split.
      * intros [? Hin]. split_and!; [done|done|]. intros c' [= <-] _. left. by rewrite Ec.
      * intros (? & _ & Hc). destruct (Hc c eq_refl) as [Hp|[[? [=]] _]]; by rewrite Ec in *.
  - intros r. destruct client as [c|]; cbn in *.
    + destruct (c_scopes c) as [|x l] eqn:Ec, (c_is_primary c) eqn:Ep, scopes; cbn in *;
        injection E as <- <-; rewrite ?elem_of_nil; split; try done;
        try (by intros (_ & ? & _)); try (intros (_ & _ & Hc); destruct (Hc c eq_refl); congruence).
      * intros Hr. split_and!; [done..|]. by intros ? [= <-].
      * by intros [? _].
    + destruct scopes; injection E as <- <-; rewrite ?elem_of_nil; split; try done;
        [by intros (_ & ? & _)|by intros [? _]].
Qed.

Section Checks.
Context `{RedisServer} `{Env} `{TimeCrate} `{CryptoCrates} `{SqlText} `{IpNetworkCrate} `{Jwt}.

(** * When a presented token is accepted *)

Abbreviation blocked w jti := (r_exists (w_redis w) (w_wall w) (jti_block_key jti)).
Abbreviation cached w sid := (cached_of (w_redis w) (w_wall w) (session_cache_key sid)).

Lemma verify_token_state_Ok (jti sid : Uuid) (w w' : World) (fp : bool) :
  verify_token_state jti sid w = (w', Ok fp) ->
  blocked w jti = false /\
  (cached w sid = Some (cached_value true fp) \/
   (cached w sid = None /\
    exists row, t_sessions (w_db w) !! sid = Some row /\
      s_revoked_at row = None /\ w_now w < s_expires_at row /\
      fp = first_party (validation_of (w_db w) row))).
Proof.
  unfold verify_token_state. intros R. unbind R x w1 R1. apply map_err_Ok in R1.
  assert (w1 = bump_io w) as -> by (unfold redis_conn, io in R1; destruct (io_plan _); by simplify_eq).
  unbind R reply w2 R2. apply map_err_Ok in R2.
  assert (reply = (blocked w jti, cached w sid) /\ w2 = with_redis (w_redis w) (bump_io (bump_io w)))
    as [-> ->] by (unfold redis_cmd, io in R2; destruct (io_plan _); by simplify_eq).
  unbind R state w3 R3. destruct state as [active fp']. cbn in R.
  destruct active; [|by apply fail_Ok in R]. apply ret_Ok in R as [-> ->]. cbn in R3.
  unfold token_state in R3. destruct (r_exists _ _ _); [by apply fail_Ok in R3|]. split; [done|].
  destruct (cached_of _ _ _) as [v|].
  - left. destruct (v =? CACHED_FIRST_PARTY) eqn:E1; [|destruct (v =? CACHED_DELEGATED) eqn:E2];
      apply ret_Ok in R3 as [R3 _]; simplify_eq; breflect; by subst.
  - right. split; [done|]. unbind R3 found w4 R4. unfold internal in R4. apply map_err_Ok in R4.
    unfold find_validation_by_id in R4. read_run R4. cbn in R3.
    unbind R3 v w5 R5. read_run R5. apply fmap_Some in R5 as (row & Hrow & ->).
    unbind R3 now w6 R6. unfold clock_now in R6. read_run R6.
    unbind R3 y w7 R7. apply ret_Ok in R3 as [[= Ha ->] _]. exists row.
    unfold sv_is_active in Ha. symmetry in Ha. apply andb_true_iff in Ha as [Hr Hn].
    apply bool_decide_eq_true in Hr. apply Z.ltb_lt in Hn.
    destruct R4 as [_ [Hc _]]. rewrite Hc in Hn. done.
Qed.

(** The check every authenticated request makes never accepts a
    blocklisted token; it accepts only on the word of the cache, or, when the
    cache is silent, of a session row that is neither revoked nor expired and
    whose class it reports; so a Redis or database outage refuses. *)
Theorem verify_token_state_sound (jti sid : Uuid) (w w' : World) (fp : bool) :
  verify_token_state jti sid w = (w', Ok fp) ->
  blocked w jti = false /\
  (cached w sid = Some (cached_value true fp) \/
   (cached w sid = None /\
    exists row, t_sessions (w_db w) !! sid = Some row /\
      s_revoked_at row = None /\ w_now w < s_expires_at row /\
      fp = first_party (validation_of (w_db w) row))).
Proof. apply verify_token_state_Ok. Qed.

(** * What a revocation marker withstands *)

(** A request that read the row before the revocation and now fills the cache. *)
Definition late_fill (sid : Uuid) (s : rstore) (fill : Z * Z) : rstore :=
  (r_set_nx_ex s fill.1 (session_cache_key sid) (RInt fill.2) SESSION_CACHE_TTL_SECS).1.

Lemma late_fill_id (sid : Uuid) (s : rstore) (fill : Z * Z) :
  r_exists s fill.1 (session_cache_key sid) = true -> late_fill sid s fill = s.
Proof. unfold late_fill, r_set_nx_ex. by intros ->. Qed.

Lemma session_cache_key_inj (a b : Uuid) : session_cache_key a = session_cache_key b -> a = b.
Proof. unfold session_cache_key. intros E. apply app_inv_head in E. by apply uuid_str_inj. Qed.

Definition mark_ended (t : Z) (s : rstore) (ids : list Uuid) : rstore :=
  foldl (fun s id => r_set_ex s t (session_cache_key id) (RInt CACHED_ENDED)
                       SESSION_CACHE_TTL_SECS) s ids.

Lemma mark_ended_dump (t : Z) (ids : list Uuid) (s : rstore) (sid : Uuid) :
  sid ∈ ids ->
  dump (mark_ended t s ids) (session_cache_key sid) =
  Some (Entry (RInt CACHED_ENDED) (Some (t + SESSION_CACHE_TTL_SECS * NS))).
Proof.
  revert s. induction ids as [|id ids IH] using rev_ind; intros s Hin; [by apply elem_of_nil in Hin|].
  unfold mark_ended. rewrite foldl_app. cbn. rewrite dump_set_ex. unfold upd.
  case_decide as Ek; [done|]. apply elem_of_app in Hin as [Hin|Hin]; [by apply IH|].
  apply list_elem_of_singleton in Hin as ->. done.
Qed.

Lemma late_fills_id (sid : Uuid) (s : rstore) (e : Z) (v : rval) (fills : list (Z * Z)) :
  dump s (session_cache_key sid) = Some (Entry v (Some e)) ->
  Forall (fun f => f.1 < e) fills -> foldl (late_fill sid) s fills = s.
Proof.
  intros Hd. induction 1 as [|f fills Hf _ IH]; [done|]. cbn. rewrite late_fill_id; [done|].
  unfold r_exists. rewrite Hd. cbn. unfold alive. cbn.
  destruct (f.1 <? e) eqn:E; [done|]. breflect. lia.
Qed.

(** Once a revocation marked the cache, the session is refused for as long
    as the marker lives, whatever racing requests that read the row before the
    revocation write there afterwards: a fill never replaces a marker. *)
Theorem revocation_marker_holds (ids : list Uuid) (sid : Uuid) (jti : Uuid) (w w1 : World)
    (fills : list (Z * Z)) (w2 : World) :
  all_answered -> sid ∈ ids ->
  invalidate_session_caches ids w = (w1, Ok tt) ->
  Forall (fun f => f.1 < w_wall w + SESSION_CACHE_TTL_SECS * NS) fills ->
  w_redis w2 = foldl (late_fill sid) (w_redis w1) fills ->
  w_wall w2 < w_wall w + SESSION_CACHE_TTL_SECS * NS ->
  (verify_token_state jti sid w2).2 = Err TokenInvalid \/
  (verify_token_state jti sid w2).2 = Err Unauthorized.
Proof.
  intros Ha Hin Hinv Hf Hr Ht. unfold invalidate_session_caches in Hinv.
  rewrite bool_decide_false in Hinv by (intros ->; by apply elem_of_nil in Hin).
  rewrite best_effort_answered in Hinv by done. injection Hinv as <-. cbn [with_redis w_redis] in Hr.
  fold (mark_ended (w_wall w) (w_redis w) ids) in Hr.
  pose proof (mark_ended_dump (w_wall w) ids (w_redis w) sid Hin) as Hd.
  rewrite (late_fills_id sid _ _ _ fills Hd Hf) in Hr. rewrite <- Hr in Hd. clear Hr.
  unfold verify_token_state, mbind, M_bind, map_err. rewrite redis_conn_answered by done.
  rewrite redis_cmd_answered by done. cbn. unfold cached_of, r_get. rewrite Hd. cbn.
  unfold alive. cbn. destruct (w_wall w2 <? _) eqn:E; [|breflect; lia]. cbn.
  unfold token_state. destruct (r_exists _ _ _); cbn; auto.
Qed.
End Checks.

Section SignIns.
Context `{RedisServer} `{Env} `{TimeCrate} `{CryptoCrates} `{SqlText} `{IpNetworkCrate} `{Jwt}.

(** * A sign-in is recorded with its session, or neither happens *)

Definition sign_in_attempt (user_id : Uuid) (ip : option IpNetwork) (now : Z) (si : SignIn) :
    list LoginAttempt :=
  match si_identifier si with
  | Some identifier =>
      [{| la_user_id := Some user_id; la_attempted_at := now; la_attempted_identifier := identifier;
          la_was_successful := true; la_failure_reason := None; la_request_ip := ip;
          la_request_user_agent := None |}]
  | None => []
  end.

Definition login_entry (id user_id : Uuid) (ip : option IpNetwork) (now : Z) (si : SignIn) : AuditLog :=
  {| al_id := id; al_user_id := Some user_id; al_request_id := si_request_id si; al_created_at := now;
     al_action := Login; al_ip_address := ip; al_metadata := si_audit_metadata si |}.

(** What the records of a sign-in add to the tables. *)
Definition signed_in (d d' : Db) (now : Z) (user_id : Uuid) (ip : option IpNetwork) (si : SignIn) : Prop :=
  t_users d' = alter (signed_in_row now) user_id (t_users d) /\
  t_login_attempts d' = t_login_attempts d ++ sign_in_attempt user_id ip now si /\
  exists alerts id, t_audit_log d' = t_audit_log d ++ alerts ++ [login_entry id user_id ip now si].

Lemma internal_execute_Ok {A} (f : Db -> Z -> result (Db * A) SqlError) (w w' : World) (a : A) :
  internal (execute f) w = (w', Ok a) -> f (w_db w) (w_wall w) = Ok (w_db w', a) /\ same_clocks w w'.
Proof. unfold internal. rewrite map_err_Ok. apply execute_Ok. Qed.

Lemma record_sign_in_Ok (user_id : Uuid) ip ua (si : SignIn) (w w' : World) (alert : bool) :
  record_sign_in user_id ip ua si w = (w', Ok alert) ->
  same_clocks w w' /\ t_sessions (w_db w') = t_sessions (w_db w) /\
  signed_in (w_db w) (w_db w') (w_wall w) user_id ip si.
Proof.
  unfold record_sign_in, known_device_record, audit_append, user_record_sign_in, record_attempt.
  intros R. unbind R unknown w1 R1. apply internal_execute_Ok in R1 as [E1 C1]. injection E1 as E1 _.
  unbind R x2 w2 R2.
  assert (same_clocks w1 w2 /\ exists alerts, w_db w2 = foldl (fun d a => add_audit a d) (w_db w1) alerts)
    as [C2 [alerts E2]].
  { destruct (unknown && _); [|apply ret_Ok in R2 as [_ ->]; split; [done|by exists []]].
    apply internal_execute_Ok in R2 as [E2 C2]. injection E2 as E2. split; [done|]. rewrite <- E2. eexists [_]. reflexivity. }
  unbind R x3 w3 R3. apply internal_execute_Ok in R3 as [E3 C3]. injection E3 as E3.
  unbind R x4 w4 R4.
  assert (same_clocks w3 w4 /\
    w_db w4 = foldl (fun d a => add_attempt a d) (w_db w3) (sign_in_attempt user_id ip (w_wall w3) si))
    as [C4 E4].
  { unfold sign_in_attempt. destruct (si_identifier si); [|by apply ret_Ok in R4 as [_ ->]].
    apply internal_execute_Ok in R4 as [E4 C4]. by injection E4 as <-. }
  unbind R x5 w5 R5. apply internal_execute_Ok in R5 as [E5 C5]. injection E5 as E5.
  apply ret_Ok in R as [_ ->].
  unfold same_clocks in *.
  assert (w_wall w2 = w_wall w) as W2 by intuition congruence.
  assert (w_wall w3 = w_wall w) as W3 by intuition congruence.
  assert (w_wall w4 = w_wall w) as W4 by intuition congruence.
  assert (forall d l, let d' := foldl (fun d a => add_audit a d) d l in
    t_sessions d' = t_sessions d /\ t_users d' = t_users d /\
    t_login_attempts d' = t_login_attempts d /\ t_audit_log d' = t_audit_log d ++ l) as Haud.
  { intros d l. revert d. induction l as [|a l IH]; intros d; cbn; [by rewrite app_nil_r|].
    destruct (IH (add_audit a d)) as (? & ? & ? & Hl). rewrite Hl. cbn.
    by rewrite <- app_assoc. }
  rewrite W2 in E3. rewrite W3 in E4. rewrite W4 in E5.
  destruct (Haud (w_db w1) alerts) as (As & Au & Aa & Al). rewrite <- E2 in As, Au, Aa, Al.
  rewrite <- E5, E4, <- E3. unfold signed_in.
  split; [intuition congruence|].
  destruct (sign_in_attempt _ _ _ _) as [|a l] eqn:Ea; [|destruct l as [|]; [|by unfold sign_in_attempt in Ea; destruct (si_identifier si)]];
    cbn; rewrite As, Au, Aa, Al, <- E1; cbn; rewrite ?app_nil_r; (split_and!; [done..|]);
    eexists alerts, _; unfold logged; by rewrite <- app_assoc.
Qed.

Definition sign_in_mfa (sign_in : option SignIn) : bool :=
  match sign_in with Some si => si_second_factor si | None => false end.

(** The session a completed sign-in opens. *)
Record opened (w w' : World) (user_id : Uuid) (ip : option IpNetwork) (remember_me : bool)
    (ty : SessionType) (cid : option str) (scopes : option (list str)) (sign_in : option SignIn)
    (raw : str) (row : Session) : Prop := {
  op_tables : t_sessions (w_db w') = <[s_id row := row]> (t_sessions (w_db w));
  op_fresh : t_sessions (w_db w) !! s_id row = None;
  op_hashes : forall i s, t_sessions (w_db w) !! i = Some s -> s_token_hash s <> s_token_hash row;
  op_row : row_ok row;
  op_created : s_created_at row = w_wall w /\ s_family_created_at row = w_wall w;
  op_family : s_family row = draw_uuid (S (w_draws w));
  op_live : s_revoked_at row = None /\ s_compromised_at row = None /\ s_replaced_by row = None;
  op_for : s_user_id row = user_id /\ s_client_id row = cid /\ s_session_type row = ty /\
           s_scopes row = scopes /\ s_mfa row = sign_in_mfa sign_in;
  op_token : s_token_hash row = hash_token raw;
  op_expiry : s_expires_at row =
    capped_expiry (w_now w) (session_ttl_secs (cfg_jwt config) remember_me) (w_now w)
      (max_session_lifetime_secs (cfg_jwt config));
  op_signed_in : forall si, sign_in = Some si ->
    signed_in (w_db w) (w_db w') (w_wall w) user_id ip si;
}.

Lemma open_session_Ok (user_id : Uuid) ip ua dn rm ty cid scopes sign_in raw (w0 w w' : World)
    (row : Session) (nd : bool) :
  same_db w0 w -> w_draws w = S (w_draws w0) ->
  open_session user_id ip ua dn rm ty cid scopes sign_in (hash_token raw)
    (capped_expiry (w_now w0) (session_ttl_secs (cfg_jwt config) rm) (w_now w0)
       (max_session_lifetime_secs (cfg_jwt config))) (sign_in_mfa sign_in) w = (w', Ok (row, nd)) ->
  opened w0 w' user_id ip rm ty cid scopes sign_in raw row.
Proof.
  intros [Hdb [_ Hw]] Hd R. unfold open_session in R. unbind R family w1 R1. injection R1 as <- <-.
  unbind R session w2 R2. unfold create, internal in R2. apply map_err_Ok in R2.
  unbind R2 nid w3 R3. injection R3 as <- <-. read_run R2. destruct R2 as [Hi C2].
  cbn in Hi. rewrite Hdb, Hw in Hi.
  apply insert_row_Ok in Hi as (-> & Hdb2 & Hid & Hh & He & Hl).
  unbind R nd' w4 R4. apply ret_Ok in R as [[= -> ->] ->].
  assert (t_sessions (w_db w4) = t_sessions (w_db w2) /\
          forall si, sign_in = Some si ->
            signed_in (w_db w2) (w_db w4) (w_wall w2) user_id ip si) as [Hs4 Hsi].
  { destruct sign_in as [si|]; [|by apply ret_Ok in R4 as [_ ->]].
    apply record_sign_in_Ok in R4 as (_ & ? & ?). split; [done|]. by intros ? [= <-]. }
  destruct C2 as [_ Hw2]. cbn in Hw2. rewrite Hw2, Hw in Hsi.
  constructor; try done.
  - rewrite Hs4, Hdb2. done.
  - by apply new_row_ok.
  - cbn. by rewrite Hd.
  - intros si Esi. specialize (Hsi si Esi). unfold signed_in in *. rewrite Hdb2 in Hsi. done.
Qed.

Lemma issue_tokens_run (user_id : Uuid) ip ua dn rm ty cid scopes sign_in (w w' : World)
    (r : result AuthTokens AppError) :
  issue_tokens user_id ip ua dn rm ty cid scopes sign_in w = (w', r) ->
  ((exists e, r = Err e) /\ w_db w' = w_db w) \/
  (exists row, opened w w' user_id ip rm ty cid scopes sign_in (draw_token (w_draws w)) row /\
     forall tokens, r = Ok tokens ->
       at_session tokens = row /\ at_refresh_token tokens = draw_token (w_draws w)).
Proof.
  unfold issue_tokens, generate_token, clock_now, asks. unfold mbind at 1 2, M_bind at 1 2.
  fold (sign_in_mfa sign_in). intros R.
  unfold mbind at 1, M_bind at 1 in R.
  destruct (transaction _ _ (bump_draws w)) as [w1 r1] eqn:Et.
  assert (same_db w1 w' /\ ((exists e, r1 = Err e /\ r = Err e) \/
    exists row nd, r1 = Ok (row, nd) /\ forall tokens, r = Ok tokens ->
       at_session tokens = row /\ at_refresh_token tokens = draw_token (w_draws w))) as [S' Hr].
  { destruct r1 as [[row nd]|e]; [|injection R as <- <-; split; [apply frame_refl|eauto]].
    split; [eapply keeps_run, R; frame_auto|]. right. exists row, nd. split; [done|].
    intros tokens ->. unbind R x w2 R2. unbind R tok w3 R3. apply ret_Ok in R as [-> _]. done. }
  apply transaction_run in Et as [[[e ->] Hdb]|(w2 & [row nd] & Hb & Hdb & _ & Hr1)].
  - left. destruct Hr as [(e' & _ & ->)|(row & nd & [=] & _)]. split; [eauto|].
    rewrite (proj1 S'). apply Hdb.
  - right. exists row. apply (open_session_Ok _ _ _ _ _ _ _ _ _ _ w) in Hb; [|done..]. split.
    + destruct Hb. constructor; try done; rewrite (proj1 S'), Hdb; done.
    + intros tokens ->. destruct Hr as [(e' & _ & [=])|(row' & nd' & -> & Ht)].
      destruct Hr1 as [[= <- <-]|[=]]. by apply Ht.
Qed.

(** A sign-in opens its session and writes its records (the last sign-in,
    the lifted lockout, the attempt, the audit entry) in one transaction:
    whatever fails, either the tables are as they were and no token was
    issued, or all of it is there; and an issued refresh token is known to the
    table by its hash only, on a live session of that account and client, with
    the scopes and the second-factor proof asked for, that ends within the
    configured lifetime. *)
Theorem issue_tokens_atomic (user_id : Uuid) ip ua dn rm ty cid scopes sign_in (w w' : World)
    (r : result AuthTokens AppError) :
  issue_tokens user_id ip ua dn rm ty cid scopes sign_in w = (w', r) ->
  ((exists e, r = Err e) /\ w_db w' = w_db w) \/
  (exists row, opened w w' user_id ip rm ty cid scopes sign_in (draw_token (w_draws w)) row /\
     forall tokens, r = Ok tokens ->
       at_session tokens = row /\ at_refresh_token tokens = draw_token (w_draws w)).
Proof. apply issue_tokens_run. Qed.
End SignIns.

(** * Witnesses *)

Section Witnesses.
Import Run.
#[local] Existing Instance calm.

Lemma calm_answered : all_answered.
Proof. by intros n. Qed.

Lemma verify_token_state_sound_witness :
  r_exists (w_redis world) (w_wall world) (jti_block_key 5%N) = false /\
  exists row, t_sessions (w_db world) !! 2%N = Some row /\ s_revoked_at row = None.
Proof.
  destruct (verify_token_state_sound 5%N 2%N world (verify_token_state 5%N 2%N world).1 true)
    as [Hb [Hc|(_ & row & Hrow & Hr & _)]].
  - apply run_answer. vm_compute. reflexivity.
  - exfalso. revert Hc. vm_compute. discriminate.
  - split; [exact Hb|]. exists row. by split.
Defined.

Lemma revocation_marker_holds_witness :
  let w1 := (invalidate_session_caches [1%N; 2%N] world).1 in
  let w2 := with_redis (foldl (late_fill 2%N) (w_redis w1) [(21 * NS, CACHED_FIRST_PARTY)]) world in
  (verify_token_state 5%N 2%N w2).2 = Err TokenInvalid \/
  (verify_token_state 5%N 2%N w2).2 = Err Unauthorized.
Proof.
  intros w1 w2.
  apply (revocation_marker_holds [1%N; 2%N] 2%N 5%N world w1 [(21 * NS, CACHED_FIRST_PARTY)]).
  - apply calm_answered.
  - apply (bool_decide_unpack _). vm_compute. exact I.
  - apply run_answer. reflexivity.
  - constructor; [vm_compute; reflexivity|constructor].
  - reflexivity.
  - vm_compute. reflexivity.
Defined.

Definition example_sign_in : SignIn :=
  {| si_identifier := Some u"ada"; si_request_id := None; si_audit_metadata := JObj [];
     si_second_factor := true |}.

Lemma issue_tokens_atomic_witness :
  let run := issue_tokens 7%N None None None false Web None None (Some example_sign_in) world in
  exists row, opened world run.1 7%N None false Web None None (Some example_sign_in)
                (draw_token 0) row /\ s_mfa row = true.
Proof.
  intros run.
  destruct (issue_tokens_atomic 7%N None None None false Web None None (Some example_sign_in) world
              run.1 run.2) as [[[e He] _]|(row & Hrow & _)].
  - apply surjective_pairing.
  - exfalso. revert He. vm_compute. discriminate.
  - exists row. split; [exact Hrow|]. by destruct (op_for _ _ _ _ _ _ _ _ _ _ _ Hrow) as (_ & _ & _ & _ & ->).
Defined.
End Witnesses.
