(* ===== verification/Refresh.v ===== *)
(** Refresh token rotation and logout (src/src/services/auth/session.rs), with
    the status check of src/src/services/auth/guards.rs and the
    re-authentication marker of src/src/services/reauth.rs. *)
From S2P Require Import Prelude Crates Session Account OAuthDomain Network Edge Tables App RedisCounter SessionRepo Repos Tokens.
Import Account.User Account.Audit.

Definition MAX_REFRESH_FAILURES_BY_IP : Z := 20.
Definition REFRESH_FAILURE_WINDOW_SECS : Z := 900.
Definition REFRESH_REUSE_GRACE : Duration := seconds 1.

Definition ensure_status_allows_sign_in (user : User) : result unit AppError :=
  match u_status user with
  | ActiveUser => Ok tt
  | Suspended => Err AccountSuspendedError
  | Inactive => Err AccountInactive
  | PendingVerification => Err EmailNotVerified
  end.

Definition ensure_account_usable (user : User) : result unit AppError :=
  ensure_status_allows_sign_in user.

Definition refresh_failure_key (ip : IpNetwork) : str :=
  u"refresh_fail:" ++ IpBucket.ip_bucket (net_ip ip).

Section SameNetwork.
Context `{IpNetworkCrate}.

Definition network_prefix (ip : IpAddr) : option IpNetwork :=
  let len := match ip with V4 _ => 24 | V6 _ => 48 end in
  n ← net_new ip len;
  net_new (net_network n) len.

Definition same_network (a b : option IpNetwork) : option bool :=
  a ← a;
  b ← b;
  pa ← network_prefix (net_ip a);
  pb ← network_prefix (net_ip b);
  Some (bool_decide (pa = pb)).
End SameNetwork.

Section Refresh.
Context `{RedisServer} `{Env} `{TimeCrate} `{CryptoCrates} `{SqlText} `{IpNetworkCrate} `{Jwt}.

(** Counted against the address, best effort. *)
Definition note_refresh_failure (ip : option IpNetwork) : M AppError unit :=
  match ip with
  | None => mret tt
  | Some ip =>
      _ ← attempt (consume [{| bg_key := refresh_failure_key ip;
                               bg_limit := MAX_REFRESH_FAILURES_BY_IP;
                               bg_window_secs := REFRESH_FAILURE_WINDOW_SECS |}]);
      mret tt
  end.

Definition rotated_by_this_client (session : Session) (ip : option IpNetwork)
    (user_agent : option str) : M AppError bool :=
  match s_replaced_by session with
  | None => mret false
  | Some next_id =>
      found ← attempt (find_by_id next_id);
      match found with
      | Ok (Some next) =>
          let network_matches :=
            match s_ip_address next, ip with
            | None, None => true
            | a, b => bool_decide (same_network a b = Some true)
            end in
          mret (network_matches && bool_decide (s_user_agent next = user_agent))
      | _ => mret false
      end
  end.

Definition replay_entry (session : Session) (ip : option IpNetwork) (request_id : option Uuid)
    (extra : list (str * json)) : NewAuditEntry :=
  {| na_user_id := Some (s_user_id session); na_request_id := request_id;
     na_action := SessionReplayDetected; na_ip_address := ip;
     na_metadata := JObj (extra ++ [(u"session_id", JStr (uuid_str (s_id session)))]) |}.

(** The guard on the address: open when Redis does not answer. *)
Definition check_refresh_budget (ip : option IpNetwork) : M AppError unit :=
  match ip with
  | None => mret tt
  | Some ip =>
      failures ← attempt (peek (refresh_failure_key ip));
      match failures with
      | Ok n => if MAX_REFRESH_FAILURES_BY_IP <=? n then fail RateLimitExceededError else mret tt
      | Err _ => mret tt
      end
  end.

(** The blocklist: silent when Redis does not answer, the database decides. *)
Definition check_blocklist (token_hash : bytes) : M AppError unit :=
  blocked ← attempt (is_refresh_token_blocked token_hash);
  match blocked with
  | Ok true => fail TokenInvalid
  | Ok false => mret tt
  | Err (ServiceUnavailable _) => mret tt
  | Err e => fail e
  end.

Definition refresh_policy : RefreshPolicy :=
  {| reuse_grace := REFRESH_REUSE_GRACE;
     Session.max_lifetime_secs := App.max_session_lifetime_secs (cfg_jwt config);
     strict_binding := strict_session_binding (cfg_jwt config) |}.

(** The family is revoked, the replay audited, the token refused. *)
Definition refuse_replay (session : Session) (ip : option IpNetwork) (request_id : option Uuid)
    (extra : list (str * json)) : M AppError unit :=
  _ ← Tokens.revoke_family (s_id session);
  _ ← internal (audit_append (replay_entry session ip request_id extra));
  fail TokenInvalid.

(** The verdict, with what a refusal does; returns only to rotate. *)
Definition judge (session : Session) (ip : option IpNetwork) (user_agent : option str)
    (request_id : option Uuid) : M AppError unit :=
  now ← clock_now;
  match refresh_verdict session now (net_ip <$> ip) refresh_policy with
  | Rotate => mret tt
  | ConcurrentRefresh =>
      same ← rotated_by_this_client session ip user_agent;
      if same : bool then fail TokenInvalid
      else
        _ ← note_refresh_failure ip;
        refuse_replay session ip request_id [(u"reason", JStr u"reused_by_another_client")]
  | Expired => fail TokenExpired
  | Replay =>
      _ ← note_refresh_failure ip;
      refuse_replay session ip request_id []
  | AddressMismatch =>
      _ ← note_refresh_failure ip;
      _ ← internal (audit_append
            {| na_user_id := Some (s_user_id session); na_request_id := request_id;
               na_action := SessionReplayDetected; na_ip_address := ip;
               na_metadata := JObj
                 [(u"reason", JStr u"ip_mismatch");
                  (u"same_network", match same_network (s_ip_address session) ip with
                                    | Some b => JBool b | None => JNull end);
                  (u"session_id", JStr (uuid_str (s_id session)))] |});
      fail TokenInvalid
  end.

Definition rotation_input (session : Session) (user_id : Uuid) (expires_at : Z)
    (new_hash : bytes) (ip : option IpNetwork) (user_agent : option str) : NewSession :=
  {| ns_user_id := user_id; ns_family := s_family session; ns_expires_at := expires_at;
     ns_ip_address := ip; ns_device_name := s_device_name session;
     ns_remember_me := s_remember_me session; ns_token_hash := new_hash;
     ns_user_agent := user_agent; ns_session_type := s_session_type session;
     ns_client_id := s_client_id session;
     ns_family_created_at := Some (s_family_created_at session);
     ns_scopes := None; ns_mfa := s_mfa session |}.

Definition refresh_expiry (now : Z) (session : Session) : Z :=
  capped_expiry now (session_ttl_secs (cfg_jwt config) (s_remember_me session))
    (s_family_created_at session) (App.max_session_lifetime_secs (cfg_jwt config)).

(** The rotation lost to another request between the read and the lock. *)
Definition lost_rotation (session : Session) (ip : option IpNetwork) (user_agent : option str)
    (request_id : option Uuid) : M AppError unit :=
  found ← attempt (find_by_id (s_id session));
  now ← clock_now;
  same ← match found with
         | Ok (Some current) =>
             if rotated_within current REFRESH_REUSE_GRACE now
             then rotated_by_this_client current ip user_agent else mret false
         | _ => mret false
         end;
  if same : bool then fail TokenInvalid
  else refuse_replay session ip request_id [].

Definition refresh_token (raw_token : str) (client_id : option str) (ip : option IpNetwork)
    (user_agent : option str) (request_id : option Uuid) : M AppError AuthTokens :=
  _ ← check_refresh_budget ip;
  let token_hash := hash_token raw_token in
  _ ← check_blocklist token_hash;
  found ← internal (find_by_token_hash token_hash);
  match found with
  | None => _ ← note_refresh_failure ip; fail TokenInvalid
  | Some session =>
      if negb (bool_decide (s_client_id session = client_id))
      then _ ← note_refresh_failure ip; fail TokenInvalid
      else
        _ ← judge session ip user_agent request_id;
        found ← internal (user_find_by_id (s_user_id session));
        user ← ok_or found Unauthorized;
        _ ← lift (ensure_status_allows_sign_in user);
        new_raw_token ← generate_token;
        let new_hash := hash_token new_raw_token in
        now ← clock_now;
        rotated ← attempt (rotate (s_id session)
                    (rotation_input session (u_id user) (refresh_expiry now session) new_hash
                       ip user_agent));
        match rotated with
        | Err RowNotFound =>
            _ ← lost_rotation session ip user_agent request_id;
            fail TokenInvalid
        | Err _ => fail Internal
        | Ok new_session =>
            access_token ← build_access_token (u_id user) (s_id new_session)
                             (s_scopes new_session) (s_client_id new_session)
                             (s_session_type new_session);
            mret {| at_access_token := access_token; at_refresh_token := new_raw_token;
                    at_session := new_session |}
        end
  end.

(** ** Logout *)

Definition reauth_key (session_id : Uuid) : str := u"reauth:" ++ uuid_str session_id.

Definition clear_recent_reauth (session_id : Uuid) : M AppError unit :=
  best_effort (fun s t => r_del s t (reauth_key session_id)).

Definition logout (session_id user_id jti : Uuid) (token_exp : Z) (ip : option IpNetwork)
    (request_id : option Uuid) : M AppError unit :=
  session ← internal (find_by_id session_id);
  _ ← internal (revoke session_id);
  _ ← invalidate_session_cache session_id;
  _ ← blocklist_jti jti token_exp;
  _ ← match session with
      | Some s =>
          _ ← blocklist_refresh_token (s_token_hash s) (s_expires_at s);
          clear_recent_reauth (s_id s)
      | None => mret tt
      end;
  internal (audit_append {| na_user_id := Some user_id; na_request_id := request_id;
    na_action := Logout; na_ip_address := ip;
    na_metadata := JObj [(u"session_id", JStr (uuid_str session_id))] |}).
End Refresh.

#[global] Arguments reauth_key {_} _ : simpl never.
#[global] Arguments refresh_failure_key _ : simpl never.
