(* ===== verification/RefreshCorrect.v ===== *)
(** Theorems about refresh and logout: what they do to the sessions table and
    to Redis, whatever fails on the way. *)
From S2P Require Import Prelude Crates Session Account OAuthDomain Network Edge Tables App RedisCounter SessionRepo Repos Tokens Scenario TokensCorrect Refresh.
Import Account.User Account.Audit.

Section Refinement.
Context `{RedisServer} `{Env} `{TimeCrate} `{CryptoCrates} `{SqlText} `{IpNetworkCrate} `{Jwt}.

Abbreviation sessions w := (t_sessions (w_db w)).

(** ** Operations that touch no table *)

Lemma keeps_consume (R : World -> World -> Prop) `{!CoreFrame R, !RedisFrame R} (bs : list Budget) :
  keeps R (consume bs).
Proof. unfold consume, run. frame_auto. Qed.

Lemma keeps_note_failure (R : World -> World -> Prop) `{!CoreFrame R, !RedisFrame R} (ip : option IpNetwork) :
  keeps R (note_refresh_failure ip).
Proof. unfold note_refresh_failure. frame_auto. by apply keeps_consume. Qed.

Lemma keeps_check_budget (R : World -> World -> Prop) `{!CoreFrame R, !RedisFrame R} (ip : option IpNetwork) :
  keeps R (check_refresh_budget ip).
Proof. unfold check_refresh_budget, peek. frame_auto. Qed.

Lemma keeps_check_blocklist (R : World -> World -> Prop) `{!CoreFrame R, !RedisFrame R} (h : bytes) :
  keeps R (check_blocklist h).
Proof. unfold check_blocklist, is_refresh_token_blocked. frame_auto. Qed.

Lemma keeps_rotated_by (R : World -> World -> Prop) `{!CoreFrame R, !RedisFrame R} s ip ua :
  keeps R (rotated_by_this_client s ip ua).
Proof. unfold rotated_by_this_client, find_by_id. frame_auto. Qed.

Hint Resolve keeps_note_failure keeps_check_budget keeps_check_blocklist keeps_rotated_by : frame.

(** ** Steps of the sessions table *)

(** The table moved by statements of its repository, at the database's time. *)
Definition sess_rel (w w' : World) : Prop :=
  same_clocks w w' /\ rtc (session_step (w_wall w)) (sessions w) (sessions w').

#[export] Instance sess_rel_frame : Frame sess_rel.
Proof.
  constructor; [constructor| |]; unfold SleepFrame, RedisFrame, sess_rel; try (intros; split; [done|apply rtc_refl]).
  intros w1 w2 w3 [[Hn Hw] S1] [[Hn' Hw'] S2]. split; [split; congruence|].
  rewrite Hw in S2. by etrans.
Qed.

Lemma keeps_execute_steps {A} (f : Db -> Z -> result (Db * A) SqlError) :
  (forall d now d' a, f d now = Ok (d', a) ->
     rtc (session_step now) (t_sessions d) (t_sessions d')) ->
  keeps sess_rel (execute f).
Proof.
  intros Hf w. unfold sess_rel. destruct (execute_run f w) as [Hc [->|(a & Ha)]]; (split; [done|]).
  - apply rtc_refl.
  - by apply Hf in Ha.
Qed.

Lemma keeps_audit (e : NewAuditEntry) : keeps sess_rel (audit_append e).
Proof. apply keeps_execute_steps. intros d now d' a [= <- _]. apply rtc_refl. Qed.

Lemma keeps_repo_revoke_family (id : Uuid) : keeps sess_rel (SessionRepo.revoke_family id).
Proof.
  apply keeps_execute_steps. intros d now d' a.
  destruct (revoke_session_family _ _ _ _) as [[t n]|] eqn:E; [|done].
  intros [= <- _]. cbn. apply rtc_once. by eapply step_family.
Qed.

Lemma keeps_repo_revoke (id : Uuid) : keeps sess_rel (revoke id).
Proof.
  apply keeps_execute_steps. intros d now d' a [= <- _]. apply rtc_once. apply step_revoke.
Qed.

Hint Resolve keeps_audit keeps_repo_revoke_family keeps_repo_revoke : frame.

Lemma keeps_revoke_family (id : Uuid) : keeps sess_rel (Tokens.revoke_family id).
Proof. unfold Tokens.revoke_family, internal, family_session_ids. frame_auto. Qed.

Hint Resolve keeps_revoke_family : frame.

Lemma keeps_refuse_replay s ip rid extra : keeps sess_rel (refuse_replay s ip rid extra).
Proof. unfold refuse_replay, internal. frame_auto. Qed.

Hint Resolve keeps_refuse_replay : frame.

Lemma keeps_judge s ip ua rid : keeps sess_rel (judge s ip ua rid).
Proof. unfold judge, clock_now, internal. frame_auto. Qed.

Lemma keeps_lost_rotation s ip ua rid : keeps sess_rel (lost_rotation s ip ua rid).
Proof. unfold lost_rotation, find_by_id, clock_now. frame_auto. Qed.

Hint Resolve keeps_judge keeps_lost_rotation : frame.

(** ** The rotation *)

(** A committed rotation of [old_id]. *)
Definition rotated_to (w w' : World) (old_id : Uuid) (input : NewSession) (new : Session) : Prop :=
  exists old id, sessions w !! old_id = Some old /\ s_revoked_at old = None /\
    new = rotation_row id (w_wall w) old input /\
    sessions w !! id = None /\
    (forall i s, sessions w !! i = Some s -> s_token_hash s <> ns_token_hash input) /\
    w_wall w < ns_expires_at input /\ length (ns_token_hash input) = 32%nat /\
    w_db w' = set_sessions (fun t => alter (rotated_row (w_wall w) id) old_id (<[id := new]> t)) (w_db w).

Lemma rotate_run (old_id : Uuid) (input : NewSession) (w w' : World) (r : result Session SqlError) :
  rotate old_id input w = (w', r) ->
  same_clocks w w' /\
  (((exists e, r = Err e) /\ w_db w' = w_db w) \/
   (exists new, rotated_to w w' old_id input new /\ (r = Ok new \/ r = Err SqlFailed))).
Proof.
  intros Hr. split; [eapply keeps_run, Hr; unfold rotate; frame_auto|].
  unfold rotate in Hr. apply transaction_run in Hr.
  destruct Hr as [?|(w2 & a & Hbody & Hdb' & Hc' & Hra)]; [by left|right].
  assert (same_db w (bump_io w)) as [Hdb1 Hc1] by done. revert Hdb1 Hc1 Hbody.
  generalize (bump_io w). intros w1 Hdb1 Hc1 Hbody.
  exists a. unbind Hbody found w3 R1. read_run R1. destruct R1 as [Hdb3 Hc3].
  unbind Hbody old w4 Hold. read_run Hold.
  case_bool_decide as Hlive; [by apply fail_Ok in Hbody|].
  unbind Hbody nid w5 R2. injection R2 as <- <-.
  unbind Hbody row w6 R3. read_run R3. destruct R3 as [Hins Hc6].
  unbind Hbody x w7 R4. read_run R4. destruct R4 as [Hup Hc7].
  apply ret_Ok in Hbody as [-> ->]. unfold same_clocks in *.
  assert (w_wall (bump_draws w3) = w_wall w) as Hwall by (cbn; intuition congruence).
  assert (w_wall w6 = w_wall w) as Hwall6 by intuition congruence.
  assert (w_db (bump_draws w3) = w_db w) as Hdb5 by (cbn; congruence).
  rewrite Hwall, Hdb5 in Hins. apply insert_row_Ok in Hins as (Erow & Hd6 & Hfresh & Hhash & He & Hl).
  rewrite Hwall6, Hd6 in Hup. injection Hup as Hup. split; [|done].
  exists old, (draw_uuid (w_draws w3)). rewrite <- Hdb1. split_and!; try done.
  - by apply eq_None_not_Some in Hlive.
  - by rewrite Hdb1.
  - by rewrite Hdb1.
  - rewrite Hdb', <- Hup, Hdb1, Erow. done.
Qed.

Lemma rotated_to_step (w w' : World) (old_id : Uuid) (old : Session) (input : NewSession) (new : Session) :
  rotated_to w w' old_id input new ->
  sessions w !! old_id = Some old -> ns_family input = s_family old ->
  (forall id now, fields_of (rotation_row id now old input) = fields_of old) ->
  session_step (w_wall w) (sessions w) (sessions w').
Proof.
  intros (old' & id & Hold & Hlive & Hnew & Hid & Hhash & He & Hl & Hdb) Hold' Hf Hff.
  rewrite Hold in Hold'. injection Hold' as ->. subst new. rewrite Hdb. cbn. apply (step_rotate _ _ _ old); try done. by apply new_row_ok.
Qed.

(** ** The verdict lets a request through only to rotate *)

Lemma refuse_replay_not_Ok s ip rid extra (w w' : World) (x : unit) :
  refuse_replay s ip rid extra w = (w', Ok x) -> False.
Proof.
  unfold refuse_replay. intros R. unbind R a w1 R1. unbind R b w2 R2. by apply fail_Ok in R.
Qed.

Lemma judge_Ok s ip ua rid (w w' : World) (x : unit) :
  judge s ip ua rid w = (w', Ok x) ->
  w' = w /\ refresh_verdict s (w_now w) (net_ip <$> ip) refresh_policy = Rotate.
Proof.
  unfold judge. intros R. unbind R now w1 R1. unfold clock_now in R1. read_run R1.
  destruct (refresh_verdict _ _ _ _).
  - by apply ret_Ok in R as [_ ->].
  - unbind R same w2 R2. destruct same; [by apply fail_Ok in R|]. unbind R b w3 R3.
    by apply refuse_replay_not_Ok in R.
  - unbind R b w3 R3. by apply refuse_replay_not_Ok in R.
  - by apply fail_Ok in R.
  - unbind R b w3 R3. unbind R c w4 R4. by apply fail_Ok in R.
Qed.

(** ** Refreshing is a run of table steps *)

Lemma by_token_hash_Some (h : bytes) (t : Sessions) (s : Session) (now : Z) :
  table_ok now t -> by_token_hash h t = Some s -> t !! s_id s = Some s /\ s_token_hash s = h.
Proof.
  intros Hok (p & Hf & ->)%fmap_Some. apply find_some in Hf as [Hin Hh].
  apply bool_decide_eq_true in Hh. destruct p as [i s]. cbn in *.
  apply list_elem_of_In, elem_of_map_to_list in Hin. by rewrite (ok_keyed _ _ Hok i s Hin).
Qed.

(** The [users] table is keyed by its rows' ids. *)
Definition users_ok (d : Db) : Prop :=
  forall i r, t_users d !! i = Some r -> u_id (ur_user r) = i.

Lemma rotation_fields (session : Session) (id : Uuid) (now e : Z) (h : bytes) ip ua :
  fields_of (rotation_row id now session
               (rotation_input session (s_user_id session) e h ip ua)) = fields_of session.
Proof. done. Qed.

Lemma refresh_refines_table (raw : str) cid ip ua rid (w : World) :
  table_ok (w_wall w) (sessions w) -> users_ok (w_db w) ->
  sess_rel w (refresh_token raw cid ip ua rid w).1.
Proof.
  intros Hok Hu. unfold refresh_token, internal.
  assert (forall E A B (m : M E A) (k : A -> M E B) w0, same_db w w0 ->
    keeps same_db m -> keeps sess_rel m ->
    (forall a w1, m w0 = (w1, Ok a) -> same_db w w1 -> sess_rel w1 (k a w1).1) ->
    sess_rel w0 ((m ≫= k) w0).1) as Hseq.
  { intros E A B m k w0 S0 Kd Ks Hk. apply (at_bind sess_rel); [by apply Ks|].
    intros a w1 Hm. apply Hk; [done|]. eapply (frame_trans w w0); [done|].
    by eapply keeps_run. }
  apply Hseq; [by apply frame_refl|auto with frame..|]. intros [] w1 _ S1.
  apply Hseq; [done|auto with frame..|]. intros [] w2 _ S2.
  apply Hseq; [done|unfold find_by_token_hash; frame_auto..|]. intros found w3 Rf S3.
  apply map_err_Ok in Rf. unfold find_by_token_hash in Rf. apply query_Ok in Rf as [-> _].
  destruct S2 as [E2 _]. rewrite E2.
  destruct (by_token_hash _ _) as [session|] eqn:Ef;
    [|apply (keeps_bind (R := sess_rel)); [auto with frame|intros; apply keeps_fail]].
  apply (by_token_hash_Some _ _ _ _ Hok) in Ef as [Hs _].
  case_cond; [apply (keeps_bind (R := sess_rel)); [auto with frame|intros; apply keeps_fail]|].
  apply (at_bind sess_rel); [apply keeps_judge|]. intros [] w4 Hj.
  apply judge_Ok in Hj as [-> _].
  apply Hseq; [done|unfold user_find_by_id; frame_auto..|]. intros ou w5 Ru S5.
  apply map_err_Ok in Ru. unfold user_find_by_id in Ru. apply query_Ok in Ru as [-> _].
  destruct S3 as [E3 _]. rewrite E3.
  apply Hseq; [done|frame_auto..|]. intros user w6 Rok S6. apply ok_or_Ok in Rok as [Huser _].
  apply fmap_Some in Huser as (row & Hrow & ->). rewrite (Hu _ _ Hrow).
  apply Hseq; [done|frame_auto..|]. intros [] w7 _ S7.
  apply Hseq; [done|frame_auto..|]. intros new_raw w8 _ S8.
  apply Hseq; [done|unfold clock_now; frame_auto..|]. intros now w9 _ S9.
  unfold mbind at 1, M_bind at 1. unfold attempt.
  destruct (rotate _ _ w9) as [w10 r] eqn:Er. apply rotate_run in Er as [Hc Hr].
  assert (sess_rel w9 w10) as S10.
  { split; [done|]. destruct Hr as [[_ Hdb]|(new & Hto & _)]; [rewrite Hdb; apply rtc_refl|].
    apply rtc_once. destruct S9 as [E9 _]. eapply rotated_to_step; [exact Hto| |done|done].
    by rewrite E9. }
  eapply (frame_trans w9 w10); [done|].
  destruct r as [new|[]].
  - apply (keeps_bind (R := sess_rel)); [auto with frame|intros; apply keeps_ret].
  - apply (keeps_bind (R := sess_rel)); [auto with frame|intros; apply keeps_fail].
  - apply keeps_fail.
  - apply keeps_fail.
  - apply keeps_fail.
Qed.

(** C34: a refresh, whatever it answers and whatever fails on the way, moves the
    sessions table only by the statements of its repository, so it stays a
    table those statements can reach: one live session per family, uniform
    families. *)
Theorem refresh_refines (raw : str) cid ip ua rid (w : World) :
  reachable (w_wall w) (sessions w) -> users_ok (w_db w) ->
  let w' := (refresh_token raw cid ip ua rid w).1 in
  w_wall w' = w_wall w /\ rtc (session_step (w_wall w)) (sessions w) (sessions w') /\
  reachable (w_wall w') (sessions w').
Proof.
  intros Hr Hu. cbn zeta. destruct (refresh_refines_table raw cid ip ua rid w) as [[_ Hw] Hst];
    [by apply reachable_ok|done|]. split_and!; [done..|]. rewrite Hw.
  revert Hr Hst. generalize (sessions w), (sessions (refresh_token raw cid ip ua rid w).1).
  intros t t' Hr Hst. induction Hst as [t|t1 t2 t3 Hstep _ IH]; [done|].
  apply IH. by apply (reach_step (w_wall w) (w_wall w) t1).
Qed.

(** ** What a successful refresh means *)

Lemma rotated_lookup (w w' : World) (old_id : Uuid) (input : NewSession) (new : Session) :
  rotated_to w w' old_id input new ->
  exists old, sessions w !! old_id = Some old /\
    sessions w' !! s_id new = Some new /\
    sessions w' !! old_id = Some (rotated_row (w_wall w) (s_id new) old).
Proof.
  intros (old & id & Hold & _ & -> & Hid & _ & _ & _ & Hdb). exists old.
  assert (id <> old_id) by congruence. rewrite Hdb. cbn. split_and!; [done| |].
  - by rewrite lookup_alter_ne, lookup_insert_eq.
  - by rewrite lookup_alter_eq, lookup_insert_ne, Hold.
Qed.

Lemma refresh_Ok (raw : str) cid ip ua rid (w w' : World) (tokens : AuthTokens) :
  table_ok (w_wall w) (sessions w) ->
  refresh_token raw cid ip ua rid w = (w', Ok tokens) ->
  exists session row w9,
    same_db w w9 /\
    sessions w !! s_id session = Some session /\ s_token_hash session = hash_token raw /\
    s_client_id session = cid /\
    refresh_verdict session (w_now w) (net_ip <$> ip) refresh_policy = Rotate /\
    t_users (w_db w) !! s_user_id session = Some row /\ u_status (ur_user row) = ActiveUser /\
    exists w10, rotated_to w9 w10 (s_id session)
        (rotation_input session (u_id (ur_user row)) (refresh_expiry (w_now w) session)
           (hash_token (at_refresh_token tokens)) ip ua) (at_session tokens) /\
      same_db w10 w' /\
      exists w11, build_access_token (u_id (ur_user row)) (s_id (at_session tokens))
        (s_scopes (at_session tokens)) (s_client_id (at_session tokens))
        (s_session_type (at_session tokens)) w10 = (w11, Ok (at_access_token tokens)).
Proof.
  intros Hok R. unfold refresh_token, internal in R.
  unbind R x1 w1 R1. apply (keeps_run same_db) in R1; [|auto with frame].
  unbind R x2 w2 R2. apply (keeps_run same_db) in R2; [|auto with frame].
  unbind R found w3 R3. unfold find_by_token_hash in R3. read_run R3.
  assert (same_db w w2) as S2 by (by apply (frame_trans w w1)).
  assert (same_db w w3) as S3 by (by apply (frame_trans w w2)).
  destruct (by_token_hash _ _) as [session|] eqn:Ef; [|unbind R x w4 R4; by apply fail_Ok in R].
  rewrite (proj1 S2) in Ef. apply (by_token_hash_Some _ _ _ _ Hok) in Ef as [Hs Hh].
  case_cond; [unbind R x w4 R4; by apply fail_Ok in R|].
  apply negb_false_iff, bool_decide_eq_true in E.
  unbind R x4 w4 R4. apply judge_Ok in R4 as [-> Hv]. rewrite (proj1 (proj2 S3)) in Hv.
  unbind R ou w5 R5. unfold user_find_by_id in R5. read_run R5.
  assert (same_db w w5) as S5 by (by apply (frame_trans w w3)).
  unbind R user w6 R6. read_run R6. rewrite (proj1 S3) in R6.
  apply fmap_Some in R6 as (row & Hrow & ->).
  unbind R x7 w7 R7. read_run R7. unbind R new_raw w8 R8. injection R8 as <- <-.
  unbind R now w9 R9. unfold clock_now in R9. read_run R9.
  assert (same_db w (bump_draws w5)) as S9 by (by apply (frame_trans w w5)).
  unbind R rot w10 R10. apply attempt_run in R10 as (r & R10 & [= ->]).
  destruct r as [new|[]]; [|unbind R x w11 R11; by apply fail_Ok in R|by apply fail_Ok in R..].
  unbind R tok w11 R11. apply ret_Ok in R as [-> ->].
  apply rotate_run in R10 as [_ [[[e [=]] _]|(new' & Hto & [[= <-]|[=]])]].
  exists session, row, (bump_draws w5).
  unfold ensure_status_allows_sign_in in R7.
  split_and!; [done..|by destruct (u_status (ur_user row))|].
  exists w10. cbn [at_session at_refresh_token at_access_token].
  split_and!; [|by eapply keeps_run, R11; auto with frame|by eexists].
  by rewrite <- (proj1 (proj2 S9)).
Qed.

(** C1: a refresh succeeds only for the live session the token names, held by
    the client that asks, not expired, within the family's lifetime, of an
    active account; and then the presented token is spent in the same
    transaction that opens its successor: the old row is revoked and points to
    the new one, which is live, keeps the family's account, client, type,
    start and second-factor proof, is known by the hash of the new token only,
    and ends no later than the family may live. *)
Theorem refresh_sound (raw : str) cid ip ua rid (w w' : World) (tokens : AuthTokens) :
  reachable (w_wall w) (sessions w) -> users_ok (w_db w) ->
  (0 <= App.max_session_lifetime_secs (cfg_jwt config)) ->
  (forall i s, sessions w !! i = Some s -> dt_min <= s_family_created_at s <= dt_max) ->
  refresh_token raw cid ip ua rid w = (w', Ok tokens) ->
  exists old, let new := at_session tokens in
    sessions w !! s_id old = Some old /\ s_token_hash old = hash_token raw /\
    s_client_id old = cid /\ s_revoked_at old = None /\ w_now w < s_expires_at old /\
    (exists row, t_users (w_db w) !! s_user_id old = Some row /\ u_status (ur_user row) = ActiveUser) /\
    sessions w' !! s_id old = Some (rotated_row (w_wall w) (s_id new) old) /\
    sessions w' !! s_id new = Some new /\ s_revoked_at new = None /\
    s_family new = s_family old /\ fields_of new = fields_of old /\
    s_token_hash new = hash_token (at_refresh_token tokens) /\
    s_expires_at new <= s_family_created_at old
                        + seconds (App.max_session_lifetime_secs (cfg_jwt config)).
Proof.
  intros Hr Hu Hmax Hdt Hrun. apply reachable_ok in Hr.
  destruct (refresh_Ok _ _ _ _ _ _ _ _ Hr Hrun)
    as (old & row & w9 & S9 & Hs & Hh & Hc & Hv & Hrow & Hst & w10 & Hto & S10 & _).
  exists old. cbn zeta. apply refresh_verdict_rotate in Hv as (Hlive & Hexp & _ & _).
  destruct (rotated_lookup _ _ _ _ _ Hto) as (old' & Hold' & Hnew & Hrot).
  destruct Hto as (old'' & id & Hold'' & _ & Enew & _).
  rewrite (proj1 S9) in Hold', Hold''. simplify_eq.
  rewrite (proj1 S10), <- (proj2 (proj2 S9)).
  split_and!; try done; [by eauto|..].
  - by rewrite Enew.
  - by rewrite Enew.
  - rewrite Enew, (Hu _ _ Hrow). apply rotation_fields.
  - by rewrite Enew.
  - rewrite Enew. cbn. by apply capped_expiry_lifetime; [eapply Hdt|].
Qed.
(** ** Replays *)

(** Redis keeps its content. *)
Definition same_redis (w w' : World) : Prop := w_redis w' = w_redis w /\ w_wall w' = w_wall w.

Lemma check_budget_run ip (w w' : World) (r : result unit AppError) :
  check_refresh_budget ip w = (w', r) ->
  same_db w w' /\ same_redis w w' /\ (r = Ok tt \/ r = Err RateLimitExceededError).
Proof.
  intros R. split; [by eapply keeps_run, R; auto with frame|]. revert R.
  unfold check_refresh_budget. destruct ip as [ip|]; [|intros [= <- <-]; split; [done|by left]].
  unfold peek, mbind, M_bind, map_err, attempt, redis_conn, redis_cmd, io.
  destruct (io_plan (w_io w)); cbn; try (intros [= <- <-]; split; [done|by left]).
  destruct (io_plan (S (w_io w))); cbn; try (intros [= <- <-]; split; [done|by left]).
  case_cond; intros [= <- <-]; (split; [done|auto]).
Qed.

Lemma check_blocklist_run h (w w' : World) (r : result unit AppError) :
  check_blocklist h w = (w', r) ->
  same_db w w' /\
  (r = Ok tt \/ (r = Err TokenInvalid /\ r_exists (w_redis w) (w_wall w) (rt_block_key h) = true)).
Proof.
  intros R. split; [by eapply keeps_run, R; auto with frame|]. revert R.
  unfold check_blocklist, is_refresh_token_blocked, mbind, M_bind, map_err, attempt, redis_conn,
    redis_cmd, io.
  destruct (io_plan (w_io w)); cbn; try (intros [= <- <-]; by left).
  destruct (io_plan (S (w_io w))); cbn; try (intros [= <- <-]; by left).
  destruct (r_exists _ _ _) eqn:E; cbn; intros [= <- <-]; auto.
Qed.

(** Every session of the family is revoked and marked compromised. *)
Definition family_revoked (t : Sessions) (family : Uuid) : Prop :=
  forall i s, t !! i = Some s -> s_family s = family ->
    is_Some (s_revoked_at s) /\ is_Some (s_compromised_at s) /\ is_Some (s_compromise_reason s).

Lemma revoke_session_family_all id reason now (t t' : Sessions) n target :
  revoke_session_family id reason now t = Ok (t', n) -> t !! id = Some target ->
  family_revoked t' (s_family target).
Proof.
  intros (target' & Ht & Hl)%revoke_session_family_spec Ht' i s' Hs' Ef.
  rewrite Ht' in Ht. injection Ht as <-.
  rewrite Hl in Hs'. apply fmap_Some in Hs' as (s & Hs & ->).
  assert (s_family s = s_family target) as Ef' by (revert Ef; by case_cond).
  rewrite bool_decide_true by done. cbn [andb]. case_cond.
  - cbn. split_and!; by eexists.
  - rewrite !orb_false_iff, !bool_decide_eq_false in E.
    rewrite <- !not_eq_None_Some. tauto.
Qed.

Lemma refuse_replay_run s target ip rid extra (w w' : World) :
  sessions w !! s_id s = Some target ->
  refuse_replay s ip rid extra w = (w', Err TokenInvalid) ->
  family_revoked (sessions w') (s_family target) /\
  exists e, t_audit_log (w_db w') = t_audit_log (w_db w) ++ [e] /\
    al_action e = SessionReplayDetected /\ al_user_id e = Some (s_user_id s).
Proof.
  intros Ht. unfold refuse_replay. rewrite bind_run.
  intros [(x & w1 & R1 & R)|(e & R & [= <-])].
  2:{ exfalso. revert R. unfold Tokens.revoke_family, internal. rewrite bind_run.
      intros [(x & w1 & _ & R)|(e & R & [= <-])];
        [|unfold map_err in R; by destruct (SessionRepo.revoke_family _ w) as [? []]].
      revert R. rewrite bind_run. intros [(y & w2 & _ & R)|(e & R & [= <-])].
      - unfold invalidate_session_caches in R. revert R. case_bool_decide; [done|].
        unfold best_effort, mbind, M_bind, attempt. destruct (redis_conn w2) as [? []]; [|done].
        by destruct (redis_cmd _ _).
      - unfold map_err in R. by destruct (family_session_ids _ w1) as [? []]. }
  unfold Tokens.revoke_family, internal in R1.
  unbind R1 n w2 R2. apply map_err_Ok in R2. unfold SessionRepo.revoke_family in R2. read_run R2.
  destruct R2 as [R2 _].
  destruct (revoke_session_family _ _ _ _) as [[t' n']|] eqn:Ef; [|done]. injection R2 as Hdb2 _.
  unbind R1 ids w3 R3. apply map_err_Ok in R3. unfold family_session_ids in R3. read_run R3.
  apply (keeps_run same_db) in R1; [|auto with frame].
  assert (w_db w1 = w_db w2) as Hdb1 by (rewrite (proj1 R1); apply R3).
  revert R. rewrite bind_run. intros [(y & w4 & R4 & R)|(e & R & [= <-])].
  2:{ exfalso. revert R. unfold internal, map_err. by destruct (audit_append _ w1) as [? []]. }
  injection R as ->. unfold internal in R4. apply map_err_Ok in R4. unfold audit_append in R4.
  read_run R4. destruct R4 as [R4 _]. injection R4 as R4. rewrite <- R4. cbn.
  rewrite Hdb1, <- Hdb2. cbn. split.
  - by eapply revoke_session_family_all.
  - eexists. split; [done|]. done.
Qed.

(** The budget of failed refreshes of the request's address has room. *)
Definition address_has_budget (ip : option IpNetwork) (w : World) : Prop :=
  forall i, ip = Some i ->
    int_of (live (w_wall w) (dump (w_redis w) (refresh_failure_key i))) < MAX_REFRESH_FAILURES_BY_IP.

Lemma check_budget_room ip (w : World) :
  all_answered -> address_has_budget ip w -> (check_refresh_budget ip w).2 = Ok tt.
Proof.
  intros Ha Hb. unfold check_refresh_budget. destruct ip as [i|]; [|done]. specialize (Hb i eq_refl).
  unfold peek, mbind, M_bind, attempt, map_err. rewrite redis_conn_answered by done.
  rewrite redis_cmd_answered by done. cbn -[refresh_failure_key int_of live].
  case_cond; [|done]. apply Z.leb_le in E. lia.
Qed.

Lemma note_failure_Ok ip (w : World) : (note_refresh_failure ip w).2 = Ok tt.
Proof.
  unfold note_refresh_failure, mbind, M_bind, attempt. destruct ip; [|done]. by destruct (consume _ w).
Qed.

Lemma refuse_replay_answered s ip rid extra (w : World) :
  all_answered -> is_Some (sessions w !! s_id s) ->
  (refuse_replay s ip rid extra w).2 = Err TokenInvalid.
Proof.
  intros Ha [target Ht]. unfold refuse_replay, Tokens.revoke_family, internal, map_err.
  unfold SessionRepo.revoke_family, family_session_ids, audit_append, revoke_session_family.
  unfold mbind, M_bind. rewrite execute_answered by done. cbn -[invalidate_session_caches execute].
  rewrite Ht. cbn -[invalidate_session_caches execute]. rewrite query_answered by done.
  unfold invalidate_session_caches.
  case_bool_decide; [|rewrite best_effort_answered by done]; cbn -[execute];
    by rewrite execute_answered.
Qed.

Lemma judge_replay session ip ua rid (w : World) :
  refresh_verdict session (w_now w) (net_ip <$> ip) refresh_policy = Replay ->
  judge session ip ua rid w =
  refuse_replay session ip rid [] (note_refresh_failure ip w).1.
Proof.
  intros Hv. unfold judge, clock_now, asks. unfold mbind at 1, M_bind at 1. rewrite Hv.
  erewrite bind_step; [done|]. by apply run_answer, note_failure_Ok.
Qed.


(** ** Logout *)

Lemma revoke_where_lookup (t : Sessions) (id : Uuid) (s : Session) (now : Z) :
  t !! id = Some s -> s_id s = id ->
  exists s', revoke_where (fun s => bool_decide (s_id s = id)) now t !! id = Some s' /\
    is_Some (s_revoked_at s') /\ s_token_hash s' = s_token_hash s.
Proof.
  intros Hs Hid. unfold revoke_where. rewrite lookup_fmap, Hs. cbn.
  rewrite bool_decide_true by done. cbn. eexists. split; [done|].
  case_bool_decide as Er; cbn; [split; [by eexists|done]|].
  split; [by apply not_eq_None_Some|done].
Qed.

(** Whatever fails, a logout that succeeds revoked the session. *)
Lemma logout_Ok sid uid jti exp ip rid (w w' : World) (x : unit) :
  logout sid uid jti exp ip rid w = (w', Ok x) ->
  sessions w' = revoke_where (fun s => bool_decide (s_id s = sid)) (w_wall w) (sessions w) /\
  same_clocks w w' /\
  exists e, t_audit_log (w_db w') = t_audit_log (w_db w) ++ [e] /\
    al_action e = Logout /\ al_user_id e = Some uid.
Proof.
  intros R. unfold logout, internal in R. unbind R found w1 R1. apply map_err_Ok in R1.
  unfold find_by_id in R1. read_run R1. destruct R1 as [D1 C1].
  unbind R y w2 R2. apply map_err_Ok in R2. unfold revoke in R2. read_run R2. destruct R2 as [D2 C2].
  injection D2 as D2.
  unbind R z w3 R3. apply (keeps_run same_db) in R3 as [D3 C3];
    [|unfold invalidate_session_cache; auto with frame].
  unbind R v w4 R4. apply (keeps_run same_db) in R4 as [D4 C4];
    [|unfold blocklist_jti, clock_now; cbv zeta; frame_auto].
  unbind R q w5 R5. apply (keeps_run same_db) in R5 as [D5 C5];
    [|unfold blocklist_refresh_token, clear_recent_reauth, clock_now; cbv zeta; frame_auto].
  apply map_err_Ok in R. unfold audit_append in R. read_run R. destruct R as [D6 C6].
  injection D6 as D6. unfold same_clocks in *.
  rewrite <- D6, D5, D4, D3, <- D2, D1, (proj2 C1).
  split_and!; [done|intuition congruence..|]. by eexists.
Qed.

Lemma jti_key_apart (jti : Uuid) (h : bytes) (id id' : Uuid) :
  jti_block_key jti <> rt_block_key h /\ jti_block_key jti <> reauth_key id /\
  jti_block_key jti <> session_cache_key id'.
Proof.
  split_and!; unfold jti_block_key, rt_block_key, reauth_key, session_cache_key; intros [=].
Qed.

Lemma blocklist_jti_answered jti exp (w : World) :
  all_answered -> w_now w = w_wall w ->
  (blocklist_jti jti exp w).2 = Ok tt /\
  forall t, w_wall w <= t < exp * NS ->
    r_exists (w_redis (blocklist_jti jti exp w).1) t (jti_block_key jti) = true.
Proof.
  intros Ha Hc. unfold blocklist_jti, clock_now, asks. unfold mbind, M_bind.
  rewrite unix_timestamp_spec, Hc. assert (0 < NS) by done.
  pose proof (Z.mul_div_le (w_wall w) NS ltac:(lia)).
  pose proof (Z.mul_succ_div_gt (w_wall w) NS ltac:(lia)).
  case_cond; breflect.
  - split; [done|]. intros t Ht. exfalso. nia.
  - rewrite best_effort_answered by done. cbn. split; [done|]. intros t Ht.
    unfold r_exists. rewrite dump_set_ex, upd_eq. cbn. unfold alive. cbn.
    destruct (t <? _) eqn:Et; [done|]. breflect. nia.
Qed.

Lemma best_effort_other {E} (cmd : rstore -> Z -> rstore) (k : str) (w : World) :
  (forall s t, dump (cmd s t) k = dump s k) ->
  dump (w_redis ((best_effort cmd : M E unit) w).1) k = dump (w_redis w) k.
Proof.
  intros Hk. unfold best_effort, mbind, M_bind, attempt, redis_conn, redis_cmd, io.
  destruct (io_plan (w_io w)); [|done..]. cbn.
  destruct (io_plan (S (w_io w))); cbn; auto.
Qed.

(** Ending the refresh token leaves the access token's entry alone. *)
Lemma end_refresh_other (found : option Session) (jti : Uuid) (w : World) :
  let m := match found with
           | Some s => _ ← blocklist_refresh_token (s_token_hash s) (s_expires_at s);
                       clear_recent_reauth (s_id s)
           | None => mret tt
           end in
  (m w).2 = Ok tt /\
  dump (w_redis (m w).1) (jti_block_key jti) = dump (w_redis w) (jti_block_key jti).
Proof.
  cbn zeta. destruct found as [s|]; [|done].
  destruct (jti_key_apart jti (s_token_hash s) (s_id s) 0%N) as (K1 & K2 & _).
  assert ((blocklist_refresh_token (s_token_hash s) (s_expires_at s) w).2 = Ok tt /\
    dump (w_redis (blocklist_refresh_token (s_token_hash s) (s_expires_at s) w).1) (jti_block_key jti)
    = dump (w_redis w) (jti_block_key jti)) as [B1 B2].
  { unfold blocklist_refresh_token, clock_now, asks. unfold mbind, M_bind. case_cond; [done|].
    split; [apply best_effort_Ok|]. apply best_effort_other. intros. by rewrite dump_set_ex, upd_ne. }
  erewrite bind_step by (by apply run_answer, B1). rewrite <- B2. unfold clear_recent_reauth.
  split; [apply best_effort_Ok|]. apply best_effort_other. intros. by rewrite dump_del, upd_ne.
Qed.

Lemma logout_answered sid uid jti exp ip rid (w : World) :
  all_answered -> w_now w = w_wall w ->
  (logout sid uid jti exp ip rid w).2 = Ok tt /\
  forall t, w_wall w <= t < exp * NS ->
    r_exists (w_redis (logout sid uid jti exp ip rid w).1) t (jti_block_key jti) = true.
Proof.
  intros Ha Hc. unfold logout, find_by_id, revoke, internal.
  erewrite bind_step by (unfold map_err; by rewrite query_answered).
  erewrite bind_step by (unfold map_err; by rewrite execute_answered).
  set (w1 := with_db _ _).
  erewrite bind_step by (unfold invalidate_session_cache, invalidate_session_caches;
    rewrite bool_decide_false by done; by rewrite best_effort_answered).
  set (w2 := with_redis _ _). assert (w_now w2 = w_wall w2) as Hc2 by exact Hc.
  destruct (blocklist_jti_answered jti exp w2 Ha Hc2) as [B1 B2].
  erewrite bind_step by (by apply run_answer, B1).
  set (w3 := (blocklist_jti jti exp w2).1) in *.
  destruct (end_refresh_other (sessions w !! sid) jti w3) as [B3 B4].
  erewrite bind_step by (by apply run_answer, B3).
  unfold audit_append, map_err. rewrite execute_answered by done. cbn. split; [done|].
  intros t Ht. unfold r_exists. rewrite B4. by apply B2.
Qed.

Lemma verify_blocked jti sid (w : World) :
  r_exists (w_redis w) (w_wall w) (jti_block_key jti) = true ->
  forall fp, (verify_token_state jti sid w).2 <> Ok fp.
Proof.
  intros Hb fp R. apply run_answer in R. unfold verify_token_state in R.
  unbind R x w1 R1. apply map_err_Ok in R1.
  assert (w1 = bump_io w) as -> by (unfold redis_conn, io in R1; destruct (io_plan _); by simplify_eq).
  unbind R reply w2 R2. apply map_err_Ok in R2. unfold redis_cmd, io in R2.
  destruct (io_plan _); [|done..]. injection R2 as <- <-. cbn in R. rewrite Hb in R. cbn in R.
  unbind R y w3 R3. by apply fail_Ok in R3.
Qed.

Lemma revoked_never_refreshes raw cid ip ua rid (w : World) (sid : Uuid) (s : Session) :
  table_ok (w_wall w) (sessions w) -> sessions w !! sid = Some s -> is_Some (s_revoked_at s) ->
  hash_token raw = s_token_hash s ->
  forall tokens, (refresh_token raw cid ip ua rid w).2 <> Ok tokens.
Proof.
  intros Hok Hs [x Hx] Hh tokens R. apply run_answer in R.
  destruct (refresh_Ok _ _ _ _ _ _ _ _ Hok R) as (old & _ & _ & _ & Ho & Hoh & _ & Hv & _).
  apply refresh_verdict_rotate in Hv as [Hlive _].
  assert (s_id old = sid) as Eid by (apply (ok_hash _ _ Hok _ _ _ _ Ho Hs); congruence).
  rewrite Eid, Hs in Ho. congruence.
Qed.


(** A sign-in, whatever it answers and whatever fails on the way, moves the
    sessions table by at most one step, the opening of a session of a family
    of its own, so the table stays one its statements can reach. *)
Theorem sign_in_refines uid ip ua dn rm ty cid scopes si (w : World) :
  reachable (w_wall w) (sessions w) ->
  (forall i s, sessions w !! i = Some s -> s_family s <> draw_uuid (S (w_draws w))) ->
  let w' := (issue_tokens uid ip ua dn rm ty cid scopes si w).1 in
  reachable (w_wall w) (sessions w') /\
  (sessions w' = sessions w \/ session_step (w_wall w) (sessions w) (sessions w')).
Proof.
  intros Hr Hfam w'.
  destruct (issue_tokens_run uid ip ua dn rm ty cid scopes si w w' _ (surjective_pairing _))
    as [[_ Hdb]|(row & Hop & _)]; [rewrite Hdb; auto|].
  assert (session_step (w_wall w) (sessions w) (sessions w')) as Hstep.
  { destruct Hop as [-> Hfresh Hh Hrow [Hcr _] Hf (? & ? & ?) _ _ _ _].
    apply step_create; try done. intros i s Hs. rewrite Hf. eauto. }
  split; [|by right]. by apply (reach_step (w_wall w) _ (sessions w)).
Qed.
End Refinement.

(** * Witnesses *)

Section Witnesses.
Import Run.
#[local] Existing Instance calm.

Lemma world_users_ok : users_ok (w_db world).
Proof. intros i r. cbn. intros [<- <-]%lookup_singleton_Some. done. Qed.

Lemma world_families (i : Uuid) (s : Session) (f : Uuid) :
  t_sessions (w_db world) !! i = Some s -> f <> 70%N -> s_family s <> f.
Proof.
  intros [-> | ->]%table_rows Hf; cbn; congruence.
Qed.

Lemma refresh_refines_witness :
  let w' := (refresh_token u"two" None None None None world).1 in
  reachable (w_wall w') (t_sessions (w_db w')).
Proof.
  exact (proj2 (proj2 (refresh_refines u"two" None None None None world run_reachable
    world_users_ok))).
Defined.

Lemma refresh_sound_witness :
  exists tokens, (refresh_token u"two" None None None None world).2 = Ok tokens /\
    exists old, s_token_hash old = hash_token u"two" /\ s_family (at_session tokens) = s_family old.
Proof.
  destruct (refresh_token u"two" None None None None world).2 as [tokens|e] eqn:R.
  2:{ exfalso. revert R. vm_compute. discriminate. }
  exists tokens. split; [reflexivity|].
  destruct (refresh_sound u"two" None None None None world
    (refresh_token u"two" None None None None world).1 tokens run_reachable world_users_ok)
    as (old & _ & Hh & _ & _ & _ & _ & _ & _ & _ & Hf & _).
  - vm_compute. discriminate.
  - intros i s [-> | ->]%table_rows; vm_compute; split; discriminate.
  - by apply run_answer.
  - exists old. by split.
Defined.



Lemma sign_in_refines_witness :
  let w' := (issue_tokens 7%N None None None false Web None None None world).1 in
  reachable (w_wall world) (t_sessions (w_db w')).
Proof.
  refine (proj1 (sign_in_refines 7%N None None None false Web None None None world
    run_reachable _)).
  intros i s Hs. apply (world_families i s _ Hs). by vm_compute.
Defined.
End Witnesses.
