(* ===== verification/Login.v ===== *)
(** Password sign-in (src/src/services/auth/login.rs) with what it calls: the
    abuse guards (services/auth/guards.rs), the challenge between a password and
    its second factor (services/auth/pre_auth.rs), the mailed code
    (services/email_2fa.rs, repositories/email_2fa.rs), the verification link of
    a pending account (services/auth/register.rs, repositories/token.rs) and the
    backoff (utils/backoff.rs). *)
From S2P Require Import Prelude Crates Session Account OAuthDomain Network Edge Crypto Tables App RedisCounter SessionRepo Repos Tokens UserRepo AccessRepo TokenRepo Refresh.
Import Account.User Account.LoginAttempt Account.Audit Account.TwoFactor Account.Token.
Import Edge.IpBucket.

(** * Constants (services/auth/mod.rs, services/email_2fa.rs) *)

Definition MAX_FAILURES_BY_IDENTIFIER : Z := 10.
Definition MAX_FAILURES_BY_IP : Z := 30.
Definition BRUTE_FORCE_WINDOW_SECS : Z := 900.
Definition MAX_OPEN_CHALLENGES : Z := 5.
Definition CS_HLL_PREFIX : str := u"cs_hll:".
Definition CS_WINDOW_SECS : Z := 300.
Definition CS_MAX_DISTINCT_IDENTIFIERS : Z := 50.
Definition PRE_AUTH_TTL_SECS : Z := 300.
Definition PRE_AUTH_PREFIX : str := u"pre_auth:".
Definition USER_PRE_AUTH_PREFIX : str := u"user_pre_auth:".
Definition SECOND_FACTOR_ACCOUNT_FACTOR : Z := 3.
Definition SECOND_FACTOR_USER_WINDOW_SECS : Z := 3600.
Definition TOTP_FAIL_PREFIX : str := u"totp_fail:".
Definition RC_FAIL_PREFIX : str := u"rc_fail:".
Definition EMAIL_2FA_FAIL_PREFIX : str := u"email2fa_fail:".
Definition EMAIL_TOKEN_EXPIRY_SECS : Z := 86400.
Definition MAX_VERIFICATION_RESENDS_BY_ACCOUNT : Z := 3.
Definition VERIFICATION_RESEND_ACCOUNT_WINDOW_SECS : Z := 3600.

Definition OTP_EXPIRY_SECS : Z := 600.
Definition SEND_COOLDOWN_SECS : Z := 60.
Definition MAX_SIGN_IN_CODES_PER_HOUR : Z := 10.
Definition USER_FAILURE_WINDOW_SECS : Z := 3600.
Definition OTP_PURPOSE : str := u"email_2fa".

(** * Data *)

Inductive ChallengeMethod := Totp | Email.

#[export] Instance challenge_method_eq_dec : EqDecision ChallengeMethod.
Proof. solve_decision. Defined.

Definition challenge_method_str (self : ChallengeMethod) : str :=
  match self with Totp => u"totp" | Email => u"email" end.

Record PreAuthState := {
  pa_user_id : Uuid;
  pa_remember_me : bool;
  pa_method : option ChallengeMethod;
}.

Definition expect_method (self : PreAuthState) (expected : ChallengeMethod) : result unit AppError :=
  if bool_decide (pa_method self = Some expected) then Ok tt else Err TokenInvalid.

Inductive LoginResult :=
| Complete (tokens : AuthTokens)
| TwoFactorRequired (pre_auth_token method : str).

(** Argon2 behind its queue (utils/password.rs): [None] is an error of the queue
    or of the stored hash. *)
Class Passwords := {
  password_verify : str -> str -> option bool;
  password_hash : str -> option str;
  needs_rehash : str -> bool;
}.

(** [serde_json] on [PreAuthState], and [str::parse::<Uuid>]: a state is read
    back as it was written, and its JSON is no UUID. *)
Class PreAuthSerde := {
  pre_auth_to_string : PreAuthState -> str;
  pre_auth_from_str : str -> option PreAuthState;
  parse_uuid : str -> option Uuid;
  pre_auth_read_back : forall s, pre_auth_from_str (pre_auth_to_string s) = Some s;
  pre_auth_no_uuid : forall s, parse_uuid (pre_auth_to_string s) = None;
}.

Definition toy_hash (p : str) : str := u"$argon2id$v=19$m=19456,t=2,p=1$c29tZXNhbHQ$" ++ p.

#[export] Instance toy_passwords : Passwords :=
  {| password_verify p h := Some (str_eqb h (toy_hash p));
     password_hash p := Some (toy_hash p); needs_rehash _ := false |}.

#[export] Instance toy_pre_auth : PreAuthSerde.
Proof.
  refine {|
    pre_auth_to_string s :=
      [Z.of_N (pa_user_id s); if pa_remember_me s then 1 else 0;
       match pa_method s with None => 0 | Some Totp => 1 | Some Email => 2 end];
    pre_auth_from_str raw :=
      match raw with
      | [i; r; m] =>
          Some {| pa_user_id := Z.to_N i; pa_remember_me := r =? 1;
                  pa_method := if m =? 1 then Some Totp else if m =? 2 then Some Email else None |}
      | _ => None
      end;
    parse_uuid raw := Z.to_N <$> digits_value raw;
  |}.
  - intros [i [] [[]|]]; cbn; by rewrite N2Z.id.
  - intros [i [] m]; unfold digits_value; cbn; by rewrite andb_false_r.
Defined.

(** [parse_pre_auth_state] *)
Definition parse_pre_auth_state `{PreAuthSerde} (raw : str) : result PreAuthState AppError :=
  match parse_uuid raw with
  | Some user_id => Ok {| pa_user_id := user_id; pa_remember_me := false; pa_method := None |}
  | None => match pre_auth_from_str raw with Some s => Ok s | None => Err TokenInvalid end
  end.

(** [Uuid::as_bytes]: sixteen bytes, most significant first. *)
Definition uuid_as_bytes (id : Uuid) : bytes :=
  map (fun i => (Z.of_N id / 256 ^ (15 - Z.of_nat i)) mod 256) (seq 0 16).

(** * Backoff *)

Definition BASE_SECS : Z := 1.
Definition MAX_SECS : Z := 16.

Definition backoff_secs (failures : Z) : Z :=
  if failures <=? 0 then 0
  else Z.min (BASE_SECS * 2 ^ Z.min (failures - 1) 4) MAX_SECS.

(** * Lockout *)

Section Lockout.
Context `{TimeCrate}.

(** [TimeDuration::MAX] *)
Definition DURATION_MAX : Duration := seconds I64_MAX + (NS - 1).

Definition lockout_until (consecutive threshold duration_secs : Z) (now : Z) : option Z :=
  if (threshold =? 0) || (consecutive <? threshold) then None
  else
    let duration := if duration_secs <=? I64_MAX then seconds duration_secs else DURATION_MAX in
    Some (saturating_add now duration).

End Lockout.

Section Login.
Context `{RedisServer} `{Env} `{TimeCrate} `{CryptoCrates} `{SqlText} `{IpNetworkCrate} `{Jwt}.
Context `{MacCrate} `{HyperLogLog} `{Passwords} `{PreAuthSerde}.

Definition apply_backoff (failures : Z) : M AppError unit :=
  if failures <=? 0 then mret tt else sleep (backoff_secs failures).

(** ** Keys *)

Definition challenge_id (pre_auth_token : str) : str := token_id pre_auth_token.
Definition pre_auth_key_of (id : str) : str := PRE_AUTH_PREFIX ++ id.
Definition pre_auth_key (pre_auth_token : str) : str := pre_auth_key_of (challenge_id pre_auth_token).

Definition challenge_keys_by_id (id : str) : list str :=
  [PRE_AUTH_PREFIX ++ id; TOTP_FAIL_PREFIX ++ id; RC_FAIL_PREFIX ++ id; EMAIL_2FA_FAIL_PREFIX ++ id].

Definition user_pre_auth_index_key (user_id : Uuid) : str := USER_PRE_AUTH_PREFIX ++ uuid_str user_id.

Definition cs_key (ip : IpNetwork) : str := CS_HLL_PREFIX ++ ip_bucket (net_ip ip).

(** ** Guards *)

Definition redis_unavailable (_ : RedisError) : AppError := ServiceUnavailable u"redis_unavailable".

(** Open when Redis does not answer. *)
Definition budget_exhausted (key : str) (limit window_secs : Z) : M AppError bool :=
  attempted ← attempt (consume [{| bg_key := key; bg_limit := limit; bg_window_secs := window_secs |}]);
  mret (match attempted with Ok a => exceeded a | Err _ => false end).

Definition track_credential_stuffing (ip : option IpNetwork) (identifier : str) : M AppError unit :=
  match ip with
  | None => mret tt
  | Some ip =>
      best_effort (fun s t => r_expire (r_sadd s t (cs_key ip) identifier) t (cs_key ip) CS_WINDOW_SECS)
  end.

Definition record_failure (user_id : option Uuid) (identifier : str) (reason : LoginFailureReason)
    (ip : option IpNetwork) (user_agent : option str) : M AppError unit :=
  _ ← attempt (record_attempt (fun now =>
        {| la_user_id := user_id; la_attempted_at := now;
           la_attempted_identifier := storable_identifier identifier;
           la_was_successful := false; la_failure_reason := Some reason;
           la_request_ip := ip; la_request_user_agent := user_agent |}));
  mret tt.

Definition record_second_factor_failure (user : User) (ip : option IpNetwork)
    (user_agent : option str) (request_id : option Uuid) : M AppError unit :=
  _ ← record_failure (Some (u_id user)) (u_email user) TwoFactorFailedReason ip user_agent;
  _ ← attempt (audit_append {| na_user_id := Some (u_id user); na_request_id := request_id;
        na_action := TwoFactorFailed; na_ip_address := ip; na_metadata := JObj [] |});
  mret tt.

(** Once an hour at most; without Redis every time. *)
Definition notify_second_factor_pressure (user_id : Uuid) : M AppError unit :=
  claimed ← claim_cooldown (u"2fa_pressure_notice:" ++ uuid_str user_id) SECOND_FACTOR_USER_WINDOW_SECS;
  if negb claimed then mret tt
  else
    found ← attempt (user_find_by_id user_id);
    match found with
    | Ok (Some user) => tell (add_mail {| m_kind := SecondFactorAttemptsMail; m_to := u_email user |})
    | _ => mret tt
    end.

Definition second_factor_budget_keys (prefix : str) (user_id : Uuid) (ip : option IpNetwork)
    (limit : Z) : list (str * Z) :=
  (prefix ++ uuid_str user_id, limit * SECOND_FACTOR_ACCOUNT_FACTOR) ::
  match ip with
  | Some ip => [(prefix ++ uuid_str user_id ++ [58] ++ ip_bucket (net_ip ip), limit)]
  | None => []
  end.

Definition account_budget_exceeded (counts : list Z) (account_limit : Z) : bool :=
  match counts !! 1%nat with Some count => account_limit <? count | None => false end.

(** ** Mailed codes *)

Definition code_subject (user_id : Uuid) (challenge : option str) : bytes :=
  uuid_as_bytes user_id ++
  match challenge with Some token => as_bytes (challenge_id token) | None => [] end.

(** The most recent unused code of the account. *)
Definition latest_unused (user_id : Uuid) (codes : list Email2faCode) : option Uuid :=
  ec_id <$> foldl (fun best c =>
    if bool_decide (ec_user_id c = user_id) && bool_decide (ec_used_at c = None)
    then match best with
         | Some b => if ec_created_at b <=? ec_created_at c then Some c else best
         | None => Some c
         end
    else best) None codes.

Definition drop_older (user_id : Uuid) (codes : list Email2faCode) : list Email2faCode :=
  let keep := default uuid_nil (latest_unused user_id codes) in
  List.filter (fun c => negb (bool_decide (ec_user_id c = user_id) && bool_decide (ec_used_at c = None)
                              && negb (bool_decide (ec_id c = keep)))) codes.

(** The latest unused code survives the new one. *)
Definition replace_active_in_tx (user_id : Uuid) (code_hash : bytes) (expires_at : Z) : M SqlError Uuid :=
  _ ← execute (fun d _ => Ok (set_email_codes (drop_older user_id) d, tt));
  id ← new_v4;
  execute (fun d now =>
    Ok (set_email_codes (fun codes => codes ++
          [{| ec_id := id; ec_user_id := user_id; ec_code_hash := code_hash;
              ec_created_at := now; ec_expires_at := expires_at; ec_used_at := None |}]) d, id)).

(** [email_2fa::create] *)
Definition email_code_create (user_id : Uuid) (code_hash : bytes) (expires_at : Z) : M SqlError Uuid :=
  transaction SqlFailed (replace_active_in_tx user_id code_hash expires_at).

Definition email_cooldown_key (user_id : Uuid) (challenge : option str) : str :=
  match challenge with
  | Some token => u"email2fa_cd:" ++ uuid_str user_id ++ [58] ++ challenge_id token
  | None => u"email2fa_cd:" ++ uuid_str user_id
  end.

Definition send_code (user_id : Uuid) (challenge : option str) : M AppError unit :=
  claimed ← claim_cooldown (email_cooldown_key user_id challenge) SEND_COOLDOWN_SECS;
  if negb claimed then fail RateLimitExceededError
  else
    _ ← match challenge with
        | None => mret tt
        | Some _ =>
            attempted ← consume [{| bg_key := u"email2fa_send_user:" ++ uuid_str user_id;
                                    bg_limit := MAX_SIGN_IN_CODES_PER_HOUR;
                                    bg_window_secs := USER_FAILURE_WINDOW_SECS |}];
            if exceeded attempted then fail RateLimitExceededError else mret tt
        end;
    found ← internal (user_find_by_id user_id);
    user ← ok_or found Unauthorized;
    code ← generate_code;
    let hash := otp_digest keyring OTP_PURPOSE (code_subject user_id challenge) code in
    expires_at ← in_secs OTP_EXPIRY_SECS;
    _ ← internal (email_code_create user_id hash expires_at);
    tell (add_mail {| m_kind := EmailCodeMail code; m_to := u_email user |}).

(** ** Verification links *)

Definition issue_verification (user : User) (credentials : option PendingCredentials)
    (ip : option IpNetwork) (user_agent : option str) (request_id : option Uuid) : M AppError unit :=
  by_address ← match ip with
               | Some ip =>
                   budget_exhausted (u"vr_account:" ++ uuid_str (u_id user) ++ [58] ++ ip_bucket (net_ip ip))
                     MAX_VERIFICATION_RESENDS_BY_ACCOUNT VERIFICATION_RESEND_ACCOUNT_WINDOW_SECS
               | None => mret false
               end;
  if by_address : bool then mret tt
  else
    by_account ← budget_exhausted (u"vr_account:" ++ uuid_str (u_id user))
                   (MAX_VERIFICATION_RESENDS_BY_ACCOUNT * 3) VERIFICATION_RESEND_ACCOUNT_WINDOW_SECS;
    if by_account : bool then mret tt
    else
      raw_token ← generate_token;
      expires_at ← in_secs EMAIL_TOKEN_EXPIRY_SECS;
      _ ← transaction Internal (
        _ ← internal (create_verification (u_id user) (hash_token raw_token) expires_at ip user_agent
                        (u_email user) credentials);
        internal (audit_append {| na_user_id := Some (u_id user); na_request_id := request_id;
          na_action := EmailVerificationSent; na_ip_address := ip; na_metadata := JObj [] |}));
      tell (add_mail {| m_kind := VerificationMail raw_token; m_to := u_email user |}).
(** ** The challenge *)

(** [SPOP]: one member, as the server picks. *)
Definition spop (key : str) : M RedisError (option str) := fun w =>
  redis_cmd (fun s t =>
    let members := elements (set_of (live t (dump s key))) in
    match members !! (draw_pick (w_draws w) mod length members)%nat with
    | Some x => (r_srem s t key x, Some x)
    | None => (s, None)
    end) (bump_draws w).

(** Commands on the connection at hand whose failure is ignored. *)
Definition ignoring (cmd : rstore -> Z -> rstore) : M AppError unit :=
  _ ← attempt (redis_cmd (fun s t => (cmd s t, tt))); mret tt.

Fixpoint make_room (n : nat) (index_key : str) : M AppError unit :=
  match n with
  | O => mret tt
  | S n =>
      popped ← attempt (spop index_key);
      match popped with
      | Ok (Some dropped) =>
          _ ← ignoring (fun s t => foldl (fun s k => r_del s t k) s (challenge_keys_by_id dropped));
          make_room n index_key
      | _ => mret tt
      end
  end.

Definition open_challenge (user_id : Uuid) (remember_me : bool) (method : ChallengeMethod) :
    M AppError str :=
  pre_auth_token ← generate_token;
  let state := {| pa_user_id := user_id; pa_remember_me := remember_me; pa_method := Some method |} in
  _ ← map_err redis_unavailable redis_conn;
  _ ← map_err redis_unavailable (redis_cmd (fun s t =>
        (r_set_ex s t (pre_auth_key pre_auth_token) (RStr (pre_auth_to_string state)) PRE_AUTH_TTL_SECS, tt)));
  let index_key := user_pre_auth_index_key user_id in
  counted ← attempt (redis_cmd (fun s t => (s, Z.of_nat (size (set_of (live t (dump s index_key)))))));
  let open := match counted with Ok n => n | Err _ => 0 end in
  _ ← make_room (Z.to_nat (open - (MAX_OPEN_CHALLENGES - 1))) index_key;
  _ ← ignoring (fun s t => r_sadd s t index_key (challenge_id pre_auth_token));
  _ ← ignoring (fun s t => r_expire s t index_key PRE_AUTH_TTL_SECS);
  mret pre_auth_token.

Definition challenge_method (m : TwoFactorMethod) : ChallengeMethod :=
  match tf_method_type m with TwoFactor.Email => Email | TwoFactor.Totp => Totp end.

Definition first_factor_proven (user : User) (identifier : option str) (ip : option IpNetwork)
    (user_agent device_name : option str) (remember_me : bool) (request_id : option Uuid)
    (audit_metadata : json) : M AppError LoginResult :=
  primary ← internal (find_primary_by_user (u_id user));
  match primary with
  | Some primary =>
      let method := challenge_method primary in
      pre_auth_token ← open_challenge (u_id user) remember_me method;
      _ ← (if bool_decide (method = Email) then
             sent ← attempt (send_code (u_id user) (Some pre_auth_token));
             match sent with
             | Ok _ => mret tt
             | Err RateLimitExceededError => mret tt
             | Err e => fail e
             end
           else mret tt);
      mret (TwoFactorRequired pre_auth_token (challenge_method_str method))
  | None =>
      tokens ← issue_tokens (u_id user) ip user_agent device_name remember_me Web None None
                 (Some {| si_identifier := identifier; si_request_id := request_id;
                          si_audit_metadata := audit_metadata; si_second_factor := false |});
      mret (Complete tokens)
  end.

(** ** Password sign-in *)

Definition attempt_keys (account : option Uuid) (ip : option IpNetwork) (identifier_ceiling : Z) :
    list (str * Z) :=
  match account with Some id => [(u"login_try:" ++ uuid_str id, identifier_ceiling)] | None => [] end ++
  match ip with
  | Some ip => [(u"login_try_ip:" ++ ip_bucket (net_ip ip), MAX_FAILURES_BY_IP)]
  | None => []
  end.

Definition reserve_attempt (account : option Uuid) (ip : option IpNetwork) (identifier_ceiling : Z) :
    M AppError (list str) :=
  let keys := attempt_keys account ip identifier_ceiling in
  consumed ← attempt (consume (map (fun k => {| bg_key := k.1; bg_limit := k.2;
                                                bg_window_secs := BRUTE_FORCE_WINDOW_SECS |}) keys));
  match consumed with
  | Ok c => if exceeded c then _ ← release (map fst keys); fail RateLimitExceededError
            else mret (map fst keys)
  | Err _ => mret []
  end.

Definition notify_locked (user : User) (locked_until : Z) : M AppError unit :=
  now ← clock_now;
  let minutes := (Z.max (whole_seconds (locked_until - now)) 0 + 59) / 60 in
  tell (add_mail {| m_kind := AccountLockedMail minutes; m_to := u_email user |}).

(** Best effort, whatever fails. *)
Definition apply_lockout (user : User) (ip : option IpNetwork) (request_id : option Uuid) :
    M AppError unit :=
  let threshold := lockout_threshold (cfg_security config) in
  counted ← attempt (count_consecutive_failures_by_user (u_id user) threshold);
  let consecutive := match counted with Ok n => n | Err _ => 0 end in
  now ← clock_now;
  match lockout_until consecutive threshold (lockout_duration_secs (cfg_security config)) now with
  | None => mret tt
  | Some locked_until =>
      set ← attempt (set_locked_until (u_id user) locked_until);
      let locked := match set with Ok b => b | Err _ => false end in
      if locked then
        _ ← attempt (audit_append {| na_user_id := Some (u_id user); na_request_id := request_id;
              na_action := AccountSuspended; na_ip_address := ip;
              na_metadata := JObj [(u"locked_until", JNum (JInt (unix_timestamp locked_until)));
                                   (u"reason", JStr u"lockout")] |});
        notify_locked user locked_until
      else mret tt
  end.

Definition recent_failures (identifier : str) (ip : option IpNetwork) : M AppError RecentFailures :=
  now ← clock_now;
  let cutoff := now - seconds BRUTE_FORCE_WINDOW_SECS in
  ip_failures ← match ip with
                | Some ip => internal (count_recent_failures_by_ip (ip_bucket_network (net_ip ip)) cutoff
                                         MAX_FAILURES_BY_IP)
                | None => mret 0
                end;
  distinct ← match ip with
             | Some ip =>
                 conn ← attempt redis_conn;
                 match conn with
                 | Err _ => mret 0
                 | Ok _ =>
                     counted ← attempt (redis_cmd (fun s t =>
                       (s, hll_estimate (set_of (live t (dump s (cs_key ip)))))));
                     mret (match counted with Ok n => n | Err _ => 0 end)
                 end
             | None => mret 0
             end;
  failures ← internal (count_recent_failures_by_identifier (storable_identifier identifier) cutoff
                         MAX_FAILURES_BY_IDENTIFIER);
  mret {| by_ip := ip_failures; distinct_identifiers_by_ip := distinct; by_identifier := failures |}.

Definition captcha_enforced : bool :=
  match cfg_captcha_secret config with Some secret => negb (bool_decide (secret = [])) | None => false end.

Definition identifier_ceiling : Z := if captcha_enforced then I64_MAX else MAX_FAILURES_BY_IDENTIFIER.

Definition ceilings : FailureCeilings :=
  {| max_by_ip := MAX_FAILURES_BY_IP;
     max_distinct_identifiers_by_ip := CS_MAX_DISTINCT_IDENTIFIERS;
     max_by_identifier := identifier_ceiling |}.

(** A refused credential: recorded, counted, slowed down, answered alike. *)
Definition refuse_credentials (user_id : option Uuid) (identifier : str) (reason : LoginFailureReason)
    (ip : option IpNetwork) (user_agent : option str) : M AppError unit :=
  _ ← record_failure user_id identifier reason ip user_agent;
  track_credential_stuffing ip identifier.

Definition rehash_if_weaker (user : User) (plaintext : str) : M AppError unit :=
  if needs_rehash (u_password_hash user)
  then tell (add_task (RehashPassword (u_id user) (u_password_hash user) plaintext))
  else mret tt.

(** The credentials judged: [user_opt] is the account the identifier names,
    [reserved] what the attempt was charged to. *)
Definition judge_credentials (recent : RecentFailures) (reserved : list str) (user_opt : option User)
    (identifier password_plaintext : str) (ip : option IpNetwork) (user_agent device_name : option str)
    (remember_me : bool) (request_id : option Uuid) : M AppError LoginResult :=
  match user_opt with
  | None =>
      _ ← refuse_credentials None identifier UnknownIdentifier ip user_agent;
      _ ← attempt (count_consecutive_failures_by_user uuid_nil (lockout_threshold (cfg_security config)));
      _ ← apply_backoff (by_identifier recent + 1);
      fail InvalidCredentials
  | Some user =>
      ok ← ok_or (password_verify password_plaintext (u_password_hash user)) Internal;
      now ← clock_now;
      if is_locked user now then
        _ ← refuse_credentials (Some (u_id user)) identifier AccountLockedReason ip user_agent;
        _ ← apply_backoff (by_identifier recent + 1);
        fail InvalidCredentials
      else if negb ok then
        _ ← refuse_credentials (Some (u_id user)) identifier InvalidPassword ip user_agent;
        _ ← apply_lockout user ip request_id;
        _ ← apply_backoff (by_identifier recent + 1);
        fail InvalidCredentials
      else
        _ ← release reserved;
        _ ← rehash_if_weaker user password_plaintext;
        if bool_decide (u_status user = PendingVerification) then
          _ ← record_failure (Some (u_id user)) identifier EmailNotVerifiedReason ip user_agent;
          _ ← attempt (E' := AppError) (issue_verification user None ip user_agent request_id);
          fail InvalidCredentials
        else
          _ ← lift (ensure_status_allows_sign_in user);
          first_factor_proven user (Some identifier) ip user_agent device_name remember_me request_id
            (JObj [])
  end.

Definition login (identifier password_plaintext : str) (ip : option IpNetwork)
    (user_agent device_name : option str) (remember_me : bool) (request_id : option Uuid) :
    M AppError LoginResult :=
  recent ← recent_failures identifier ip;
  if reach recent ceilings then fail RateLimitExceededError
  else
    user_opt ← internal (find_by_identifier identifier);
    reserved ← reserve_attempt (u_id <$> user_opt) ip identifier_ceiling;
    judge_credentials recent reserved user_opt identifier password_plaintext ip user_agent device_name
      remember_me request_id.

(** ** The rehash, in the background *)

Definition replace_password_hash (id : Uuid) (current replacement : str) : M SqlError bool :=
  execute (fun d now =>
    update_user id (fun v => str_eqb (u_password_hash v) current)
      (update_row now (with_password_hash replacement)) d).

Definition run_task (t : Task) : M AppError unit :=
  match t with
  | RehashPassword id current plaintext =>
      match password_hash plaintext with
      | None => mret tt
      | Some replacement => _ ← attempt (replace_password_hash id current replacement); mret tt
      end
  end.
End Login.

#[global] Arguments challenge_id {_} _ : simpl never.
#[global] Arguments pre_auth_key_of _ : simpl never.
#[global] Arguments pre_auth_key {_} _ : simpl never.
#[global] Arguments user_pre_auth_index_key _ : simpl never.
#[global] Arguments challenge_keys_by_id _ : simpl never.
