(* ===== verification/LoginCorrect.v ===== *)
(** Theorems about password sign-in: what a success proves, that refusals look
    alike, when an account locks, what a challenge leaves in Redis, and the
    background rehash. *)
From S2P Require Import Prelude Crates Session Account OAuthDomain Network Edge Crypto Tables App RedisCounter SessionRepo Repos Tokens UserRepo AccessRepo TokenRepo Scenario TokensCorrect Refresh RefreshCorrect Login.
Import Account.User Account.LoginAttempt Account.Audit Account.TwoFactor Account.Token.
Import Edge.IpBucket.

(** * Frames of the sign-in operations *)

Section Frames.
Context `{RedisServer} `{Env} `{TimeCrate} `{CryptoCrates} `{SqlText} `{IpNetworkCrate} `{Jwt}.
Context `{MacCrate} `{HyperLogLog} `{Passwords} `{PreAuthSerde}.

(** Sessions and users as they were. *)
Definition same_accounts (w w' : World) : Prop :=
  t_sessions (w_db w') = t_sessions (w_db w) /\ t_users (w_db w') = t_users (w_db w) /\ same_clocks w w'.

#[export] Instance same_accounts_frame : Frame same_accounts.
Proof.
  constructor; [constructor| |]; unfold SleepFrame, RedisFrame, same_accounts, same_clocks; try done; naive_solver congruence.
Qed.

#[export] Instance same_accounts_rollback : Rollback same_accounts.
Proof. by intros w w' (_ & _ & ?). Qed.

Lemma keeps_accounts_execute {A} (f : Db -> Z -> result (Db * A) SqlError) :
  (forall d t d' a, f d t = Ok (d', a) -> t_sessions d' = t_sessions d /\ t_users d' = t_users d) ->
  keeps same_accounts (execute f).
Proof. intros Hf. apply keeps_execute. intros w d a E. by destruct (Hf _ _ _ _ E). Qed.

(** An entry of Redis as it was. *)
Definition untouched (k : str) (w w' : World) : Prop :=
  dump (w_redis w') k = dump (w_redis w) k /\ w_wall w' = w_wall w.

#[export] Instance untouched_frame (k : str) : CoreFrame (untouched k).
Proof. constructor; unfold untouched; try done; naive_solver congruence. Qed.

#[export] Instance untouched_sleep (k : str) : SleepFrame (untouched k).
Proof. by intros n w. Qed.

#[export] Instance untouched_rollback (k : str) : Rollback (untouched k).
Proof. by intros w w' [? ?]. Qed.

Lemma keeps_untouched_execute {A} (k : str) (f : Db -> Z -> result (Db * A) SqlError) :
  keeps (untouched k) (execute f).
Proof. by apply keeps_execute. Qed.

Lemma keeps_untouched_cmd {A} (k : str) (f : rstore -> Z -> rstore * A) :
  (forall s t, dump (f s t).1 k = dump s k) -> keeps (untouched k) (redis_cmd f).
Proof.
  intros Hf. apply keeps_io. intros w. specialize (Hf (w_redis w) (w_wall w)).
  by destruct (f (w_redis w) (w_wall w)).
Qed.

(** Anything that touches Redis and draws only. *)
Lemma keeps_claim {E} (R : World -> World -> Prop) `{!CoreFrame R, !RedisFrame R} (k : str) (n : Z) :
  keeps R (claim_cooldown k n : M E bool).
Proof. unfold claim_cooldown. frame_auto. Qed.

Lemma keeps_decr_all {E} (R : World -> World -> Prop) `{!CoreFrame R, !RedisFrame R} (ks : list str) :
  keeps R (decr_all ks : M E unit).
Proof. induction ks; cbn; frame_auto. Qed.

Lemma keeps_release {E} (R : World -> World -> Prop) `{!CoreFrame R, !RedisFrame R} (ks : list str) :
  keeps R (release ks : M E unit).
Proof. unfold release. frame_auto. by apply keeps_decr_all. Qed.

Lemma keeps_reset {E} (R : World -> World -> Prop) `{!CoreFrame R, !RedisFrame R} (ks : list str) :
  keeps R (reset ks : M E unit).
Proof. unfold reset. frame_auto. Qed.
End Frames.

#[export] Hint Resolve keeps_claim keeps_release keeps_reset keeps_consume : frame.

Section MoreFrames.
Context `{RedisServer} `{Env} `{TimeCrate} `{CryptoCrates} `{SqlText} `{IpNetworkCrate} `{Jwt}.
Context `{MacCrate} `{HyperLogLog} `{Passwords} `{PreAuthSerde}.

Lemma keeps_make_room (R : World -> World -> Prop) `{!CoreFrame R, !RedisFrame R} (n : nat) (k : str) :
  keeps R (make_room n k).
Proof.
  induction n as [|n IH]; cbn; [frame_auto|]. unfold ignoring, spop. frame_auto.
  intros w. eapply frame_trans; [apply frame_draws|]. apply keeps_redis_cmd.
Qed.

Lemma keeps_open_challenge (R : World -> World -> Prop) `{!CoreFrame R, !RedisFrame R} uid rm m :
  keeps R (open_challenge uid rm m).
Proof. unfold open_challenge, ignoring. frame_auto. by apply keeps_make_room. Qed.

Lemma keeps_reserve (R : World -> World -> Prop) `{!CoreFrame R, !RedisFrame R} acc ip c :
  keeps R (reserve_attempt acc ip c).
Proof. unfold reserve_attempt. frame_auto. Qed.

Lemma keeps_recent (R : World -> World -> Prop) `{!CoreFrame R, !RedisFrame R} idn ip :
  keeps R (recent_failures idn ip).
Proof.
  unfold recent_failures, clock_now, internal, count_recent_failures_by_ip,
    count_recent_failures_by_identifier. frame_auto.
Qed.

Lemma keeps_track (R : World -> World -> Prop) `{!CoreFrame R, !RedisFrame R} ip idn :
  keeps R (track_credential_stuffing ip idn).
Proof. unfold track_credential_stuffing. frame_auto. Qed.

Lemma keeps_backoff (R : World -> World -> Prop) `{!CoreFrame R, !SleepFrame R} n : keeps R (apply_backoff n).
Proof. unfold apply_backoff. frame_auto. Qed.

Lemma keeps_rehash (R : World -> World -> Prop) `{!CoreFrame R, !RedisFrame R} v pw : keeps R (rehash_if_weaker v pw).
Proof. unfold rehash_if_weaker. frame_auto. Qed.

(** Sending a code leaves accounts alone. *)
Lemma keeps_send_code uid ch : keeps same_accounts (send_code uid ch).
Proof.
  unfold send_code, internal, email_code_create, replace_active_in_tx, user_find_by_id. frame_auto;
    by apply keeps_accounts_execute; intros ? ? ? ? [= <- _].
Qed.
End MoreFrames.

#[export] Hint Resolve keeps_open_challenge keeps_reserve keeps_recent keeps_track keeps_backoff
  keeps_rehash keeps_send_code : frame.

(** A run that can only end in a refusal did not succeed. *)
Ltac dead_end R := repeat (apply bind_Ok in R as (? & ? & _ & R)); by apply fail_Ok in R.

(** * What a successful sign-in proves *)

Section Sound.
Context `{RedisServer} `{Env} `{TimeCrate} `{CryptoCrates} `{SqlText} `{IpNetworkCrate} `{Jwt}.
Context `{MacCrate} `{HyperLogLog} `{Passwords} `{PreAuthSerde}.

(** The account an identifier names. *)
Definition named (d : Db) (identifier : str) : option User :=
  ur_user <$> List.find (fun r =>
    citext_eqb (if bool_decide (64 ∈ identifier) then u_email (ur_user r) else u_username (ur_user r))
      identifier) (all_users d).

(** The failed attempts the identifier is charged with. *)
Definition charged (d : Db) (now : Z) (identifier : str) : Z :=
  Z.of_nat (length (List.filter (fun a =>
    citext_eqb (la_attempted_identifier a) (storable_identifier identifier)
    && negb (la_was_successful a)
    && (greatest [cleared_for (storable_identifier identifier) d] (now - seconds BRUTE_FORCE_WINDOW_SECS)
        <? la_attempted_at a)) (t_login_attempts d))).

Definition primary_of (d : Db) (user_id : Uuid) : option TwoFactorMethod :=
  List.find (fun m => bool_decide (tf_user_id m = user_id) && tf_is_primary m) (t_methods d).

(** The password was right, on an account that may sign in. *)
Record first_factor (d : Db) (now : Z) (identifier pw : str) (v : User) : Prop := {
  ff_named : named d identifier = Some v;
  ff_password : password_verify pw (u_password_hash v) = Some true;
  ff_unlocked : is_locked v now = false;
  ff_active : u_status v = ActiveUser;
}.

Lemma find_by_identifier_Ok (identifier : str) (w w' : World) (o : option User) :
  internal (find_by_identifier identifier) w = (w', Ok o) -> o = named (w_db w) identifier /\ same_db w w'.
Proof.
  unfold internal, find_by_identifier, named, user_find_by_email, user_find_by_username.
  intros R. apply map_err_Ok in R. case_bool_decide; by apply query_Ok in R.
Qed.

Lemma recent_failures_Ok (identifier : str) (ip : option IpNetwork) (w w' : World) (r : RecentFailures) :
  recent_failures identifier ip w = (w', Ok r) ->
  by_identifier r = Z.min MAX_FAILURES_BY_IDENTIFIER (charged (w_db w) (w_now w) identifier).
Proof.
  unfold recent_failures, clock_now. intros R. unbind R now w1 R1. read_run R1.
  unbind R a w2 R2. unbind R b w3 R3.
  assert (same_db w w3) as [Hdb _].
  { eapply frame_trans; [eapply keeps_run, R2|eapply keeps_run, R3]; frame_auto;
      unfold internal, count_recent_failures_by_ip; frame_auto. }
  unbind R c w4 R4. unfold internal, count_recent_failures_by_identifier in R4. read_run R4.
  apply ret_Ok in R as [-> _]. cbn. unfold count_limit, charged. by rewrite Hdb.
Qed.

(** One live session more: of that account, first-party, known by the hash of
    its token. *)
Definition one_more_session (d d' : Db) (uid : Uuid) (mfa : bool) (tokens : AuthTokens) : Prop :=
  let row := at_session tokens in
  t_sessions d' = <[s_id row := row]> (t_sessions d) /\
  t_sessions d !! s_id row = None /\
  s_user_id row = uid /\ s_mfa row = mfa /\ s_client_id row = None /\
  s_token_hash row = hash_token (at_refresh_token tokens) /\ s_revoked_at row = None.

Lemma issue_tokens_session uid ip ua dn rm si (w w' : World) (tokens : AuthTokens) :
  issue_tokens uid ip ua dn rm Web None None (Some si) w = (w', Ok tokens) ->
  one_more_session (w_db w) (w_db w') uid (si_second_factor si) tokens.
Proof.
  intros R. apply issue_tokens_run in R as [[[? [=]] _]|(row & Hrow & Ht)].
  unfold one_more_session. destruct (Ht tokens eq_refl) as [<- ->]. destruct Hrow. intuition.
Qed.

(** What a proven first factor leads to. *)
Definition outcome (w w' : World) (v : User) (identifier : option str) (ip : option IpNetwork)
    (res : LoginResult) : Prop :=
  match res with
  | Complete tokens =>
      primary_of (w_db w) (u_id v) = None /\
      one_more_session (w_db w) (w_db w') (u_id v) false tokens
  | TwoFactorRequired _ method =>
      same_accounts w w' /\
      exists p, primary_of (w_db w) (u_id v) = Some p /\ method = challenge_method_str (challenge_method p)
  end.

Lemma first_factor_proven_Ok (v : User) identifier ip ua dn rm rid meta (w w' : World) (res : LoginResult) :
  first_factor_proven v identifier ip ua dn rm rid meta w = (w', Ok res) -> outcome w w' v identifier ip res.
Proof.
  unfold first_factor_proven. intros R. unbind R primary w1 R1.
  unfold internal, find_primary_by_user in R1. read_run R1. fold (primary_of (w_db w) (u_id v)) in R.
  destruct (primary_of (w_db w) (u_id v)) as [p|] eqn:Ep.
  - unbind R tok w2 R2. unbind R x w3 R3. apply ret_Ok in R as [-> ->]. cbn.
    split; [|eauto]. eapply frame_trans; [|eapply frame_trans; [eapply keeps_run, R2|eapply keeps_run, R3]].
    + destruct R1 as [Hdb ?]. unfold same_accounts. by rewrite Hdb.
    + frame_auto.
    + frame_auto.
  - unbind R tokens w2 R2. apply ret_Ok in R as [-> ->]. cbn. split; [done|].
    apply issue_tokens_session in R2. by rewrite (proj1 R1) in R2.
Qed.

Lemma login_Ok (identifier pw : str) ip ua dn rm rid (w w' : World) (res : LoginResult) :
  login identifier pw ip ua dn rm rid w = (w', Ok res) ->
  exists v, first_factor (w_db w) (w_now w) identifier pw v /\
    (captcha_enforced = false -> charged (w_db w) (w_now w) identifier < MAX_FAILURES_BY_IDENTIFIER) /\
    outcome w w' v (Some identifier) ip res.
Proof.
  unfold login. intros R. unbind R recent w1 R1.
  assert (same_db w w1) as S1 by (eapply keeps_run, R1; frame_auto).
  apply recent_failures_Ok in R1. destruct (reach _ _) eqn:Hreach; [by apply fail_Ok in R|].
  unbind R o w2 R2. apply find_by_identifier_Ok in R2 as [-> S2].
  unbind R reserved w3 R3. apply (keeps_run same_db) in R3; [|frame_auto]. unfold judge_credentials in R.
  rewrite (proj1 S1) in R. destruct (named (w_db w) identifier) as [v|] eqn:En; cycle 1.
  { dead_end R. }
  unbind R ok w4 R4. read_run R4. unbind R now w5 R5. unfold clock_now in R5. read_run R5.
  assert (same_db w w3) as S3 by (by do 2 (eapply frame_trans; [done|])).
  destruct S3 as [Hdb [Hnow Hwall]]. rewrite Hnow in R.
  destruct (is_locked v (w_now w)) eqn:El; [dead_end R|].
  destruct ok; cbn [negb] in R; [|dead_end R].
  unbind R x6 w6 R6. apply (keeps_run same_db) in R6; [|frame_auto].
  unbind R x7 w7 R7. apply (keeps_run same_db) in R7; [|frame_auto].
  case_bool_decide as Ep; [dead_end R|].
  unbind R x8 w8 R8. read_run R8. exists v. split; [|split].
  - constructor; try done. unfold ensure_status_allows_sign_in in R8. by destruct (u_status v).
  - intros Hc. apply reach_false in Hreach as (_ & _ & Hi). unfold ceilings, identifier_ceiling in Hi.
    cbn in Hi. rewrite Hc, R1 in Hi. unfold MAX_FAILURES_BY_IDENTIFIER in *. lia.
  - apply first_factor_proven_Ok in R.
    assert (same_db w w7) as [Hd [Hn Hw]].
    { eapply frame_trans; [split; [exact Hdb|split; done]|]. by eapply frame_trans. }
    unfold outcome in *. destruct res; rewrite Hd in R; [exact R|].
    destruct R as [Ha Hp]. split; [|exact Hp]. unfold same_accounts, same_clocks in *.
    rewrite Hd in Ha. intuition congruence.
Qed.

(** C3: a sign-in that answers with tokens or with a second-factor challenge has
    seen the right password of the account the identifier names, which was
    active and not locked, with fewer recent failures charged to the identifier
    than its budget (while no CAPTCHA is enforced).  It opens a session only for
    an account without a primary second factor: one new live row, not marked as
    second-factor proven, known by the hash of the returned token.  With a
    primary second factor it leaves sessions and accounts untouched and asks for
    exactly that method. *)
Theorem login_sound (identifier pw : str) ip ua dn rm rid (w w' : World) (res : LoginResult) :
  login identifier pw ip ua dn rm rid w = (w', Ok res) ->
  exists v, first_factor (w_db w) (w_now w) identifier pw v /\
    (captcha_enforced = false -> charged (w_db w) (w_now w) identifier < MAX_FAILURES_BY_IDENTIFIER) /\
    outcome w w' v (Some identifier) ip res.
Proof. apply login_Ok. Qed.
End Sound.

(** * Refusals look alike *)

Section Refusals.
Context `{RedisServer} `{Env} `{TimeCrate} `{CryptoCrates} `{SqlText} `{IpNetworkCrate} `{Jwt}.
Context `{MacCrate} `{HyperLogLog} `{Passwords} `{PreAuthSerde}.

(** Tables, clocks and delays as they were. *)
Definition quiet (w w' : World) : Prop := same_db w w' /\ w_slept w' = w_slept w.

#[export] Instance quiet_frame : CoreFrame quiet.
Proof. constructor; unfold quiet, same_db, same_clocks; try done; naive_solver congruence. Qed.

#[export] Instance quiet_redis : RedisFrame quiet.
Proof. by intros s w. Qed.

(** Sessions, attempts and delays as they were. *)
Definition lock_frame (w w' : World) : Prop :=
  t_sessions (w_db w') = t_sessions (w_db w) /\
  t_login_attempts (w_db w') = t_login_attempts (w_db w) /\ w_slept w' = w_slept w.

#[export] Instance lock_frame_frame : CoreFrame lock_frame.
Proof. constructor; unfold lock_frame; try done; naive_solver congruence. Qed.

Lemma recent_failures_answered (identifier : str) (ip : option IpNetwork) (w : World) :
  all_answered -> exists w1 r, recent_failures identifier ip w = (w1, Ok r).
Proof.
  intros Ha. unfold recent_failures, clock_now, asks, mbind, M_bind, internal, map_err, attempt,
    count_recent_failures_by_ip, count_recent_failures_by_identifier.
  destruct ip as [ip|]; cbn; rewrite ?query_answered by done; cbn;
    rewrite ?redis_conn_answered by done; cbn; rewrite ?redis_cmd_answered by done; cbn;
    rewrite ?query_answered by done; cbn; eauto.
Qed.

Lemma find_by_identifier_answered (identifier : str) (w : World) :
  all_answered ->
  internal (find_by_identifier identifier) w = (bump_io w, Ok (named (w_db w) identifier)).
Proof.
  intros Ha. unfold internal, map_err, find_by_identifier, named, user_find_by_email, user_find_by_username.
  case_bool_decide; by rewrite query_answered.
Qed.

(** A reservation is granted or refused, nothing else. *)
Lemma reserve_attempt_result acc ip c (w : World) :
  (exists keys, (reserve_attempt acc ip c w).2 = Ok keys) \/
  (reserve_attempt acc ip c w).2 = Err RateLimitExceededError.
Proof.
  unfold reserve_attempt, mbind, M_bind, attempt.
  destruct (consume _ w) as [w1 [a|e]]; [|left; by eauto].
  destruct (exceeded a); [|left; by eauto]. right. unfold release, mbind, M_bind, attempt.
  destruct (redis_conn w1) as [w2 [[]|]]; [|done].
  assert (forall {E} ks w, ((decr_all ks : M E unit) w).2 = Ok tt) as Hd.
  { intros E ks. induction ks as [|k ks IH]; intros w3; cbn; [done|]. unfold mbind, M_bind, attempt.
    by destruct (redis_cmd _ w3). }
  specialize (Hd AppError (map fst (attempt_keys acc ip c)) w2). by destruct (decr_all _ w2) as [w3 []].
Qed.

Definition failed_attempt (uid : option Uuid) (identifier : str) (reason : LoginFailureReason)
    (ip : option IpNetwork) (ua : option str) (now : Z) : LoginAttempt :=
  {| la_user_id := uid; la_attempted_at := now; la_attempted_identifier := storable_identifier identifier;
     la_was_successful := false; la_failure_reason := Some reason; la_request_ip := ip;
     la_request_user_agent := ua |}.

Lemma refuse_credentials_answered uid identifier reason ip ua (w : World) :
  all_answered ->
  exists w', refuse_credentials uid identifier reason ip ua w = (w', Ok tt) /\
    w_db w' = add_attempt (failed_attempt uid identifier reason ip ua (w_wall w)) (w_db w) /\
    w_slept w' = w_slept w /\ same_clocks w w'.
Proof.
  intros Ha. unfold refuse_credentials, record_failure, record_attempt, mbind, M_bind, attempt.
  rewrite execute_answered by done. cbn. unfold track_credential_stuffing.
  destruct ip as [ip|]; [rewrite best_effort_answered by done|]; by eexists.
Qed.

Lemma keeps_lock_execute {A} (f : Db -> Z -> result (Db * A) SqlError) :
  (forall d t d' a, f d t = Ok (d', a) ->
     t_sessions d' = t_sessions d /\ t_login_attempts d' = t_login_attempts d) ->
  keeps lock_frame (execute f).
Proof. intros Hf. apply keeps_execute. intros w d a E. by destruct (Hf _ _ _ _ E). Qed.

Lemma keeps_apply_lockout v ip rid : keeps lock_frame (apply_lockout v ip rid).
Proof.
  unfold apply_lockout, count_consecutive_failures_by_user, set_locked_until, audit_append, clock_now,
    notify_locked. frame_auto; try (unfold clock_now; frame_auto).
  all: try (apply keeps_lock_execute; intros ? ? ? ?).
  - repeat case_match; intros [= <- _]; done.
  - by intros [= <- _].
Qed.

Lemma apply_lockout_result v ip rid (w : World) : (apply_lockout v ip rid w).2 = Ok tt.
Proof.
  unfold apply_lockout, mbind, M_bind, attempt, clock_now, asks, notify_locked.
  destruct (count_consecutive_failures_by_user _ _ w) as [w1 r1]. cbn.
  destruct (lockout_until _ _ _ _); [|done]. destruct (set_locked_until _ _ w1) as [w2 [[]|]]; try done.
  by destruct (audit_append _ w2).
Qed.

(** The credentials do not open the account they name, if any. *)
Definition refused (d : Db) (now : Z) (identifier pw : str) : Prop :=
  match named d identifier with
  | None => True
  | Some v => exists ok, password_verify pw (u_password_hash v) = Some ok /\
                (is_locked v now = true \/ ok = false)
  end.

(** What every refusal leaves behind. *)
Definition refusal (w w' : World) (identifier : str) (ip : option IpNetwork) : Prop :=
  t_sessions (w_db w') = t_sessions (w_db w) /\
  w_slept w' = w_slept w +
    seconds (backoff_secs (Z.min MAX_FAILURES_BY_IDENTIFIER (charged (w_db w) (w_now w) identifier) + 1)) /\
  exists uid reason ua, t_login_attempts (w_db w') =
    t_login_attempts (w_db w) ++ [failed_attempt uid identifier reason ip ua (w_wall w)].

Lemma apply_backoff_run (n : Z) (w : World) :
  0 <= n -> apply_backoff (n + 1) w = (add_sleep (seconds (backoff_secs (n + 1))) w, Ok tt).
Proof. intros Hn. unfold apply_backoff. destruct (n + 1 <=? 0) eqn:E; [breflect; lia|done]. Qed.

(** Recorded, then anything that opens nothing, then the delay. *)
Lemma refuse_then {A} (mid : M AppError A) uid identifier reason ip ua (n : Z) (w0 w : World) :
  all_answered -> quiet w0 w -> keeps lock_frame mid -> (forall w, exists a, (mid w).2 = Ok a) ->
  n = Z.min MAX_FAILURES_BY_IDENTIFIER (charged (w_db w0) (w_now w0) identifier) ->
  let run := (refuse_credentials uid identifier reason ip ua ≫= fun _ =>
              mid ≫= fun _ => apply_backoff (n + 1) ≫= fun _ =>
              (fail InvalidCredentials : M AppError LoginResult)) w in
  run.2 = Err InvalidCredentials /\ refusal w0 run.1 identifier ip.
Proof.
  intros Ha [[Hdb [Hn Hw]] Hs] Hk Hok Hnum. cbn zeta.
  destruct (refuse_credentials_answered uid identifier reason ip ua w Ha) as (w1 & R1 & D1 & S1 & _).
  rewrite (bind_step _ _ _ _ _ R1). specialize (Hk w1). specialize (Hok w1).
  destruct (mid w1) as [w2 r2] eqn:E2. cbn in Hk, Hok. destruct Hok as [a ->].
  rewrite (bind_step _ _ _ _ _ E2).
  assert (0 <= n) as Hpos by (unfold MAX_FAILURES_BY_IDENTIFIER, charged in *; lia).
  rewrite (bind_step _ _ _ _ _ (apply_backoff_run n w2 Hpos)). unfold fail. cbn [fst snd].
  split; [done|]. destruct Hk as (K1 & K2 & K3). unfold refusal. cbn [add_sleep w_db w_slept].
  rewrite K1, K2, K3, S1, D1, Hs, Hnum. unfold add_attempt. cbn. rewrite Hdb, Hw.
  split_and!; [done..|]. by do 3 eexists.
Qed.

(** With every exchange answered, a sign-in is over a budget or is judged. *)
Lemma login_judged (identifier pw : str) ip ua dn rm rid (w : World) :
  all_answered ->
  let run := login identifier pw ip ua dn rm rid w in
  (run.2 = Err RateLimitExceededError /\ w_db run.1 = w_db w) \/
  (exists recent reserved w2, quiet w w2 /\
     by_identifier recent = Z.min MAX_FAILURES_BY_IDENTIFIER (charged (w_db w) (w_now w) identifier) /\
     run = judge_credentials recent reserved (named (w_db w) identifier) identifier pw ip ua dn rm rid w2).
Proof.
  intros Ha. cbn zeta. unfold login.
  destruct (recent_failures_answered identifier ip w Ha) as (w1 & recent & R1).
  rewrite (bind_step _ _ _ _ _ R1).
  assert (quiet w w1) as Q1 by (eapply keeps_run, R1; frame_auto).
  apply recent_failures_Ok in R1. destruct (reach _ _); [left; split; [done|apply Q1]|].
  rewrite (bind_step _ _ _ _ _ (find_by_identifier_answered identifier w1 Ha)).
  destruct Q1 as [[Hdb1 C1] S1]. rewrite Hdb1.
  assert (quiet w (bump_io w1)) as Q1 by done.
  destruct (reserve_attempt (u_id <$> named (w_db w) identifier) ip identifier_ceiling (bump_io w1))
    as [w2 r2] eqn:E2.
  assert (quiet w w2) as Q2 by (eapply frame_trans; [apply Q1|eapply keeps_run, E2; frame_auto]).
  destruct (reserve_attempt_result (u_id <$> named (w_db w) identifier) ip identifier_ceiling (bump_io w1))
    as [[keys Hk]|Hk]; rewrite E2 in Hk; cbn in Hk; subst r2.
  - right. exists recent, keys, w2. by rewrite (bind_step _ _ _ _ _ E2).
  - left. rewrite (bind_fail _ _ _ _ _ E2). split; [done|apply Q2].
Qed.

(** An unknown identifier, a wrong password and a locked account are refused
    alike.  With every exchange answered, either the attempt is over a budget and
    nothing is written, or the answer is the same error after the same delay (set
    by the failures charged to the identifier, whether or not it names an
    account), with one failure recorded under the identifier and no session. *)
Theorem login_refusals_alike (identifier pw : str) ip ua dn rm rid (w : World) :
  all_answered -> refused (w_db w) (w_now w) identifier pw ->
  let run := login identifier pw ip ua dn rm rid w in
  (run.2 = Err RateLimitExceededError /\ w_db run.1 = w_db w) \/
  (run.2 = Err InvalidCredentials /\ refusal w run.1 identifier ip).
Proof.
  intros Ha Href. cbn zeta.
  destruct (login_judged identifier pw ip ua dn rm rid w Ha) as [?|(recent & keys & w2 & Q2 & R1 & ->)];
    [by left|right].
  unfold refused in Href. unfold judge_credentials. destruct (named (w_db w) identifier) as [v|].
  - destruct Href as (ok & Hpw & Hor). rewrite Hpw.
    rewrite (bind_step _ _ w2 w2 ok), (bind_step _ _ w2 w2 (w_now w2)) by done.
    rewrite (proj1 (proj2 (proj1 Q2))). destruct (is_locked v (w_now w)).
    + pose proof (refuse_then (mret tt) (Some (u_id v)) identifier AccountLockedReason ip ua
        (by_identifier recent) w w2 Ha Q2 (keeps_ret tt) (fun _ => ex_intro _ tt eq_refl) R1) as Hrun.
      unfold mbind, M_bind, mret, M_ret in *. exact Hrun.
    + destruct Hor as [[=]| ->]. cbn [negb].
      apply (refuse_then (apply_lockout v ip rid)); try done; [apply keeps_apply_lockout|].
      intros w'. rewrite apply_lockout_result. by eexists.
  - apply (refuse_then (attempt _)); try done.
    + unfold count_consecutive_failures_by_user. frame_auto.
    + intros w'. unfold attempt. destruct (count_consecutive_failures_by_user _ _ w'). by eexists.
Qed.

(** * The lockout *)

(** The wrong passwords in a row of an account. *)
Definition consecutive (d : Db) (now : Z) (uid : Uuid) : Z :=
  let row := t_users d !! uid in
  let since := greatest [last_success uid d; row ≫= ur_lockout_cleared_at;
                         row ≫= fun r => u_locked_until (ur_user r)] (now - DAY) in
  Z.of_nat (length (List.filter (fun a => bool_decide (la_user_id a = Some uid)
      && negb (la_was_successful a) && bool_decide (la_failure_reason a = Some InvalidPassword)
      && (since <? la_attempted_at a)) (t_login_attempts d))).

Definition lock_end (now : Z) : Z :=
  let secs := lockout_duration_secs (cfg_security config) in
  saturating_add now (if secs <=? I64_MAX then seconds secs else DURATION_MAX).

Lemma lockout_reached (n now : Z) :
  0 < lockout_threshold (cfg_security config) <= n ->
  lockout_until n (lockout_threshold (cfg_security config)) (lockout_duration_secs (cfg_security config)) now
  = Some (lock_end now).
Proof.
  intros [? ?]. unfold lockout_until. rewrite (proj2 (Z.eqb_neq _ _)), (proj2 (Z.ltb_ge _ _)) by lia. done.
Qed.

Lemma apply_lockout_answered (v : User) (r : UserRow) ip rid (w : World) :
  all_answered -> t_users (w_db w) !! u_id v = Some r -> is_locked (ur_user r) (w_wall w) = false ->
  0 < lockout_threshold (cfg_security config) <= consecutive (w_db w) (w_wall w) (u_id v) ->
  let w' := (apply_lockout v ip rid w).1 in
  t_users (w_db w') !! u_id v = Some (update_row (w_wall w) (with_locked_until (Some (lock_end (w_now w)))) r) /\
  exists minutes, w_mails w' = w_mails w ++ [{| m_kind := AccountLockedMail minutes; m_to := u_email v |}].
Proof.
  intros Ha Hr Hl [Ht Hc]. cbn zeta. unfold apply_lockout, count_consecutive_failures_by_user, set_locked_until, audit_append.
  rewrite (bind_step _ _ _ _ _ (attempt_step _ _ _ _ (query_answered _ w Ha))).
  unfold count_limit. fold (consecutive (w_db w) (w_wall w) (u_id v)). rewrite Z.min_l by done.
  rewrite (bind_step _ _ (bump_io w) (bump_io w) (w_now w)) by done.
  rewrite lockout_reached by lia.
  erewrite bind_step; [|apply attempt_step, execute_done; [done|]]; cycle 1.
  { cbn [w_db w_wall bump_io]. rewrite Hr.
    assert (match u_locked_until (ur_user r) with Some l => l <=? w_wall w | None => true end = true) as ->.
    { unfold is_locked in Hl. destruct (u_locked_until (ur_user r)); [|done]. breflect. lia. }
    done. }
  cbv beta iota. erewrite bind_step; [|by apply attempt_step, execute_done].
  split; [apply lookup_insert_eq|eexists; reflexivity].
Qed.
(** The primary key of the accounts. *)
Definition users_keyed (d : Db) : Prop := forall i r, t_users d !! i = Some r -> u_id (ur_user r) = i.

Lemma named_row (d : Db) (identifier : str) (v : User) :
  users_keyed d -> named d identifier = Some v ->
  exists r, t_users d !! u_id v = Some r /\ ur_user r = v.
Proof.
  intros Hk Hn. unfold named in Hn. apply fmap_Some in Hn as (r & Hf & ->).
  apply find_some in Hf as [Hin _]. unfold all_users in Hin. apply in_map_iff in Hin as ([i r'] & <- & Hin).
  apply list_elem_of_In, elem_of_map_to_list in Hin. exists r'. cbn. by rewrite (Hk i r' Hin).
Qed.

End Refusals.

(** * The challenge *)

Section Challenge.
Context `{RedisServer} `{Env} `{TimeCrate} `{CryptoCrates} `{SqlText} `{IpNetworkCrate} `{Jwt}.
Context `{MacCrate} `{HyperLogLog} `{Passwords} `{PreAuthSerde}.

(** The open challenges an account's index lists. *)
Definition listed (w : World) (key : str) : gset str :=
  set_of (live (w_wall w) (dump (w_redis w) key)).

Lemma live_upd_same (t : Z) (v : rval) (x : option Z) (o : option entry) :
  x = exp_of (live t o) -> is_Some (live t o) \/ x = None -> live t (Some (Entry v x)) = Some (Entry v x).
Proof.
  intros -> Hs. cbn. unfold alive. cbn. destruct (live t o) as [e|] eqn:El; [|done]. cbn.
  destruct (live_live _ _ _ El) as [->|(y & -> & Hy)]; [done|].
  destruct (t <? y) eqn:E; [done|breflect; lia].
Qed.

Lemma spop_run (key : str) (w : World) :
  let run := spop key w in
  (forall k, k <> key -> dump (w_redis run.1) k = dump (w_redis w) k) /\
  w_wall run.1 = w_wall w /\ listed run.1 key ⊆ listed w key /\
  (forall x, run.2 = Ok (Some x) -> x ∈ listed w key /\ listed run.1 key = listed w key ∖ {[x]}).
Proof.
  cbn zeta. unfold spop, redis_cmd, io. cbn [w_io bump_draws].
  assert (forall x, x ∈ listed w key ->
    listed (with_redis (r_srem (w_redis w) (w_wall w) key x) w) key = listed w key ∖ {[x]}) as Hrem.
  { intros x Hx. unfold listed in *. cbn. rewrite dump_srem, upd_eq. cbv zeta.
    set (o := dump (w_redis w) key) in *. case_decide as Hd; [by rewrite Hd|].
    rewrite (live_upd_same _ _ _ o); [done|done|].
    destruct (live (w_wall w) o); [left; by eexists|by right]. }
  destruct (io_plan (w_io w)); cbn -[set_of]; [|split_and!; try done|].
  all: destruct (elements (set_of (live (w_wall w) (dump (w_redis w) key))) !! _) as [x|] eqn:Ex;
    cbn -[set_of]; [|split_and!; done].
  all: apply list_elem_of_lookup_2, elem_of_elements in Ex.
  all: pose proof (Hrem x Ex) as Hr; unfold listed in Hr; cbn -[set_of] in Hr; unfold listed; cbn -[set_of].
  all: split_and!; [intros k Hk; by rewrite dump_srem, upd_ne|done|rewrite Hr; set_solver|].
  - by intros y [= <-].
  - done.
Qed.

Lemma dump_del_all (t : Z) (ks : list str) (s : rstore) (k : str) :
  k ∉ ks -> dump (foldl (fun s k => r_del s t k) s ks) k = dump s k.
Proof.
  revert s. induction ks as [|k' ks IH]; intros s Hk; cbn; [done|].
  apply not_elem_of_cons in Hk as [Hne Hk]. rewrite IH by done. by rewrite dump_del, upd_ne.
Qed.

(** An index key is no key of a challenge, and challenges share none. *)
Lemma index_key_apart (uid : Uuid) (id : str) : user_pre_auth_index_key uid ∉ challenge_keys_by_id id.
Proof. unfold challenge_keys_by_id. rewrite !not_elem_of_cons. split_and!; try (intros [=]; done). set_solver. Qed.

Lemma state_key_apart (id id' : str) : id <> id' -> pre_auth_key_of id ∉ challenge_keys_by_id id'.
Proof.
  intros Hne. unfold challenge_keys_by_id, pre_auth_key_of. rewrite !not_elem_of_cons.
  split_and!; try (intros [=]; done). set_solver.
Qed.

Lemma keeps_untouched_ignoring (k : str) (cmd : rstore -> Z -> rstore) :
  (forall s t, dump (cmd s t) k = dump s k) -> keeps (untouched k) (ignoring cmd).
Proof. intros Hc. unfold ignoring. frame_auto. by apply keeps_untouched_cmd. Qed.

(** Making room spares a challenge the index does not list. *)
Lemma make_room_spares (n : nat) (uid : Uuid) (id : str) (w : World) :
  let key := user_pre_auth_index_key uid in
  id ∉ listed w key ->
  let w' := (make_room n key w).1 in
  untouched (pre_auth_key_of id) w w' /\ id ∉ listed w' key.
Proof.
  cbn zeta. revert w. induction n as [|n IH]; intros w Hid; [by split|].
  cbn [make_room]. destruct (spop_run (user_pre_auth_index_key uid) w) as (Ho & Hw & Hsub & Hx).
  assert (pre_auth_key_of id <> user_pre_auth_index_key uid) as Hne by (by intros [=]).
  destruct (spop (user_pre_auth_index_key uid) w) as [w1 r1] eqn:E1. cbn [fst snd] in *.
  rewrite (bind_step _ _ _ _ _ (attempt_step _ _ _ _ E1)).
  assert (untouched (pre_auth_key_of id) w w1) as U1 by (split; [by apply Ho|done]).
  destruct r1 as [[x|]|e]; [|split; [done|set_solver]..].
  destruct (Hx x eq_refl) as [Hin _].
  assert (keeps (untouched (pre_auth_key_of id)) (ignoring (fun s t =>
    foldl (fun s k => r_del s t k) s (challenge_keys_by_id x)))) as K1.
  { apply keeps_untouched_ignoring. intros s t. apply dump_del_all, state_key_apart. set_solver. }
  assert (keeps (untouched (user_pre_auth_index_key uid)) (ignoring (fun s t =>
    foldl (fun s k => r_del s t k) s (challenge_keys_by_id x)))) as K2.
  { apply keeps_untouched_ignoring. intros s t. apply dump_del_all, index_key_apart. }
  specialize (K1 w1). specialize (K2 w1).
  destruct (ignoring _ w1) as [w2 r2] eqn:E2. cbn [fst] in K1, K2.
  assert (r2 = Ok tt) as ->.
  { unfold ignoring, attempt, mbind, M_bind in E2. destruct (redis_cmd _ w1). by injection E2. }
  rewrite (bind_step _ _ _ _ _ E2). unfold listed in *. destruct K2 as [K2 W2].
  destruct (IH w2) as [U3 I3]; [rewrite K2, W2; set_solver|].
  split; [|done]. do 2 (eapply frame_trans; [done|]). done.
Qed.

Lemma ignoring_answered (cmd : rstore -> Z -> rstore) (w : World) :
  all_answered -> ignoring cmd w = (with_redis (cmd (w_redis w) (w_wall w)) (bump_io w), Ok tt).
Proof. intros Ha. unfold ignoring, mbind, M_bind, attempt. by rewrite redis_cmd_answered. Qed.

Lemma ignoring_Ok (cmd : rstore -> Z -> rstore) (w : World) : (ignoring cmd w).2 = Ok tt.
Proof. unfold ignoring, mbind, M_bind, attempt. by destruct (redis_cmd _ w). Qed.

Lemma spop_answered (key : str) (w : World) :
  all_answered -> listed w key <> ∅ -> exists x, (spop key w).2 = Ok (Some x).
Proof.
  intros Ha Hne. unfold spop. rewrite redis_cmd_answered by done. cbn -[set_of].
  fold (listed w key).
  assert (0 < length (elements (listed w key)))%nat as Hlen.
  { destruct (elements (listed w key)) eqn:E; [|cbn; lia]. apply elements_empty_inv in E. set_solver. }
  destruct (lookup_lt_is_Some_2 (elements (listed w key))
    (draw_pick (w_draws w) mod length (elements (listed w key)))) as [x Hx].
  { apply Nat.mod_upper_bound. lia. }
  exists x. unfold listed in *. by rewrite Hx.
Qed.

Lemma make_room_size (n : nat) (uid : Uuid) (w : World) :
  all_answered ->
  let key := user_pre_auth_index_key uid in
  (size (listed (make_room n key w).1 key) <= size (listed w key) - n)%nat.
Proof.
  intros Ha. cbn zeta. revert w. induction n as [|n IH]; intros w; [cbn; lia|]. cbn [make_room].
  destruct (spop_run (user_pre_auth_index_key uid) w) as (_ & _ & Hsub & Hx).
  destruct (decide (listed w (user_pre_auth_index_key uid) = ∅)) as [He|Hne].
  { assert (forall x, (spop (user_pre_auth_index_key uid) w).2 <> Ok (Some x)) as Hno.
    { intros x Hp. destruct (Hx x Hp). set_solver. }
    destruct (spop (user_pre_auth_index_key uid) w) as [w1 r1] eqn:E1. cbn [fst snd] in *.
    rewrite (bind_step _ _ _ _ _ (attempt_step _ _ _ _ E1)).
    destruct r1 as [[x|]|e]; [by destruct (Hno x)|..]; cbn [fst mret M_ret]; apply subseteq_size in Hsub;
      rewrite He, size_empty in *; lia. }
  destruct (spop_answered _ w Ha Hne) as [x Hp]. destruct (Hx x Hp) as [Hin Heq].
  destruct (spop (user_pre_auth_index_key uid) w) as [w1 r1] eqn:E1. cbn [fst snd] in *. subst r1.
  rewrite (bind_step _ _ _ _ _ (attempt_step _ _ _ _ E1)).
  rewrite (bind_step _ _ _ _ _ (ignoring_answered _ _ Ha)).
  etrans; [apply IH|]. unfold listed at 1. cbn [w_redis with_redis w_wall bump_io].
  rewrite dump_del_all by apply index_key_apart. fold (listed w1 (user_pre_auth_index_key uid)).
  rewrite Heq, size_difference, size_singleton by set_solver. lia.
Qed.

(** One member more, whatever the expiry. *)
Lemma size_set_of_expire (t e : Z) (o : option entry) (id : str) :
  (size (set_of (live t (match live t (Some (Entry (RSet ({[id]} ∪ set_of (live t o))) (exp_of (live t o)))) with
                         | Some e' => Some (Entry (e_val e') (Some e))
                         | None => None
                         end))) <= S (size (set_of (live t o))))%nat.
Proof.
  destruct (live t (Some (Entry (RSet _) _))) as [e'|] eqn:El; [|cbn; rewrite size_empty; lia].
  assert (e_val e' = RSet ({[id]} ∪ set_of (live t o))) as Hv.
  { unfold live in El. by case_match; simplify_eq. }
  cbn [live]. unfold alive at 1. cbn [e_exp]. destruct (t <? e); cbn [set_of]; [|rewrite size_empty; lia].
  rewrite Hv. rewrite size_union_alt, size_singleton.
  apply le_n_S, subseteq_size. set_solver.
Qed.

Definition challenge_state (uid : Uuid) (rm : bool) (m : ChallengeMethod) : PreAuthState :=
  {| pa_user_id := uid; pa_remember_me := rm; pa_method := Some m |}.

(** An opened challenge waits for its second factor under the digest of its
    token, for five minutes, and reads back as the account, the choice to be
    remembered and the method it was opened for; making room for it drops other
    challenges only.  With every command answered an account never has more than
    five listed. *)
Theorem challenge_opened (uid : Uuid) (rm : bool) (m : ChallengeMethod) (w w' : World) (tok : str) :
  open_challenge uid rm m w = (w', Ok tok) ->
  challenge_id tok ∉ listed w (user_pre_auth_index_key uid) ->
  (exists raw, dump (w_redis w') (pre_auth_key tok) =
      Some (Entry (RStr raw) (Some (w_wall w + PRE_AUTH_TTL_SECS * NS))) /\
    parse_pre_auth_state raw = Ok (challenge_state uid rm m)) /\
  (all_answered -> (size (listed w' (user_pre_auth_index_key uid)) <= 5)%nat).
Proof.
  unfold open_challenge. intros R Hid. set (key := user_pre_auth_index_key uid) in *.
  unbind R tok' w1 R1. injection R1 as <- <-.
  unbind R x2 w2 R2. apply map_err_Ok in R2.
  assert (w2 = bump_io (bump_draws w)) as ->.
  { unfold redis_conn, io in R2. destruct (io_plan _); by simplify_eq. }
  unbind R x3 w3 R3. apply map_err_Ok in R3.
  assert (tok = draw_token (w_draws w)) as Htok.
  { unbind R a b c. unbind R a1 b1 c1. unbind R a2 b2 c2. unbind R a3 b3 c3. by apply ret_Ok in R as [-> _]. }
  rewrite <- Htok in *. unfold redis_cmd, io in R3. destruct (io_plan _); [|done..]. cbn in R3.
  injection R3 as <- <-. set (w3 := with_redis _ _) in R.
  assert (key <> pre_auth_key tok) as Hne by (by intros [=]).
  assert (listed w3 key = listed w key) as L3 by (unfold listed; cbn; by rewrite dump_set_ex, upd_ne).
  assert (dump (w_redis w3) (pre_auth_key tok) = Some (Entry (RStr (pre_auth_to_string (challenge_state uid rm m)))
    (Some (w_wall w + PRE_AUTH_TTL_SECS * NS)))) as D3 by (cbn; by rewrite dump_set_ex, upd_eq).
  assert (w_wall w3 = w_wall w) as W3 by done. clearbody w3.
  unbind R counted w4 R4.
  assert (forall k, untouched k w3 w4) as U4.
  { intros k. eapply keeps_run, R4. apply keeps_attempt. by apply keeps_untouched_cmd. }
  assert (listed w4 key = listed w key) as L4.
  { rewrite <- L3. unfold listed. by destruct (U4 key) as [-> ->]. }
  unbind R x5 w5 R5.
  destruct (make_room_spares (Z.to_nat (match counted with Ok n => n | Err _ => 0 end - (MAX_OPEN_CHALLENGES - 1)))
    uid (challenge_id tok) w4) as [U5 _]; [by fold key; rewrite L4|].
  pose proof (make_room_size (Z.to_nat (match counted with Ok n => n | Err _ => 0 end - (MAX_OPEN_CHALLENGES - 1)))
    uid w4) as S5. cbn zeta in U5, S5. unfold key in R5. rewrite R5 in U5, S5. cbn [fst] in U5, S5.
  fold key in S5, R5.
  unbind R x6 w6 R6. unbind R x7 w7 R7. apply ret_Ok in R as [_ ->]. split.
  - exists (pre_auth_to_string (challenge_state uid rm m)). split.
    + assert (untouched (pre_auth_key tok) w5 w7) as [-> _].
      { eapply frame_trans; [eapply keeps_run, R6|eapply keeps_run, R7];
          apply keeps_untouched_ignoring; intros s t; rewrite ?dump_sadd, ?dump_expire, upd_ne by done; done. }
      destruct U5 as [U5 _]. fold (pre_auth_key tok) in U5. by rewrite U5, (proj1 (U4 _)).
    + unfold parse_pre_auth_state. by rewrite pre_auth_no_uuid, pre_auth_read_back.
  - intros Ha. specialize (S5 Ha). rewrite L4 in S5.
    assert (counted = Ok (Z.of_nat (size (listed w key)))) as ->.
    { unfold attempt in R4. rewrite redis_cmd_answered in R4 by done. injection R4 as _ <-.
      fold (listed w3 key). by rewrite L3. }
    rewrite ignoring_answered in R6, R7 by done. injection R6 as <-. injection R7 as <-.
    unfold listed. cbn [w_redis with_redis w_wall bump_io]. rewrite dump_expire, upd_eq, dump_sadd, upd_eq.
    etrans; [apply size_set_of_expire|]. fold (listed w5 key). unfold MAX_OPEN_CHALLENGES in S5. lia.
Qed.
End Challenge.

(** * The background rehash *)

Section Rehash.
Context `{RedisServer} `{Env} `{TimeCrate} `{CryptoCrates} `{SqlText} `{IpNetworkCrate} `{Jwt}.
Context `{MacCrate} `{HyperLogLog} `{Passwords} `{PreAuthSerde}.

(** Rehashing in the background never brings an old password back: whatever
    happened since the sign-in that started it, and whatever fails, it changes
    no account but one that still has the very hash the sign-in verified, and of
    that one only the hash, to one of the same password. *)
Theorem rehash_spares_new_passwords (id : Uuid) (current plaintext : str) (w : World) :
  users_keyed (w_db w) ->
  let w' := (run_task (RehashPassword id current plaintext) w).1 in
  w_db w' = w_db w \/
  exists r replacement, t_users (w_db w) !! id = Some r /\ u_password_hash (ur_user r) = current /\
    password_hash plaintext = Some replacement /\
    w_db w' = set_users (insert id (update_row (w_wall w) (with_password_hash replacement) r)) (w_db w).
Proof.
  intros Hk.
  cbn zeta. unfold run_task. destruct (password_hash plaintext) as [replacement|]; [|by left].
  unfold mbind, M_bind, attempt.
  destruct (execute_run (fun d now =>
    update_user id (fun v => str_eqb (u_password_hash v) current)
      (update_row now (with_password_hash replacement)) d) w) as [_ Hdb].
  unfold replace_password_hash. destruct (execute _ w) as [w1 r1]. cbn [fst mret M_ret] in *.
  destruct Hdb as [?|[a Ha]]; [by left|]. unfold update_user, put_user in Ha.
  destruct (t_users (w_db w) !! id) as [r|] eqn:Er; [|left; by injection Ha as <-].
  destruct (str_eqb _ _) eqn:Es; [|left; by injection Ha as <-]. breflect.
  destruct (user_refused _ _); [done|]. right. exists r, replacement.
  injection Ha as <- _. cbn. by rewrite (Hk id r Er).
Qed.
End Rehash.

(** * Witnesses *)

Section Witnesses.
Import Run.
#[local] Existing Instance calm.

(** Someone who failed four times, and will again. *)
Definition guessed : World :=
  with_db (fun d => foldl (fun d t => add_attempt
    (failed_attempt (Some 7%N) u"ada" InvalidPassword None None (t * NS)) d) d [15; 16; 17; 18]) world.

Lemma login_sound_witness :
  exists v, first_factor (w_db guessed) (w_now guessed) u"ada@example.org" [] v /\ u_id v = 7%N.
Proof.
  set (run := login u"ada@example.org" [] None None None false None guessed).
  destruct run.2 as [res|e] eqn:E; [|exfalso; revert E; vm_compute; discriminate].
  destruct (login_sound u"ada@example.org" [] None None None false None guessed run.1 res)
    as (v & Hv & _).
  { apply run_answer. exact E. }
  exists v. split; [exact Hv|]. destruct Hv as [Hn _ _ _]. revert Hn. vm_compute. by intros [= <-].
Defined.

Lemma login_refusals_alike_witness :
  let run := login u"nobody" u"guess" None None None false None guessed in
  run.2 = Err InvalidCredentials /\ refusal guessed run.1 u"nobody" None.
Proof.
  destruct (login_refusals_alike u"nobody" u"guess" None None None false None guessed) as [[E _]|Hr].
  - apply calm_answered.
  - vm_compute. exact I.
  - exfalso. revert E. vm_compute. discriminate.
  - exact Hr.
Defined.

Lemma guessed_keyed : users_keyed (w_db guessed).
Proof.
  intros i r Hr. change (t_users (w_db guessed)) with
    ({[ 7%N := {| ur_user := user; ur_lockout_cleared_at := None |} ]} : gmap Uuid UserRow) in Hr.
  by apply lookup_singleton_Some in Hr as [<- <-].
Qed.


Lemma challenge_opened_witness :
  let run := open_challenge 7%N true Login.Totp world in
  exists raw, r_get (w_redis run.1) (w_wall run.1) (pre_auth_key (draw_token 0)) = Some (RStr raw) /\
    parse_pre_auth_state raw = Ok (challenge_state 7%N true Login.Totp).
Proof.
  destruct (challenge_opened 7%N true Login.Totp world (open_challenge 7%N true Login.Totp world).1 (draw_token 0))
    as [(raw & Hd & Hp) _].
  - apply run_answer. vm_compute. reflexivity.
  - vm_compute. intros Hin. inversion Hin.
  - exists raw. split; [|exact Hp]. unfold r_get. rewrite Hd. reflexivity.
Defined.
End Witnesses.
