(* ===== verification/SecondFactor.v ===== *)
(** Completing a sign-in paused for a second factor: the three completions of
    src/src/services/auth/second_factor.rs, the challenge they consume
    (services/auth/pre_auth.rs), TOTP verification (utils/totp.rs) with its
    replay guard (repositories/two_factor.rs), mailed codes
    (services/email_2fa.rs, repositories/email_2fa.rs) and recovery codes
    (repositories/recovery_code.rs). *)
From S2P Require Import Prelude Crates Session Account OAuthDomain Network Edge Crypto Tables App RedisCounter SessionRepo Repos Tokens UserRepo AccessRepo TokenRepo Refresh Login.
Import Account.User Account.LoginAttempt Account.Audit Account.TwoFactor Account.Token.
Import Edge.IpBucket.

Definition MAX_TOTP_FAILURES : Z := 5.
Definition MAX_TOTP_FAILURES_BY_USER : Z := 10.
Definition TOTP_USER_FAIL_PREFIX : str := u"totp_user_fail:".
Definition EMAIL_2FA_USER_FAIL_PREFIX : str := u"email2fa_user_fail:".
Definition TOTP_USED_PREFIX : str := u"totp_used:".
Definition MAX_RECOVERY_FAILURES : Z := 5.
Definition MAX_RECOVERY_FAILURES_BY_USER : Z := 5.
Definition RECOVERY_FAILURE_USER_WINDOW_SECS : Z := 3600.
Definition RC_USER_FAIL_PREFIX : str := u"rc_user_fail:".
Definition MAX_FAILURES : Z := 3.
Definition MAX_FAILURES_BY_USER : Z := 10.
Definition MAX_TOTP_SKEW : Z := 1.
(** Resends of a mailed code, per challenge and per account in an hour. *)
Definition MAX_EMAIL_RESENDS_PER_CHALLENGE : Z := 2.
Definition MAX_EMAIL_RESENDS_PER_ACCOUNT : Z := 10.
Definition TOTP_REPLAY_WINDOW_SECS : Z := (2 * MAX_TOTP_SKEW + 2) * 30.

(** * TOTP *)

(** [totp-rs] with SHA-1, six digits and 30-second steps: whether a base32
    secret builds, the code of a step, and [check], which accepts the codes of
    the steps within the skew of the current one. *)
Class TotpCrate := {
  secret_builds : str -> bool;
  step_code : str -> Z -> str;
  totp_check : str -> Z -> str -> Z -> bool;
  totp_check_spec : forall secret skew code now,
    0 <= skew -> skew * 30 <= now ->
    totp_check secret skew code now = true <->
    exists step, now / 30 - skew <= step <= now / 30 + skew /\ step_code secret step = code;
}.

#[export] Instance toy_totp : TotpCrate.
Proof.
  refine {|
    secret_builds _ := true;
    step_code _ step := pad6 (step mod 1000000);
    totp_check _ skew code now :=
      existsb (fun i => str_eqb (pad6 ((now / 30 - skew + Z.of_nat i) mod 1000000)) code)
        (seq 0 (Z.to_nat (2 * skew + 1)));
  |}.
  intros _ skew code now Hs _. rewrite existsb_exists. split.
  - intros (i & Hi%in_seq & Hc%str_eqb_eq). exists (now / 30 - skew + Z.of_nat i). split; [lia|done].
  - intros (step & Hr & Hc). exists (Z.to_nat (step - (now / 30 - skew))).
    rewrite in_seq, str_eqb_eq. split; [lia|]. rewrite <- Hc. do 2 f_equal. lia.
Defined.

Inductive TotpError := CryptoFailed (e : CryptoError) | InvalidSecret | TimeError.

Section Totp.
Context `{MacCrate} `{AeadCrate} `{TotpCrate}.

Definition verify_code (encrypted_secret : str) (owner : Uuid) (code : str) (keyring : Keyring)
    (skew now : Z) : result bool TotpError :=
  if now <? 0 then Err TimeError
  else if now <? skew * 30 then Err TimeError
  else if negb (byte_len code =? 6) || negb (bytes_all is_ascii_digit code) then Ok false
  else match decrypt keyring encrypted_secret (uuid_as_bytes owner) with
  | Err e => Err (CryptoFailed e)
  | Ok plaintext =>
      if secret_builds plaintext then Ok (totp_check plaintext skew code now) else Err InvalidSecret
  end.
End Totp.

(** * Repositories *)

Section Repositories.
Context `{RedisServer} `{Env}.

(** The replay guard: the account's stale entries go, then the code is
    recorded unless it is there. *)
Definition purge_used (user_id : Uuid) (cutoff : Z) (l : list (Uuid * bytes * Z)) :=
  List.filter (fun x => negb (bool_decide (x.1.1 = user_id) && (x.2 <? cutoff))) l.

Definition used_entry (user_id : Uuid) (code_hash : bytes) (l : list (Uuid * bytes * Z)) : bool :=
  existsb (fun x => bool_decide (x.1 = (user_id, code_hash))) l.

Definition try_consume_totp_code (user_id : Uuid) (code_hash : bytes) (now : Z) : M SqlError bool :=
  transaction SqlFailed (
    _ ← execute (fun d _ =>
          Ok (set_used_totp (purge_used user_id (now - seconds TOTP_REPLAY_WINDOW_SECS)) d, tt));
    execute (fun d _ =>
      if used_entry user_id code_hash (t_used_totp d) then Ok (d, false)
      else Ok (set_used_totp (fun l => l ++ [(user_id, code_hash, now)]) d, true))).

(** The latest live code of the account with one of the digests. *)
Definition code_live (now : Z) (c : Email2faCode) : bool :=
  bool_decide (ec_used_at c = None) && (now <? ec_expires_at c).

Definition latest (p : Email2faCode -> bool) (codes : list Email2faCode) : option Email2faCode :=
  foldl (fun best c =>
    if p c then match best with
                | Some b => if ec_created_at b <=? ec_created_at c then Some c else best
                | None => Some c
                end
    else best) None codes.

Definition email_find_active_by_user (user_id : Uuid) : M SqlError (option Email2faCode) :=
  query (fun d now => latest (fun c => bool_decide (ec_user_id c = user_id) && code_live now c)
                        (t_email_codes d)).

Definition find_active_by_user_and_hash (user_id : Uuid) (code_hashes : list bytes) :
    M SqlError (option Email2faCode) :=
  query (fun d now =>
    latest (fun c => bool_decide (ec_user_id c = user_id) && bool_decide (ec_code_hash c ∈ code_hashes)
                     && code_live now c) (t_email_codes d)).

Definition code_used_row (now : Z) (c : Email2faCode) : Email2faCode :=
  {| ec_id := ec_id c; ec_user_id := ec_user_id c; ec_code_hash := ec_code_hash c;
     ec_created_at := ec_created_at c; ec_expires_at := ec_expires_at c; ec_used_at := Some now |}.

Definition use_codes (now : Z) (p : Email2faCode -> bool) (codes : list Email2faCode) :
    list Email2faCode :=
  map (fun c => if p c then code_used_row now c else c) codes.

(** [email_2fa::consume]: the code, and the other live ones of its account. *)
Definition email_code_consume (id : Uuid) : M SqlError bool :=
  committed ← try_transaction SqlFailed (
    user_id ← execute (fun d now =>
      let p c := bool_decide (ec_id c = id) && code_live now c in
      Ok (set_email_codes (use_codes now p) d, ec_user_id <$> List.find p (t_email_codes d)));
    match user_id with
    | None => mret None
    | Some user_id =>
        _ ← execute (fun d now =>
          Ok (set_email_codes (use_codes now (fun c =>
                bool_decide (ec_user_id c = user_id) && bool_decide (ec_used_at c = None))) d, tt));
        mret (Some tt)
    end);
  mret (bool_decide (is_Some committed)).

Definition recovery_usable (now : Z) (r : RecoveryCode) : bool :=
  bool_decide (rc_used_at r = None)
  && match rc_expires_at r with None => true | Some e => now <? e end.

Definition recovery_find_by_hash (code_hash : bytes) : M SqlError (option RecoveryCode) :=
  query (fun d now => List.find (fun r => bool_decide (rc_code_hash r = code_hash) && recovery_usable now r)
                        (t_recovery_codes d)).

Definition recovery_used_row (now : Z) (r : RecoveryCode) : RecoveryCode :=
  {| rc_id := rc_id r; rc_user_id := rc_user_id r; rc_created_at := rc_created_at r;
     rc_expires_at := rc_expires_at r; rc_used_at := Some now; rc_code_position := rc_code_position r;
     rc_code_hash := rc_code_hash r |}.

Definition recovery_consume (id : Uuid) : M SqlError bool :=
  execute (fun d now =>
    let p r := bool_decide (rc_id r = id) && recovery_usable now r in
    Ok (set_recovery_codes (map (fun r => if p r then recovery_used_row now r else r)) d,
        bool_decide (length (List.filter p (t_recovery_codes d)) = 1%nat))).
End Repositories.

(** * Services *)

Section SecondFactor.
Context `{RedisServer} `{Env} `{TimeCrate} `{CryptoCrates} `{SqlText} `{IpNetworkCrate} `{Jwt}.
Context `{MacCrate} `{AeadCrate} `{TotpCrate} `{HyperLogLog} `{Passwords} `{PreAuthSerde}.

(** ** The challenge *)

(** [GET] read as an [Option<String>]. *)
Definition load_pre_auth_state_from_redis (redis_key : str) : M AppError PreAuthState :=
  raw ← map_err redis_unavailable (redis_cmd (fun s t =>
          (s, match r_get s t redis_key with Some (RStr raw) => Some raw | _ => None end)));
  raw ← ok_or raw TokenInvalid;
  lift (parse_pre_auth_state raw).

Definition resolve_pre_auth (pre_auth_token : str) : M AppError PreAuthState :=
  _ ← map_err redis_unavailable redis_conn;
  load_pre_auth_state_from_redis (pre_auth_key pre_auth_token).

(** ** Sending a code again *)

Definition resend_budgets (pre_auth_token : str) (user_id : Uuid) : list Budget :=
  [{| bg_key := u"email2fa_resend:" ++ challenge_id pre_auth_token; bg_limit := MAX_EMAIL_RESENDS_PER_CHALLENGE;
      bg_window_secs := PRE_AUTH_TTL_SECS |};
   {| bg_key := u"email2fa_resend_user:" ++ uuid_str user_id; bg_limit := MAX_EMAIL_RESENDS_PER_ACCOUNT;
      bg_window_secs := SECOND_FACTOR_USER_WINDOW_SECS |}].

Definition budget_email_resend (pre_auth_token : str) (user_id : Uuid) : M AppError unit :=
  attempted ← consume (resend_budgets pre_auth_token user_id);
  if exceeded attempted then fail RateLimitExceededError
  else
    found ← internal (user_find_by_id user_id);
    user ← ok_or found TokenInvalid;
    lift (ensure_account_usable user).

Definition resend_email_two_factor (pre_auth_token : str) : M AppError unit :=
  pre_auth ← resolve_pre_auth pre_auth_token;
  _ ← lift (expect_method pre_auth Login.Email);
  _ ← budget_email_resend pre_auth_token (pa_user_id pre_auth);
  _ ← attempt (send_code (pa_user_id pre_auth) (Some pre_auth_token));
  mret tt.

Fixpoint del_each (keys : list str) : M AppError unit :=
  match keys with
  | [] => mret tt
  | key :: rest => _ ← ignoring (fun s t => r_del s t key); del_each rest
  end.

(** The removal is required; only the completion that removes goes on. *)
Definition take_pre_auth (redis_key : str) (user_id : Uuid) (pre_auth_token : str)
    (budgets : list str) : M AppError unit :=
  _ ← map_err redis_unavailable redis_conn;
  removed ← map_err redis_unavailable (redis_cmd (fun s t =>
              (r_del s t redis_key, if r_exists s t redis_key then 1 else 0)));
  if negb (removed =? 1) then fail TokenInvalid
  else
    _ ← del_each budgets;
    ignoring (fun s t => r_srem s t (user_pre_auth_index_key user_id) (challenge_id pre_auth_token)).

(** Every open challenge of an account, and its email change. *)
Definition email_change_active_key (user_id : Uuid) : str := u"email_change_active:" ++ uuid_str user_id.

Fixpoint purge_challenges (ids : list str) : M AppError unit :=
  match ids with
  | [] => mret tt
  | id :: rest =>
      _ ← ignoring (fun s t => foldl (fun s k => r_del s t k) s (challenge_keys_by_id id));
      purge_challenges rest
  end.

Definition purge_user_pre_auth_and_email_change (user_id : Uuid) : M AppError unit :=
  conn ← attempt redis_conn;
  match conn with
  | Err _ => mret tt
  | Ok _ =>
      let index_key := user_pre_auth_index_key user_id in
      ids ← attempt (redis_cmd (fun s t => (s, elements (set_of (live t (dump s index_key))))));
      _ ← purge_challenges (match ids with Ok l => l | Err _ => [] end);
      _ ← ignoring (fun s t => r_del s t index_key);
      let active_key := email_change_active_key user_id in
      active ← attempt (redis_cmd (fun s t =>
        (s, match r_get s t active_key with Some (RStr id) => Some id | _ => None end)));
      match active with
      | Ok (Some flow_id) =>
          ignoring (fun s t => foldl (fun s k => r_del s t k) s
            [u"email_change_flow:" ++ flow_id; u"email_change_fail:" ++ flow_id; active_key])
      | _ => mret tt
      end
  end.

(** ** Budgets *)

(** The attempt is reserved before the code is looked at: against the challenge
    and the account. *)
Definition second_factor_budgets (fail_key : str) (limit window_secs : Z)
    (account_keys : list (str * Z)) (account_window : Z) : list Budget :=
  {| bg_key := fail_key; bg_limit := limit; bg_window_secs := window_secs |} ::
  map (fun k => {| bg_key := k.1; bg_limit := k.2; bg_window_secs := account_window |}) account_keys.

Definition reserve_second_factor (fail_key : str) (limit window_secs : Z)
    (account_keys : list (str * Z)) (account_window : Z) (user_id : Uuid) : M AppError Consumed :=
  attempted ← consume (second_factor_budgets fail_key limit window_secs account_keys account_window);
  if exceeded attempted then
    _ ← (if account_budget_exceeded (counts attempted) (default 0 (snd <$> head account_keys))
         then notify_second_factor_pressure user_id else mret tt);
    fail RateLimitExceededError
  else mret attempted.

(** [attempt.counts[0]]: there is one, the budget of the challenge. *)
Definition first_count (a : Consumed) : Z := default 0 (head (counts a)).

Definition find_usable_user (user_id : Uuid) : M AppError User :=
  found ← internal (user_find_by_id user_id);
  user ← ok_or found Unauthorized;
  _ ← lift (ensure_account_usable user);
  mret user.

Definition second_factor_sign_in (request_id : option Uuid) (how : json) : SignIn :=
  {| si_identifier := None; si_request_id := request_id;
     si_audit_metadata := JObj [(u"two_factor", how)]; si_second_factor := true |}.

(** ** TOTP *)

Definition totp_used_key (user_id : Uuid) (code : str) : str :=
  TOTP_USED_PREFIX ++ uuid_str user_id ++ [58] ++ code.

(** The replay guard: Redis as a fast path, the table as the authority. *)
Definition consume_totp (user_id : Uuid) (code : str) : M AppError bool :=
  conn ← attempt redis_conn;
  cached_replay ← match conn with
                  | Ok _ =>
                      seen ← attempt (redis_cmd (fun s t => (s, r_exists s t (totp_used_key user_id code))));
                      mret (match seen with Ok b => b | Err _ => false end)
                  | Err _ => mret false
                  end;
  now ← clock_now;
  consumed ← (if cached_replay : bool then mret false
              else internal (try_consume_totp_code user_id (sha256 (as_bytes code)) now));
  _ ← (if consumed : bool
       then best_effort (fun s t => r_set_ex s t (totp_used_key user_id code) (RInt 1) 60)
       else mret tt);
  mret consumed.

Definition totp_method (m : option TwoFactorMethod) : option TwoFactorMethod :=
  m ≫= fun m => if bool_decide (tf_method_type m = TwoFactor.Totp) then Some m else None.

Definition complete_two_factor_login (pre_auth_token code : str) (ip : option IpNetwork)
    (user_agent device_name : option str) (request_id : option Uuid) : M AppError AuthTokens :=
  let redis_key := pre_auth_key pre_auth_token in
  let fail_key := TOTP_FAIL_PREFIX ++ challenge_id pre_auth_token in
  _ ← map_err redis_unavailable redis_conn;
  state ← load_pre_auth_state_from_redis redis_key;
  _ ← lift (expect_method state Login.Totp);
  let user_id := pa_user_id state in
  let account_keys := second_factor_budget_keys TOTP_USER_FAIL_PREFIX user_id ip MAX_TOTP_FAILURES_BY_USER in
  attempted ← reserve_second_factor fail_key MAX_TOTP_FAILURES PRE_AUTH_TTL_SECS account_keys
                SECOND_FACTOR_USER_WINDOW_SECS user_id;
  user ← find_usable_user user_id;
  primary ← internal (find_primary_by_user (u_id user));
  method ← ok_or (totp_method primary) TokenInvalid;
  encrypted_secret ← ok_or (tf_totp_secret method) Unauthorized;
  now ← clock_now;
  valid ← lift (match verify_code encrypted_secret user_id code keyring (cfg_totp_skew config)
                        (unix_timestamp now) with
                | Ok b => Ok b | Err _ => Err Internal end);
  consumed ← (if valid : bool then consume_totp user_id code else mret false);
  if negb consumed then
    _ ← record_second_factor_failure user ip user_agent request_id;
    _ ← apply_backoff (first_count attempted);
    fail TwoFactorFailedError
  else
    _ ← reset (map fst account_keys);
    _ ← take_pre_auth redis_key user_id pre_auth_token [fail_key];
    issue_tokens (u_id user) ip user_agent device_name (pa_remember_me state) Web None None
      (Some (second_factor_sign_in request_id (JBool true))).

(** ** Mailed codes *)

Definition verify_otp (user_id : Uuid) (challenge : option str) (submitted_code fail_key : str)
    (ip : option IpNetwork) : M AppError unit :=
  let account_keys := second_factor_budget_keys EMAIL_2FA_USER_FAIL_PREFIX user_id ip MAX_FAILURES_BY_USER in
  attempted ← reserve_second_factor fail_key MAX_FAILURES OTP_EXPIRY_SECS account_keys
                USER_FAILURE_WINDOW_SECS user_id;
  let digests := otp_digests keyring OTP_PURPOSE (code_subject user_id challenge) submitted_code in
  record ← internal (find_active_by_user_and_hash user_id digests);
  consumed ← match record with
             | Some record => internal (email_code_consume (ec_id record))
             | None => mret false
             end;
  if negb consumed then
    _ ← apply_backoff (first_count attempted);
    fail TwoFactorFailedError
  else reset (map fst account_keys ++ [fail_key]).

Definition verify_login_code (user_id : Uuid) (pre_auth_token submitted_code : str)
    (ip : option IpNetwork) : M AppError unit :=
  verify_otp user_id (Some pre_auth_token) submitted_code
    (EMAIL_2FA_FAIL_PREFIX ++ challenge_id pre_auth_token) ip.

Definition complete_email_2fa_login (pre_auth_token code : str) (ip : option IpNetwork)
    (user_agent device_name : option str) (request_id : option Uuid) : M AppError AuthTokens :=
  let redis_key := pre_auth_key pre_auth_token in
  _ ← map_err redis_unavailable redis_conn;
  state ← load_pre_auth_state_from_redis redis_key;
  _ ← lift (expect_method state Login.Email);
  let user_id := pa_user_id state in
  user ← find_usable_user user_id;
  verified ← attempt (verify_login_code user_id pre_auth_token code ip);
  match verified with
  | Err e =>
      _ ← (if bool_decide (e = TwoFactorFailedError)
           then record_second_factor_failure user ip user_agent request_id else mret tt);
      fail e
  | Ok _ =>
      _ ← take_pre_auth redis_key user_id pre_auth_token [];
      issue_tokens (u_id user) ip user_agent device_name (pa_remember_me state) Web None None
        (Some (second_factor_sign_in request_id (JStr u"email")))
  end.

(** ** Recovery codes *)

Definition consume_recovery_code (user_id : Uuid) (recovery_code_plaintext : str) : M AppError bool :=
  found ← internal (recovery_find_by_hash (sha256 (as_bytes recovery_code_plaintext)));
  match found ≫= (fun r => if bool_decide (rc_user_id r = user_id) then Some r else None) with
  | Some record => internal (recovery_consume (rc_id record))
  | None => mret false
  end.

Definition complete_login_with_recovery (pre_auth_token recovery_code_plaintext : str)
    (ip : option IpNetwork) (user_agent : option str) (request_id : option Uuid) : M AppError AuthTokens :=
  let redis_key := pre_auth_key pre_auth_token in
  let fail_key := RC_FAIL_PREFIX ++ challenge_id pre_auth_token in
  _ ← map_err redis_unavailable redis_conn;
  state ← load_pre_auth_state_from_redis redis_key;
  if bool_decide (pa_method state = None) then fail TokenInvalid
  else
    let user_id := pa_user_id state in
    let account_keys := second_factor_budget_keys RC_USER_FAIL_PREFIX user_id ip
                          MAX_RECOVERY_FAILURES_BY_USER in
    attempted ← reserve_second_factor fail_key MAX_RECOVERY_FAILURES PRE_AUTH_TTL_SECS account_keys
                  RECOVERY_FAILURE_USER_WINDOW_SECS user_id;
    user ← find_usable_user user_id;
    consumed ← consume_recovery_code user_id recovery_code_plaintext;
    if negb consumed then
      _ ← record_second_factor_failure user ip user_agent request_id;
      _ ← apply_backoff (first_count attempted);
      fail TwoFactorFailedError
    else
      _ ← take_pre_auth redis_key user_id pre_auth_token [fail_key];
      _ ← reset (map fst account_keys);
      tokens ← issue_tokens (u_id user) ip user_agent None (pa_remember_me state) Web None None
                 (Some (second_factor_sign_in request_id (JStr u"recovery_code")));
      _ ← tell (add_mail {| m_kind := RecoveryCodeUsedMail; m_to := u_email user |});
      mret tokens.
End SecondFactor.

(** ** Loops over Redis *)

Lemma keeps_del_each `{RedisServer} `{Env} {R : World -> World -> Prop} `{!CoreFrame R, !RedisFrame R} (ks : list str) :
  keeps R (del_each ks).
Proof. induction ks; cbn; unfold ignoring; frame_auto. Qed.

Lemma keeps_purge_challenges `{RedisServer} `{Env} {R : World -> World -> Prop} `{!CoreFrame R, !RedisFrame R}
    (ids : list str) :
  keeps R (purge_challenges ids).
Proof. induction ids; cbn; unfold ignoring; frame_auto. Qed.

#[export] Hint Resolve keeps_del_each keeps_purge_challenges : frame.
