(* ===== verification/SecondFactorCorrect.v ===== *)
(** Theorems about second factors: what a completed sign-in proves and spends,
    that a challenge completes once, and that a TOTP code is accepted once. *)
From S2P Require Import Prelude Crates Session Account OAuthDomain Network Edge Crypto Tables App RedisCounter SessionRepo Repos Tokens UserRepo AccessRepo TokenRepo Scenario TokensCorrect Refresh RefreshCorrect Login LoginCorrect SecondFactor.
Import Account.User Account.LoginAttempt Account.Audit Account.TwoFactor Account.Token.

Section Frames.
Context `{RedisServer} `{Env} `{TimeCrate} `{CryptoCrates} `{SqlText} `{IpNetworkCrate} `{Jwt}.
Context `{MacCrate} `{AeadCrate} `{TotpCrate} `{HyperLogLog} `{Passwords} `{PreAuthSerde}.

Lemma keeps_load (R : World -> World -> Prop) `{!CoreFrame R, !RedisFrame R} key :
  keeps R (load_pre_auth_state_from_redis key).
Proof. unfold load_pre_auth_state_from_redis. frame_auto. Qed.

Lemma keeps_pressure (R : World -> World -> Prop) `{!CoreFrame R, !RedisFrame R} uid :
  keeps R (notify_second_factor_pressure uid).
Proof. unfold notify_second_factor_pressure, user_find_by_id. frame_auto. Qed.

Lemma keeps_reserve_2fa (R : World -> World -> Prop) `{!CoreFrame R, !RedisFrame R} k l win ks awin uid :
  keeps R (reserve_second_factor k l win ks awin uid).
Proof. unfold reserve_second_factor. frame_auto. by apply keeps_pressure. Qed.

Lemma keeps_find_usable (R : World -> World -> Prop) `{!CoreFrame R} uid : keeps R (find_usable_user uid).
Proof. unfold find_usable_user, internal, user_find_by_id. frame_auto. Qed.

Lemma keeps_ignoring (R : World -> World -> Prop) `{!CoreFrame R, !RedisFrame R} cmd :
  keeps R (ignoring cmd).
Proof. unfold ignoring. frame_auto. Qed.

Lemma keeps_take (R : World -> World -> Prop) `{!CoreFrame R, !RedisFrame R} k uid tok bs :
  keeps R (take_pre_auth k uid tok bs).
Proof. unfold take_pre_auth. frame_auto. by apply keeps_ignoring. Qed.
End Frames.

#[export] Hint Resolve keeps_load keeps_pressure keeps_reserve_2fa keeps_find_usable keeps_ignoring
  keeps_take : frame.

(** * The challenge, read and taken *)

Section Challenge.
Context `{RedisServer} `{Env} `{TimeCrate} `{CryptoCrates} `{SqlText} `{IpNetworkCrate} `{Jwt}.
Context `{MacCrate} `{AeadCrate} `{TotpCrate} `{HyperLogLog} `{Passwords} `{PreAuthSerde}.

(** An entry that is not there does not come back. *)
Definition stays_gone (k : str) (w w' : World) : Prop :=
  dump (w_redis w) k = None -> dump (w_redis w') k = None.

#[export] Instance stays_gone_frame (k : str) : CoreFrame (stays_gone k).
Proof. constructor; unfold stays_gone; try done; naive_solver. Qed.

#[export] Instance stays_gone_rollback (k : str) : Rollback (stays_gone k).
Proof. by intros w w' ?. Qed.

Lemma keeps_gone_cmd {A} (k : str) (f : rstore -> Z -> rstore * A) :
  (forall s t, dump s k = None -> dump (f s t).1 k = None) -> keeps (stays_gone k) (redis_cmd f).
Proof.
  intros Hf. apply keeps_io. intros w. specialize (Hf (w_redis w) (w_wall w)).
  by destruct (f (w_redis w) (w_wall w)).
Qed.

Lemma del_all_gone (t : Z) (ks : list str) (s : rstore) (k : str) :
  dump s k = None -> dump (foldl (fun s k => r_del s t k) s ks) k = None.
Proof.
  revert s. induction ks as [|k' ks IH]; intros s Hs; cbn; [done|]. apply IH. rewrite dump_del.
  unfold upd. by case_decide.
Qed.

Lemma keeps_gone_ignoring (k : str) (cmd : rstore -> Z -> rstore) :
  (forall s t, dump s k = None -> dump (cmd s t) k = None) -> keeps (stays_gone k) (ignoring cmd).
Proof. intros Hc. unfold ignoring. frame_auto. by apply keeps_gone_cmd. Qed.

Lemma keeps_gone_del_each (k : str) (ks : list str) : keeps (stays_gone k) (del_each ks).
Proof.
  induction ks; cbn; frame_auto. apply keeps_gone_ignoring. intros s t. by apply (del_all_gone t [_]).
Qed.

Lemma keeps_gone_reset {E} (k : str) (ks : list str) : keeps (stays_gone k) (reset ks : M E unit).
Proof. unfold reset. frame_auto. apply keeps_gone_cmd. intros s t. apply del_all_gone. Qed.

Lemma keeps_gone_execute {A} (k : str) (f : Db -> Z -> result (Db * A) SqlError) :
  keeps (stays_gone k) (execute f).
Proof. apply keeps_execute. by intros w d a _ ?. Qed.

Lemma keeps_gone_issue (k : str) uid ip ua dn rm ty cid sc si :
  keeps (stays_gone k) (issue_tokens uid ip ua dn rm ty cid sc si).
Proof.
  unfold issue_tokens, clock_now, open_session, create, record_sign_in, internal,
    known_device_record, audit_append, user_record_sign_in, record_attempt.
  frame_auto; apply keeps_gone_execute.
Qed.

(** What a challenge's key holds. *)
Definition pending (w : World) (tok : str) : option PreAuthState :=
  match r_get (w_redis w) (w_wall w) (pre_auth_key tok) with
  | Some (RStr raw) => match parse_pre_auth_state raw with Ok st => Some st | Err _ => None end
  | _ => None
  end.

Lemma redis_conn_Ok (w w' : World) (x : unit) : redis_conn w = (w', Ok x) -> w' = bump_io w.
Proof. unfold redis_conn, io. intros R. destruct (io_plan _); by simplify_eq/=. Qed.

Lemma load_Ok (tok : str) (w w' : World) (st : PreAuthState) :
  load_pre_auth_state_from_redis (pre_auth_key tok) w = (w', Ok st) -> pending w tok = Some st.
Proof.
  unfold load_pre_auth_state_from_redis, pending. intros R. unbind R raw w1 R1. apply map_err_Ok in R1.
  unfold redis_cmd, io in R1. destruct (io_plan _); simplify_eq/=.
  unbind R raw' w2 R2. apply ok_or_Ok in R2 as [R2 ->]. apply lift_Ok in R as [R ->].
  destruct (r_get _ _ _) as [[]|]; simplify_eq. by rewrite R.
Qed.

Lemma take_Ok (uid : Uuid) (tok : str) (bs : list str) (w w' : World) (x : unit) :
  take_pre_auth (pre_auth_key tok) uid tok bs w = (w', Ok x) ->
  r_exists (w_redis w) (w_wall w) (pre_auth_key tok) = true /\ dump (w_redis w') (pre_auth_key tok) = None.
Proof.
  unfold take_pre_auth. intros R. unbind R y w1 R1. apply map_err_Ok, redis_conn_Ok in R1 as ->.
  unbind R removed w2 R2. apply map_err_Ok in R2. unfold redis_cmd, io in R2.
  destruct (io_plan _); simplify_eq/=. destruct (r_exists _ _ _) eqn:Ex; cbn in R; [|by apply fail_Ok in R].
  split; [done|]. unbind R z w3 R3. apply (keeps_run (stays_gone (pre_auth_key tok))) in R3;
    [|apply keeps_gone_del_each]. apply (keeps_run (stays_gone (pre_auth_key tok))) in R.
  - apply R, R3. cbn. by rewrite dump_del, upd_eq.
  - apply keeps_gone_ignoring. intros s t Hs. rewrite dump_srem, upd_ne; [done|by intros [=]].
Qed.

(** Without its entry no completion goes on, whatever the code. *)
Lemma load_gone (tok : str) (w : World) :
  dump (w_redis w) (pre_auth_key tok) = None ->
  (load_pre_auth_state_from_redis (pre_auth_key tok) w).2 = Err TokenInvalid \/
  (load_pre_auth_state_from_redis (pre_auth_key tok) w).2 = Err (ServiceUnavailable u"redis_unavailable").
Proof.
  intros Hd. unfold load_pre_auth_state_from_redis, mbind, M_bind, map_err, redis_cmd, io.
  destruct (io_plan _); [|by right..]. left. cbn. unfold r_get. by rewrite Hd.
Qed.
End Challenge.

(** * What a code spends *)

Section Spending.
Context `{RedisServer} `{Env} `{TimeCrate} `{CryptoCrates} `{SqlText} `{IpNetworkCrate} `{Jwt}.
Context `{MacCrate} `{AeadCrate} `{TotpCrate} `{HyperLogLog} `{Passwords} `{PreAuthSerde}.

(** ** TOTP *)

Definition used_after (uid : Uuid) (h : bytes) (now : Z) (l : list (Uuid * bytes * Z)) :
    bool * list (Uuid * bytes * Z) :=
  let kept := purge_used uid (now - seconds TOTP_REPLAY_WINDOW_SECS) l in
  if used_entry uid h kept then (false, kept) else (true, kept ++ [(uid, h, now)]).

Lemma try_consume_run (uid : Uuid) (h : bytes) (now : Z) (w w' : World) (r : result bool SqlError) :
  try_consume_totp_code uid h now w = (w', r) ->
  ((exists e, r = Err e) /\ w_db w' = w_db w) \/
  (t_used_totp (w_db w') = (used_after uid h now (t_used_totp (w_db w))).2 /\
   (r = Ok (used_after uid h now (t_used_totp (w_db w))).1 \/ exists e, r = Err e)).
Proof.
  unfold try_consume_totp_code. intros R.
  apply transaction_run in R as [[He Hdb]|(w2 & b & R & Hdb & _ & Hr)]; [by left|right].
  rewrite Hdb. unbind R x w1 R1. apply execute_Ok in R1 as [E1 _]. apply execute_Ok in R as [E2 _].
  injection E1 as E1. rewrite <- E1 in E2. cbn [t_used_totp set_used_totp w_db bump_io] in E2. unfold used_after. cbv zeta.
  destruct (used_entry _ _ _); injection E2 as <- <-; cbn; rewrite <- ?E1; (split; [done|]);
    destruct Hr as [->| ->]; eauto.
Qed.

Lemma keeps_try_consume uid h now : keeps same_accounts (try_consume_totp_code uid h now).
Proof.
  unfold try_consume_totp_code. frame_auto; apply keeps_accounts_execute; intros ? ? ? ?.
  - by intros [= <- _].
  - case_match; by intros [= <- _].
Qed.

Lemma keeps_consume_totp uid code : keeps same_accounts (consume_totp uid code).
Proof. unfold consume_totp, clock_now, internal. frame_auto. apply keeps_try_consume. Qed.

Lemma consume_totp_Ok (uid : Uuid) (code : str) (w w' : World) :
  consume_totp uid code w = (w', Ok true) ->
  let after := used_after uid (sha256 (as_bytes code)) (w_now w) (t_used_totp (w_db w)) in
  after.1 = true /\ t_used_totp (w_db w') = after.2.
Proof.
  unfold consume_totp. intros R. unbind R conn w1 R1.
  assert (same_db w w1) as S1 by (eapply keeps_run, R1; frame_auto).
  unbind R cached w2 R2.
  assert (same_db w w2) as S2 by (eapply frame_trans; [done|eapply keeps_run, R2; frame_auto]).
  unbind R now w3 R3. unfold clock_now in R3. read_run R3.
  unbind R consumed w4 R4. unbind R x w5 R5. apply ret_Ok in R as [<- ->].
  assert (same_db w4 w5) as [Hdb _] by (eapply keeps_run, R5; frame_auto).
  destruct cached; [by apply ret_Ok in R4 as [[=] _]|].
  unfold internal in R4. apply map_err_Ok, try_consume_run in R4 as [[[e [=]] _]|[Hu Hr]].
  destruct S2 as [Hdb2 [Hn _]]. rewrite Hdb2, Hn in *. cbn zeta. rewrite Hdb, Hu.
  destruct Hr as [[= Hr]|[e [=]]]. by split.
Qed.

(** ** Mailed codes *)

Lemma latest_spec (p : Email2faCode -> bool) (codes : list Email2faCode) (c : Email2faCode) :
  latest p codes = Some c -> c ∈ codes /\ p c = true.
Proof.
  unfold latest. revert c. induction codes as [|x codes IH] using rev_ind; intros c; [done|].
  rewrite foldl_app. cbn. destruct (foldl _ None codes) as [b|] eqn:Eb.
  - destruct (IH b eq_refl) as [Hb Hpb]. destruct (p x) eqn:Ep; [|intros [= <-]; set_solver].
    case_match; intros [= <-]; set_solver.
  - destruct (p x) eqn:Ep; [|done]. intros [= <-]. set_solver.
Qed.

Definition unused_codes (d : Db) (uid : Uuid) : Prop :=
  exists c, c ∈ t_email_codes d /\ ec_user_id c = uid /\ ec_used_at c = None.

Lemma find_unique {A} (f : A -> Uuid) (p : A -> bool) (l : list A) (x y : A) :
  NoDup (map f l) -> x ∈ l -> List.find p l = Some y -> f y = f x -> y = x.
Proof.
  intros Hn Hx Hy Hf. apply find_some in Hy as [Hy _]. apply list_elem_of_In in Hy.
  induction l as [|a l IH]; [by apply elem_of_nil in Hx|]. cbn in Hn. apply NoDup_cons in Hn as [Ha Hn].
  assert (forall z, z ∈ l -> f z ∈ map f l) as Hin by (intros z Hz; by apply list_elem_of_In, in_map, list_elem_of_In).
  apply elem_of_cons in Hx as [->|Hx], Hy as [->|Hy]; [done| | |by apply IH].
  - destruct Ha. rewrite <- Hf. by apply Hin.
  - destruct Ha. rewrite Hf. by apply Hin.
Qed.

Lemma try_transaction_Ok {A E} (e : E) (body : M E (option A)) (w w' : World) (a : A) :
  try_transaction e body w = (w', Ok (Some a)) ->
  exists w2, body (bump_io w) = (w2, Ok (Some a)) /\ w_db w' = w_db w2.
Proof.
  unfold try_transaction, io. destruct (io_plan _); [|done..].
  destruct (body (bump_io w)) as [w2 [[a'|]|e']]; [|done..]. destruct (io_plan _); [|done..].
  intros [= <- <-]. eauto.
Qed.

(** The code that worked ends every live one of its account. *)
Lemma email_code_consume_Ok (c : Email2faCode) (w w' : World) :
  NoDup (map ec_id (t_email_codes (w_db w))) -> c ∈ t_email_codes (w_db w) ->
  email_code_consume (ec_id c) w = (w', Ok true) ->
  forall c', c' ∈ t_email_codes (w_db w') -> ec_user_id c' = ec_user_id c -> is_Some (ec_used_at c').
Proof.
  intros Hnd Hc R. unfold email_code_consume in R. unbind R committed w1 R1. apply ret_Ok in R as [Hd ->].
  symmetry in Hd. apply bool_decide_eq_true in Hd as [[] ->].
  apply try_transaction_Ok in R1 as (w2 & R & ->).
  unbind R o w3 R3. apply execute_Ok in R3 as [E3 _]. injection E3 as _ E3. cbn [w_db bump_io] in E3.
  destruct o as [uid|]; [|by apply ret_Ok in R as [[=] _]].
  unbind R x w4 R4. apply execute_Ok in R4 as [E4 _]. injection E4 as E4. apply ret_Ok in R as [_ ->].
  apply fmap_Some in E3 as (y & Hy & ->). pose proof Hy as Hp. apply find_some in Hp as [_ Hp]. breflect.
  destruct Hp as [Hid _]. apply bool_decide_eq_true in Hid.
  rewrite (find_unique ec_id _ _ c y Hnd Hc Hy Hid) in E4.
  intros c' Hc' Hu. rewrite <- E4 in Hc'. cbn [t_email_codes set_email_codes] in Hc'.
  unfold use_codes in Hc'. apply list_elem_of_In, in_map_iff in Hc' as (c0 & <- & _).
  destruct (bool_decide (ec_user_id c0 = _) && _) eqn:Ep; [by eexists|].
  rewrite bool_decide_true in Ep by done. cbn in Ep. apply bool_decide_eq_false in Ep.
  destruct (ec_used_at c0); [by eexists|done].
Qed.

Lemma keeps_email_consume id : keeps same_accounts (email_code_consume id).
Proof.
  unfold email_code_consume. frame_auto; apply keeps_accounts_execute; by intros ? ? ? ? [= <- _].
Qed.

(** ** Recovery codes *)

Lemma recovery_consume_Ok (id : Uuid) (w w' : World) :
  recovery_consume id w = (w', Ok true) ->
  forall r t, r ∈ t_recovery_codes (w_db w') -> rc_id r = id -> w_wall w <= t -> recovery_usable t r = false.
Proof.
  unfold recovery_consume. intros R r t Hr Hid Ht. apply execute_Ok in R as [E _]. injection E as E _.
  rewrite <- E in Hr. cbn [t_recovery_codes set_recovery_codes] in Hr.
  apply list_elem_of_In, in_map_iff in Hr as (r0 & <- & _).
  destruct (bool_decide (rc_id r0 = id) && _) eqn:Ep; [done|].
  rewrite bool_decide_true in Ep by done. cbn in Ep. unfold recovery_usable in *.
  destruct (bool_decide (rc_used_at r0 = None)); [|done]. cbn in Ep |- *.
  destruct (rc_expires_at r0); [|done]. apply Z.ltb_ge in Ep. apply Z.ltb_ge. lia.
Qed.

Lemma keeps_recovery_consume uid code : keeps same_accounts (consume_recovery_code uid code).
Proof.
  unfold consume_recovery_code, internal, recovery_find_by_hash, recovery_consume. frame_auto.
  apply keeps_accounts_execute. by intros ? ? ? ? [= <- _].
Qed.

Lemma keeps_verify_login_code uid tok code ip : keeps same_accounts (verify_login_code uid tok code ip).
Proof.
  unfold verify_login_code, verify_otp, internal, find_active_by_user_and_hash. frame_auto.
  apply keeps_email_consume.
Qed.
End Spending.

#[export] Hint Resolve keeps_consume_totp keeps_recovery_consume keeps_verify_login_code : frame.

(** * Completions *)

Section Completions.
Context `{RedisServer} `{Env} `{TimeCrate} `{CryptoCrates} `{SqlText} `{IpNetworkCrate} `{Jwt}.
Context `{MacCrate} `{AeadCrate} `{TotpCrate} `{HyperLogLog} `{Passwords} `{PreAuthSerde}.

(** The three ways to complete a sign-in. *)
Inductive Factor := ByTotp | ByEmail | ByRecovery.

Definition complete (f : Factor) (tok code : str) (ip : option IpNetwork) (ua dn : option str)
    (rid : option Uuid) : M AppError AuthTokens :=
  match f with
  | ByTotp => complete_two_factor_login tok code ip ua dn rid
  | ByEmail => complete_email_2fa_login tok code ip ua dn rid
  | ByRecovery => complete_login_with_recovery tok code ip ua rid
  end.

(** The challenges each one completes. *)
Definition completes (f : Factor) (st : PreAuthState) : Prop :=
  match f with
  | ByTotp => pa_method st = Some Login.Totp
  | ByEmail => pa_method st = Some Login.Email
  | ByRecovery => is_Some (pa_method st)
  end.

(** The proof it takes, and what becomes of it. *)
Definition spends (f : Factor) (w w' : World) (uid : Uuid) (tok code : str) : Prop :=
  let d := w_db w in
  match f with
  | ByTotp =>
      (exists m secret, primary_of d uid = Some m /\ tf_method_type m = TwoFactor.Totp /\
         tf_totp_secret m = Some secret /\
         verify_code secret uid code keyring (cfg_totp_skew config) (unix_timestamp (w_now w)) = Ok true) /\
      let after := used_after uid (sha256 (as_bytes code)) (w_now w) (t_used_totp d) in
      after.1 = true /\ t_used_totp (w_db w') = after.2
  | ByEmail =>
      (exists c, c ∈ t_email_codes d /\ ec_user_id c = uid /\ code_live (w_wall w) c = true /\
         ec_code_hash c ∈ otp_digests keyring OTP_PURPOSE (code_subject uid (Some tok)) code) /\
      forall c', c' ∈ t_email_codes (w_db w') -> ec_user_id c' = uid -> is_Some (ec_used_at c')
  | ByRecovery =>
      exists r, r ∈ t_recovery_codes d /\ rc_user_id r = uid /\ recovery_usable (w_wall w) r = true /\
        rc_code_hash r = sha256 (as_bytes code) /\
        forall r' t, r' ∈ t_recovery_codes (w_db w') -> rc_id r' = rc_id r -> w_wall w <= t ->
          recovery_usable t r' = false
  end.

(** Tables of codes as they were. *)
Definition same_codes (w w' : World) : Prop :=
  t_used_totp (w_db w') = t_used_totp (w_db w) /\ t_email_codes (w_db w') = t_email_codes (w_db w) /\
  t_recovery_codes (w_db w') = t_recovery_codes (w_db w).

#[export] Instance same_codes_frame : Frame same_codes.
Proof. constructor; [constructor| |]; unfold SleepFrame, RedisFrame, same_codes; try done; naive_solver congruence. Qed.

#[export] Instance same_codes_rollback : Rollback same_codes.
Proof. by intros w w' _. Qed.

Lemma keeps_codes_issue uid ip ua dn rm ty cid sc si :
  keeps same_codes (issue_tokens uid ip ua dn rm ty cid sc si).
Proof.
  unfold issue_tokens, clock_now, open_session, create, record_sign_in, internal,
    known_device_record, audit_append, user_record_sign_in, record_attempt.
  frame_auto; apply keeps_execute; intros ? ? ?; try (by intros [= <- _]).
  unfold insert_row. intros E. repeat case_match; by simplify_eq.
Qed.

(** ** Steps the completions share *)

Lemma opened_challenge_Ok {B} (tok : str) (k : PreAuthState -> M AppError B) (w w' : World) (b : B) :
  (map_err redis_unavailable redis_conn ≫= fun _ =>
   load_pre_auth_state_from_redis (pre_auth_key tok) ≫= k) w = (w', Ok b) ->
  exists st w2, pending w tok = Some st /\ same_db w w2 /\ k st w2 = (w', Ok b).
Proof.
  intros R. unbind R x w1 R1. apply map_err_Ok, redis_conn_Ok in R1 as ->.
  unbind R st w2 R2. exists st, w2. split; [by apply load_Ok in R2|]. split; [|done].
  eapply frame_trans; [apply frame_io|]. eapply keeps_run, R2. frame_auto.
Qed.

Lemma find_usable_Ok (uid : Uuid) (w w' : World) (v : User) :
  users_keyed (w_db w) -> find_usable_user uid w = (w', Ok v) ->
  u_id v = uid /\ ur_user <$> t_users (w_db w) !! uid = Some v /\ u_status v = ActiveUser /\ same_db w w'.
Proof.
  intros Hk. unfold find_usable_user. intros R. unbind R found w1 R1.
  unfold internal, user_find_by_id in R1. apply map_err_Ok, query_Ok in R1 as [-> S1].
  unbind R v' w2 R2. apply ok_or_Ok in R2 as [R2 ->]. unbind R x w3 R3. apply lift_Ok in R3 as [R3 ->].
  apply ret_Ok in R as [-> ->]. split_and!; [|done| |done].
  - apply fmap_Some in R2 as (r & Hr & ->). by apply Hk.
  - unfold ensure_account_usable, ensure_status_allows_sign_in in R3. by destruct (u_status v').
Qed.

(** What the end of every completion leaves. *)
Definition finished (w w' : World) (uid : Uuid) (tok : str) (tokens : AuthTokens) : Prop :=
  one_more_session (w_db w) (w_db w') uid true tokens /\
  dump (w_redis w') (pre_auth_key tok) = None /\ same_codes w w'.

Lemma finish_Ok (mid : M AppError unit) uid tok bs ip ua dn rm rid how (w w' : World) (tokens : AuthTokens) :
  keeps same_db mid -> keeps (stays_gone (pre_auth_key tok)) mid ->
  (take_pre_auth (pre_auth_key tok) uid tok bs ≫= fun _ => mid ≫= fun _ =>
   issue_tokens uid ip ua dn rm Web None None (Some (second_factor_sign_in rid how))) w = (w', Ok tokens) ->
  finished w w' uid tok tokens.
Proof.
  intros Hm Hg R. unbind R x w1 R1. pose proof R1 as T1. apply take_Ok in T1 as [_ D1].
  apply (keeps_run same_db) in R1 as [Hdb1 _]; [|frame_auto].
  unbind R y w2 R2. pose proof R2 as G2. apply (keeps_run _ _ _ _ _ Hm) in R2 as [Hdb2 _].
  apply (keeps_run _ _ _ _ _ Hg) in G2. split_and!.
  - apply issue_tokens_session in R. rewrite <- Hdb1, <- Hdb2. exact R.
  - apply (keeps_run (stays_gone (pre_auth_key tok))) in R; [|apply keeps_gone_issue]. by apply R, G2.
  - apply (keeps_run same_codes) in R; [|apply keeps_codes_issue]. unfold same_codes in *.
    by rewrite Hdb2, Hdb1 in R.
Qed.

Lemma finish_now uid tok bs ip ua dn rm rid how (w w' : World) (tokens : AuthTokens) :
  (take_pre_auth (pre_auth_key tok) uid tok bs ≫= fun _ =>
   issue_tokens uid ip ua dn rm Web None None (Some (second_factor_sign_in rid how))) w = (w', Ok tokens) ->
  finished w w' uid tok tokens.
Proof.
  intros R. apply (finish_Ok (mret tt) _ _ bs ip ua dn rm rid how); [frame_auto..|].
  unfold mbind, M_bind, mret, M_ret in *. exact R.
Qed.

(** A completed sign-in. *)
Definition completed (f : Factor) (w w' : World) (tok code : str) (tokens : AuthTokens) : Prop :=
  exists st v, pending w tok = Some st /\ completes f st /\
    ur_user <$> t_users (w_db w) !! pa_user_id st = Some v /\ u_status v = ActiveUser /\
    spends f w w' (pa_user_id st) tok code /\
    one_more_session (w_db w) (w_db w') (pa_user_id st) true tokens /\
    dump (w_redis w') (pre_auth_key tok) = None.

(** The session is one more than before the code was spent, too. *)
Lemma more_session_since (d0 d d' : Db) uid mfa tokens :
  t_sessions d = t_sessions d0 -> one_more_session d d' uid mfa tokens ->
  one_more_session d0 d' uid mfa tokens.
Proof. unfold one_more_session. by intros ->. Qed.

Lemma complete_totp_Ok tok code ip ua dn rid (w w' : World) (tokens : AuthTokens) :
  users_keyed (w_db w) -> complete_two_factor_login tok code ip ua dn rid w = (w', Ok tokens) ->
  completed ByTotp w w' tok code tokens.
Proof.
  intros Hk R. apply opened_challenge_Ok in R as (st & w1 & Hst & S1 & R).
  unbind R x2 w2 R2. apply lift_Ok in R2 as [Hm ->].
  assert (pa_method st = Some Login.Totp) as Hm' by
    (unfold expect_method in Hm; by case_bool_decide).
  unbind R attempted w3 R3.
  assert (same_db w w3) as S3 by (eapply frame_trans; [done|eapply keeps_run, R3; frame_auto]).
  unbind R v w4 R4. apply find_usable_Ok in R4 as (Hid & Hv & Ha & S4); [|by rewrite (proj1 S3)].
  unbind R primary w5 R5. unfold internal, find_primary_by_user in R5. apply map_err_Ok, query_Ok in R5 as [-> S5].
  assert (same_db w w5) as [Hdb [Hn _]] by (do 2 (eapply frame_trans; [done|]); done).
  unbind R m w6 R6. apply ok_or_Ok in R6 as [Hmeth ->].
  unbind R secret w7 R7. apply ok_or_Ok in R7 as [Hsec ->].
  unbind R now w8 R8. unfold clock_now in R8. read_run R8.
  unbind R valid w9 R9. apply lift_Ok in R9 as [Hver ->].
  unbind R consumed w10 R10. destruct consumed; [|dead_end R]. cbn [negb] in R.
  destruct valid; [|by apply ret_Ok in R10 as [[=] _]].
  pose proof R10 as U10. apply consume_totp_Ok in U10.
  apply (keeps_run same_accounts) in R10 as (Hs10 & _); [|frame_auto].
  unbind R x11 w11 R11. apply (keeps_run same_db) in R11 as [Hdb11 _]; [|frame_auto].
  rewrite Hid in *. apply finish_now in R as (Hone & Hgone & Hc & _).
  exists st, v. rewrite Hdb11 in *. split_and!; try done.
  - by rewrite (proj1 S3) in Hv.
  - rewrite (proj1 (frame_trans _ _ _ S3 S4)) in Hmeth.
    unfold totp_method in Hmeth. apply bind_Some in Hmeth as (m' & Hp & Ht).
    case_bool_decide as Hty; [|done]. injection Ht as ->. split.
    + exists m, secret. rewrite Hn in Hver. destruct (verify_code _ _ _ _ _ _) as [b|]; [|done].
      by injection Hver as ->.
    + rewrite Hdb, Hn in U10. cbn zeta in *. by rewrite Hc.
  - eapply more_session_since, Hone. by rewrite Hs10, Hdb.
Qed.

Lemma verify_login_code_Ok uid tok code ip (w w' : World) (x : unit) :
  NoDup (map ec_id (t_email_codes (w_db w))) ->
  verify_login_code uid tok code ip w = (w', Ok x) -> spends ByEmail w w' uid tok code.
Proof.
  intros Hnd. unfold verify_login_code, verify_otp. intros R. unbind R attempted w1 R1.
  apply (keeps_run same_db) in R1 as [Hdb1 [_ Hw1]]; [|frame_auto].
  unbind R record w2 R2. unfold internal, find_active_by_user_and_hash in R2.
  apply map_err_Ok, query_Ok in R2 as [-> [Hdb2 _]].
  unbind R consumed w3 R3. destruct consumed; [|dead_end R]. cbn [negb] in R.
  apply (keeps_run same_db) in R as [Hdb _]; [|frame_auto].
  destruct (latest _ _) as [c|] eqn:El; [|by apply ret_Ok in R3 as [[=] _]].
  apply latest_spec in El as [Hc Hp]. rewrite Hdb1, Hw1 in *.
  apply andb_true_iff in Hp as [[Hu Hh]%andb_true_iff Hlive].
  apply bool_decide_eq_true in Hu, Hh. apply map_err_Ok in R3.
  split; [by exists c|]. rewrite Hdb. intros c' Hc' Hu'.
  apply (email_code_consume_Ok c w2 w3); try done; rewrite ?Hdb2; try done. congruence.
Qed.

Lemma complete_email_Ok tok code ip ua dn rid (w w' : World) (tokens : AuthTokens) :
  users_keyed (w_db w) -> NoDup (map ec_id (t_email_codes (w_db w))) ->
  complete_email_2fa_login tok code ip ua dn rid w = (w', Ok tokens) ->
  completed ByEmail w w' tok code tokens.
Proof.
  intros Hk Hnd R. apply opened_challenge_Ok in R as (st & w1 & Hst & S1 & R).
  unbind R x2 w2 R2. apply lift_Ok in R2 as [Hm ->].
  assert (pa_method st = Some Login.Email) as Hm' by (unfold expect_method in Hm; by case_bool_decide).
  unbind R v w3 R3. apply find_usable_Ok in R3 as (Hid & Hv & Ha & S3); [|by rewrite (proj1 S1)].
  assert (same_db w w3) as [Hdb [_ Hw]] by (by eapply frame_trans).
  unbind R verified w4 R4. apply attempt_run in R4 as (r & R4 & [= <-]).
  destruct verified as [y|e]; [|dead_end R].
  pose proof R4 as V4. apply verify_login_code_Ok in V4; [|by rewrite Hdb].
  apply (keeps_run same_accounts) in R4 as (Hs4 & _); [|frame_auto].
  rewrite Hid in R. apply finish_now in R as (Hone & Hgone & _ & Hc & _).
  exists st, v. split_and!; try done.
  - by rewrite (proj1 S1) in Hv.
  - unfold spends in *. cbn zeta in *. by rewrite Hc, <- Hdb, <- Hw.
  - eapply more_session_since, Hone. by rewrite Hs4, Hdb.
Qed.

Lemma consume_recovery_Ok uid code (tok : str) (w w' : World) :
  consume_recovery_code uid code w = (w', Ok true) -> spends ByRecovery w w' uid tok code.
Proof.
  unfold consume_recovery_code. intros R. unbind R found w1 R1.
  unfold internal, recovery_find_by_hash in R1. apply map_err_Ok, query_Ok in R1 as [-> [Hdb [_ Hw]]].
  destruct (List.find _ _) as [r|] eqn:Ef; cbn in R; [|by apply ret_Ok in R as [[=] _]].
  case_bool_decide as Hu; [|by apply ret_Ok in R as [[=] _]].
  apply find_some in Ef as [Hr Hp]. apply list_elem_of_In in Hr.
  apply andb_true_iff in Hp as [Hh Hus]. apply bool_decide_eq_true in Hh.
  apply map_err_Ok in R. exists r. split_and!; try done. intros r' t Hr' Hid Ht.
  apply (recovery_consume_Ok (rc_id r) w1 w'); try done. by rewrite Hw.
Qed.

Lemma complete_recovery_Ok tok code ip ua rid (w w' : World) (tokens : AuthTokens) :
  users_keyed (w_db w) -> complete_login_with_recovery tok code ip ua rid w = (w', Ok tokens) ->
  completed ByRecovery w w' tok code tokens.
Proof.
  intros Hk R. apply opened_challenge_Ok in R as (st & w1 & Hst & S1 & R).
  case_bool_decide as Hm; [by apply fail_Ok in R|].
  unbind R attempted w3 R3.
  assert (same_db w w3) as S3 by (eapply frame_trans; [done|eapply keeps_run, R3; frame_auto]).
  unbind R v w4 R4. apply find_usable_Ok in R4 as (Hid & Hv & Ha & S4); [|by rewrite (proj1 S3)].
  assert (same_db w w4) as [Hdb [_ Hw]] by (by eapply frame_trans).
  unbind R consumed w5 R5. destruct consumed; [|dead_end R]. cbn [negb] in R.
  pose proof R5 as V5. apply (consume_recovery_Ok _ _ tok) in V5.
  apply (keeps_run same_accounts) in R5 as (Hs5 & _); [|frame_auto].
  set (ks := map fst _) in R.
  assert (exists w6, (take_pre_auth (pre_auth_key tok) (pa_user_id st) tok
      [RC_FAIL_PREFIX ++ challenge_id tok] ≫= fun _ => reset ks ≫= fun _ =>
      issue_tokens (u_id v) ip ua None (pa_remember_me st) Web None None
        (Some (second_factor_sign_in rid (JStr u"recovery_code")))) w5 = (w6, Ok tokens) /\
      w_db w' = w_db w6 /\ w_redis w' = w_redis w6) as (w6 & R6 & Hdb6 & Hr6).
  { unbind R x6 w6 R6. unbind R x7 w7 R7. unbind R tokens' w8 R8. unbind R x9 w9 R9.
    apply ret_Ok in R as [-> ->]. injection R9 as <-. exists w8.
    by rewrite (bind_step _ _ _ _ _ R6), (bind_step _ _ _ _ _ R7). }
  rewrite Hid in R6.
  apply finish_Ok in R6 as (Hone & Hgone & _ & _ & Hc); [|frame_auto|apply keeps_gone_reset].
  exists st, v. rewrite Hdb6, Hr6. split_and!; try done.
  - unfold completes. destruct (pa_method st); [by eexists|done].
  - by rewrite (proj1 S3) in Hv.
  - unfold spends in *. cbn zeta in *. by rewrite Hdb6, Hc, <- Hdb, <- Hw.
  - eapply more_session_since, Hone. by rewrite Hs5, Hdb.
Qed.

(** C4: a completed second factor proves that the challenge was pending for an
    active account and for this way of completing it, and that the code was
    good: a current code of the account's primary authenticator not used within
    the replay window, a live mailed code bound to this very challenge, or a
    usable recovery code of the account.  The code is spent (the TOTP code
    recorded, every mailed code of the account ended, the recovery code unusable
    from now on), the challenge is gone, and one session is opened, marked as
    second-factor proven. *)
Theorem second_factor_sound (f : Factor) tok code ip ua dn rid (w w' : World) (tokens : AuthTokens) :
  users_keyed (w_db w) -> NoDup (map ec_id (t_email_codes (w_db w))) ->
  complete f tok code ip ua dn rid w = (w', Ok tokens) -> completed f w w' tok code tokens.
Proof.
  intros Hk Hnd. destruct f; cbn [complete].
  - by apply complete_totp_Ok.
  - by apply complete_email_Ok.
  - by apply complete_recovery_Ok.
Qed.

(** A challenge completes at most once.  Once one completion removed it, no
    other, by any factor and with any code, succeeds or touches the tables, as
    long as no sign-in stores it again; of completions running at once only one
    removes it. *)
Theorem challenge_taken_once (tok : str) (uid : Uuid) (bs : list str) (w w1 w2 : World) :
  take_pre_auth (pre_auth_key tok) uid tok bs w = (w1, Ok tt) ->
  stays_gone (pre_auth_key tok) w1 w2 ->
  (forall uid' bs' x, (take_pre_auth (pre_auth_key tok) uid' tok bs' w2).2 <> Ok x) /\
  forall f code ip ua dn rid,
    let run := complete f tok code ip ua dn rid w2 in
    (run.2 = Err TokenInvalid \/ run.2 = Err (ServiceUnavailable u"redis_unavailable")) /\
    w_db run.1 = w_db w2.
Proof.
  intros [_ Hg]%take_Ok Hw2. specialize (Hw2 Hg). split.
  - intros uid' bs' x Hx. apply run_answer, take_Ok in Hx as [Hex _]. unfold r_exists in Hex.
    by rewrite Hw2 in Hex.
  - intros f code ip ua dn rid. cbn zeta.
    assert (forall B (k : PreAuthState -> M AppError B),
      let run := (map_err redis_unavailable redis_conn ≫= fun _ =>
                  load_pre_auth_state_from_redis (pre_auth_key tok) ≫= k) w2 in
      (run.2 = Err TokenInvalid \/ run.2 = Err (ServiceUnavailable u"redis_unavailable")) /\
      w_db run.1 = w_db w2) as Hk.
    { intros B k. cbn zeta.
      destruct (redis_conn w2) as [w3 [[]|e]] eqn:E3.
      - rewrite (bind_step _ _ w2 w3 tt) by (by apply map_err_Ok). apply redis_conn_Ok in E3 as ->.
        pose proof (load_gone tok (bump_io w2) Hw2) as Hl.
        pose proof (keeps_load same_db (pre_auth_key tok) (bump_io w2)) as [Hdb _].
        destruct (load_pre_auth_state_from_redis _ _) as [w4 r4] eqn:E4. cbn [fst snd] in *.
        destruct Hl as [->| ->]; rewrite (bind_fail _ _ _ _ _ E4); auto.
      - rewrite (bind_fail _ _ w2 w3 (redis_unavailable e)) by (unfold map_err; by rewrite E3).
        split; [by right|]. by apply (keeps_run same_db) in E3 as [? _]; [|frame_auto]. }
    destruct f; apply Hk.
Qed.
End Completions.

(** * A TOTP code is accepted once *)

Section Replay.
Context `{RedisServer} `{Env} `{TimeCrate} `{CryptoCrates} `{SqlText} `{IpNetworkCrate} `{Jwt}.
Context `{MacCrate} `{AeadCrate} `{TotpCrate} `{HyperLogLog} `{Passwords} `{PreAuthSerde}.

(** The code of [step] is accepted at [now]. *)
Definition accepted_at (skew now step : Z) : Prop :=
  unix_timestamp now / 30 - skew <= step <= unix_timestamp now / 30 + skew.

Lemma verify_code_true (enc : str) (uid : Uuid) (code : str) (kr : Keyring) (skew now : Z) :
  0 <= skew -> verify_code enc uid code kr skew (unix_timestamp now) = Ok true ->
  exists secret step, decrypt kr enc (uuid_as_bytes uid) = Ok secret /\ accepted_at skew now step /\
    step_code secret step = code /\ bytes_all is_ascii_digit code = true /\ byte_len code = 6.
Proof.
  intros Hs. unfold verify_code. destruct (_ <? 0); [done|]. destruct (_ <? _ * 30) eqn:Et; [done|].
  destruct (negb (byte_len code =? 6) || _) eqn:Ec; [done|].
  destruct (decrypt _ _ _) as [secret|]; [|done]. destruct (secret_builds secret); [|done]. intros [= Hc].
  apply Z.ltb_ge in Et. apply orb_false_iff in Ec as [E1%negb_false_iff%Z.eqb_eq E2%negb_false_iff].
  apply totp_check_spec in Hc as (step & ? & ?); [|lia..]. by exists secret, step.
Qed.

(** Other consumptions in between, of any account, answered or not. *)
Definition consume_others (ops : list (Uuid * bytes * Z)) (w : World) : World :=
  foldl (fun w op => (try_consume_totp_code op.1.1 op.1.2 op.2 w).1) w ops.

Lemma used_survives (uid uid' : Uuid) (h h' : bytes) (t now : Z) (l : list (Uuid * bytes * Z)) :
  (uid, h, t) ∈ l -> now <= t + seconds TOTP_REPLAY_WINDOW_SECS ->
  (uid, h, t) ∈ (used_after uid' h' now l).2.
Proof.
  intros Hin Ht. unfold used_after. cbv zeta.
  assert ((uid, h, t) ∈ purge_used uid' (now - seconds TOTP_REPLAY_WINDOW_SECS) l) as Hp.
  { unfold purge_used. apply elem_of_lfilter. split; [done|]. cbn.
    destruct (t <? _) eqn:E; [breflect; lia|]. by rewrite andb_false_r. }
  destruct (used_entry _ _ _); [done|]. apply elem_of_app. by left.
Qed.

Lemma used_refused (uid : Uuid) (h : bytes) (t now : Z) (l : list (Uuid * bytes * Z)) :
  (uid, h, t) ∈ l -> now <= t + seconds TOTP_REPLAY_WINDOW_SECS -> (used_after uid h now l).1 = false.
Proof.
  intros Hin Ht. unfold used_after. cbv zeta.
  assert (used_entry uid h (purge_used uid (now - seconds TOTP_REPLAY_WINDOW_SECS) l) = true) as ->; [|done].
  unfold used_entry, purge_used. apply existsb_exists. exists (uid, h, t). split; [|by apply bool_decide_eq_true].
  apply list_elem_of_In, elem_of_lfilter. split; [done|]. cbn.
  destruct (t <? _) eqn:E; [breflect; lia|]. by rewrite andb_false_r.
Qed.

Lemma consume_others_keep (uid : Uuid) (h : bytes) (t : Z) (ops : list (Uuid * bytes * Z)) (w : World) :
  Forall (fun op => op.2 <= t + seconds TOTP_REPLAY_WINDOW_SECS) ops ->
  (uid, h, t) ∈ t_used_totp (w_db w) -> (uid, h, t) ∈ t_used_totp (w_db (consume_others ops w)).
Proof.
  intros HF. revert w. induction HF as [|[[uid' h'] now] ops Hop _ IH]; intros w Hin; [done|].
  cbn. apply IH. destruct (try_consume_totp_code uid' h' now w) as [w' r] eqn:E. cbn.
  apply try_consume_run in E as [[_ ->]|[-> _]]; [done|]. by apply used_survives.
Qed.

Lemma window_covers_step (skew now now' step : Z) :
  skew <= MAX_TOTP_SKEW -> accepted_at skew now step -> accepted_at skew now' step ->
  now' <= now + seconds TOTP_REPLAY_WINDOW_SECS.
Proof.
  unfold accepted_at, TOTP_REPLAY_WINDOW_SECS, seconds, MAX_TOTP_SKEW. rewrite !unix_timestamp_spec.
  change NS with 1000000000. intros. Z.to_euclidean_division_equations. lia.
Qed.

(** C37: once the code of a time step was consumed, no later consumption of it
    succeeds for as long as that step is accepted, whatever other codes were
    consumed in between and whatever failed: the replay window outlasts the
    largest skew the configuration allows. *)
Theorem totp_code_accepted_once (uid : Uuid) (h : bytes) (skew now now' step : Z) (w w1 : World)
    (ops : list (Uuid * bytes * Z)) :
  skew <= MAX_TOTP_SKEW -> accepted_at skew now step -> accepted_at skew now' step ->
  try_consume_totp_code uid h now w = (w1, Ok true) ->
  Forall (fun op => op.2 <= now') ops ->
  (try_consume_totp_code uid h now' (consume_others ops w1)).2 <> Ok true.
Proof.
  intros Hs Ha Ha' R HF Hbad. pose proof (window_covers_step _ _ _ _ Hs Ha Ha') as Hw.
  apply try_consume_run in R as [[[e [=]] _]|[Hu Hr]].
  destruct Hr as [[= Hr]|[e [=]]].
  assert ((uid, h, now) ∈ t_used_totp (w_db w1)) as Hin.
  { rewrite Hu. unfold used_after in *. cbv zeta in *. destruct (used_entry _ _ _); [done|].
    apply elem_of_app. right. by apply list_elem_of_singleton. }
  apply (consume_others_keep _ _ _ ops) in Hin; [|by eapply Forall_impl; [exact HF|intros; cbn in *; lia]].
  apply run_answer, try_consume_run in Hbad as [[[e [=]] _]|[_ [[= Hb]|[e [=]]]]].
  rewrite (used_refused _ _ now) in Hb; done.
Qed.
End Replay.

(** * Witnesses *)

Section Witnesses.
Import Run.
#[local] Existing Instance calm.

Definition a_recovery_code : RecoveryCode :=
  {| rc_id := 90%N; rc_user_id := 7%N; rc_created_at := 0; rc_expires_at := None; rc_used_at := None;
     rc_code_position := 1; rc_code_hash := sha256 (as_bytes u"ABCD") |}.

(** A challenge is open, and the account has a recovery code. *)
Definition challenged : World :=
  with_db (set_recovery_codes (fun _ => [a_recovery_code])) (open_challenge 7%N true Login.Totp world).1.

Lemma challenged_keyed : users_keyed (w_db challenged).
Proof.
  intros i r Hr. change (t_users (w_db challenged)) with
    ({[ 7%N := {| ur_user := user; ur_lockout_cleared_at := None |} ]} : gmap Uuid UserRow) in Hr.
  by apply lookup_singleton_Some in Hr as [<- <-].
Qed.

Lemma second_factor_sound_witness :
  let run := complete ByRecovery (draw_token 0) u"ABCD" None None None None challenged in
  exists tokens, run.2 = Ok tokens /\ completed ByRecovery challenged run.1 (draw_token 0) u"ABCD" tokens.
Proof.
  intros run. destruct run.2 as [tokens|e] eqn:E; [|exfalso; revert E; vm_compute; discriminate].
  exists tokens. split; [reflexivity|].
  apply (second_factor_sound ByRecovery (draw_token 0) u"ABCD" None None None None challenged run.1 tokens).
  - apply challenged_keyed.
  - apply NoDup_nil. exact I.
  - apply run_answer. exact E.
Defined.

Lemma challenge_taken_once_witness :
  let w1 := (take_pre_auth (pre_auth_key (draw_token 0)) 7%N (draw_token 0) [] challenged).1 in
  (complete ByRecovery (draw_token 0) u"ABCD" None None None None w1).2 = Err TokenInvalid \/
  (complete ByRecovery (draw_token 0) u"ABCD" None None None None w1).2 =
    Err (ServiceUnavailable u"redis_unavailable").
Proof.
  intros w1. refine (proj1 (proj2 (challenge_taken_once (draw_token 0) 7%N [] challenged w1 w1 _ (fun Hd => Hd))
    ByRecovery u"ABCD" None None None None)).
  refine (run_answer (take_pre_auth (pre_auth_key (draw_token 0)) 7%N (draw_token 0) []) challenged (Ok tt) _).
  vm_compute. reflexivity.
Defined.

Lemma totp_code_accepted_once_witness :
  let w1 := (try_consume_totp_code 7%N [1] (60 * NS) world).1 in
  (try_consume_totp_code 7%N [1] (65 * NS) (consume_others [(7%N, [2], 64 * NS)] w1)).2 <> Ok true.
Proof.
  intros w1. apply (totp_code_accepted_once 7%N [1] 1 (60 * NS) (65 * NS) 2 world w1).
  - vm_compute. discriminate.
  - split; vm_compute; discriminate.
  - split; vm_compute; discriminate.
  - apply run_answer. vm_compute. reflexivity.
  - constructor; [vm_compute; discriminate|constructor].
Defined.
End Witnesses.
