(* ===== verification/OneTime.v ===== *)
(** The flows on links sent by mail: registration and address verification
    (src/src/services/auth/register.rs), forgotten passwords (services/auth/
    password_reset.rs), sign-in links (services/auth/magic_link.rs), with the
    guards they share (services/auth/guards.rs) and the notices of
    services/user.rs. *)
From S2P Require Import Prelude Crates Session Account OAuthDomain Network Edge Crypto Tables App Outside RedisCounter SessionRepo Repos Tokens UserRepo AccessRepo TokenRepo Refresh Login SecondFactor.
Import Account.User Account.LoginAttempt Account.Audit Account.TwoFactor Account.Token Account.Role OAuthDomain.Pat.
Import Edge.IpBucket.

(** * Constants (services/auth/mod.rs, services/auth/guards.rs) *)

Definition MAX_TOKEN_SUBMIT_BY_IP : Z := 10.
Definition MAX_TOKEN_SUBMIT_BY_HASH : Z := 3.
Definition TOKEN_SUBMIT_WINDOW_SECS : Z := 3600.
Definition RESET_TOKEN_EXPIRY_SECS : Z := 60 * 30.
Definition MAX_FORGOT_PASSWORD_BY_IP : Z := 5.
Definition FORGOT_PASSWORD_IP_WINDOW_SECS : Z := 900.
Definition MAX_MAILBOX_LINKS_BY_ACCOUNT_AND_IP : Z := 3.
Definition MAX_MAILBOX_LINKS_BY_ACCOUNT : Z := 10.
Definition MAX_VERIFICATION_RESENDS_BY_IP : Z := 5.
Definition VERIFICATION_RESEND_IP_WINDOW_SECS : Z := 900.
Definition MAGIC_LINK_EXPIRY_SECS : Z := 60 * 15.
Definition MAX_MAGIC_LINKS_BY_IP : Z := 5.
Definition MAGIC_LINK_IP_WINDOW_SECS : Z := 900.
Definition MAX_ACCOUNT_EXISTS_NOTICES : Z := 3.
Definition ACCOUNT_EXISTS_NOTICE_WINDOW_SECS : Z := 3600.
Definition FORGOT_PASSWORD_MIN_DURATION : Duration := 250 * MS.
Definition ONE_TIME_TOKEN_MIN_DURATION : Duration := 100 * MS.

(** * Guards *)

Section Guards.
Context `{RedisServer} `{Env} `{CryptoCrates}.

(** Links mailed to an account: per client address, then for the account. *)
Definition mailbox_budget_exhausted (prefix : str) (user_id : Uuid) (ip : option IpNetwork)
    (window_secs : Z) : M AppError bool :=
  by_address ← match ip with
               | Some ip =>
                   budget_exhausted (prefix ++ [58] ++ uuid_str user_id ++ [58] ++ ip_bucket (net_ip ip))
                     MAX_MAILBOX_LINKS_BY_ACCOUNT_AND_IP window_secs
               | None => mret false
               end;
  if by_address : bool then mret true
  else budget_exhausted (prefix ++ [58] ++ uuid_str user_id) MAX_MAILBOX_LINKS_BY_ACCOUNT window_secs.

(** Per token across every address, and per address; closed without Redis. *)
Definition submission_budgets (kind : str) (ip : option IpNetwork) (token_hash : bytes) : list Budget :=
  {| bg_key := kind ++ u"_tok:" ++ hex_text token_hash; bg_limit := MAX_TOKEN_SUBMIT_BY_HASH;
     bg_window_secs := TOKEN_SUBMIT_WINDOW_SECS |} ::
  match ip with
  | Some ip => [{| bg_key := kind ++ u"_fail:" ++ ip_bucket (net_ip ip);
                   bg_limit := MAX_TOKEN_SUBMIT_BY_IP; bg_window_secs := TOKEN_SUBMIT_WINDOW_SECS |}]
  | None => []
  end.

Definition guard_token_submission (kind : str) (ip : option IpNetwork) (token_hash : bytes) :
    M AppError unit :=
  attempted ← consume (submission_budgets kind ip token_hash);
  if exceeded attempted then fail RateLimitExceededError else mret tt.

Definition check_one_time_token {T} `{OneTimeToken T} (lookup : M SqlError (option T)) : M AppError T :=
  padded ONE_TIME_TOKEN_MIN_DURATION (
    found ← internal lookup;
    record ← ok_or found TokenInvalid;
    now ← clock_now;
    match verdict record now with
    | ValidToken => mret record
    | ExpiredToken => fail TokenExpired
    | UsedToken => fail TokenInvalid
    end).

(** The budget of an address for one kind of request. *)
Definition request_budget (prefix : str) (ip : option IpNetwork) (limit window_secs : Z) : M AppError unit :=
  match ip with
  | Some ip =>
      exhausted ← budget_exhausted (prefix ++ ip_bucket (net_ip ip)) limit window_secs;
      if exhausted : bool then fail RateLimitExceededError else mret tt
  | None => mret tt
  end.

(** [AppError::from_unique_violation] *)
Definition from_unique_violation (e : SqlError) (mappings : list (str * str)) : AppError :=
  match e with
  | UniqueViolation constraint =>
      match List.find (fun m => str_eqb m.1 constraint) mappings with
      | Some m => Conflict m.2
      | None => Internal
      end
  | _ => Internal
  end.

(** ** What opens an account, told to its owner *)

Definition or_default {A E E'} (m : M E (list A)) : M E' (list A) :=
  r ← attempt m; mret (match r with Ok l => l | Err _ => [] end).

Definition access_summary (user_id : Uuid) : M AppError (list AccessItem) :=
  passkeys ← or_default (passkeys_find_by_user user_id);
  methods ← or_default (methods_find_by_user user_id);
  tokens ← or_default (pats_find_active_by_user user_id);
  identities ← or_default (identities_find_by_user user_id);
  mret (map (fun p => {| ai_kind := u"passkey"; ai_name := pk_name p |}) passkeys
        ++ map (fun m => {| ai_kind := two_factor_str (tf_method_type m); ai_name := [] |})
             (List.filter tf_is_verified methods)
        ++ map (fun t => {| ai_kind := u"personal_access_token"; ai_name := pat_name t |}) tokens
        ++ map (fun i => {| ai_kind := u"external_identity"; ai_name := xi_provider i |}) identities).

Definition notify_password_changed (user : User) (removed : list AccessItem) : M AppError unit :=
  access ← access_summary (u_id user);
  tell (add_mail {| m_kind := PasswordChangedMail access removed; m_to := u_email user |}).

Definition notify_access_added (user_id : Uuid) (access : AccessItem) : M AppError unit :=
  found ← attempt (user_find_by_id user_id);
  match found with
  | Ok (Some user) => tell (add_mail {| m_kind := AccessAddedMail access; m_to := u_email user |})
  | _ => mret tt
  end.
End Guards.

(** * Registration *)

Section Register.
Context `{RedisServer} `{Env} `{TimeCrate} `{CryptoCrates} `{SqlText} `{IpNetworkCrate} `{Jwt}.
Context `{MacCrate} `{HyperLogLog} `{Passwords} `{PreAuthSerde} `{Web} `{Pwned.Sha1Crate}.

Definition notify_existing_account (user : User) : M AppError unit :=
  tell (add_mail {| m_kind := AccountExistsMail; m_to := u_email user |}).

(** A registration on an address that has an account. *)
Definition register_existing (existing : User) (username hash locale : str) (ip : option IpNetwork)
    (user_agent : option str) (request_id : option Uuid) : M AppError unit :=
  expires_at ← in_secs EMAIL_TOKEN_EXPIRY_SECS;
  _ ← internal (reserve_username username (u_id existing) expires_at);
  if bool_decide (u_status existing = PendingVerification) then
    issue_verification existing
      (Some {| pc_password_hash := hash; pc_username := username; pc_preferred_locale := locale |})
      ip user_agent request_id
  else
    exhausted ← budget_exhausted (u"ae_account:" ++ uuid_str (u_id existing)) MAX_ACCOUNT_EXISTS_NOTICES
                  ACCOUNT_EXISTS_NOTICE_WINDOW_SECS;
    if exhausted : bool then mret tt else notify_existing_account existing.

(** The transaction of a new account: [None] when the address was taken
    meanwhile. *)
Definition open_account (username email hash locale : str) (default_role : option Role) (raw_token : str)
    (ip : option IpNetwork) (user_agent : option str) (request_id : option Uuid) : M AppError (option User) :=
  created ← attempt (user_create {| nu_username := username; nu_email := email; nu_password_hash := hash;
                                    nu_preferred_locale := locale |});
  match created with
  | Err e =>
      match from_unique_violation e [(USERS_EMAIL_KEY, u"email_taken"); (USERS_USERNAME_KEY, u"username_taken")] with
      | Conflict code => if str_eqb code u"email_taken" then mret None else fail (Conflict code)
      | other => fail other
      end
  | Ok user =>
      _ ← match default_role with
          | Some role => _ ← internal (assign_to_user (u_id user) (ro_id role) None); mret tt
          | None => mret tt
          end;
      expires_at ← in_secs EMAIL_TOKEN_EXPIRY_SECS;
      _ ← internal (create_verification (u_id user) (hash_token raw_token) expires_at ip user_agent email None);
      _ ← internal (audit_append {| na_user_id := Some (u_id user); na_request_id := request_id;
            na_action := Register; na_ip_address := ip; na_metadata := JObj [] |});
      _ ← enqueue u"user.created" (user_payload (u_id user));
      mret (Some user)
  end.

Definition register_account (username email password_plaintext locale : str) (ip : option IpNetwork)
    (user_agent : option str) (request_id : option Uuid) : M AppError (option User) :=
  unavailable ← internal (username_unavailable username);
  if unavailable : bool then fail (Conflict u"username_taken")
  else
    _ ← ensure_not_breached password_plaintext;
    hash ← ok_or (password_hash password_plaintext) Internal;
    existing ← internal (user_find_by_email email);
    match existing with
    | Some existing =>
        _ ← register_existing existing username hash locale ip user_agent request_id;
        mret None
    | None =>
        default_role ← internal find_default;
        raw_token ← generate_token;
        created ← try_transaction Internal
                    (open_account username email hash locale default_role raw_token ip user_agent request_id);
        match created with
        | Some user =>
            _ ← tell (add_mail {| m_kind := VerificationMail raw_token; m_to := email |});
            mret (Some user)
        | None => mret None
        end
    end.

Definition register (username email password_plaintext locale : str) (ip : option IpNetwork)
    (user_agent : option str) (request_id : option Uuid) : M AppError (option User) :=
  let per_hour := registrations_per_ip_per_hour (cfg_security config) in
  _ ← (if 0 <? per_hour then request_budget u"rg_req:" ip per_hour 3600 else mret tt);
  padded FORGOT_PASSWORD_MIN_DURATION
    (register_account username email password_plaintext locale ip user_agent request_id).

(** ** Verification *)

(** The lookup is within the measured time; its failure returns unpadded. *)
Definition resend_verification (email : str) (ip : option IpNetwork) (user_agent : option str)
    (request_id : option Uuid) : M AppError unit :=
  _ ← request_budget u"vr_req:" ip MAX_VERIFICATION_RESENDS_BY_IP VERIFICATION_RESEND_IP_WINDOW_SECS;
  started ← asks w_io;
  found ← internal (user_find_by_email email);
  padded_since started FORGOT_PASSWORD_MIN_DURATION (
    match found with
    | Some user =>
        if bool_decide (u_status user = PendingVerification)
        then issue_verification user None ip user_agent request_id
        else mret tt
    | None => mret tt
    end).

Definition carried_credentials (record : EmailVerificationToken) : option PendingCredentials :=
  h ← ev_password_hash record;
  n ← ev_username record;
  l ← ev_preferred_locale record;
  Some {| pc_password_hash := h; pc_username := n; pc_preferred_locale := l |}.

(** What the link commits. *)
Definition activate (record : EmailVerificationToken) (ip : option IpNetwork) (request_id : option Uuid) :
    M AppError unit :=
  consumed ← internal (consume_verification (ev_id record));
  if negb consumed then fail TokenInvalid
  else
    _ ← match carried_credentials record with
        | Some credentials => internal (adopt_pending_credentials (ev_user_id record) credentials)
        | None => mret tt
        end;
    _ ← internal (revoke_active_verification_by_user (ev_user_id record));
    _ ← internal (mark_email_verified (ev_user_id record));
    _ ← internal (audit_append {| na_user_id := Some (ev_user_id record); na_request_id := request_id;
          na_action := EmailVerified; na_ip_address := ip; na_metadata := JObj [] |});
    enqueue u"user.email_verified" (user_payload (ev_user_id record)).

(** The password the link asks for. *)
Definition expected_hash (record : EmailVerificationToken) : M AppError str :=
  match ev_password_hash record with
  | Some carried => mret carried
  | None =>
      found ← internal (user_find_by_id (ev_user_id record));
      user ← ok_or found TokenInvalid;
      mret (u_password_hash user)
  end.

Definition verify_email (raw_token password_plaintext : str) (ip : option IpNetwork)
    (request_id : option Uuid) : M AppError unit :=
  let hash := hash_token raw_token in
  _ ← guard_token_submission u"vf" ip hash;
  record ← check_one_time_token (find_verification_by_hash hash);
  expected ← expected_hash record;
  ok ← ok_or (password_verify password_plaintext expected) Internal;
  if negb ok then fail InvalidCredentials
  else transaction Internal (activate record ip request_id).
End Register.

(** * Forgotten passwords *)

Section PasswordReset.
Context `{RedisServer} `{Env} `{TimeCrate} `{CryptoCrates} `{SqlText} `{IpNetworkCrate} `{Jwt}.
Context `{MacCrate} `{HyperLogLog} `{Passwords} `{PreAuthSerde} `{Web} `{Pwned.Sha1Crate}.

Definition send_reset_link (user : User) (ip : option IpNetwork) (user_agent : option str)
    (replace_pending : bool) : M AppError unit :=
  _ ← (if replace_pending then internal (revoke_active_password_reset_by_user (u_id user)) else mret tt);
  raw_token ← generate_token;
  expires_at ← in_secs RESET_TOKEN_EXPIRY_SECS;
  _ ← internal (create_password_reset (u_id user) (hash_token raw_token) expires_at ip user_agent);
  tell (add_mail {| m_kind := PasswordResetMail raw_token; m_to := u_email user |}).

Definition issue_password_reset (email : str) (ip : option IpNetwork) (user_agent : option str)
    (request_id : option Uuid) : M AppError unit :=
  found ← internal (user_find_by_email email);
  match found with
  | None => mret tt
  | Some user =>
      exhausted ← mailbox_budget_exhausted u"fp_account" (u_id user) ip RESET_TOKEN_EXPIRY_SECS;
      if exhausted : bool then mret tt
      else
        _ ← send_reset_link user ip user_agent false;
        internal (audit_append {| na_user_id := Some (u_id user); na_request_id := request_id;
          na_action := PasswordResetRequested; na_ip_address := ip; na_metadata := JObj [] |})
  end.

Definition forgot_password (email : str) (ip : option IpNetwork) (user_agent : option str)
    (request_id : option Uuid) : M AppError unit :=
  _ ← request_budget u"fp_req:" ip MAX_FORGOT_PASSWORD_BY_IP FORGOT_PASSWORD_IP_WINDOW_SECS;
  padded FORGOT_PASSWORD_MIN_DURATION (issue_password_reset email ip user_agent request_id).

(** Ways in added shortly before the reset was asked for go with it. *)
Definition drop_recent_factors (record : PasswordResetToken) : M AppError (list (str * str)) :=
  let window := reset_revokes_factors_added_hours (cfg_security config) in
  if 0 <? window then
    _ ← internal (lock_row (pr_user_id record));
    administrator ← internal (holds_administration (pr_user_id record));
    internal (drop_access_factors_since (pr_user_id record)
      (pr_created_at record - seconds (3600 * window)) administrator)
  else mret [].

(** What the link commits; the factors it removed. *)
Definition redeem (record : PasswordResetToken) (new_hash : str) (ip : option IpNetwork)
    (request_id : option Uuid) : M AppError (list (str * str)) :=
  let user_id := pr_user_id record in
  consumed ← internal (consume_password_reset (pr_id record));
  if negb consumed then fail TokenInvalid
  else
    _ ← internal (update_password_hash user_id new_hash);
    _ ← internal (clear_lockout user_id);
    removed ← drop_recent_factors record;
    _ ← internal (revoke_all_by_user user_id);
    _ ← internal (revoke_mailbox_links user_id);
    _ ← internal (adopt_latest_registration_identity user_id);
    verified ← internal (verify_if_pending user_id);
    _ ← (if verified : bool then
           _ ← internal (revoke_active_verification_by_user user_id);
           internal (drop_access_factors user_id)
         else mret tt);
    _ ← internal (audit_append {| na_user_id := Some user_id; na_request_id := request_id;
          na_action := PasswordResetCompleted; na_ip_address := ip; na_metadata := JObj [] |});
    _ ← enqueue u"user.password_changed" (user_payload user_id);
    _ ← enqueue u"user.sessions_revoked" (user_payload user_id);
    mret removed.

Definition removed_item (x : str * str) : AccessItem :=
  {| ai_kind := if contains [u"totp"; u"email"; u"passkey"] x.1 then x.1 else u"identity"; ai_name := x.2 |}.

Definition login_try_key (user_id : Uuid) : str := u"login_try:" ++ uuid_str user_id.

Definition reset_password (raw_token new_password : str) (ip : option IpNetwork) (request_id : option Uuid) :
    M AppError unit :=
  let hash := hash_token raw_token in
  _ ← guard_token_submission u"rp" ip hash;
  record ← check_one_time_token (find_password_reset_by_hash hash);
  _ ← ensure_not_breached new_password;
  new_hash ← ok_or (password_hash new_password) Internal;
  let user_id := pr_user_id record in
  sessions ← internal (find_active_by_user user_id);
  removed ← transaction Internal (redeem record new_hash ip request_id);
  _ ← invalidate_session_caches (map s_id sessions);
  _ ← purge_user_pre_auth_and_email_change user_id;
  _ ← reset [TOTP_USER_FAIL_PREFIX ++ uuid_str user_id; RC_USER_FAIL_PREFIX ++ uuid_str user_id;
             EMAIL_2FA_USER_FAIL_PREFIX ++ uuid_str user_id; login_try_key user_id];
  found ← attempt (user_find_by_id user_id);
  match found with
  | Ok (Some user) => notify_password_changed user (map removed_item removed)
  | _ => mret tt
  end.
End PasswordReset.

(** * Sign-in links *)

Section MagicLink.
Context `{RedisServer} `{Env} `{TimeCrate} `{CryptoCrates} `{SqlText} `{IpNetworkCrate} `{Jwt}.
Context `{MacCrate} `{HyperLogLog} `{Passwords} `{PreAuthSerde}.

Definition ensure_magic_links_enabled : result unit AppError :=
  if magic_links (cfg_security config) then Ok tt else Err NotFound.

Definition send_link (user : User) (ip : option IpNetwork) (user_agent : option str)
    (request_id : option Uuid) : M AppError unit :=
  exhausted ← mailbox_budget_exhausted u"ml_account" (u_id user) ip MAGIC_LINK_EXPIRY_SECS;
  if exhausted : bool then mret tt
  else
    raw_token ← generate_token;
    expires_at ← in_secs MAGIC_LINK_EXPIRY_SECS;
    _ ← internal (add_magic_link (u_id user) (hash_token raw_token) expires_at ip user_agent);
    _ ← internal (audit_append {| na_user_id := Some (u_id user); na_request_id := request_id;
          na_action := MagicLinkSent; na_ip_address := ip; na_metadata := JObj [] |});
    tell (add_mail {| m_kind := MagicLinkMail raw_token (MAGIC_LINK_EXPIRY_SECS / 60); m_to := u_email user |}).

Definition request_magic_link (email : str) (ip : option IpNetwork) (user_agent : option str)
    (request_id : option Uuid) : M AppError unit :=
  _ ← lift ensure_magic_links_enabled;
  _ ← request_budget u"ml_req:" ip MAX_MAGIC_LINKS_BY_IP MAGIC_LINK_IP_WINDOW_SECS;
  started ← asks w_io;
  found ← internal (user_find_by_email email);
  padded_since started FORGOT_PASSWORD_MIN_DURATION (
    match found with
    | Some user =>
        if bool_decide (u_status user = ActiveUser) then send_link user ip user_agent request_id
        else mret tt
    | None => mret tt
    end).

Definition complete_magic_link (raw_token : str) (ip : option IpNetwork) (user_agent device_name : option str)
    (remember_me : bool) (request_id : option Uuid) : M AppError LoginResult :=
  _ ← lift ensure_magic_links_enabled;
  let hash := hash_token raw_token in
  _ ← guard_token_submission u"ml" ip hash;
  record ← check_one_time_token (find_magic_link_by_hash hash);
  consumed ← internal (consume_magic_link (ml_id record));
  if negb consumed then fail TokenInvalid
  else
    found ← internal (user_find_by_id (ml_user_id record));
    user ← ok_or found TokenInvalid;
    _ ← lift (ensure_account_usable user);
    first_factor_proven user None ip user_agent device_name remember_me request_id
      (JObj [(u"method", JStr u"magic_link")]).
End MagicLink.
