(* ===== verification/OneTimeCorrect.v ===== *)
(** Theorems about the flows on mailed links: a password reset changes
    everything it should at once or nothing, a link works once, an address is
    verified only with the password of the registration that sent the link, and
    nobody's registration touches somebody's account. *)
From S2P Require Import Prelude Crates Session Account OAuthDomain Network Edge Crypto Tables App Outside RedisCounter SessionRepo Repos Tokens UserRepo AccessRepo TokenRepo AccountsOk Scenario TokensCorrect Refresh RefreshCorrect Login LoginCorrect SecondFactor SecondFactorCorrect OneTime.
Import Account.User Account.LoginAttempt Account.Audit Account.TwoFactor Account.Token Account.Role.
Import Edge.IpBucket.

(** * Columns of an account *)

Section Columns.
Context `{RedisServer} `{Env} `{SqlText}.

(** The row of the account, if there is one, has the property. *)
Definition row_is (uid : Uuid) (Q : UserRow -> Prop) (d : Db) : Prop :=
  users_keyed d /\ forall r, t_users d !! uid = Some r -> Q r.

#[export] Instance row_is_depends uid Q : Depends (row_is uid Q) [TUsers].
Proof.
  intros d d' Ha. unfold row_is, users_keyed. by rewrite (Ha TUsers) by (by apply list_elem_of_singleton).
Qed.

(** Rows keep their id, and the accounts but one their rows. *)
Definition spares_others (uid : Uuid) (w w' : World) : Prop :=
  users_keyed (w_db w) ->
  users_keyed (w_db w') /\ forall i, i <> uid -> t_users (w_db w') !! i = t_users (w_db w) !! i.

#[export] Instance spares_others_frame uid : Frame (spares_others uid).
Proof.
  constructor; [constructor| |]; unfold SleepFrame, RedisFrame, spares_others; try done.
  intros w1 w2 w3 H12 H23 Hk. destruct (H12 Hk) as [Hk2 E2]. destruct (H23 Hk2) as [Hk3 E3].
  split; [done|]. intros i Hi. by rewrite E3, E2.
Qed.

#[export] Instance spares_others_rollback uid : Rollback (spares_others uid).
Proof. by intros w w' _ Hk. Qed.

#[export] Instance spares_others_reads uid : Reads (spares_others uid) [TUsers].
Proof.
  intros w d Ha. unfold spares_others, users_keyed. cbn.
  by rewrite (Ha TUsers) by (by apply list_elem_of_singleton).
Qed.

Lemma update_user_lookup id p f (d d' : Db) (b : bool) :
  (forall r, u_id (ur_user (f r)) = u_id (ur_user r)) -> users_keyed d ->
  update_user id p f d = Ok (d', b) ->
  users_keyed d' /\ (forall i, i <> id -> t_users d' !! i = t_users d !! i) /\
  (forall r', t_users d' !! id = Some r' -> exists r, t_users d !! id = Some r /\
     ((p (ur_user r) = true /\ r' = f r) \/ (p (ur_user r) = false /\ r' = r))).
Proof.
  intros Hf Hk. unfold update_user, put_user. destruct (t_users d !! id) as [r|] eqn:Er.
  2:{ intros [= <- _]. rewrite Er. by split_and!. }
  destruct (p (ur_user r)) eqn:Hp.
  2:{ intros [= <- _]. rewrite Er. split_and!; [done..|]. intros r' [= <-]. eauto. }
  destruct (user_refused _ d); [done|]. intros [= <- _]. cbn. rewrite Hf, (Hk id r Er). split_and!.
  - unfold users_keyed. cbn.
    intros i r' [[<- <-]|[_ Hr]]%lookup_insert_Some; [by rewrite Hf, (Hk id r Er)|by apply Hk].
  - intros i Hi. by rewrite lookup_insert_ne.
  - intros r'. rewrite lookup_insert_eq. intros [= <-]. eauto.
Qed.

Lemma keeps_row_update {A} uid Q id p (f : Db -> Z -> UserRow -> UserRow)
    (k : result (Db * bool) SqlError -> result (Db * A) SqlError) :
  (forall r d a, k r = Ok (d, a) -> exists b, r = Ok (d, b)) ->
  (forall d t r, u_id (ur_user (f d t r)) = u_id (ur_user r)) -> (forall d t r, Q r -> Q (f d t r)) ->
  keeps (pres (row_is uid Q)) (execute (fun d now => k (update_user id p (f d now) d))).
Proof.
  intros Hk Hf HQ. apply keeps_pres_execute. intros d t d' a [b E]%Hk [Hd Hr].
  apply update_user_lookup in E as (Hd' & Ho & Hi); [|done..]. split; [done|].
  intros r Er. destruct (decide (uid = id)) as [->|Hne]; [|apply Hr; by rewrite <- Ho].
  apply Hi in Er as (r0 & E0 & [[_ ->]|[_ ->]]); eauto.
Qed.

Lemma ignore_count_Ok (r : result (Db * bool) SqlError) (d : Db) (x : unit) :
  ignore_count r = Ok (d, x) -> exists b, r = Ok (d, b).
Proof. destruct r as [[d' b]|]; [|done]. intros [= <-]. eauto. Qed.

Lemma keeps_others_update {A} uid p (f : Db -> Z -> UserRow -> UserRow)
    (k : result (Db * bool) SqlError -> result (Db * A) SqlError) :
  (forall r d a, k r = Ok (d, a) -> exists b, r = Ok (d, b)) ->
  (forall d t r, u_id (ur_user (f d t r)) = u_id (ur_user r)) ->
  keeps (spares_others uid) (execute (fun d now => k (update_user uid p (f d now) d))).
Proof.
  intros Hk Hf. apply keeps_execute. intros w d a [b E]%Hk Hd.
  apply update_user_lookup in E as (Hd' & Ho & _); [|done..]. by split.
Qed.

(** The row after an update that applied to it. *)
Lemma update_establishes uid (Q : UserRow -> Prop) f (w w' : World) (x : unit) :
  (forall t r, u_id (ur_user (f t r)) = u_id (ur_user r)) -> (forall t r, Q (f t r)) ->
  users_keyed (w_db w) ->
  execute (fun d now => ignore_count (update_user uid anyone (f now) d)) w = (w', Ok x) ->
  row_is uid Q (w_db w').
Proof.
  intros Hf HQ Hk R. apply execute_Ok in R as [E _]. apply ignore_count_Ok in E as [b E].
  apply update_user_lookup in E as (Hd & _ & Hi); [|done..]. split; [done|].
  intros r (r0 & _ & [[_ ->]|[[=] _]])%Hi. apply HQ.
Qed.
End Columns.

(** * What a password reset commits *)

Section Reset.
Context `{RedisServer} `{Env} `{TimeCrate} `{CryptoCrates} `{SqlText} `{IpNetworkCrate} `{Jwt}.
Context `{MacCrate} `{HyperLogLog} `{Passwords} `{PreAuthSerde} `{Web} `{Pwned.Sha1Crate}.

(** ** Frames *)

Lemma keeps_row_clear uid Q id :
  (forall t r, Q r -> Q (forgive_row t (update_row t (with_locked_until None) r))) ->
  keeps (pres (row_is uid Q)) (clear_lockout id).
Proof.
  intros HQ. by apply (keeps_row_update uid Q id anyone
    (fun _ t r => forgive_row t (update_row t (with_locked_until None) r)) ignore_count);
    [apply ignore_count_Ok|done|auto].
Qed.

Lemma keeps_row_adopt uid Q id :
  (forall t n l r, Q r -> Q (update_row t (fun v => with_username n (with_preferred_locale l v)) r)) ->
  keeps (pres (row_is uid Q)) (adopt_latest_registration_identity id).
Proof.
  intros HQ. apply keeps_pres_execute. intros d t d' x E. destruct (latest_registration id d) as [[n l]|];
    [|by injection E as <-]. destruct (another _ _ d); [by injection E as <-|].
  apply ignore_count_Ok in E as [b E]. intros [Hd Hr].
  apply update_user_lookup in E as (Hd' & Ho & Hi); [|done..]. split; [done|].
  intros r Er. destruct (decide (uid = id)) as [->|Hne]; [|apply Hr; by rewrite <- Ho].
  apply Hi in Er as (r0 & E0 & [[_ ->]|[_ ->]]); eauto.
Qed.

Lemma keeps_row_verify uid Q id :
  (forall t r, Q r -> Q (update_row t (fun v => with_email_verified_at (Some t) (with_status ActiveUser v)) r)) ->
  keeps (pres (row_is uid Q)) (verify_if_pending id).
Proof.
  intros HQ. by apply (keeps_row_update uid Q id UserRepo.pending
    (fun _ t => update_row t (fun v => with_email_verified_at (Some t) (with_status ActiveUser v))) (fun r => r));
    [intros r d a ->; eauto|done|auto].
Qed.

Lemma others_adopt uid : keeps (spares_others uid) (adopt_latest_registration_identity uid).
Proof.
  apply keeps_execute. intros w d x E Hk. destruct (latest_registration uid (w_db w)) as [[n l]|];
    [|by injection E as <-]. destruct (another _ _ _); [by injection E as <-|].
  apply ignore_count_Ok in E as [b E]. by apply update_user_lookup in E as (Hd' & Ho & _).
Qed.

Lemma others_update_unit uid p f :
  (forall t r, u_id (ur_user (f t r)) = u_id (ur_user r)) ->
  keeps (spares_others uid) (execute (fun d now => ignore_count (update_user uid p (f now) d))).
Proof. intros Hf. by apply (keeps_others_update uid p (fun _ => f) ignore_count); [apply ignore_count_Ok|]. Qed.

Lemma others_update_bool uid p f :
  (forall t r, u_id (ur_user (f t r)) = u_id (ur_user r)) ->
  keeps (spares_others uid) (execute (fun d now => update_user uid p (f now) d)).
Proof. intros Hf. by apply (keeps_others_update uid p (fun _ => f) (fun r => r)); [intros r d a ->; eauto|]. Qed.

#[local] Hint Extern 1 (keeps _ (clear_lockout _)) => apply keeps_row_clear; by intros : frame.
#[local] Hint Extern 1 (keeps _ (adopt_latest_registration_identity _)) => apply keeps_row_adopt; by intros : frame.
#[local] Hint Extern 1 (keeps _ (verify_if_pending _)) => apply keeps_row_verify; by intros : frame.
#[local] Hint Resolve others_adopt others_update_unit others_update_bool : frame.
#[local] Hint Extern 1 (keeps (spares_others _) (execute _)) => first [apply others_update_unit | apply others_update_bool]; by intros : frame.

(** ** The state it leaves *)

Definition no_live (uid : Uuid) (d : Db) : Prop :=
  forall i s, t_sessions d !! i = Some s -> s_user_id s = uid -> is_Some (s_revoked_at s).

Definition no_links (uid : Uuid) (d : Db) : Prop :=
  (forall v, v ∈ l_resets (t_links d) -> pr_user_id v = uid -> is_Some (pr_used_at v)) /\
  (forall v, v ∈ l_magic_links (t_links d) -> ml_user_id v = uid -> is_Some (ml_used_at v)).

#[export] Instance no_live_depends uid : Depends (no_live uid) [TSessions].
Proof. intros d d' Ha. unfold no_live. by rewrite (Ha TSessions) by (by apply list_elem_of_singleton). Qed.

#[export] Instance no_links_depends uid : Depends (no_links uid) [TResets; TMagicLinks].
Proof. intros d d' Ha. unfold no_links. rewrite (Ha TResets), (Ha TMagicLinks) by set_solver. done. Qed.

Lemma revoke_all_establishes uid (w w' : World) (n : Z) :
  internal (revoke_all_by_user uid) w = (w', Ok n) -> no_live uid (w_db w').
Proof.
  unfold internal, revoke_all_by_user, revoke_returning. intros R. apply map_err_Ok in R.
  unbind R rows w1 R1. read_run R. read_run R1. destruct R1 as [E _]. injection E as <- _.
  intros i s. cbn. unfold revoke_where. rewrite lookup_fmap_Some. intros (s0 & <- & Hs) Hu.
  case_cond; [by eexists|]. destruct (s_revoked_at s0) eqn:Er; [by eexists|]. exfalso.
  apply andb_false_iff in E as [E|E]; apply bool_decide_eq_false in E; congruence.
Qed.

Lemma update_where_elem {A} (p : A -> bool) (f : A -> A) (l : list A) (x : A) :
  x ∈ update_where p f l -> exists y, y ∈ l /\ ((p y = true /\ x = f y) \/ (p y = false /\ x = y)).
Proof.
  unfold update_where. intros (y & -> & Hy)%list_elem_of_fmap. exists y. destruct (p y); auto.
Qed.

Lemma revoke_links_establishes uid (w w' : World) (x : unit) :
  internal (revoke_mailbox_links uid) w = (w', Ok x) -> no_links uid (w_db w').
Proof.
  unfold internal, revoke_mailbox_links, revoke_active_password_reset_by_user, revoke_active_magic_links_by_user.
  intros R. apply map_err_Ok in R. unbind R y w1 R1. read_run R1. read_run R.
  destruct R1 as [E1 _], R as [E2 _]. injection E1 as E1 _. rewrite <- E1 in E2. injection E2 as <- _.
  split; cbn;
    intros v (v0 & _ & [[_ ->]|[Hp ->]])%update_where_elem Hu; try (by eexists);
    unfold unused_of in Hp; apply andb_false_iff in Hp as [Hp|Hp]; apply bool_decide_eq_false in Hp;
    try done; cbn in Hp; by apply not_eq_None_Some.
Qed.
Definition reset_entry (uid : Uuid) (ip : option IpNetwork) (rid : option Uuid) : NewAuditEntry :=
  {| na_user_id := Some uid; na_request_id := rid; na_action := PasswordResetCompleted;
     na_ip_address := ip; na_metadata := JObj [] |}.

Definition subjects (d : Db) : list str := map ob_subject (e_outbox (t_events d)).

(** The account after a reset, and the rest of the tables it touches. *)
Record redeemed (now : Z) (uid : Uuid) (h : str) (ip : option IpNetwork) (rid : option Uuid) (d d' : Db) : Prop := {
  rd_hash : forall r, t_users d' !! uid = Some r -> u_password_hash (ur_user r) = h;
  rd_unlocked : forall r, t_users d' !! uid = Some r -> u_locked_until (ur_user r) = None;
  rd_verified : forall r, t_users d' !! uid = Some r -> u_status (ur_user r) <> PendingVerification;
  rd_sessions : no_live uid d';
  rd_links : no_links uid d';
  rd_others : forall i, i <> uid -> t_users d' !! i = t_users d !! i;
  rd_audit : t_audit_log d' = logged now (reset_entry uid ip rid) (t_audit_log d);
  rd_events : subjects d' = subjects d ++ [u"events.auth.user.password_changed"; u"events.auth.user.sessions_revoked"];
}.

(** ** The transaction, step by step *)

Lemma redeem_hash v h ip rid (w w' : World) l :
  users_keyed (w_db w) -> redeem v h ip rid w = (w', Ok l) ->
  row_is (pr_user_id v) (fun r => u_password_hash (ur_user r) = h) (w_db w').
Proof.
  intros Hk R. unfold redeem in R. unbind R consumed w1 R1.
  assert (users_keyed (w_db w1)) as Hk1.
  { eapply (keeps_run (pres (row_is (pr_user_id v) (fun _ => True)))) in R1; [by apply R1|]. tables_auto. }
  destruct consumed; cbn [negb] in R; [|by apply fail_Ok in R].
  revert R. apply bind_establishes.
  - intros w2 [] E. apply map_err_Ok in E. by eapply update_establishes in E.
  - intros _. tables_auto.
Qed.

Lemma redeem_unlocked v h ip rid (w w' : World) l :
  users_keyed (w_db w) -> redeem v h ip rid w = (w', Ok l) ->
  row_is (pr_user_id v) (fun r => u_locked_until (ur_user r) = None) (w_db w').
Proof.
  intros Hk R. unfold redeem in R. unbind R consumed w1 R1.
  assert (users_keyed (w_db w1)) as Hk1.
  { eapply (keeps_run (pres (row_is (pr_user_id v) (fun _ => True)))) in R1; [by apply R1|]. tables_auto. }
  destruct consumed; cbn [negb] in R; [|by apply fail_Ok in R].
  unbind R x w2 R2. apply map_err_Ok in R2. eapply (update_establishes _ (fun _ => True)) in R2 as [Hk2 _]; try done.
  revert R. apply bind_establishes.
  - intros w3 [] E. apply map_err_Ok in E.
    by eapply (update_establishes _ (fun r => u_locked_until (ur_user r) = None)
      (fun t r => forgive_row t (update_row t (with_locked_until None) r))) in E.
  - intros _. tables_auto.
Qed.

Lemma verify_establishes uid (w w' : World) (b : bool) :
  users_keyed (w_db w) -> internal (verify_if_pending uid) w = (w', Ok b) ->
  row_is uid (fun r => u_status (ur_user r) <> PendingVerification) (w_db w').
Proof.
  intros Hk R. apply map_err_Ok, execute_Ok in R as [E _].
  apply update_user_lookup in E as (Hd & _ & Hi); [|done..]. split; [done|].
  intros r (r0 & _ & [[_ ->]|[Hp ->]])%Hi; [done|]. by apply bool_decide_eq_false in Hp.
Qed.

(** From the revocation of the sessions on. *)
Lemma redeem_ended v h ip rid (w w' : World) l :
  users_keyed (w_db w) -> redeem v h ip rid w = (w', Ok l) ->
  row_is (pr_user_id v) (fun r => u_status (ur_user r) <> PendingVerification) (w_db w') /\
  no_live (pr_user_id v) (w_db w') /\ no_links (pr_user_id v) (w_db w').
Proof.
  intros Hk R. unfold redeem in R. unbind R consumed w1 R1.
  assert (keeps (pres (row_is (pr_user_id v) (fun _ => True))) (internal (consume_password_reset (pr_id v)))) as K1
    by tables_auto.
  eapply keeps_run in R1; [|exact K1]. destruct (R1 (conj Hk (fun _ _ => I))) as [Hk1 _].
  destruct consumed; cbn [negb] in R; [|by apply fail_Ok in R].
  unbind R x w2 R2. apply map_err_Ok in R2. eapply (update_establishes _ (fun _ => True)) in R2 as [Hk2 _]; try done.
  unbind R x3 w3 R3. unbind R removed w4 R4.
  assert (users_keyed (w_db w4)) as Hk4.
  { eapply (keeps_run (pres (row_is (pr_user_id v) (fun _ => True)))) in R3; [|tables_auto].
    eapply (keeps_run (pres (row_is (pr_user_id v) (fun _ => True)))) in R4; [|tables_auto].
    by apply R4, R3. }
  split_and!.
  - unbind R x5 w5 R5. unbind R x6 w6 R6. unbind R x7 w7 R7.
    assert (users_keyed (w_db w7)) as Hk7.
    { eapply (keeps_run (pres (row_is (pr_user_id v) (fun _ => True)))) in R5; [|tables_auto].
      eapply (keeps_run (pres (row_is (pr_user_id v) (fun _ => True)))) in R6; [|tables_auto].
      eapply (keeps_run (pres (row_is (pr_user_id v) (fun _ => True)))) in R7; [|tables_auto].
      by apply R7, R6, R5. }
    revert R. apply bind_establishes; [intros ? ?; by apply verify_establishes|intros ?; tables_auto].
  - revert R. apply bind_establishes; [intros ? ?; apply revoke_all_establishes|intros ?; tables_auto].
  - unbind R x5 w5 R5. revert R. apply bind_establishes; [intros ? ?; apply revoke_links_establishes|intros ?; tables_auto].
Qed.

Lemma record_event_Ok subject name payload (w w' : World) (x : unit) :
  internal (record_event subject name payload) w = (w', Ok x) -> subjects (w_db w') = subjects (w_db w) ++ [subject].
Proof.
  unfold internal, record_event. intros R. apply map_err_Ok in R. unbind R ev w1 R1. unbind R eps w2 R2.
  read_run R2. unbind R ids w3 R3. read_run R. destruct R as [E _]. injection E as <- _.
  apply (keeps_run (leaves [TOutbox])) in R1 as [A1 _]; [|tables_auto].
  apply (keeps_run (leaves [TOutbox])) in R3 as [A3 _]; [|tables_auto].
  unfold subjects. cbn. rewrite map_app, (A3 TOutbox), (A1 TOutbox) by set_solver. done.
Qed.

Lemma redeem_rest v h ip rid (w w' : World) l :
  users_keyed (w_db w) -> redeem v h ip rid w = (w', Ok l) ->
  (forall i, i <> pr_user_id v -> t_users (w_db w') !! i = t_users (w_db w) !! i) /\
  t_audit_log (w_db w') = logged (w_wall w) (reset_entry (pr_user_id v) ip rid) (t_audit_log (w_db w)) /\
  subjects (w_db w') = subjects (w_db w) ++
    [u"events.auth.user.password_changed"; u"events.auth.user.sessions_revoked"].
Proof.
  intros Hk R. split.
  { eapply (keeps_run (spares_others (pr_user_id v))) in R; [by apply R|]. tables_auto. }
  unfold redeem in R. unbind R consumed w1 R1. destruct consumed; cbn [negb] in R; [|by apply fail_Ok in R].
  unbind R x2 w2 R2. unbind R x3 w3 R3. unbind R x4 w4 R4. unbind R x5 w5 R5. unbind R x6 w6 R6.
  unbind R x7 w7 R7. unbind R x8 w8 R8. unbind R x9 w9 R9.
  assert (leaves [TAuditLog; TOutbox] w w9) as [A C].
  { eapply keeps_run in R1, R2, R3, R4, R5, R6, R7, R8, R9;
      [do 8 (eapply frame_trans; [eassumption|]); eassumption|..]; tables_auto. }
  unbind R x10 w10 R10. unbind R x11 w11 R11. unbind R x12 w12 R12. read_run R.
  apply map_err_Ok in R10. unfold audit_append in R10. read_run R10. destruct R10 as [E10 C10].
  injection E10 as E10 _.
  assert (t_audit_log (w_db w12) = t_audit_log (w_db w10)) as ->.
  { eapply (keeps_run (leaves [TAuditLog])) in R11, R12; [|tables_auto..].
    destruct R11 as [A11 _], R12 as [A12 _]. by rewrite (A12 TAuditLog), (A11 TAuditLog) by set_solver. }
  apply record_event_Ok in R11, R12. rewrite R12, R11, <- E10. unfold subjects. cbn.
  rewrite (A TAuditLog), (A TOutbox), <- !app_assoc by set_solver. split; [|done].
  by rewrite (proj2 C).
Qed.

Lemma redeem_Ok v h ip rid (w w' : World) l :
  users_keyed (w_db w) -> redeem v h ip rid w = (w', Ok l) ->
  redeemed (w_wall w) (pr_user_id v) h ip rid (w_db w) (w_db w').
Proof.
  intros Hk R. destruct (redeem_hash _ _ _ _ _ _ _ Hk R), (redeem_unlocked _ _ _ _ _ _ _ Hk R).
  destruct (redeem_ended _ _ _ _ _ _ _ Hk R) as ([_ ?] & ? & ?).
  destruct (redeem_rest _ _ _ _ _ _ _ Hk R) as (? & ? & ?). by split.
Qed.

(** ** The whole request *)

(** An operation on Redis and reads, then the rest. *)
Lemma quiet_then {E A B} (Q : World * result B E -> Prop) (m : M E A) (k : A -> M E B) (w : World) :
  keeps same_db m ->
  (forall w1 e, same_db w w1 -> Q (w1, Err e)) ->
  (forall a w1, m w = (w1, Ok a) -> same_db w w1 -> Q (k a w1)) ->
  Q ((m ≫= k) w).
Proof.
  intros Hm He Hk. specialize (Hm w). unfold mbind, M_bind. destruct (m w) as [w1 [a|e]] eqn:E1; auto.
Qed.

Definition find_reset (raw : str) (d : Db) : option PasswordResetToken :=
  List.find (fun v => bool_decide (pr_token_hash v = hash_token raw)) (l_resets (t_links d)).

Lemma check_token_Ok {T} `{OneTimeToken T} (f : Db -> Z -> option T) (w w' : World) (v : T) :
  check_one_time_token (query f) w = (w', Ok v) ->
  f (w_db w) (w_wall w) = Some v /\ used_at v = None /\ w_now w <= expires_at v.
Proof.
  unfold check_one_time_token. intros R. apply padded_run in R as (w1 & R & ->).
  unbind R found w2 R2. unfold internal in R2. read_run R2. unbind R rec w3 R3. read_run R3.
  unbind R now w4 R4. unfold clock_now in R4. read_run R4. destruct R2 as [_ [Hn _]]. rewrite Hn in R.
  destruct (verdict rec (w_now w)) eqn:Ev; [|by apply fail_Ok in R..]. read_run R.
  by apply verdict_valid in Ev.
Qed.

(** What a request to reset a password does, whatever fails. *)
Definition reset_outcome (raw pw : str) ip rid (w : World) (run : World * result unit AppError) : Prop :=
  (w_db run.1 = w_db w /\ exists e, run.2 = Err e) \/
  exists v h, find_reset raw (w_db w) = Some v /\ pr_used_at v = None /\ w_now w <= pr_expires_at v /\
    password_hash pw = Some h /\ redeemed (w_wall w) (pr_user_id v) h ip rid (w_db w) (w_db run.1).

Lemma reset_run raw pw ip rid (w : World) :
  users_keyed (w_db w) -> reset_outcome raw pw ip rid w (reset_password raw pw ip rid w).
Proof.
  intros Hk. unfold reset_password. set (Q := reset_outcome raw pw ip rid w).
  assert (forall w1 e, same_db w w1 -> Q (w1, Err e)) as He by (intros w1 e [Hd _]; left; cbn; eauto).
  apply (quiet_then Q); [tables_auto|done|]. intros [] w1 _ S1.
  apply (quiet_then Q); [tables_auto|by intros w2 e S2; apply He; eapply frame_trans|].
  intros v w2 R2 S2. apply check_token_Ok in R2 as (Hf & Hu & Hx).
  assert (same_db w w2) as S02 by (by eapply frame_trans).
  apply (quiet_then Q); [tables_auto|by intros w3 e S3; apply He; eapply frame_trans|]. intros [] w3 _ S3.
  apply (quiet_then Q); [tables_auto|by intros w4 e S4; apply He; do 2 (eapply frame_trans; [done|])|].
  intros h w4 R4 S4. read_run R4.
  apply (quiet_then Q); [tables_auto|by intros w5 e S5; apply He; do 2 (eapply frame_trans; [done|])|].
  intros ss w5 _ S5.
  assert (same_db w w5) as [D5 [N5 W5]] by (do 2 (eapply frame_trans; [done|]); done).
  destruct S1 as [D1 [N1 _]]. unfold mbind at 1, M_bind at 1.
  destruct (transaction Internal (redeem v h ip rid) w5) as [w6 r6] eqn:E6.
  apply transaction_run in E6 as [[[e ->] D6]|(w7 & l & R7 & D6 & _ & Hr)]; [left; cbn; rewrite D6; eauto|].
  assert (redeemed (w_wall w) (pr_user_id v) h ip rid (w_db w) (w_db w6)) as Hrd.
  { rewrite D6, <- D5, <- W5. apply (redeem_Ok _ _ _ _ (bump_io w5) _ l); [by cbn; rewrite D5|done]. }
  assert (forall w', same_db w6 w' -> redeemed (w_wall w) (pr_user_id v) h ip rid (w_db w) (w_db w')) as Hrd'
    by (by intros w' [-> _]).
  rewrite D1, N1 in *. right. exists v, h. split_and!; [done..|]. destruct r6 as [removed|e]; [|by apply Hrd'].
  apply Hrd'. match goal with |- same_db w6 (?m w6).1 => cut (keeps same_db m) end; [by intros K; apply K|].
  tables_auto.
Qed.

(** C22: a password reset happens as a whole or not at all, whatever fails on
    the way.  Either the request is refused and no table has changed; or the
    link was one of the account's, unused and in time, and in one commit the
    account has the new password and no lock, its address counts as verified,
    all its sessions are revoked, none of its reset and sign-in links is usable
    any more, no other account has changed, the reset is in the audit log and
    both its events are in the outbox. *)
Theorem reset_commits raw pw ip rid (w : World) :
  users_keyed (w_db w) -> reset_outcome raw pw ip rid w (reset_password raw pw ip rid w).
Proof. apply reset_run. Qed.
End Reset.

(** * A link works once *)

Section Once.
Context `{RedisServer} `{Env} `{TimeCrate} `{CryptoCrates} `{SqlText} `{IpNetworkCrate} `{Jwt}.
Context `{MacCrate} `{HyperLogLog} `{Passwords} `{PreAuthSerde} `{Web} `{Pwned.Sha1Crate}.

(** The reset links keep their digests and their accounts, in their order. *)
Definition link_of (v : PasswordResetToken) : bytes * Uuid := (pr_token_hash v, pr_user_id v).

Definition same_links (w w' : World) : Prop :=
  map link_of (l_resets (t_links (w_db w'))) = map link_of (l_resets (t_links (w_db w))).

#[export] Instance same_links_frame : Frame same_links.
Proof. constructor; [constructor| |]; unfold SleepFrame, RedisFrame, same_links; try done; congruence. Qed.

#[export] Instance same_links_rollback : Rollback same_links.
Proof. by intros w w' _. Qed.

#[export] Instance same_links_reads : Reads same_links [TResets].
Proof. intros w d Ha. unfold same_links. cbn. by rewrite (Ha TResets) by (by apply list_elem_of_singleton). Qed.

Lemma map_update_where {A B} (g : A -> B) (p : A -> bool) (f : A -> A) (l : list A) :
  (forall x, g (f x) = g x) -> map g (update_where p f l) = map g l.
Proof.
  intros Hg. unfold update_where. rewrite map_map. apply map_ext. intros x. by destruct (p x).
Qed.

Lemma links_consume id : keeps same_links (consume_password_reset id).
Proof. apply keeps_execute. intros w d a [= <- _]. unfold same_links. cbn. by apply map_update_where. Qed.

Lemma links_revoke uid : keeps same_links (revoke_active_password_reset_by_user uid).
Proof. apply keeps_execute. intros w d a [= <- _]. unfold same_links. cbn. by apply map_update_where. Qed.

#[local] Hint Resolve links_consume links_revoke : frame.

Lemma find_same_link (l l' : list PasswordResetToken) (h : bytes) (v' : PasswordResetToken) :
  map link_of l' = map link_of l ->
  List.find (fun v => bool_decide (pr_token_hash v = h)) l' = Some v' ->
  exists v, List.find (fun v => bool_decide (pr_token_hash v = h)) l = Some v /\ pr_user_id v' = pr_user_id v.
Proof.
  revert l. induction l' as [|x' l' IH]; intros [|x l]; cbn; try done. unfold link_of at 1 3.
  intros [= Eh Eu El]. rewrite Eh. case_bool_decide; [|eauto]. intros [= <-]. eauto.
Qed.

Lemma kept_reset_password raw pw ip rid : keeps (pres accounts_wf) (reset_password raw pw ip rid).
Proof. tables_auto. Qed.

(** A reset link works once: after it was used, every later request with it
    is refused and changes no table, whatever the password, the address, the
    time and the outages. *)
Theorem reset_link_once raw pw pw' ip ip' rid rid' (w w1 w2 : World) (x : unit) :
  accounts_wf (w_db w) -> reset_password raw pw ip rid w = (w1, Ok x) -> w_db w2 = w_db w1 ->
  let run := reset_password raw pw' ip' rid' w2 in
  w_db run.1 = w_db w2 /\ exists e, run.2 = Err e.
Proof.
  intros Hwf R1 D2. cbn zeta.
  assert (accounts_wf (w_db w1)) as Hwf1 by (by apply (keeps_run _ _ _ _ _ (kept_reset_password raw pw ip rid) R1)).
  assert (same_links w w1) as Hl by (eapply keeps_run, R1; tables_auto).
  pose proof (reset_run raw pw ip rid w (wf_keyed _ Hwf)) as [[_ [e He]]|(v & h & Hf & _ & _ & _ & Hrd)];
    [by rewrite R1 in He|]. rewrite R1 in Hrd.
  destruct (reset_run raw pw' ip' rid' w2) as [?|(v2 & h2 & Hf2 & Hu2 & _)]; [rewrite D2; exact (wf_keyed _ Hwf1)|done|].
  exfalso. unfold find_reset in Hf, Hf2. rewrite D2 in Hf2.
  pose proof (find_some _ _ Hf2) as [Hin _]. apply list_elem_of_In in Hin.
  apply (find_same_link _ _ _ _ Hl) in Hf2 as (v0 & Hf0 & Eu). rewrite Hf in Hf0. injection Hf0 as <-.
  destruct (rd_links _ _ _ _ _ _ _ Hrd) as [Hr _]. destruct (Hr v2 Hin Eu). congruence.
Qed.
End Once.

(** * Address verification *)

Section Verify.
Context `{RedisServer} `{Env} `{TimeCrate} `{CryptoCrates} `{SqlText} `{IpNetworkCrate} `{Jwt}.
Context `{MacCrate} `{HyperLogLog} `{Passwords} `{PreAuthSerde} `{Web} `{Pwned.Sha1Crate}.

Definition find_verification (raw : str) (d : Db) : option EmailVerificationToken :=
  List.find (fun v => bool_decide (ev_token_hash v = hash_token raw)) (t_verifications d).

(** The hash of the password a link asks for. *)
Definition asked_hash (v : EmailVerificationToken) (d : Db) : option str :=
  match ev_password_hash v with
  | Some h => Some h
  | None => (fun r => u_password_hash (ur_user r)) <$> t_users d !! ev_user_id v
  end.

(** The constraint [email_verification_tokens_credentials_together]. *)
Definition together (v : EmailVerificationToken) : Prop :=
  (is_Some (ev_password_hash v) -> is_Some (ev_username v) /\ is_Some (ev_preferred_locale v)).

Definition no_verifications (uid : Uuid) (d : Db) : Prop :=
  forall v, v ∈ t_verifications d -> ev_user_id v = uid -> is_Some (ev_used_at v).

#[export] Instance no_verifications_depends uid : Depends (no_verifications uid) [TVerifications].
Proof. intros d d' Ha. unfold no_verifications. by rewrite (Ha TVerifications) by (by apply list_elem_of_singleton). Qed.

(** What using a link leaves: [h] is the password that was proven. *)
Record activated (v : EmailVerificationToken) (h : str) (d d' : Db) : Prop := {
  av_status : forall r, t_users d' !! ev_user_id v = Some r -> u_status (ur_user r) <> PendingVerification;
  av_password : forall r r', t_users d !! ev_user_id v = Some r -> u_status (ur_user r) = PendingVerification ->
    t_users d' !! ev_user_id v = Some r' -> u_password_hash (ur_user r') = h;
  av_links : no_verifications (ev_user_id v) d';
  av_others : forall i, i <> ev_user_id v -> t_users d' !! i = t_users d !! i;
  av_sessions : t_sessions d' = t_sessions d;
}.

Definition verify_outcome (raw pw : str) (w : World) (run : World * result unit AppError) : Prop :=
  (w_db run.1 = w_db w /\ exists e, run.2 = Err e) \/
  exists v h, find_verification raw (w_db w) = Some v /\ ev_used_at v = None /\ w_now w <= ev_expires_at v /\
    asked_hash v (w_db w) = Some h /\ password_verify pw h = Some true /\
    activated v h (w_db w) (w_db run.1).

(** ** Frames *)

Lemma keeps_row_mark uid Q id :
  (forall t r, Q r -> Q (update_row t (fun v => with_email_verified_at (Some t)
     (with_status (if UserRepo.pending v then ActiveUser else u_status v) v)) r)) ->
  keeps (pres (row_is uid Q)) (mark_email_verified id).
Proof.
  intros HQ. by apply (keeps_row_update uid Q id anyone
    (fun _ t => update_row t (fun v => with_email_verified_at (Some t)
       (with_status (if UserRepo.pending v then ActiveUser else u_status v) v))) ignore_count);
    [apply ignore_count_Ok|done|auto].
Qed.

#[local] Hint Extern 1 (keeps _ (mark_email_verified _)) => apply keeps_row_mark; by intros : frame.

Lemma others_adopt_pending uid c : keeps (spares_others uid) (adopt_pending_credentials uid c).
Proof.
  by apply (keeps_others_update uid UserRepo.pending (fun d t => update_row t (fun v =>
    with_password_hash (pc_password_hash c) (with_preferred_locale (pc_preferred_locale c)
      (with_username (if another (u_id v) (fun o => citext_eqb (u_username o) (pc_username c)) d
                      then u_username v else pc_username c) v)))) ignore_count); [apply ignore_count_Ok|].
Qed.

#[local] Hint Resolve others_adopt_pending : frame.
#[local] Hint Extern 1 (keeps (spares_others _) (execute _)) => apply others_update_unit; by intros : frame.

Lemma mark_establishes uid (w w' : World) (x : unit) :
  users_keyed (w_db w) -> internal (mark_email_verified uid) w = (w', Ok x) ->
  row_is uid (fun r => u_status (ur_user r) <> PendingVerification) (w_db w').
Proof.
  intros Hk R. apply map_err_Ok in R. eapply (update_establishes _ (fun r => u_status (ur_user r) <> PendingVerification)
    (fun t => update_row t (fun v => with_email_verified_at (Some t)
       (with_status (if UserRepo.pending v then ActiveUser else u_status v) v)))); [done| |done|exact R].
  intros t r. cbn. unfold UserRepo.pending. by case_bool_decide.
Qed.

Lemma revoke_verifications_establishes uid (w w' : World) (x : unit) :
  internal (revoke_active_verification_by_user uid) w = (w', Ok x) -> no_verifications uid (w_db w').
Proof.
  unfold internal, revoke_active_verification_by_user. intros R. apply map_err_Ok in R. read_run R.
  destruct R as [E _]. injection E as <- _. cbn.
  intros v (v0 & _ & [[_ ->]|[Hp ->]])%update_where_elem Hu; [by eexists|].
  unfold unused_of in Hp. apply andb_false_iff in Hp as [Hp|Hp]; apply bool_decide_eq_false in Hp; [done|].
  by apply not_eq_None_Some.
Qed.

(** ** The transaction *)

Lemma activate_password v h r ip rid (w w' : World) x :
  users_keyed (w_db w) -> together v -> asked_hash v (w_db w) = Some h ->
  t_users (w_db w) !! ev_user_id v = Some r -> u_status (ur_user r) = PendingVerification ->
  activate v ip rid w = (w', Ok x) -> row_is (ev_user_id v) (fun r => u_password_hash (ur_user r) = h) (w_db w').
Proof.
  intros Hk Ht Ha Hr Hp R. unfold activate in R. unbind R consumed w1 R1.
  apply (keeps_run (leaves [TUsers])) in R1 as [A1 _]; [|tables_auto].
  assert (t_users (w_db w1) = t_users (w_db w)) as U1 by (apply (A1 TUsers); set_solver).
  destruct consumed; cbn [negb] in R; [|by apply fail_Ok in R].
  revert R. apply bind_establishes; [|intros _; tables_auto].
  intros w2 y R2. unfold asked_hash in Ha. destruct (carried_credentials v) as [c|] eqn:Ec.
  - apply map_err_Ok, execute_Ok in R2 as [E _]. apply ignore_count_Ok in E as [b E].
    assert (pc_password_hash c = h) as Hc.
    { unfold carried_credentials in Ec. destruct (ev_password_hash v); [|done]. cbn in Ec.
      destruct (ev_username v), (ev_preferred_locale v); try done. by simplify_eq/=. }
    apply update_user_lookup in E as (Hd & _ & Hi); [|done|by unfold users_keyed; rewrite U1]. split; [done|].
    intros r' (r0 & E0 & Hr0)%Hi. rewrite U1, Hr in E0. injection E0 as <-.
    unfold UserRepo.pending in Hr0. rewrite Hp in Hr0. by destruct Hr0 as [[_ ->]|[[=] _]].
  - apply ret_Ok in R2 as [_ ->]. unfold row_is, users_keyed. rewrite U1. split; [done|].
    intros r' Hr'. rewrite Hr in Hr'. injection Hr' as <-.
    assert (ev_password_hash v = None) as Hn.
    { apply eq_None_not_Some. intros Hs. destruct (Ht Hs) as [[n Hn] [l Hl]]. destruct Hs as [h0 Hs].
      unfold carried_credentials in Ec. by rewrite Hs, Hn, Hl in Ec. }
    rewrite Hn, Hr in Ha. by injection Ha.
Qed.

Lemma activate_Ok v h ip rid (w w' : World) x :
  users_keyed (w_db w) -> together v -> asked_hash v (w_db w) = Some h ->
  activate v ip rid w = (w', Ok x) -> activated v h (w_db w) (w_db w').
Proof.
  intros Hk Ht Ha R. split.
  - unfold activate in R. unbind R consumed w1 R1. destruct consumed; cbn [negb] in R; [|by apply fail_Ok in R].
    unbind R x2 w2 R2. unbind R x3 w3 R3.
    assert (users_keyed (w_db w3)) as Hk3.
    { eapply (keeps_run (spares_others (ev_user_id v))) in R1, R2, R3; [|tables_auto..]. by apply R3, R2, R1. }
    assert (row_is (ev_user_id v) (fun r => u_status (ur_user r) <> PendingVerification) (w_db w')) as [_ ?]; [|done].
    revert R. apply bind_establishes; [intros ? ? R4; by apply mark_establishes in R4|intros ?; tables_auto].
  - intros r r' Hr Hp Hr'. by apply (activate_password v h r ip rid w w' x Hk Ht Ha Hr Hp R).
  - unfold activate in R. unbind R consumed w1 R1. destruct consumed; cbn [negb] in R; [|by apply fail_Ok in R].
    unbind R x2 w2 R2. revert R.
    apply bind_establishes; [intros ? ?; apply revoke_verifications_establishes|intros ?; tables_auto].
  - eapply (keeps_run (spares_others (ev_user_id v))) in R; [by apply R|]. tables_auto.
  - eapply (keeps_run (leaves [TSessions])) in R as [A _]; [|tables_auto]. apply (A TSessions). set_solver.
Qed.

Lemma expected_hash_Ok v (w w' : World) (h : str) :
  expected_hash v w = (w', Ok h) -> asked_hash v (w_db w) = Some h.
Proof.
  unfold expected_hash, asked_hash. destruct (ev_password_hash v); intros R; [by read_run R|].
  unbind R found w1 R1. unfold internal, user_find_by_id in R1. read_run R1.
  unbind R v0 w2 R2. read_run R2. read_run R. destruct (t_users (w_db w) !! ev_user_id v); [|done].
  cbn in *. by simplify_eq.
Qed.

(** An address is verified only with an unused link in time and the password
    of the registration that sent it (the account's own for a link that carries
    none); a wrong password, like every refusal and failure, changes no table,
    so the link can still be used by its owner.  A pending account is activated
    with exactly the password that was proven, all its other links stop working,
    and no other account nor any session changes. *)
Theorem verify_email_sound raw pw ip rid (w : World) :
  users_keyed (w_db w) -> (forall v, v ∈ t_verifications (w_db w) -> together v) ->
  verify_outcome raw pw w (verify_email raw pw ip rid w).
Proof.
  intros Hk Ht. unfold verify_email. set (Q := verify_outcome raw pw w).
  assert (forall w1 e, same_db w w1 -> Q (w1, Err e)) as He by (intros w1 e [Hd _]; left; cbn; eauto).
  apply (quiet_then Q); [tables_auto|done|]. intros [] w1 _ S1.
  apply (quiet_then Q); [tables_auto|by intros w2 e S2; apply He; eapply frame_trans|].
  intros v w2 R2 S2. apply check_token_Ok in R2 as (Hf & Hu & Hx).
  destruct S1 as [D1 [N1 W1]]. rewrite D1, N1 in *.
  assert (together v) as Hv by (by apply Ht, list_elem_of_In, (find_some _ _ Hf)).
  assert (same_db w w2) as S02 by (by eapply (frame_trans _ w1)).
  apply (quiet_then Q); [tables_auto|by intros w3 e S3; apply He; eapply frame_trans|].
  intros h w3 R3 S3. apply expected_hash_Ok in R3. rewrite (proj1 S02) in R3.
  assert (same_db w w3) as S03 by (by eapply frame_trans).
  apply (quiet_then Q); [tables_auto|by intros w4 e S4; apply He; eapply frame_trans|].
  intros ok w4 R4 S4. read_run R4. assert (same_db w w3) as [D3 _] by done.
  destruct ok; cbn [negb]; [|by left; cbn; eauto].
  destruct (transaction Internal (activate v ip rid) w3) as [w5 r5] eqn:E5.
  apply transaction_run in E5 as [[[e ->] D5]|(w6 & x & R6 & D5 & _ & _)]; [left; cbn; rewrite D5; eauto|].
  right. exists v, h. split_and!; try done. cbn. rewrite D5, <- D3.
  eapply (activate_Ok v h ip rid (bump_io w3)); cbn; by rewrite ?D3.
Qed.
End Verify.

(** * Sign-in links *)

Section Magic.
Context `{RedisServer} `{Env} `{TimeCrate} `{CryptoCrates} `{SqlText} `{IpNetworkCrate} `{Jwt}.
Context `{MacCrate} `{HyperLogLog} `{Passwords} `{PreAuthSerde}.

Definition find_magic (raw : str) (d : Db) : option MagicLinkToken :=
  List.find (fun v => bool_decide (ml_token_hash v = hash_token raw)) (l_magic_links (t_links d)).

(** None of the account's sign-in links is usable. *)
Definition no_magic (uid : Uuid) (d : Db) : Prop :=
  forall v, v ∈ l_magic_links (t_links d) -> ml_user_id v = uid -> is_Some (ml_used_at v).

#[export] Instance no_magic_depends uid : Depends (no_magic uid) [TMagicLinks].
Proof. intros d d' Ha. unfold no_magic. by rewrite (Ha TMagicLinks) by (by apply list_elem_of_singleton). Qed.

(** The primary key of the table. *)
Definition magic_keyed (d : Db) : Prop := NoDup (map ml_id (l_magic_links (t_links d))).

Lemma consume_magic_Ok v (w w' : World) :
  magic_keyed (w_db w) -> v ∈ l_magic_links (t_links (w_db w)) ->
  internal (consume_magic_link (ml_id v)) w = (w', Ok true) -> no_magic (ml_user_id v) (w_db w').
Proof.
  intros Hk Hv R. unfold internal, consume_magic_link in R. apply map_err_Ok in R. unbind R c w1 R1.
  apply ret_Ok in R as [Hc ->]. destruct c as [[]|]; [|done]. apply try_transaction_Ok in R1 as (w2 & R2 & ->).
  unbind R2 o w3 R3. apply execute_Ok in R3 as [E3 _]. cbn in E3. injection E3 as E3 Eo.
  destruct (List.find _ _) as [v'|] eqn:Ef; cbn in Eo; subst o; [|by apply ret_Ok in R2 as [[=] _]].
  assert (v' = v) as ->.
  { eapply (find_unique ml_id); [exact Hk|exact Hv|exact Ef|].
    by apply find_some in Ef as [_ [Hi%bool_decide_eq_true _]%andb_prop]. }
  unbind R2 x w4 R4. apply ret_Ok in R2 as [_ ->]. apply execute_Ok in R4 as [E4 _]. injection E4 as <- _.
  intros l (l0 & _ & [[_ ->]|[Hp ->]])%update_where_elem Hu; [by eexists|].
  unfold unused_of in Hp. apply andb_false_iff in Hp as [Hp|Hp]; apply bool_decide_eq_false in Hp; [done|].
  by apply not_eq_None_Some.
Qed.

Record magic_proven (raw : str) (ip : option IpNetwork) (w w' : World) (res : LoginResult) : Prop := {
  mp_enabled : magic_links (cfg_security config) = true;
  mp_link : exists v r, find_magic raw (w_db w) = Some v /\ ml_used_at v = None /\ w_now w <= ml_expires_at v /\
    t_users (w_db w) !! ml_user_id v = Some r /\
    u_status (ur_user r) = ActiveUser /\ outcome w w' (ur_user r) None ip res /\ no_magic (ml_user_id v) (w_db w');
}.

Lemma complete_magic_Ok raw ip ua dn rm rid (w w' : World) (res : LoginResult) :
  magic_keyed (w_db w) -> complete_magic_link raw ip ua dn rm rid w = (w', Ok res) ->
  magic_proven raw ip w w' res.
Proof.
  intros Hk R. unfold complete_magic_link in R. unbind R x0 w0 R0. read_run R0.
  unfold ensure_magic_links_enabled in R0. destruct (magic_links _) eqn:Em; [|done]. constructor; [done|].
  unbind R x1 w1 R1. apply (keeps_run same_db) in R1 as [D1 C1]; [|tables_auto].
  unbind R v w2 R2. pose proof R2 as [D2 C2]%(keeps_run same_db); [|tables_auto].
  apply check_token_Ok in R2 as (Hf & Hu & Hx). rewrite D1, (proj1 C1) in *.
  unbind R consumed w3 R3. destruct consumed; cbn [negb] in R; [|by apply fail_Ok in R].
  pose proof R3 as [A3 C3]%(keeps_run (leaves [TSessions; TUsers; TMethods])); [|tables_auto].
  assert (v ∈ l_magic_links (t_links (w_db w2))) as Hv by (rewrite D2; by apply list_elem_of_In, (find_some _ _ Hf)).
  apply consume_magic_Ok in R3; [|unfold magic_keyed; by rewrite D2|done].
  unbind R found w4 R4. unfold internal, user_find_by_id in R4. read_run R4. destruct R4 as [D4 C4].
  unbind R usr w5 R5. read_run R5. unbind R x6 w6 R6. read_run R6.
  rewrite (A3 TUsers), D2 in R5 by set_solver.
  destruct (t_users (w_db w) !! ml_user_id v) as [r|] eqn:Er; cbn in R5; [|done]. injection R5 as <-.
  exists v, r. split_and!; try done.
  - unfold ensure_account_usable, ensure_status_allows_sign_in in R6. by destruct (u_status (ur_user r)).
  - apply first_factor_proven_Ok in R. revert R. unfold outcome, primary_of, one_more_session, same_accounts.
    rewrite D4, (A3 TMethods), (A3 TSessions), (A3 TUsers), D2 by set_solver. unfold same_clocks in *.
    destruct res; [done|]. intuition congruence.
  - rewrite <- D4 in R3. eapply (keeps_run (pres (no_magic (ml_user_id v)))) in R; [by apply R|]. tables_auto.
Qed.

(** A sign-in link opens an account only when such links are enabled, the
    link is one that was sent, unused and in time, and its account is active.
    It is a first factor only: an account with a primary second factor is asked
    for it, and its sessions do not change; without one, exactly one session is
    opened.  Once it worked, none of the account's sign-in links works. *)
Theorem magic_link_sound raw ip ua dn rm rid (w w' : World) (res : LoginResult) :
  magic_keyed (w_db w) -> complete_magic_link raw ip ua dn rm rid w = (w', Ok res) ->
  magic_proven raw ip w w' res.
Proof. apply complete_magic_Ok. Qed.
End Magic.

(** * Registration *)

Section Registration.
Context `{RedisServer} `{Env} `{TimeCrate} `{CryptoCrates} `{SqlText} `{IpNetworkCrate} `{Jwt}.
Context `{MacCrate} `{HyperLogLog} `{Passwords} `{PreAuthSerde} `{Web} `{Pwned.Sha1Crate}.

(** The account at an address. *)
Definition at_address (email : str) (d : Db) : option User :=
  ur_user <$> List.find (fun r => citext_eqb (u_email (ur_user r)) email) (all_users d).

(** Accounts, what opens them and what they may do. *)
Definition owned : list table :=
  [TUsers; TSessions; TUserRoles; TMethods; TRecoveryCodes; TPasskeys; TIdentities; TTokens; TResets; TMagicLinks].

Lemma keeps_register_existing v n h l ip ua rid : keeps (leaves owned) (register_existing v n h l ip ua rid).
Proof. unfold owned. tables_auto. Qed.

(** Registering an address that has an account leaves every account as it
    was, with its password, its sessions, its roles and its ways in, and never
    answers with an account, whatever name and password were given and whatever
    failed: nobody takes over an account by registering again. *)
Theorem register_spares_accounts n email pw l ip ua rid (w : World) :
  is_Some (at_address email (w_db w)) ->
  let run := register n email pw l ip ua rid w in
  leaves owned w run.1 /\ forall v, run.2 <> Ok (Some v).
Proof.
  intros [v0 Hv]. cbn zeta. unfold register. set (Q := fun run : World * result (option User) AppError =>
    leaves owned w run.1 /\ forall v, run.2 <> Ok (Some v)).
  assert (forall w1, same_db w w1 -> leaves owned w w1) as Hs by (intros w1 [D C]; split; [intros; by rewrite D; apply agree_refl|done]).
  assert (forall w1 e, same_db w w1 -> Q (w1, Err e)) as He by (intros w1 e S1; split; [auto|done]).
  apply (quiet_then Q); [tables_auto|done|]. intros [] w1 _ S1.
  cut (Q (register_account n email pw l ip ua rid w1)).
  { unfold padded, padded_since, Q. destruct (register_account _ _ _ _ _ _ _ w1) as [w2 r2]. cbn.
    intros [HL Hr]. split; [|done]. eapply frame_trans; [exact HL|]. apply frame_sleep. }
  unfold register_account.
  apply (quiet_then Q); [tables_auto|by intros w2 e S2; apply He; eapply frame_trans|]. intros b w2 _ S2.
  assert (same_db w w2) as S02 by (by eapply frame_trans). destruct b; [by apply He|].
  apply (quiet_then Q); [tables_auto|by intros w3 e S3; apply He; eapply frame_trans|]. intros [] w3 _ S3.
  assert (same_db w w3) as S03 by (by eapply frame_trans).
  apply (quiet_then Q); [tables_auto|by intros w4 e S4; apply He; eapply frame_trans|]. intros h w4 R4 S4. read_run R4.
  apply (quiet_then Q); [tables_auto|by intros w5 e S5; apply He; eapply frame_trans|]. intros o w5 R5 S5.
  unfold internal, user_find_by_email in R5. read_run R5. rewrite (proj1 S03).
  fold (at_address email (w_db w)). rewrite Hv.
  pose proof (keeps_register_existing v0 n h l ip ua rid w5) as K.
  unfold mbind, M_bind. destruct (register_existing v0 n h l ip ua rid w5) as [w6 [x|e]]; (split; [|done]); cbn in *;
    (eapply frame_trans; [apply Hs; eapply frame_trans; [exact S03|exact S5]|exact K]).
Qed.
End Registration.

(** * Witnesses *)

Section Witnesses.
Import Run.
#[local] Existing Instance calm.

#[local] Existing Instance Pwned.toy_sha1.

(** Nothing is listed. *)
#[local] Instance quiet_web : Web :=
  {| http_range _ _ := Some []; http_captcha _ _ _ _ := Captcha.NoReply |}.

Definition a_link (raw : str) : PasswordResetToken :=
  {| pr_id := 500%N; pr_user_id := 7%N; pr_token_hash := hash_token raw; pr_created_at := 0;
     pr_expires_at := 1000 * NS; pr_used_at := None; pr_request_ip := None; pr_request_user_agent := None |}.

Definition a_magic_link (raw : str) : MagicLinkToken :=
  {| ml_id := 501%N; ml_user_id := 7%N; ml_token_hash := hash_token raw; ml_created_at := 0;
     ml_expires_at := 1000 * NS; ml_used_at := None; ml_request_ip := None; ml_request_user_agent := None |}.

(** The account was registered a second time before it was verified. *)
Definition a_verification (raw : str) : EmailVerificationToken :=
  {| ev_id := 502%N; ev_user_id := 7%N; ev_token_hash := hash_token raw; ev_created_at := 0;
     ev_expires_at := 1000 * NS; ev_used_at := None; ev_request_ip := None; ev_request_user_agent := None;
     ev_target_email := u"ada@example.org"; ev_password_hash := Some (toy_hash u"second");
     ev_username := Some u"ada2"; ev_preferred_locale := Some u"fr" |}.

Definition mailed : World :=
  with_db (fun d => set_resets (fun _ => [a_link u"reset"])
    (set_magic_links (fun _ => [a_magic_link u"magic"]) d)) world.

Definition registered : World :=
  with_db (fun d => set_verifications (fun _ => [a_verification u"verify"])
    (set_users (fun _ => {[ 7%N := {| ur_user := with_email_verified_at None (with_status PendingVerification user);
                                      ur_lockout_cleared_at := None |} ]}) d)) world.

Lemma mailed_wf : accounts_wf (w_db mailed).
Proof.
  change (users_wf ({[ 7%N := {| ur_user := user; ur_lockout_cleared_at := None |} ]} : gmap Uuid UserRow)).
  split.
  - by intros i r [<- <-]%lookup_singleton_Some.
  - intros i r [<- <-]%lookup_singleton_Some. by vm_compute.
  - by intros i j r r' [<- _]%lookup_singleton_Some [<- _]%lookup_singleton_Some.
  - by intros i j r r' [<- _]%lookup_singleton_Some [<- _]%lookup_singleton_Some.
Qed.

Lemma registered_keyed : users_keyed (w_db registered).
Proof.
  intros i r Hr. unfold registered, with_db, set_users in Hr. cbn in Hr.
  by apply lookup_singleton_Some in Hr as [<- <-].
Qed.

Lemma reset_commits_witness :
  let run := reset_password u"reset" u"new password" None None mailed in
  run.2 = Ok tt /\ reset_outcome u"reset" u"new password" None None mailed run.
Proof.
  intros run. split; [vm_compute; reflexivity|].
  apply (reset_commits u"reset" u"new password" None None mailed). exact (wf_keyed _ mailed_wf).
Defined.

Lemma reset_link_once_witness :
  let w1 := (reset_password u"reset" u"new password" None None mailed).1 in
  let run := reset_password u"reset" u"another" None None w1 in
  w_db run.1 = w_db w1 /\ exists e, run.2 = Err e.
Proof.
  intros w1. apply (reset_link_once u"reset" u"new password" u"another" None None None None mailed w1 w1 tt).
  - apply mailed_wf.
  - refine (run_answer (reset_password u"reset" u"new password" None None) mailed (Ok tt) _).
    vm_compute. reflexivity.
  - reflexivity.
Defined.

Lemma verify_email_sound_witness :
  let run := verify_email u"verify" u"second" None None registered in
  run.2 = Ok tt /\ verify_outcome u"verify" u"second" registered run.
Proof.
  intros run. split; [vm_compute; reflexivity|].
  apply (verify_email_sound u"verify" u"second" None None registered).
  - apply registered_keyed.
  - intros v Hv. apply list_elem_of_singleton in Hv as ->. intros _. split; eexists; reflexivity.
Defined.

Lemma magic_link_sound_witness :
  let run := complete_magic_link u"magic" None None None false None mailed in
  exists res, run.2 = Ok res /\ magic_proven u"magic" None mailed run.1 res.
Proof.
  intros run. destruct run.2 as [res|e] eqn:E; [|exfalso; revert E; vm_compute; discriminate].
  exists res. split; [reflexivity|].
  apply (magic_link_sound u"magic" None None None false None mailed run.1 res).
  - apply NoDup_singleton.
  - apply run_answer. exact E.
Defined.

Lemma register_spares_accounts_witness :
  let run := register u"eve" u"ADA@example.org" u"mine" u"en" None None None world in
  run.2 = Ok None /\ leaves owned world run.1.
Proof.
  intros run. split; [vm_compute; reflexivity|].
  apply (register_spares_accounts u"eve" u"ADA@example.org" u"mine" u"en" None None None world).
  vm_compute. eexists. reflexivity.
Defined.
End Witnesses.
