(* ===== verification/SelfService.v ===== *)
(** What a signed-in account does to itself: the re-authentication that guards
    sensitive actions (src/src/services/reauth.rs), its profile, password and
    deletion (services/user.rs), its sessions (services/session.rs) and its
    personal access tokens (services/personal_access_token.rs). *)
From S2P Require Import Prelude Crates Session Account OAuthDomain Network Edge Crypto Tables App Outside RedisCounter SessionRepo Repos Tokens UserRepo AccessRepo TokenRepo Refresh Login SecondFactor OneTime.
Import Account.User Account.LoginAttempt Account.Audit Account.TwoFactor Account.Token Account.Role OAuthDomain.Pat.

(** * Re-authentication *)

Definition REAUTH_FAIL_TTL_SECS : Z := 3600.
Definition REAUTH_ACCOUNT_CEILING_FACTOR : Z := 3.

Section Reauth.
Context `{RedisServer} `{Env} `{TimeCrate} `{CryptoCrates} `{SqlText} `{Passwords}.

Definition reauth_fail_key (user_id : Uuid) : str := u"reauth_failures:" ++ uuid_str user_id.

Definition session_reauth_fail_key (user_id session_id : Uuid) : str :=
  u"reauth_failures:" ++ uuid_str user_id ++ [58] ++ uuid_str session_id.

(** [threshold.saturating_mul(REAUTH_ACCOUNT_CEILING_FACTOR)] *)
Definition account_ceiling (threshold : Z) : Z := Z.min I64_MAX (threshold * REAUTH_ACCOUNT_CEILING_FACTOR).

Definition reauth_budgets (user_id session_id : Uuid) : list Budget :=
  let threshold := lockout_threshold (cfg_security config) in
  [{| bg_key := session_reauth_fail_key user_id session_id; bg_limit := threshold;
      bg_window_secs := REAUTH_FAIL_TTL_SECS |};
   {| bg_key := reauth_fail_key user_id; bg_limit := account_ceiling threshold;
      bg_window_secs := REAUTH_FAIL_TTL_SECS |}].

(** The attempt is counted before the password is looked at: against the
    session first, which stops counting against the account once exhausted. *)
Definition verify_password (user_id session_id : Uuid) (password : str) : M AppError unit :=
  found ← internal (user_find_by_id user_id);
  user ← ok_or found NotFound;
  attempted ← consume_in_order (reauth_budgets user_id session_id);
  if exceeded attempted then fail AccountLocked
  else
    valid ← ok_or (password_verify password (u_password_hash user)) Internal;
    if negb valid then
      fail (if lockout_threshold (cfg_security config) <=? first_count attempted
            then AccountLocked else ReauthenticationFailed)
    else reset [session_reauth_fail_key user_id session_id; reauth_fail_key user_id].

(** The marker holds when the password was proved. *)
Definition mark_recent_reauth (session_id : Uuid) : M AppError unit :=
  let ttl := sensitive_action_reauth_secs (cfg_security config) in
  if ttl =? 0 then mret tt
  else
    now ← clock_now;
    best_effort (fun s t => r_set_ex s t (reauth_key session_id) (RInt (unix_timestamp now)) ttl).

Definition reauth_proven_at (session_id : Uuid) : M AppError (option Z) :=
  conn ← attempt redis_conn;
  match conn with
  | Err _ => mret None
  | Ok _ =>
      value ← attempt (redis_cmd (fun s t =>
        (s, match r_get s t (reauth_key session_id) with Some (RInt n) => Some n | _ => None end)));
      mret (match value with Ok v => v | Err _ => None end)
  end.

Definition has_recent_reauth (session_id : Uuid) : M AppError bool :=
  conn ← attempt redis_conn;
  match conn with
  | Err _ => mret false
  | Ok _ =>
      seen ← attempt (redis_cmd (fun s t => (s, r_exists s t (reauth_key session_id))));
      mret (match seen with Ok b => b | Err _ => false end)
  end.

Definition record_reauth_event (user_id : Uuid) (ip : option IpNetwork) (request_id : option Uuid)
    (reason : str) : M AppError unit :=
  internal (audit_append {| na_user_id := Some user_id; na_request_id := request_id;
    na_action := Reauthenticated; na_ip_address := ip; na_metadata := JObj [(u"reason", JStr reason)] |}).

Definition reauthenticate (user_id session_id : Uuid) (current_password : str) (ip : option IpNetwork)
    (request_id : option Uuid) (reason : str) : M AppError unit :=
  _ ← verify_password user_id session_id current_password;
  _ ← record_reauth_event user_id ip request_id reason;
  mark_recent_reauth session_id.

Definition require_recent_reauth_or_password (user_id session_id : Uuid) (current_password : option str)
    (ip : option IpNetwork) (request_id : option Uuid) (reason : str) : M AppError unit :=
  match current_password with
  | Some current_password => reauthenticate user_id session_id current_password ip request_id reason
  | None =>
      recent ← has_recent_reauth session_id;
      if recent : bool then mret tt else fail ReauthenticationRequired
  end.
End Reauth.

(** * The account (services/user.rs) *)

Section Profile.
Context `{RedisServer} `{Env} `{TimeCrate} `{CryptoCrates} `{SqlText} `{IpNetworkCrate} `{Jwt}.
Context `{MacCrate} `{HyperLogLog} `{Passwords} `{PreAuthSerde} `{Web} `{Pwned.Sha1Crate}.

Definition get_profile (user_id : Uuid) : M AppError User :=
  found ← internal (user_find_by_id user_id);
  ok_or found NotFound.

Definition change_username (user_id : Uuid) (new_username : str) (ip : option IpNetwork)
    (request_id : option Uuid) : M AppError unit :=
  unavailable ← internal (username_unavailable new_username);
  if unavailable : bool then fail (Conflict u"username_taken")
  else
    transaction Internal (
      _ ← map_err (fun e => from_unique_violation e [(USERS_USERNAME_KEY, u"username_taken")])
            (update_username user_id new_username);
      internal (audit_append {| na_user_id := Some user_id; na_request_id := request_id;
        na_action := UsernameChanged; na_ip_address := ip; na_metadata := JObj [] |})).

(** What the new password commits. *)
Definition replace_password (user_id current_session_id : Uuid) (new_hash : str)
    (keep_current_session : bool) (ip : option IpNetwork) (request_id : option Uuid) : M AppError unit :=
  _ ← internal (update_password_hash user_id new_hash);
  _ ← internal (clear_lockout user_id);
  _ ← internal (revoke_mailbox_links user_id);
  _ ← (if keep_current_session then internal (revoke_others user_id current_session_id)
       else internal (revoke_all_by_user user_id));
  _ ← internal (audit_append {| na_user_id := Some user_id; na_request_id := request_id;
        na_action := PasswordChanged; na_ip_address := ip; na_metadata := JObj [] |});
  _ ← enqueue u"user.password_changed" (user_payload user_id);
  enqueue u"user.sessions_revoked" (user_payload user_id).

(** The sessions a change of the account ends. *)
Definition ending (keep_current_session : bool) (current_session_id : Uuid) (sessions : list Session) :
    list Session :=
  List.filter (fun s => negb keep_current_session || negb (bool_decide (s_id s = current_session_id)))
    sessions.

Definition change_password (user_id current_session_id : Uuid) (current_password : option str)
    (new_password : str) (keep_current_session : bool) (ip : option IpNetwork) (request_id : option Uuid) :
    M AppError unit :=
  _ ← require_recent_reauth_or_password user_id current_session_id current_password ip request_id
        u"change_password";
  found ← internal (user_find_by_id user_id);
  user ← ok_or found NotFound;
  if bool_decide (u_email_verified_at user = None) then fail EmailNotVerified
  else
    _ ← ensure_not_breached new_password;
    new_hash ← ok_or (password_hash new_password) Internal;
    sessions ← internal (find_active_by_user user_id);
    _ ← transaction Internal
          (replace_password user_id current_session_id new_hash keep_current_session ip request_id);
    _ ← invalidate_session_caches (map s_id (ending keep_current_session current_session_id sessions));
    _ ← reset [login_try_key user_id];
    _ ← purge_user_pre_auth_and_email_change (u_id user);
    notify_password_changed user [].

(** What a deletion commits; the sessions that go with the account. *)
Definition erase_in_tx (user_id : Uuid) (metadata : json) (ip : option IpNetwork)
    (request_id : option Uuid) : M AppError (list Session) :=
  _ ← internal (lock_row user_id);
  sessions ← internal (find_active_by_user user_id);
  manages_roles ← internal (user_has_permission user_id ROLES_MANAGE);
  _ ← internal (audit_append {| na_user_id := Some user_id; na_request_id := request_id;
        na_action := AccountDeleted; na_ip_address := ip; na_metadata := metadata |});
  _ ← enqueue u"user.deleted" (user_payload user_id);
  _ ← internal (erase user_id);
  _ ← (if manages_roles : bool then keep_an_administrator else mret tt);
  mret sessions.

Definition erase_account (user_id : Uuid) (metadata : json) (ip : option IpNetwork)
    (request_id : option Uuid) : M AppError unit :=
  sessions ← transaction Internal (erase_in_tx user_id metadata ip request_id);
  invalidate_session_caches (map s_id sessions).

Definition delete_account (user_id current_session_id : Uuid) (current_password : option str)
    (ip : option IpNetwork) (request_id : option Uuid) : M AppError unit :=
  _ ← require_recent_reauth_or_password user_id current_session_id current_password ip request_id
        u"delete_account";
  found ← internal (user_find_by_id user_id);
  _ ← ok_or found NotFound;
  erase_account user_id (JObj []) ip request_id.

Definition change_locale (user_id : Uuid) (locale : str) : M AppError unit :=
  internal (update_locale user_id locale).

Definition reauthenticate_on_request (user_id session_id : Uuid) (current_password : str)
    (ip : option IpNetwork) (request_id : option Uuid) : M AppError unit :=
  reauthenticate user_id session_id current_password ip request_id u"user_initiated".
End Profile.

(** * Its sessions (services/session.rs) *)

Section OwnSessions.
Context `{RedisServer} `{Env} `{TimeCrate} `{CryptoCrates} `{SqlText} `{Passwords}.

Definition revoke_own (user_id current_session_id session_id : Uuid) (current_password : option str)
    (ip : option IpNetwork) (request_id : option Uuid) : M AppError unit :=
  _ ← require_recent_reauth_or_password user_id current_session_id current_password ip request_id
        u"revoke_session";
  found ← internal (find_by_id session_id);
  session ← ok_or found NotFound;
  if negb (bool_decide (s_user_id session = user_id)) then fail Forbidden
  else
    _ ← transaction Internal (
          _ ← internal (revoke session_id);
          internal (audit_append {| na_user_id := Some user_id; na_request_id := request_id;
            na_action := SessionRevoked; na_ip_address := ip;
            na_metadata := JObj [(u"session_id", JStr (uuid_str session_id))] |}));
    _ ← blocklist_refresh_token (s_token_hash session) (s_expires_at session);
    _ ← invalidate_session_cache (s_id session);
    clear_recent_reauth (s_id session).

(** Their tokens and markers, one by one. *)
Fixpoint forget_each (sessions : list Session) : M AppError unit :=
  match sessions with
  | [] => mret tt
  | s :: rest =>
      _ ← blocklist_refresh_token (s_token_hash s) (s_expires_at s);
      _ ← clear_recent_reauth (s_id s);
      forget_each rest
  end.

Definition revoke_all (user_id current_session_id : Uuid) (current_password : option str)
    (keep_current_session : bool) (ip : option IpNetwork) (request_id : option Uuid) : M AppError Z :=
  _ ← require_recent_reauth_or_password user_id current_session_id current_password ip request_id
        u"revoke_all_sessions";
  sessions ← internal (find_active_by_user user_id);
  let active := ending keep_current_session current_session_id sessions in
  count ← transaction Internal (
    count ← (if keep_current_session then internal (revoke_others user_id current_session_id)
             else internal (revoke_all_by_user user_id));
    _ ← internal (audit_append {| na_user_id := Some user_id; na_request_id := request_id;
          na_action := SessionRevoked; na_ip_address := ip;
          na_metadata := JObj [(u"all", JBool (negb keep_current_session));
                               (u"count", JNum (JInt count))] |});
    _ ← enqueue u"user.sessions_revoked" (user_payload user_id);
    mret count);
  _ ← invalidate_session_caches (map s_id active);
  _ ← forget_each active;
  mret count.
End OwnSessions.

(** * Its personal access tokens (services/personal_access_token.rs) *)

Record CreatedToken := { ct_token : PersonalAccessToken; ct_secret : str }.
Record ExchangedToken := { xt_access_token : str; xt_expires_in : Z }.

Section OwnTokens.
Context `{RedisServer} `{Env} `{TimeCrate} `{CryptoCrates} `{SqlText} `{IpNetworkCrate} `{Jwt}.
Context `{MacCrate} `{HyperLogLog} `{Passwords} `{PreAuthSerde}.

(** The token and the session that carries it. *)
Definition open_token (user_id : Uuid) (name random : str) (scopes : list str) (expires_at : Z)
    (ip : option IpNetwork) (request_id : option Uuid) : M AppError PersonalAccessToken :=
  _ ← internal (query (fun _ _ => tt));
  active ← internal (AccessRepo.count_active_by_user user_id);
  if MAX_ACTIVE_PER_ACCOUNT <=? active then fail (Conflict u"too_many_tokens")
  else
    family ← new_v4;
    unkept ← generate_token;
    session ← internal (create {| ns_user_id := user_id; ns_family := family; ns_expires_at := expires_at;
                ns_ip_address := ip; ns_device_name := Some name; ns_remember_me := false;
                ns_token_hash := hash_token unkept; ns_user_agent := None;
                ns_session_type := Session.PersonalAccessToken; ns_client_id := None;
                ns_family_created_at := None; ns_scopes := Some scopes; ns_mfa := false |});
    token ← internal (pat_create {| npt_user_id := user_id; npt_session_id := s_id session;
              npt_name := name; npt_token_hash := hash_token random; npt_scopes := scopes;
              npt_expires_at := expires_at |});
    _ ← internal (audit_append {| na_user_id := Some user_id; na_request_id := request_id;
          na_action := PersonalAccessTokenCreated; na_ip_address := ip;
          na_metadata := JObj [(u"scopes", JArr (map JStr scopes));
                               (u"token_id", JStr (uuid_str (pat_id token)))] |});
    mret token.

Definition token_create (user_id current_session_id : Uuid) (name : str) (scopes : list str)
    (lifetime_days : option Z) (ip : option IpNetwork) (request_id : option Uuid) : M AppError CreatedToken :=
  name ← ok_or (valid_name name)
           (Validation u"name must be 1 to 100 characters without control characters");
  let lifetime_days := default DEFAULT_LIFETIME_DAYS lifetime_days in
  if negb ((1 <=? lifetime_days) && (lifetime_days <=? MAX_LIFETIME_DAYS))
  then fail (Validation u"expires_in_days must be between 1 and 365")
  else
    rbac ← internal (find_rbac_names user_id);
    scopes ← lift (match grantable_scopes scopes rbac.2 with
                   | Ok scopes => Ok scopes
                   | Err missing => Err (Validation (u"scopes not held by the account: " ++ join u", " missing))
                   end);
    _ ← require_recent_reauth_or_password user_id current_session_id None ip request_id
          u"create_personal_access_token";
    random ← generate_token;
    now ← clock_now;
    token ← transaction Internal
              (open_token user_id name random scopes (now + lifetime_days * seconds 86400) ip request_id);
    _ ← notify_access_added user_id {| ai_kind := u"personal_access_token"; ai_name := pat_name token |};
    mret {| ct_token := token; ct_secret := format_token random |}.

Definition token_list (user_id : Uuid) : M AppError (list PersonalAccessToken) :=
  internal (pats_find_active_by_user user_id).

Definition token_revoke (user_id id : Uuid) (ip : option IpNetwork) (request_id : option Uuid) :
    M AppError unit :=
  found ← internal (find_owned id user_id);
  token ← ok_or found NotFound;
  _ ← internal (revoke (pat_session_id token));
  _ ← invalidate_session_caches [pat_session_id token];
  internal (audit_append {| na_user_id := Some user_id; na_request_id := request_id;
    na_action := PersonalAccessTokenRevoked; na_ip_address := ip;
    na_metadata := JObj [(u"token_id", JStr (uuid_str (pat_id token)))] |}).

Definition token_exchange (presented : str) : M AppError ExchangedToken :=
  random ← ok_or (random_part presented) TokenInvalid;
  found ← internal (pat_find_by_hash (hash_token random));
  found ← ok_or found TokenInvalid;
  if bool_decide (is_Some (pt_session_revoked_at found)) then fail TokenInvalid
  else
    now ← clock_now;
    if pat_expires_at (pt_token found) <=? now then fail TokenExpired
    else
      user ← internal (user_find_by_id (pat_user_id (pt_token found)));
      user ← ok_or user TokenInvalid;
      _ ← lift (ensure_account_usable user);
      _ ← internal (touch (pt_token found));
      access_token ← build_access_token (u_id user) (pat_session_id (pt_token found))
                       (Some (pat_scopes (pt_token found))) None Session.PersonalAccessToken;
      mret {| xt_access_token := access_token; xt_expires_in := access_expiry_secs (cfg_jwt config) |}.
End OwnTokens.

#[global] Arguments reauth_fail_key {_} _ : simpl never.
#[global] Arguments session_reauth_fail_key {_} _ _ : simpl never.
