(* ===== verification/Guard.v ===== *)
(** Re-authentication in front of sensitive requests (src/src/services/reauth.rs):
    what being proven means, and that a request refused by the guard leaves the
    tables as they were. *)
From S2P Require Import Prelude Crates Session Account OAuthDomain Network Edge Crypto Tables App Outside RedisCounter SessionRepo Repos Tokens UserRepo AccessRepo TokenRepo AccountsOk Scenario TokensCorrect Refresh RefreshCorrect Login LoginCorrect SecondFactor SecondFactorCorrect OneTime OneTimeCorrect SelfService.
Import Account.User.

Section Guarded.
Context `{RedisServer} `{Env} `{TimeCrate} `{CryptoCrates} `{SqlText} `{IpNetworkCrate} `{Jwt}.
Context `{MacCrate} `{AeadCrate} `{TotpCrate} `{HyperLogLog} `{Passwords} `{PreAuthSerde} `{Web} `{Pwned.Sha1Crate}.
Context `{UrlCrate}.

(** The session has no live marker, or the password carried is not the
    account's. *)
Definition unproven (uid sid : Uuid) (current : option str) (w : World) : Prop :=
  match current with
  | None => r_exists (w_redis w) (w_wall w) (reauth_key sid) = false
  | Some password =>
      forall r, t_users (w_db w) !! uid = Some r -> password_verify password (u_password_hash (ur_user r)) <> Some true
  end.

(** Reads only: not a table, not Redis, not the clock. *)
Definition still (w w' : World) : Prop :=
  w_db w' = w_db w /\ w_redis w' = w_redis w /\ w_wall w' = w_wall w.

#[export] Instance still_frame : CoreFrame still.
Proof. constructor; unfold still; try done. naive_solver congruence. Qed.

Lemma unproven_still uid sid cur (w w' : World) : still w w' -> unproven uid sid cur w -> unproven uid sid cur w'.
Proof. intros (D & S & T). unfold unproven. by rewrite D, S, T. Qed.

(** The operation is refused and the tables are as they were. *)
Definition refused {A} (m : M AppError A) (w : World) : Prop :=
  w_db (m w).1 = w_db w /\ exists e, (m w).2 = Err e.

Lemma refused_fail {A} (e : AppError) (w : World) : refused (fail e : M AppError A) w.
Proof. split; [done|by exists e]. Qed.

Lemma refused_first {A B} (m : M AppError A) (k : A -> M AppError B) (w : World) : refused m w -> refused (m ≫= k) w.
Proof. unfold refused, mbind, M_bind. destruct (m w) as [w1 [a|e]]; intros [D [e' He]]; [done|by split; [|eexists]]. Qed.

Lemma refused_after {A B} (m : M AppError A) (k : A -> M AppError B) (w : World) :
  keeps still m -> (forall a w1, still w w1 -> refused (k a) w1) -> refused (m ≫= k) w.
Proof.
  intros Hm Hk. specialize (Hm w). unfold refused, mbind, M_bind in *. destruct (m w) as [w1 [a|e]].
  - destruct (Hk a w1 Hm) as [D He]. split; [|done]. rewrite D. apply Hm.
  - split; [apply Hm|by exists e].
Qed.

(** After an operation that leaves the tables alone, whatever it does to Redis. *)
Lemma refused_then {A B} (m : M AppError A) (k : A -> M AppError B) (w : World) :
  keeps same_db m -> (forall a w1, m w = (w1, Ok a) -> refused (k a) w1) -> refused (m ≫= k) w.
Proof.
  intros Hm Hk. specialize (Hm w) as [Dm _]. unfold refused, mbind, M_bind in *. destruct (m w) as [w1 [a|e]].
  - destruct (Hk a w1 eq_refl) as [D He]. split; [|done]. by rewrite D.
  - split; [done|by exists e].
Qed.

(** What being unproven depends on. *)
Lemma unproven_kept uid sid cur (w w' : World) :
  w_db w' = w_db w -> w_wall w' = w_wall w -> dump (w_redis w') (reauth_key sid) = dump (w_redis w) (reauth_key sid) ->
  unproven uid sid cur w -> unproven uid sid cur w'.
Proof. intros D T K. unfold unproven, r_exists. by rewrite D, T, K. Qed.

Lemma has_recent_none sid (w w' : World) (b : bool) :
  r_exists (w_redis w) (w_wall w) (reauth_key sid) = false ->
  has_recent_reauth sid w = (w', Ok b) -> w_db w' = w_db w /\ b = false.
Proof.
  intros Hn R. assert (w_db w' = w_db w) as D by (eapply same_db_run, R; tables_auto). split; [done|].
  unfold has_recent_reauth in R. unbind R c w1 R1. apply attempt_run in R1 as (c' & R1 & [= ->]).
  destruct c' as [[]|]; [|by apply ret_Ok in R as [-> _]].
  assert (still w w1) as (_ & S1 & T1) by (eapply keeps_run, R1; frame_auto).
  unbind R seen w2 R2. apply attempt_run in R2 as (s & R2 & [= ->]). apply ret_Ok in R as [-> _].
  destruct s as [b'|]; [|done]. unfold redis_cmd, io in R2. destruct (io_plan _); try done.
  injection R2 as _ <-. by rewrite S1, T1.
Qed.

Lemma verify_password_wrong uid sid password (w : World) :
  unproven uid sid (Some password) w -> refused (verify_password uid sid password) w.
Proof.
  intros Hw. unfold verify_password. set (Q := fun run : World * result unit AppError =>
    w_db run.1 = w_db w /\ exists e, run.2 = Err e).
  change (Q ((internal (user_find_by_id uid) ≫= (fun found =>
    user ← ok_or found NotFound;
    attempted ← consume_in_order (reauth_budgets uid sid);
    if exceeded attempted then fail AccountLocked
    else
      valid ← ok_or (password_verify password (u_password_hash user)) Internal;
      if negb valid then
        fail (if lockout_threshold (cfg_security config) <=? first_count attempted
              then AccountLocked else ReauthenticationFailed)
      else reset [session_reauth_fail_key uid sid; reauth_fail_key uid])) w)).
  assert (forall w1 e, same_db w w1 -> Q (w1, Err e)) as He by (intros w1 e [D _]; split; [done|by exists e]).
  apply (quiet_then Q); [tables_auto|done|]. intros found w1 R1 S1.
  unfold internal, user_find_by_id in R1. apply map_err_Ok, query_Ok in R1 as [-> _].
  apply (quiet_then Q); [tables_auto|by intros w2 e S2; apply He; eapply frame_trans|]. intros v w2 R2 S2.
  apply ok_or_Ok in R2 as [Hv ->]. apply fmap_Some in Hv as (r & Hr & ->).
  apply (quiet_then Q); [tables_auto|by intros w3 e S3; apply He; eapply frame_trans|]. intros att w3 _ S3.
  assert (same_db w w3) as S03 by (by eapply frame_trans).
  destruct (exceeded att); [by apply He|].
  apply (quiet_then Q); [tables_auto|by intros w4 e S4; apply He; eapply frame_trans|]. intros valid w4 R4 S4.
  apply ok_or_Ok in R4 as [Hv ->]. destruct valid; [|by apply He]. by destruct (Hw _ Hr).
Qed.

Lemma guard_refuses uid sid cur ip rid reason (w : World) :
  unproven uid sid cur w -> refused (require_recent_reauth_or_password uid sid cur ip rid reason) w.
Proof.
  intros Hw. unfold require_recent_reauth_or_password. destruct cur as [password|].
  - unfold reauthenticate. apply refused_first. by apply verify_password_wrong.
  - unfold refused, mbind, M_bind. destruct (has_recent_reauth sid w) as [w1 [b|e]] eqn:R.
    + apply has_recent_none in R as [D ->]; [|done]. by split; [|eexists].
    + apply same_db_run in R; [|tables_auto]. by split; [|eexists].
Qed.
Definition proven (uid sid : Uuid) (current : option str) (w : World) : Prop :=
  match current with
  | None => r_exists (w_redis w) (w_wall w) (reauth_key sid) = true
  | Some password =>
      exists r, t_users (w_db w) !! uid = Some r /\ password_verify password (u_password_hash (ur_user r)) = Some true
  end.

Lemma guard_proves uid sid cur ip rid reason (w w' : World) (x : unit) :
  require_recent_reauth_or_password uid sid cur ip rid reason w = (w', Ok x) -> proven uid sid cur w.
Proof.
  intros R. assert (proven uid sid cur w \/ unproven uid sid cur w) as [|Hu]; [|done|].
  - unfold proven, unproven. destruct cur as [password|]; [|destruct (r_exists _ _ _); auto].
    destruct (t_users (w_db w) !! uid) as [r|] eqn:Er; [|right; done].
    destruct (password_verify password (u_password_hash (ur_user r))) as [[]|] eqn:Ev; [left; eauto|right..];
      intros r' [= <-]; congruence.
  - apply (guard_refuses _ _ _ ip rid reason) in Hu as [_ [e He]]. by rewrite R in He.
Qed.

End Guarded.

(** Membership in a list written out. *)
Ltac listed := repeat first [apply list_elem_of_here | apply list_elem_of_further].

(** Up to the guard a request only reads. *)
Ltac guarded :=
  repeat first
    [ apply refused_fail
    | apply guard_refuses; assumption
    | apply verify_password_wrong; assumption
    | lazymatch goal with
      | |- refused (_ ≫= _) _ =>
          first [ apply refused_first; solve [guarded]
                | apply refused_after; [solve [tables_auto]|];
                  let a := fresh "a" in let w1 := fresh "w" in let S := fresh "S" in
                  intros a w1 S; match goal with U : unproven _ _ _ ?w |- _ => apply (unproven_still _ _ _ w w1 S) in U end ]
      | |- refused (if ?c then _ else _) _ => destruct c
      | |- refused (match ?x with _ => _ end) _ => destruct x
      | |- refused ?m _ => let h := head_of m in unfold h
      end ].

