(* ===== verification/Factors.v ===== *)
(** Enrolling and removing second factors: TOTP with its recovery codes
    (src/src/services/two_factor.rs) and mailed codes (the setup half of
    services/email_2fa.rs). *)
From S2P Require Import Prelude Crates Session Account OAuthDomain Network Edge Crypto Tables App Outside RedisCounter SessionRepo Repos Tokens UserRepo AccessRepo TokenRepo Refresh Login SecondFactor OneTime SelfService.
Import Account.User Account.LoginAttempt Account.Audit Account.TwoFactor Account.Token Account.Role.

(** * TOTP (services/two_factor.rs, utils/totp.rs) *)

Definition MAX_TOTP_SETUP_FAILURES : Z := 5.
Definition TOTP_SETUP_FAILURE_WINDOW_SECS : Z := 900.
Definition TOTP_SETUP_FAIL_PREFIX : str := u"totp_setup_fail:".
Definition RC_REGEN_COOLDOWN_SECS : Z := 86400.

(** [utils::totp::percent_encode] *)
Definition unreserved (b : Z) : bool :=
  is_ascii_alphanumeric b || (b =? 45) || (b =? 95) || (b =? 46) || (b =? 126).

Definition percent_encode (input : str) : str :=
  concat (map (fun b => if unreserved b then [b] else 37 :: hex2_upper b) (as_bytes input)).

Definition qr_uri (base32_secret email issuer : str) : str :=
  u"otpauth://totp/" ++ percent_encode issuer ++ [58] ++ percent_encode email ++ u"?secret=" ++ base32_secret
  ++ u"&issuer=" ++ percent_encode issuer ++ u"&algorithm=SHA1&digits=6&period=30".

Record TotpSetupResult := { ts_method_id : Uuid; ts_base32_secret : str; ts_qr_uri : str }.

Section TwoFactorService.
Context `{RedisServer} `{Env} `{TimeCrate} `{CryptoCrates} `{SqlText} `{IpNetworkCrate} `{Jwt}.
Context `{MacCrate} `{AeadCrate} `{TotpCrate} `{HyperLogLog} `{Passwords} `{PreAuthSerde}.

Definition notify_two_factor_change (user : User) (method : str) (enabled : bool) : M AppError unit :=
  tell (add_mail {| m_kind := if enabled then TwoFactorEnabledMail method else TwoFactorDisabledMail method;
                    m_to := u_email user |}).

Definition create_or_restart_method (input : NewTwoFactorMethod) : M AppError TwoFactorMethod :=
  resumed ← internal (replace_pending input);
  match resumed with
  | Some resumed => mret resumed
  | None =>
      map_err (fun e => from_unique_violation e
        [(u"idx_2fa_user_totp", u"two_factor_already_enabled");
         (u"idx_2fa_user_email", u"two_factor_already_enabled")]) (method_create input)
  end.

Definition setup_totp (user_id current_session_id : Uuid) (current_password : option str)
    (ip : option IpNetwork) (request_id : option Uuid) : M AppError TotpSetupResult :=
  _ ← require_recent_reauth_or_password user_id current_session_id current_password ip request_id
        u"setup_totp";
  found ← internal (user_find_by_id user_id);
  user ← ok_or found NotFound;
  base32_secret ← generate_secret;
  nonce ← random_bytes 12;
  encrypted ← lift (match encrypt keyring nonce base32_secret (uuid_as_bytes user_id) with
                    | Ok e => Ok e | Err _ => Err Internal end);
  method ← create_or_restart_method
             {| nm_user_id := user_id; nm_method_type := TwoFactor.Totp; nm_totp_secret := Some encrypted |};
  mret {| ts_method_id := tf_id method; ts_base32_secret := base32_secret;
          ts_qr_uri := qr_uri base32_secret (u_email user) (cfg_totp_issuer config) |}.

(** Ten codes, each of ten random bytes. *)
Fixpoint generate_recovery_codes {E} (n : nat) : M E (list str) :=
  match n with
  | O => mret []
  | S n => b ← random_bytes 10; rest ← generate_recovery_codes n; mret (recovery_code b :: rest)
  end.

Definition hashed_codes (plaintext : list str) : list (Z * bytes) :=
  imap (fun i code => (Z.of_nat i + 1, sha256 (as_bytes code))) plaintext.

Definition create_recovery_codes (user_id : Uuid) : M AppError (list str) :=
  plaintext ← generate_recovery_codes 10;
  let days := cfg_recovery_code_expiry_days config in
  expires_at ← (if days =? 0 then mret None else at_ ← in_secs (days * 86400); mret (Some at_));
  _ ← internal (replace_all_by_user user_id (hashed_codes plaintext) expires_at);
  mret plaintext.

(** The method works from now on; primary when the account has no other. *)
Definition adopt_method (user_id method_id : Uuid) : M AppError unit :=
  _ ← internal (mark_verified method_id);
  primary ← internal (find_primary_by_user user_id);
  match primary with
  | Some _ => mret tt
  | None => internal (set_primary method_id user_id)
  end.

(** What enrolment ends with: recovery codes, the audit entry, the notice. *)
Definition enrolled (user_id : Uuid) (label : str) (request_id : option Uuid) : M AppError (list str) :=
  plaintext_codes ← create_recovery_codes user_id;
  _ ← internal (audit_append {| na_user_id := Some user_id; na_request_id := request_id;
        na_action := TwoFactorEnabled; na_ip_address := None;
        na_metadata := JObj [(u"method", JStr label)] |});
  found ← attempt (user_find_by_id user_id);
  _ ← match found with
      | Ok (Some user) => notify_two_factor_change user label true
      | _ => mret tt
      end;
  mret plaintext_codes.

Definition totp_setup_budget (user_id : Uuid) : Budget :=
  {| bg_key := TOTP_SETUP_FAIL_PREFIX ++ uuid_str user_id; bg_limit := MAX_TOTP_SETUP_FAILURES;
     bg_window_secs := TOTP_SETUP_FAILURE_WINDOW_SECS |}.

Definition verify_totp_setup (user_id method_id : Uuid) (code : str) (request_id : option Uuid) :
    M AppError (list str) :=
  found ← internal (find_by_id_and_user method_id user_id);
  method ← ok_or found NotFound;
  if tf_is_verified method then fail (Conflict u"already_verified")
  else
    encrypted_secret ← ok_or (tf_totp_secret method) NotFound;
    attempted ← consume [totp_setup_budget user_id];
    if exceeded attempted then fail RateLimitExceededError
    else
      now ← clock_now;
      valid ← lift (match verify_code encrypted_secret user_id code keyring (cfg_totp_skew config)
                            (unix_timestamp now) with
                    | Ok b => Ok b | Err _ => Err Internal end);
      consumed ← (if valid : bool
                  then internal (try_consume_totp_code user_id (sha256 (as_bytes code)) now)
                  else mret false);
      if negb consumed then fail TwoFactorFailedError
      else
        _ ← reset [bg_key (totp_setup_budget user_id)];
        _ ← adopt_method user_id method_id;
        enrolled user_id u"totp" request_id.

Definition rc_regen_key (user_id : Uuid) : str := u"rc_regen:" ++ uuid_str user_id.

Definition generate_recovery_codes_for (user_id current_session_id : Uuid) (current_password : option str)
    (ip : option IpNetwork) (request_id : option Uuid) : M AppError (list str) :=
  _ ← require_recent_reauth_or_password user_id current_session_id current_password ip request_id
        u"regenerate_recovery_codes";
  claimed ← claim_cooldown_strict (rc_regen_key user_id) RC_REGEN_COOLDOWN_SECS;
  if negb claimed then fail RateLimitExceededError
  else
    made ← attempt (create_recovery_codes user_id);
    match made with
    | Ok codes => mret codes
    | Err error => _ ← reset [rc_regen_key user_id]; fail error
    end.

(** The removal, within its transaction. *)
Definition drop_method (user_id method_id : Uuid) (method_type : TwoFactorType) (ip : option IpNetwork)
    (request_id : option Uuid) : M AppError unit :=
  _ ← internal (lock_row user_id);
  removed ← internal (remove_method method_id user_id method_type);
  removed ← ok_or removed NotFound;
  _ ← keep_a_second_factor_for_administrators user_id;
  internal (audit_append {| na_user_id := Some user_id; na_request_id := request_id;
    na_action := TwoFactorDisabled; na_ip_address := ip;
    na_metadata := JObj [(u"method", JStr (two_factor_str method_type));
                         (u"remaining_verified", JNum (JInt (remaining_verified removed)));
                         (u"was_primary", JBool (was_primary removed))] |}).

Definition disable_method (user_id current_session_id method_id : Uuid) (method_type : TwoFactorType)
    (current_password : option str) (ip : option IpNetwork) (request_id : option Uuid) : M AppError unit :=
  _ ← require_recent_reauth_or_password user_id current_session_id current_password ip request_id
        (match method_type with TwoFactor.Totp => u"disable_totp" | TwoFactor.Email => u"disable_email_2fa" end);
  found ← internal (user_find_by_id user_id);
  user ← ok_or found NotFound;
  _ ← transaction Internal (drop_method user_id method_id method_type ip request_id);
  notify_two_factor_change user (two_factor_str method_type) false.

Definition list_methods (user_id : Uuid) : M AppError (list TwoFactorMethod * Z) :=
  methods ← internal (methods_find_by_user user_id);
  usable ← internal (count_usable_by_user user_id);
  mret (methods, usable).

(** * Mailed codes (services/email_2fa.rs) *)

Definition setup_email (user_id current_session_id : Uuid) (current_password : option str)
    (ip : option IpNetwork) (request_id : option Uuid) : M AppError Uuid :=
  _ ← require_recent_reauth_or_password user_id current_session_id current_password ip request_id
        u"setup_email_2fa";
  method ← create_or_restart_method
             {| nm_user_id := user_id; nm_method_type := TwoFactor.Email; nm_totp_secret := None |};
  mret (tf_id method).

Definition verify_email_setup (user_id method_id : Uuid) (submitted_code : str) (request_id : option Uuid) :
    M AppError (list str) :=
  found ← internal (find_by_id_and_user method_id user_id);
  method ← ok_or found NotFound;
  if tf_is_verified method then fail (Conflict u"already_verified")
  else
    _ ← verify_otp user_id None submitted_code (u"email2fa_setup_fail:" ++ uuid_str method_id) None;
    _ ← adopt_method user_id method_id;
    enrolled user_id u"email" request_id.
End TwoFactorService.
