(* ===== verification/Administration.v ===== *)
(** Administration: roles and the permissions they grant (src/src/repositories/
    role.rs, services/admin/roles.rs), other people's accounts (services/admin/
    users.rs) and client applications (repositories/registered_client.rs,
    services/admin/clients.rs). *)
From S2P Require Import Prelude Crates Session Account OAuthDomain Network Edge Crypto Tables App Outside RedisCounter SessionRepo Repos Tokens UserRepo AccessRepo TokenRepo Refresh Login SecondFactor OneTime SelfService.
Import Account.User Account.LoginAttempt Account.Audit Account.TwoFactor Account.Token Account.Role OAuthDomain.Client.

(** * Roles: the repository *)

Section Roles.
Context `{RedisServer} `{Env}.

Definition find_by_name (name : str) : M SqlError (option Role) :=
  query (fun d _ => List.find (fun r => str_eqb (ro_name r) name) (all_roles d)).

Definition granted_names (role_id : Uuid) (d : Db) : list str :=
  sort_strs (map snd (List.filter (fun p => bool_decide (p.1 = role_id)) (t_role_permissions d))).

Definition lock_permissions (role_id : Uuid) : M SqlError (list str) :=
  _ ← query (fun _ _ => tt);
  query (fun d _ => granted_names role_id d).

Definition unknown_permissions (names : list str) : M SqlError (list str) :=
  query (fun d _ => sort_strs (List.filter (fun n => negb (contains (t_permissions d) n)) names)).

Definition role_create (name : str) (description : option str) : M SqlError Role :=
  id ← new_v4;
  execute (fun d now =>
    if 50 <? char_count name then Err SqlFailed
    else if bool_decide (is_Some (t_roles d !! id)) then Err (UniqueViolation u"roles_pkey")
    else if existsb (fun r => str_eqb (ro_name r) name) (all_roles d)
    then Err (UniqueViolation u"roles_name_key")
    else
      let row := {| ro_id := id; ro_created_at := now; ro_is_default := false; ro_name := name;
                    ro_description := description |} in
      Ok (set_roles (insert id row) d, row)).

(** [SELECT $1, id FROM permissions WHERE name = ANY($2)] *)
Definition set_permissions (role_id : Uuid) (names : list str) : M SqlError unit :=
  _ ← execute (fun d _ =>
        Ok (set_role_permissions (without (fun p => bool_decide (p.1 = role_id))) d, tt));
  execute (fun d _ =>
    if bool_decide (t_roles d !! role_id = None) then Err SqlFailed
    else Ok (set_role_permissions (fun l => l ++
               map (fun n => (role_id, n)) (List.filter (contains names) (t_permissions d))) d, tt)).

(** The grants of the role, and who holds it, go with it. *)
Definition role_delete (role_id : Uuid) : M SqlError unit :=
  execute (fun d _ =>
    Ok (set_roles (delete role_id)
          (set_user_roles (without (is_own ur_role_id role_id))
            (set_role_permissions (without (is_own fst role_id)) d)), tt)).

Definition unassign (user_id role_id : Uuid) : M SqlError bool :=
  execute (fun d _ =>
    let p g := is_own ur_user_id user_id g && is_own ur_role_id role_id g in
    Ok (set_user_roles (without p) d,
        bool_decide (length (List.filter p (t_user_roles d)) = 1%nat))).

Definition grants_administration (role_id : Uuid) : M SqlError bool :=
  query (fun d _ => existsb is_admin_permission (granted_names role_id d)).

(** [ORDER BY user_id] *)
Definition by_id (a b : Uuid) : Prop := (a <= b)%N.
#[export] Instance by_id_dec : RelDecision by_id.
Proof. intros a b. unfold by_id. apply _. Defined.

Definition holders_in (role_id : Uuid) (d : Db) : list Uuid :=
  merge_sort by_id (map ur_user_id (List.filter (is_own ur_role_id role_id) (t_user_roles d))).

Definition holders (role_id : Uuid) : M SqlError (list Uuid) := query (fun d _ => holders_in role_id d).

Definition find_roles_by_user (user_id : Uuid) : M SqlError (list Role) :=
  query (fun d _ => omap (fun r => t_roles d !! r) (roles_of user_id d)).
End Roles.

(** * The administrator (services/admin/mod.rs) *)

Record Actor := {
  ad_user_id : Uuid;
  ad_session_id : Uuid;
  ad_ip : option IpNetwork;
  ad_request_id : option Uuid;
}.

Section Actor.
Context `{RedisServer} `{Env} `{TimeCrate} `{CryptoCrates} `{SqlText} `{Passwords}.

Definition actor_metadata (self : Actor) (extra : json) : json :=
  let own := [(u"administrator_id", JStr (uuid_str (ad_user_id self))); (u"by", JStr u"administrator")] in
  match extra with
  | JObj extra => JObj (foldl (fun m f => map_insert f.1 f.2 m) own extra)
  | _ => JObj own
  end.

Definition record_read (actor : Actor) (extra : json) : M AppError unit :=
  internal (audit_append {| na_user_id := Some (ad_user_id actor); na_request_id := ad_request_id actor;
    na_action := AdminDataRead; na_ip_address := ad_ip actor; na_metadata := actor_metadata actor extra |}).

Definition notify_owner (user_id : Uuid) (change : str) (role : option str) : M AppError unit :=
  found ← attempt (user_find_by_id user_id);
  match found with
  | Ok (Some user) =>
      tell (add_mail {| m_kind := ChangedByAdministratorMail change role; m_to := u_email user |})
  | _ => mret tt
  end.

Definition require_reauth (actor : Actor) (reason : str) : M AppError unit :=
  require_recent_reauth_or_password (ad_user_id actor) (ad_session_id actor) None (ad_ip actor)
    (ad_request_id actor) reason.

Definition refuse_own_account (actor : Actor) (user_id : Uuid) : result unit AppError :=
  if bool_decide (ad_user_id actor = user_id) then Err Forbidden else Ok tt.

(** [users::entry], [roles::own_entry] and [clients::entry]. *)
Definition admin_entry (actor : Actor) (user_id : Uuid) (action : AuditAction) (extra : json) : NewAuditEntry :=
  {| na_user_id := Some user_id; na_request_id := ad_request_id actor; na_action := action;
     na_ip_address := ad_ip actor; na_metadata := actor_metadata actor extra |}.

Definition own_entry (actor : Actor) (action : AuditAction) (extra : json) : NewAuditEntry :=
  admin_entry actor (ad_user_id actor) action extra.

Definition target_entry (actor : Actor) (user_id : Uuid) (action : AuditAction) (role : str) : NewAuditEntry :=
  admin_entry actor user_id action (JObj [(u"role", JStr role)]).

(** ** Lists *)

Fixpoint each {A} (f : A -> M AppError unit) (l : list A) : M AppError unit :=
  match l with
  | [] => mret tt
  | x :: rest => _ ← f x; each f rest
  end.
End Actor.

(** * Roles (services/admin/roles.rs) *)

Section RoleAdmin.
Context `{RedisServer} `{Env} `{TimeCrate} `{CryptoCrates} `{SqlText} `{Passwords}.

Definition role_find (name : str) : M AppError Role :=
  found ← internal (find_by_name name);
  ok_or found NotFound.

Definition known_permissions (requested : list str) : M AppError (list str) :=
  let permissions := dedup (sort_strs requested) in
  unknown ← internal (unknown_permissions permissions);
  if bool_decide (unknown = []) then mret permissions
  else fail (Validation (u"unknown permissions: " ++ join u", " unknown)).

(** Nobody delegates, nor withdraws, what they do not hold. *)
Definition ensure_actor_holds (actor : Actor) (permissions : list str) : M AppError unit :=
  each (fun permission =>
    held ← internal (user_has_permission (ad_user_id actor) permission);
    if held : bool then mret tt else fail Forbidden) permissions.

Definition able_to_administer (user : User) : M AppError bool :=
  if negb (bool_decide (u_status user = ActiveUser)) then mret false
  else internal (has_second_factor (u_id user)).

Definition ensure_can_administer (user : User) (role : Role) : M AppError unit :=
  grants ← internal (grants_administration (ro_id role));
  if negb grants then mret tt
  else
    able ← able_to_administer user;
    if able : bool then mret tt else fail (Conflict u"administrator_without_second_factor").

(** [ORDER BY name] *)
Definition by_name (a b : Role) : Prop := str_le (ro_name a) (ro_name b).
#[export] Instance by_name_dec : RelDecision by_name.
Proof. intros a b. unfold by_name. apply _. Defined.

Definition role_list : M AppError (list (Role * list str)) :=
  internal (query (fun d _ => map (fun r => (r, granted_names (ro_id r) d)) (merge_sort by_name (all_roles d)))).

Definition create_role_in_tx (actor : Actor) (name : str) (description : option str)
    (permissions : list str) : M AppError Role :=
  _ ← ensure_actor_holds actor permissions;
  role ← map_err (fun e => from_unique_violation e [(u"roles_name_key", u"role_exists")])
           (role_create name description);
  _ ← internal (set_permissions (ro_id role) permissions);
  _ ← internal (audit_append (own_entry actor RoleCreated
        (JObj [(u"permissions", JArr (map JStr permissions)); (u"role", JStr (ro_name role))])));
  mret role.

Definition create_role (actor : Actor) (name : str) (description : option str) (permissions : list str) :
    M AppError (Role * list str) :=
  if negb (is_valid_role_name name)
  then fail (Validation u"role name must be 2 to 50 lower-case letters, digits or underscores, starting with a letter")
  else if match description with Some text => 500 <? char_count text | None => false end
  then fail (Validation u"description must be at most 500 characters")
  else
    permissions ← known_permissions permissions;
    _ ← require_reauth actor u"admin_create_role";
    role ← transaction Internal (create_role_in_tx actor name description permissions);
    mret (role, permissions).

(** What a role gains and loses. *)
Definition added_to (current permissions : list str) : list str :=
  List.filter (fun p => negb (contains current p)) permissions.
Definition removed_from (current permissions : list str) : list str :=
  List.filter (fun p => negb (contains permissions p)) current.

Definition ensure_holder_can_administer (holder : Uuid) : M AppError unit :=
  _ ← internal (lock_row holder);
  found ← internal (user_find_by_id holder);
  user ← ok_or found NotFound;
  able ← able_to_administer user;
  if able : bool then mret tt else fail (Conflict u"holders_without_second_factor").

Definition extends_administration (current permissions : list str) : bool :=
  existsb is_admin_permission (added_to current permissions).

(** The grants the change was judged on, and who holds the role. *)
Definition change_role_in_tx (actor : Actor) (role : Role) (permissions : list str) :
    M AppError (list str * list Uuid) :=
  current ← internal (lock_permissions (ro_id role));
  let added := added_to current permissions in
  let removed := removed_from current permissions in
  _ ← ensure_actor_holds actor (added ++ removed);
  holders ← internal (holders (ro_id role));
  _ ← (if extends_administration current permissions then each ensure_holder_can_administer holders
       else mret tt);
  _ ← internal (set_permissions (ro_id role) permissions);
  _ ← keep_an_administrator;
  _ ← internal (audit_append (own_entry actor RolePermissionsChanged
        (JObj [(u"permissions", JArr (map JStr permissions)); (u"role", JStr (ro_name role))])));
  _ ← (if bool_decide (added = []) && bool_decide (removed = []) then mret tt
       else each (fun holder => internal (audit_append (admin_entry actor holder RolePermissionsChanged
              (JObj [(u"added", JArr (map JStr added)); (u"removed", JArr (map JStr removed));
                     (u"role", JStr (ro_name role))])))) holders);
  mret (current, holders).

Definition set_role_permissions_of (actor : Actor) (name : str) (permissions : list str) :
    M AppError (Role * list str) :=
  role ← role_find name;
  permissions ← known_permissions permissions;
  if ro_is_default role && existsb is_admin_permission permissions
  then fail (Conflict u"default_role_administration")
  else
    _ ← require_reauth actor u"admin_change_role";
    changed ← transaction Internal (change_role_in_tx actor role permissions);
    let '(current, holders) := changed : list str * list Uuid in
    _ ← (if extends_administration current permissions
         then each (fun holder => notify_owner holder u"role_extended" (Some (ro_name role))) holders
         else mret tt);
    mret (role, permissions).

Definition delete_role_in_tx (actor : Actor) (role : Role) : M AppError (list Uuid) :=
  granted ← internal (lock_permissions (ro_id role));
  _ ← ensure_actor_holds actor granted;
  holders ← internal (holders (ro_id role));
  _ ← internal (role_delete (ro_id role));
  _ ← keep_an_administrator;
  _ ← internal (audit_append (own_entry actor RoleDeleted
        (JObj [(u"holders", JNum (JInt (Z.of_nat (length holders)))); (u"role", JStr (ro_name role))])));
  _ ← each (fun holder => internal (audit_append (target_entry actor holder RoleRevoked (ro_name role))))
        holders;
  mret holders.

Definition delete_role (actor : Actor) (name : str) : M AppError unit :=
  role ← role_find name;
  if ro_is_default role then fail (Conflict u"default_role")
  else
    _ ← require_reauth actor u"admin_delete_role";
    holders ← transaction Internal (delete_role_in_tx actor role);
    each (fun holder => notify_owner holder u"role_revoked" (Some (ro_name role))) holders.

(** [None] when the role was already held. *)
Definition assign_in_tx (actor : Actor) (user_id : Uuid) (role : Role) : M AppError (option unit) :=
  _ ← internal (lock_row user_id);
  found ← internal (user_find_by_id user_id);
  user ← ok_or found NotFound;
  granted ← internal (lock_permissions (ro_id role));
  _ ← ensure_actor_holds actor granted;
  _ ← ensure_can_administer user role;
  assigned ← attempt (assign_to_user user_id (ro_id role) (Some (ad_user_id actor)));
  match assigned with
  | Ok _ =>
      _ ← internal (audit_append (target_entry actor user_id RoleAssigned (ro_name role)));
      mret (Some tt)
  | Err RowNotFound => mret None
  | Err _ => fail Internal
  end.

Definition assign (actor : Actor) (user_id : Uuid) (name : str) : M AppError unit :=
  _ ← lift (refuse_own_account actor user_id);
  role ← role_find name;
  found ← internal (user_find_by_id user_id);
  _ ← ok_or found NotFound;
  _ ← require_reauth actor u"admin_assign_role";
  committed ← try_transaction Internal (assign_in_tx actor user_id role);
  match committed with
  | Some _ => notify_owner user_id u"role_granted" (Some (ro_name role))
  | None => mret tt
  end.

(** [None] when the account did not hold it. *)
Definition unassign_in_tx (actor : Actor) (user_id : Uuid) (role : Role) : M AppError (option unit) :=
  granted ← internal (lock_permissions (ro_id role));
  _ ← ensure_actor_holds actor granted;
  held ← internal (unassign user_id (ro_id role));
  if negb held then mret None
  else
    _ ← keep_an_administrator;
    _ ← internal (audit_append (target_entry actor user_id RoleRevoked (ro_name role)));
    mret (Some tt).

Definition unassign_role (actor : Actor) (user_id : Uuid) (name : str) : M AppError unit :=
  role ← role_find name;
  _ ← require_reauth actor u"admin_revoke_role";
  committed ← try_transaction Internal (unassign_in_tx actor user_id role);
  match committed with
  | Some _ =>
      if negb (bool_decide (ad_user_id actor = user_id))
      then notify_owner user_id u"role_revoked" (Some (ro_name role))
      else mret tt
  | None => mret tt
  end.
End RoleAdmin.

(** * Accounts (services/admin/users.rs) *)

Record UserDetail := {
  ud_user : User;
  ud_roles : list str;
  ud_two_factor_methods : nat;
  ud_active_sessions : nat;
}.

Section UserAdmin.
Context `{RedisServer} `{Env} `{TimeCrate} `{CryptoCrates} `{SqlText} `{IpNetworkCrate} `{Jwt}.
Context `{MacCrate} `{HyperLogLog} `{Passwords} `{PreAuthSerde} `{Web} `{Pwned.Sha1Crate}.

Definition account_find (user_id : Uuid) : M AppError User :=
  found ← internal (user_find_by_id user_id);
  ok_or found NotFound.

Definition detail (user_id : Uuid) : M AppError UserDetail :=
  user ← account_find user_id;
  roles ← internal (find_roles_by_user user_id);
  methods ← internal (methods_find_by_user user_id);
  sessions ← internal (find_active_by_user user_id);
  mret {| ud_user := user; ud_roles := map ro_name roles;
          ud_two_factor_methods := length (List.filter tf_is_verified methods);
          ud_active_sessions := length sessions |}.

(** Revoked sessions stop working now rather than when caches expire. *)
Definition forget_sessions (sessions : list Session) : M AppError unit :=
  _ ← invalidate_session_caches (map s_id sessions);
  forget_each sessions.

(** [None] when the account was suspended already. *)
Definition suspend_in_tx (actor : Actor) (user_id : Uuid) : M AppError (option (list Session)) :=
  changed ← internal (suspend user_id);
  if negb changed then mret None
  else
    manages_roles ← internal (user_has_permission user_id ROLES_MANAGE);
    _ ← (if manages_roles : bool then keep_an_administrator else mret tt);
    active ← internal (revoke_all_by_user_returning user_id);
    _ ← internal (audit_append (admin_entry actor user_id AccountSuspended
          (JObj [(u"sessions_revoked", JNum (JInt (Z.of_nat (length active))))])));
    _ ← enqueue u"user.suspended" (user_payload user_id);
    _ ← enqueue u"user.sessions_revoked" (user_payload user_id);
    mret (Some active).

Definition suspend_account (actor : Actor) (user_id : Uuid) : M AppError unit :=
  _ ← lift (refuse_own_account actor user_id);
  _ ← require_reauth actor u"admin_suspend_account";
  user ← account_find user_id;
  if bool_decide (u_status user = PendingVerification)
  then fail (Validation u"an account that was never verified cannot be suspended; delete it instead")
  else
    committed ← try_transaction Internal (suspend_in_tx actor user_id);
    match committed with
    | None => mret tt
    | Some active =>
        _ ← forget_sessions active;
        notify_owner user_id u"suspended" None
    end.

Definition reactivate_account (actor : Actor) (user_id : Uuid) : M AppError unit :=
  _ ← require_reauth actor u"admin_reactivate_account";
  _ ← account_find user_id;
  committed ← try_transaction Internal (
    changed ← internal (reactivate user_id);
    if negb changed then mret None
    else
      _ ← internal (audit_append (admin_entry actor user_id AccountReactivated (JObj [])));
      _ ← enqueue u"user.reactivated" (user_payload user_id);
      mret (Some tt));
  match committed with
  | None => mret tt
  | Some _ => notify_owner user_id u"reactivated" None
  end.

Definition unlock (actor : Actor) (user_id : Uuid) : M AppError unit :=
  _ ← lift (refuse_own_account actor user_id);
  _ ← require_reauth actor u"admin_unlock_account";
  _ ← account_find user_id;
  _ ← transaction Internal (
        _ ← internal (clear_lockout user_id);
        internal (audit_append (admin_entry actor user_id AccountUnlocked (JObj []))));
  _ ← reset [reauth_fail_key user_id; login_try_key user_id];
  notify_owner user_id u"unlocked" None.

Definition revoke_sessions (actor : Actor) (user_id : Uuid) : M AppError Z :=
  _ ← lift (refuse_own_account actor user_id);
  _ ← require_reauth actor u"admin_revoke_sessions";
  _ ← account_find user_id;
  active ← transaction Internal (
    active ← internal (revoke_all_by_user_returning user_id);
    _ ← internal (audit_append (admin_entry actor user_id SessionRevoked
          (JObj [(u"all", JBool true); (u"count", JNum (JInt (Z.of_nat (length active))))])));
    _ ← enqueue u"user.sessions_revoked" (user_payload user_id);
    mret active);
  _ ← forget_sessions active;
  _ ← (if bool_decide (active = []) then mret tt else notify_owner user_id u"sessions_revoked" None);
  mret (Z.of_nat (length active)).

Definition drop_access_factors_in (actor : Actor) (user_id : Uuid) : M AppError unit :=
  _ ← internal (drop_access_factors user_id);
  _ ← keep_a_second_factor_for_administrators user_id;
  internal (audit_append (admin_entry actor user_id AccessFactorsRemoved (JObj []))).

Definition force_password_reset (actor : Actor) (user_id : Uuid) (revoke_access_factors : bool) :
    M AppError unit :=
  _ ← lift (refuse_own_account actor user_id);
  _ ← require_reauth actor u"admin_force_password_reset";
  user ← account_find user_id;
  active ← transaction Internal (
    _ ← internal (lock_row user_id);
    active ← internal (revoke_all_by_user_returning user_id);
    _ ← internal (audit_append (admin_entry actor user_id PasswordResetForced
          (JObj [(u"sessions_revoked", JNum (JInt (Z.of_nat (length active))))])));
    _ ← (if revoke_access_factors then drop_access_factors_in actor user_id else mret tt);
    _ ← enqueue u"user.sessions_revoked" (user_payload user_id);
    mret active);
  _ ← forget_sessions active;
  send_reset_link user None None true.

Definition remove_access_factors (actor : Actor) (user_id : Uuid) : M AppError unit :=
  _ ← lift (refuse_own_account actor user_id);
  _ ← require_reauth actor u"admin_remove_access_factors";
  _ ← account_find user_id;
  revoked ← transaction Internal (
    _ ← internal (lock_row user_id);
    revoked ← internal (revoke_all_by_user_returning user_id);
    _ ← drop_access_factors_in actor user_id;
    _ ← enqueue u"user.sessions_revoked" (user_payload user_id);
    mret revoked);
  _ ← forget_sessions revoked;
  notify_owner user_id u"access_removed" None.

Definition delete_other_account (actor : Actor) (user_id : Uuid) : M AppError unit :=
  _ ← lift (refuse_own_account actor user_id);
  _ ← require_reauth actor u"admin_delete_account";
  _ ← account_find user_id;
  erase_account user_id (actor_metadata actor (JObj [])) (ad_ip actor) (ad_request_id actor).
End UserAdmin.

(** * Client applications: the repository *)

Record NewRegisteredClient := {
  nc_client_id : str;
  nc_display_name : str;
  nc_is_primary : bool;
  nc_scopes : list str;
  nc_redirect_uris : list str;
  nc_allows_loopback_redirect : bool;
  nc_default_max_sessions : Z;
}.

Section Clients.
Context `{RedisServer} `{Env} `{TimeCrate} `{CryptoCrates} `{SqlText} `{Passwords} `{UrlCrate}.

(** The constraints of the table, in the order PostgreSQL checks them. *)
Definition client_refused (c : RegisteredClient) (d : Db) : option SqlError :=
  if c_allows_client_credentials c && negb (is_confidential c)
  then Some (CheckViolation u"registered_clients_client_credentials_confidential")
  else if c_allows_client_credentials c && bool_decide (c_scopes c = [])
  then Some (CheckViolation u"registered_clients_client_credentials_scoped")
  else if negb (is_valid_client_id (c_client_id c))
  then Some (CheckViolation u"registered_clients_client_id_format")
  else if c_default_max_sessions c <=? 0
  then Some (CheckViolation u"registered_clients_default_max_sessions_positive")
  else if match c_client_secret_hash c with Some h => negb (bool_decide (length h = 32%nat)) | None => false end
  then Some (CheckViolation u"registered_clients_secret_hash_length")
  else if (200 <? char_count (c_display_name c)) then Some SqlFailed
  else if c_is_primary c
          && existsb (fun o => c_is_primary o && negb (str_eqb (c_client_id o) (c_client_id c))) (t_clients d)
  then Some (UniqueViolation u"idx_registered_clients_primary")
  else None.

Definition client_is (client_id : str) (c : RegisteredClient) : bool := str_eqb (c_client_id c) client_id.

(** [UPDATE registered_clients SET ... WHERE client_id = $1]; whether it was
    there. *)
Definition update_client (client_id : str) (f : RegisteredClient -> RegisteredClient) (d : Db) :
    result (Db * bool) SqlError :=
  match List.find (client_is client_id) (t_clients d) with
  | None => Ok (d, false)
  | Some c =>
      match client_refused (f c) d with
      | Some e => Err e
      | None => Ok (set_clients (update_where (client_is client_id) f) d, true)
      end
  end.

Definition settings_row (input : NewRegisteredClient) (c : RegisteredClient) : RegisteredClient :=
  {| c_client_id := c_client_id c; c_display_name := nc_display_name input;
     c_is_primary := nc_is_primary input; c_created_at := c_created_at c; c_scopes := nc_scopes input;
     c_redirect_uris := nc_redirect_uris input;
     c_allows_loopback_redirect := nc_allows_loopback_redirect input;
     c_default_max_sessions := nc_default_max_sessions input;
     c_client_secret_hash := c_client_secret_hash c;
     c_allows_client_credentials := c_allows_client_credentials c;
     c_allows_introspection := c_allows_introspection c |}.

Definition fresh_client (now : Z) (client_id : str) : RegisteredClient :=
  {| c_client_id := client_id; c_display_name := []; c_is_primary := false; c_created_at := now;
     c_scopes := []; c_redirect_uris := []; c_allows_loopback_redirect := false;
     c_default_max_sessions := 5; c_client_secret_hash := None; c_allows_client_credentials := false;
     c_allows_introspection := false |}.

Definition upsert (input : NewRegisteredClient) : M SqlError RegisteredClient :=
  execute (fun d now =>
    match List.find (client_is (nc_client_id input)) (t_clients d) with
    | Some c =>
        match update_client (nc_client_id input) (settings_row input) d with
        | Ok (d', _) => Ok (d', settings_row input c)
        | Err e => Err e
        end
    | None =>
        let row := settings_row input (fresh_client now (nc_client_id input)) in
        match client_refused row d with
        | Some e => Err e
        | None => Ok (set_clients (fun l => l ++ [row]) d, row)
        end
    end).

(** Its quotas and its authorization codes go with it. *)
Definition client_delete (client_id : str) : M SqlError bool :=
  execute (fun d _ =>
    Ok (set_clients (without (client_is client_id))
          (set_quotas (without (fun q => str_eqb (q_client_id q) client_id))
            (set_codes (without (fun c => str_eqb (ac_client_id c) client_id)) d)),
        bool_decide (length (List.filter (client_is client_id) (t_clients d)) = 1%nat))).

Definition lock_existing (client_id : str) : M SqlError bool :=
  query (fun d _ => existsb (client_is client_id) (t_clients d)).

Definition flags_row (secret : option bytes) (credentials introspection : bool) (c : RegisteredClient) :
    RegisteredClient :=
  {| c_client_id := c_client_id c; c_display_name := c_display_name c; c_is_primary := c_is_primary c;
     c_created_at := c_created_at c; c_scopes := c_scopes c; c_redirect_uris := c_redirect_uris c;
     c_allows_loopback_redirect := c_allows_loopback_redirect c;
     c_default_max_sessions := c_default_max_sessions c; c_client_secret_hash := secret;
     c_allows_client_credentials := credentials; c_allows_introspection := introspection |}.

Definition set_secret_hash (client_id : str) (secret_hash : option bytes) : M SqlError bool :=
  execute (fun d _ => update_client client_id (fun c =>
    flags_row secret_hash (c_allows_client_credentials c && bool_decide (is_Some secret_hash))
      (c_allows_introspection c) c) d).

Definition set_introspection (client_id : str) (allowed : bool) : M SqlError bool :=
  execute (fun d _ => update_client client_id (fun c =>
    flags_row (c_client_secret_hash c) (c_allows_client_credentials c) allowed c) d).

Definition set_client_credentials (client_id : str) (allowed : bool) : M SqlError bool :=
  execute (fun d _ => update_client client_id (fun c =>
    flags_row (c_client_secret_hash c) allowed (c_allows_introspection c) c) d).

(** ** The service (services/admin/clients.rs) *)

Definition client_upsert_error (e : SqlError) : AppError :=
  match e with
  | CheckViolation c =>
      if str_eqb c u"registered_clients_client_credentials_scoped"
      then Validation u"a client using the client credentials grant keeps at least one scope"
      else Internal
  | e => from_unique_violation e [(u"idx_registered_clients_primary", u"primary_client_exists")]
  end.

(** One optional flag; [guard] refuses to set it. *)
Definition set_flag (allowed : option bool) (guard : bool) (set : bool -> M SqlError bool)
    (saved : bool -> RegisteredClient) (unchanged : RegisteredClient) : M AppError RegisteredClient :=
  match allowed with
  | None => mret unchanged
  | Some allowed =>
      if allowed && guard
      then fail (Validation u"the client credentials grant needs a client secret and scopes")
      else _ ← internal (set allowed); mret (saved allowed)
  end.

Definition save_in_tx (actor : Actor) (client : NewRegisteredClient)
    (allows_client_credentials allows_introspection : option bool) : M AppError (RegisteredClient * bool) :=
  existed ← internal (lock_existing (nc_client_id client));
  previous ← internal (client_find_by_id (nc_client_id client));
  if nc_is_primary client || match previous with Some p => c_is_primary p | None => false end
  then fail (Conflict u"primary_client_managed_by_command_line")
  else
    saved ← map_err client_upsert_error (upsert client);
    saved ← set_flag allows_client_credentials
              (negb (is_confidential saved) || bool_decide (c_scopes saved = []))
              (set_client_credentials (c_client_id saved))
              (fun a => flags_row (c_client_secret_hash saved) a (c_allows_introspection saved) saved) saved;
    saved ← set_flag allows_introspection false (set_introspection (c_client_id saved))
              (fun a => flags_row (c_client_secret_hash saved) (c_allows_client_credentials saved) a saved) saved;
    _ ← internal (audit_append (own_entry actor (if existed : bool then ClientUpdated else ClientRegistered)
          (audit_changes previous saved)));
    mret (saved, negb existed).

Definition client_save (actor : Actor) (client : NewRegisteredClient)
    (allows_client_credentials allows_introspection : option bool) : M AppError (RegisteredClient * bool) :=
  _ ← lift (match check_settings (nc_client_id client) (nc_display_name client) (nc_redirect_uris client)
                    (nc_default_max_sessions client) with
            | Ok _ => Ok tt | Err e => Err (Validation e) end);
  unknown ← internal (unknown_permissions (nc_scopes client));
  if negb (bool_decide (unknown = [])) then fail (Validation (u"unknown scopes: " ++ join u", " unknown))
  else
    _ ← require_reauth actor u"admin_save_client";
    transaction Internal (save_in_tx actor client allows_client_credentials allows_introspection).

Definition refuse_primary (client_id : str) : M AppError unit :=
  _ ← internal (lock_existing client_id);
  found ← internal (client_find_by_id client_id);
  if match found with Some c => c_is_primary c | None => false end
  then fail (Conflict u"primary_client_managed_by_command_line") else mret tt.

Fixpoint blocklist_each (sessions : list Session) : M AppError unit :=
  match sessions with
  | [] => mret tt
  | s :: rest => _ ← blocklist_refresh_token (s_token_hash s) (s_expires_at s); blocklist_each rest
  end.

Definition client_remove (actor : Actor) (client_id : str) : M AppError unit :=
  _ ← require_reauth actor u"admin_delete_client";
  revoked ← transaction Internal (
    _ ← refuse_primary client_id;
    revoked ← internal (revoke_by_client client_id);
    deleted ← internal (client_delete client_id);
    if negb deleted then fail NotFound
    else
      _ ← internal (audit_append (own_entry actor ClientDeleted
            (JObj [(u"client_id", JStr client_id);
                   (u"sessions_revoked", JNum (JInt (Z.of_nat (length revoked))))])));
      mret revoked);
  _ ← invalidate_session_caches (map s_id revoked);
  blocklist_each revoked.

Definition change_secret (actor : Actor) (client_id : str) (digest : option bytes) : M AppError unit :=
  transaction Internal (
    _ ← refuse_primary client_id;
    changed ← internal (set_secret_hash client_id digest);
    if negb changed then fail NotFound
    else internal (audit_append (own_entry actor ClientSecretRotated
           (JObj [(u"client_id", JStr client_id); (u"confidential", JBool (bool_decide (is_Some digest)))])))).

Definition rotate_secret (actor : Actor) (client_id : str) : M AppError str :=
  _ ← require_reauth actor u"admin_client_secret";
  token ← generate_token;
  let secret := OAuth.format_client_secret token in
  _ ← change_secret actor client_id (Some (sha256 (as_bytes secret)));
  mret secret.

Definition remove_secret (actor : Actor) (client_id : str) : M AppError unit :=
  _ ← require_reauth actor u"admin_client_secret";
  change_secret actor client_id None.
End Clients.
