(* ===== verification/Office.v ===== *)
(** A second run to evaluate the theorems on administration on: account 7 holds
    the role [administrator], which grants [roles:manage] and [posts:write],
    and has a TOTP method; account 8 holds the default role only.  Both have a
    session, and session 2 of account 7 proved its password lately. *)
From S2P Require Import Prelude Crates Session Account OAuthDomain Network Edge Crypto Tables App RedisCounter SessionRepo Repos Tokens Scenario Refresh Login SecondFactor OneTime SelfService Factors Administration.
Import Account.User Account.LoginAttempt Account.Audit Account.TwoFactor Account.Role OAuthDomain.Client.

Module Office.
Import Scenario.Run.

Definition bob : User :=
  {| u_id := 8%N; u_created_at := 0; u_updated_at := 0; u_email_verified_at := Some 0;
     u_last_login_at := None; u_locked_until := None; u_status := ActiveUser;
     u_preferred_locale := u"en"; u_username := u"bob"; u_email := u"bob@example.org";
     u_password_hash := toy_hash u"bob's own" |}.

Definition totp : TwoFactorMethod :=
  {| tf_id := 40%N; tf_user_id := 7%N; tf_last_used_at := None; tf_created_at := 0; tf_updated_at := 0;
     tf_method_type := Totp; tf_is_primary := true; tf_is_verified := true; tf_totp_secret := Some u"sealed" |}.

Definition role (i : Uuid) (name : str) (default : bool) : Role :=
  {| ro_id := i; ro_created_at := 0; ro_is_default := default; ro_name := name; ro_description := None |}.

Definition grant (who which : Uuid) : UserRole :=
  {| ur_user_id := who; ur_role_id := which; ur_granted_by := None; ur_granted_at := 0 |}.

Definition tables : Db :=
  set_users (fun t => <[8%N := {| ur_user := bob; ur_lockout_cleared_at := None |}]> t)
    (set_methods (fun _ => [totp])
      (set_roles (fun _ => <[4%N := role 4%N u"administrator" false]> {[ 3%N := role 3%N u"member" true ]})
        (set_role_permissions (fun _ => [(3%N, u"posts:read"); (4%N, u"posts:write"); (4%N, ROLES_MANAGE)])
          (set_user_roles (fun _ => [grant 7%N 3%N; grant 8%N 3%N; grant 7%N 4%N]) db)))).

Definition office : World (H := redis_gmap) :=
  {| w_db := tables;
     w_redis := {[ (u"reauth:" ++ uuid_str 2%N : str) := Entry (RInt 19) (Some (300 * NS)) ]} : gmap str entry;
     w_now := 20 * NS; w_wall := 20 * NS; w_io := 0;
     w_draws := 0; w_mails := []; w_slept := 0; w_tasks := [];
     w_sent := []; w_stream_ready := false; w_documents := [] |}.

Definition admin : Actor :=
  {| ad_user_id := 7%N; ad_session_id := 2%N; ad_ip := None; ad_request_id := None |}.

(** Two clients: [app], public, and [daemon], with a secret. *)
Definition app : RegisteredClient :=
  {| c_client_id := u"app"; c_display_name := u"App"; c_is_primary := false; c_created_at := 0;
     c_scopes := [u"openid"; u"posts:write"]; c_redirect_uris := [u"https://app.example/cb"];
     c_allows_loopback_redirect := false; c_default_max_sessions := 2; c_client_secret_hash := None;
     c_allows_client_credentials := false; c_allows_introspection := false |}.

Definition daemon_secret : str := u"daemon-secret".

Definition daemon : RegisteredClient :=
  {| c_client_id := u"daemon"; c_display_name := u"Daemon"; c_is_primary := false; c_created_at := 0;
     c_scopes := [u"posts:read"]; c_redirect_uris := [];
     c_allows_loopback_redirect := false; c_default_max_sessions := 2;
     c_client_secret_hash := Some (sha256 (as_bytes daemon_secret));
     c_allows_client_credentials := true; c_allows_introspection := true |}.

(** The office, with its clients registered. *)
Definition partners : World (H := redis_gmap) :=
  {| w_db := set_clients (fun _ => [app; daemon]) tables; w_redis := w_redis office;
     w_now := 20 * NS; w_wall := 20 * NS; w_io := 0; w_draws := 0; w_mails := []; w_slept := 0; w_tasks := [];
     w_sent := []; w_stream_ready := false; w_documents := [] |}.
End Office.
