(* ===== verification/Outbound.v ===== *)
(** What leaves the service in the background: events relayed to the broker
    (src/src/domain/outbox.rs, repositories/event_outbox.rs, services/events.rs)
    and webhooks delivered to endpoints (repositories/webhook.rs, services/
    webhooks.rs), with the administration of those endpoints. *)
From S2P Require Import Prelude Crates Session Account OAuthDomain Network Edge Crypto Tables App Outside RedisCounter SessionRepo Repos Tokens UserRepo AccessRepo TokenRepo Refresh Login SecondFactor OneTime SelfService Administration.
Import Account.Audit.

(** * The other side *)

(** Why a request got no answer ([reqwest::Error]). *)
Inductive HttpFailure := TimedOut | ConnectionFailed | RedirectRefused | RequestFailed.

(** What became of a publication: stored and acknowledged in time, stored
    without the acknowledgement, or not stored; the pair is the reason and the
    text of the error. *)
Inductive Stored :=
| StoredAcked
| StoredUnacked (reason error : str)
| NotStored (reason error : str).

(** How far a task had gone when its set was dropped. *)
Inductive Progress := NotStarted | Sending | Finished.

Class Outward := {
  (** [serde_json::to_vec], [format(&Rfc3339)] and [Display] of a status. *)
  json_to_vec : json -> result bytes str;
  rfc3339 : Z -> option str;
  status_text : Z -> str;
  (** [tokio::net::lookup_host], [reqwest::Client::builder().build()] and the
      status of a request, by exchange. *)
  lookup_host : nat -> str -> Z -> result (list (IpAddr * Z)) str;
  client_builds : str -> IpAddr * Z -> result unit str;
  http_post : nat -> Post -> result Z HttpFailure;
  (** The broker: declaring the stream, storing a message. *)
  js_stream : nat -> result unit str;
  js_publish : nat -> Publication -> Stored;
  (** Whether no other instance holds the relay's advisory lock. *)
  relay_lock_free : nat -> bool;
  (** The order in which the tasks of a set end, and how far the others had gone
      when one failed. *)
  join_order : forall {A}, list A -> list A;
  progress : Uuid -> Progress;
  join_order_perm : forall A (l : list A), join_order l ≡ₚ l;
}.

Definition I32_MAX : Z := 2 ^ 31 - 1.
Definition I16_MAX : Z := 2 ^ 15 - 1.

(** * The message of an event (domain/outbox.rs) *)

Module Outbox.

(** Durations in seconds. *)
Definition FIRST_RETRY : Z := 1.
Definition MAX_RETRY : Z := 60.

Definition retry_delay (failed_attempts : Z) : Z :=
  if failed_attempts <=? 0 then 0
  else
    let doublings := Z.abs (Z.min (failed_attempts - 1) 6) in
    Z.min (FIRST_RETRY * 2 ^ doublings) MAX_RETRY.

Section Envelope.
Context `{CryptoCrates} `{Outward}.

Definition envelope (payload : json) (event_id : Uuid) (occurred_at : Z) : json :=
  let object := match payload with
                | JObj object => object
                | other => map_insert u"data" other []
                end in
  let object := map_insert u"event_id" (JStr (uuid_str event_id)) object in
  JObj (map_insert u"occurred_at" (JStr (default [] (rfc3339 occurred_at))) object).
End Envelope.

(** * The queue (repositories/event_outbox.rs) *)

Record PendingEvent := {
  pe_seq : nat;
  pe_id : Uuid;
  pe_subject : str;
  pe_payload : json;
  pe_created_at : Z;
  pe_attempts : Z;
  pe_due : bool;
}.

Definition is_unpublished (r : OutboxEvent) : bool := bool_decide (ob_published_at r = None).

Definition pending_event (now : Z) (x : nat * OutboxEvent) : PendingEvent :=
  let '(n, r) := x in
  {| pe_seq := n; pe_id := ob_id r; pe_subject := ob_subject r; pe_payload := ob_payload r;
     pe_created_at := ob_created_at r; pe_attempts := ob_attempts r;
     pe_due := ob_next_attempt_at r <=? now |}.

(** The rows with their [seq]. *)
Definition numbered {A} (l : list A) : list (nat * A) := zip (seq 0 (length l)) l.

Definition unpublished (rows : list OutboxEvent) : list (nat * OutboxEvent) :=
  List.filter (fun x => is_unpublished x.2) (numbered rows).

Definition published_row (now : Z) (r : OutboxEvent) : OutboxEvent :=
  {| ob_id := ob_id r; ob_subject := ob_subject r; ob_payload := ob_payload r;
     ob_created_at := ob_created_at r; ob_published_at := Some now; ob_attempts := ob_attempts r;
     ob_next_attempt_at := ob_next_attempt_at r; ob_last_error := None |}.

Definition failed_row (now : Z) (error : str) (retry_in : Z) (r : OutboxEvent) : OutboxEvent :=
  {| ob_id := ob_id r; ob_subject := ob_subject r; ob_payload := ob_payload r;
     ob_created_at := ob_created_at r; ob_published_at := ob_published_at r;
     ob_attempts := ob_attempts r + 1; ob_next_attempt_at := now + seconds retry_in;
     ob_last_error := Some error |}.

Section Queue.
Context `{RedisServer} `{Env}.

Definition head (limit : Z) : M SqlError (list PendingEvent) :=
  query (fun d now =>
    map (pending_event now) (take (Z.to_nat limit) (unpublished (e_outbox (t_events d))))).

Definition mark_published (n : nat) : M SqlError unit :=
  execute (fun d now => Ok (set_outbox (alter (published_row now) n) d, tt)).

Definition mark_failed (n : nat) (error : str) (retry_in : Z) : M SqlError unit :=
  execute (fun d now => Ok (set_outbox (alter (failed_row now error retry_in) n) d, tt)).

(** How many wait, and since how long the oldest does (a duration; the
    statement reads it as a float of seconds). *)
Definition backlog : M SqlError (Z * Z) :=
  query (fun d now =>
    let rows := map snd (unpublished (e_outbox (t_events d))) in
    (Z.of_nat (length rows),
     match map ob_created_at rows with
     | [] => 0
     | t :: ts => now - foldr Z.min t ts
     end)).
End Queue.

(** * The relay (services/events.rs) *)

Definition RELAY_BATCH : Z := 100.

Section Relay.
Context `{RedisServer} `{Env} `{CryptoCrates} `{Outward} `{Web}.

Definition ensure_user_stream {E} : M E (result unit str) := http js_stream.

Definition ensure_user_stream_once {E} : M E (result unit str) :=
  ready ← asks w_stream_ready;
  if ready : bool then mret (Ok tt)
  else
    declared ← ensure_user_stream;
    match declared with
    | Ok _ => _ ← tell set_stream_ready; mret (Ok tt)
    | Err e => mret (Err e)
    end.

(** The message id is the event's: the broker drops one it has seen. *)
Definition publication (r : PendingEvent) (body : bytes) : Publication :=
  {| pb_subject := pe_subject r; pb_message_id := uuid_str (pe_id r); pb_body := body |}.

Definition publish_one {E} (event : PendingEvent) : M E (result unit (str * str)) :=
  match json_to_vec (envelope (pe_payload event) (pe_id event) (pe_created_at event)) with
  | Err e => mret (Err (u"error", e))
  | Ok body =>
      let m := publication event body in
      stored ← http (fun n => js_publish n m);
      match stored with
      | StoredAcked => _ ← tell (add_sent (Published m)); mret (Ok tt)
      | StoredUnacked reason error => _ ← tell (add_sent (Published m)); mret (Err (reason, error))
      | NotStored reason error => mret (Err (reason, error))
      end
  end.

(** Stops at the first event not due or not published: those behind it wait. *)
Fixpoint publish_each (events : list PendingEvent) : M SqlError nat :=
  match events with
  | [] => mret 0%nat
  | event :: rest =>
      if negb (pe_due event) then mret 0%nat
      else
        outcome ← publish_one event;
        match outcome with
        | Ok _ =>
            _ ← mark_published (pe_seq event);
            published ← publish_each rest;
            mret (S published)
        | Err (_, error) =>
            let retry_in := retry_delay (Z.min I32_MAX (pe_attempts event + 1)) in
            _ ← mark_failed (pe_seq event) error retry_in;
            mret 0%nat
        end
  end.

Definition publish_pending : M SqlError nat :=
  ready ← ensure_user_stream_once;
  match ready with
  | Err _ => mret 0%nat
  | Ok _ => events ← head RELAY_BATCH; publish_each events
  end.

(** The connection, the backlog, the lock, the run and the unlocking, whose
    answer only decides what becomes of the connection. *)
Definition relay_once : M SqlError nat :=
  _ ← io SqlFailed (fun w => (w, Ok tt));
  waiting ← backlog;
  if waiting.1 =? 0 then mret 0%nat
  else
    locked ← io SqlFailed (fun w => (w, Ok (relay_lock_free (w_io w))));
    if negb locked then mret 0%nat
    else
      published ← attempt publish_pending;
      _ ← attempt (query (fun _ _ => true));
      lift published.

(** The inner loop of [spawn_relay]: again after a full batch.  [rounds] bounds
    the recursion; [None] is a bound that was too small. *)
Fixpoint relay_burst (rounds : nat) : M SqlError (option nat) :=
  match rounds with
  | O => mret None
  | S rounds =>
      outcome ← attempt relay_once;
      match outcome with
      | Ok published =>
          if Z.of_nat published =? RELAY_BATCH
          then more ← relay_burst rounds; mret ((fun m => (published + m)%nat) <$> more)
          else mret (Some published)
      | Err _ => mret (Some 0%nat)
      end
  end.
End Relay.
End Outbox.

(** * Deliveries (repositories/webhook.rs) *)

Module Hooks.

Record EndpointSettings := {
  es_url : str;
  es_description : option str;
  es_events : list str;
  es_enabled : bool;
}.

Record ClaimedDelivery := {
  cd_id : Uuid;
  cd_event_id : Uuid;
  cd_event_name : str;
  cd_payload : json;
  cd_occurred_at : Z;
  cd_attempts : Z;
  cd_endpoint_id : Uuid;
  cd_url : str;
  cd_secret : str;
}.

Definition endpoint_row (id : Uuid) (created now : Z) (settings : EndpointSettings) (secret : str) :
    WebhookEndpoint :=
  {| we_id := id; we_url := es_url settings; we_description := es_description settings;
     we_events := es_events settings; we_secret := secret; we_enabled := es_enabled settings;
     we_created_at := created; we_updated_at := now |}.

Definition is_endpoint (id : Uuid) (e : WebhookEndpoint) : bool := bool_decide (we_id e = id).

(** The constraints of the table (migrations/0016). *)
Definition settings_ok (settings : EndpointSettings) : bool :=
  (1 <=? char_count (es_url settings)) && (char_count (es_url settings) <=? 2000)
  && match es_description settings with Some d => char_count d <=? 200 | None => true end
  && negb (bool_decide (es_events settings = [])).

Definition with_secret (now : Z) (secret : str) (e : WebhookEndpoint) : WebhookEndpoint :=
  {| we_id := we_id e; we_url := we_url e; we_description := we_description e; we_events := we_events e;
     we_secret := secret; we_enabled := we_enabled e; we_created_at := we_created_at e; we_updated_at := now |}.

Definition is_delivery (id : Uuid) (r : WebhookDelivery) : bool := bool_decide (wd_id r = id).

Definition is_pending (r : WebhookDelivery) : bool :=
  bool_decide (wd_delivered_at r = None) && bool_decide (wd_failed_at r = None).

(** A row with its attempts, its next time, its outcomes and what was last seen. *)
Definition attempted (attempts next : Z) (delivered failed : option Z) (status : option Z)
    (error : option str) (r : WebhookDelivery) : WebhookDelivery :=
  {| wd_id := wd_id r; wd_endpoint_id := wd_endpoint_id r; wd_event_id := wd_event_id r;
     wd_event_name := wd_event_name r; wd_payload := wd_payload r; wd_occurred_at := wd_occurred_at r;
     wd_created_at := wd_created_at r; wd_attempts := attempts; wd_next_attempt_at := next;
     wd_delivered_at := delivered; wd_failed_at := failed; wd_last_status := status; wd_last_error := error |}.

Definition leased (until : Z) (r : WebhookDelivery) : WebhookDelivery :=
  attempted (wd_attempts r) until (wd_delivered_at r) (wd_failed_at r) (wd_last_status r) (wd_last_error r) r.

Definition delivered_row (now status : Z) (r : WebhookDelivery) : WebhookDelivery :=
  attempted (wd_attempts r + 1) (wd_next_attempt_at r) (Some now) (wd_failed_at r) (Some status) None r.

Definition failed_row (now : Z) (status : option Z) (error : str) (retry_in : option Z) (r : WebhookDelivery) :
    WebhookDelivery :=
  attempted (wd_attempts r + 1)
    (match retry_in with None => wd_next_attempt_at r | Some secs => now + seconds secs end)
    (wd_delivered_at r) (match retry_in with None => Some now | Some _ => None end)
    status (Some (take 500 error)) r.

Definition requeued (now : Z) (r : WebhookDelivery) : WebhookDelivery :=
  attempted 0 now None None (wd_last_status r) (wd_last_error r) r.

(** [webhook_deliveries_one_outcome] *)
Definition one_outcome (r : WebhookDelivery) : bool :=
  bool_decide (wd_delivered_at r = None) || bool_decide (wd_failed_at r = None).

Definition claimed_of (e : WebhookEndpoint) (r : WebhookDelivery) : ClaimedDelivery :=
  {| cd_id := wd_id r; cd_event_id := wd_event_id r; cd_event_name := wd_event_name r;
     cd_payload := wd_payload r; cd_occurred_at := wd_occurred_at r; cd_attempts := wd_attempts r;
     cd_endpoint_id := we_id e; cd_url := we_url e; cd_secret := we_secret e |}.

Definition find_in (id : Uuid) (d : Db) : option WebhookEndpoint :=
  List.find (is_endpoint id) (e_endpoints (t_events d)).

(** Waiting, its time come, its endpoint enabled. *)
Definition is_due (d : Db) (now : Z) (r : WebhookDelivery) : bool :=
  is_pending r && (wd_next_attempt_at r <=? now)
  && match find_in (wd_endpoint_id r) d with Some e => we_enabled e | None => false end.

Definition due_rows (limit : Z) (d : Db) (now : Z) : list WebhookDelivery :=
  take (Z.to_nat limit) (sort_by wd_next_attempt_at (List.filter (is_due d now) (e_deliveries (t_events d)))).

(** [UPDATE webhook_deliveries ... WHERE p], under its constraint. *)
Definition update_deliveries (p : WebhookDelivery -> bool) (f : WebhookDelivery -> WebhookDelivery) (d : Db) :
    result Db SqlError :=
  if forallb (fun r => one_outcome (f r)) (List.filter p (e_deliveries (t_events d)))
  then Ok (set_deliveries (update_where p f) d) else Err SqlFailed.

Definition with_answer {A E} (r : result Db E) (a : A) : result (Db * A) E :=
  match r with Ok d => Ok (d, a) | Err e => Err e end.

Section Repository.
Context `{RedisServer} `{Env}.

Definition create_endpoint (id : Uuid) (settings : EndpointSettings) (encrypted_secret : str) :
    M SqlError WebhookEndpoint :=
  execute (fun d now =>
    if negb (settings_ok settings) then Err SqlFailed
    else if existsb (is_endpoint id) (e_endpoints (t_events d))
    then Err (UniqueViolation u"webhook_endpoints_pkey")
    else let row := endpoint_row id now now settings encrypted_secret in
         Ok (set_endpoints (fun l => l ++ [row]) d, row)).

Definition update_endpoint (id : Uuid) (settings : EndpointSettings) : M SqlError (option WebhookEndpoint) :=
  execute (fun d now =>
    let f e := endpoint_row id (we_created_at e) now settings (we_secret e) in
    match find_in id d with
    | None => Ok (d, None)
    | Some e =>
        if negb (settings_ok settings) then Err SqlFailed
        else Ok (set_endpoints (update_where (is_endpoint id) f) d, Some (f e))
    end).

Definition replace_secret (id : Uuid) (encrypted_secret : str) : M SqlError bool :=
  execute (fun d now =>
    Ok (set_endpoints (update_where (is_endpoint id) (with_secret now encrypted_secret)) d,
        bool_decide (length (List.filter (is_endpoint id) (e_endpoints (t_events d))) = 1%nat))).

(** The deliveries of the endpoint go with it. *)
Definition delete_endpoint (id : Uuid) : M SqlError bool :=
  execute (fun d _ =>
    Ok (set_endpoints (without (is_endpoint id))
          (set_deliveries (without (fun r => bool_decide (wd_endpoint_id r = id))) d),
        bool_decide (length (List.filter (is_endpoint id) (e_endpoints (t_events d))) = 1%nat))).

Definition find_all_endpoints : M SqlError (list WebhookEndpoint) :=
  query (fun d _ => sort_by we_created_at (e_endpoints (t_events d))).

Definition find_endpoint (id : Uuid) : M SqlError (option WebhookEndpoint) := query (fun d _ => find_in id d).

Definition rewrap_secret (id : Uuid) (expected replacement : str) : M SqlError bool :=
  execute (fun d now =>
    let p e := is_endpoint id e && str_eqb (we_secret e) expected in
    Ok (set_endpoints (update_where p (with_secret now replacement)) d,
        bool_decide (length (List.filter p (e_endpoints (t_events d))) = 1%nat))).

(** One statement: what it claims it returns, and hides for the lease. *)
Definition claim_due (limit lease : Z) : M SqlError (list ClaimedDelivery) :=
  execute (fun d now =>
    let due := due_rows limit d now in
    let claimed := omap (fun r => (fun e => claimed_of e r) <$> find_in (wd_endpoint_id r) d) due in
    with_answer
      (update_deliveries (fun r => bool_decide (wd_id r ∈ map wd_id due)) (leased (now + seconds lease)) d)
      claimed).

Definition i16_or_max (status : Z) : Z := if status <=? I16_MAX then status else I16_MAX.

Definition mark_delivered (id : Uuid) (status : Z) : M SqlError unit :=
  execute (fun d now => with_answer (update_deliveries (is_delivery id) (delivered_row now (i16_or_max status)) d) tt).

Definition mark_attempt_failed (id : Uuid) (status : option Z) (error : str) (retry_in : option Z) : M SqlError unit :=
  execute (fun d now =>
    with_answer (update_deliveries (is_delivery id) (failed_row now (i16_or_max <$> status) error retry_in) d) tt).

Definition find_recent_deliveries (endpoint_id : Uuid) (limit : Z) : M SqlError (list WebhookDelivery) :=
  query (fun d _ => take (Z.to_nat limit) (reverse (sort_by wd_created_at
    (List.filter (fun r => bool_decide (wd_endpoint_id r = endpoint_id)) (e_deliveries (t_events d)))))).

Definition requeue (endpoint_id id : Uuid) : M SqlError bool :=
  execute (fun d now =>
    let p r := is_delivery id r && bool_decide (wd_endpoint_id r = endpoint_id) in
    with_answer (update_deliveries p (requeued now) d)
      (bool_decide (length (List.filter p (e_deliveries (t_events d))) = 1%nat))).

Definition pending_count : M SqlError Z :=
  query (fun d _ => Z.of_nat (length (List.filter is_pending (e_deliveries (t_events d))))).
End Repository.

(** * The dispatcher (services/webhooks.rs) *)

Definition BATCH : Z := 20.
Definition LEASE : Z := 300.

Inductive Outcome :=
| Delivered (status : Z)
| Failed (status : option Z) (error : str).

Definition is_success (status : Z) : bool := (200 <=? status) && (status <=? 299).

(** [Url::port_or_known_default] *)
Definition port_or_known_default (url : Url) : option Z :=
  match url_port url with
  | Some p => Some p
  | None =>
      let s := url_scheme url in
      if str_eqb s u"https" || str_eqb s u"wss" then Some 443
      else if str_eqb s u"http" || str_eqb s u"ws" then Some 80
      else if str_eqb s u"ftp" then Some 21 else None
  end.

Section Dispatcher.
Context `{RedisServer} `{Env} `{TimeCrate} `{CryptoCrates} `{MacCrate} `{AeadCrate} `{UrlCrate} `{Outward} `{Web}.

Definition is_blocked (addresses : list (IpAddr * Z)) : bool :=
  negb (allow_private_networks (cfg_webhooks config))
  && existsb (fun address => negb (Webhook.is_public_address address.1)) addresses.

Definition resolve {E} (url : Url) : M E (result (IpAddr * Z) str) :=
  match url_host_str url with
  | None => mret (Err u"url has no host")
  | Some host =>
      let host := trim_end_matches 93 (trim_start_matches 91 host) in
      match port_or_known_default url with
      | None => mret (Err u"url has no port")
      | Some port =>
          found ← http (fun n => lookup_host n host port);
          mret (match found with
                | Err e => Err (u"cannot resolve " ++ host ++ u": " ++ e)
                | Ok [] => Err (host ++ u" resolves to no address")
                | Ok (address :: more) =>
                    if is_blocked (address :: more) then Err (host ++ u" resolves to a blocked address")
                    else Ok address
                end)
      end
  end.

(** The key of the endpoint, from its sealed secret. *)
Definition signing_key (delivery : ClaimedDelivery) : option bytes :=
  match decrypt keyring (cd_secret delivery) (uuid_as_bytes (cd_endpoint_id delivery)) with
  | Ok secret => Webhook.secret_bytes b64_decode secret
  | Err _ => None
  end.

Definition message (delivery : ClaimedDelivery) : json :=
  match Outbox.envelope (cd_payload delivery) (cd_event_id delivery) (cd_occurred_at delivery) with
  | JObj object => JObj (map_insert u"event" (JStr (cd_event_name delivery)) object)
  | other => other
  end.

Definition post_of (key : bytes) (url : Url) (address : IpAddr * Z) (delivery : ClaimedDelivery)
    (timestamp : Z) (body : bytes) : Post :=
  let id := uuid_str (cd_event_id delivery) in
  {| po_address := address; po_url := url_as_str url; po_id := id; po_timestamp := to_string timestamp;
     po_signature := Webhook.signature hmac_sha256 b64_encode key id timestamp body; po_body := body |}.

Definition send {E} (p : Post) : M E (result Z HttpFailure) :=
  _ ← tell (add_sent (Posted p));
  http (fun n => http_post n p).

Definition outcome_of (reply : result Z HttpFailure) : Outcome :=
  match reply with
  | Ok status =>
      if is_success status then Delivered status
      else Failed (Some status) (u"endpoint answered " ++ status_text status)
  | Err TimedOut => Failed None u"timed out"
  | Err ConnectionFailed => Failed None u"connection failed"
  | Err RedirectRefused => Failed None u"redirect refused"
  | Err RequestFailed => Failed None u"request failed"
  end.

(** [attempt] of the source. *)
Definition attempt_delivery {E} (delivery : ClaimedDelivery) : M E Outcome :=
  match signing_key delivery with
  | None => mret (Failed None u"signing secret unreadable")
  | Some key =>
      match Webhook.check_url (cd_url delivery) (allow_http (cfg_webhooks config)) with
      | Err error => mret (Failed None error)
      | Ok url =>
          resolved ← resolve url;
          match resolved with
          | Err error => mret (Failed None error)
          | Ok address =>
              match json_to_vec (message delivery) with
              | Err e => mret (Failed None e)
              | Ok body =>
                  now ← clock_now;
                  let host := default [] (url_host_str url) in
                  match client_builds host address with
                  | Err e => mret (Failed None e)
                  | Ok _ =>
                      reply ← send (post_of key url address delivery (unix_timestamp now) body);
                      mret (outcome_of reply)
                  end
              end
          end
      end
  end.

Definition record (delivery : ClaimedDelivery) (outcome : Outcome) : M SqlError unit :=
  match outcome with
  | Delivered status => mark_delivered (cd_id delivery) status
  | Failed status error =>
      let attempts := Z.min I32_MAX (cd_attempts delivery + 1) in
      let retry_in := if attempts <? Webhook.MAX_ATTEMPTS then Some (Webhook.retry_delay attempts) else None in
      mark_attempt_failed (cd_id delivery) status error retry_in
  end.

(** One task. *)
Definition deliver (delivery : ClaimedDelivery) : M SqlError unit :=
  outcome ← attempt_delivery delivery;
  record delivery outcome.

(** A task dropped with its set. *)
Definition abandon (delivery : ClaimedDelivery) : M SqlError unit :=
  match progress (cd_id delivery) with
  | NotStarted => mret tt
  | Sending => _ ← attempt_delivery delivery; mret tt
  | Finished => _ ← attempt (deliver delivery); mret tt
  end.

Fixpoint abandon_all (l : list ClaimedDelivery) : M SqlError unit :=
  match l with
  | [] => mret tt
  | delivery :: rest => _ ← abandon delivery; abandon_all rest
  end.

(** The tasks in the order they end; the first that cannot be recorded ends the
    round and drops the others. *)
Fixpoint join_all (l : list ClaimedDelivery) : M SqlError unit :=
  match l with
  | [] => mret tt
  | delivery :: rest =>
      recorded ← attempt (deliver delivery);
      match recorded with
      | Ok _ => join_all rest
      | Err e => _ ← abandon_all rest; fail e
      end
  end.

Definition deliver_once : M SqlError nat :=
  pending ← pending_count;
  if pending =? 0 then mret 0%nat
  else
    claimed ← claim_due BATCH LEASE;
    _ ← join_all (join_order claimed);
    mret (length claimed).

(** The inner loop of [spawn_dispatcher]. *)
Fixpoint deliver_burst (rounds : nat) : M SqlError (option nat) :=
  match rounds with
  | O => mret None
  | S rounds =>
      outcome ← attempt deliver_once;
      match outcome with
      | Ok sent =>
          if Z.of_nat sent =? BATCH
          then more ← deliver_burst rounds; mret ((fun m => (sent + m)%nat) <$> more)
          else mret (Some sent)
      | Err _ => mret (Some 0%nat)
      end
  end.
End Dispatcher.

(** * Administration of the endpoints (services/webhooks.rs) *)

Record SavedEndpoint := { se_endpoint : WebhookEndpoint; se_secret : option str }.

Record EndpointInput := {
  in_url : str;
  in_description : option str;
  in_events : list str;
  in_enabled : bool;
}.

Section Administration.
Context `{RedisServer} `{Env} `{TimeCrate} `{CryptoCrates} `{SqlText} `{Passwords} `{AeadCrate} `{UrlCrate}.

Definition checked (input : EndpointInput) : result (list str * option str) AppError :=
  match Webhook.check_url (in_url input) (allow_http (cfg_webhooks config)) with
  | Err message => Err (Validation message)
  | Ok _ =>
      match Webhook.check_events (in_events input) with
      | Err message => Err (Validation message)
      | Ok events =>
          let description := d ← in_description input;
                             if bool_decide (trim d = []) then None else Some (trim d) in
          if match description with Some d => 200 <? char_count d | None => false end
          then Err (Validation u"description must be at most 200 characters")
          else Ok (events, description)
      end
  end.

(** The secret and its ciphertext, bound to the endpoint. *)
Definition new_secret (id : Uuid) : M AppError (str * str) :=
  key ← random_bytes 32;
  let secret := Webhook.format_secret b64_encode key in
  nonce ← random_bytes 12;
  encrypted ← lift (match encrypt keyring nonce secret (uuid_as_bytes id) with
                    | Ok c => Ok c | Err _ => Err Internal end);
  mret (secret, encrypted).

Definition url_host (url : str) : option str :=
  match url_parse url with Ok url => url_host_str url | Err _ => None end.

Definition host_json (url : str) : json := match url_host url with Some h => JStr h | None => JNull end.

Definition audit_change (actor : Actor) (action : AuditAction) (id : Uuid) (extra : list (str * json)) :
    M AppError unit :=
  let metadata := foldl (fun m f => map_insert f.1 f.2 m) [(u"webhook_id", JStr (uuid_str id))] extra in
  internal (audit_append (own_entry actor action (JObj metadata))).

Definition settings_of (input : EndpointInput) (events : list str) (description : option str) :
    EndpointSettings :=
  {| es_url := in_url input; es_description := description; es_events := events;
     es_enabled := in_enabled input |}.

Definition create (actor : Actor) (input : EndpointInput) : M AppError SavedEndpoint :=
  '(events, description) ← lift (checked input);
  _ ← require_reauth actor u"admin_create_webhook";
  id ← new_v4;
  '(secret, encrypted) ← new_secret id;
  endpoint ← transaction Internal (
    endpoint ← internal (create_endpoint id (settings_of input events description) encrypted);
    _ ← audit_change actor WebhookCreated (we_id endpoint) [(u"host", host_json (in_url input))];
    mret endpoint);
  mret {| se_endpoint := endpoint; se_secret := Some secret |}.

(** Another host gets another secret. *)
Definition update (actor : Actor) (id : Uuid) (input : EndpointInput) : M AppError SavedEndpoint :=
  '(events, description) ← lift (checked input);
  _ ← require_reauth actor u"admin_update_webhook";
  found ← internal (find_endpoint id);
  previous ← ok_or found NotFound;
  transaction Internal (
    updated ← internal (update_endpoint id (settings_of input events description));
    endpoint ← ok_or updated NotFound;
    let moved := negb (bool_decide (url_host (we_url previous) = url_host (in_url input))) in
    secret ← (if moved then
                '(secret, encrypted) ← new_secret id;
                _ ← internal (replace_secret id encrypted);
                mret (Some secret)
              else mret None);
    _ ← audit_change actor WebhookUpdated id
          [(u"previous_host", host_json (we_url previous)); (u"host", host_json (in_url input));
           (u"secret_rotated", JBool moved)];
    mret {| se_endpoint := endpoint; se_secret := secret |}).

Definition rotate_endpoint_secret (actor : Actor) (id : Uuid) : M AppError str :=
  _ ← require_reauth actor u"admin_webhook_secret";
  '(secret, encrypted) ← new_secret id;
  _ ← transaction Internal (
    replaced ← internal (replace_secret id encrypted);
    if negb replaced then fail NotFound
    else audit_change actor WebhookSecretRotated id []);
  mret secret.

Definition remove (actor : Actor) (id : Uuid) : M AppError unit :=
  _ ← require_reauth actor u"admin_delete_webhook";
  found ← internal (find_endpoint id);
  previous ← ok_or found NotFound;
  transaction Internal (
    deleted ← internal (delete_endpoint id);
    if negb deleted then fail NotFound
    else audit_change actor WebhookDeleted id [(u"host", host_json (we_url previous))]).

Definition redeliver (actor : Actor) (endpoint_id delivery_id : Uuid) : M AppError unit :=
  _ ← require_reauth actor u"admin_redeliver_webhook";
  transaction Internal (
    queued ← internal (requeue endpoint_id delivery_id);
    if negb queued then fail NotFound
    else audit_change actor WebhookUpdated endpoint_id [(u"redelivered", JStr (uuid_str delivery_id))]).
End Administration.
End Hooks.
