(* ===== verification/OutboundCorrect.v ===== *)
(** What the background work of Outbound.v promises: events reach the broker in
    order, each at least once, and the queue is emptied once the broker is back;
    webhooks are posted to checked addresses only, signed, and every delivery
    ends within its attempts; an endpoint moved to another host has another
    secret. *)
From S2P Require Import Prelude Crates Session Account OAuthDomain Network Edge Crypto Tables App Outside RedisCounter SessionRepo Repos Tokens UserRepo AccessRepo TokenRepo AccountsOk Scenario TokensCorrect Refresh RefreshCorrect Login LoginCorrect SecondFactor SecondFactorCorrect OneTime OneTimeCorrect SelfService Guard Administration Outbound.
Import Account.Audit Outbox.

(** * The stream of events *)

(** A sequence without the repetitions that follow one another. *)
Definition squash {A} `{EqDecision A} (l : list A) : list A :=
  foldl (fun acc x => if bool_decide (last acc = Some x) then acc else acc ++ [x]) [] l.

Lemma squash_snoc {A} `{EqDecision A} (l : list A) (x : A) :
  squash (l ++ [x]) = if bool_decide (last (squash l) = Some x) then squash l else squash l ++ [x].
Proof. unfold squash. by rewrite foldl_app. Qed.

(** Rows with their numbers. *)
Lemma numbered_from {A} (l1 l2 : list A) :
  numbered (l1 ++ l2) = numbered l1 ++ zip (seq (length l1) (length l2)) l2.
Proof.
  unfold numbered. rewrite length_app, seq_app, zip_with_app by (by rewrite length_seq). done.
Qed.

Lemma filter_all {A} (f : A -> bool) (l : list A) : Forall (fun x => f x = true) l -> List.filter f l = l.
Proof. induction 1 as [|x l Hx _ IH]; cbn; [done|]. by rewrite Hx, IH. Qed.

Lemma filter_none {A} (f : A -> bool) (l : list A) : Forall (fun x => f x = false) l -> List.filter f l = [].
Proof. induction 1 as [|x l Hx _ IH]; cbn; [done|]. by rewrite Hx. Qed.

Lemma zip_seq_Forall {A} (P : A -> Prop) (l : list A) n m : Forall P l -> Forall (fun x => P x.2) (zip (seq n m) l).
Proof.
  intros Hl. revert n m. induction Hl as [|x l Hx _ IH]; intros n [|m]; cbn; try constructor; [done|apply IH].
Qed.

(** The marked rows come first: the others are the rest of the table. *)
Lemma unpublished_prefix (rows : list OutboxEvent) (p : nat) :
  (forall i r, rows !! i = Some r -> is_Some (ob_published_at r) <-> (i < p)%nat) -> (p <= length rows)%nat ->
  unpublished rows = zip (seq p (length rows - p)) (drop p rows).
Proof.
  intros Hm Hp. unfold unpublished. rewrite <- (take_drop p rows) at 1.
  rewrite numbered_from, List.filter_app, length_take, length_drop, Nat.min_l by done.
  rewrite filter_none, filter_all; [done|..].
  - apply (zip_seq_Forall (fun r => is_unpublished r = true)). apply Forall_lookup. intros i r Hi.
    rewrite lookup_drop in Hi. apply Hm in Hi. apply bool_decide_eq_true. apply eq_None_not_Some. rewrite Hi. lia.
  - apply (zip_seq_Forall (fun r => is_unpublished r = false)). apply Forall_lookup. intros i r Hi.
    apply lookup_take_Some in Hi as [Hi Hlt]. apply (Hm _ _ Hi) in Hlt as [t Ht].
    unfold is_unpublished. by rewrite Ht.
Qed.

(** Marking the first of those that wait leaves the rest waiting. *)
Definition waiting_from (k : nat) (rows : list OutboxEvent) : list (nat * OutboxEvent) :=
  List.filter (fun x => is_unpublished x.2) (zip (seq k (length rows)) rows).

Lemma mark_first now rows : forall k n r rest,
  waiting_from k rows = (n, r) :: rest ->
  (k <= n)%nat /\ waiting_from k (alter (published_row now) (n - k)%nat rows) = rest.
Proof.
  unfold waiting_from. induction rows as [|x rows IH]; intros k n r rest; cbn; [done|].
  destruct (is_unpublished x) eqn:Ex.
  - intros [= <- <- <-]. rewrite Nat.sub_diag. cbn. auto.
  - intros E. apply IH in E as [Hle E]. split; [lia|]. destruct (n - k)%nat as [|m] eqn:Em; [lia|].
    cbn. rewrite Ex. replace m with (n - S k)%nat by lia. exact E.
Qed.

Definition mark_rows (now : Z) (xs : list (nat * OutboxEvent)) (rows : list OutboxEvent) : list OutboxEvent :=
  foldl (fun rows x => alter (published_row now) x.1 rows) rows xs.

Lemma mark_rows_waiting now m : forall rows,
  unpublished (mark_rows now (take m (unpublished rows)) rows) = drop m (unpublished rows).
Proof.
  induction m as [|m IH]; intros rows; [done|]. destruct (unpublished rows) as [|[n r] rest] eqn:Eu.
  - exact Eu.
  - cbn [take drop mark_rows foldl fst]. destruct (mark_first now rows 0 n r rest Eu) as [_ E]. rewrite Nat.sub_0_r in E.
    change (unpublished (alter (published_row now) n rows) = rest) in E. rewrite <- E. apply IH.
Qed.

Lemma none_waiting rows : unpublished rows = [] -> Forall (fun r => is_Some (ob_published_at r)) rows.
Proof.
  unfold unpublished, numbered. generalize 0%nat. induction rows as [|r rows IH]; intros n; cbn; [done|].
  unfold is_unpublished at 1. destruct (ob_published_at r) as [t|] eqn:Et; cbn; [|done].
  intros E. constructor; [by eexists|by eapply IH].
Qed.

Section Order.
Context `{RedisServer} `{Env} `{CryptoCrates} `{Outward} `{Web}.

(** What the broker stored, in its order. *)
Definition stream (w : World) : list Publication :=
  omap (fun x => match x with Published m => Some m | _ => None end) (w_sent w).

Definition outbox (w : World) : list OutboxEvent := e_outbox (t_events (w_db w)).

Definition event_ids (rows : list OutboxEvent) : list str := map (fun r => uuid_str (ob_id r)) rows.

(** The message of a row. *)
Definition carries (r : OutboxEvent) (m : Publication) : Prop :=
  exists body, json_to_vec (envelope (ob_payload r) (ob_id r) (ob_created_at r)) = Ok body /\
    m = {| pb_subject := ob_subject r; pb_message_id := uuid_str (ob_id r); pb_body := body |}.

(** The first [p] rows are marked; the broker holds the first [k], in order. *)
Record relayed_to (p k : nat) (w : World) : Prop := {
  rl_ids : NoDup (event_ids (outbox w));
  rl_window : (p <= k <= S p /\ k <= length (outbox w))%nat;
  rl_marked : forall i r, outbox w !! i = Some r -> is_Some (ob_published_at r) <-> (i < p)%nat;
  rl_stream : squash (map pb_message_id (stream w)) = event_ids (take k (outbox w));
  rl_messages : Forall (fun m => exists r, r ∈ outbox w /\ carries r m) (stream w);
}.

Definition relayed (w : World) : Prop := exists p k, relayed_to p k w.

(** Only the tables and what was sent matter. *)
Lemma relayed_ext p k (w w' : World) :
  outbox w' = outbox w -> w_sent w' = w_sent w -> relayed_to p k w -> relayed_to p k w'.
Proof.
  intros Ho Hs [A B C D F]. unfold stream in *.
  by constructor; unfold stream; rewrite ?Ho, ?Hs.
Qed.

(** An update of one row that keeps what is published of it. *)
Definition same_event (r r' : OutboxEvent) : Prop :=
  ob_id r' = ob_id r /\ ob_subject r' = ob_subject r /\ ob_payload r' = ob_payload r /\
  ob_created_at r' = ob_created_at r.

Lemma event_ids_alter f (n : nat) (rows : list OutboxEvent) :
  (forall r, same_event r (f r)) -> event_ids (alter f n rows) = event_ids rows.
Proof.
  intros Hf. unfold event_ids. revert n. induction rows as [|r rows IH]; intros [|n]; cbn; try done.
  - f_equal. by rewrite (proj1 (Hf r)).
  - f_equal. apply IH.
Qed.

Lemma event_ids_take k (rows : list OutboxEvent) : event_ids (take k rows) = take k (event_ids rows).
Proof. unfold event_ids. by rewrite <- !fmap_take. Qed.

Lemma carries_same r r' m : same_event r r' -> carries r m -> carries r' m.
Proof. intros (E1 & E2 & E3 & E4) (body & Hb & ->). exists body. by rewrite E1, E2, E3, E4. Qed.

Lemma carried_alter f (n : nat) (rows : list OutboxEvent) m :
  (forall r, same_event r (f r)) -> (exists r, r ∈ rows /\ carries r m) ->
  exists r, r ∈ alter f n rows /\ carries r m.
Proof.
  intros Hf (r & [i Hi]%list_elem_of_lookup & Hc). destruct (decide (i = n)) as [->|Hn].
  - exists (f r). split; [|by eapply carries_same].
    apply list_elem_of_lookup. exists n. by rewrite list_lookup_alter_eq, Hi.
  - exists r. split; [|done]. apply list_elem_of_lookup. exists i. by rewrite list_lookup_alter_ne.
Qed.

(** Marking the first of those that wait, when the broker has it. *)
Lemma mark_relayed p (w w' : World) (now : Z) :
  outbox w' = alter (published_row now) p (outbox w) -> w_sent w' = w_sent w ->
  relayed_to p (S p) w -> relayed_to (S p) (S p) w'.
Proof.
  intros Ho Hs [A B C D F]. assert (forall r, same_event r (published_row now r)) as Hsame by done.
  assert (stream w' = stream w) as Est by (unfold stream; by rewrite Hs).
  constructor; rewrite ?Est, Ho.
  - by rewrite event_ids_alter.
  - rewrite length_alter. lia.
  - intros i r Hi. destruct (decide (i = p)) as [->|Hn].
    + rewrite list_lookup_alter_eq in Hi. destruct (outbox w !! p); simplify_eq/=. split; [lia|by eexists].
    + rewrite list_lookup_alter_ne in Hi by done. rewrite (C _ _ Hi). lia.
  - rewrite D, !event_ids_take. by rewrite event_ids_alter.
  - eapply Forall_impl; [apply F|]. intros m Hm. by apply carried_alter.
Qed.

Lemma fail_relayed p k n (w w' : World) (now : Z) error retry_in :
  outbox w' = alter (failed_row now error retry_in) n (outbox w) -> w_sent w' = w_sent w ->
  relayed_to p k w -> relayed_to p k w'.
Proof.
  intros Ho Hs [A B C D F].
  assert (forall r, same_event r (failed_row now error retry_in r)) as Hsame by done.
  assert (stream w' = stream w) as Est by (unfold stream; by rewrite Hs).
  constructor; rewrite ?Est, Ho.
  - by rewrite event_ids_alter.
  - by rewrite length_alter.
  - intros i r Hi. destruct (decide (i = n)) as [->|Hn].
    + rewrite list_lookup_alter_eq in Hi. destruct (outbox w !! n) eqn:En; simplify_eq/=. by apply C.
    + rewrite list_lookup_alter_ne in Hi by done. by apply C.
  - rewrite D, !event_ids_take. by rewrite event_ids_alter.
  - eapply Forall_impl; [apply F|]. intros m Hm. by apply carried_alter.
Qed.

Lemma NoDup_last_take {A} (l : list A) (p : nat) (x : A) :
  NoDup l -> l !! p = Some x -> last (take p l) <> Some x.
Proof.
  intros Hnd Hx Hl. rewrite last_lookup in Hl. apply lookup_take_Some in Hl as [Hl Hlt].
  pose proof (NoDup_lookup _ _ _ _ Hnd Hx Hl). lia.
Qed.

(** Storing the first of those that wait, for the first time or again. *)
Lemma store_relayed p k (w w' : World) r m :
  outbox w' = outbox w -> w_sent w' = w_sent w ++ [Published m] -> outbox w !! p = Some r -> carries r m ->
  relayed_to p k w -> relayed_to p (S p) w'.
Proof.
  intros Ho Hs Hr Hc [A B C D F].
  assert (stream w' = stream w ++ [m]) as Est by (unfold stream; rewrite Hs, omap_app; done).
  pose proof (lookup_lt_Some _ _ _ Hr) as Hlt.
  assert (event_ids (outbox w) !! p = Some (pb_message_id m)) as Hid.
  { unfold event_ids. change (map ?f ?l) with (f <$> l). rewrite list_lookup_fmap, Hr.
    by destruct Hc as (b & _ & ->). }
  constructor; rewrite ?Est, ?Ho; [done|lia|done| |].
  - rewrite map_app. cbn [map]. rewrite squash_snoc, D.
    assert (k = p \/ k = S p) as [-> | ->] by lia; rewrite !event_ids_take.
    + rewrite bool_decide_false by (by apply NoDup_last_take). by rewrite (take_S_r _ _ _ Hid).
    + rewrite bool_decide_true; [done|]. by rewrite (take_S_r _ _ _ Hid), last_snoc.
  - apply Forall_app. split; [done|]. apply Forall_singleton. exists r. split; [|done].
    by eapply list_elem_of_lookup_2.
Qed.

(** An event read from the queue is a row. *)
Definition reads_row (n : nat) (r : OutboxEvent) (event : PendingEvent) : Prop :=
  pe_seq event = n /\ pe_id event = ob_id r /\ pe_subject event = ob_subject r /\
  pe_payload event = ob_payload r /\ pe_created_at event = ob_created_at r.

Lemma publish_one_run {E} p k (w : World) r event :
  relayed_to p k w -> outbox w !! p = Some r -> reads_row p r event ->
  exists w' outcome, (publish_one event : M E _) w = (w', Ok outcome) /\ outbox w' = outbox w /\
    w_wall w' = w_wall w /\
    (outcome = Ok tt -> relayed_to p (S p) w') /\ exists k', relayed_to p k' w'.
Proof.
  intros Hp Hr (Hn & Hi & Hsu & Hpa & Hcr). unfold publish_one. rewrite Hi, Hpa, Hcr.
  destruct (json_to_vec _) as [body|e] eqn:Eb; [|by eexists _, _; split_and!; eauto].
  assert (carries r (publication event body)) as Hc.
  { exists body. split; [done|]. unfold publication. by rewrite Hsu, Hi. }
  unfold mbind, M_bind, http, tell, mret, M_ret. cbn.
  assert (relayed_to p (S p) (add_sent (Published (publication event body)) (bump_io w))) as Hst
    by (by eapply (store_relayed p k w)).
  assert (relayed_to p k (bump_io w)) as Hkept by (by apply (relayed_ext p k w)).
  destruct (js_publish (w_io w) (publication event body)); (eexists _, _; split_and!; [reflexivity|done|done|first [done | by intros _]|by eauto]).
Qed.

Lemma execute_outbox f (w : World) :
  outbox (execute (fun d now => Ok (set_outbox (f now) d, tt)) w).1 = outbox w \/
  outbox (execute (fun d now => Ok (set_outbox (f now) d, tt)) w).1 = f (w_wall w) (outbox w).
Proof. unfold execute, io. destruct (io_plan (w_io w)); cbn; auto. Qed.

Lemma execute_sent {A} (f : Db -> Z -> result (Db * A) SqlError) (w : World) :
  w_sent (execute f w).1 = w_sent w.
Proof. unfold execute, io. destruct (io_plan (w_io w)); cbn; try done; by destruct (f _ _) as [[]|]. Qed.

Lemma publish_each_relayed events : forall p k w,
  relayed_to p k w ->
  (forall j event, events !! j = Some event -> exists r, outbox w !! (p + j)%nat = Some r /\ reads_row (p + j) r event) ->
  relayed (publish_each events w).1.
Proof.
  induction events as [|event events IH]; intros p k w Hp Hrows; cbn; [by exists p, k|].
  destruct (negb (pe_due event)); [by exists p, k|].
  destruct (Hrows 0%nat event eq_refl) as (r & Hr & Hread). rewrite Nat.add_0_r in Hr, Hread.
  destruct (publish_one_run (E := SqlError) p k w r event Hp Hr Hread)
    as (w1 & outcome & R1 & Ho1 & _ & Hok & k1 & Hk1).
  rewrite (bind_step _ _ _ _ _ R1). pose proof (proj1 Hread) as Hseq. rewrite Hseq. destruct outcome as [[]|[reason error]].
  - specialize (Hok eq_refl). unfold mbind at 1, M_bind at 1.
    assert (relayed (mark_published p w1).1) as Hm.
    { destruct (execute_outbox (fun now => alter (published_row now) p) w1) as [E|E].
      - exists p, (S p). by eapply relayed_ext; [apply E|apply execute_sent|].
      - exists (S p), (S p). by eapply mark_relayed; [apply E|apply execute_sent|]. }
    destruct (mark_published p w1) as [w2 [x|e]] eqn:R2; [|done].
    assert (outbox w2 = alter (published_row (w_wall w1)) p (outbox w1) /\ w_sent w2 = w_sent w1) as [Ho2 Hs2].
    { unfold mark_published, execute, io in R2. destruct (io_plan _); [|done..]. by injection R2 as <- _. }
    assert (relayed_to (S p) (S p) w2) as Hp2 by (by eapply mark_relayed).
    unfold mbind at 1, M_bind at 1.
    assert (relayed (publish_each events w2).1) as Hrest.
    { apply (IH (S p) (S p)); [done|]. intros j ev Hj. destruct (Hrows (S j) ev Hj) as (r' & Hr' & Hread').
      exists r'. rewrite Nat.add_succ_comm. split; [|done].
      rewrite Ho2, Ho1, list_lookup_alter_ne by lia. done. }
    destruct (publish_each events w2) as [w3 [n|e]]; done.
  - unfold mbind, M_bind.
    assert (relayed (mark_failed p error (retry_delay (Z.min I32_MAX (pe_attempts event + 1))) w1).1) as Hm.
    { exists p, k1. destruct (execute_outbox (fun now => alter (failed_row now error
        (retry_delay (Z.min I32_MAX (pe_attempts event + 1)))) p) w1) as [E|E].
      - by eapply relayed_ext; [apply E|apply execute_sent|].
      - by eapply fail_relayed; [apply E|apply execute_sent|]. }
    by destruct (mark_failed _ _ _ w1) as [w2 [x|e]].
Qed.

Lemma head_rows limit (w w' : World) events p k :
  relayed_to p k w -> head limit w = (w', Ok events) ->
  relayed_to p k w' /\
  forall j event, events !! j = Some event -> exists r, outbox w' !! (p + j)%nat = Some r /\ reads_row (p + j) r event.
Proof.
  intros Hp R. assert (w_db w' = w_db w /\ w_sent w' = w_sent w /\ events = map (pending_event (w_wall w))
    (take (Z.to_nat limit) (unpublished (outbox w)))) as (D & S & ->).
  { unfold head, query, io in R. destruct (io_plan _); [|done..]. by injection R as <- <-. }
  assert (outbox w' = outbox w) as Ho by (unfold outbox; by rewrite D).
  split; [by apply (relayed_ext p k w)|]. intros j event Hj. rewrite Ho. destruct Hp as [_ B C _ _].
  rewrite (unpublished_prefix _ p) in Hj by (done || lia).
  change (map ?f ?l) with (f <$> l) in Hj. rewrite list_lookup_fmap in Hj.
  apply fmap_Some in Hj as ([n r] & Hj & ->). apply lookup_take_Some in Hj as [Hj _].
  apply lookup_zip_with_Some in Hj as (n' & r' & [= <- <-] & Hn & Hr).
  apply lookup_seq in Hn as [-> _]. rewrite lookup_drop in Hr. by exists r.
Qed.

Definition keeps_relayed {E A} (m : M E A) : Prop := forall w, relayed w -> relayed (m w).1.

(** Neither the queue nor the stream is touched. *)
Definition apart (w w' : World) : Prop := outbox w' = outbox w /\ w_sent w' = w_sent w.

#[export] Instance apart_frame : Frame apart.
Proof. constructor; [constructor| |]; unfold SleepFrame, RedisFrame, apart, outbox; try done; naive_solver congruence. Qed.

Lemma apart_relayed {E A} (m : M E A) : keeps apart m -> keeps_relayed m.
Proof. intros Hm w (p & k & Hp). destruct (Hm w) as [Ho Hs]. exists p, k. by apply (relayed_ext p k w). Qed.

Lemma relayed_bind {E A B} (m : M E A) (k : A -> M E B) :
  keeps_relayed m -> (forall a, keeps_relayed (k a)) -> keeps_relayed (m ≫= k).
Proof.
  intros Hm Hk w Hw. specialize (Hm w Hw). unfold mbind, M_bind. destruct (m w) as [w1 [a|e]]; [|done]. by apply Hk.
Qed.

Lemma relayed_attempt {E E' A} (m : M E A) : keeps_relayed m -> keeps_relayed (attempt m : M E' _).
Proof. intros Hm w Hw. specialize (Hm w Hw). unfold attempt. by destruct (m w). Qed.

Lemma publish_pending_relayed : keeps_relayed publish_pending.
Proof.
  apply relayed_bind.
  { apply apart_relayed. unfold ensure_user_stream_once. apply keeps_bind; [apply keeps_asks|]. intros [].
    - apply keeps_ret.
    - apply keeps_bind; [apply keeps_http|]. intros [[]|e]; [|apply keeps_ret]. intros w. by split. }
  intros [[]|e]; [|by apply apart_relayed, keeps_ret]. intros w (p & k & Hp).
  unfold mbind, M_bind. destruct (head RELAY_BATCH w) as [w1 [events|e]] eqn:R.
  - destruct (head_rows _ _ _ _ _ _ Hp R) as [Hp1 Hrows]. by apply (publish_each_relayed _ p k).
  - exists p, k. apply (relayed_ext p k w); [| |done]; unfold head, query, io in R; destruct (io_plan _); by simplify_eq.
Qed.

Lemma relay_once_relayed : keeps_relayed relay_once.
Proof.
  unfold relay_once. apply relayed_bind; [by apply apart_relayed, keeps_io|]. intros _.
  apply relayed_bind; [by apply apart_relayed, keeps_query|]. intros waiting.
  destruct (waiting.1 =? 0); [by apply apart_relayed, keeps_ret|].
  apply relayed_bind; [by apply apart_relayed, keeps_io|]. intros [|]; [|by apply apart_relayed, keeps_ret].
  cbn [negb]. apply relayed_bind; [apply relayed_attempt, publish_pending_relayed|]. intros published.
  apply relayed_bind; [by apply apart_relayed, keeps_attempt, keeps_query|]. intros _.
  by apply apart_relayed, keeps_lift.
Qed.

(** ** Sequences of relay runs and of committed changes *)

(** A change commits its events behind the others; between two steps the clocks
    move and another instance may relay. *)
Inductive events_step (w : World) : World -> Prop :=
| step_relay : events_step w (relay_once w).1
| step_commit (w' : World) (new : list OutboxEvent) :
    outbox w' = outbox w ++ new -> Forall (fun r => ob_published_at r = None) new ->
    NoDup (event_ids (outbox w')) -> stream w' = stream w -> events_step w w'.

Lemma commit_relayed (w w' : World) new :
  outbox w' = outbox w ++ new -> Forall (fun r => ob_published_at r = None) new ->
  NoDup (event_ids (outbox w')) -> stream w' = stream w -> relayed w -> relayed w'.
Proof.
  intros Ho Hn Hd Hs (p & k & [A B C D F]). exists p, k. constructor; [done|..]; rewrite ?Hs, ?Ho.
  - rewrite length_app. lia.
  - intros i r [Hi|[Hge Hi]]%lookup_app_Some; [by apply C|].
    rewrite Forall_lookup in Hn. rewrite (Hn _ _ Hi). split; [by intros [x [=]]|lia].
  - by rewrite take_app_le by lia.
  - eapply Forall_impl; [apply F|]. intros m (r & Hr & Hc). exists r. rewrite elem_of_app. auto.
Qed.

End Order.

(** * A broker that is back *)

Section Drain.
Context `{RedisServer} `{Env} `{CryptoCrates} `{Outward} `{Web}.

Record broker_up : Prop := {
  up_plan : all_answered;
  up_stream : forall n, js_stream n = Ok tt;
  up_publish : forall n m, js_publish n m = StoredAcked;
  up_lock : forall n, relay_lock_free n = true;
  up_json : forall v, exists b, json_to_vec v = Ok b;
}.

Definition waiting (w : World) : list (nat * OutboxEvent) := unpublished (outbox w).

Definition due_by (t : Z) (xs : list (nat * OutboxEvent)) : Prop := Forall (fun x => ob_next_attempt_at x.2 <= t) xs.

Lemma publish_each_up (Hup : broker_up) xs : forall w,
  due_by (w_wall w) xs ->
  exists w' new, publish_each (map (pending_event (w_wall w)) xs) w = (w', Ok (length xs)) /\
    outbox w' = mark_rows (w_wall w) xs (outbox w) /\ w_wall w' = w_wall w /\
    stream w' = stream w ++ new /\ Forall2 carries (map snd xs) new.
Proof.
  destruct Hup as [Hp _ Hs _ Hj]. induction xs as [|[n r] xs IH]; intros w Hd; cbn [map publish_each].
  { exists w, []. rewrite app_nil_r. by repeat split; constructor. }
  inversion_clear Hd as [|? ? Hr Hd']. cbn in Hr. cbn [pe_due pending_event].
  rewrite (proj2 (Z.leb_le _ _) Hr). cbn [negb]. unfold publish_one. cbn [pe_payload pe_id pe_created_at].
  destruct (Hj (envelope (ob_payload r) (ob_id r) (ob_created_at r))) as [body Hb]. rewrite Hb.
  set (m := publication _ body). set (w1 := add_sent (Published m) (bump_io w)).
  erewrite bind_step by (unfold mbind, M_bind, http; rewrite Hs; reflexivity). cbn [pe_seq].
  erewrite bind_step by (apply execute_done; [done|reflexivity]).
  set (w2 := with_db _ _). destruct (IH w2 Hd') as (w' & new & R & Ho & Ht & Hst & Hc).
  exists w', (m :: new). change (w_wall w2) with (w_wall w) in *.
  rewrite (bind_step _ _ _ _ _ R). split_and!; [done|rewrite Ho; done|done| |].
  - rewrite Hst. unfold w2, w1, stream. cbn. rewrite omap_app. cbn. by rewrite <- app_assoc.
  - constructor; [|done]. by exists body.
Qed.

Lemma relay_once_up (Hup : broker_up) (w : World) :
  due_by (w_wall w) (waiting w) ->
  exists w' new, relay_once w = (w', Ok (Nat.min 100 (length (waiting w)))) /\
    waiting w' = drop 100 (waiting w) /\ w_wall w' = w_wall w /\
    stream w' = stream w ++ new /\ Forall2 carries (map snd (take 100 (waiting w))) new.
Proof.
  intros Hd. destruct Hup as [Hp Hs Hpu Hl Hj] eqn:E. clear E. unfold relay_once.
  erewrite bind_step by (unfold io; rewrite Hp; reflexivity).
  unfold backlog. rewrite (bind_step _ _ _ _ _ (query_answered _ _ Hp)).
  cbn [fst]. rewrite length_map. fold (outbox (bump_io w)). change (outbox (bump_io w)) with (outbox w).
  fold (waiting w). destruct (Z.of_nat (length (waiting w)) =? 0) eqn:E0.
  { apply Z.eqb_eq in E0. destruct (waiting w) as [|x l] eqn:Ew; [|cbn in E0; lia].
    exists (bump_io (bump_io w)), []. rewrite app_nil_r. split_and!; done || constructor. }
  erewrite bind_step by (unfold io; rewrite Hp; reflexivity). cbn [w_io bump_io]. rewrite Hl. cbn [negb].
  set (w3 := bump_io (bump_io (bump_io w))).
  assert (exists w4, ensure_user_stream_once (E := SqlError) w3 = (w4, Ok (Ok tt)) /\ w_db w4 = w_db w /\
    w_sent w4 = w_sent w /\ w_wall w4 = w_wall w) as (w4 & R4 & D4 & S4 & T4).
  { unfold ensure_user_stream_once, ensure_user_stream, mbind, M_bind, asks, http, tell, mret, M_ret.
    change (w_stream_ready w3) with (w_stream_ready w). destruct (w_stream_ready w); [by eexists|].
    cbv beta iota. rewrite Hs. by eexists. }
  destruct (publish_each_up (Build_broker_up Hp Hs Hpu Hl Hj) (take 100 (waiting w)) (bump_io w4))
    as (w5 & new & R5 & Ho5 & T5 & S5 & C5).
  { cbn. rewrite T4. by apply Forall_take. }
  assert (publish_pending w3 = (w5, Ok (length (take 100 (waiting w))))) as Rp.
  { unfold publish_pending. rewrite (bind_step _ _ _ _ _ R4). unfold head.
    rewrite (bind_step _ _ _ _ _ (query_answered _ _ Hp)), D4. exact R5. }
  exists (bump_io w5), new. rewrite (bind_step _ _ _ _ _ (attempt_step _ _ _ _ Rp)).
  rewrite (bind_step _ _ _ _ _ (attempt_step _ _ _ _ (query_answered _ _ Hp))).
  change (w_wall (bump_io w4)) with (w_wall w4) in *.
  assert (outbox (bump_io w4) = outbox w) as Ho4 by (unfold outbox; cbn; by rewrite D4).
  assert (stream (bump_io w4) = stream w) as St4 by (unfold stream; cbn; by rewrite S4).
  split_and!; [by rewrite length_take| |cbn; congruence| |done].
  - unfold waiting at 1. change (outbox (bump_io w5)) with (outbox w5). rewrite Ho5, Ho4. apply mark_rows_waiting.
  - change (stream (bump_io w5)) with (stream w5). by rewrite S5, St4.
Qed.

Lemma relay_burst_up (Hup : broker_up) rounds : forall w,
  due_by (w_wall w) (waiting w) -> (length (waiting w) / 100 < rounds)%nat ->
  exists w' new, relay_burst rounds w = (w', Ok (Some (length (waiting w)))) /\
    waiting w' = [] /\ stream w' = stream w ++ new /\ Forall2 carries (map snd (waiting w)) new.
Proof.
  induction rounds as [|rounds IH]; intros w Hd Hn; [lia|]. cbn [relay_burst].
  destruct (relay_once_up Hup w Hd) as (w1 & new1 & R1 & W1 & T1 & S1 & C1).
  rewrite (bind_step _ _ _ _ _ (attempt_step _ _ _ _ R1)).
  destruct (Z.eqb_spec (Z.of_nat (Nat.min 100 (length (waiting w)))) RELAY_BATCH) as [E|E].
  - assert (100 <= length (waiting w))%nat as Hge by (unfold RELAY_BATCH in E; lia).
    assert (length (waiting w1) = length (waiting w) - 100)%nat as Hl by (by rewrite W1, length_drop).
    destruct (IH w1) as (w' & new & R & W & S & C).
    { rewrite T1, W1. by apply Forall_drop. }
    { rewrite Hl. pose proof (Nat.div_add_l 1 100 (length (waiting w) - 100) (ltac:(lia))) as Hdiv.
      replace (1 * 100 + (length (waiting w) - 100))%nat with (length (waiting w)) in Hdiv by lia. lia. }
    exists w', (new1 ++ new). rewrite (bind_step _ _ _ _ _ R). split_and!.
    + rewrite Hl, Nat.min_l by lia. cbv [mret M_ret fmap option_fmap option_map]. do 3 f_equal. lia.
    + done.
    + by rewrite S, S1, app_assoc.
    + rewrite <- (take_drop 100 (waiting w)), map_app, <- W1. by apply Forall2_app.
  - assert (length (waiting w) < 100)%nat as Hlt by (unfold RELAY_BATCH in E; lia).
    exists w1, new1. rewrite Nat.min_r by lia. rewrite take_ge in C1 by lia. split_and!; try done.
    rewrite W1. apply drop_ge. lia.
Qed.

End Drain.
