(* ===== verification/HooksCorrect.v ===== *)
(** What the webhook dispatcher of Outbound.v promises: requests go to checked
    addresses only, signed with the endpoint's secret; a delivery never exceeds
    its attempts and ends, whatever the endpoint answers; an endpoint moved to
    another host has another secret. *)
From S2P Require Import Prelude Crates Session Account OAuthDomain Network Edge Crypto Tables App Outside RedisCounter SessionRepo Repos Tokens UserRepo AccessRepo TokenRepo AccountsOk Scenario TokensCorrect Refresh RefreshCorrect Login LoginCorrect SecondFactor SecondFactorCorrect OneTime OneTimeCorrect SelfService Guard Administration Office Outbound OutboundCorrect.
Import Account.Audit Hooks.

(** * What is posted, and where *)

Section Posts.
Context `{RedisServer} `{Env} `{TimeCrate} `{CryptoCrates} `{MacCrate} `{AeadCrate} `{UrlCrate} `{Outward} `{Web}.

(** A request of a due delivery: to an endpoint that is enabled, at a URL that
    may be called, to the first of the addresses its host resolves to, all
    public unless private networks are allowed, and signed with its secret. *)
Definition post_of_claim (c : ClaimedDelivery) (now : Z) (p : Post) : Prop :=
  exists key url host port n address more body,
    signing_key c = Some key /\
    Webhook.check_url (cd_url c) (allow_http (cfg_webhooks config)) = Ok url /\
    url_host_str url = Some host /\
    lookup_host n (trim_end_matches 93 (trim_start_matches 91 host)) port = Ok (address :: more) /\
    (allow_private_networks (cfg_webhooks config) = false ->
     Forall (fun a => Webhook.is_public_address a.1 = true) (address :: more)) /\
    json_to_vec (message c) = Ok body /\
    p = post_of key url address c (unix_timestamp now) body.

(** The claims a statement may make on the tables. *)
Definition claims (d : Db) (t : Z) (c : ClaimedDelivery) : Prop :=
  exists r e, r ∈ e_deliveries (t_events d) /\ is_due d t r = true /\
    find_in (wd_endpoint_id r) d = Some e /\ we_enabled e = true /\ c = claimed_of e r.

(** What was sent since is posts of [P]. *)
Definition posts (P : Z -> Post -> Prop) (w w' : World) : Prop :=
  w_now w' = w_now w /\ exists new, w_sent w' = w_sent w ++ map Posted new /\ Forall (P (w_now w)) new.

#[export] Instance posts_frame P : Frame (posts P).
Proof.
  constructor; [constructor| |]; unfold SleepFrame, RedisFrame, posts;
    try (intros; split; [done|]; exists []; rewrite app_nil_r; by split; [|constructor]).
  intros w1 w2 w3 [N1 (l1 & S1 & F1)] [N2 (l2 & S2 & F2)]. split; [congruence|]. exists (l1 ++ l2).
  rewrite map_app, app_assoc, <- S1. split; [done|]. rewrite N1 in F2. by apply Forall_app.
Qed.

#[export] Instance posts_reads P : Reads (posts P) [].
Proof. intros w d _. split; [done|]. exists []. rewrite app_nil_r. by split; [|constructor]. Qed.

Lemma posts_execute {A} P (f : Db -> Z -> result (Db * A) SqlError) : keeps (posts P) (execute f).
Proof. apply (keeps_reads []). by intros ? ? ? ? _ tb ?%not_elem_of_nil. Qed.

Lemma not_blocked addresses :
  is_blocked addresses = false -> allow_private_networks (cfg_webhooks config) = false ->
  Forall (fun a => Webhook.is_public_address a.1 = true) addresses.
Proof.
  unfold is_blocked. intros Hb Hp. rewrite Hp in Hb. cbn in Hb. apply Forall_forall. intros a Ha.
  destruct (Webhook.is_public_address a.1) eqn:Ea; [done|].
  assert (existsb (fun a => negb (Webhook.is_public_address a.1)) addresses = true); [|congruence].
  apply existsb_exists. exists a. split; [by apply list_elem_of_In|by rewrite Ea].
Qed.

Lemma resolve_Ok {E} url (w w' : World) address :
  (resolve url : M E _) w = (w', Ok (Ok address)) ->
  exists host port n more, url_host_str url = Some host /\
    lookup_host n (trim_end_matches 93 (trim_start_matches 91 host)) port = Ok (address :: more) /\
    (allow_private_networks (cfg_webhooks config) = false ->
     Forall (fun a => Webhook.is_public_address a.1 = true) (address :: more)).
Proof.
  unfold resolve. destruct (url_host_str url) as [host|]; [|intros [= ]].
  destruct (port_or_known_default url) as [port|]; [|intros [= ]].
  unfold mbind, M_bind, http, mret, M_ret.
  destruct (lookup_host (w_io w) _ port) as [[|a more]|e] eqn:El; try (intros [= ]; done).
  destruct (is_blocked (a :: more)) eqn:Eb; intros [= _ <-].
  exists host, port, (w_io w), more. split_and!; [done..|by apply not_blocked].
Qed.

Lemma posts_attempt {E} (P : Z -> Post -> Prop) c :
  (forall now p, post_of_claim c now p -> P now p) -> keeps (posts P) (attempt_delivery c : M E Outcome).
Proof.
  intros HP. unfold attempt_delivery. destruct (signing_key c) as [key|] eqn:Ek; [|apply keeps_ret].
  destruct (Webhook.check_url _ _) as [url|] eqn:Eu; [|apply keeps_ret].
  intros w. apply at_bind; [apply _| |].
  { unfold resolve. destruct (url_host_str url); [|apply keeps_ret]. destruct (port_or_known_default url); [|apply keeps_ret].
    apply keeps_bind; [apply keeps_http|]. intros ?. apply keeps_ret. }
  intros [address|e] w1 R1; [|apply keeps_ret].
  apply resolve_Ok in R1 as (host & port & n & more & Hh & Hl & Hp).
  destruct (json_to_vec (message c)) as [body|e] eqn:Ej; [|apply keeps_ret].
  unfold clock_now. cbn. destruct (client_builds _ _); [|apply (keeps_ret (R := posts P))].
  split; [done|]. cbn. eexists [_]. split; [reflexivity|]. constructor; [|constructor]. apply HP.
  by exists key, url, host, port, n, address, more, body.
Qed.

Lemma posts_deliver P c : (forall now p, post_of_claim c now p -> P now p) -> keeps (posts P) (deliver c).
Proof.
  intros HP. apply keeps_bind; [by apply posts_attempt|]. intros [status|status error]; apply posts_execute.
Qed.

Lemma posts_abandon_all P l :
  Forall (fun c => forall now p, post_of_claim c now p -> P now p) l -> keeps (posts P) (abandon_all l).
Proof.
  induction 1 as [|c l Hc _ IH]; cbn; [apply keeps_ret|]. apply keeps_bind; [|done].
  unfold abandon. destruct (progress (cd_id c)); [apply keeps_ret|..].
  - apply keeps_bind; [by apply posts_attempt|]. intros ?. apply keeps_ret.
  - apply keeps_bind; [by apply keeps_attempt, posts_deliver|]. intros ?. apply keeps_ret.
Qed.

Lemma posts_join_all P l :
  Forall (fun c => forall now p, post_of_claim c now p -> P now p) l -> keeps (posts P) (join_all l).
Proof.
  induction 1 as [|c l Hc Hl IH]; cbn; [apply keeps_ret|].
  apply keeps_bind; [by apply keeps_attempt, posts_deliver|]. intros [x|e]; [done|].
  apply keeps_bind; [by apply posts_abandon_all|]. intros ?. apply keeps_fail.
Qed.

Lemma due_rows_due limit d t r : r ∈ due_rows limit d t -> r ∈ e_deliveries (t_events d) /\ is_due d t r = true.
Proof.
  unfold due_rows, sort_by. intros Hr.
  assert (r ∈ merge_sort (by_key wd_next_attempt_at) (List.filter (is_due d t) (e_deliveries (t_events d)))) as Hs
    by (eapply subseteq_take; exact Hr).
  rewrite merge_sort_Permutation in Hs. apply list_elem_of_In, List.filter_In in Hs as [Hi Hd].
  split; [by apply list_elem_of_In|done].
Qed.

Lemma claim_due_claims limit lease (w w' : World) l :
  claim_due limit lease w = (w', Ok l) -> Forall (claims (w_db w) (w_wall w)) l.
Proof.
  intros R. apply execute_Ok in R as [R _]. unfold with_answer in R. destruct (update_deliveries _ _ _); [|done].
  injection R as _ <-. apply Forall_forall. intros c (r & Hr & Hc)%list_elem_of_omap.
  apply due_rows_due in Hr as [Hi Hd]. destruct (find_in (wd_endpoint_id r) (w_db w)) as [e|] eqn:Ee; [|done].
  injection Hc as <-. exists r, e. split_and!; try done. unfold is_due in Hd. rewrite Ee in Hd.
  by apply andb_true_iff in Hd as [_ ?].
Qed.

(** C13: a webhook never reaches the internal network nor a host it was not
    registered for.  Whatever the outages, the name servers' answers, the order
    in which a round's tasks end and how far the others had gone when one
    fails, everything a round of the dispatcher sends is a POST for a delivery
    that was due, to its enabled endpoint, at a URL of an allowed scheme without
    credentials, to the first of the addresses its host resolved to, all of them
    public unless private networks are allowed, and signed over its id, time
    and body with the secret of that endpoint. *)
Theorem posts_checked (w : World) :
  exists new, w_sent (deliver_once w).1 = w_sent w ++ map Posted new /\
    Forall (fun p => exists c, claims (w_db w) (w_wall w) c /\ post_of_claim c (w_now w) p) new.
Proof.
  set (P := fun now p => exists c, claims (w_db w) (w_wall w) c /\ post_of_claim c now p).
  enough (posts P w (deliver_once w).1) as [_ Hn] by exact Hn.
  unfold deliver_once. apply at_bind; [apply _|apply keeps_query|]. intros n w1 R1.
  unfold pending_count in R1. apply query_Ok in R1 as [_ [D1 [_ T1]]].
  destruct (n =? 0); [apply keeps_ret|]. apply at_bind; [apply _|apply posts_execute|]. intros l w2 R2.
  apply claim_due_claims in R2. rewrite D1, T1 in R2.
  apply at_bind; [apply _|apply posts_join_all|intros ? ? _; apply keeps_ret].
  rewrite join_order_perm. eapply Forall_impl; [exact R2|]. intros c Hc now p Hp. by exists c.
Qed.
End Posts.

(** * Attempts *)

(** Between none and [MAX_ATTEMPTS]; still waiting below it, given up at it,
    delivered after one at least. *)
Definition delivery_ok (r : WebhookDelivery) : Prop :=
  match wd_delivered_at r, wd_failed_at r with
  | None, None => 0 <= wd_attempts r < Webhook.MAX_ATTEMPTS
  | Some _, None => 1 <= wd_attempts r <= Webhook.MAX_ATTEMPTS
  | None, Some _ => wd_attempts r = Webhook.MAX_ATTEMPTS
  | Some _, Some _ => False
  end.

Definition deliveries (d : Db) : list WebhookDelivery := e_deliveries (t_events d).

Definition queue_ok (d : Db) : Prop := NoDup (map wd_id (deliveries d)) /\ Forall delivery_ok (deliveries d).

#[export] Instance queue_ok_depends : Depends queue_ok [TDeliveries].
Proof.
  intros d d' Ha. assert (deliveries d' = deliveries d) as E by (apply (Ha TDeliveries), list_elem_of_here).
  unfold queue_ok. by rewrite E.
Qed.

(** One attempt more: delivered, given up, or to be retried within the longest
    delay. *)
Definition tried (now : Z) (r r' : WebhookDelivery) : Prop :=
  wd_id r' = wd_id r /\ wd_endpoint_id r' = wd_endpoint_id r /\ wd_attempts r' = wd_attempts r + 1 /\
  delivery_ok r' /\ (is_pending r' = true -> wd_next_attempt_at r' <= now + seconds Webhook.MAX_RETRY).

Lemma pending_iff r : is_pending r = true <-> wd_delivered_at r = None /\ wd_failed_at r = None.
Proof. unfold is_pending. rewrite andb_true_iff, !bool_decide_eq_true. done. Qed.

Lemma pending_attempts r : delivery_ok r -> is_pending r = true -> 0 <= wd_attempts r < Webhook.MAX_ATTEMPTS.
Proof. unfold delivery_ok. rewrite pending_iff. intros Hr [E1 E2]. by rewrite E1, E2 in Hr. Qed.

Lemma delivered_tried now t status r :
  delivery_ok r -> is_pending r = true -> tried now r (delivered_row t status r).
Proof.
  intros Hok Hp. pose proof (pending_attempts r Hok Hp) as Ha. apply pending_iff in Hp as [Hd Hf].
  unfold tried, delivery_ok. cbn. rewrite Hf. split_and!; try lia; done.
Qed.

Definition retry_of (attempts : Z) : option Z :=
  if Z.min I32_MAX (attempts + 1) <? Webhook.MAX_ATTEMPTS
  then Some (Webhook.retry_delay (Z.min I32_MAX (attempts + 1))) else None.

Lemma failed_tried now status error r :
  delivery_ok r -> is_pending r = true ->
  tried now r (failed_row now status error (retry_of (wd_attempts r)) r).
Proof.
  intros Hok Hp. pose proof (pending_attempts r Hok Hp) as Ha. apply pending_iff in Hp as [Hd Hf].
  unfold Webhook.MAX_ATTEMPTS in Ha.
  assert (Z.min I32_MAX (wd_attempts r + 1) = wd_attempts r + 1) as Hm by (unfold I32_MAX; lia).
  unfold tried, delivery_ok, retry_of. rewrite Hm. unfold Webhook.MAX_ATTEMPTS.
  destruct (Z.ltb_spec (wd_attempts r + 1) 12); cbn; rewrite Hd; split_and!; try lia; try done.
  2: by rewrite pending_iff; intros [_ [=]].
  intros _. pose proof (Webhook.retry_delay_bounds (wd_attempts r + 1)). unfold seconds, NS. lia.
Qed.

Lemma forallb_filter_all {A} (p q : A -> bool) (l : list A) :
  Forall (fun x => p x = true -> q x = true) l -> forallb q (List.filter p l) = true.
Proof.
  induction 1 as [|x l Hx _ IH]; cbn; [done|]. destruct (p x) eqn:Ep; [|done]. cbn. by rewrite Hx.
Qed.

Lemma update_where_ids (p : WebhookDelivery -> bool) f l :
  (forall r, wd_id (f r) = wd_id r) -> map wd_id (update_where p f l) = map wd_id l.
Proof.
  intros Hf. unfold update_where. rewrite map_map. apply map_ext. intros r. by destruct (p r).
Qed.

Lemma update_where_in {A} (p : A -> bool) f (l : list A) x :
  x ∈ update_where p f l <-> exists y, y ∈ l /\ x = (if p y then f y else y).
Proof.
  unfold update_where. change (map ?g l) with (g <$> l). rewrite list_elem_of_fmap. naive_solver.
Qed.

Section Attempts.
Context `{RedisServer} `{Env} `{TimeCrate} `{CryptoCrates} `{MacCrate} `{AeadCrate} `{UrlCrate} `{Outward} `{Web}.

(** The row a claim was taken of still waits, with the attempts it had. *)
Definition open_claim (d : Db) (c : ClaimedDelivery) : Prop :=
  forall r, r ∈ deliveries d -> wd_id r = cd_id c -> is_pending r = true /\ wd_attempts r = cd_attempts c.

Definition round_ok (l : list ClaimedDelivery) (d : Db) : Prop :=
  queue_ok d /\ NoDup (map cd_id l) /\ Forall (open_claim d) l.

(** What recording an attempt writes. *)
Definition recorded_row (now : Z) (outcome : Outcome) (r : WebhookDelivery) : WebhookDelivery :=
  match outcome with
  | Delivered status => delivered_row now (i16_or_max status) r
  | Failed status error => failed_row now (i16_or_max <$> status) error (retry_of (wd_attempts r)) r
  end.

Lemma recorded_tried now outcome r :
  delivery_ok r -> is_pending r = true -> tried now r (recorded_row now outcome r).
Proof. destruct outcome; [apply delivered_tried|apply failed_tried]. Qed.

(** The table after the attempt of a claim. *)
Definition after_attempt (now : Z) (outcome : Outcome) (c : ClaimedDelivery) (d : Db) : Db :=
  set_deliveries (update_where (is_delivery (cd_id c)) (recorded_row now outcome)) d.

Lemma after_attempt_row now outcome c d r' :
  r' ∈ deliveries (after_attempt now outcome c d) ->
  exists r, r ∈ deliveries d /\ r' = (if is_delivery (cd_id c) r then recorded_row now outcome r else r).
Proof. intros Hr. by apply update_where_in in Hr. Qed.

Lemma after_attempt_ok now outcome c l d : round_ok (c :: l) d -> round_ok l (after_attempt now outcome c d).
Proof.
  intros ([Hn Hok] & Hnd & Hopen). cbn in Hnd. apply NoDup_cons in Hnd as [Hc Hnd].
  apply Forall_cons in Hopen as [Hopen Hrest]. rewrite Forall_forall in Hok. split_and!; [split| |].
  - unfold deliveries, after_attempt. cbn. rewrite update_where_ids; [done|]. by intros r; destruct outcome.
  - apply Forall_forall. intros r' Hr'. apply after_attempt_row in Hr' as (r & Hr & ->).
    destruct (is_delivery (cd_id c) r) eqn:Ei; [|by apply Hok]. apply bool_decide_eq_true in Ei.
    destruct (Hopen r Hr Ei) as [Hp _]. by apply (recorded_tried now outcome) in Hp as (_ & _ & _ & ? & _); [|apply Hok].
  - done.
  - rewrite Forall_forall in Hrest |- *. intros c' Hc' r' Hr' Hid.
    apply after_attempt_row in Hr' as (r & Hr & ->). unfold is_delivery in *. case_bool_decide as Ei.
    + exfalso. apply Hc. assert (wd_id (recorded_row now outcome r) = wd_id r) as E by (by destruct outcome).
      rewrite <- Ei, <- E, Hid. change (map cd_id l) with (cd_id <$> l). by apply list_elem_of_fmap_2.
    + by apply (Hrest c').
Qed.

(** Recording an attempt applies it, or leaves the tables as they were. *)
Lemma update_open now outcome c d :
  queue_ok d -> open_claim d c ->
  update_deliveries (is_delivery (cd_id c))
    (match outcome with
     | Delivered status => delivered_row now (i16_or_max status)
     | Failed status error => failed_row now (i16_or_max <$> status) error (retry_of (cd_attempts c))
     end) d = Ok (after_attempt now outcome c d).
Proof.
  intros [Hn Hok] Hopen. rewrite Forall_forall in Hok. unfold update_deliveries. fold (deliveries d).
  rewrite forallb_filter_all.
  - unfold after_attempt, set_deliveries, update_where. fold (deliveries d).
    erewrite (map_ext_in _ (fun r => if is_delivery (cd_id c) r then recorded_row now outcome r else r) (deliveries d)); [done|].
    intros r Hr%list_elem_of_In. unfold is_delivery. case_bool_decide as Ei; [|done].
    destruct (Hopen r Hr Ei) as [_ Ha]. rewrite <- Ha. by destruct outcome.
  - apply Forall_forall. intros r Hr Hp. apply bool_decide_eq_true in Hp.
    destruct (Hopen r Hr Hp) as [Hw Ha]. apply pending_iff in Hw as [Hd Hf].
    unfold one_outcome. destruct outcome; cbn; rewrite ?Hd, ?Hf; done.
Qed.

Lemma record_run c outcome (w : World) :
  queue_ok (w_db w) -> open_claim (w_db w) c ->
  w_db (record c outcome w).1 = w_db w \/
  w_db (record c outcome w).1 = after_attempt (w_wall w) outcome c (w_db w).
Proof.
  intros Hq Ho. pose proof (update_open (w_wall w) outcome c (w_db w) Hq Ho) as Hu.
  destruct outcome as [status|status error]; cbn [record]; unfold mark_delivered, mark_attempt_failed;
    match goal with |- context [execute ?f w] => pose proof (execute_run f w) as [_ [E|[a E]]] end; auto;
    right; fold (retry_of (cd_attempts c)) in *; rewrite Hu in E; cbn in E; congruence.
Qed.

Lemma attempt_same_db {E} c : keeps same_db (attempt_delivery c : M E Outcome).
Proof.
  unfold attempt_delivery. destruct (signing_key c); [|apply keeps_ret].
  destruct (Webhook.check_url _ _) as [url|]; [|apply keeps_ret]. apply keeps_bind.
  - unfold resolve. destruct (url_host_str url); [|apply keeps_ret].
    destruct (port_or_known_default url); [|apply keeps_ret]. apply keeps_bind; [apply keeps_http|]. intros ?. apply keeps_ret.
  - intros [address|e]; [|apply keeps_ret]. destruct (json_to_vec _); [|apply keeps_ret].
    apply keeps_bind; [apply keeps_asks|]. intros now. destruct (client_builds _ _); [|apply keeps_ret].
    apply keeps_bind; [|intros ?; apply keeps_ret]. apply keeps_bind; [by intros w|intros ?; apply keeps_http].
Qed.

Lemma attempt_infallible {E} c (w : World) : exists w' outcome,
  (attempt_delivery c : M E Outcome) w = (w', Ok outcome) /\ same_db w w'.
Proof.
  pose proof (attempt_same_db (E := E) c w) as Hs.
  destruct (attempt_delivery c w) as [w' [outcome|e]] eqn:R; [by eexists _, _|exfalso].
  unfold attempt_delivery, resolve, send, clock_now, asks, tell, http, mbind, M_bind, mret, M_ret in R.
  repeat case_match; by simplify_eq.
Qed.

Lemma deliver_run c (w : World) :
  queue_ok (w_db w) -> open_claim (w_db w) c ->
  w_db (deliver c w).1 = w_db w \/
  exists outcome, w_db (deliver c w).1 = after_attempt (w_wall w) outcome c (w_db w).
Proof.
  intros Hq Ho. unfold deliver. destruct (attempt_infallible (E := SqlError) c w) as (w1 & outcome & R & D & _ & T).
  rewrite (bind_step _ _ _ _ _ R). rewrite <- D in Hq, Ho.
  destruct (record_run c outcome w1 Hq Ho) as [E|E]; [left; congruence|]. right. exists outcome. by rewrite E, D, T.
Qed.

Lemma round_ok_head c l d : round_ok (c :: l) d -> round_ok l d.
Proof. intros (Hq & [_ Hn]%NoDup_cons & [_ Hf]%Forall_cons). done. Qed.

Lemma deliver_round c l (w : World) : round_ok (c :: l) (w_db w) -> round_ok l (w_db (deliver c w).1).
Proof.
  intros Hr. pose proof Hr as (Hq & _ & [Ho _]%Forall_cons).
  destruct (deliver_run c w Hq Ho) as [E|[outcome E]]; rewrite E; [by eapply round_ok_head|by apply after_attempt_ok].
Qed.

Lemma abandon_all_round l : forall w, round_ok l (w_db w) -> queue_ok (w_db (abandon_all l w).1).
Proof.
  induction l as [|c l IH]; intros w Hr; cbn; [apply Hr|]. unfold mbind, M_bind.
  assert (round_ok l (w_db (abandon c w).1)) as Hc.
  { unfold abandon. destruct (progress (cd_id c)).
    - by eapply round_ok_head.
    - destruct (attempt_infallible (E := SqlError) c w) as (w1 & outcome & R & D & _).
      rewrite (bind_step _ _ _ _ _ R). cbn. rewrite D. by eapply round_ok_head.
    - pose proof (deliver_round c l w Hr) as Hd. unfold mbind, M_bind, attempt. by destruct (deliver c w). }
  destruct (abandon c w) as [w1 [x|e]]; [by apply IH|]. apply Hc.
Qed.

Lemma join_all_round l : forall w, round_ok l (w_db w) -> queue_ok (w_db (join_all l w).1).
Proof.
  induction l as [|c l IH]; intros w Hr; cbn; [apply Hr|].
  pose proof (deliver_round c l w Hr) as Hd. unfold mbind at 1, M_bind at 1, attempt.
  destruct (deliver c w) as [w1 [x|e]]; [by apply IH|]. cbn in Hd.
  pose proof (abandon_all_round l w1 Hd) as Ha. unfold mbind, M_bind. by destruct (abandon_all l w1) as [w2 [y|e2]].
Qed.

(** ** Claims *)

Lemma due_pending d t r : is_due d t r = true -> is_pending r = true.
Proof. unfold is_due. rewrite !andb_true_iff. tauto. Qed.

Lemma due_sublist limit d t : exists l, due_rows limit d t `sublist_of` l /\ l ≡ₚ List.filter (is_due d t) (deliveries d).
Proof.
  eexists. split; [apply sublist_take|]. apply merge_sort_Permutation.
Qed.

Lemma filter_ids_NoDup (p : WebhookDelivery -> bool) l : NoDup (map wd_id l) -> NoDup (map wd_id (List.filter p l)).
Proof.
  induction l as [|r l IH]; cbn; [done|]. rewrite NoDup_cons. intros [Hn Hl]. destruct (p r); [|by apply IH].
  cbn. apply NoDup_cons. split; [|by apply IH]. intros Hi. apply Hn. change (map wd_id ?x) with (wd_id <$> x) in *.
  apply list_elem_of_fmap in Hi as (y & -> & Hy). apply list_elem_of_fmap_2.
  apply list_elem_of_In, List.filter_In in Hy as [Hy _]. by apply list_elem_of_In.
Qed.

Lemma due_ids_NoDup limit d t : NoDup (map wd_id (deliveries d)) -> NoDup (map wd_id (due_rows limit d t)).
Proof.
  intros Hn. destruct (due_sublist limit d t) as (l & Hs & Hp).
  change (map wd_id ?x) with (wd_id <$> x) in *. eapply sublist_NoDup; [|by apply fmap_sublist].
  rewrite Hp. by apply filter_ids_NoDup.
Qed.

Definition claims_of (limit : Z) (d : Db) (t : Z) : list ClaimedDelivery :=
  omap (fun r => (fun e => claimed_of e r) <$> find_in (wd_endpoint_id r) d) (due_rows limit d t).

Lemma claims_of_ids limit d t : map cd_id (claims_of limit d t) = map wd_id (due_rows limit d t).
Proof.
  unfold claims_of. pose proof (fun r => due_rows_due limit d t r) as Hd. revert Hd.
  generalize (due_rows limit d t). induction l as [|r l IH]; intros Hd; [done|]. cbn.
  destruct (Hd r (list_elem_of_here _ _)) as [_ Hr]. unfold is_due in Hr.
  destruct (find_in (wd_endpoint_id r) d) as [e|]; [|by rewrite andb_false_r in Hr].
  cbn. f_equal. apply IH. intros r' Hr'. apply Hd. by apply list_elem_of_further.
Qed.

(** The table after a claim. *)
Definition after_claim (limit lease : Z) (d : Db) (t : Z) : Db :=
  set_deliveries (update_where (fun r => bool_decide (wd_id r ∈ map wd_id (due_rows limit d t)))
    (leased (t + seconds lease))) d.

Lemma leased_ok until r : delivery_ok (leased until r) <-> delivery_ok r.
Proof. done. Qed.

Lemma delivery_one_outcome r : delivery_ok r -> one_outcome r = true.
Proof. unfold delivery_ok, one_outcome. by destruct (wd_delivered_at r), (wd_failed_at r). Qed.

Lemma claim_due_run limit lease (w : World) :
  queue_ok (w_db w) ->
  execute (fun d now => with_answer (update_deliveries
    (fun r => bool_decide (wd_id r ∈ map wd_id (due_rows limit d now))) (leased (now + seconds lease)) d)
    (claims_of limit d now)) w = claim_due limit lease w /\
  update_deliveries (fun r => bool_decide (wd_id r ∈ map wd_id (due_rows limit (w_db w) (w_wall w))))
    (leased (w_wall w + seconds lease)) (w_db w) = Ok (after_claim limit lease (w_db w) (w_wall w)).
Proof.
  intros [_ Hok]. split; [done|]. unfold update_deliveries. rewrite forallb_filter_all; [done|].
  eapply Forall_impl; [exact Hok|]. intros r Hr _. by apply delivery_one_outcome.
Qed.

Lemma after_claim_round limit lease d t :
  queue_ok d -> round_ok (claims_of limit d t) (after_claim limit lease d t).
Proof.
  intros [Hn Hok]. pose proof Hok as Hok'. rewrite Forall_forall in Hok'. split_and!; [split| |].
  - unfold deliveries, after_claim. cbn. by rewrite update_where_ids.
  - apply Forall_forall. intros r' (r & Hr & ->)%update_where_in. case_bool_decide; [apply leased_ok|]; by apply Hok'.
  - rewrite claims_of_ids. by apply due_ids_NoDup.
  - apply Forall_forall. intros c (r & Hr & Hc)%list_elem_of_omap.
    apply due_rows_due in Hr as [Hi Hd]. destruct (find_in _ d) as [e|]; [|done]. injection Hc as <-.
    intros r' (r0 & Hr0 & ->)%update_where_in Hid. assert (wd_id r0 = wd_id r) as E0 by (by case_bool_decide).
    assert (r0 = r) as ->.
    { apply list_elem_of_lookup in Hr0 as [i Hi0], Hi as [j Hj].
      assert (i = j) as ->; [|congruence]. eapply (NoDup_lookup (wd_id <$> deliveries d) _ _ (wd_id r)); [exact Hn|..];
        rewrite list_lookup_fmap; [unfold deliveries; rewrite Hi0|unfold deliveries; rewrite Hj]; cbn; by rewrite ?E0. }
    apply due_pending in Hd. by case_bool_decide.
Qed.

Lemma round_ok_perm l l' d : l ≡ₚ l' -> round_ok l d -> round_ok l' d.
Proof. intros Hp (Hq & Hn & Hf). split_and!; [done|..]; [|by rewrite <- Hp]. change (map cd_id ?x) with (cd_id <$> x) in *. by rewrite <- Hp. Qed.

(** A round keeps the queue well formed. *)
Lemma deliver_once_ok : keeps (pres queue_ok) deliver_once.
Proof.
  intros w Hq. unfold deliver_once. destruct (pending_count w) as [w1 [n|e]] eqn:R1.
  2: { rewrite (bind_fail _ _ _ _ _ R1). apply same_db_run in R1; [|apply keeps_query]. cbn. by rewrite R1. }
  rewrite (bind_step _ _ _ _ _ R1). apply query_Ok in R1 as [_ [D1 [_ T1]]]. rewrite <- D1 in Hq. clear D1 T1 w.
  destruct (n =? 0); [done|]. destruct (claim_due_run BATCH LEASE w1 Hq) as [Hc Hu].
  unfold mbind at 1, M_bind at 1. pose proof (execute_run (fun d now => with_answer (update_deliveries
    (fun r => bool_decide (wd_id r ∈ map wd_id (due_rows BATCH d now))) (leased (now + seconds LEASE)) d)
    (claims_of BATCH d now)) w1) as [_ He]. rewrite Hc, Hu in He. cbn in He.
  destruct (claim_due BATCH LEASE w1) as [w2 [l|e]] eqn:R2.
  - apply execute_Ok in Hc as [Hc _]. rewrite Hu in Hc. injection Hc as D2 <-.
    assert (queue_ok (w_db (join_all (join_order (claims_of BATCH (w_db w1) (w_wall w1))) w2).1)) as Hj.
    { apply join_all_round. rewrite <- D2. eapply round_ok_perm; [symmetry; apply join_order_perm|].
      by apply after_claim_round. }
    unfold mbind, M_bind. by destruct (join_all _ w2) as [w3 [x|e]].
  - cbn in *. destruct He as [->|[a [= <- _]]]; [done|]. apply (after_claim_round BATCH LEASE); done.
Qed.
End Attempts.

(** ** The queue under everything that changes it *)

Section QueueSteps.
Context `{RedisServer} `{Env} `{TimeCrate} `{CryptoCrates} `{MacCrate} `{AeadCrate} `{UrlCrate} `{Outward} `{Web}.
Context `{SqlText} `{Passwords}.

Lemma requeue_ok endpoint_id id : keeps (pres queue_ok) (requeue endpoint_id id).
Proof.
  apply keeps_pres_execute. intros d t d' a E [Hn Hok]. unfold with_answer, update_deliveries in E.
  destruct (forallb _ _); [|done]. injection E as <- _. split.
  - unfold deliveries. cbn. by rewrite update_where_ids.
  - rewrite Forall_forall in Hok |- *. intros r' (r & Hr & ->)%update_where_in.
    destruct (is_delivery id r && _); [|by apply Hok]. unfold delivery_ok. cbn. unfold Webhook.MAX_ATTEMPTS. lia.
Qed.

Lemma delete_endpoint_ok id : keeps (pres queue_ok) (delete_endpoint id).
Proof.
  apply keeps_pres_execute. intros d t d' a [= <- _] [Hn Hok]. unfold queue_ok, deliveries, without in *. cbn.
  split; [by apply filter_ids_NoDup|]. rewrite Forall_forall in Hok |- *. intros r Hr.
  apply list_elem_of_In, List.filter_In in Hr as [Hr _]. by apply Hok, list_elem_of_In.
Qed.

#[local] Hint Resolve requeue_ok delete_endpoint_ok : frame.

Lemma redeliver_ok actor endpoint_id id : keeps (pres queue_ok) (redeliver actor endpoint_id id).
Proof. tables_auto. Qed.

Lemma remove_ok actor id : keeps (pres queue_ok) (remove actor id).
Proof. tables_auto. Qed.

Lemma endpoints_ok actor id input :
  keeps (pres queue_ok) (create actor input) /\ keeps (pres queue_ok) (update actor id input) /\
  keeps (pres queue_ok) (rotate_endpoint_secret actor id).
Proof. split_and!; tables_auto. Qed.

(** The rounds of the dispatcher, the changes administrators make, and events
    recorded, under the key of the table. *)
Inductive queue_step (w : World) : World -> Prop :=
| queue_round : queue_step w (deliver_once w).1
| queue_again actor endpoint_id id : queue_step w (redeliver actor endpoint_id id w).1
| queue_removed actor id : queue_step w (remove actor id w).1
| queue_created actor input : queue_step w (create actor input w).1
| queue_updated actor id input : queue_step w (update actor id input w).1
| queue_rotated actor id : queue_step w (rotate_endpoint_secret actor id w).1
| queue_event name payload : NoDup (map wd_id (deliveries (w_db (enqueue name payload w).1))) ->
    queue_step w (enqueue name payload w).1
| queue_later (w' : World) : w_db w' = w_db w -> queue_step w w'.

Lemma enqueue_rows name payload (w : World) r :
  r ∈ deliveries (w_db (enqueue name payload w).1) -> r ∈ deliveries (w_db w) \/ delivery_ok r.
Proof.
  set (Q := fun w w' : World => forall r, r ∈ deliveries (w_db w') -> r ∈ deliveries (w_db w) \/ delivery_ok r).
  assert (CoreFrame Q) as HQ.
  { constructor; unfold Q; try (intros; by left). intros w1 w2 w3 H12 H23 x Hx. destruct (H23 x Hx); auto. }
  revert r. change (Q w (enqueue name payload w).1). unfold enqueue, internal. apply (keeps_map_err (R := Q)).
  unfold record_event. apply keeps_bind; [apply keeps_uuid|]. intros event.
  apply keeps_bind; [apply keeps_asks|]. intros endpoints. apply keeps_bind; [apply keeps_new_v4s|]. intros ids.
  apply keeps_execute. intros w1 d a [= <- _] x. unfold deliveries. cbn. rewrite elem_of_app.
  intros [Hx|Hx]; [by left|right]. apply list_elem_of_lookup in Hx as [i Hi].
  apply lookup_zip_with_Some in Hi as (delivery & e & -> & _). unfold delivery_ok. cbn.
  unfold Webhook.MAX_ATTEMPTS. lia.
Qed.

(** A delivery has at most [MAX_ATTEMPTS] attempts, and the table says which
    way it ended.  Whatever rounds of the dispatcher (under any outages, cut
    short at any point), redeliveries, changes and removals of endpoints and
    recorded events follow one another, every delivery has one outcome at most;
    while it waits it has attempts left, once given up it has had them all, and
    once delivered it has had one at least and no more than that. *)
Theorem attempts_bounded (w w' : World) :
  rtc queue_step w w' -> queue_ok (w_db w) -> queue_ok (w_db w').
Proof.
  induction 1 as [|w w1 w' Hs _ IH]; [done|]. intros Hq. apply IH. clear IH.
  destruct Hs as [|actor e i|actor i|actor input|actor i input|actor i|name payload Hn|w1 E].
  - by apply deliver_once_ok.
  - by apply redeliver_ok.
  - by apply remove_ok.
  - by apply (endpoints_ok actor uuid_nil input).
  - by apply (endpoints_ok actor i input).
  - by apply (proj2 (proj2 (endpoints_ok actor i {| in_url := []; in_description := None; in_events := []; in_enabled := true |}))).
  - split; [done|]. apply Forall_forall. intros r [Hr|Hr]%enqueue_rows; [|done].
    destruct Hq as [_ Hok]. rewrite Forall_forall in Hok. by apply Hok.
  - by rewrite E.
Qed.
End QueueSteps.

(** * Every delivery ends *)

Section Settle.
Context `{RedisServer} `{Env} `{TimeCrate} `{CryptoCrates} `{MacCrate} `{AeadCrate} `{UrlCrate} `{Outward} `{Web}.

(** The rows named had one attempt more, the others none. *)
Definition rows_tried (now : Z) (ids : list Uuid) : list WebhookDelivery -> list WebhookDelivery -> Prop :=
  Forall2 (fun r r' => if decide (wd_id r ∈ ids) then tried now r r' else r' = r).

Lemma rows_tried_nil now l : rows_tried now [] l l.
Proof. induction l as [|r l IH]; constructor; [|done]. by rewrite decide_False by apply not_elem_of_nil. Qed.

Lemma rows_tried_cons now i ids l1 l2 l3 :
  i ∉ ids -> rows_tried now [i] l1 l2 -> rows_tried now ids l2 l3 -> rows_tried now (i :: ids) l1 l3.
Proof.
  intros Hi H12. revert l3. induction H12 as [|r r1 l1 l2 Hr _ IH]; intros l3 H23; inversion H23 as [|? r' ? ? Hr' Hl]; subst.
  { constructor. }
  constructor; [|by apply IH]. destruct (decide (wd_id r = i)) as [Ei|Ei].
  - rewrite decide_True in Hr by (rewrite Ei; apply list_elem_of_here).
    rewrite decide_True by (rewrite Ei; apply list_elem_of_here).
    rewrite decide_False in Hr'; [by subst r'|]. by rewrite (proj1 Hr), Ei.
  - rewrite decide_False in Hr by (by rewrite list_elem_of_singleton). subst r1.
    destruct (decide (wd_id r ∈ ids)) as [Hin|Hin].
    + by rewrite decide_True by (by apply list_elem_of_further).
    + by rewrite decide_False by (rewrite elem_of_cons; naive_solver).
Qed.

Definition same_endpoints (d d' : Db) : Prop := e_endpoints (t_events d') = e_endpoints (t_events d).

Lemma after_attempt_tried now outcome c d :
  queue_ok d -> open_claim d c -> rows_tried now [cd_id c] (deliveries d) (deliveries (after_attempt now outcome c d)).
Proof.
  intros [_ Hok] Ho. unfold deliveries, after_attempt, rows_tried. cbn. fold (deliveries d).
  unfold open_claim in Ho. revert Hok Ho. generalize (deliveries d). unfold update_where.
  induction l as [|r l IH]; intros Hok Ho; cbn; [constructor|]. apply Forall_cons in Hok as [Hr Hok]. constructor.
  - unfold is_delivery. case_bool_decide as Ei.
    + rewrite decide_True by (rewrite Ei; apply list_elem_of_here). apply recorded_tried; [done|].
      by apply Ho; [apply list_elem_of_here|].
    + by rewrite decide_False by (by rewrite list_elem_of_singleton).
  - apply IH; [done|]. intros r' Hr'. by apply Ho, list_elem_of_further.
Qed.

Lemma deliver_answered c (w : World) :
  all_answered -> queue_ok (w_db w) -> open_claim (w_db w) c ->
  exists w' outcome, deliver c w = (w', Ok tt) /\ w_wall w' = w_wall w /\
    w_db w' = after_attempt (w_wall w) outcome c (w_db w).
Proof.
  intros Ha Hq Ho. destruct (attempt_infallible (E := SqlError) c w) as (w1 & outcome & R & D & _ & T).
  rewrite <- D in Hq, Ho. pose proof (update_open (w_wall w1) outcome c (w_db w1) Hq Ho) as Hu.
  exists (with_db (fun _ => after_attempt (w_wall w1) outcome c (w_db w1)) (bump_io w1)), outcome.
  unfold deliver. rewrite (bind_step _ _ _ _ _ R). split_and!; [|done|cbn; by rewrite D, T].
  destruct outcome; cbn [record]; (apply execute_done; [done|]); cbn beta zeta; [|fold (retry_of (cd_attempts c))]; by rewrite Hu.
Qed.

Lemma join_all_answered l : forall w, all_answered -> round_ok l (w_db w) ->
  exists w', join_all l w = (w', Ok tt) /\ w_wall w' = w_wall w /\ same_endpoints (w_db w) (w_db w') /\
    rows_tried (w_wall w) (map cd_id l) (deliveries (w_db w)) (deliveries (w_db w')).
Proof.
  induction l as [|c l IH]; intros w Ha Hr; cbn.
  { exists w. split_and!; try done. apply rows_tried_nil. }
  pose proof Hr as (Hq & [Hc _]%NoDup_cons & [Ho _]%Forall_cons).
  destruct (deliver_answered c w Ha Hq Ho) as (w1 & outcome & R1 & T1 & D1).
  rewrite (bind_step _ _ _ _ _ (attempt_step _ _ _ _ R1)).
  destruct (IH w1 Ha) as (w' & R & T & S & Hrows); [rewrite D1; by apply after_attempt_ok|].
  exists w'. split_and!; [done|congruence| |].
  - unfold same_endpoints in *. by rewrite S, D1.
  - rewrite T1 in Hrows. eapply rows_tried_cons; [done| |exact Hrows]. rewrite D1. by apply after_attempt_tried.
Qed.

(** A claim only hides rows: an attempt after it is an attempt. *)
Lemma claimed_tried now ids until l l' :
  rows_tried now ids (update_where (fun r => bool_decide (wd_id r ∈ ids)) (leased until) l) l' -> rows_tried now ids l l'.
Proof.
  revert l'. induction l as [|r l IH]; intros l' Hl; inversion Hl as [|? r' ? ? Hr Hrest]; subst; constructor; [|by apply IH].
  case_bool_decide as Ei; cbn in Hr.
  - rewrite decide_True in Hr by done. by rewrite decide_True by done.
  - rewrite decide_False in Hr by done. by rewrite decide_False by done.
Qed.

Lemma deliver_once_answered (w : World) :
  all_answered -> queue_ok (w_db w) ->
  same_endpoints (w_db w) (w_db (deliver_once w).1) /\
  rows_tried (w_wall w) (map wd_id (due_rows BATCH (w_db w) (w_wall w)))
    (deliveries (w_db w)) (deliveries (w_db (deliver_once w).1)).
Proof.
  intros Ha Hq. unfold deliver_once, pending_count. rewrite (bind_step _ _ _ _ _ (query_answered _ _ Ha)).
  destruct (Z.eqb_spec (Z.of_nat (length (List.filter is_pending (e_deliveries (t_events (w_db w)))))) 0) as [E|E].
  - split; [done|]. replace (due_rows BATCH (w_db w) (w_wall w)) with (@nil WebhookDelivery); [apply rows_tried_nil|].
    destruct (due_rows BATCH (w_db w) (w_wall w)) as [|r l] eqn:Er; [done|exfalso].
    destruct (due_rows_due BATCH (w_db w) (w_wall w) r) as [Hi Hd]; [rewrite Er; apply list_elem_of_here|].
    apply due_pending in Hd. assert (In r (List.filter is_pending (e_deliveries (t_events (w_db w))))) as Hin
      by (apply List.filter_In; split; [by apply list_elem_of_In|done]).
    destruct (List.filter is_pending _); [done|cbn in E; lia].
  - change (queue_ok (w_db (bump_io w))) in Hq. destruct (claim_due_run BATCH LEASE (bump_io w) Hq) as [Hc Hu].
    assert (claim_due BATCH LEASE (bump_io w) = (with_db (fun _ => after_claim BATCH LEASE (w_db w) (w_wall w)) (bump_io (bump_io w)),
      Ok (claims_of BATCH (w_db w) (w_wall w)))) as R by (rewrite <- Hc; apply execute_done; [done|by rewrite Hu]).
    rewrite (bind_step _ _ _ _ _ R). set (w2 := with_db _ _).
    destruct (join_all_answered (join_order (claims_of BATCH (w_db w) (w_wall w))) w2 Ha) as (w3 & R3 & _ & S3 & Hrows).
    { eapply round_ok_perm; [symmetry; apply join_order_perm|]. by apply after_claim_round. }
    rewrite (bind_step _ _ _ _ _ R3). split; [exact S3|]. apply (claimed_tried _ _ (w_wall w + seconds LEASE)).
    eapply Forall2_impl; [exact Hrows|]. intros r r'. cbn beta.
    rewrite (decide_ext (wd_id r ∈ map cd_id _) (wd_id r ∈ map wd_id (due_rows BATCH (w_db w) (w_wall w)))); [done|].
    rewrite <- claims_of_ids. change (map cd_id ?x) with (cd_id <$> x). by rewrite join_order_perm.
Qed.

(** ** Attempts left *)

Definition enabled_for (d : Db) (r : WebhookDelivery) : bool :=
  match find_in (wd_endpoint_id r) d with Some e => we_enabled e | None => false end.

Definition attempts_left (d : Db) (r : WebhookDelivery) : nat :=
  if is_pending r && enabled_for d r then Z.to_nat (Webhook.MAX_ATTEMPTS - wd_attempts r) else 0.

Definition budget (d : Db) : nat := sum_list (map (attempts_left d) (deliveries d)).

Lemma tried_left now d d' r r' :
  same_endpoints d d' -> delivery_ok r -> is_pending r = true -> enabled_for d r = true -> tried now r r' ->
  (attempts_left d' r' < attempts_left d r)%nat.
Proof.
  intros Hs Hok Hp He (_ & Hend & Ha & Hok' & _). unfold attempts_left.
  assert (enabled_for d' r' = true) as He' by (unfold enabled_for, find_in in *; by rewrite Hend, Hs).
  rewrite Hp, He, He', !andb_true_r. cbn. pose proof (pending_attempts r Hok Hp).
  destruct (is_pending r') eqn:Hp'; [|lia]. pose proof (pending_attempts r' Hok' Hp'). lia.
Qed.

Lemma rows_tried_budget now d d' ids l l' :
  same_endpoints d d' -> Forall delivery_ok l -> rows_tried now ids l l' ->
  Forall (fun r => wd_id r ∈ ids -> is_pending r = true /\ enabled_for d r = true) l ->
  (sum_list (map (attempts_left d') l') + length (List.filter (fun r => bool_decide (wd_id r ∈ ids)) l)
   <= sum_list (map (attempts_left d) l))%nat.
Proof.
  intros Hs Hok Ht. induction Ht as [|r r' l l' Hr _ IH]; intros Hin; cbn; [lia|].
  apply Forall_cons in Hok as [Hr0 Hok]. apply Forall_cons in Hin as [Hi0 Hin]. specialize (IH Hok Hin).
  case_bool_decide as Ei.
  - rewrite decide_True in Hr by done. destruct (Hi0 Ei) as [Hp He].
    pose proof (tried_left now d d' r r' Hs Hr0 Hp He Hr). cbn. lia.
  - rewrite decide_False in Hr by done. subst r'.
    assert (attempts_left d' r = attempts_left d r) as ->; [|lia].
    unfold attempts_left, enabled_for, find_in. by rewrite Hs.
Qed.

(** The rows that wait are due. *)
Definition due_at (t : Z) (d : Db) : Prop :=
  Forall (fun r => is_pending r = true -> wd_next_attempt_at r <= t) (deliveries d).

(** The dispatcher's rounds, at the times given. *)
Definition at_time (t : Z) (w : World) : World :=
  {| w_db := w_db w; w_redis := w_redis w; w_now := t; w_wall := t; w_io := w_io w; w_draws := w_draws w;
     w_mails := w_mails w; w_slept := w_slept w; w_tasks := w_tasks w; w_sent := w_sent w;
     w_stream_ready := w_stream_ready w; w_documents := w_documents w |}.

Fixpoint rounds (ts : list Z) (w : World) : World :=
  match ts with
  | [] => w
  | t :: ts => rounds ts (deliver_once (at_time t w)).1
  end.

(** Each at least the longest delay after the one before, the first when what
    waits is due. *)
Fixpoint spaced (from : Z) (ts : list Z) : Prop :=
  match ts with
  | [] => True
  | t :: ts => from <= t /\ spaced (t + seconds Webhook.MAX_RETRY) ts
  end.

Lemma due_from_row d t r :
  due_at t d -> r ∈ deliveries d -> is_pending r = true -> enabled_for d r = true -> is_due d t r = true.
Proof.
  intros Hd Hr Hp He. unfold due_at in Hd. rewrite Forall_forall in Hd. specialize (Hd r Hr Hp).
  unfold is_due. fold (enabled_for d r). rewrite Hp, He. cbn. rewrite andb_true_r. by apply Z.leb_le.
Qed.

Lemma due_rows_some d t r : r ∈ deliveries d -> is_due d t r = true -> due_rows BATCH d t <> [].
Proof.
  intros Hr Hd. unfold due_rows, sort_by.
  assert (In r (List.filter (is_due d t) (deliveries d))) as Hin
    by (apply List.filter_In; split; [by apply list_elem_of_In|done]).
  apply list_elem_of_In in Hin. fold (deliveries d). rewrite <- (merge_sort_Permutation (by_key wd_next_attempt_at)) in Hin.
  destruct (merge_sort _ _); [by apply not_elem_of_nil in Hin|done].
Qed.

Lemma budget_zero d : queue_ok d -> budget d = 0%nat ->
  Forall (fun r => enabled_for d r = true -> is_pending r = false) (deliveries d).
Proof.
  intros [_ Hok]. unfold budget. induction Hok as [|r l Hr _ IH]; cbn; intros E; [done|].
  constructor; [|apply IH; lia]. intros He. destruct (is_pending r) eqn:Hp; [|done].
  pose proof (pending_attempts r Hr Hp). unfold attempts_left in E. rewrite Hp, He in E. cbn in E. lia.
Qed.

Lemma sum_positive (l : list nat) : (0 < sum_list l)%nat -> exists n, n ∈ l /\ (0 < n)%nat.
Proof.
  induction l as [|n l IH]; cbn; [lia|]. intros Hs. destruct (decide (0 < n)%nat) as [Hn|Hn].
  - exists n. split; [apply list_elem_of_here|done].
  - destruct IH as (m & Hm & Hp); [lia|]. exists m. split; [by apply list_elem_of_further|done].
Qed.

(** A round with something to attempt leaves less to attempt. *)
Lemma round_progress (w : World) :
  all_answered -> queue_ok (w_db w) -> due_at (w_wall w) (w_db w) ->
  (budget (w_db (deliver_once w).1) <= pred (budget (w_db w)))%nat /\
  due_at (w_wall w + seconds Webhook.MAX_RETRY) (w_db (deliver_once w).1).
Proof.
  intros Ha Hq Hd. destruct (deliver_once_answered w Ha Hq) as [Hs Ht]. pose proof Hq as [_ Hok].
  set (ids := map wd_id _) in *. split.
  - assert (Forall (fun r => wd_id r ∈ ids -> is_pending r = true /\ enabled_for (w_db w) r = true) (deliveries (w_db w))) as Hin.
    { apply Forall_forall. intros r Hr Hi. change (map ?f ?l) with (f <$> l) in ids.
      apply list_elem_of_fmap in Hi as (r0 & Eid & Hr0). apply due_rows_due in Hr0 as [Hr0 Hdue].
      assert (r0 = r) as ->.
      { apply list_elem_of_lookup in Hr as [i Hi], Hr0 as [j Hj]. destruct Hq as [Hn _].
        assert (i = j) as ->; [|unfold deliveries in *; congruence].
        eapply (NoDup_lookup (wd_id <$> deliveries (w_db w)) _ _ (wd_id r)); [exact Hn|..];
          rewrite list_lookup_fmap; unfold deliveries in *; [by rewrite Hi|rewrite Hj; cbn; by rewrite Eid]. }
      split; [by eapply due_pending|]. unfold is_due in Hdue. by apply andb_true_iff in Hdue as [_ ?]. }
    pose proof (rows_tried_budget _ _ _ _ _ _ Hs Hok Ht Hin) as Hb. fold (budget (w_db w)) in Hb.
    fold (budget (w_db (deliver_once w).1)) in Hb.
    destruct (decide (budget (w_db w) = 0%nat)) as [E0|E0]; [lia|].
    destruct (sum_positive (map (attempts_left (w_db w)) (deliveries (w_db w)))) as (n & Hn & Hpos); [unfold budget in E0; lia|].
    change (map ?f ?l) with (f <$> l) in Hn. apply list_elem_of_fmap in Hn as (r & -> & Hr).
    unfold attempts_left in Hpos. destruct (is_pending r && enabled_for (w_db w) r) eqn:Epe; [|lia].
    apply andb_true_iff in Epe as [Hp He]. pose proof (due_rows_some _ _ r Hr (due_from_row _ _ _ Hd Hr Hp He)) as Hne.
    destruct (due_rows BATCH (w_db w) (w_wall w)) as [|r1 rest] eqn:Er; [done|].
    destruct (due_rows_due BATCH (w_db w) (w_wall w) r1) as [Hr1 _]; [rewrite Er; apply list_elem_of_here|].
    assert (In r1 (List.filter (fun r => bool_decide (wd_id r ∈ ids)) (deliveries (w_db w)))) as Hf.
    { apply List.filter_In. split; [by apply list_elem_of_In|]. apply bool_decide_eq_true. apply list_elem_of_here. }
    destruct (List.filter _ (deliveries (w_db w))); [done|]. cbn in Hb. lia.
  - unfold due_at in *. clear Hq Hok. revert Hd. induction Ht as [|r r' l l' Hr _ IH]; [constructor|].
    rewrite !Forall_cons. intros [Hr0 Hl]. split; [|by apply IH]. intros Hp. case_decide.
    + by apply Hr.
    + subst r'. specialize (Hr0 Hp). unfold Webhook.MAX_RETRY, seconds, NS. lia.
Qed.

(** C25: every delivery ends.  When the statements are answered, and whatever the
    endpoints, the name servers and the order of the tasks do, as many rounds as
    there are attempts left in the queue, spaced by the longest delay, leave no
    delivery to an enabled endpoint waiting: each was delivered or given up
    after [MAX_ATTEMPTS] attempts. *)
Theorem deliveries_settle (w : World) (from : Z) (ts : list Z) :
  all_answered -> queue_ok (w_db w) -> due_at from (w_db w) -> spaced from ts ->
  (budget (w_db w) <= length ts)%nat ->
  Forall (fun r => enabled_for (w_db (rounds ts w)) r = true ->
                   is_Some (wd_delivered_at r) \/
                   is_Some (wd_failed_at r) /\ wd_attempts r = Webhook.MAX_ATTEMPTS)
    (deliveries (w_db (rounds ts w))).
Proof.
  intros Ha. revert w from. induction ts as [|t ts IH]; intros w from Hq Hd Hsp Hb.
  - cbn in *. pose proof Hq as [_ Hok]. pose proof (budget_zero _ Hq ltac:(lia)) as Hz.
    apply Forall_forall. intros r Hr He. rewrite Forall_forall in Hok, Hz.
    specialize (Hok r Hr). specialize (Hz r Hr He). unfold is_pending, delivery_ok in *.
    destruct (wd_delivered_at r), (wd_failed_at r); try done; [left|right]; by eauto.
  - cbn in *. destruct Hsp as [Hft Hsp]. assert (due_at (w_wall (at_time t w)) (w_db (at_time t w))) as Hd'.
    { eapply Forall_impl; [exact Hd|]. intros r Hr Hp. specialize (Hr Hp). cbn. lia. }
    destruct (round_progress (at_time t w) Ha Hq Hd') as [Hb' Hd2].
    apply (IH _ (t + seconds Webhook.MAX_RETRY)); [by apply (deliver_once_ok (at_time t w))|done|done|].
    change (w_db (at_time t w)) with (w_db w) in Hb'. lia.
Qed.
End Settle.

(** * Endpoints changed *)

Section Endpoints.
Context `{RedisServer} `{Env} `{TimeCrate} `{CryptoCrates} `{SqlText} `{IpNetworkCrate} `{Jwt}.
Context `{MacCrate} `{AeadCrate} `{HyperLogLog} `{Passwords} `{UrlCrate}.

Definition draws_grow (w w' : World) : Prop := (w_draws w <= w_draws w')%nat.

#[export] Instance draws_grow_frame : Frame draws_grow.
Proof. constructor; [constructor| |]; unfold SleepFrame, RedisFrame, draws_grow; intros; cbn in *; lia. Qed.

#[export] Instance draws_grow_reads : Reads draws_grow [].
Proof. intros w d _. unfold draws_grow. cbn. lia. Qed.

#[export] Instance draws_grow_rollback : Rollback draws_grow.
Proof. by intros w w' ?. Qed.

Lemma draws_execute {A} (f : Db -> Z -> result (Db * A) SqlError) : keeps draws_grow (execute f).
Proof. apply (keeps_reads []). by intros ? ? ? ? _ tb ?%not_elem_of_nil. Qed.

Lemma find_update_where {A} (p : A -> bool) (f : A -> A) (l : list A) :
  (forall x, p x = true -> p (f x) = true) -> List.find p (update_where p f l) = f <$> List.find p l.
Proof.
  intros Hf. induction l as [|x l IH]; cbn; [done|]. destruct (p x) eqn:Ex; cbn; [by rewrite Hf|]. by rewrite Ex.
Qed.

(** A secret drawn now, as the response shows it and as the table keeps it. *)
Definition drawn_secret (w : World) (id : Uuid) (secret stored : str) : Prop :=
  exists n nonce, (w_draws w <= n)%nat /\ secret = Webhook.format_secret b64_encode (draw_bytes 32 n) /\
    encrypt keyring nonce secret (uuid_as_bytes id) = Ok stored.

Lemma new_secret_Ok id (w w' : World) secret stored :
  new_secret id w = (w', Ok (secret, stored)) -> drawn_secret w id secret stored /\ w_db w' = w_db w.
Proof.
  intros R. assert (w_db w' = w_db w) as D by (eapply same_db_run, R; tables_auto). split; [|done].
  unfold new_secret in R. unbind R key w1 R1. injection R1 as <- <-. unbind R nonce w2 R2.
  unbind R encrypted w3 R3. apply lift_Ok in R3 as [R3 ->]. apply ret_Ok in R as [[= -> ->] _].
  destruct (encrypt _ _ _ _) as [c|] eqn:Ec; [|done]. injection R3 as ->. by exists (w_draws w), nonce.
Qed.

Lemma audit_change_endpoints actor action id extra (w w' : World) x :
  audit_change actor action id extra w = (w', Ok x) ->
  t_events (w_db w') = t_events (w_db w) /\
  exists row, t_audit_log (w_db w') = t_audit_log (w_db w) ++ [row] /\ al_action row = action /\
    al_user_id row = Some (ad_user_id actor).
Proof.
  unfold audit_change, internal, audit_append. intros R. apply map_err_Ok, execute_Ok in R as [R _].
  injection R as <-. split; [done|]. by eexists.
Qed.

(** The row after the change: the settings given, and the secret it had. *)
Definition moved_row (id : Uuid) (now : Z) (settings : EndpointSettings) (e : WebhookEndpoint) : WebhookEndpoint :=
  endpoint_row id (we_created_at e) now settings (we_secret e).

Lemma update_endpoint_Ok id settings (w w' : World) endpoint :
  update_endpoint id settings w = (w', Ok (Some endpoint)) ->
  exists e, find_in id (w_db w) = Some e /\ endpoint = moved_row id (w_wall w) settings e /\
    e_endpoints (t_events (w_db w')) =
      update_where (is_endpoint id) (moved_row id (w_wall w) settings) (e_endpoints (t_events (w_db w))) /\
    t_audit_log (w_db w') = t_audit_log (w_db w).
Proof.
  intros R. apply execute_Ok in R as [R _]. cbn zeta in R. destruct (find_in id (w_db w)) as [e|]; [|done].
  destruct (negb (settings_ok settings)); [done|]. injection R as <- <-. by exists e.
Qed.

Lemma replace_secret_Ok id stored (w w' : World) b :
  replace_secret id stored w = (w', Ok b) ->
  e_endpoints (t_events (w_db w')) =
    update_where (is_endpoint id) (with_secret (w_wall w) stored) (e_endpoints (t_events (w_db w))) /\
  t_audit_log (w_db w') = t_audit_log (w_db w).
Proof. intros R. apply execute_Ok in R as [R _]. injection R as <- _. done. Qed.

Lemma is_endpoint_id id e : is_endpoint id e = true <-> we_id e = id.
Proof. apply bool_decide_eq_true. Qed.

(** What the change of an endpoint leaves in the table. *)
Definition change_kept (w w' : World) (id : Uuid) (previous : WebhookEndpoint) (input : EndpointInput)
    (secret : option str) : Prop :=
  exists e', find_in id (w_db w') = Some e' /\ we_url e' = in_url input /\ we_enabled e' = in_enabled input /\
    (forall other, other <> id -> find_in other (w_db w') = find_in other (w_db w)) /\
    if decide (url_host (we_url previous) = url_host (in_url input))
    then we_secret e' = we_secret previous /\ secret = None
    else exists s, secret = Some s /\ drawn_secret w id s (we_secret e').

Lemma find_other id other f l :
  other <> id -> (forall e, we_id (f e) = id) ->
  List.find (is_endpoint other) (update_where (is_endpoint id) f l) = List.find (is_endpoint other) l.
Proof.
  intros Ho Hf. unfold update_where. induction l as [|e l IH]; [done|]. cbn [map List.find]. rewrite IH.
  destruct (is_endpoint id e) eqn:Ei; [|done]. apply is_endpoint_id in Ei. unfold is_endpoint at 1 3.
  by rewrite Hf, Ei, bool_decide_false.
Qed.

Lemma find_other_secret id other now stored l :
  other <> id ->
  List.find (is_endpoint other) (update_where (is_endpoint id) (with_secret now stored) l) = List.find (is_endpoint other) l.
Proof.
  intros Ho. unfold update_where. induction l as [|e l IH]; [done|]. cbn [map List.find]. rewrite IH.
  destruct (is_endpoint id e) eqn:Ei; [|done]. apply is_endpoint_id in Ei. unfold is_endpoint at 1 3. cbn [we_id with_secret].
  by rewrite Ei, bool_decide_false.
Qed.

(** An endpoint moved to another host does not keep its secret.  A change
    that succeeds was made after a recent re-authentication, to a URL that may
    be called; the row has the settings given, no other endpoint changed, the
    change is in the audit log, and the secret is the one it had when the host
    is the same, or else one drawn for this request, sealed for this endpoint
    and shown once. *)
Theorem endpoint_change_sound actor id input (w w' : World) saved :
  update actor id input w = (w', Ok saved) ->
  proven (ad_user_id actor) (ad_session_id actor) None w /\
  (exists url, Webhook.check_url (in_url input) (allow_http (cfg_webhooks config)) = Ok url) /\
  exists previous, find_in id (w_db w) = Some previous /\
    change_kept w w' id previous input (se_secret saved) /\
    exists row log, t_audit_log (w_db w') = log ++ [row] /\ al_action row = WebhookUpdated /\
      al_user_id row = Some (ad_user_id actor).
Proof.
  intros R. unfold update in R. unbind R checked_input w0 R0. apply lift_Ok in R0 as [Hc ->].
  destruct checked_input as [events description]. unbind R x w1 R1.
  pose proof (guard_proves _ _ _ _ _ _ _ _ _ R1) as Hp.
  assert (w_draws w <= w_draws w1)%nat as G1 by (refine (keeps_run draws_grow _ _ _ _ _ R1); tables_auto).
  assert (t_events (w_db w1) = t_events (w_db w)) as V1.
  { assert (leaves [TEndpoints; TDeliveries; TOutbox] w w1) as [L _] by (eapply keeps_run, R1; tables_auto).
    pose proof (L TEndpoints ltac:(by listed)) as E1. pose proof (L TDeliveries ltac:(by listed)) as E2.
    pose proof (L TOutbox ltac:(by listed)) as E3. cbn in E1, E2, E3.
    destruct (t_events (w_db w1)), (t_events (w_db w)); cbn in *; congruence. }
  unbind R found w2 R2. unfold internal, find_endpoint in R2. apply map_err_Ok in R2.
  pose proof (keeps_run draws_grow _ _ _ _ (keeps_query _) R2) as G2. apply query_Ok in R2 as [-> [D2 _]].
  unbind R previous w3 R3. apply ok_or_Ok in R3 as [Hf ->].
  assert (find_in id (w_db w) = Some previous) as Hfound by (unfold find_in in *; by rewrite <- V1).
  split; [done|]. split.
  { unfold checked in Hc. destruct (Webhook.check_url _ _) as [url|]; [by eexists|done]. }
  exists previous. split; [done|].
  apply transaction_run in R as [[[e [=]] _]|(w9 & saved' & R & D9 & _ & [[= <-]|[=]])].
  unbind R changed w4 R4. unfold internal in R4. apply map_err_Ok in R4. unbind R endpoint w5 R5.
  apply ok_or_Ok in R5 as [-> ->].
  assert (w_draws w <= w_draws w4)%nat as G4.
  { assert (draws_grow (bump_io w2) w4) as G by (refine (keeps_run draws_grow _ _ _ _ _ R4); apply draws_execute).
    unfold draws_grow in *. cbn in G. lia. }
  apply update_endpoint_Ok in R4 as (e & He & -> & V4' & A4). cbn in He, V4', A4.
  rewrite D2 in He, V4'. assert (e = previous) as -> by (unfold find_in in *; rewrite V1 in *; congruence).
  unbind R secret w6 R6. unbind R y w7 R7. apply ret_Ok in R as [-> ->].
  apply audit_change_endpoints in R7 as [V7 (row & A7 & Hrow)]. cbn [se_secret].
  split; [|exists row, (t_audit_log (w_db w6)); by rewrite D9].
  assert (forall o, find_in o (w_db w') = List.find (is_endpoint o) (e_endpoints (t_events (w_db w6)))) as Hfin
    by (intros o; unfold find_in; by rewrite D9, V7).
  set (settings := settings_of input events description) in *.
  set (f := moved_row id (w_wall w2) settings).
  assert (forall x, is_endpoint id x = true -> is_endpoint id (f x) = true) as Hfid
    by (intros x0 _; by apply is_endpoint_id).
  rewrite V1 in V4'. unfold change_kept. case_decide as Eh.
  - rewrite bool_decide_true in R6 by done. apply ret_Ok in R6 as [-> ->].
    exists (f previous). rewrite Hfin, V4', find_update_where by done. unfold find_in in Hfound. rewrite Hfound.
    split_and!; try done. intros other Ho. rewrite Hfin, V4'. by apply find_other.
  - rewrite bool_decide_false in R6 by done. cbn [negb] in R6. unbind R6 drawn w8 R8. destruct drawn as [s stored].
    apply new_secret_Ok in R8 as [(n & nonce & Hn & Hs & Henc) D8]. unbind R6 z w10 R10.
    unfold internal in R10. apply map_err_Ok in R10. apply ret_Ok in R6 as [-> ->].
    apply replace_secret_Ok in R10 as [V10 _]. rewrite D8, V4' in V10.
    exists (with_secret (w_wall w8) stored (f previous)).
    rewrite Hfin, V10, !find_update_where by done. unfold find_in in Hfound. rewrite Hfound.
    split_and!; try done.
    + intros other Ho. rewrite Hfin, V10, find_other_secret by done. by apply find_other.
    + exists s. split; [done|]. exists n, nonce. split_and!; [|done..]. unfold draws_grow in *. lia.
Qed.
End Endpoints.

(** * Witnesses

    An administrator registers an endpoint, an account is created, its event is
    relayed and delivered. *)

(** The broker stores what it gets; the endpoint answers [reply]. *)
Definition toy_outward (reply : result Z HttpFailure) : Outward.
Proof.
  refine {| json_to_vec _ := Ok u"{}"; rfc3339 _ := Some u"1970-01-01T00:00:20Z"; status_text := to_string;
            lookup_host _ _ port := Ok [(V4 (8 * 2 ^ 24 + 8 * 2 ^ 16 + 8 * 2 ^ 8 + 8), port)];
            client_builds _ _ := Ok tt; http_post _ _ := reply; js_stream _ := Ok tt;
            js_publish _ _ := StoredAcked; relay_lock_free _ := true;
            join_order _ l := reverse l; progress _ := NotStarted |}.
  intros A l. apply reverse_Permutation.
Defined.

Section Witnesses.
Import Scenario.Run Office.Office.
#[local] Existing Instance calm.
#[local] Existing Instance quiet_web.

Definition hook_input (url : str) : EndpointInput :=
  {| in_url := url; in_description := Some u" audit "; in_events := [u"*"]; in_enabled := true |}.

Definition created_run := create admin (hook_input u"https://hooks.example/in") office.
Definition hook_id : Uuid :=
  match created_run.2 with Ok saved => we_id (se_endpoint saved) | Err _ => uuid_nil end.
Definition event_run := enqueue u"user.created" (user_payload 8%N) created_run.1.

Definition up := toy_outward (Ok 204).
Definition down := toy_outward (Err ConnectionFailed).

Lemma event_waits :
  outbox created_run.1 = [] /\ stream created_run.1 = [] /\ stream event_run.1 = [] /\
  Forall (fun r => ob_published_at r = None) (outbox event_run.1) /\ NoDup (event_ids (outbox event_run.1)) /\
  length (stream (Outbox.relay_once (H2 := up) event_run.1).1) = 1%nat.
Proof.
  split; [vm_compute; reflexivity|]. split; [vm_compute; reflexivity|]. split; [vm_compute; reflexivity|].
  split; [apply (bool_decide_unpack _); vm_compute; exact I|].
  split; [apply (bool_decide_unpack _); vm_compute; exact I|vm_compute; reflexivity].
Qed.


Lemma calm_up : broker_up (H2 := up).
Proof. constructor; intros; try reflexivity; [|eexists; reflexivity]. intros n. reflexivity. Qed.

Lemma event_due : due_by (w_wall event_run.1) (waiting event_run.1) /\ length (waiting event_run.1) = 1%nat.
Proof. split; [apply (bool_decide_unpack _); vm_compute; exact I|vm_compute; reflexivity]. Qed.


(** The request of the first round, to an endpoint that answers. *)
Example hook_posted :
  map (fun x => match x with Posted p => (po_address p).1 | _ => V4 0 end)
    (w_sent (deliver_once (H6 := up) event_run.1).1) = [V4 0x08080808] /\
  map wd_attempts (deliveries (w_db (deliver_once (H6 := up) event_run.1).1)) = [1].
Proof. vm_compute. split; reflexivity. Qed.

#[local] Instance delivery_ok_dec (r : WebhookDelivery) : Decision (delivery_ok r).
Proof. unfold delivery_ok. destruct (wd_delivered_at r), (wd_failed_at r); apply _. Defined.

Lemma event_queue_ok : queue_ok (w_db event_run.1) /\ queue_ok (w_db created_run.1).
Proof. split; split; apply (bool_decide_unpack _); vm_compute; exact I. Qed.

Lemma attempts_bounded_witness :
  queue_ok (w_db (redeliver admin hook_id 1006%N (deliver_once (H6 := down) event_run.1).1).1).
Proof.
  destruct event_queue_ok as [_ Hq].
  apply (attempts_bounded (H6 := down) created_run.1); [|exact Hq].
  eapply rtc_l; [apply (queue_event _ u"user.created" (user_payload 8%N))|].
  { exact (proj1 (proj1 event_queue_ok)). }
  eapply rtc_l; [apply queue_round|]. apply rtc_once, queue_again.
Defined.

(** Twelve rounds, six hours apart. *)
Definition six_hours_apart : list Z := map (fun i => 20 * NS + Z.of_nat i * seconds Webhook.MAX_RETRY) (seq 0 12).

Lemma dead_hook : due_at (20 * NS) (w_db event_run.1) /\ budget (w_db event_run.1) = 12%nat.
Proof. split; [unfold due_at; apply (bool_decide_unpack _); vm_compute; exact I|vm_compute; reflexivity]. Qed.

Lemma deliveries_settle_witness :
  let d := w_db (rounds (H6 := down) six_hours_apart event_run.1) in
  Forall (fun r => enabled_for d r = true ->
    is_Some (wd_delivered_at r) \/ is_Some (wd_failed_at r) /\ wd_attempts r = Webhook.MAX_ATTEMPTS) (deliveries d).
Proof.
  apply (deliveries_settle (H6 := down) event_run.1 (20 * NS)).
  - intros n. reflexivity.
  - exact (proj1 event_queue_ok).
  - exact (proj1 dead_hook).
  - vm_compute. repeat split; discriminate.
  - rewrite (proj2 dead_hook). vm_compute. lia.
Defined.

(** The endpoint moves to another host. *)
Definition moved_run := update admin hook_id (hook_input u"https://other.example/in") created_run.1.
Definition moved_saved : SavedEndpoint :=
  match moved_run.2 with
  | Ok saved => saved
  | Err _ => {| se_endpoint := endpoint_row uuid_nil 0 0 (settings_of (hook_input []) [] None) []; se_secret := None |}
  end.

Lemma moved_ok : update admin hook_id (hook_input u"https://other.example/in") created_run.1 = (moved_run.1, Ok moved_saved).
Proof. apply run_answer. vm_compute. reflexivity. Qed.

Lemma endpoint_change_sound_witness :
  is_Some (se_secret moved_saved) /\
  exists previous, find_in hook_id (w_db created_run.1) = Some previous /\
    change_kept created_run.1 moved_run.1 hook_id previous (hook_input u"https://other.example/in") (se_secret moved_saved).
Proof.
  split; [vm_compute; eexists; reflexivity|].
  destruct (endpoint_change_sound admin hook_id (hook_input u"https://other.example/in") _ _ _ moved_ok)
    as (_ & _ & previous & Hp & Hk & _).
  exists previous. split; [exact Hp|exact Hk].
Defined.
End Witnesses.
