(* ===== verification/Rotation.v ===== *)
(** Re-encryption of stored secrets after a change of the encryption key
    (src/src/services/key_rotation.rs): no secret is lost, whatever fails, and a
    run that is answered leaves every readable secret under the current key. *)
From S2P Require Import Prelude Crates Session Account OAuthDomain Network Edge Crypto Tables App Outside RedisCounter SessionRepo Repos Tokens UserRepo AccessRepo TokenRepo AccountsOk Scenario TokensCorrect Refresh RefreshCorrect Login LoginCorrect SecondFactor SecondFactorCorrect OneTime OneTimeCorrect SelfService Guard Administration Office Outbound OutboundCorrect HooksCorrect.
Import Account.Audit Account.TwoFactor.

(** * The command *)

Record RotationResult := { rr_rotated : nat; rr_skipped : nat; rr_failed : nat }.

(** What became of one secret. *)
Inductive Fate := Rotated | Skipped | Unreadable.

#[export] Instance fate_eq_dec : EqDecision Fate.
Proof. solve_decision. Defined.

Definition fates (f : Fate) (l : list Fate) : nat := length (List.filter (fun x => bool_decide (x = f)) l).

Section Rotation.
Context `{RedisServer} `{Env} `{MacCrate} `{AeadCrate}.

(** The body of the two loops: [write] replaces the value read. *)
Definition rotate_one (stored : str) (context : bytes) (write : str -> M SqlError bool) : M AppError Fate :=
  if negb (needs_rotation keyring stored) then mret Skipped
  else
    match decrypt keyring stored context with
    | Err _ => mret Unreadable
    | Ok plaintext =>
        nonce ← random_bytes 12;
        match encrypt keyring nonce plaintext context with
        | Err _ => mret Unreadable
        | Ok reencrypted =>
            written ← attempt (write reencrypted);
            mret (match written with Ok true => Rotated | Ok false => Skipped | Err _ => Unreadable end)
        end
    end.

Definition rotate_endpoint (e : WebhookEndpoint) : M AppError Fate :=
  rotate_one (we_secret e) (uuid_as_bytes (we_id e)) (Hooks.rewrap_secret (we_id e) (we_secret e)).

Definition rotate_method (x : Uuid * Uuid * str) : M AppError Fate :=
  let '(id, user_id, stored) := x in
  rotate_one stored (uuid_as_bytes user_id) (replace_totp_secret id stored).

Fixpoint rotate_each {A} (f : A -> M AppError Fate) (l : list A) : M AppError (list Fate) :=
  match l with
  | [] => mret []
  | x :: rest => fate ← f x; more ← rotate_each f rest; mret (fate :: more)
  end.

(** The previous key must be another one. *)
Definition same_keys : bool :=
  match kr_previous keyring with
  | Some previous => bool_decide (ke_key previous = ke_key (kr_current keyring))
  | None => false
  end.

(** [origin] is what the command line says of its operator. *)
Definition rotate_totp_encryption_key (origin : json) : M AppError RotationResult :=
  if same_keys then fail Internal
  else
    methods ← internal find_all_totp_secrets;
    endpoints ← internal Hooks.find_all_endpoints;
    rotated_endpoints ← rotate_each rotate_endpoint endpoints;
    rotated_methods ← rotate_each rotate_method methods;
    let all := rotated_endpoints ++ rotated_methods in
    let count f := JNum (JInt (Z.of_nat (fates f all))) in
    _ ← internal (audit_append {| na_user_id := None; na_request_id := None; na_action := EncryptionKeyRotated;
          na_ip_address := None;
          na_metadata := JObj [(u"failed", count Unreadable); (u"key_id", JStr (ke_kid (kr_current keyring)));
            (u"origin", origin); (u"rotated", count Rotated); (u"scope", JStr u"totp_and_webhook_secrets");
            (u"skipped", count Skipped);
            (u"total", JNum (JInt (Z.of_nat (length methods + length endpoints))))] |});
    mret {| rr_rotated := fates Rotated all; rr_skipped := fates Skipped all; rr_failed := fates Unreadable all |}.

(** [split_part(x, ':', n)], and the secrets under keys the ring does not hold. *)
Definition unknown_key (stored : str) : bool :=
  negb (starts_with u"v2:" stored)
  || negb (contains (kids keyring) (default [] (split_on 58 stored !! 1%nat))).

Definition secrets_under_unknown_keys : M AppError Z :=
  internal (query (fun d _ =>
    Z.of_nat (length (List.filter (fun m => match tf_totp_secret m with Some s => unknown_key s | None => false end)
                        (t_methods d))
              + length (List.filter (fun e => unknown_key (we_secret e)) (e_endpoints (t_events d)))))).
End Rotation.

(** * Text that was read is text that can be written *)

Lemma from_utf8_scalar (b : bytes) : forall s, from_utf8 b = Some s -> Forall (fun c => is_scalar c = true) s.
Proof.
  induction b as [b IH] using (induction_ltof1 _ length). unfold ltof in IH. intros s E.
  assert (forall c r t, (length r < length b)%nat -> is_scalar c = true -> cons c <$> from_utf8 r = Some t ->
            Forall (fun c => is_scalar c = true) t) as Hcons.
  { intros c r t Hl Hc (x & Hx & ->)%fmap_Some. constructor; [done|]. by apply (IH r). }
  destruct b as [|b0 r0]; [by injection E as <-|]. cbn [from_utf8] in E.
  destruct (_ && _) eqn:E0 in E.
  { refine (Hcons _ _ _ _ _ E); [cbn; lia|]. unfold is_scalar. breflect. lia. }
  destruct r0 as [|b1 r1]; [done|]. destruct (_ && _) eqn:E1 in E.
  { refine (Hcons _ _ _ _ _ E); [cbn; lia|]. unfold is_scalar, continuation in *. breflect. lia. }
  destruct r1 as [|b2 r2]; [done|]. cbv zeta in E. destruct (_ && _) eqn:E2 in E.
  { refine (Hcons _ _ _ _ _ E); [cbn; lia|]. apply andb_true_iff in E2. apply E2. }
  destruct r2 as [|b3 r3]; [done|]. destruct (_ && _) eqn:E3 in E; [|done].
  refine (Hcons _ _ _ _ _ E); [cbn; lia|]. apply andb_true_iff in E3. apply E3.
Qed.

Section RotationTheorems.
Context `{RedisServer} `{Env} `{MacCrate} `{AeadCrate}.

(** The ring of the process: the key of the configuration, and the one before. *)
Variables (key : bytes) (previous : option bytes).
Hypothesis ring : keyring = keyring_new key previous.
Hypothesis nonces : forall n, length (draw_bytes 12 n) = 12%nat.

Lemma decrypt_scalar (stored : str) (context : bytes) (plaintext : str) :
  decrypt keyring stored context = Ok plaintext -> Forall (fun c => is_scalar c = true) plaintext.
Proof.
  unfold decrypt, decrypt_with_aad. intros E. repeat case_match; simplify_eq. by eapply from_utf8_scalar.
Qed.

(** What the current key seals is read back for its row, and needs no rotation. *)
Lemma encrypt_current (n : nat) (stored' : str) (plaintext : str) (context : bytes) :
  Forall (fun c => is_scalar c = true) plaintext ->
  encrypt keyring (draw_bytes 12 n) plaintext context = Ok stored' ->
  decrypt keyring stored' context = Ok plaintext /\ needs_rotation keyring stored' = false.
Proof.
  intros Hp. unfold encrypt. destruct (encrypt_with_aad _ _ _ _) as [body|] eqn:Eb; [|done]. intros Hst.
  rewrite ring in *. cbn [keyring_new kr_current] in *.
  assert (strip_prefix V2_PREFIX stored' ≫= split_once 58 = Some (ke_kid (key_entry key), body)) as Hs
    by (injection Hst as <-; apply stored_parts). unfold needs_rotation. rewrite Hs. cbn [keyring_new kr_current].
  rewrite str_eqb_refl. split; [|done]. apply bind_Some in Hs as (rest & Hr & Hs). unfold decrypt. rewrite Hr, Hs.
  unfold key_for, entries. cbn [keyring_new kr_current List.find]. rewrite str_eqb_refl. cbn.
  rewrite (decrypt_with_aad_seal _ _ _ _ _ _ (nonces n) Hp Eb). by case_decide.
Qed.

(** ** No secret is lost *)

(** A stored secret, unchanged or sealed again: the same text for the same row. *)
Definition rewrapped (context : bytes) (s s' : str) : Prop :=
  s' = s \/ exists plaintext, decrypt keyring s context = Ok plaintext /\
              decrypt keyring s' context = Ok plaintext /\ needs_rotation keyring s' = false.

Lemma rewrapped_trans (context : bytes) (s1 s2 s3 : str) :
  rewrapped context s1 s2 -> rewrapped context s2 s3 -> rewrapped context s1 s3.
Proof.
  intros [->|(p & D1 & D2 & N2)]; [done|]. intros [->|(q & D3 & D4 & N4)]; right; exists p; [done|].
  split_and!; [done|congruence|done].
Qed.

Definition endpoint_kept (e e' : WebhookEndpoint) : Prop :=
  we_id e' = we_id e /\ rewrapped (uuid_as_bytes (we_id e)) (we_secret e) (we_secret e').

Definition method_kept (m m' : TwoFactorMethod) : Prop :=
  tf_id m' = tf_id m /\ tf_user_id m' = tf_user_id m /\ tf_method_type m' = tf_method_type m /\
  match tf_totp_secret m, tf_totp_secret m' with
  | Some s, Some s' => rewrapped (uuid_as_bytes (tf_user_id m)) s s'
  | None, None => True
  | _, _ => False
  end.

Definition secrets_kept (w w' : World) : Prop :=
  Forall2 endpoint_kept (e_endpoints (t_events (w_db w))) (e_endpoints (t_events (w_db w'))) /\
  Forall2 method_kept (t_methods (w_db w)) (t_methods (w_db w')).

#[local] Instance endpoint_kept_refl : Reflexive endpoint_kept.
Proof. intros e. split; [done|]. by left. Qed.

#[local] Instance endpoint_kept_trans : Transitive endpoint_kept.
Proof.
  intros a b c [I1 R1] [I2 R2]. split; [congruence|]. rewrite I1 in R2. by eapply rewrapped_trans.
Qed.

#[local] Instance method_kept_refl : Reflexive method_kept.
Proof. intros m. split_and!; try done. destruct (tf_totp_secret m); [by left|done]. Qed.

#[local] Instance method_kept_trans : Transitive method_kept.
Proof.
  intros a b c (I1 & U1 & T1 & S1) (I2 & U2 & T2 & S2). split_and!; [congruence..|]. rewrite U1 in S2.
  destruct (tf_totp_secret a), (tf_totp_secret b), (tf_totp_secret c); try done. by eapply rewrapped_trans.
Qed.

#[local] Instance secrets_kept_frame : Frame secrets_kept.
Proof.
  constructor; [constructor| |]; unfold SleepFrame, RedisFrame, secrets_kept; try (intros; split; reflexivity).
  intros w1 w2 w3 [A B] [C D]. split; by etrans.
Qed.

#[local] Instance secrets_kept_reads : Reads secrets_kept [TEndpoints; TMethods].
Proof.
  intros w d Ha. unfold secrets_kept. cbn. pose proof (Ha TEndpoints ltac:(by listed)) as E1.
  pose proof (Ha TMethods ltac:(by listed)) as E2. unfold agree in *. cbn in *. rewrite <- E1, <- E2. split; reflexivity.
Qed.

Lemma update_where_kept {A} (R : A -> A -> Prop) `{!Reflexive R} p f (l : list A) :
  (forall x, x ∈ l -> p x = true -> R x (f x)) -> Forall2 R l (update_where p f l).
Proof.
  induction l as [|x l IH]; intros Hf; [constructor|]. cbn. constructor.
  - destruct (p x) eqn:E; [|reflexivity]. apply Hf; [by listed|done].
  - apply IH. intros y Hy. apply Hf. by apply list_elem_of_further.
Qed.

Lemma keeps_rewrap id (s s' : str) :
  rewrapped (uuid_as_bytes id) s s' -> keeps secrets_kept (Hooks.rewrap_secret id s s').
Proof.
  intros Hr. apply keeps_execute. intros w d a [= <- _]. split; [|reflexivity].
  apply update_where_kept; [apply _|]. intros e _ Hp. unfold Hooks.is_endpoint in Hp. breflect. rewrite bool_decide_eq_true in Hp.
  destruct Hp as [<- <-]. split; [done|exact Hr].
Qed.

(** The methods named [id] belong to [user_id]. *)
Definition owned_by (id user_id : Uuid) (w : World) : Prop :=
  Forall (fun m => tf_id m = id -> tf_user_id m = user_id) (t_methods (w_db w)).

Lemma owned_kept id user_id (w w' : World) : secrets_kept w w' -> owned_by id user_id w -> owned_by id user_id w'.
Proof.
  intros [_ Hm]. unfold owned_by. induction Hm as [|m m' l l' (I & U & _) _ IH]; [done|].
  intros [Ho Hl]%Forall_cons. constructor; [|by apply IH]. rewrite I, U. exact Ho.
Qed.

(** A statement on the methods, where it starts. *)
Lemma execute_at {A} (R : World -> World -> Prop) `{!CoreFrame R} (f : Db -> Z -> result (Db * A) SqlError) (w : World) :
  (forall d a, f (w_db w) (w_wall w) = Ok (d, a) -> forall w1, w_db w1 = w_db w -> R w1 (with_db (fun _ => d) w1)) ->
  R w (execute f w).1.
Proof.
  intros Hf. unfold execute, io. destruct (io_plan (w_io w)); cbn; [|apply frame_io|];
    (destruct (f (w_db w) (w_wall w)) as [[d a]|e] eqn:E; cbn; [|apply frame_io]);
    (eapply frame_trans; [apply frame_io|]); by eapply (Hf d a).
Qed.

Lemma keeps_replace id user_id (s s' : str) (w : World) :
  owned_by id user_id w -> rewrapped (uuid_as_bytes user_id) s s' ->
  secrets_kept w (replace_totp_secret id s s' w).1.
Proof.
  intros Ho Hr. apply (execute_at secrets_kept). intros d a [= <- _] w1 E. unfold secrets_kept. rewrite E. cbn.
  split; [reflexivity|]. apply update_where_kept; [apply _|]. intros m Hm Hp. breflect. rewrite !bool_decide_eq_true in Hp. destruct Hp as [Hi Hs].
  unfold owned_by in Ho. rewrite Forall_forall in Ho. specialize (Ho m Hm Hi). split_and!; [done..|].
  cbn. rewrite Hs, Ho. exact Hr.
Qed.

(** The body of the loops keeps every secret when its write does. *)
Lemma rotate_one_kept (stored : str) (context : bytes) (write : str -> M SqlError bool) (w : World) :
  (forall s' w1, secrets_kept w w1 -> rewrapped context stored s' -> secrets_kept w1 (write s' w1).1) ->
  secrets_kept w (rotate_one stored context write w).1.
Proof.
  intros Hw. unfold rotate_one. destruct (needs_rotation _ _); [|apply frame_refl].
  destruct (decrypt keyring stored context) as [plaintext|e] eqn:Ed; [|apply frame_refl].
  apply (at_bind secrets_kept); [by apply keeps_random_bytes; apply _|]. intros nonce w1 [= <- <-].
  destruct (encrypt _ _ _ _) as [s'|e] eqn:Ee; [|apply frame_refl].
  destruct (encrypt_current _ _ _ _ (decrypt_scalar _ _ _ Ed) Ee) as [D N].
  apply (at_bind secrets_kept); [|intros; apply frame_refl]. unfold attempt.
  specialize (Hw s' (bump_draws w)). destruct (write s' _). apply Hw; [apply frame_draws|].
  right. by exists plaintext.
Qed.

Lemma rotate_endpoint_kept (e : WebhookEndpoint) : keeps secrets_kept (rotate_endpoint e).
Proof. intros w. apply rotate_one_kept. intros s' w1 _ Hr. by apply keeps_rewrap. Qed.

Lemma rotate_endpoints_kept l : keeps secrets_kept (rotate_each rotate_endpoint l).
Proof.
  induction l as [|e l IH]; [apply keeps_ret|]. cbn. apply keeps_bind; [apply rotate_endpoint_kept|]. intros f.
  apply keeps_bind; [exact IH|]. intros more. apply keeps_ret.
Qed.

Lemma rotate_methods_kept l : forall w, Forall (fun '(id, user_id, _) => owned_by id user_id w) l ->
  secrets_kept w (rotate_each rotate_method l w).1.
Proof.
  induction l as [|[[id user_id] s] l IH]; intros w Ho; [apply frame_refl|]. apply Forall_cons in Ho as [Ho Hl]. cbn [rotate_each].
  assert (secrets_kept w (rotate_method (id, user_id, s) w).1) as Hk.
  { apply rotate_one_kept. intros s' w1 Hw. apply keeps_replace. by eapply owned_kept. }
  apply (at_bind secrets_kept); [exact Hk|]. intros f w1 R1. rewrite R1 in Hk.
  apply (at_bind secrets_kept); [|intros; apply frame_refl]. apply IH.
  eapply Forall_impl; [exact Hl|]. intros [[id' user'] s']. by apply owned_kept.
Qed.

Lemma keyed_unique {A B} (f : A -> B) (l : list A) x y : NoDup (map f l) -> x ∈ l -> y ∈ l -> f y = f x -> x = y.
Proof.
  intros Hn [i Hi]%list_elem_of_lookup [j Hj]%list_elem_of_lookup E.
  assert (i = j) as <-; [|congruence].
  eapply (NoDup_lookup _ _ _ (f x) Hn); rewrite list_lookup_fmap; [by rewrite Hi|by rewrite Hj; cbn; f_equal].
Qed.

(** The ids of the methods are the key of their table. *)
Definition methods_keyed (w : World) : Prop := NoDup (map tf_id (t_methods (w_db w))).

Lemma read_owned (w : World) (l : list (Uuid * Uuid * str)) (w1 : World) :
  methods_keyed w -> find_all_totp_secrets w = (w1, Ok l) ->
  w_db w1 = w_db w /\ Forall (fun '(id, user_id, _) => owned_by id user_id w) l.
Proof.
  intros Hn R. unfold find_all_totp_secrets in R. pose proof (same_db_run _ _ _ _ (keeps_query _) R) as E.
  apply query_Ok in R as [-> _]. split; [done|].
  apply Forall_forall. intros [[id user_id] s] (m & Hm & Em)%list_elem_of_omap. case_bool_decide; [|done].
  destruct (tf_totp_secret m) eqn:Es; [|done]. injection Em as <- <- <-. apply Forall_forall. intros m' Hm' Ei.
  by rewrite (keyed_unique tf_id _ m m' Hn Hm Hm').
Qed.
(** ** A run that is answered moves every secret *)

(** What AES-GCM seals: up to [2^36] bytes. *)
Definition sealable (plaintext : str) : Prop := Z.of_nat (length (as_bytes plaintext)) <= 2 ^ 36.

Definition readable (stored : str) (context : bytes) : Prop :=
  exists plaintext, decrypt keyring stored context = Ok plaintext /\ sealable plaintext.

Hypothesis seals : forall nonce context plaintext,
  length nonce = 12%nat -> sealable plaintext -> is_Some (gcm_seal key nonce (v2_aad context) (as_bytes plaintext)).

Lemma rotate_one_answered (P : Db -> Prop) (stored : str) (context : bytes) (write : str -> M SqlError bool) (w : World) :
  readable stored context ->
  (needs_rotation keyring stored = false -> P (w_db w)) ->
  (forall s' w1, w_db w1 = w_db w -> needs_rotation keyring s' = false ->
     exists w2 b, write s' w1 = (w2, Ok b) /\ P (w_db w2)) ->
  exists w2 f, rotate_one stored context write w = (w2, Ok f) /\ f <> Unreadable /\ P (w_db w2).
Proof.
  intros (plaintext & Ed & Hs) Hskip Hwrite. unfold rotate_one.
  destruct (needs_rotation keyring stored) eqn:En; [|exists w, Skipped; split_and!; [done..|by apply Hskip]].
  cbn [negb]. rewrite Ed. unfold mbind, M_bind, random_bytes.
  destruct (encrypt keyring (draw_bytes 12 (w_draws w)) plaintext context) as [s'|e] eqn:Ee.
  - destruct (encrypt_current _ _ _ _ (decrypt_scalar _ _ _ Ed) Ee) as [_ N].
    destruct (Hwrite s' (bump_draws w) eq_refl N) as (w2 & b & R & HP).
    exists w2, (if b then Rotated else Skipped). unfold attempt, M_bind. rewrite R. cbn. split_and!; [by destruct b..|done].
  - exfalso. unfold encrypt, encrypt_with_aad in Ee. rewrite ring in Ee. cbn [keyring_new kr_current key_entry ke_key] in Ee.
    destruct (seals (draw_bytes 12 (w_draws w)) context plaintext (nonces _) Hs) as [c Hc]. by rewrite Hc in Ee.
Qed.

(** Every row is under the current key, or is still to come. *)
Definition endpoint_left (l : list WebhookEndpoint) (e : WebhookEndpoint) : Prop :=
  needs_rotation keyring (we_secret e) = false \/
  exists e0, e0 ∈ l /\ we_id e0 = we_id e /\ we_secret e0 = we_secret e.

Definition method_left (l : list (Uuid * Uuid * str)) (m : TwoFactorMethod) : Prop :=
  forall s, tf_method_type m = Totp -> tf_totp_secret m = Some s ->
    needs_rotation keyring s = false \/ (tf_id m, tf_user_id m, s) ∈ l.

Lemma rotate_endpoints_answered l : forall w, all_answered ->
  Forall (fun e => readable (we_secret e) (uuid_as_bytes (we_id e))) l ->
  Forall (endpoint_left l) (e_endpoints (t_events (w_db w))) ->
  exists w2 fs, rotate_each rotate_endpoint l w = (w2, Ok fs) /\ Unreadable ∉ fs /\ length fs = length l /\
    Forall (endpoint_left []) (e_endpoints (t_events (w_db w2))) /\ t_methods (w_db w2) = t_methods (w_db w).
Proof.
  induction l as [|e l IH]; intros w Ha Hr Hl.
  { exists w, []. split_and!; [done|apply not_elem_of_nil|done..]. }
  apply Forall_cons in Hr as [He Hr]. cbn [rotate_each].
  destruct (rotate_one_answered
    (fun d => Forall (endpoint_left l) (e_endpoints (t_events d)) /\ t_methods d = t_methods (w_db w))
    (we_secret e) (uuid_as_bytes (we_id e)) (Hooks.rewrap_secret (we_id e) (we_secret e)) w He)
    as (w1 & f & R1 & Hf & H1' & M1).
  - intros Hn. split; [|done]. eapply Forall_impl; [exact Hl|]. intros x [Hx|(e0 & [->|He0]%elem_of_cons & I & S)].
    + by left.
    + left. by rewrite <- S.
    + right. by exists e0.
  - intros s' w1 E Hn. unfold Hooks.rewrap_secret. erewrite execute_done; [|done|reflexivity].
    eexists _, _. split; [reflexivity|]. cbn. rewrite E. split; [|done].
    unfold update_where. apply Forall_fmap, (Forall_impl _ _ _ Hl). intros x Hx. cbn.
    unfold Hooks.is_endpoint. destruct (bool_decide (we_id x = we_id e) && str_eqb (we_secret x) (we_secret e)) eqn:Eb.
    + by left.
    + destruct Hx as [Hx|(e0 & [->|He0]%elem_of_cons & I & S)]; [by left| |right; by exists e0].
      rewrite <- I, <- S, bool_decide_eq_true_2, str_eqb_refl in Eb by done. done.
  - change (rotate_endpoint e w = (w1, Ok f)) in R1. unfold mbind, M_bind. rewrite R1.
    destruct (IH w1 Ha Hr H1') as (w2 & fs & R2 & Hfs & L & H2' & M2). rewrite R2.
    exists w2, (f :: fs). split_and!; [done| |cbn; congruence|done|congruence]. rewrite not_elem_of_cons. done.
Qed.

Lemma rotate_methods_answered l : forall w, all_answered ->
  Forall (fun '(_, user_id, s) => readable s (uuid_as_bytes user_id)) l ->
  Forall (fun '(id, user_id, _) => owned_by id user_id w) l ->
  Forall (method_left l) (t_methods (w_db w)) ->
  exists w2 fs, rotate_each rotate_method l w = (w2, Ok fs) /\ Unreadable ∉ fs /\ length fs = length l /\
    Forall (method_left []) (t_methods (w_db w2)) /\
    e_endpoints (t_events (w_db w2)) = e_endpoints (t_events (w_db w)).
Proof.
  induction l as [|[[id user_id] stored] l IH]; intros w Ha Hr Ho Hl.
  { exists w, []. split_and!; [done|apply not_elem_of_nil|done..]. }
  apply Forall_cons in Hr as [He Hr]. apply Forall_cons in Ho as [Ho Hos]. cbn [rotate_each].
  destruct (rotate_one_answered
    (fun d => Forall (method_left l) (t_methods d) /\ e_endpoints (t_events d) = e_endpoints (t_events (w_db w)))
    stored (uuid_as_bytes user_id) (replace_totp_secret id stored) w He) as (w1 & f & R1 & Hf & H1' & M1).
  - intros Hn. split; [|done]. eapply Forall_impl; [exact Hl|]. intros x Hx s Ht Es.
    destruct (Hx s Ht Es) as [Hs|[[= _ _ ->]|Hs]%elem_of_cons]; [by left|by left|by right].
  - intros s' w1 E Hn. unfold replace_totp_secret. erewrite execute_done; [|done|reflexivity].
    eexists _, _. split; [reflexivity|]. cbn. rewrite E. split; [|done].
    unfold update_where. apply Forall_fmap, (Forall_impl _ _ _ Hl). intros x Hx s. cbn.
    destruct (bool_decide (tf_id x = id) && bool_decide (tf_totp_secret x = Some stored)) eqn:Eb; cbn.
    + intros _ [= <-]. by left.
    + intros Ht Es. destruct (Hx s Ht Es) as [Hs|[[= I _ S]|Hs]%elem_of_cons]; [by left| |by right].
      by rewrite I, Es, S, !bool_decide_eq_true_2 in Eb.
  - change (rotate_method (id, user_id, stored) w = (w1, Ok f)) in R1. unfold mbind, M_bind. rewrite R1.
    assert (secrets_kept w w1) as Hk.
    { replace w1 with (rotate_method (id, user_id, stored) w).1 by by rewrite R1.
      apply rotate_one_kept. intros s' w0 Hw. apply keeps_replace. by eapply owned_kept. }
    destruct (IH w1 Ha Hr) as (w2 & fs & R2 & Hfs & L & H2' & M2); [|done|].
    { eapply Forall_impl; [exact Hos|]. intros [[id' user'] s']. by apply owned_kept. }
    rewrite R2. exists w2, (f :: fs). split_and!; [done| |cbn; congruence|done|congruence]. by rewrite not_elem_of_cons.
Qed.

Lemma fates_total (l : list Fate) : (fates Rotated l + fates Skipped l + fates Unreadable l)%nat = length l.
Proof. unfold fates. induction l as [|[] l IH]; cbn; repeat case_bool_decide; try congruence; cbn in *; lia. Qed.

Lemma fates_none (f : Fate) (l : list Fate) : f ∉ l -> fates f l = 0%nat.
Proof.
  unfold fates. induction l as [|x l IH]; [done|]. intros [Hx Hl]%not_elem_of_cons. cbn.
  rewrite bool_decide_eq_false_2 by done. by apply IH.
Qed.

Definition all_readable (w : World) : Prop :=
  Forall (fun e => readable (we_secret e) (uuid_as_bytes (we_id e))) (e_endpoints (t_events (w_db w))) /\
  Forall (fun m => forall s, tf_totp_secret m = Some s -> readable s (uuid_as_bytes (tf_user_id m))) (t_methods (w_db w)).

(** The authenticator secrets and the endpoints. *)
Definition totp_secrets (w : World) : list (Uuid * Uuid * str) :=
  omap (fun m => if bool_decide (tf_method_type m = Totp)
                 then (fun s => (tf_id m, tf_user_id m, s)) <$> tf_totp_secret m else None) (t_methods (w_db w)).

Lemma totp_secrets_elem (w : World) x : x ∈ totp_secrets w <->
  exists m s, m ∈ t_methods (w_db w) /\ tf_method_type m = Totp /\ tf_totp_secret m = Some s /\
    x = (tf_id m, tf_user_id m, s).
Proof.
  unfold totp_secrets. rewrite list_elem_of_omap. split.
  - intros (m & Hm & E). case_bool_decide as Ht; [|done]. destruct (tf_totp_secret m) as [s|] eqn:Es; [|done].
    exists m, s. by injection E as <-.
  - intros (m & s & Hm & Ht & Es & ->). exists m. by rewrite bool_decide_eq_true_2, Es.
Qed.

Lemma same_keys_other : previous <> Some key -> same_keys = false.
Proof.
  intros Hp. unfold same_keys. rewrite ring. cbn. destruct previous as [old|]; [|done]. cbn.
  apply bool_decide_eq_false_2. intros ->. by apply Hp.
Qed.

Lemma rotation_kept (origin : json) (w : World) :
  methods_keyed w -> secrets_kept w (rotate_totp_encryption_key origin w).1.
Proof.
  intros Hn. unfold rotate_totp_encryption_key, internal. destruct same_keys; [apply frame_refl|].
  apply (at_bind secrets_kept); [by apply keeps_map_err, keeps_query; apply _|].
  intros methods w1 R1%map_err_Ok. destruct (read_owned w methods w1 Hn) as [E1 Ho]; [done|].
  apply (at_bind secrets_kept); [by apply keeps_map_err, keeps_query; apply _|]. intros endpoints w2 R2%map_err_Ok.
  pose proof (same_db_run _ _ _ _ (keeps_query _) R2) as E2.
  pose proof (rotate_endpoints_kept endpoints w2) as K.
  apply (at_bind secrets_kept); [exact K|]. intros fs w3 R3. rewrite R3 in K.
  apply (at_bind secrets_kept).
  - apply rotate_methods_kept. eapply Forall_impl; [exact Ho|]. intros [[id user_id] s] Hs. eapply owned_kept; [exact K|].
    unfold owned_by. by rewrite E2, E1.
  - intros fs' w4 _. refine ((_ : keeps secrets_kept _) w4). by tables_auto.
Qed.

(** C15: no run of the rotation loses a secret, and a run that is answered
    finishes the job.  Whatever is refused or cut off, every endpoint and every
    second factor stays in its row, with the secret it had or with one that the
    ring opens, for that row, to the same text and that is under the current key.
    When everything is answered and every secret can be read, the run returns,
    reports none as failed and all as rotated or skipped, and leaves no webhook
    or authenticator secret under another key: the previous one can go. *)
Theorem rotation_preserves_secrets (origin : json) (w : World) :
  methods_keyed w ->
  secrets_kept w (rotate_totp_encryption_key origin w).1 /\
  (all_answered -> all_readable w -> previous <> Some key ->
   exists w' r, rotate_totp_encryption_key origin w = (w', Ok r) /\ rr_failed r = 0%nat /\
     (rr_rotated r + rr_skipped r)%nat = (length (e_endpoints (t_events (w_db w))) + length (totp_secrets w))%nat /\
     Forall (fun e => needs_rotation keyring (we_secret e) = false) (e_endpoints (t_events (w_db w'))) /\
     Forall (fun '(_, _, s) => needs_rotation keyring s = false) (totp_secrets w')).
Proof.
  intros Hn. split; [by apply rotation_kept|]. intros Ha [He Hm] Hp. unfold rotate_totp_encryption_key.
  rewrite same_keys_other by done. unfold internal, map_err, mbind, M_bind. unfold find_all_totp_secrets, Hooks.find_all_endpoints.
  rewrite !query_answered by done. cbn [bump_io w_db].
  set (w1 := bump_io (bump_io w)). set (endpoints := sort_by _ _).
  assert (endpoints ≡ₚ e_endpoints (t_events (w_db w))) as HE by apply merge_sort_Permutation.
  destruct (rotate_endpoints_answered endpoints w1 Ha) as (w2 & fs & R2 & F2 & L2 & E2 & M2).
  { by rewrite HE. }
  { apply Forall_forall. intros e Hx. right. exists e. split; [by rewrite HE|done]. }
  rewrite R2. fold (totp_secrets w).
  destruct (rotate_methods_answered (totp_secrets w) w2 Ha) as (w3 & fs' & R3 & F3 & L3 & M3 & E3).
  { apply Forall_forall. intros x (m & s & Hx & _ & Es & ->)%totp_secrets_elem. rewrite Forall_forall in Hm. by apply (Hm m). }
  { apply Forall_forall. intros x (m & s & Hx & _ & Es & ->)%totp_secrets_elem. unfold owned_by. rewrite M2.
    apply Forall_forall. intros m' Hm' Ei. by rewrite (keyed_unique tf_id _ m m' Hn Hx Hm' Ei). }
  { rewrite M2. apply Forall_forall. intros m Hx s Ht Es. right. apply totp_secrets_elem. by exists m, s. }
  rewrite R3. unfold audit_append. rewrite execute_answered by done. eexists _, _. split; [reflexivity|]. cbn.
  pose proof (fates_total (fs ++ fs')) as T. rewrite length_app, L2, L3, HE in T.
  assert (fates Unreadable (fs ++ fs') = 0%nat) as U by (apply fates_none; rewrite not_elem_of_app; done).
  split_and!; [done|lia| |].
  - rewrite E3. eapply Forall_impl; [exact E2|]. by intros e [He'|(e0 & []%not_elem_of_nil & _)].
  - apply Forall_forall. intros x (m & s & Hx & Ht & Es & ->)%totp_secrets_elem. rewrite Forall_forall in M3.
    by destruct (M3 m Hx s Ht Es) as [?|[]%not_elem_of_nil].
Qed.
End RotationTheorems.

(** * Witness

    An endpoint and an authenticator, sealed before the key was changed. *)

Section Witnesses.
Import Scenario.Run Office.Office.

Definition old_key : bytes := replicate 32 5.
Definition new_key : bytes := 7 :: replicate 31 0.

Definition rekeyed : Env :=
  {| config := settings; io_plan := fun _ => Answered;
     draw_token := draw_token (Env := calm); draw_uuid := draw_uuid (Env := calm);
     draw_bytes := draw_bytes (Env := calm); draw_secret := draw_secret (Env := calm);
     draw_otp := draw_otp (Env := calm); draw_pick := draw_pick (Env := calm); draw_entry := draw_entry (Env := calm);
     stopwatch := stopwatch (Env := calm); keyring := keyring_new new_key (Some old_key) |}.

Definition sealed_totp : str :=
  match encrypt (keyring_new old_key None) (replicate 12 9) u"JBSWY3DPEHPK3PXP" (uuid_as_bytes 7%N) with
  | Ok s => s
  | Err _ => []
  end.

Definition with_totp : World :=
  with_db (set_methods (map (secret_row 0 0 (Some sealed_totp)))) created_run.1.

Definition rotation_run := rotate_totp_encryption_key (H0 := rekeyed) (JStr u"cli") with_totp.

(** Both are moved, and a second run finds nothing to do. *)
Example rotation_twice :
  rotation_run.2 = Ok {| rr_rotated := 2; rr_skipped := 0; rr_failed := 0 |} /\
  (rotate_totp_encryption_key (H0 := rekeyed) (JStr u"cli") rotation_run.1).2
    = Ok {| rr_rotated := 0; rr_skipped := 2; rr_failed := 0 |}.
Proof. vm_compute. split; reflexivity. Qed.

Definition opens (stored : str) (context : bytes) : bool :=
  match decrypt (keyring (Env := rekeyed)) stored context with
  | Ok plaintext => Z.of_nat (length (as_bytes plaintext)) <=? 2 ^ 36
  | Err _ => false
  end.

Lemma opens_readable (stored : str) (context : bytes) :
  opens stored context = true -> readable (H0 := rekeyed) stored context.
Proof.
  unfold opens, readable, sealable. destruct (decrypt _ _ _) as [p|]; [|done]. intros Hp. breflect. by exists p.
Qed.

Lemma with_totp_readable :
  forallb (fun e => opens (we_secret e) (uuid_as_bytes (we_id e))) (e_endpoints (t_events (w_db with_totp))) = true /\
  forallb (fun m => match tf_totp_secret m with Some s => opens s (uuid_as_bytes (tf_user_id m)) | None => true end)
    (t_methods (w_db with_totp)) = true /\
  length (e_endpoints (t_events (w_db with_totp))) = 1%nat /\ length (totp_secrets with_totp) = 1%nat.
Proof. vm_compute. split_and!; reflexivity. Qed.

Lemma with_totp_ok : methods_keyed with_totp /\ all_readable (H0 := rekeyed) with_totp.
Proof.
  split; [apply (bool_decide_unpack _); vm_compute; exact I|].
  destruct with_totp_readable as (He & Hm & _). rewrite forallb_forall in He, Hm. split; apply Forall_forall.
  - intros e Hx. apply opens_readable, He. by apply list_elem_of_In.
  - intros m Hx s Es. specialize (Hm m). rewrite Es in Hm. apply opens_readable, Hm. by apply list_elem_of_In.
Qed.

Lemma rotation_preserves_secrets_witness :
  secrets_kept (H0 := rekeyed) with_totp rotation_run.1 /\
  exists w' r, rotate_totp_encryption_key (H0 := rekeyed) (JStr u"cli") with_totp = (w', Ok r) /\
    rr_failed r = 0%nat /\ (rr_rotated r + rr_skipped r)%nat = 2%nat /\
    Forall (fun e => needs_rotation (keyring (Env := rekeyed)) (we_secret e) = false) (e_endpoints (t_events (w_db w'))).
Proof.
  destruct with_totp_ok as [Hk Hr]. destruct with_totp_readable as (_ & _ & L1 & L2).
  destruct (rotation_preserves_secrets (H0 := rekeyed) new_key (Some old_key) eq_refl
    (fun n => length_replicate 12 (Z.of_nat n)) (fun nonce context plaintext _ _ => ltac:(eexists; reflexivity))
    (JStr u"cli") with_totp Hk) as [K1 K2].
  split; [exact K1|]. destruct (K2 (fun n => eq_refl) Hr ltac:(discriminate)) as (w' & r & R & F & T & E & _).
  exists w', r. split; [exact R|]. split; [exact F|]. split; [|exact E]. rewrite T, L1, L2. reflexivity.
Defined.
End Witnesses.
