(* ===== verification/AccessToken.v ===== *)
(** Access tokens as requests present them: verifying keys (src/src/state.rs,
    src/src/utils/jwt.rs) and the extractors every handler runs behind
    (src/src/handlers/extractors.rs). *)
From S2P Require Import Prelude Crates Codec Session Account OAuthDomain Network Edge Crypto Tables App RedisCounter SessionRepo Repos Tokens UserRepo AccessRepo Scenario TokensCorrect Refresh Login SecondFactor OneTime SelfService Factors Administration Office.
Import Account.Role.

(** * The crates: keys and signatures *)

(** [DecodingKey::from_ec_pem], [p256] with [to_encoded_point(false)],
    [jsonwebtoken::decode_header] and [jsonwebtoken::decode] for ES256 with
    [exp] required: what a token says, once its signature matches the key.
    The public keys are those of the configuration; what the service signs
    carries the key identifier of the first one and verifies with it. *)
Class JwtCrates `{CryptoCrates} `{Jwt} := {
  DecodingKey : Type;
  parse_verifying_key : str -> option DecodingKey;
  parse_p256_verifying_key : str -> option bytes;
  decode_header : str -> result (option str) str;
  jwt_decode : str -> DecodingKey -> result Claims str;
  jwt_public_key : str;
  jwt_next_public_key : option str;
  jwt_previous_public_key : option str;
  own_token : forall claims token point key,
    encode_token claims = Some token ->
    parse_p256_verifying_key jwt_public_key = Some point ->
    parse_verifying_key jwt_public_key = Some key ->
    decode_header token = Ok (Some (hex_text (take 8 (sha256 point)))) /\
    jwt_decode token key = Ok claims;
}.

Definition toy_unwrap (token : str) : result Claims str :=
  match strip_prefix u"jwt." token with
  | Some body => match decode (removelast body) with Some c => Ok c | None => Err u"payload" end
  | None => Err u"header"
  end.

#[export] Instance toy_jwt_crates : JwtCrates.
Proof.
  refine {|
    DecodingKey := str;
    parse_verifying_key pem := Some pem;
    parse_p256_verifying_key pem := Some (as_bytes pem);
    decode_header token := Ok (Some (hex_text (take 8 (sha256 (as_bytes u"own key")))));
    jwt_decode token key := if str_eqb key u"own key" then toy_unwrap token else Err u"signature";
    jwt_public_key := u"own key";
    jwt_next_public_key := Some u"next key";
    jwt_previous_public_key := None;
  |}.
  intros claims token point key Ht Hp Hk. apply (inj Some) in Ht as <-, Hp as <-, Hk as <-. split; [done|].
  change (str_eqb u"own key" u"own key") with true. cbn iota. unfold toy_unwrap.
  rewrite strip_prefix_app. change u"." with [46]. by rewrite removelast_last, decode_encode.
Defined.

Section Keys.
Context `{CryptoCrates} `{!Jwt} `{!JwtCrates}.

(** * Keys (state.rs, utils/jwt.rs) *)

Definition compute_kid (point : bytes) : str := hex_text (take 8 (sha256 point)).

(** [VerifyingKeys]: keys by identifier. *)
Abbreviation VerifyingKeys := (list (str * DecodingKey)).

Inductive KeyError := KeyInvalid (variable : str) | KeyIdShared (variable : str).

(** The loop over the next and the previous key. *)
Fixpoint parse_extra (extras : list (str * option str)) (points : list (str * bytes)) (verifying : VerifyingKeys) :
    result VerifyingKeys KeyError :=
  match extras with
  | [] => Ok verifying
  | (_, None) :: rest => parse_extra rest points verifying
  | (variable, Some pem) :: rest =>
      match parse_verifying_key pem, parse_p256_verifying_key pem with
      | Some key, Some point =>
          let kid := compute_kid point in
          match List.find (fun held => str_eqb held.1 kid) points with
          | Some (_, held) =>
              if bool_decide (held = point) then parse_extra rest points verifying
              else Err (KeyIdShared variable)
          | None => parse_extra rest (points ++ [(kid, point)]) (verifying ++ [(kid, key)])
          end
      | _, _ => Err (KeyInvalid variable)
      end
  end.

(** The verifying keys of [parse_jwt_keys]; the signing key and the published
    key set, which it also builds, are not modelled. *)
Definition parse_jwt_keys : result VerifyingKeys KeyError :=
  match parse_verifying_key jwt_public_key, parse_p256_verifying_key jwt_public_key with
  | Some key, Some point =>
      let kid := compute_kid point in
      parse_extra [(u"JWT_NEXT_PUBLIC_KEY", jwt_next_public_key); (u"JWT_PREVIOUS_PUBLIC_KEY", jwt_previous_public_key)]
        [(kid, point)] [(kid, key)]
  | _, _ => Err (KeyInvalid u"JWT_PUBLIC_KEY")
  end.

(** * Decoding *)

Definition check_time_claims (claims : Claims) (now : Z) : result unit str :=
  if cl_exp claims <=? now then Err u"token expired"
  else if match cl_nbf claims with Some nbf => now <? nbf | None => false end then Err u"token not yet valid"
  else Ok tt.

Definition decode_token_inner (token : str) (key : DecodingKey) (now : Z) : result Claims str :=
  match jwt_decode token key with
  | Err e => Err e
  | Ok claims => match check_time_claims claims now with Ok _ => Ok claims | Err e => Err e end
  end.

Definition decode_token_with_fallback (token : str) (key : DecodingKey) (previous_key : option DecodingKey) (now : Z) :
    result Claims str :=
  match decode_token_inner token key now with
  | Ok claims => Ok claims
  | Err primary_error =>
      match previous_key with
      | Some previous_key =>
          match decode_token_inner token previous_key now with Ok claims => Ok claims | Err _ => Err primary_error end
      | None => Err primary_error
      end
  end.

Definition decode_token (token : str) (key : DecodingKey) (now : Z) : result Claims str :=
  decode_token_with_fallback token key None now.

(** Every key in turn; the last failure is the answer. *)
Fixpoint decode_any (token : str) (keys : VerifyingKeys) (now : Z) (last : str) : result Claims str :=
  match keys with
  | [] => Err last
  | (_, key) :: rest =>
      match decode_token_inner token key now with
      | Ok claims => Ok claims
      | Err error => decode_any token rest now error
      end
  end.

Definition decode_token_with_keys (token : str) (keys : VerifyingKeys) (now : Z) : result Claims str :=
  match decode_header token with
  | Err e => Err e
  | Ok kid =>
      match kid ≫= fun kid => List.find (fun held => str_eqb held.1 kid) keys with
      | Some (_, key) => decode_token_inner token key now
      | None => decode_any token keys now u"no verification key"
      end
  end.

Definition validate_iss_aud (claims : Claims) (expected_iss expected_aud : str) : result unit str :=
  match cl_iss claims with
  | None => Err u"missing issuer claim"
  | Some iss =>
      if negb (str_eqb iss expected_iss) then Err u"issuer mismatch"
      else if negb (contains (cl_aud claims) expected_aud) then Err u"audience mismatch"
      else Ok tt
  end.
End Keys.

(** * The extractors (handlers/extractors.rs) *)

(** The headers of a request, as [to_str] reads them: absent, or not text. *)
Record Parts := {
  hd_authorization : option str;
  hd_request_id : option str;
  hd_user_agent : option str;
}.

Record AuthUser := {
  au_user_id : Uuid;
  au_session_id : Uuid;
  au_jti : Uuid;
  au_token_exp : Z;
  au_roles : list str;
  au_permissions : list str;
  au_request_id : option Uuid;
  au_first_party : bool;
}.

Definition MAX_USER_AGENT_CHARS : nat := 512.

Definition request_id_of `{PreAuthSerde} (parts : Parts) : option Uuid := hd_request_id parts ≫= parse_uuid.
Definition user_agent_of (parts : Parts) : option str := take MAX_USER_AGENT_CHARS <$> hd_user_agent parts.

Section Extractors.
Context `{RedisServer} `{Env} `{TimeCrate} `{CryptoCrates} `{SqlText} `{IpNetworkCrate} `{!Jwt} `{!JwtCrates} `{PreAuthSerde}.
(** [state.jwt_verifying_keys] *)
Variable keys : list (str * DecodingKey).

Definition verified_here (token : str) (now : Z) : result Claims AppError :=
  match decode_token_with_keys token keys (unix_timestamp now) with
  | Err _ => Err TokenInvalid
  | Ok claims =>
      match validate_iss_aud claims (cfg_public_url config) (cfg_public_url config) with
      | Err _ => Err TokenInvalid
      | Ok _ => Ok claims
      end
  end.

Definition auth_user (parts : Parts) : M AppError AuthUser :=
  auth_header ← ok_or (hd_authorization parts) Unauthorized;
  token ← ok_or (strip_prefix u"Bearer " auth_header) Unauthorized;
  now ← clock_now;
  claims ← lift (verified_here token now);
  first_party ← verify_token_state (cl_jti claims) (cl_sid claims);
  mret {| au_user_id := cl_sub claims; au_session_id := cl_sid claims; au_jti := cl_jti claims;
          au_token_exp := cl_exp claims; au_roles := cl_roles claims; au_permissions := cl_permissions claims;
          au_request_id := request_id_of parts; au_first_party := first_party |}.

Definition first_party_user (parts : Parts) : M AppError AuthUser :=
  auth ← auth_user parts;
  if au_first_party auth then mret auth else fail FirstPartySessionRequired.

Definition admin_user (parts : Parts) : M AppError AuthUser :=
  auth ← first_party_user parts;
  if negb (existsb is_admin_permission (au_permissions auth)) then fail Forbidden
  else
    proved ← internal (proved_second_factor (au_session_id auth));
    if proved : bool then mret auth else fail TwoFactorRequiredError.

Definition require (auth : AuthUser) (permission : str) : M AppError unit :=
  if negb (contains (au_permissions auth) permission) then fail Forbidden
  else
    held ← internal (user_has_permission (au_user_id auth) permission);
    if held : bool then mret tt else fail Forbidden.

(** What every administration handler starts with. *)
Definition admin_request (parts : Parts) (permission : str) : M AppError AuthUser :=
  auth ← admin_user parts;
  _ ← require auth permission;
  mret auth.
End Extractors.

(** * The keys held *)

Section KeyFacts.
Context `{CryptoCrates} `{!Jwt} `{!JwtCrates}.

Lemma find_kid_None {A} (kid : str) (l : list (str * A)) :
  List.find (fun held => str_eqb held.1 kid) l = None <-> kid ∉ map fst l.
Proof.
  induction l as [|[k x] l IH]; cbn; [by split; [intros _ ?%elem_of_nil|]|].
  rewrite not_elem_of_cons, <- IH. destruct (str_eqb k kid) eqn:E; [apply str_eqb_eq in E|apply str_eqb_neq in E];
    naive_solver.
Qed.

(** The first key stays first, and no identifier is held twice. *)
Lemma parse_extra_Ok extras points verifying keys :
  parse_extra extras points verifying = Ok keys ->
  map fst points = map fst verifying -> NoDup (map fst verifying) ->
  NoDup (map fst keys) /\ exists more, keys = verifying ++ more.
Proof.
  revert points verifying. induction extras as [|[variable [pem|]] rest IH]; intros points verifying; cbn.
  - intros [= <-] _ Hn. split; [done|]. exists []. by rewrite app_nil_r.
  - destruct (parse_verifying_key pem) as [key|]; [|done]. destruct (parse_p256_verifying_key pem) as [point|]; [|done].
    set (kid := compute_kid point). destruct (List.find _ points) as [[k held]|] eqn:Ef.
    { case_bool_decide; [apply IH|done]. }
    intros R Hp Hn. apply find_kid_None in Ef. rewrite Hp in Ef.
    apply IH in R as [Hk [more ->]].
    + split; [done|]. exists ((kid, key) :: more). by rewrite <- app_assoc.
    + by rewrite !map_app, Hp.
    + rewrite map_app. apply NoDup_app. split_and!; [done| |apply NoDup_singleton].
      intros x Hx ->%list_elem_of_singleton. done.
  - apply IH.
Qed.

Lemma parse_jwt_keys_Ok keys :
  parse_jwt_keys = Ok keys ->
  NoDup (map fst keys) /\
  exists point key rest, parse_p256_verifying_key jwt_public_key = Some point /\
    parse_verifying_key jwt_public_key = Some key /\ keys = (compute_kid point, key) :: rest.
Proof.
  unfold parse_jwt_keys. destruct (parse_verifying_key jwt_public_key) as [key|]; [|done].
  destruct (parse_p256_verifying_key jwt_public_key) as [point|]; [|done].
  intros R. apply parse_extra_Ok in R as [Hn [more ->]]; [|done|apply NoDup_singleton].
  split; [done|]. by exists point, key, more.
Qed.

(** What the service signed is read back with its own key, whatever other keys
    are held. *)
Lemma own_token_decodes keys claims token now :
  parse_jwt_keys = Ok keys -> encode_token claims = Some token ->
  decode_token_with_keys token keys now =
  match check_time_claims claims now with Ok _ => Ok claims | Err e => Err e end.
Proof.
  intros (_ & point & key & rest & Hp & Hk & ->)%parse_jwt_keys_Ok Ht.
  destruct (own_token claims token point key Ht Hp Hk) as [Hh Hd].
  unfold decode_token_with_keys. rewrite Hh. cbn. rewrite (proj2 (str_eqb_eq _ _) eq_refl).
  unfold decode_token_inner. by rewrite Hd.
Qed.

(** A token is accepted under one of the keys held, within its times. *)
Lemma decode_any_Ok token keys now last claims :
  decode_any token keys now last = Ok claims ->
  exists held, held ∈ keys /\ decode_token_inner token held.2 now = Ok claims.
Proof.
  revert last. induction keys as [|[kid key] keys IH]; intros last; cbn; [done|].
  destruct (decode_token_inner token key now) eqn:E.
  - intros [= <-]. exists (kid, key). split; [by left|done].
  - intros (held & Hin & Hd)%IH. exists held. split; [by right|done].
Qed.

Lemma decode_inner_Ok token key now claims :
  decode_token_inner token key now = Ok claims ->
  jwt_decode token key = Ok claims /\ now < cl_exp claims /\ (forall nbf, cl_nbf claims = Some nbf -> nbf <= now).
Proof.
  unfold decode_token_inner, check_time_claims. destruct (jwt_decode token key) as [c|]; [|done].
  destruct (cl_exp c <=? now) eqn:E1; [done|]. destruct (cl_nbf c) as [nbf|] eqn:E2.
  - destruct (now <? nbf) eqn:E3; [done|]. intros [= <-]. breflect. split_and!; [done|lia|].
    intros ? [= <-]%(eq_trans (eq_sym E2)). lia.
  - intros [= <-]. breflect. split_and!; [done|lia|]. intros nbf. by rewrite E2.
Qed.

Lemma decode_with_keys_Ok token keys now claims :
  decode_token_with_keys token keys now = Ok claims ->
  exists kid key, (kid, key) ∈ keys /\ jwt_decode token key = Ok claims /\
    now < cl_exp claims /\ (forall nbf, cl_nbf claims = Some nbf -> nbf <= now).
Proof.
  unfold decode_token_with_keys. destruct (decode_header token) as [kid|]; [|done].
  destruct (kid ≫= _) as [[k key]|] eqn:Ef.
  - intros R%decode_inner_Ok. exists k, key. split; [|done].
    apply bind_Some in Ef as (kid' & _ & Ef). apply find_some in Ef as [Hin _]. by apply list_elem_of_In.
  - intros ([k key] & Hin & R%decode_inner_Ok)%decode_any_Ok. by exists k, key.
Qed.
End KeyFacts.

(** * What the extractors let in *)

Section Entry.
Context `{RedisServer} `{Env} `{TimeCrate} `{CryptoCrates} `{SqlText} `{IpNetworkCrate} `{!Jwt} `{!JwtCrates} `{PreAuthSerde}.

Definition access_expiry (now : Z) : Z :=
  unix_timestamp (saturating_add now (seconds (i64_or_max (access_expiry_secs (cfg_jwt config))))).

Lemma build_access_token_Ok uid sid scopes cid ty (w w' : World) token :
  build_access_token uid sid scopes cid ty w = (w', Ok token) ->
  exists claims, encode_token claims = Some token /\ cl_sub claims = uid /\ cl_sid claims = sid /\
    cl_exp claims = access_expiry (w_now w) /\ cl_nbf claims = Some (unix_timestamp (w_now w)) /\
    cl_iss claims = Some (cfg_public_url config) /\ cl_aud claims = audience (cfg_jwt config).
Proof.
  unfold build_access_token. intros R. unbind R issued w1 R1. unfold clock_now in R1. read_run R1.
  unbind R rbac w2 R2. unbind R client w3 R3. cbn zeta in R.
  destruct (token_rbac _ _ _ _) as [roles permissions]. unbind R c w4 R4.
  unfold new_claims in R4. unbind R4 jti w5 R5. apply ret_Ok in R4 as [-> _]. read_run R.
  by eexists.
Qed.

Lemma bearer_claims keys parts token (w : World) :
  hd_authorization parts = Some (u"Bearer " ++ token) ->
  auth_user keys parts w =
  match verified_here keys token (w_now w) with
  | Err e => (w, Err e)
  | Ok claims =>
      (first_party ← verify_token_state (cl_jti claims) (cl_sid claims);
       mret {| au_user_id := cl_sub claims; au_session_id := cl_sid claims; au_jti := cl_jti claims;
               au_token_exp := cl_exp claims; au_roles := cl_roles claims; au_permissions := cl_permissions claims;
               au_request_id := request_id_of parts; au_first_party := first_party |}) w
  end.
Proof.
  intros Hh. unfold auth_user. rewrite (bind_step _ _ w w (u"Bearer " ++ token)) by (by rewrite Hh).
  rewrite (bind_step _ _ w w token) by (by rewrite strip_prefix_app).
  rewrite (bind_step _ _ w w (w_now w)) by done. unfold lift at 1, mbind at 1, M_bind at 1.
  by destruct (verified_here keys token (w_now w)).
Qed.

(** C30: An access token admits exactly while it lasts: from its issue to the
    configured expiry, a request bearing it is let in as the account and the
    session it was issued for as soon as neither was revoked (the state check
    decides), and from the expiry on it is refused without consulting anything;
    whichever other keys are configured for a rotation. *)
Theorem issued_token_admits uid sid scopes cid ty (w w1 w2 : World) token keys parts :
  build_access_token uid sid scopes cid ty w = (w1, Ok token) ->
  parse_jwt_keys = Ok keys -> cfg_public_url config ∈ audience (cfg_jwt config) ->
  hd_authorization parts = Some (u"Bearer " ++ token) -> w_now w <= w_now w2 ->
  (unix_timestamp (w_now w2) < access_expiry (w_now w) ->
   exists jti roles permissions, auth_user keys parts w2 =
     (first_party ← verify_token_state jti sid;
      mret {| au_user_id := uid; au_session_id := sid; au_jti := jti;
              au_token_exp := access_expiry (w_now w); au_roles := roles; au_permissions := permissions;
              au_request_id := request_id_of parts; au_first_party := first_party |}) w2) /\
  (access_expiry (w_now w) <= unix_timestamp (w_now w2) -> auth_user keys parts w2 = (w2, Err TokenInvalid)).
Proof.
  intros (claims & Ht & <- & <- & Hexp & Hnbf & Hiss & Haud)%build_access_token_Ok Hkeys Hurl Hp Hle.
  rewrite (bearer_claims keys parts token w2 Hp). unfold verified_here.
  rewrite (own_token_decodes keys claims token _ Hkeys Ht). unfold check_time_claims. rewrite Hexp, Hnbf.
  split; intros Hn.
  - rewrite (proj2 (Z.leb_gt _ _) Hn).
    assert (unix_timestamp (w_now w2) <? unix_timestamp (w_now w) = false) as ->.
    { apply Z.ltb_ge. rewrite !unix_timestamp_spec. by apply Z.div_le_mono. }
    unfold validate_iss_aud. rewrite Hiss, Haud, str_eqb_refl, (proj2 (contains_true _ _) Hurl). cbn [negb].
    rewrite Hexp. by eexists _, _, _.
  - by rewrite (proj2 (Z.leb_le _ _) Hn).
Qed.

Lemma verified_here_Ok keys token now claims :
  verified_here keys token now = Ok claims ->
  exists kid key, (kid, key) ∈ keys /\ jwt_decode token key = Ok claims /\
    unix_timestamp now < cl_exp claims /\ (forall nbf, cl_nbf claims = Some nbf -> nbf <= unix_timestamp now) /\
    cl_iss claims = Some (cfg_public_url config) /\ cfg_public_url config ∈ cl_aud claims.
Proof.
  unfold verified_here. destruct (decode_token_with_keys _ _ _) as [c|] eqn:E; [|done].
  apply decode_with_keys_Ok in E as (kid & key & Hin & Hd & Hexp & Hnbf). unfold validate_iss_aud.
  destruct (cl_iss c) as [iss|] eqn:Ei; [|done]. destruct (str_eqb iss _) eqn:E1; [|done].
  destruct (contains _ _) eqn:E2; [|done]. intros [= <-]. apply str_eqb_eq in E1 as ->.
  apply contains_true in E2. by exists kid, key.
Qed.

(** What lets a request in: its token and the state of its session. *)
Record admitted (keys : list (str * DecodingKey)) (parts : Parts) (w : World) (token : str) (claims : Claims)
    (first_party : bool) : Prop := {
  ad_bearer : hd_authorization parts = Some (u"Bearer " ++ token);
  ad_signed : exists kid key, (kid, key) ∈ keys /\ jwt_decode token key = Ok claims;
  ad_unexpired : unix_timestamp (w_now w) < cl_exp claims;
  ad_begun : forall nbf, cl_nbf claims = Some nbf -> nbf <= unix_timestamp (w_now w);
  ad_issuer : cl_iss claims = Some (cfg_public_url config);
  ad_audience : cfg_public_url config ∈ cl_aud claims;
  ad_unblocked : r_exists (w_redis w) (w_wall w) (jti_block_key (cl_jti claims)) = false;
  ad_session :
    let cache := cached_of (w_redis w) (w_wall w) (session_cache_key (cl_sid claims)) in
    cache = Some (cached_value true first_party) \/
    (cache = None /\ exists row, t_sessions (w_db w) !! cl_sid claims = Some row /\ s_revoked_at row = None /\
       w_now w < s_expires_at row /\ first_party = SessionRepo.first_party (validation_of (w_db w) row));
}.

Lemma auth_user_Ok keys parts (w w' : World) auth :
  auth_user keys parts w = (w', Ok auth) ->
  exists token claims, admitted keys parts w token claims (au_first_party auth) /\ same_db w w' /\
    au_user_id auth = cl_sub claims /\ au_session_id auth = cl_sid claims /\ au_permissions auth = cl_permissions claims.
Proof.
  unfold auth_user. intros R. unbind R header w1 R1. read_run R1. unbind R token w2 R2. read_run R2.
  apply strip_prefix_Some in R2 as ->. unbind R now w3 R3. unfold clock_now in R3. read_run R3.
  unbind R claims w4 R4. read_run R4. apply verified_here_Ok in R4 as (kid & key & Hin & Hd & He & Hb & Hi & Ha).
  unbind R fp w5 R5. pose proof (verify_token_state_Ok _ _ _ _ _ R5) as [Hjti Hs]. apply ret_Ok in R as [-> ->]. cbn.
  exists token, claims. split_and!; [|..|done|done|done].
  - constructor; try done. by exists kid, key.
  - assert (keeps same_db (verify_token_state (cl_jti claims) (cl_sid claims))) as Hk by
      (unfold verify_token_state; tables_auto). specialize (Hk w). by rewrite R5 in Hk.
Qed.

(** What an administration request takes to be let in, whatever Redis and
    the database answer: a token signed by one of the keys held, within its
    times, issued by and for this server; not revoked, of a live session that
    acts for the account itself; a sign-in that proved a second factor, on the
    session's row; and the permission of the action, both in the token and
    held by the account at that moment. *)
Theorem admin_entry_sound keys parts permission (w w' : World) auth :
  admin_request keys parts permission w = (w', Ok auth) ->
  exists token claims, admitted keys parts w token claims true /\
    au_user_id auth = cl_sub claims /\ au_session_id auth = cl_sid claims /\
    permission ∈ cl_permissions claims /\ (exists p, p ∈ cl_permissions claims /\ is_admin_permission p = true) /\
    (exists row, t_sessions (w_db w) !! cl_sid claims = Some row /\ s_mfa row = true) /\
    permits (cl_sub claims) (str_eqb permission) (w_db w) = true.
Proof.
  unfold admin_request, admin_user, first_party_user, internal, proved_second_factor. intros R.
  unbind R auth' w1 R1. unbind R1 auth1 w2 R2. unbind R2 auth2 w3 R3.
  apply auth_user_Ok in R3 as (token & claims & Hadm & [Hdb3 _] & Hu & Hs & Hperm).
  destruct (au_first_party auth2) eqn:Efp; [|by apply fail_Ok in R2]. apply ret_Ok in R2 as [-> ->].
  destruct (existsb is_admin_permission _) eqn:Ea; [|by apply fail_Ok in R1]. cbn [negb] in R1.
  unbind R1 proved w4 R4. read_run R4. destruct R4 as [Hdb4 _].
  destruct (t_sessions (w_db w3) !! _) as [row|] eqn:Er; [|by apply fail_Ok in R1].
  destruct (s_mfa row) eqn:Em; [|by apply fail_Ok in R1]. apply ret_Ok in R1 as [-> ->].
  unbind R tt1 w5 R5. unfold require, internal, user_has_permission in R5.
  destruct (contains _ _) eqn:Ec; [|by apply fail_Ok in R5]. cbn [negb] in R5. unbind R5 held w6 R6. read_run R6.
  destruct (permits _ _ _) eqn:Eh; [|by apply fail_Ok in R5]. apply ret_Ok in R as [-> ->].
  rewrite Hdb4, Hdb3 in Eh. rewrite Hdb3, Hs in Er. rewrite Hu in Eh. rewrite Hperm in Ec, Ea.
  exists token, claims. apply contains_true in Ec. apply existsb_exists in Ea as (p & Hp & Hap).
  split_and!; [done..| | |done].
  - exists p. by rewrite list_elem_of_In.
  - by exists row.
Qed.
End Entry.

(** * Witnesses *)

Section Witnesses.
Import Scenario.Run Office.Office.
#[local] Existing Instance calm.

Definition held_keys : list (str * DecodingKey) := match parse_jwt_keys with Ok keys => keys | Err _ => [] end.

(** The administrator's access token. *)
Definition admin_run := build_access_token 7%N 2%N None None Web office.
Definition admin_token : str := match admin_run.2 with Ok t => t | Err _ => [] end.

Definition bearing (token : str) : Parts :=
  {| hd_authorization := Some (u"Bearer " ++ token); hd_request_id := None; hd_user_agent := None |}.

Lemma issued_token_admits_witness :
  access_expiry (w_now office) = 920 /\
  exists jti roles permissions, auth_user held_keys (bearing admin_token) office =
    (first_party ← verify_token_state jti 2%N;
     mret {| au_user_id := 7%N; au_session_id := 2%N; au_jti := jti;
             au_token_exp := access_expiry (w_now office); au_roles := roles;
             au_permissions := permissions; au_request_id := request_id_of (bearing admin_token);
             au_first_party := first_party |}) office.
Proof.
  split; [reflexivity|].
  refine (proj1 (issued_token_admits 7%N 2%N None None Web office admin_run.1 office admin_token held_keys
                   (bearing admin_token) _ _ _ _ _) _).
  - apply run_answer. vm_compute. reflexivity.
  - vm_compute. reflexivity.
  - apply (bool_decide_unpack _). vm_compute. exact I.
  - reflexivity.
  - apply Z.le_refl.
  - vm_compute. reflexivity.
Defined.

Lemma admin_entry_sound_witness :
  exists token claims, admitted held_keys (bearing admin_token) office token claims true /\
    ROLES_MANAGE ∈ cl_permissions claims /\ cl_sub claims = 7%N.
Proof.
  pose (run := admin_request held_keys (bearing admin_token) ROLES_MANAGE office).
  assert (exists auth, run = (run.1, Ok auth) /\ au_user_id auth = 7%N) as (auth & R & Hu).
  { eexists. split; [refine (run_answer (admin_request held_keys (bearing admin_token) ROLES_MANAGE) office _ _); vm_compute; reflexivity|reflexivity]. }
  destruct (admin_entry_sound held_keys (bearing admin_token) ROLES_MANAGE office run.1 auth R)
    as (token & claims & Ha & Hs & _ & Hp & _).
  exists token, claims. split; [exact Ha|]. split; [exact Hp|]. by rewrite <- Hs.
Defined.
End Witnesses.
