(* ===== verification/Grants.v ===== *)
(** The authorization code flow with PKCE (src/src/services/authorize.rs) and
    its tables (src/src/repositories/authorization_code.rs, client_quota.rs). *)
From S2P Require Import Prelude Crates Codec Session Account OAuthDomain Network Edge Crypto Tables App Outside RedisCounter SessionRepo Repos Tokens UserRepo AccessRepo TokenRepo AccountsOk Scenario TokensCorrect Refresh RefreshCorrect Login LoginCorrect SecondFactor SecondFactorCorrect OneTime OneTimeCorrect SelfService Factors Administration Office AccessToken.
Import Account.User Account.Audit OAuthDomain.Client.

(** * A transaction open while other connections work

    Its statements answer at once; others see nothing of them before the
    commit, whose effect on the tables is theirs, in order.  Leaving it open on
    an error rolls it back: nothing happened. *)

Abbreviation statement A := (Db -> Z -> result (Db * A) SqlError).

Definition effect {A} (f : statement A) (d : Db) (now : Z) : Db :=
  match f d now with Ok (d', _) => d' | Err _ => d end.

Section OpenTransaction.
Context `{RedisServer} `{Env}.

Definition tx_begin : M SqlError unit := query (fun _ _ => tt).

Definition tx_run {A} (f : statement A) : M SqlError A :=
  io SqlFailed (fun w =>
    (w, match f (w_db w) (w_wall w) with Ok (_, a) => Ok a | Err e => Err e end)).

Definition tx_commit (f : Db -> Z -> Db) : M SqlError unit := execute (fun d now => Ok (f d now, tt)).

Lemma keeps_tx_run {A} {R : World -> World -> Prop} `{!CoreFrame R} (f : statement A) : keeps R (tx_run f).
Proof. apply keeps_io. intros w. apply frame_refl. Qed.

Lemma tx_run_Ok {A} (f : statement A) (w w' : World) (a : A) :
  tx_run f w = (w', Ok a) -> (exists d, f (w_db w) (w_wall w) = Ok (d, a)) /\ same_db w w'.
Proof.
  unfold tx_run, io. destruct (io_plan (w_io w)); [|done..]. cbn.
  destruct (f (w_db w) (w_wall w)) as [[d a']|e]; [|done]. intros [= <- <-]. split; [by exists d|done].
Qed.
End OpenTransaction.

#[export] Hint Resolve keeps_tx_run : frame.

(** * Repositories *)

Record NewAuthorizationCode := {
  nc_code_hash : bytes;
  nc_user_id : Uuid;
  nc_client_id : str;
  nc_redirect_uri : str;
  nc_code_challenge : str;
  nc_scopes : option (list str);
  nc_nonce : option str;
  nc_auth_time : Z;
  nc_expires_at : Z;
}.

Definition is_base64url (b : Z) : bool := is_ascii_alphanumeric b || (b =? 45) || (b =? 95).

Definition code_row (id : Uuid) (input : NewAuthorizationCode) : AuthorizationCode :=
  {| ac_id := id; ac_code_hash := nc_code_hash input; ac_user_id := nc_user_id input;
     ac_client_id := nc_client_id input; ac_redirect_uri := nc_redirect_uri input;
     ac_code_challenge := nc_code_challenge input; ac_scopes := nc_scopes input;
     ac_expires_at := nc_expires_at input; ac_consumed_at := None; ac_session_id := None;
     ac_nonce := nc_nonce input; ac_auth_time := nc_auth_time input |}.

(** The keys and checks of the table. *)
Definition code_refused (d : Db) (c : AuthorizationCode) : bool :=
  existsb (fun o => bool_decide (ac_id o = ac_id c) || bool_decide (ac_code_hash o = ac_code_hash c)) (g_codes (t_grants d))
  || negb (bool_decide (length (ac_code_hash c) = 32%nat))
  || negb ((byte_len (ac_code_challenge c) =? 43) && bytes_all is_base64url (ac_code_challenge c))
  || (512 <? char_count (default [] (ac_nonce c)))
  || bool_decide (t_users d !! ac_user_id c = None)
  || negb (existsb (fun k => str_eqb (c_client_id k) (ac_client_id c)) (t_clients d)).

Definition consumed_row (now : Z) (c : AuthorizationCode) : AuthorizationCode :=
  {| ac_id := ac_id c; ac_code_hash := ac_code_hash c; ac_user_id := ac_user_id c; ac_client_id := ac_client_id c;
     ac_redirect_uri := ac_redirect_uri c; ac_code_challenge := ac_code_challenge c; ac_scopes := ac_scopes c;
     ac_expires_at := ac_expires_at c; ac_consumed_at := Some now; ac_session_id := ac_session_id c;
     ac_nonce := ac_nonce c; ac_auth_time := ac_auth_time c |}.

Definition attached_row (session_id : Uuid) (c : AuthorizationCode) : AuthorizationCode :=
  {| ac_id := ac_id c; ac_code_hash := ac_code_hash c; ac_user_id := ac_user_id c; ac_client_id := ac_client_id c;
     ac_redirect_uri := ac_redirect_uri c; ac_code_challenge := ac_code_challenge c; ac_scopes := ac_scopes c;
     ac_expires_at := ac_expires_at c; ac_consumed_at := ac_consumed_at c; ac_session_id := Some session_id;
     ac_nonce := ac_nonce c; ac_auth_time := ac_auth_time c |}.

(** [code_hash = $1 AND consumed_at IS NULL AND expires_at > NOW()] *)
Definition redeemable (hash : bytes) (now : Z) (c : AuthorizationCode) : bool :=
  bool_decide (ac_code_hash c = hash) && bool_decide (ac_consumed_at c = None) && (now <? ac_expires_at c).

Definition consume_code (hash : bytes) : statement (option AuthorizationCode) := fun d now =>
  Ok (set_codes (update_where (redeemable hash now) (consumed_row now)) d,
      consumed_row now <$> List.find (redeemable hash now) (g_codes (t_grants d))).

Definition attach_session (id session_id : Uuid) : statement unit := fun d _ =>
  Ok (set_codes (update_where (fun c => bool_decide (ac_id c = id)) (attached_row session_id)) d, tt).

Definition stamp_auth_time (id : Uuid) (auth_time : Z) : statement unit := fun d _ =>
  Ok (set_sessions (alter (set_auth_time_row auth_time) id) d, tt).

Section CodeRepo.
Context `{RedisServer} `{Env}.

Definition code_create (input : NewAuthorizationCode) : M SqlError Uuid :=
  id ← new_v4;
  execute (fun d _ =>
    let c := code_row id input in
    if code_refused d c then Err SqlFailed else Ok (set_codes (fun l => l ++ [c]) d, id)).

Definition code_find (hash : bytes) : M SqlError (option AuthorizationCode) :=
  query (fun d _ => List.find (fun c => bool_decide (ac_code_hash c = hash)) (g_codes (t_grants d))).

Definition quota_find (user_id : Uuid) (client_id : str) : M SqlError (option UserClientQuota) :=
  query (fun d _ => List.find (fun q => bool_decide (q_user_id q = user_id) && str_eqb (q_client_id q) client_id)
                      (g_quotas (t_grants d))).

(** [role::find_permissions_by_user], as the names. *)
Definition permissions_of (user_id : Uuid) (d : Db) : list str :=
  dedup (sort_strs (map snd (List.filter (fun p => bool_decide (p.1 ∈ roles_of user_id d)) (t_role_permissions d)))).
End CodeRepo.

(** * The service *)

Definition CODE_TTL_SECS : Z := 60.

Record AuthorizationRequest := {
  ar_client_id : str;
  ar_client_name : str;
  ar_scopes : list str;
  ar_unrestricted : bool;
  ar_unavailable_scopes : list str;
  ar_sessions_used : Z;
  ar_sessions_allowed : option Z;
}.

Record Approval := {
  ap_user_id : Uuid;
  ap_session_id : Uuid;
  ap_client : RegisteredClient;
  ap_redirect_uri : str;
  ap_code_challenge : str;
  ap_requested : option (list str);
  ap_nonce : option str;
  ap_auth_time : Z;
  ap_current_password : option str;
  ap_ip : option IpNetwork;
  ap_request_id : option Uuid;
}.

Record Redemption := {
  rd_code : str;
  rd_verifier : str;
  rd_client_id : str;
  rd_redirect_uri : str;
  rd_ip : option IpNetwork;
  rd_user_agent : option str;
  rd_device_name : option str;
}.

(** What an approval grants. *)
Definition consent (requested : option (list str)) (held : list str) : option (list str) :=
  List.filter (fun scope => Oidc.is_oidc_scope scope || contains held scope) <$> requested.

Definition validate_challenge (challenge method : str) : result unit str :=
  if negb (str_eqb method u"S256") then Err u"only the S256 code_challenge_method is accepted"
  else if negb (byte_len challenge =? 43) || negb (bytes_all is_base64url challenge)
  then Err u"code_challenge must be a base64url-encoded SHA-256 digest"
  else Ok tt.

Definition verifier_byte (b : Z) : bool := is_ascii_alphanumeric b || byte_in u"-._~" b.

Definition verifier_matches `{CryptoCrates} (challenge verifier : str) : bool :=
  if negb ((43 <=? byte_len verifier) && (byte_len verifier <=? 128) && bytes_all verifier_byte verifier) then false
  else constant_time_eq (as_bytes (b64url (sha256 (as_bytes verifier)))) (as_bytes challenge).

(** ** Redirects *)

Definition is_loopback_url (url : Url) : bool :=
  str_eqb (url_scheme url) u"http"
  && (bool_decide (url_host_str url = Some u"127.0.0.1") || bool_decide (url_host_str url = Some u"[::1]"))
  && bool_decide (url_username url = [])
  && bool_decide (url_password url = None)
  && bool_decide (url_query url = None)
  && bool_decide (url_fragment url = None).

Definition parsed `{UrlCrate} (uri : str) : option Url :=
  match url_parse uri with Ok url => Some url | Err _ => None end.

Definition loopback_ok `{UrlCrate} (client : RegisteredClient) (redirect_uri : str) : bool :=
  c_allows_loopback_redirect client &&
  match parsed redirect_uri with
  | None => false
  | Some url =>
      is_loopback_url url
      && match url_port url with Some port => negb (port =? 0) | None => false end
      && str_eqb (url_as_str url) redirect_uri
      && existsb (fun registered => is_loopback_url registered && str_eqb (url_path registered) (url_path url))
           (omap parsed (c_redirect_uris client))
  end.

Definition validate_redirect `{UrlCrate} (client : RegisteredClient) (redirect_uri : str) : result unit AppError :=
  if contains (c_redirect_uris client) redirect_uri then Ok tt
  else if loopback_ok client redirect_uri then Ok tt
  else Err (Validation u"redirect_uri is not registered for this client").

Section Authorize.
Context `{RedisServer} `{Env} `{TimeCrate} `{CryptoCrates} `{SqlText} `{IpNetworkCrate} `{!Jwt}.
Context `{Passwords} `{UrlCrate}.

Definition load_client (client_id : str) : M AppError RegisteredClient :=
  found ← internal (client_find_by_id client_id);
  ok_or found DeviceClientUnknown.

Definition permission_names (user_id : Uuid) : M AppError (list str) :=
  internal (query (fun d _ => permissions_of user_id d)).

Definition account_usable (user_id : Uuid) : M AppError unit :=
  found ← internal (user_find_by_id user_id);
  user ← ok_or found Unauthorized;
  lift (ensure_account_usable user).

Definition session_allowance (user_id : Uuid) (client : RegisteredClient) : M AppError (Z * option Z) :=
  quota ← internal (quota_find user_id (c_client_id client));
  used ← internal (count_active_by_client user_id (c_client_id client));
  mret (used, session_limit client quota).

(** The advisory lock of [lock_client_sessions_in]: one more statement of the
    open transaction. *)
Definition lock_client_sessions_in : M AppError unit := internal (tx_run (fun d _ => Ok (d, tt))).

Definition lock_client_sessions : M AppError unit :=
  _ ← internal tx_begin;
  lock_client_sessions_in.

Definition ensure_second_factor_for_primary (user_id session_id : Uuid) (client : RegisteredClient) : M AppError unit :=
  required ← (if c_is_primary client then internal (has_second_factor user_id) else mret false);
  if negb required then mret tt
  else
    session ← internal (find_by_id session_id);
    if match session with Some s => s_mfa s | None => false end then mret tt else fail SecondFactorSessionRequired.

Definition describe (user_id : Uuid) (client : RegisteredClient) (requested : option (list str)) :
    M AppError AuthorizationRequest :=
  held ← permission_names user_id;
  allowance ← session_allowance user_id client;
  mret {| ar_client_id := c_client_id client; ar_client_name := c_display_name client;
          ar_scopes := default [] (consent requested held);
          ar_unrestricted := bool_decide (requested = None);
          ar_unavailable_scopes :=
            List.filter (fun scope => negb (Oidc.is_oidc_scope scope) && negb (contains held scope))
              (default [] requested);
          ar_sessions_used := allowance.1; ar_sessions_allowed := allowance.2 |}.

Definition requires_reauthentication (session_id : Uuid) : M AppError bool :=
  recent ← has_recent_reauth session_id;
  mret (negb recent).

Definition scopes_json (scopes : option (list str)) : json := from_option json_strs JNull scopes.

Definition mint (approval : Approval) (scopes : option (list str)) (code : str) (expires_at : Z) : M AppError unit :=
  _ ← internal (code_create
    {| nc_code_hash := sha256 (as_bytes code); nc_user_id := ap_user_id approval;
       nc_client_id := c_client_id (ap_client approval); nc_redirect_uri := ap_redirect_uri approval;
       nc_code_challenge := ap_code_challenge approval; nc_scopes := scopes; nc_nonce := ap_nonce approval;
       nc_auth_time := ap_auth_time approval; nc_expires_at := expires_at |});
  internal (audit_append {| na_user_id := Some (ap_user_id approval); na_request_id := ap_request_id approval;
    na_action := ClientAuthorized; na_ip_address := ap_ip approval;
    na_metadata := JObj [(u"client_id", JStr (c_client_id (ap_client approval))); (u"scopes", scopes_json scopes)] |}).

Definition approve (approval : Approval) : M AppError str :=
  let client := ap_client approval in
  _ ← require_recent_reauth_or_password (ap_user_id approval) (ap_session_id approval)
        (ap_current_password approval) (ap_ip approval) (ap_request_id approval) u"authorize_client";
  _ ← account_usable (ap_user_id approval);
  _ ← ensure_second_factor_for_primary (ap_user_id approval) (ap_session_id approval) client;
  held ← permission_names (ap_user_id approval);
  let scopes := consent (ap_requested approval) held in
  code ← generate_token;
  expires_at ← in_secs CODE_TTL_SECS;
  _ ← transaction Internal (mint approval scopes code expires_at);
  mret code.

(** A replay of a redeemed code: best effort, the session it produced ends. *)
Definition revoke_on_replay (code_hash : bytes) (presented_by verifier : str) : M AppError unit :=
  found ← attempt (code_find code_hash);
  match found with
  | Ok (Some seen) =>
      if bool_decide (ac_consumed_at seen = None) then mret tt
      else if negb (str_eqb (ac_client_id seen) presented_by) then mret tt
      else
        client ← attempt (client_find_by_id presented_by);
        let authenticated := match client with Ok (Some c) => is_confidential c | _ => false end in
        if negb authenticated && negb (verifier_matches (ac_code_challenge seen) verifier) then mret tt
        else
          match ac_session_id seen with
          | Some session_id => _ ← attempt (Tokens.revoke_family session_id); mret tt
          | None => mret tt
          end
  | _ => mret tt
  end.

(** The checks that run while the code's row is held. *)
Definition redeem_checks (entry : AuthorizationCode) : M AppError unit :=
  client ← load_client (ac_client_id entry);
  _ ← lift (match validate_redirect client (ac_redirect_uri entry) with
            | Ok _ => Ok tt
            | Err _ => Err InvalidAuthorizationCode
            end);
  _ ← account_usable (ac_user_id entry);
  _ ← lock_client_sessions_in;
  allowance ← session_allowance (ac_user_id entry) client;
  if match allowance.2 with Some allowed => allowed <=? allowance.1 | None => false end
  then fail DeviceSessionLimitReached
  else mret tt.

Definition code_sign_in (client_id : str) : SignIn :=
  {| si_identifier := None; si_request_id := None;
     si_audit_metadata := JObj [(u"client_id", JStr client_id); (u"method", JStr u"authorization_code")];
     si_second_factor := false |}.

Definition with_auth_time (auth_time : Z) (tokens : AuthTokens) : AuthTokens :=
  {| at_access_token := at_access_token tokens; at_refresh_token := at_refresh_token tokens;
     at_session := set_auth_time_row auth_time (at_session tokens) |}.

Definition redeem (request : Redemption) : M AppError (AuthTokens * option str) :=
  let hash := sha256 (as_bytes (rd_code request)) in
  _ ← internal tx_begin;
  consumed ← internal (tx_run (consume_code hash));
  match consumed with
  | None =>
      _ ← revoke_on_replay hash (rd_client_id request) (rd_verifier request);
      fail InvalidAuthorizationCode
  | Some entry =>
      if negb (str_eqb (ac_client_id entry) (rd_client_id request))
         || negb (str_eqb (ac_redirect_uri entry) (rd_redirect_uri request))
         || negb (verifier_matches (ac_code_challenge entry) (rd_verifier request))
      then _ ← internal (tx_commit (effect (consume_code hash))); fail InvalidAuthorizationCode
      else
        checks ← attempt (redeem_checks entry);
        match checks with
        | Err error => _ ← internal (tx_commit (effect (consume_code hash))); fail error
        | Ok _ =>
            tokens ← issue_tokens (ac_user_id entry) (rd_ip request) (rd_user_agent request) (rd_device_name request)
                       false Device (Some (ac_client_id entry)) (ac_scopes entry)
                       (Some (code_sign_in (ac_client_id entry)));
            let session := s_id (at_session tokens) in
            _ ← internal (tx_run (attach_session (ac_id entry) session));
            _ ← internal (tx_run (stamp_auth_time session (ac_auth_time entry)));
            _ ← internal (tx_commit (fun d now =>
                  effect (stamp_auth_time session (ac_auth_time entry))
                    (effect (attach_session (ac_id entry) session)
                       (effect (consume_code hash) d now) now) now));
            mret (with_auth_time (ac_auth_time entry) tokens, ac_nonce entry)
        end
  end.
End Authorize.
