(* ===== verification/GrantsCorrect.v ===== *)
(** Theorems about the authorization code flow: what an approval stores, what a
    redemption takes and hands out, and what a replay ends. *)
From S2P Require Import Prelude Crates Codec Session Account OAuthDomain Network Edge Crypto Tables App Outside RedisCounter SessionRepo Repos Tokens UserRepo AccessRepo TokenRepo AccountsOk Scenario TokensCorrect Refresh RefreshCorrect Login LoginCorrect SecondFactor SecondFactorCorrect OneTime OneTimeCorrect SelfService Guard Factors Administration Office AccessToken Grants.
Import Account.User Account.Audit Account.TwoFactor OAuthDomain.Client.

(** * Redemption *)

Section Redemption.
Context `{RedisServer} `{Env} `{TimeCrate} `{CryptoCrates} `{SqlText} `{IpNetworkCrate} `{!Jwt}.
Context `{Passwords} `{UrlCrate}.

Abbreviation codes w := (g_codes (t_grants (w_db w))).

Definition usable (uid : Uuid) (w : World) : Prop :=
  exists r, t_users (w_db w) !! uid = Some r /\ ensure_account_usable (ur_user r) = Ok tt.

(** The sessions of an account for a client, and the client's limit. *)
Definition sessions_for (uid : Uuid) (client_id : str) (w : World) : Z :=
  count_where (fun s => bool_decide (s_user_id s = uid) && bool_decide (s_client_id s = Some client_id) &&
                        bool_decide (s_session_type s = Device)) (w_db w) (w_wall w).

Definition limit_for (uid : Uuid) (client : RegisteredClient) (w : World) : option Z :=
  session_limit client
    (List.find (fun q => bool_decide (q_user_id q = uid) && str_eqb (q_client_id q) (c_client_id client))
       (g_quotas (t_grants (w_db w)))).

Lemma find_client_id (client_id : str) (l : list RegisteredClient) (c : RegisteredClient) :
  List.find (fun c => str_eqb (c_client_id c) client_id) l = Some c -> c ∈ l /\ c_client_id c = client_id.
Proof. intros [Hin He]%find_some. apply str_eqb_eq in He. by rewrite list_elem_of_In. Qed.

Lemma load_client_Ok client_id (w w' : World) c :
  load_client client_id w = (w', Ok c) -> same_db w w' /\ c ∈ t_clients (w_db w) /\ c_client_id c = client_id.
Proof.
  unfold load_client, internal, client_find_by_id. intros R. unbind R o w1 R1. read_run R1. read_run R.
  split; [done|]. by apply find_client_id in R.
Qed.

Lemma account_usable_Ok uid (w w' : World) x : account_usable uid w = (w', Ok x) -> same_db w w' /\ usable uid w.
Proof.
  unfold account_usable, internal, user_find_by_id. intros R. unbind R o w1 R1. read_run R1.
  unbind R v w2 R2. read_run R2. read_run R. apply fmap_Some in R2 as (r & Hr & ->).
  split; [done|]. exists r. split; [done|]. by destruct x.
Qed.

Lemma allowance_Ok uid client (w w' : World) a :
  session_allowance uid client w = (w', Ok a) ->
  same_db w w' /\ a = (sessions_for uid (c_client_id client) w, limit_for uid client w).
Proof.
  unfold session_allowance, internal, quota_find, count_active_by_client. intros R.
  unbind R q w1 R1. read_run R1. unbind R n w2 R2. read_run R2. apply ret_Ok in R as [-> ->].
  destruct R1 as [D1 [N1 W1]]. split; [eapply frame_trans; [split; [exact D1|split; [exact N1|exact W1]]|done]|].
  unfold sessions_for, limit_for. by rewrite D1, W1.
Qed.

(** The checks while the code's row is held. *)
Lemma redeem_checks_Ok entry (w w' : World) x :
  redeem_checks entry w = (w', Ok x) ->
  same_db w w' /\ usable (ac_user_id entry) w /\
  exists client, client ∈ t_clients (w_db w) /\ c_client_id client = ac_client_id entry /\
    validate_redirect client (ac_redirect_uri entry) = Ok tt /\
    forall n, limit_for (ac_user_id entry) client w = Some n ->
      sessions_for (ac_user_id entry) (ac_client_id entry) w < n.
Proof.
  unfold redeem_checks. intros R. unbind R client w1 R1. apply load_client_Ok in R1 as (S1 & Hin & Hid).
  unbind R y w2 R2. apply lift_Ok in R2 as [Hv ->]. unbind R z w3 R3.
  apply account_usable_Ok in R3 as [S3 (r & Hr & Hu)]. unbind R t w4 R4.
  assert (same_db w3 w4) as S4 by (eapply keeps_run, R4; unfold lock_client_sessions_in, internal; frame_auto).
  unbind R a w5 R5. apply allowance_Ok in R5 as [S5 ->]. cbn in R.
  assert (same_db w w4) as S04 by (eapply frame_trans; [exact S1|]; eapply frame_trans; [exact S3|exact S4]).
  assert (same_db w w5) as S05 by (eapply frame_trans; [exact S04|exact S5]).
  destruct S04 as [D4 [N4 W4]].
  assert (match limit_for (ac_user_id entry) client w4 with
          | Some allowed => allowed <=? sessions_for (ac_user_id entry) (c_client_id client) w4 | None => false end = false)
    as Hl by (destruct (match limit_for _ _ _ with Some _ => _ | None => _ end); [by apply fail_Ok in R|done]).
  rewrite Hl in R. apply ret_Ok in R as [_ ->]. split; [done|].
  split; [exists r; by rewrite <- (proj1 S1)|]. exists client. split_and!; [done|done| |].
  - destruct (validate_redirect client (ac_redirect_uri entry)) as [[]|]; done.
  - intros n Hn. unfold limit_for, sessions_for in *. rewrite D4, W4, Hn, Hid in Hl. by apply Z.leb_gt in Hl.
Qed.

Lemma verifier_matches_eq challenge verifier :
  verifier_matches challenge verifier = true ->
  43 <= byte_len verifier <= 128 /\ bytes_all verifier_byte verifier = true /\
  as_bytes (b64url (sha256 (as_bytes verifier))) = as_bytes challenge.
Proof.
  unfold verifier_matches. destruct (_ && _ && _) eqn:E; [|done]. cbn [negb].
  unfold constant_time_eq. intros [_ Hc%bool_decide_eq_true]%andb_true_iff. rewrite !andb_true_iff in E. destruct E as [[E1 E2] E3]. breflect. split_and!; [lia|lia|done|done].
Qed.
(** What a successful redemption comes to. *)
Record redeemed (request : Redemption) (w w' : World) (entry : AuthorizationCode) (tokens : AuthTokens) : Prop := {
  re_code : entry ∈ codes w /\ ac_code_hash entry = sha256 (as_bytes (rd_code request));
  re_fresh : ac_consumed_at entry = None /\ w_wall w < ac_expires_at entry;
  re_asked : ac_client_id entry = rd_client_id request /\ ac_redirect_uri entry = rd_redirect_uri request;
  re_verifier : verifier_matches (ac_code_challenge entry) (rd_verifier request) = true /\
    as_bytes (b64url (sha256 (as_bytes (rd_verifier request)))) = as_bytes (ac_code_challenge entry) /\
    43 <= byte_len (rd_verifier request) <= 128;
  re_usable : usable (ac_user_id entry) w;
  re_client : exists client, client ∈ t_clients (w_db w) /\ c_client_id client = ac_client_id entry /\
    validate_redirect client (ac_redirect_uri entry) = Ok tt /\
    forall n, limit_for (ac_user_id entry) client w = Some n ->
      sessions_for (ac_user_id entry) (ac_client_id entry) w < n;
  re_session : t_sessions (w_db w) !! s_id (at_session tokens) = None /\
    t_sessions (w_db w') = <[s_id (at_session tokens) := at_session tokens]> (t_sessions (w_db w));
  re_for : s_user_id (at_session tokens) = ac_user_id entry /\ s_client_id (at_session tokens) = Some (ac_client_id entry) /\
    s_session_type (at_session tokens) = Device /\ s_scopes (at_session tokens) = ac_scopes entry /\
    s_mfa (at_session tokens) = false /\ s_auth_time (at_session tokens) = Some (ac_auth_time entry) /\
    s_revoked_at (at_session tokens) = None;
  re_spent : forall now c, w_wall w <= now -> c ∈ codes w' ->
    redeemable (sha256 (as_bytes (rd_code request))) now c = false;
  re_attached : exists c, c ∈ codes w' /\ ac_id c = ac_id entry /\ ac_code_hash c = ac_code_hash entry /\
    ac_client_id c = ac_client_id entry /\ ac_code_challenge c = ac_code_challenge entry /\
    ac_consumed_at c = Some (w_wall w) /\ ac_session_id c = Some (s_id (at_session tokens));
}.

Lemma update_where_iff {A} (p : A -> bool) (f : A -> A) (l : list A) (y : A) :
  y ∈ update_where p f l <-> exists x, x ∈ l /\ y = if p x then f x else x.
Proof. unfold update_where. rewrite list_elem_of_fmap. naive_solver. Qed.

Lemma consumed_not_redeemable hash now now' c :
  now <= now' -> redeemable hash now' (if redeemable hash now c then consumed_row now c else c) = false.
Proof.
  intros Hn. destruct (redeemable hash now c) eqn:E; unfold redeemable in *.
  - change (ac_consumed_at (consumed_row now c)) with (Some now). by rewrite (bool_decide_eq_false_2 (Some now = None)), andb_false_r by done.
  - rewrite !andb_false_iff in *. destruct E as [[E|E]|E]; [tauto..|]. right. breflect. lia.
Qed.

Lemma code_redeem_Ok request (w w' : World) tokens nonce :
  redeem request w = (w', Ok (tokens, nonce)) ->
  exists entry, redeemed request w w' entry tokens /\ nonce = ac_nonce entry.
Proof.
  unfold redeem, internal. intros R. unbind R x w1 R1.
  assert (same_db w w1) as S1 by (eapply keeps_run, R1; unfold tx_begin; frame_auto).
  unbind R consumed w2 R2. apply map_err_Ok, tx_run_Ok in R2 as [(d & Hc) S2]. injection Hc as _ Hc.
  destruct consumed as [entry'|]; [|unbind R y w3 R3; by apply fail_Ok in R].
  apply fmap_Some in Hc as (entry & Hf & ->). apply find_some in Hf as [Hin Hr].
  rewrite (proj1 S1) in Hin. rewrite (proj2 (proj2 S1)) in *. apply list_elem_of_In in Hin.
  destruct (_ || _ || _) eqn:Em; [unbind R y w3 R3; by apply fail_Ok in R|].
  rewrite !orb_false_iff, !negb_false_iff in Em. destruct Em as [[E1%str_eqb_eq E2%str_eqb_eq] E3].
  unbind R checks w3 R3. apply attempt_run in R3 as (c & R3 & [= ->]).
  destruct c as [[]|e]; [|unbind R y w4 R4; by apply fail_Ok in R].
  apply redeem_checks_Ok in R3 as (S3 & (r & Hru & Hus) & client & Hcl & Hid & Hv & Hq).
  assert (same_db w w2) as S02 by (eapply frame_trans; [exact S1|exact S2]).
  assert (same_db w w3) as S03 by (eapply frame_trans; [exact S02|exact S3]).
  unbind R tk w4 R4. pose proof (issue_tokens_run _ _ _ _ _ _ _ _ _ _ _ _ R4) as [[[e [=]] _]|(row & Hop & Ht)].
  destruct (Ht tk eq_refl) as [Hrow _].
  assert (leaves [TCodes] w3 w4) as L4 by (eapply keeps_run, R4; tables_auto).
  unbind R y w5 R5. apply map_err_Ok, tx_run_Ok in R5 as [_ S5].
  unbind R z w6 R6. apply map_err_Ok, tx_run_Ok in R6 as [_ S6].
  unbind R a7 w7 R7. apply map_err_Ok in R7. unfold tx_commit in R7. apply execute_Ok in R7 as [Hx C7].
  apply ret_Ok in R as [[= -> ->] ->]. exists entry. split; [|done].
  assert (same_db w4 w6) as S46 by (eapply frame_trans; [exact S5|exact S6]).
  destruct S03 as [D3 [N3 W3]], S02 as [D2 [N2 W2]], L4 as [L4 [N4 W4]], S46 as [D6 [N6 W6]].
  specialize (L4 TCodes ltac:(listed)). cbn in L4.
  assert (w_wall w6 = w_wall w) as W06 by congruence. rewrite W06, D6 in Hx. injection Hx as Hx.
  destruct Hop as [Htab Hfresh _ _ _ _ Hlive Hfor _ _ _]. rewrite D3 in Htab, Hfresh. cbn in *.
  apply andb_true_iff in Hr as [[Hh%bool_decide_eq_true Hn%bool_decide_eq_true]%andb_true_iff Hexp%Z.ltb_lt].
  split.
  - done.
  - done.
  - done.
  - split; [done|]. by apply verifier_matches_eq in E3 as (? & _ & ?).
  - exists r. by rewrite <- D2.
  - exists client. rewrite D2 in Hcl. split_and!; [done..|]. unfold limit_for, sessions_for in *. rewrite <- D2, <- W2. done.
  - cbn. rewrite Hrow. split; [done|]. rewrite <- Hx. cbn. by rewrite Hrow, Htab, alter_insert_eq.
  - cbn. rewrite Hrow. naive_solver.
  - intros now c Hle Hc'. rewrite <- Hx in Hc'. cbn in Hc'. rewrite L4, D3 in Hc'.
    apply update_where_iff in Hc' as (c1 & Hc1 & ->). apply update_where_iff in Hc1 as (c0 & Hc0 & ->).
    pose proof (consumed_not_redeemable (sha256 (as_bytes (rd_code request))) (w_wall w) now c0 Hle) as Hf.
    destruct (bool_decide _); [|done]. done.
  - exists (attached_row (s_id row) (consumed_row (w_wall w) entry)). cbn. rewrite Hrow. split_and!; try done.
    rewrite <- Hx. cbn. rewrite L4, D3. apply update_where_iff. exists (consumed_row (w_wall w) entry).
    rewrite Hrow. rewrite bool_decide_true by done. split; [|done].
    apply update_where_iff. exists entry. split; [done|]. unfold redeemable.
    by rewrite !bool_decide_true, (proj2 (Z.ltb_lt _ _) Hexp) by done.
Qed.
(** C11: A code is redeemed only by whom it was approved for: the row exists
    under the digest of the code, unexpired and never consumed; the client and
    the redirect URI are those of the approval, the URI still registered; the
    verifier hashes to its challenge; the account is usable and below the
    client's session limit.  The one session opened is a device session of that
    account and client with exactly the scopes consented to, no second factor
    and the approval's proof of the password; and the code is spent from then on
    and tied to that session. *)
Theorem code_redemption_sound request (w w' : World) tokens nonce :
  redeem request w = (w', Ok (tokens, nonce)) ->
  exists entry, redeemed request w w' entry tokens /\ nonce = ac_nonce entry.
Proof. apply code_redeem_Ok. Qed.

(** ** Replay *)

Lemma bind_bind {E A B C} (m : M E A) (k : A -> M E B) (l : B -> M E C) (w : World) :
  ((m ≫= k) ≫= l) w = (m ≫= (fun a => k a ≫= l)) w.
Proof. unfold mbind, M_bind. by destruct (m w) as [? []]. Qed.

Lemma revoke_family_ends sid target (w : World) :
  all_answered -> t_sessions (w_db w) !! sid = Some target ->
  family_revoked (t_sessions (w_db (Tokens.revoke_family sid w).1)) (s_family target).
Proof.
  intros Ha Ht. unfold Tokens.revoke_family, internal.
  destruct (revoke_session_family sid RefreshTokenReuse (w_wall w) (t_sessions (w_db w))) as [[t n]|] eqn:E;
    [|unfold revoke_session_family in E; by rewrite Ht in E].
  pose proof (revoke_session_family_all _ _ _ _ _ _ _ E Ht) as Hf.
  set (w1 := with_db (fun _ => set_sessions (fun _ => t) (w_db w)) (bump_io w)).
  rewrite (bind_step _ _ w w1 n)
    by (unfold map_err, SessionRepo.revoke_family; rewrite execute_answered by done; cbn; by rewrite E).
  match goal with |- context [(?m w1).1] => assert (keeps same_db m) as K by tables_auto end.
  specialize (K w1) as [-> _]. exact Hf.
Qed.

Lemma redeem_unredeemable request (w : World) :
  all_answered -> (forall c, c ∈ codes w -> redeemable (sha256 (as_bytes (rd_code request))) (w_wall w) c = false) ->
  exists w1, same_db w w1 /\
    redeem request w =
    (_ ← revoke_on_replay (sha256 (as_bytes (rd_code request))) (rd_client_id request) (rd_verifier request);
     fail InvalidAuthorizationCode) w1.
Proof.
  intros Ha Hc. exists (bump_io (bump_io w)). split; [done|].
  unfold redeem, internal. rewrite (bind_step _ _ w (bump_io w) tt); [|unfold map_err, tx_begin; rewrite query_answered by done; done].
  rewrite (bind_step _ _ (bump_io w) (bump_io (bump_io w)) None); [done|].
  unfold map_err, tx_run, io. rewrite Ha. cbn -[redeemable].
  destruct (List.find _ _) as [c|] eqn:Ef; [|done]. apply find_some in Ef as [Hin Hr].
  rewrite Hc in Hr; [done|]. by apply list_elem_of_In.
Qed.

Lemma redeem_needs_code request (w w' : World) r :
  (forall c, c ∈ codes w -> redeemable (sha256 (as_bytes (rd_code request))) (w_wall w) c = false) ->
  redeem request w = (w', r) -> exists e, r = Err e.
Proof.
  intros Hc R. destruct r as [[tokens nonce]|e]; [exfalso|by exists e].
  apply code_redeem_Ok in R as (entry & Hr & _). destruct (re_code _ _ _ _ _ Hr) as [Hin Hh].
  destruct (re_fresh _ _ _ _ _ Hr) as [Hn He]. specialize (Hc entry Hin). unfold redeemable in Hc.
  by rewrite !bool_decide_true, (proj2 (Z.ltb_lt _ _) He) in Hc by done.
Qed.

Lemma find_hash (l : list AuthorizationCode) c :
  NoDup (map ac_code_hash l) -> c ∈ l -> List.find (fun o => bool_decide (ac_code_hash o = ac_code_hash c)) l = Some c.
Proof.
  induction l as [|o l IH]; cbn; [by intros _ ?%elem_of_nil|]. rewrite NoDup_cons. intros [Ho Hn] Hc.
  case_bool_decide as E.
  - apply elem_of_cons in Hc as [->|Hc]; [done|]. destruct Ho. rewrite E. by apply list_elem_of_fmap_2.
  - apply elem_of_cons in Hc as [->|Hc]; [done|]. by apply IH.
Qed.

(** * Approval *)

(** The account has a verified method or a passkey. *)
Definition factor_held (uid : Uuid) (w : World) : bool :=
  existsb (fun m => is_own tf_user_id uid m && tf_is_verified m) (t_methods (w_db w))
  || existsb (is_own pk_user_id uid) (a_passkeys (t_access (w_db w))).

Lemma second_factor_proved uid sid client (w w' : World) x :
  ensure_second_factor_for_primary uid sid client w = (w', Ok x) ->
  same_db w w' /\ (c_is_primary client = true -> factor_held uid w = true ->
    exists s, t_sessions (w_db w) !! sid = Some s /\ s_mfa s = true).
Proof.
  intros R. split; [eapply keeps_run, R; unfold ensure_second_factor_for_primary; tables_auto|].
  intros Hprim Hfac. unfold ensure_second_factor_for_primary in R. rewrite Hprim in R.
  unbind R req w1 R1. unfold internal, has_second_factor in R1. read_run R1. unfold factor_held in Hfac. rewrite Hfac in R. cbn [negb] in R.
  unbind R ss w2 R2. unfold internal, find_by_id in R2. read_run R2. rewrite (proj1 R1) in R.
  destruct (t_sessions (w_db w) !! _) as [s|]; [|by apply fail_Ok in R]. exists s. split; [done|].
  destruct (s_mfa s); [done|by apply fail_Ok in R].
Qed.

(** What an approval stores beside the code's digest. *)
Record approved (ap : Approval) (w w' : World) (code : str) (c : AuthorizationCode) : Prop := {
  av_proven : proven (ap_user_id ap) (ap_session_id ap) (ap_current_password ap) w;
  av_usable : usable (ap_user_id ap) w;
  av_second_factor : c_is_primary (ap_client ap) = true ->
    factor_held (ap_user_id ap) w = true ->
    exists s, t_sessions (w_db w) !! ap_session_id ap = Some s /\ s_mfa s = true;
  av_stored : codes w' = codes w ++ [c];
  av_digest : ac_code_hash c = sha256 (as_bytes code);
  av_for : ac_user_id c = ap_user_id ap /\ ac_client_id c = c_client_id (ap_client ap) /\
    ac_redirect_uri c = ap_redirect_uri ap /\ ac_code_challenge c = ap_code_challenge ap /\
    ac_nonce c = ap_nonce ap /\ ac_auth_time c = ap_auth_time ap /\ ac_consumed_at c = None;
  av_expiry : ac_expires_at c = saturating_add (w_now w) (seconds CODE_TTL_SECS);
  av_consent : ac_scopes c = consent (ap_requested ap) (permissions_of (ap_user_id ap) (w_db w));
  av_scopes : match ap_requested ap with
    | None => ac_scopes c = None
    | Some requested => exists scopes, ac_scopes c = Some scopes /\
        forall s : str, s ∈ scopes <->
          s ∈ requested /\ (Oidc.is_oidc_scope s = true \/ s ∈ permissions_of (ap_user_id ap) (w_db w))
    end;
  av_traced : exists entry, last (t_audit_log (w_db w')) = Some entry /\ al_action entry = ClientAuthorized /\
    al_user_id entry = Some (ap_user_id ap) /\
    al_metadata entry = JObj [(u"client_id", JStr (c_client_id (ap_client ap))); (u"scopes", scopes_json (ac_scopes c))];
}.

Lemma consent_spec requested held :
  match requested with
  | None => consent requested held = None
  | Some requested' => exists scopes, consent requested held = Some scopes /\
      forall s : str, s ∈ scopes <-> s ∈ requested' /\ (Oidc.is_oidc_scope s = true \/ s ∈ held)
  end.
Proof.
  destruct requested as [l|]; [|done]. eexists. split; [done|]. intros s.
  rewrite elem_of_lfilter, orb_true_iff, contains_true. tauto.
Qed.

Lemma mint_Ok ap scopes code e (w w' : World) x :
  mint ap scopes code e w = (w', Ok x) ->
  exists c, codes w' = codes w ++ [c] /\
    (exists id, c = code_row id {| nc_code_hash := sha256 (as_bytes code); nc_user_id := ap_user_id ap;
       nc_client_id := c_client_id (ap_client ap); nc_redirect_uri := ap_redirect_uri ap;
       nc_code_challenge := ap_code_challenge ap; nc_scopes := scopes; nc_nonce := ap_nonce ap;
       nc_auth_time := ap_auth_time ap; nc_expires_at := e |}) /\
    exists entry, last (t_audit_log (w_db w')) = Some entry /\ al_action entry = ClientAuthorized /\
      al_user_id entry = Some (ap_user_id ap) /\
      al_metadata entry = JObj [(u"client_id", JStr (c_client_id (ap_client ap))); (u"scopes", scopes_json scopes)].
Proof.
  unfold mint, code_create, audit_append, internal. intros R. unbind R ci w1 R1. apply map_err_Ok in R1.
  unbind R1 ck w2 R2. read_run R1. destruct R1 as [R1 _]. read_run R. destruct R as [R _]. injection R as R.
  destruct (code_refused _ _); [done|]. injection R1 as R1 _.
  eexists. rewrite <- R, <- R1. cbn. split_and!; [|by eexists|].
  - assert (w_db w2 = w_db w) as -> by (eapply same_db_run, R2; frame_auto). done.
  - eexists. rewrite last_snoc. done.
Qed.

Lemma approve_Ok ap (w w' : World) code :
  approve ap w = (w', Ok code) -> exists c, approved ap w w' code c.
Proof.
  unfold approve. intros R. unbind R x w1 R1. pose proof (guard_proves _ _ _ _ _ _ _ _ _ R1) as Hp.
  assert (leaves [TUsers; TSessions; TMethods; TPasskeys; TCodes; TUserRoles; TRolePermissions] w w1) as [L1 [N1 W1]]
    by (eapply keeps_run, R1; destruct (ap_current_password ap); tables_auto).
  unbind R y w2 R2. apply account_usable_Ok in R2 as [S2 (r & Hr & Hu)].
  unbind R z w3 R3. apply second_factor_proved in R3 as [S3 Hsf].
  assert (same_db w1 w3) as [D3 [N3 W3]] by (eapply frame_trans; [exact S2|exact S3]).
  unbind R held w4 R4. unfold permission_names, internal in R4. read_run R4. destruct R4 as [D4 [N4 W4]].
  unbind R code' w5 R5. injection R5 as <- <-. unbind R e w6 R6. unfold in_secs in R6. read_run R6.
  unbind R t w7 R7. apply ret_Ok in R as [-> ->].
  apply transaction_run in R7 as [[[e [=]] _]|(w8 & a & R8 & D8 & _)].
  apply mint_Ok in R8 as (c & Hc & (ci & Ec) & Hentry). cbn in Hc.
  assert (w_db w4 = w_db w1) as D41 by congruence.
  exists c. split; [done| | | |by rewrite Ec|by rewrite Ec| | | |].
  - exists r. split; [|done]. by rewrite <- (L1 TUsers) by listed.
  - intros Hprim Hfac. unfold factor_held in Hsf. rewrite (proj1 S2), (L1 TMethods), (L1 TPasskeys), (L1 TSessions) in Hsf by listed.
    by apply Hsf.
  - rewrite D8, Hc, D41. by rewrite (L1 TCodes) by listed.
  - rewrite Ec. cbn. by rewrite N4, N3, N1.
  - rewrite Ec. cbn. rewrite D3. unfold permissions_of, roles_of. by rewrite (L1 TUserRoles), (L1 TRolePermissions) by listed.
  - rewrite Ec. cbn. rewrite D3. unfold permissions_of, roles_of. rewrite (L1 TUserRoles), (L1 TRolePermissions) by listed.
    pose proof (consent_spec (ap_requested ap) (permissions_of (ap_user_id ap) (w_db w))) as Hs. exact Hs.
  - rewrite D8, Ec. exact Hentry.
Qed.

(** A code is minted only for a user who proved the password lately or with
    the request, on a usable account, from a session that proved a second factor
    when the account has one and the client is the instance's own.  It is stored
    by its digest, for one minute, bound to that client, redirect URI and PKCE
    challenge, and grants what was requested as far as the user holds it (and
    the identity scopes); the consent is traced in the same transaction. *)
Theorem approval_consents ap (w w' : World) code :
  approve ap w = (w', Ok code) -> exists c, approved ap w w' code c.
Proof. apply approve_Ok. Qed.
End Redemption.

(** * Witnesses *)

Section Witnesses.
Import Scenario.Run Office.Office.
#[local] Existing Instance calm.

Definition a_verifier : str := replicate 43 97.

(** The administrator lets [app] in from session 2. *)
Definition an_approval : Approval :=
  {| ap_user_id := 7%N; ap_session_id := 2%N; ap_client := app; ap_redirect_uri := u"https://app.example/cb";
     ap_code_challenge := b64url (sha256 (as_bytes a_verifier));
     ap_requested := Some [u"openid"; u"posts:write"; u"posts:delete"]; ap_nonce := Some u"n"; ap_auth_time := 0;
     ap_current_password := None; ap_ip := None; ap_request_id := None |}.

Definition approval_run := approve an_approval partners.
Definition a_code : str := match approval_run.2 with Ok c => c | Err _ => [] end.

Definition a_redemption : Redemption :=
  {| rd_code := a_code; rd_verifier := a_verifier; rd_client_id := u"app";
     rd_redirect_uri := u"https://app.example/cb"; rd_ip := None; rd_user_agent := None; rd_device_name := None |}.

Definition redeem_run := redeem a_redemption approval_run.1.

Lemma approval_consents_witness :
  byte_len a_code = 6 /\ exists c, approved an_approval partners approval_run.1 a_code c.
Proof.
  split; [vm_compute; reflexivity|].
  refine (approval_consents an_approval partners approval_run.1 a_code _).
  apply run_answer. vm_compute. reflexivity.
Defined.

Lemma code_redemption_sound_witness :
  exists entry tokens, redeemed a_redemption approval_run.1 redeem_run.1 entry tokens.
Proof.
  assert (exists r, redeem_run.2 = Ok r /\ redeem_run = (redeem_run.1, Ok r)) as ([tokens nonce] & _ & R).
  { eexists. split; [vm_compute; reflexivity|]. apply run_answer. vm_compute. reflexivity. }
  destruct (code_redemption_sound a_redemption approval_run.1 redeem_run.1 tokens nonce R) as (entry & Hr & _).
  exists entry, tokens. exact Hr.
Defined.

Definition redeemed_tokens : option AuthTokens := match redeem_run.2 with Ok (t, _) => Some t | Err _ => None end.
Definition redeemed_nonce : option str := match redeem_run.2 with Ok (_, n) => n | Err _ => None end.


(** ** A redemption cut short *)

(** The database does not hear the last commit, its 26th exchange. *)
Definition lost_commit : Env :=
  {| config := settings; io_plan := fun i => if (i =? 25)%nat then Lost else Answered;
     draw_token := draw_token; draw_uuid := draw_uuid; draw_bytes := draw_bytes; draw_secret := draw_secret;
     draw_otp := draw_otp; draw_pick := draw_pick; draw_entry := draw_entry; stopwatch := stopwatch; keyring := keyring |}.

Definition torn_run := redeem (H0 := lost_commit) a_redemption approval_run.1.

(** The session is opened in a transaction of its own: when the redemption's
    cannot commit, the request fails and the code stays redeemable, yet the
    session exists, tied to no code. *)
Example torn_redemption :
  torn_run.2 = Err Internal /\
  size (t_sessions (w_db torn_run.1)) = S (size (t_sessions (w_db approval_run.1))) /\
  existsb (redeemable (sha256 (as_bytes a_code)) (w_wall torn_run.1)) (g_codes (t_grants (w_db torn_run.1))) = true.
Proof. vm_compute. split; [reflexivity|split; reflexivity]. Qed.
End Witnesses.
