(* ===== verification/DeviceFlow.v ===== *)
(** The device authorization flow (src/src/services/device.rs): a device asks, a
    signed-in user decides by an eight-character code, the device polls. *)
From S2P Require Import Prelude Crates Codec Session Account OAuthDomain Network Edge Crypto Tables App Outside RedisCounter SessionRepo Repos Tokens UserRepo AccessRepo TokenRepo AccountsOk Scenario TokensCorrect Refresh RefreshCorrect Login LoginCorrect SecondFactor SecondFactorCorrect OneTime OneTimeCorrect SelfService Guard Factors Administration Office AccessToken Grants GrantsCorrect.
Import Account.User Account.Audit OAuthDomain.Client OAuthDomain.DeviceDomain.

(** * Addresses as text: [Display] of an [IpAddr] *)

Module IpText.

(** The longest run of zero segments, the first of them; its start and length. *)
Fixpoint longest_zeroes (segments : list Z) (i start len best_start best_len : nat) : nat * nat :=
  match segments with
  | [] => (best_start, best_len)
  | s :: rest =>
      if s =? 0 then
        let start := if (len =? 0)%nat then i else start in
        let len := S len in
        if (best_len <? len)%nat then longest_zeroes rest (S i) start len start len
        else longest_zeroes rest (S i) start len best_start best_len
      else longest_zeroes rest (S i) start 0 best_start best_len
  end.

Definition segments_text (l : list Z) : str := join [58] (map IpBucket.hex_u16 l).

Definition ip_text (ip : IpAddr) : str :=
  match ip with
  | V4 v4 => IpBucket.v4_text v4
  | V6 v6 =>
      match to_ipv4_mapped v6 with
      | Some v4 => u"::ffff:" ++ IpBucket.v4_text v4
      | None =>
          let segments := map (segment v6) [0; 1; 2; 3; 4; 5; 6; 7] in
          let '(start, len) := longest_zeroes segments 0 0 0 0 0 in
          if (1 <? len)%nat
          then segments_text (take start segments) ++ u"::" ++ segments_text (drop (start + len) segments)
          else segments_text segments
      end
  end.

Example ip_text_v6 :
  map ip_text [V6 1; V6 (0x20010db8 * 2 ^ 96 + 1); V6 (0xffff * 2 ^ 32 + 0x7f000001); V4 0x7f000001]
  = [u"::1"; u"2001:db8::1"; u"::ffff:127.0.0.1"; u"127.0.0.1"].
Proof. reflexivity. Qed.
End IpText.

(** [OffsetDateTime::from_unix_timestamp]: refused out of range. *)
Definition from_unix_timestamp `{TimeCrate} (t : Z) : option OffsetDateTime :=
  if (dt_min <=? t * NS) && (t * NS <=? dt_max) then Some (t * NS) else None.

(** * The state kept in Redis *)

Record DeviceAuthState := {
  ds_user_code : str;
  ds_status : DeviceAuthStatus;
  ds_user_id : option Uuid;
  ds_client_id : option str;
  ds_client_ip : option str;
  ds_user_agent : option str;
  ds_created_at : Z;
  ds_scopes : option (list str);
  ds_auth_time : option Z;
}.

#[export] Instance codec_status : Codec DeviceAuthStatus.
Proof.
  refine (codec_iso (fun s => match s with Pending => 0 | Authorized => 1 | Denied => 2 end)
    (fun z => if z =? 0 then Some Pending else if z =? 1 then Some Authorized
              else if z =? 2 then Some Denied else None) _).
  by intros [].
Defined.

#[export] Instance codec_device : Codec DeviceAuthState.
Proof.
  refine (codec_iso
    (fun s => (ds_user_code s, ds_status s, ds_user_id s, ds_client_id s, ds_client_ip s, ds_user_agent s,
               ds_created_at s, ds_scopes s, ds_auth_time s))
    (fun '(code, status, uid, cid, ip, ua, at_, scopes, auth) =>
       Some {| ds_user_code := code; ds_status := status; ds_user_id := uid; ds_client_id := cid;
               ds_client_ip := ip; ds_user_agent := ua; ds_created_at := at_; ds_scopes := scopes;
               ds_auth_time := auth |}) _).
  by intros [].
Defined.

#[export] Instance toy_device_serde : Serde DeviceAuthState := serde_of_codec.

Module Device.

Definition DEVICE_KEY_PREFIX : str := u"device:".
Definition DEVICE_UC_PREFIX : str := u"device_uc:".
Definition DEVICE_POLL_PREFIX : str := u"device_poll:".
Definition DEVICE_SCAN_PREFIX : str := u"device_scan:".

Definition USER_CODE_ATTEMPTS : nat := 5.
Definition MAX_UNKNOWN_CODES_BY_IP : Z := 10.
Definition SCAN_WINDOW_SECS : Z := 300.

Record DeviceInitResponse := {
  di_device_code : str;
  di_user_code : str;
  di_verification_uri : str;
  di_verification_uri_complete : str;
  di_expires_in : Z;
  di_interval : Z;
}.

Record DevicePreview := {
  dp_user_code : str;
  dp_client_id : option str;
  dp_client_name : option str;
  dp_requested_from_ip : option str;
  dp_user_agent : option str;
  dp_created_at : Z;
  dp_reauthentication_required : bool;
  dp_scopes : list str;
  dp_unrestricted : bool;
  dp_unavailable_scopes : list str;
  dp_sessions_used : Z;
  dp_sessions_allowed : option Z;
}.

Record Approval := {
  da_user_id : Uuid;
  da_session_id : Uuid;
  da_user_code : str;
  da_current_password : option str;
  da_ip : option IpNetwork;
  da_request_id : option Uuid;
}.

Definition LETTERS : str := u"ABCDEFGHJKMNPQRSTUVWXYZ".
Definition DIGITS : str := u"23456789".

Definition device_key (hash_encoded : str) : str := DEVICE_KEY_PREFIX ++ hash_encoded.
Definition uc_key (user_code : str) : str := DEVICE_UC_PREFIX ++ user_code.
Definition poll_key (hash_encoded : str) : str := DEVICE_POLL_PREFIX ++ hash_encoded.

(** The keys misses are counted under. *)
Definition scan_keys (ip : option IpNetwork) (user_id : Uuid) : list str :=
  (DEVICE_SCAN_PREFIX ++ u"user:" ++ uuid_str user_id) ::
  match ip with
  | Some ip => [DEVICE_SCAN_PREFIX ++ IpBucket.ip_bucket (net_ip ip)]
  | None => []
  end.

Definition json_opt (o : option str) : json := from_option JStr JNull o.

Section Scripts.
Context `{RedisServer}.

(** [GET] of a key that holds text. *)
Definition get_text (k : str) (s : rstore) (t : Z) : option str :=
  match r_get s t k with Some (RStr x) => Some x | _ => None end.

(** The script [COMPARE_AND_SET]. *)
Definition compare_and_set (k old new : str) (s : rstore) (t : Z) : rstore * Z :=
  if bool_decide (get_text k s t = Some old) then (r_set_keepttl s t k (RStr new), 1) else (s, 0).

(** [DEL k] and how many keys it removed. *)
Definition del_count (k : str) (s : rstore) (t : Z) : rstore * Z :=
  (r_del s t k, if r_exists s t k then 1 else 0).
End Scripts.

Section Device.
Context `{RedisServer} `{Env} `{TimeCrate} `{CryptoCrates} `{SqlText} `{IpNetworkCrate} `{!Jwt}.
Context `{Passwords} `{UrlCrate} `{!Serde DeviceAuthState}.

Definition device_hash_encoded (device_code : str) : str := b64url (sha256 (as_bytes device_code)).

(** [redis_error], and a connection that could not be had. *)
Definition redis_internal {A} (m : M RedisError A) : M AppError A := map_err (fun _ => Internal) m.

(** [crypto::random_below]: below the bound. *)
Definition random_index {E} (bound : nat) : M E nat := fun w => (bump_draws w, Ok (draw_pick (w_draws w) mod bound)%nat).

Definition pick {E} (alphabet : str) : M E Z :=
  i ← random_index (length alphabet);
  mret (nth i alphabet 0).

Fixpoint picks {E} (n : nat) (alphabet : str) : M E str :=
  match n with
  | O => mret []
  | S n => c ← pick alphabet; rest ← picks n alphabet; mret (c :: rest)
  end.

Definition generate_user_code {E} : M E str :=
  part1 ← picks 4 LETTERS;
  part2 ← picks 4 DIGITS;
  mret (part1 ++ u"-" ++ part2).

(** At most [attempts] draws. *)
Fixpoint reserve_loop (attempts : nat) (hash_encoded : str) (ttl : Z) (next_code : M AppError str) : M AppError str :=
  match attempts with
  | O => fail Internal
  | S attempts =>
      candidate ← next_code;
      reserved ← redis_internal (redis_cmd (fun s t => r_set_nx_ex s t (uc_key candidate) (RStr hash_encoded) ttl));
      if reserved : bool then mret candidate else reserve_loop attempts hash_encoded ttl next_code
  end.

Definition reserve_user_code : str -> Z -> M AppError str -> M AppError str := reserve_loop USER_CODE_ATTEMPTS.

Definition initiate (client_ip : option IpNetwork) (user_agent : option str) (client : RegisteredClient)
    (scopes : option (list str)) : M AppError DeviceInitResponse :=
  device_code ← generate_token;
  let hash_encoded := device_hash_encoded device_code in
  let ttl := device_ttl_secs (cfg_device_auth config) in
  _ ← redis_internal redis_conn;
  user_code ← reserve_user_code hash_encoded ttl generate_user_code;
  now ← clock_now;
  let entry := {| ds_user_code := user_code; ds_status := Pending; ds_user_id := None;
                  ds_client_id := Some (c_client_id client);
                  ds_client_ip := (fun ip => IpText.ip_text (net_ip ip)) <$> client_ip;
                  ds_user_agent := user_agent; ds_created_at := unix_timestamp now; ds_scopes := scopes;
                  ds_auth_time := None |} in
  _ ← redis_internal (redis_cmd (fun s t =>
        (r_set_ex s t (device_key hash_encoded) (RStr (to_json_text entry)) ttl, tt)));
  let verification_uri := verification_uri (cfg_device_auth config) in
  mret {| di_device_code := device_code; di_user_code := user_code; di_verification_uri := verification_uri;
          di_verification_uri_complete :=
            default verification_uri (OAuth.redirect_with verification_uri [(u"user_code", user_code)]);
          di_expires_in := ttl; di_interval := poll_interval_secs (cfg_device_auth config) |}.

Definition device_sign_in (client_id : str) : SignIn :=
  {| si_identifier := None; si_request_id := None;
     si_audit_metadata := JObj [(u"client_id", JStr client_id); (u"method", JStr u"device_authorization")];
     si_second_factor := false |}.

(** The checks of an approved entry, as the client, the account and the quota
    are now. *)
Definition poll_checks (user_id : Uuid) (client_id : str) : M AppError unit :=
  found ← internal (client_find_by_id client_id);
  client ← ok_or found DeviceClientUnknown;
  found ← internal (user_find_by_id user_id);
  user ← ok_or found DeviceAccessDenied;
  _ ← lift (ensure_account_usable user);
  _ ← lock_client_sessions;
  allowance ← session_allowance user_id client;
  let allowed := default (c_default_max_sessions client) allowance.2 in
  if allowed <=? allowance.1 then fail DeviceSessionLimitReached else mret tt.

(** Of concurrent polls, the one whose [DEL] removes the entry goes on. *)
Definition claim_entry (dk user_code : str) : M AppError unit :=
  claimed ← redis_internal (redis_cmd (del_count dk));
  if negb (claimed =? 1) then fail DeviceCodeExpired
  else
    _ ← attempt (redis_cmd (fun s t => (r_del s t (uc_key user_code), tt)));
    mret tt.

Definition poll_paced (hash_encoded : str) : M AppError AuthTokens :=
  paced ← redis_internal (redis_cmd (fun s t =>
    r_set_nx_ex s t (poll_key hash_encoded) (RInt 1) (Z.max (poll_interval_secs (cfg_device_auth config)) 1)));
  if paced : bool then fail DeviceAuthPending else fail DeviceSlowDown.

Definition poll (device_code client_id : str) (ip : option IpNetwork) (user_agent device_name : option str) :
    M AppError AuthTokens :=
  let hash_encoded := device_hash_encoded device_code in
  let dk := device_key hash_encoded in
  _ ← redis_internal redis_conn;
  entry_json ← redis_internal (redis_cmd (fun s t => (s, get_text dk s t)));
  raw ← ok_or entry_json DeviceCodeExpired;
  entry ← ok_or (from_json_text raw) Internal;
  if negb (bool_decide (ds_client_id entry = Some client_id)) then fail InvalidAuthorizationCode
  else
    match poll_outcome (ds_status entry) (ds_user_id entry) (ds_client_id entry) with
    | PollPending => poll_paced hash_encoded
    | PollDenied =>
        _ ← attempt (redis_cmd (fun s t => (r_del s t dk, tt)));
        _ ← attempt (redis_cmd (fun s t => (r_del s t (uc_key (ds_user_code entry)), tt)));
        fail DeviceAccessDenied
    | MissingUser => fail Internal
    | MissingClient => fail DeviceClientUnknown
    | PollAuthorized user_id client_id =>
        _ ← poll_checks user_id client_id;
        _ ← claim_entry dk (ds_user_code entry);
        tokens ← issue_tokens user_id ip user_agent device_name false Session.Device (Some client_id)
                   (ds_scopes entry) (Some (device_sign_in client_id));
        match ds_auth_time entry ≫= from_unix_timestamp with
        | Some proven_at =>
            let stamp := stamp_auth_time (s_id (at_session tokens)) proven_at in
            _ ← internal (tx_run stamp);
            _ ← internal (tx_commit (effect stamp));
            mret (with_auth_time proven_at tokens)
        | None =>
            _ ← internal (tx_commit (fun d _ => d));
            mret tokens
        end
    end.

(** ** The user's side *)

Fixpoint guard_keys (keys : list str) : M AppError unit :=
  match keys with
  | [] => mret tt
  | key :: rest =>
      n ← peek key;
      if MAX_UNKNOWN_CODES_BY_IP <=? n then fail RateLimitExceededError else guard_keys rest
  end.

Definition guard_code_scan (ip : option IpNetwork) (user_id : Uuid) : M AppError unit := guard_keys (scan_keys ip user_id).

Definition note_unknown_code (ip : option IpNetwork) (user_id : Uuid) : M AppError unit :=
  _ ← consume (map (fun key => {| bg_key := key; bg_limit := MAX_UNKNOWN_CODES_BY_IP; bg_window_secs := SCAN_WINDOW_SECS |})
                 (scan_keys ip user_id));
  mret tt.

(** The device key, the text stored there and what it says. *)
Definition load_entry (user_code : str) : M AppError (option (str * str * DeviceAuthState)) :=
  _ ← redis_internal redis_conn;
  hash_encoded ← redis_internal (redis_cmd (fun s t => (s, get_text (uc_key user_code) s t)));
  match hash_encoded with
  | None => mret None
  | Some hash_encoded =>
      let dk := device_key hash_encoded in
      raw ← redis_internal (redis_cmd (fun s t => (s, get_text dk s t)));
      match raw with
      | None => mret None
      | Some raw => entry ← ok_or (from_json_text raw) Internal; mret (Some (dk, raw, entry))
      end
  end.

(** A code that is not live is counted, and not found. *)
Definition live_entry (user_code : str) (ip : option IpNetwork) (user_id : Uuid) : M AppError (str * str * DeviceAuthState) :=
  _ ← guard_code_scan ip user_id;
  loaded ← load_entry user_code;
  match loaded with
  | None => _ ← note_unknown_code ip user_id; fail NotFound
  | Some found => mret found
  end.

Definition find_client (client_id : option str) : M AppError (option RegisteredClient) :=
  match client_id with
  | Some client_id => internal (client_find_by_id client_id)
  | None => mret None
  end.

Definition describe (user_id session_id : Uuid) (user_code : str) (ip : option IpNetwork) : M AppError DevicePreview :=
  found ← live_entry user_code ip user_id;
  let entry := found.2 in
  if negb (is_undecided (ds_status entry)) then fail (Conflict u"device_request_already_decided")
  else
    client ← find_client (ds_client_id entry);
    recent ← has_recent_reauth session_id;
    shown ← match client with
            | Some client => shown ← Grants.describe user_id client (ds_scopes entry); mret (Some shown)
            | None => mret None
            end;
    mret {| dp_user_code := ds_user_code entry; dp_client_id := ds_client_id entry;
            dp_client_name := c_display_name <$> client; dp_requested_from_ip := ds_client_ip entry;
            dp_user_agent := ds_user_agent entry; dp_created_at := ds_created_at entry;
            dp_reauthentication_required := negb recent;
            dp_scopes := from_option ar_scopes [] shown;
            dp_unrestricted := from_option ar_unrestricted false shown;
            dp_unavailable_scopes := from_option ar_unavailable_scopes [] shown;
            dp_sessions_used := from_option ar_sessions_used 0 shown;
            dp_sessions_allowed := shown ≫= ar_sessions_allowed |}.

Definition decided (entry : DeviceAuthState) (new_status : DeviceAuthStatus) (user_id : Uuid)
    (scopes : option (list str)) (auth_time : option Z) : DeviceAuthState :=
  {| ds_user_code := ds_user_code entry; ds_status := new_status;
     ds_user_id := if bool_decide (new_status = Authorized) then Some user_id else None;
     ds_client_id := ds_client_id entry; ds_client_ip := ds_client_ip entry; ds_user_agent := ds_user_agent entry;
     ds_created_at := ds_created_at entry; ds_scopes := scopes; ds_auth_time := auth_time |}.

Definition update_status (user_code : str) (new_status : DeviceAuthStatus) (user_id : Uuid) (ip : option IpNetwork)
    (auth_time : option Z) : M AppError DeviceAuthState :=
  found ← live_entry user_code ip user_id;
  let '(dk, raw, entry) := found : str * str * DeviceAuthState in
  if negb (is_undecided (ds_status entry)) then fail (Conflict u"device_request_already_decided")
  else
    scopes ← (if bool_decide (new_status = Authorized) && bool_decide (is_Some (ds_scopes entry))
              then held ← permission_names user_id; mret (consent (ds_scopes entry) held)
              else mret (ds_scopes entry));
    let entry := decided entry new_status user_id scopes auth_time in
    _ ← redis_internal redis_conn;
    swapped ← redis_internal (redis_cmd (compare_and_set dk raw (to_json_text entry)));
    if negb (swapped =? 1) then fail (Conflict u"device_request_already_decided") else mret entry.

Definition verify (approval : Approval) : M AppError unit :=
  found ← live_entry (da_user_code approval) (da_ip approval) (da_user_id approval);
  client ← find_client (ds_client_id found.2);
  _ ← match client with
      | Some client => ensure_second_factor_for_primary (da_user_id approval) (da_session_id approval) client
      | None => mret tt
      end;
  _ ← require_recent_reauth_or_password (da_user_id approval) (da_session_id approval)
        (da_current_password approval) (da_ip approval) (da_request_id approval) u"approve_device";
  auth_time ← reauth_proven_at (da_session_id approval);
  entry ← update_status (da_user_code approval) Authorized (da_user_id approval) (da_ip approval) auth_time;
  internal (audit_append {| na_user_id := Some (da_user_id approval); na_request_id := da_request_id approval;
    na_action := DeviceApproved; na_ip_address := da_ip approval;
    na_metadata := JObj [(u"client_id", json_opt (ds_client_id entry)); (u"device_address", json_opt (ds_client_ip entry));
      (u"device_user_agent", json_opt (ds_user_agent entry)); (u"scopes", scopes_json (ds_scopes entry))] |}).

Definition deny (user_id : Uuid) (user_code : str) (ip : option IpNetwork) : M AppError unit :=
  entry ← update_status user_code Denied user_id ip None;
  internal (audit_append {| na_user_id := Some user_id; na_request_id := None; na_action := DeviceDenied;
    na_ip_address := ip;
    na_metadata := JObj [(u"client_id", json_opt (ds_client_id entry)); (u"device_address", json_opt (ds_client_ip entry))] |}).
End Device.

(** ** Loops that leave the tables alone *)

Section Loops.
Context `{RedisServer} `{Env} (R : World -> World -> Prop) `{!CoreFrame R, !RedisFrame R}.

Lemma keeps_picks {E} n alphabet : keeps R (picks n alphabet : M E str).
Proof.
  induction n as [|n IH]; cbn [picks]; [frame_auto|]. unfold pick. frame_auto. intros w. apply frame_draws.
Qed.

Lemma keeps_user_code {E} : keeps R (generate_user_code : M E str).
Proof. unfold generate_user_code. repeat first [frame_step | apply keeps_picks | solve [auto with frame]]. Qed.

Lemma keeps_reserve_loop n hash ttl next : keeps R next -> keeps R (reserve_loop n hash ttl next).
Proof.
  intros Hn. induction n as [|n IH]; cbn [reserve_loop]; [frame_auto|]. unfold redis_internal.
  repeat first [frame_step | assumption | solve [auto with frame]].
Qed.

Lemma keeps_guard_keys ks : keeps R (guard_keys ks).
Proof. induction ks as [|k ks IH]; cbn [guard_keys]; [frame_auto|]. unfold peek. frame_auto. Qed.
End Loops.
End Device.

#[export] Hint Resolve Device.keeps_user_code Device.keeps_guard_keys : frame.
#[export] Hint Extern 1 (keeps _ (Device.reserve_loop _ _ _ _)) =>
  apply Device.keeps_reserve_loop; [apply _..|auto with frame] : frame.
