(* ===== verification/DeviceCorrect.v ===== *)
(** Theorems about the device flow: codes are never repointed, a decision takes
    its guard and happens once, and an approval gives its device one session. *)
From S2P Require Import Prelude Crates Codec Session Account OAuthDomain Network Edge Crypto Tables App Outside RedisCounter SessionRepo Repos Tokens UserRepo AccessRepo TokenRepo AccountsOk Scenario TokensCorrect Refresh RefreshCorrect Login LoginCorrect SecondFactor SecondFactorCorrect OneTime OneTimeCorrect SelfService Guard Factors Administration Office AccessToken Grants GrantsCorrect DeviceFlow.
Import Account.User Account.Audit Account.TwoFactor OAuthDomain.Client OAuthDomain.DeviceDomain DeviceFlow.Device.

(** * Operations that leave Redis alone *)

Section RedisKept.
Context `{RedisServer} `{Env}.

Definition redis_kept (w w' : World) : Prop := w_redis w' = w_redis w /\ same_clocks w w'.

#[export] Instance redis_kept_frame : CoreFrame redis_kept.
Proof. constructor; unfold redis_kept, same_clocks; try done. naive_solver congruence. Qed.

#[export] Instance redis_kept_sleep : SleepFrame redis_kept.
Proof. by intros n w. Qed.

#[export] Instance redis_kept_rollback : Rollback redis_kept.
Proof. by intros w w'. Qed.

Lemma keeps_redis_execute {A} (f : Db -> Z -> result (Db * A) SqlError) : keeps redis_kept (execute f).
Proof. apply keeps_io. intros w. by destruct (f _ _) as [[]|]. Qed.

Lemma redis_cmd_Ok {A} (f : rstore -> Z -> rstore * A) (w w' : World) (a : A) :
  redis_cmd f w = (w', Ok a) -> f (w_redis w) (w_wall w) = (w_redis w', a) /\ same_db w w'.
Proof.
  unfold redis_cmd, io. destruct (io_plan (w_io w)); [|done..]. cbn. destruct (f _ _) as [s x].
  by intros [= <- <-].
Qed.
End RedisKept.

#[export] Hint Resolve keeps_redis_execute : frame.

(** * Polling *)

Section Poll.
Context `{RedisServer} `{Env} `{TimeCrate} `{CryptoCrates} `{SqlText} `{IpNetworkCrate} `{!Jwt}.
Context `{Passwords} `{UrlCrate} `{!Serde DeviceAuthState}.

(** What a key of Redis says of a flow. *)
Definition flow_at (dk : str) (w : World) : option DeviceAuthState :=
  get_text dk (w_redis w) (w_wall w) ≫= from_json_text.

(** What a successful poll comes to. *)
Record polled (device_code client_id : str) (w w' : World) (entry : DeviceAuthState) (uid : Uuid)
    (tokens : AuthTokens) : Prop := {
  pl_entry : flow_at (device_key (device_hash_encoded device_code)) w = Some entry;
  pl_approved : ds_status entry = Authorized /\ ds_user_id entry = Some uid /\ ds_client_id entry = Some client_id;
  pl_usable : usable uid w;
  pl_client : exists client, client ∈ t_clients (w_db w) /\ c_client_id client = client_id /\
    sessions_for uid client_id w < default (c_default_max_sessions client) (limit_for uid client w);
  pl_session : t_sessions (w_db w) !! s_id (at_session tokens) = None /\
    t_sessions (w_db w') = <[s_id (at_session tokens) := at_session tokens]> (t_sessions (w_db w));
  pl_for : s_user_id (at_session tokens) = uid /\ s_client_id (at_session tokens) = Some client_id /\
    s_session_type (at_session tokens) = Session.Device /\ s_scopes (at_session tokens) = ds_scopes entry /\
    s_mfa (at_session tokens) = false /\ s_revoked_at (at_session tokens) = None;
  pl_proof : forall t, ds_auth_time entry ≫= from_unix_timestamp = Some t ->
    s_auth_time (at_session tokens) = Some t;
  pl_taken : dump (w_redis w') (device_key (device_hash_encoded device_code)) = None;
}.

Lemma poll_checks_Ok uid cid (w w' : World) x :
  poll_checks uid cid w = (w', Ok x) ->
  still w w' /\ same_db w w' /\ usable uid w /\
  exists client, client ∈ t_clients (w_db w) /\ c_client_id client = cid /\
    sessions_for uid cid w < default (c_default_max_sessions client) (limit_for uid client w).
Proof.
  intros R. assert (still w w') as S by (eapply keeps_run, R; unfold poll_checks, lock_client_sessions,
    lock_client_sessions_in, tx_begin; tables_auto).
  assert (same_db w w') as D by (eapply keeps_run, R; unfold poll_checks, lock_client_sessions,
    lock_client_sessions_in, tx_begin; tables_auto).
  split; [done|]. split; [done|].
  unfold poll_checks, internal, client_find_by_id, user_find_by_id in R.
  unbind R fc w1 R1. read_run R1. unbind R client w2 R2. read_run R2. apply find_client_id in R2 as [Hin Hid].
  unbind R fu w3 R3. read_run R3. unbind R v w4 R4. read_run R4. apply fmap_Some in R4 as (r & Hr & ->).
  unbind R y w5 R5. read_run R5. unbind R t w6 R6.
  assert (same_db w3 w6) as S6 by (eapply keeps_run, R6; unfold lock_client_sessions, lock_client_sessions_in, tx_begin; tables_auto).
  assert (same_db w w3) as S03 by (eapply frame_trans; [exact R1|exact R3]).
  assert (same_db w w6) as [D6 [N6 W6]] by (eapply frame_trans; [exact S03|exact S6]).
  unbind R a w7 R7. apply allowance_Ok in R7 as [_ ->]. cbn in R.
  destruct (default _ _ <=? _) eqn:El; [by apply fail_Ok in R|]. apply Z.leb_gt in El.
  split.
  - exists r. rewrite <- (proj1 R1). by destruct y.
  - exists client. split_and!; [done|done|]. unfold limit_for, sessions_for in *. subst cid. by rewrite D6, W6 in El.
Qed.

Lemma claim_entry_Ok dk code (w w' : World) x :
  dk <> uc_key code -> claim_entry dk code w = (w', Ok x) -> same_db w w' /\ dump (w_redis w') dk = None.
Proof.
  intros Hne R. assert (same_db w w') as S by (eapply keeps_run, R; tables_auto). split; [done|].
  clear S. revert Hne R. unfold claim_entry. generalize (uc_key code). intros k Hne R. unbind R n w1 R1. apply map_err_Ok, redis_cmd_Ok in R1 as [E1 _].
  destruct (negb _); [by apply fail_Ok in R|]. unbind R y w2 R2. apply ret_Ok in R as [-> ->].
  injection E1 as E1 _. unfold attempt, redis_cmd, io in R2.
  destruct (io_plan (w_io w1)); cbn in R2; injection R2 as <- _; cbn;
    rewrite ?dump_del, ?(upd_ne _ _ dk) by congruence; by rewrite <- E1, dump_del, upd_eq.
Qed.

Lemma claim_taken dk code (w : World) : dump (w_redis w) dk = None -> exists e, (claim_entry dk code w).2 = Err e.
Proof.
  intros Hd. unfold claim_entry, redis_internal, map_err, redis_cmd, io, mbind, M_bind, del_count, r_exists.
  destruct (io_plan (w_io w)); cbn; rewrite ?Hd; cbn; eauto.
Qed.

Lemma device_not_uc hash code : device_key hash <> uc_key code.
Proof. intros E. apply (f_equal (fun s => s !! 6%nat)) in E. discriminate E. Qed.

(** The entry read at the start of a poll. *)
Lemma poll_gone code cid ip ua dn (w : World) :
  get_text (device_key (device_hash_encoded code)) (w_redis w) (w_wall w) = None ->
  exists e, (poll code cid ip ua dn w).2 = Err e.
Proof.
  intros Hn. destruct (poll code cid ip ua dn w) as [w' [tokens|e]] eqn:R; [|by exists e]. exfalso.
  unfold poll, redis_internal in R. unbind R x w1 R1. apply map_err_Ok, redis_conn_Ok in R1 as ->.
  unbind R o w2 R2. apply map_err_Ok, redis_cmd_Ok in R2 as [E2 _]. injection E2 as _ <-.
  unbind R raw w3 R3. read_run R3. discriminate (eq_trans (eq_sym Hn) R3).
Qed.

Lemma poll_Ok code cid ip ua dn (w w' : World) tokens :
  poll code cid ip ua dn w = (w', Ok tokens) -> exists entry uid, polled code cid w w' entry uid tokens.
Proof.
  unfold poll, redis_internal. set (dk := device_key (device_hash_encoded code)). intros R.
  unbind R x w1 R1. apply map_err_Ok, redis_conn_Ok in R1 as ->.
  unbind R o w2 R2. apply map_err_Ok, redis_cmd_Ok in R2 as [E2 S2]. injection E2 as E2 <-.
  unbind R raw w3 R3. read_run R3. unbind R flow w4 R4. read_run R4.
  case_bool_decide as Hc; [|by apply fail_Ok in R]. cbn [negb] in R.
  destruct (poll_outcome _ _ _) as [| |uid cid'| |] eqn:Ep.
  { unfold poll_paced in R. unbind R b w5 R5. destruct b; by apply fail_Ok in R. }
  { unbind R y w5 R5. unbind R z w6 R6. by apply fail_Ok in R. }
  2,3: by apply fail_Ok in R.
  destruct (ds_status flow) eqn:Es, (ds_user_id flow) as [v|] eqn:Eu, (ds_client_id flow) as [c|] eqn:Ec;
    try discriminate Ep. injection Ep as -> ->. apply (inj Some) in Hc as ->.
  unbind R y w5 R5. apply poll_checks_Ok in R5 as (_ & S5 & Hus & client & Hcl & Hid & Hq).
  assert (same_db w w2) as S02 by (destruct S2 as [? []]; by repeat split).
  assert (same_db w w5) as S05 by (eapply frame_trans; [exact S02|exact S5]).
  unbind R z w6 R6. apply claim_entry_Ok in R6 as [S6 Hgone]; [|apply device_not_uc].
  unbind R tk w7 R7. pose proof (issue_tokens_run _ _ _ _ _ _ _ _ _ _ _ _ R7) as [[[e [=]] _]|(row & Hop & Ht)].
  destruct (Ht tk eq_refl) as [Hrow _].
  assert (redis_kept w6 w7) as [K7 _] by (eapply keeps_run, R7; tables_auto).
  assert (same_db w w6) as [D6 [N6 W6]] by (eapply frame_trans; [exact S05|exact S6]).
  destruct S02 as [D2 [N2 W2]]. destruct Hop as [Htab Hfresh _ _ _ _ Hlive Hfor _ _ _]. rewrite D6 in Htab, Hfresh.
  assert (redis_kept w7 w' /\ t_sessions (w_db w') =
    <[s_id (at_session tokens) := at_session tokens]> (t_sessions (w_db w)) /\
    at_session tokens = from_option (fun t => set_auth_time_row t row) row (ds_auth_time flow ≫= from_unix_timestamp))
    as ([K' _] & Htab' & Hses).
  { destruct (ds_auth_time flow ≫= from_unix_timestamp) as [t|].
    - unbind R a w8 R8. assert (redis_kept w7 w8) as K8 by (eapply keeps_run, R8; unfold internal; frame_auto).
      apply map_err_Ok, tx_run_Ok in R8 as [_ [D8 _]].
      unbind R b w9 R9. assert (redis_kept w8 w9) as K9 by (eapply keeps_run, R9; unfold internal, tx_commit; frame_auto).
      apply map_err_Ok in R9. unfold tx_commit in R9. apply execute_Ok in R9 as [Hx _]. injection Hx as Hx.
      apply ret_Ok in R as [-> ->]. split; [by eapply frame_trans|]. cbn. rewrite Hrow. split; [|done].
      rewrite <- Hx. cbn. by rewrite D8, Htab, Hrow, alter_insert_eq.
    - unbind R b w9 R9. assert (redis_kept w7 w9) as K9 by (eapply keeps_run, R9; unfold internal, tx_commit; frame_auto).
      apply map_err_Ok in R9. unfold tx_commit in R9. apply execute_Ok in R9 as [Hx _]. injection Hx as Hx.
      apply ret_Ok in R as [-> ->]. split; [done|]. cbn. rewrite Hrow. split; [|done]. by rewrite <- Hx, Htab. }
  exists flow, uid. split.
  - change (get_text dk (w_redis w) (w_wall w) ≫= from_json_text = Some flow). rewrite (R3 : get_text dk (w_redis w) (w_wall w) = Some raw). exact R4.
  - done.
  - destruct Hus as (r & Hr & Hu). exists r. by rewrite <- D2.
  - exists client. rewrite D2 in Hcl. split_and!; [done..|]. unfold limit_for, sessions_for in *. by rewrite <- D2, <- W2.
  - split; [|done]. rewrite Hses. by destruct (ds_auth_time flow ≫= from_unix_timestamp).
  - rewrite Hses. destruct (ds_auth_time flow ≫= from_unix_timestamp); cbn; naive_solver.
  - intros t Ht'. by rewrite Hses, Ht'.
  - by rewrite K', K7.
Qed.

(** C28: A device obtains tokens only on an entry its client opened and a user
    approved: the account is usable, below the client's session limit (or the
    client's default, for the instance's own application), and the one session
    opened is that user's device session for that client, with the scopes of
    the approval, its proof of the password and no second factor.  The entry is
    then gone: no later poll succeeds, nor does one that had read it already and
    stands before its claim. *)
Theorem device_poll_sound code cid ip ua dn (w w' : World) tokens :
  poll code cid ip ua dn w = (w', Ok tokens) ->
  (exists entry uid, polled code cid w w' entry uid tokens) /\
  forall w2, w_redis w2 = w_redis w' ->
    (forall cid' ip' ua' dn', exists e, (poll code cid' ip' ua' dn' w2).2 = Err e) /\
    (forall user_code, exists e, (claim_entry (device_key (device_hash_encoded code)) user_code w2).2 = Err e).
Proof.
  intros R. apply poll_Ok in R as (flow & uid & Hp). split; [by exists flow, uid|].
  intros w2 Hw2. pose proof (pl_taken _ _ _ _ _ _ _ Hp) as Hd. rewrite <- Hw2 in Hd. split.
  - intros. apply poll_gone. unfold get_text, r_get. by rewrite Hd.
  - intros. by apply claim_taken.
Qed.
End Poll.

(** * Opening a flow *)

Section Opening.
Context `{RedisServer} `{Env} `{TimeCrate} `{CryptoCrates} `{SqlText} `{IpNetworkCrate} `{!Jwt}.
Context `{Passwords} `{UrlCrate} `{!Serde DeviceAuthState}.

(** The code the generator gives from its [n]th draw on. *)
Definition drawn_pick (n : nat) (alphabet : str) : Z := nth (draw_pick n mod length alphabet)%nat alphabet 0.
Definition drawn_code (n : nat) : str :=
  map (fun i => drawn_pick (i + n)%nat LETTERS) [0; 1; 2; 3]%nat ++ u"-" ++
  map (fun i => drawn_pick (i + n)%nat DIGITS) [4; 5; 6; 7]%nat.

Lemma pick_run {E} alphabet (w : World) :
  (pick alphabet : M E Z) w = (bump_draws w, Ok (drawn_pick (w_draws w) alphabet)).
Proof. reflexivity. Qed.

Lemma generate_user_code_run {E} (w : World) :
  (generate_user_code : M E str) w = (Nat.iter 8 bump_draws w, Ok (drawn_code (w_draws w))).
Proof.
  unfold generate_user_code, drawn_code. generalize LETTERS DIGITS. intros letters digits.
  cbn [picks]. unfold mbind, M_bind. rewrite !pick_run. cbn -[drawn_pick]. by rewrite !pick_run.
Qed.

Lemma drawn_pick_elem n alphabet : alphabet <> [] -> drawn_pick n alphabet ∈ alphabet.
Proof.
  intros Ha. apply list_elem_of_In, nth_In, Nat.mod_upper_bound. by destruct alphabet.
Qed.

(** Eight unambiguous characters around a dash. *)
Definition code_form (code : str) : Prop :=
  exists part1 part2, code = part1 ++ u"-" ++ part2 /\ length part1 = 4%nat /\ length part2 = 4%nat /\
    Forall (fun c => c ∈ LETTERS) part1 /\ Forall (fun c => c ∈ DIGITS) part2.

Lemma drawn_code_form n : code_form (drawn_code n).
Proof.
  eexists _, _. split_and!; [reflexivity|done|done|..];
    repeat (apply Forall_cons; split; [by apply drawn_pick_elem|]); apply Forall_nil_2.
Qed.

(** What a reservation in the middle of its attempts comes to. *)
Lemma reserve_loop_run n hash ttl (w w' : World) r :
  reserve_loop n hash ttl generate_user_code w = (w', r) ->
  same_db w w' /\ (w_io w' <= w_io w + n)%nat /\ (w_draws w' <= w_draws w + 8 * n)%nat /\
  (forall k e, live (w_wall w) (dump (w_redis w) k) = Some e -> dump (w_redis w') k = dump (w_redis w) k) /\
  (forall code, r = Ok code -> code_form code /\ live (w_wall w) (dump (w_redis w) (uc_key code)) = None /\
     dump (w_redis w') (uc_key code) = Some (Entry (RStr hash) (Some (w_wall w + ttl * NS)))) /\
  (all_answered -> forall e, r = Err e -> e = Internal /\
     forall i, (i < n)%nat -> is_Some (live (w_wall w) (dump (w_redis w) (uc_key (drawn_code (w_draws w + 8 * i)))))).
Proof.
  revert w. induction n as [|n IH]; intros w R.
  { injection R as <- <-. split_and!; try done; try lia. intros _ e [= <-]. split; [done|lia]. }
  cbn [reserve_loop] in R. rewrite (bind_step _ _ _ _ _ (generate_user_code_run w)) in R.
  pose proof (drawn_code_form (w_draws w)) as Hform.
  pose proof (eq_refl : (8 + w_draws w)%nat = w_draws (Nat.iter 8 bump_draws w)) as Hdraws.
  assert (w_db (Nat.iter 8 bump_draws w) = w_db w /\ w_redis (Nat.iter 8 bump_draws w) = w_redis w /\
    w_now (Nat.iter 8 bump_draws w) = w_now w /\ w_wall (Nat.iter 8 bump_draws w) = w_wall w /\
    w_io (Nat.iter 8 bump_draws w) = w_io w) as (A1 & A2 & A3 & A4 & A5) by done.
  assert (forall i, drawn_code (8 + w_draws w + 8 * i) = drawn_code (w_draws w + 8 * S i)) as Hshift
    by (intros i; f_equal; lia).
  revert Hdraws A1 A2 A3 A4 A5 R. generalize (Nat.iter 8 bump_draws w) as w1. intros w1 Hd A1 A2 A3 A4 A5 R.
  destruct (live (w_wall w) (dump (w_redis w) (uc_key (drawn_code (w_draws w))))) as [e0|] eqn:Elive.
  - (* taken: nothing changes *)
    unfold redis_internal, map_err, redis_cmd, io, mbind, M_bind, r_set_nx_ex, r_exists in R.
    change (w_redis (bump_io w1)) with (w_redis w1) in R. change (w_wall (bump_io w1)) with (w_wall w1) in R.
    rewrite A2, A4, Elive in R. cbn -[uc_key reserve_loop] in R.
    destruct (io_plan (w_io w1)) eqn:Ep.
    + apply IH in R.
      assert (w_db (with_redis (w_redis w) (bump_io w1)) = w_db w /\ w_redis (with_redis (w_redis w) (bump_io w1)) = w_redis w /\
        w_now (with_redis (w_redis w) (bump_io w1)) = w_now w /\ w_wall (with_redis (w_redis w) (bump_io w1)) = w_wall w /\
        w_io (with_redis (w_redis w) (bump_io w1)) = S (w_io w) /\
        w_draws (with_redis (w_redis w) (bump_io w1)) = (8 + w_draws w)%nat) as (B1 & B2 & B3 & B4 & B5 & B6)
        by (cbn; by rewrite A5).
      unfold same_db, same_clocks in R. rewrite B1, B2, B3, B4, B5, B6 in R.
      destruct R as (S' & Hio & Hdr & Hkeep & Hok & Herr).
      split_and!; try lia; try done.
      intros Ha e ->. destruct (Herr Ha e eq_refl) as [-> Hi]. split; [done|]. intros i Hlt.
      destruct i as [|i]; [rewrite Nat.mul_0_r, Nat.add_0_r, Elive; by eexists|].
      rewrite <- Hshift. apply Hi. lia.
    + injection R as <- <-. cbn -[uc_key]. rewrite A2. split_and!; try lia; try done.
      intros Ha. by rewrite Ha in Ep.
    + injection R as <- <-. cbn -[uc_key]. split_and!; try lia; try done.
      intros Ha. by rewrite Ha in Ep.
  - unfold redis_internal, map_err, redis_cmd, io, mbind, M_bind, r_set_nx_ex, r_exists in R.
    change (w_redis (bump_io w1)) with (w_redis w1) in R. change (w_wall (bump_io w1)) with (w_wall w1) in R.
    rewrite A2, A4, Elive in R. cbn -[uc_key reserve_loop] in R.
    assert (forall k e, live (w_wall w) (dump (w_redis w) k) = Some e ->
      dump (r_set_ex (w_redis w) (w_wall w) (uc_key (drawn_code (w_draws w))) (RStr hash) ttl) k = dump (w_redis w) k) as Hk.
    { intros k e He. rewrite dump_set_ex, upd_ne; [done|]. intros ->. by rewrite Elive in He. }
    destruct (io_plan (w_io w1)) eqn:Ep; injection R as <- <-; cbn -[uc_key].
    + split_and!; try lia; try done.
      intros code [= <-]. by rewrite dump_set_ex, upd_eq.
    + rewrite A2. split_and!; try lia; try done. intros Ha. by rewrite Ha in Ep.
    + split_and!; try lia; try done. intros Ha. by rewrite Ha in Ep.
Qed.

(** Reserving a user code ends: within five exchanges and forty draws,
    whatever is answered.  It never repoints a code in use (nor changes any live
    key); the code it returns is eight unambiguous characters, was free, and
    points at the flow for its lifetime; and if every exchange is answered, it
    gives up only when each of the five codes drawn was in use. *)
Theorem user_code_reservation hash ttl (w w' : World) r :
  reserve_user_code hash ttl generate_user_code w = (w', r) ->
  same_db w w' /\ (w_io w' <= w_io w + 5)%nat /\ (w_draws w' <= w_draws w + 40)%nat /\
  (forall k e, live (w_wall w) (dump (w_redis w) k) = Some e -> dump (w_redis w') k = dump (w_redis w) k) /\
  (forall code, r = Ok code -> code_form code /\ live (w_wall w) (dump (w_redis w) (uc_key code)) = None /\
     dump (w_redis w') (uc_key code) = Some (Entry (RStr hash) (Some (w_wall w + ttl * NS)))) /\
  (all_answered -> forall e, r = Err e -> e = Internal /\
     forall i, (i < 5)%nat -> is_Some (live (w_wall w) (dump (w_redis w) (uc_key (drawn_code (w_draws w + 8 * i)))))).
Proof. apply (reserve_loop_run 5). Qed.

Lemma uc_not_device hash code : uc_key code <> device_key hash.
Proof. intros E. symmetry in E. by apply device_not_uc in E. Qed.

(** A key written with a lifetime is read back at once. *)
Lemma get_text_entry k x t expiry (s : rstore) :
  dump s k = Some (Entry (RStr x) expiry) -> (forall e, expiry = Some e -> t < e) -> get_text k s t = Some x.
Proof.
  intros Hd He. unfold get_text, r_get, live, alive. rewrite Hd. cbn. destruct expiry as [e|]; [|done].
  by rewrite (proj2 (Z.ltb_lt _ _) (He e eq_refl)).
Qed.
End Opening.

(** * Keys left alone *)

Section Keys.
Context `{RedisServer} `{Env} `{TimeCrate} `{CryptoCrates} `{SqlText} `{IpNetworkCrate} `{!Jwt}.
Context `{Passwords} `{UrlCrate}.

(** The keys of a kind stay as they are. *)
Definition keys_kept (P : str -> Prop) (w w' : World) : Prop :=
  same_clocks w w' /\ forall k, P k -> dump (w_redis w') k = dump (w_redis w) k.

#[export] Instance keys_kept_frame P : CoreFrame (keys_kept P).
Proof.
  constructor; unfold keys_kept, same_clocks; try done. intros w1 w2 w3 [[? ?] K1] [[? ?] K2].
  split; [split; congruence|]. intros k Hk. by rewrite K2, K1.
Qed.

Lemma keeps_keys_execute P {A} (f : Db -> Z -> result (Db * A) SqlError) : keeps (keys_kept P) (execute f).
Proof. apply keeps_io. intros w. by destruct (f _ _) as [[]|]. Qed.

Lemma keeps_keys_cmd (P : str -> Prop) {A} (f : rstore -> Z -> rstore * A) :
  (forall s t k, P k -> dump (f s t).1 k = dump s k) -> keeps (keys_kept P) (redis_cmd f).
Proof.
  intros Hf. apply keeps_io. intros w. specialize (Hf (w_redis w) (w_wall w)).
  destruct (f _ _) as [s a]. by split.
Qed.

(** The keys of re-authentication all start alike. *)
Definition no_reauth_key (k : str) : Prop := forall rest, k <> u"reauth" ++ rest.

Lemma guard_keys_kept uid sid cur ip rid reason :
  keeps (keys_kept no_reauth_key) (require_recent_reauth_or_password uid sid cur ip rid reason).
Proof.
  assert (forall k, no_reauth_key k -> k <> session_reauth_fail_key uid sid /\ k <> reauth_fail_key uid /\
    k <> reauth_key sid) as Hne.
  { intros k Hk. split_and!; intros ->; (eapply Hk; reflexivity). }
  unfold require_recent_reauth_or_password, reauthenticate, verify_password, internal, user_find_by_id,
    consume_in_order, run, has_recent_reauth, record_reauth_event, audit_append, mark_recent_reauth, best_effort, reset, clock_now, internal.
  repeat first [frame_step | solve [auto with frame]
    | apply keeps_keys_execute | apply keeps_query
    | apply keeps_keys_cmd; intros s t k Hk; try reflexivity; destruct (Hne k Hk) as (K1 & K2 & K3)].
  - apply consume_until_other. cbn. rewrite !not_elem_of_cons. split_and!; [done|done|by apply not_elem_of_nil].
  - apply dump_del_all. rewrite !not_elem_of_cons. split_and!; [done|done|by apply not_elem_of_nil].
  - cbn -[reauth_key]. rewrite dump_set_ex. by apply upd_ne.
Qed.
End Keys.

(** * Deciding *)

Section Decision.
Context `{RedisServer} `{Env} `{TimeCrate} `{CryptoCrates} `{SqlText} `{IpNetworkCrate} `{!Jwt}.
Context `{Passwords} `{UrlCrate} `{!Serde DeviceAuthState}.

(** The flow a user code leads to. *)
Definition flow_of (user_code : str) (w : World) : option (str * DeviceAuthState) :=
  hash ← get_text (uc_key user_code) (w_redis w) (w_wall w);
  flow ← flow_at (device_key hash) w;
  Some (device_key hash, flow).

(** A code that leads to one has it under the key, as the text it was written. *)
Lemma live_entry_Ok code ip uid (w w' : World) dk raw flow :
  live_entry code ip uid w = (w', Ok (dk, raw, flow)) ->
  redis_kept w w' /\ same_db w w' /\ flow_of code w = Some (dk, flow) /\ (exists hash, dk = device_key hash) /\
  get_text dk (w_redis w) (w_wall w) = Some raw /\ from_json_text raw = Some flow.
Proof.
  unfold live_entry, guard_code_scan. intros R. unbind R x w1 R1.
  assert (forall keys w w' x, guard_keys keys w = (w', Ok x) -> redis_kept w w') as Hg.
  { clear. intros keys. induction keys as [|key keys IH]; intros w w' x R.
    - apply ret_Ok in R as [_ ->]. apply frame_refl.
    - cbn [guard_keys] in R. unbind R n w1 R1. case_match; [by apply fail_Ok in R|].
      assert (redis_kept w w1) as K1; [|eapply frame_trans; [exact K1|by eapply IH]].
      unfold peek in R1. unbind R1 y w2 R2. apply map_err_Ok, redis_conn_Ok in R2 as ->.
      apply map_err_Ok, redis_cmd_Ok in R1 as [E1 [_ C1]]. injection E1 as E1 _. split; [by rewrite <- E1|exact C1]. }
  apply Hg in R1 as K1. clear Hg.
  assert (same_db w w1) as S1.
  { assert (forall keys, keeps same_db (guard_keys keys)) as Hk
      by (intros keys; induction keys as [|key keys IH]; cbn [guard_keys]; [frame_auto|tables_auto; apply IH]).
    by eapply keeps_run, R1. }
  unbind R loaded w2 R2. destruct loaded as [[[dk' raw'] flow']|]; [|unbind R y w3 R3; by apply fail_Ok in R].
  apply ret_Ok in R as [[= -> -> ->] ->].
  assert (same_db w1 w2) as S2 by (eapply keeps_run, R2; tables_auto).
  unfold load_entry, redis_internal in R2. unbind R2 y w3 R3. apply map_err_Ok, redis_conn_Ok in R3 as ->.
  unbind R2 o w4 R4. apply map_err_Ok, redis_cmd_Ok in R4 as [E4 [_ C4]]. injection E4 as E4 <-.
  destruct (get_text (uc_key code) _ _) as [hash|] eqn:Eh; [|by apply ret_Ok in R2 as [[=] _]].
  unbind R2 o2 w5 R5. apply map_err_Ok, redis_cmd_Ok in R5 as [E5 [_ C5]]. injection E5 as E5 <-.
  destruct (get_text (device_key hash) _ _) as [raw''|] eqn:Er; [|by apply ret_Ok in R2 as [[=] _]].
  unbind R2 f w6 R6. read_run R6. apply ret_Ok in R2 as [[= -> -> ->] ->].
  destruct K1 as [K1 [N1 W1]], C4 as [N4 W4], C5 as [N5 W5].
  change (w_redis w1 = w_redis w4) in E4. change (w_wall w4 = w_wall w1) in W4. change (w_now w4 = w_now w1) in N4.
  change (get_text (uc_key code) (w_redis w1) (w_wall w1) = Some hash) in Eh. rewrite K1, W1 in Eh.
  rewrite <- E4, W4, K1, W1 in Er.
  split_and!; [split; [|split]; congruence|by eapply frame_trans| |by exists hash|done|done].
  unfold flow_of, flow_at. rewrite Eh. cbn -[device_key]. rewrite Er. cbn -[device_key]. by rewrite R6.
Qed.

Lemma compare_and_set_done k old new (s s' : rstore) t n :
  compare_and_set k old new s t = (s', n) -> n <> 0 ->
  get_text k s t = Some old /\
  (forall k', dump s' k' = upd (dump s) k (Some (Entry (RStr new) (exp_of (live t (dump s k))))) k').
Proof.
  unfold compare_and_set. case_bool_decide as Hg; intros [= <- <-] Hn; [|done]. split; [done|].
  intros k'. apply dump_set_keepttl.
Qed.

(** The entry a decision leaves: what it was, decided, for the time it had. *)
Lemma update_status_Ok code st uid ip at_ (w w' : World) flow' :
  update_status code st uid ip at_ w = (w', Ok flow') ->
  same_db w w' /\
  exists dk flow, flow_of code w = Some (dk, flow) /\ ds_status flow = Pending /\ (exists hash, dk = device_key hash) /\
    flow' = decided flow st uid (if bool_decide (st = Authorized) then consent (ds_scopes flow) (permissions_of uid (w_db w))
                                 else ds_scopes flow) at_ /\
    (forall k, dump (w_redis w') k =
       upd (dump (w_redis w)) dk (Some (Entry (RStr (to_json_text flow')) (exp_of (live (w_wall w) (dump (w_redis w) dk))))) k).
Proof.
  unfold update_status. intros R. unbind R found w1 R1. destruct found as [[dk raw] flow].
  apply live_entry_Ok in R1 as ([K1 _] & S1 & Hof & Hdk & Hraw & Hflow).
  destruct (is_undecided (ds_status flow)) eqn:Eu; [|by apply fail_Ok in R]. cbn [negb] in R.
  apply bool_decide_eq_true in Eu. unbind R scopes w2 R2.
  assert (redis_kept w1 w2) as [K2 _] by (eapply keeps_run, R2; unfold permission_names, internal; frame_auto).
  assert (same_db w1 w2) as S2 by (eapply keeps_run, R2; unfold permission_names, internal; frame_auto).
  assert (scopes = if bool_decide (st = Authorized) then consent (ds_scopes flow) (permissions_of uid (w_db w)) else ds_scopes flow) as ->.
  { destruct (bool_decide (st = Authorized)); cbn [andb] in R2; [|by apply ret_Ok in R2 as [-> _]].
    destruct (ds_scopes flow) as [l|] eqn:El.
    - rewrite bool_decide_true in R2 by done. unbind R2 held w3 R3. unfold permission_names, internal in R3. read_run R3.
      apply ret_Ok in R2 as [-> _]. by rewrite (proj1 S1).
    - rewrite bool_decide_false in R2 by (by intros [? [=]]). by apply ret_Ok in R2 as [-> _]. }
  unbind R y w3 R3. apply map_err_Ok, redis_conn_Ok in R3 as ->.
  unbind R n w4 R4. apply map_err_Ok, redis_cmd_Ok in R4 as [E4 S4].
  destruct (n =? 1) eqn:En; [|by apply fail_Ok in R]. apply Z.eqb_eq in En. apply ret_Ok in R as [-> ->].
  assert (same_db w w2) as S02 by (eapply frame_trans; [exact S1|exact S2]).
  assert (same_db w w4) as S04 by (eapply frame_trans; [exact S02|exact S4]).
  apply compare_and_set_done in E4 as [_ Hd]; [|lia].
  split; [done|]. exists dk, flow. split_and!; [done..|].
  intros k. rewrite Hd. change (w_redis (bump_io w2)) with (w_redis w2). change (w_wall (bump_io w2)) with (w_wall w2).
  by rewrite K2, K1, (proj2 (proj2 S02)).
Qed.

(** A live text rewritten for the time it had is read at once. *)
Lemma rewritten_flow_text {A} `{!Serde A} dk raw (x : A) (w w' : World) :
  get_text dk (w_redis w) (w_wall w) = Some raw -> w_wall w' = w_wall w ->
  dump (w_redis w') dk = Some (Entry (RStr (to_json_text x)) (exp_of (live (w_wall w) (dump (w_redis w) dk)))) ->
  get_text dk (w_redis w') (w_wall w') ≫= from_json_text = Some x.
Proof.
  intros Hraw Hw Hd. rewrite (get_text_entry dk (to_json_text x) _ _ _ Hd).
  - cbn. by rewrite serde_read_back.
  - intros e He. rewrite Hw. unfold get_text, r_get in Hraw.
    destruct (live (w_wall w) (dump (w_redis w) dk)) as [e0|] eqn:El; [|done].
    apply live_live in El as [El|(x' & Hx & Hlt)]; cbn in He; congruence.
Qed.

Lemma flow_of_Some code (w : World) dk flow :
  flow_of code w = Some (dk, flow) <-> exists hash, get_text (uc_key code) (w_redis w) (w_wall w) = Some hash /\
    dk = device_key hash /\ flow_at dk w = Some flow.
Proof.
  unfold flow_of. destruct (get_text _ _ _) as [hash|]; cbn -[device_key]; [|naive_solver].
  destruct (flow_at (device_key hash) w) as [f|] eqn:Ef; cbn -[device_key]; split.
  - intros [= <- <-]. by exists hash.
  - intros (h & [= <-] & -> & Hf). by rewrite Ef in Hf; simplify_eq.
  - done.
  - intros (h & [= <-] & -> & Hf). congruence.
Qed.

(** What a decision leaves behind. *)
Lemma decision_leaves code st uid ip at_ (w w' : World) flow' :
  update_status code st uid ip at_ w = (w', Ok flow') ->
  exists dk flow, flow_of code w = Some (dk, flow) /\ ds_status flow = Pending /\
    flow' = decided flow st uid (if bool_decide (st = Authorized) then consent (ds_scopes flow) (permissions_of uid (w_db w))
                                 else ds_scopes flow) at_ /\
    flow_of code w' = Some (dk, flow') /\
    exp_of (dump (w_redis w') dk) = exp_of (live (w_wall w) (dump (w_redis w) dk)).
Proof.
  intros R. apply update_status_Ok in R as ([_ [_ W]] & dk & flow & Hof & Hp & (hash & ->) & -> & Hd).
  exists (device_key hash), flow. split_and!; [done..| |by rewrite Hd, upd_eq].
  apply flow_of_Some in Hof as (hash' & Huc & Hdk & Hf). apply app_inv_head in Hdk as <-.
  apply flow_of_Some. exists hash. split_and!; [|done|].
  - unfold get_text, r_get. rewrite W, Hd, upd_ne by apply uc_not_device. exact Huc.
  - unfold flow_at in Hf. destruct (get_text (device_key hash) _ _) as [raw|] eqn:Er; [|done].
    eapply rewritten_flow_text; [exact Er|done|]. by rewrite Hd, upd_eq.
Qed.

(** Nothing decides a flow again. *)
Lemma decided_stays code st uid ip at_ (w : World) dk flow :
  flow_of code w = Some (dk, flow) -> ds_status flow <> Pending -> exists e, (update_status code st uid ip at_ w).2 = Err e.
Proof.
  intros Hof Hp. destruct (update_status code st uid ip at_ w) as [w' [flow'|e]] eqn:R; [|by exists e].
  apply update_status_Ok in R as (_ & dk' & flow1 & Hof' & Hp' & _). congruence.
Qed.
End Decision.

(** * Approving *)

Section Approving.
Context `{RedisServer} `{Env} `{TimeCrate} `{CryptoCrates} `{SqlText} `{IpNetworkCrate} `{!Jwt}.
Context `{Passwords} `{UrlCrate} `{!Serde DeviceAuthState}.

Lemma redis_kept_keys P (w w' : World) : redis_kept w w' -> keys_kept P w w'.
Proof. intros [K C]. split; [done|]. intros k _. by rewrite K. Qed.

Lemma flow_of_kept code (w w' : World) : keys_kept no_reauth_key w w' -> flow_of code w' = flow_of code w.
Proof.
  intros [[_ W] K]. unfold flow_of, flow_at, get_text, r_get.
  rewrite W, K by (intros rest E; discriminate E).
  destruct (live (w_wall w) (dump (w_redis w) (uc_key code))) as [[v x]|]; [|done]. cbn -[device_key].
  destruct v as [|hash| |]; try done. cbn -[device_key].
  by rewrite K by (intros rest E; discriminate E).
Qed.

(** What a successful approval comes to. *)
Record device_approved (ap : Device.Approval) (w w' : World) (dk : str) (flow flow' : DeviceAuthState) : Prop := {
  dv_pending : flow_of (da_user_code ap) w = Some (dk, flow) /\ ds_status flow = Pending;
  dv_proven : proven (da_user_id ap) (da_session_id ap) (da_current_password ap) w;
  dv_second_factor : forall client, ds_client_id flow = Some (c_client_id client) ->
    List.find (fun c => str_eqb (c_client_id c) (c_client_id client)) (t_clients (w_db w)) = Some client ->
    c_is_primary client = true -> factor_held (da_user_id ap) w = true ->
    exists s, t_sessions (w_db w) !! da_session_id ap = Some s /\ s_mfa s = true;
  dv_decided : exists auth_time, flow' = decided flow Authorized (da_user_id ap)
    (consent (ds_scopes flow) (permissions_of (da_user_id ap) (w_db w))) auth_time;
  dv_stored : flow_of (da_user_code ap) w' = Some (dk, flow');
  dv_lifetime : exp_of (dump (w_redis w') dk) = exp_of (live (w_wall w) (dump (w_redis w) dk));
  dv_traced : exists entry, last (t_audit_log (w_db w')) = Some entry /\ al_action entry = DeviceApproved /\
    al_user_id entry = Some (da_user_id ap);
}.

Lemma find_client_Ok cid (w w' : World) client :
  find_client cid w = (w', Ok client) -> redis_kept w w' /\ same_db w w' /\
  client = cid ≫= (fun cid => List.find (fun c => str_eqb (c_client_id c) cid) (t_clients (w_db w))).
Proof.
  intros R. split_and!; [eapply keeps_run, R; unfold find_client; tables_auto..|].
  unfold find_client, internal, client_find_by_id in R. destruct cid as [cid|]; [|by apply ret_Ok in R as [-> _]].
  by read_run R.
Qed.

Lemma reauth_reads sid (w w' : World) r : reauth_proven_at sid w = (w', r) -> keys_kept no_reauth_key w w' /\ same_db w w'.
Proof.
  intros R. split; [|eapply keeps_run, R; tables_auto]. eapply keeps_run, R. unfold reauth_proven_at.
  repeat first [frame_step | solve [auto with frame] | by apply keeps_keys_cmd].
Qed.

Lemma verify_Ok ap (w w' : World) x :
  verify ap w = (w', Ok x) -> exists dk flow flow', device_approved ap w w' dk flow flow'.
Proof.
  unfold verify. intros R. unbind R found w1 R1. destruct found as [[dk0 raw] flow0].
  apply live_entry_Ok in R1 as (K1 & S1 & Hof & _). cbn [snd] in R.
  unbind R client w2 R2. apply find_client_Ok in R2 as (K2 & S2 & Hcl).
  unbind R y w3 R3.
  assert (redis_kept w2 w3) as K3 by (eapply keeps_run, R3; unfold ensure_second_factor_for_primary; tables_auto).
  assert (same_db w2 w3 /\ forall c, client = Some c -> c_is_primary c = true -> factor_held (da_user_id ap) w2 = true ->
    exists s, t_sessions (w_db w2) !! da_session_id ap = Some s /\ s_mfa s = true) as [S3 Hsf].
  { destruct client as [c|]; [apply second_factor_proved in R3 as [S3 Hsf]|apply ret_Ok in R3 as [_ ->]].
    - split; [done|]. by intros c' [= <-].
    - split; [apply frame_refl|done]. }
  assert (same_db w w2) as S02 by (eapply frame_trans; [exact S1|exact S2]).
  assert (same_db w w3) as S03 by (eapply frame_trans; [exact S02|exact S3]).
  assert (redis_kept w w2) as K02 by (eapply frame_trans; [exact K1|exact K2]).
  assert (redis_kept w w3) as K03 by (eapply frame_trans; [exact K02|exact K3]).
  unbind R z w4 R4. pose proof (guard_proves _ _ _ _ _ _ _ _ _ R4) as Hp.
  assert (keys_kept no_reauth_key w3 w4) as K4 by (eapply keeps_run, R4; apply guard_keys_kept).
  assert (leaves [TUserRoles; TRolePermissions] w3 w4) as L4
    by (eapply keeps_run, R4; destruct (da_current_password ap); tables_auto).
  unbind R auth w5 R5. apply reauth_reads in R5 as [K5 S5].
  unbind R flow' w6 R6. apply decision_leaves in R6 as Hd.
  destruct Hd as (dk & flow & Hof5 & Hpend & Hdec & Hst & Hexp).
  assert (keys_kept no_reauth_key w w5) as K05.
  { eapply frame_trans; [apply redis_kept_keys, K03|]. eapply frame_trans; [exact K4|exact K5]. }
  rewrite (flow_of_kept _ _ _ K05) in Hof5. rewrite Hof in Hof5. injection Hof5 as -> ->.
  assert (redis_kept w6 w') as K6 by (eapply keeps_run, R; unfold audit_append, internal; frame_auto).
  assert (exists hash, dk = device_key hash) as [hash ->] by (apply flow_of_Some in Hof as (h & _ & -> & _); by exists h).
  assert (permissions_of (da_user_id ap) (w_db w5) = permissions_of (da_user_id ap) (w_db w)) as Hperm.
  { destruct L4 as [L4 _]. rewrite (proj1 S5). unfold permissions_of, roles_of.
    rewrite (L4 TUserRoles), (L4 TRolePermissions) by listed. by rewrite (proj1 S03). }
  rewrite Hperm in Hdec.
  unfold internal, audit_append in R. read_run R. destruct R as [R _]. injection R as R _.
  exists (device_key hash), flow, flow'. split.
  - done.
  - destruct K03 as [K03 [_ W03]], S03 as [D03 _]. unfold proven in *. by rewrite K03, W03, D03 in Hp.
  - intros c Hid Hfind Hprim Hfac. rewrite Hid in Hcl. cbn in Hcl. rewrite (proj1 S1), Hfind in Hcl.
    destruct (Hsf c Hcl Hprim) as (s & Hs & Hm); [unfold factor_held in *; by rewrite (proj1 S02)|].
    exists s. by rewrite (proj1 S02) in Hs.
  - by exists auth.
  - by rewrite (flow_of_kept _ _ _ (redis_kept_keys _ _ _ K6)).
  - rewrite (proj1 K6), Hexp. destruct K05 as [[_ W5] K05]. by rewrite W5, K05 by (intros rest E; discriminate E).
  - eexists. rewrite <- R. cbn. unfold logged. rewrite last_snoc. done.
Qed.

(** Without a proof of the password the tables stay as they are. *)
Lemma verify_refused ap (w : World) :
  unproven (da_user_id ap) (da_session_id ap) (da_current_password ap) w -> refused (verify ap) w.
Proof.
  intros Hw. unfold verify. apply refused_then; [tables_auto|]. intros [[dk raw] flow] w1 R1.
  apply live_entry_Ok in R1 as ([K1 _] & [D1 [_ W1]] & _).
  eapply unproven_kept in Hw; [|exact D1|exact W1|by rewrite K1].
  apply refused_then; [tables_auto|]. intros client w2 R2. apply find_client_Ok in R2 as ([K2 _] & [D2 [_ W2]] & _).
  eapply unproven_kept in Hw; [|exact D2|exact W2|by rewrite K2].
  apply refused_then; [destruct client; tables_auto|]. intros y w3 R3.
  assert (redis_kept w2 w3) as [K3 [_ W3]] by (eapply keeps_run, R3; destruct client; tables_auto).
  assert (w_db w3 = w_db w2) as D3 by (eapply same_db_run, R3; destruct client; tables_auto).
  eapply unproven_kept in Hw; [|exact D3|exact W3|by rewrite K3].
  by apply refused_first, guard_refuses.
Qed.

(** A device is let in only by a user who proves the password, recently or
    with the request, and, when the client is the instance's own application
    and the account has a second factor, from a session that proved one.  The
    flow was undecided; it becomes the user's, with what was asked for as far
    as the user held it then, for the time it had left, and the approval is
    traced.  From then on neither an approval nor a refusal, by anyone, changes
    the decision. *)
Theorem device_approval_sound ap (w w' : World) x :
  verify ap w = (w', Ok x) ->
  exists dk flow flow', device_approved ap w w' dk flow flow' /\
  forall w2 st uid ip at_, flow_of (da_user_code ap) w2 = flow_of (da_user_code ap) w' ->
    exists e, (update_status (da_user_code ap) st uid ip at_ w2).2 = Err e.
Proof.
  intros R. apply verify_Ok in R as (dk & flow & flow' & Hv). exists dk, flow, flow'. split; [done|].
  intros w2 st uid ip at_ Hf. rewrite (dv_stored _ _ _ _ _ _ Hv) in Hf. eapply decided_stays; [exact Hf|].
  destruct (dv_decided _ _ _ _ _ _ Hv) as [auth ->]. done.
Qed.

(** ** Opening *)

Definition opened_flow (now : Z) (client_ip : option IpNetwork) (ua : option str) (client : RegisteredClient)
    (scopes : option (list str)) (code : str) : DeviceAuthState :=
  {| ds_user_code := code; ds_status := Pending; ds_user_id := None; ds_client_id := Some (c_client_id client);
     ds_client_ip := (fun ip => IpText.ip_text (net_ip ip)) <$> client_ip; ds_user_agent := ua;
     ds_created_at := unix_timestamp now; ds_scopes := scopes; ds_auth_time := None |}.

(** A flow opened is found by the code handed out: the user code was free
    and leads to the pending entry of that client and device, under the digest
    of the device code, for the configured lifetime. *)
Theorem device_flow_opens client_ip ua client scopes (w w' : World) res :
  initiate client_ip ua client scopes w = (w', Ok res) -> 0 < device_ttl_secs (cfg_device_auth config) ->
  live (w_wall w) (dump (w_redis w) (uc_key (di_user_code res))) = None /\
  flow_of (di_user_code res) w' =
    Some (device_key (device_hash_encoded (di_device_code res)),
          opened_flow (w_now w) client_ip ua client scopes (di_user_code res)) /\
  exp_of (dump (w_redis w') (device_key (device_hash_encoded (di_device_code res)))) =
    Some (w_wall w + device_ttl_secs (cfg_device_auth config) * NS).
Proof.
  unfold initiate, redis_internal. intros R Httl. unbind R code w1 R1. injection R1 as <- <-.
  set (h := device_hash_encoded (draw_token (w_draws w))) in *.
  unbind R y w2 R2. apply map_err_Ok, redis_conn_Ok in R2 as ->.
  unbind R uc w3 R3. apply (reserve_loop_run 5) in R3 as ([_ [N3 W3]] & _ & _ & _ & Hok & _).
  destruct (Hok uc eq_refl) as (_ & Hfree & Hd). cbn -[uc_key] in Hfree, Hd, N3, W3.
  unbind R now w4 R4. unfold clock_now in R4. read_run R4. unbind R z w5 R5. apply map_err_Ok, redis_cmd_Ok in R5 as [E5 [_ [N5 W5]]].
  injection E5 as E5. apply ret_Ok in R as [-> ->]. cbn [di_user_code di_device_code]. fold h.
  assert (forall e, Some (w_wall w + device_ttl_secs (cfg_device_auth config) * NS) = Some e -> w_wall w5 < e) as Hlt.
  { intros e [= <-]. rewrite W5, W3. unfold NS. lia. }
  split_and!; [done| |by rewrite <- E5, dump_set_ex, upd_eq, W3].
  apply flow_of_Some. exists h. split_and!; [|done|].
  - eapply get_text_entry; [|exact Hlt]. by rewrite <- E5, dump_set_ex, upd_ne by apply uc_not_device.
  - unfold flow_at. erewrite get_text_entry; [|by rewrite <- E5, dump_set_ex, upd_eq|].
    + cbn [mbind option_bind]. rewrite serde_read_back. unfold opened_flow. by rewrite N3.
    + rewrite W3. exact Hlt.
Qed.
End Approving.

(** * Witnesses *)

Section Witnesses.
Import Scenario.Run Office.Office.
#[local] Existing Instance calm.

(** [app] asks from a device, the administrator approves from session 2, the
    device polls. *)
Definition init_run := initiate None (Some u"tv/1.0") app (Some [u"posts:write"]) partners.
Definition init_codes : str * str :=
  match init_run.2 with Ok r => (di_device_code r, di_user_code r) | Err _ => ([], []) end.
Definition device_approval : Device.Approval :=
  {| da_user_id := 7%N; da_session_id := 2%N; da_user_code := init_codes.2; da_current_password := None;
     da_ip := None; da_request_id := None |}.
Definition verify_run := verify device_approval init_run.1.
Definition poll_run := poll init_codes.1 u"app" None None None verify_run.1.

Definition reserve_run := reserve_user_code u"h" 300 generate_user_code partners.
Definition reserved_code : str := match reserve_run.2 with Ok c => c | Err _ => [] end.

Lemma user_code_reservation_witness :
  reserved_code = u"ABCD-6789" /\
  dump (w_redis reserve_run.1) (uc_key reserved_code) = Some (Entry (RStr u"h") (Some (w_wall partners + 300 * NS))).
Proof.
  split; [vm_compute; reflexivity|].
  assert (reserve_user_code u"h" 300 generate_user_code partners = (reserve_run.1, Ok reserved_code)) as R by (apply run_answer; vm_compute; reflexivity).
  destruct (user_code_reservation u"h" 300 partners reserve_run.1 (Ok reserved_code) R) as (_ & _ & _ & _ & Hok & _).
  destruct (Hok reserved_code eq_refl) as (_ & _ & Hd). exact Hd.
Defined.

Lemma device_flow_opens_witness :
  init_codes.2 = u"BCDE-7892" /\
  exists dk, flow_of init_codes.2 init_run.1 =
    Some (dk, opened_flow (20 * NS) None (Some u"tv/1.0") app (Some [u"posts:write"]) init_codes.2).
Proof.
  split; [vm_compute; reflexivity|].
  assert (exists res, init_run.2 = Ok res /\ initiate None (Some u"tv/1.0") app (Some [u"posts:write"]) partners = (init_run.1, Ok res) /\ di_user_code res = init_codes.2)
    as (res & _ & R & Hc).
  { eexists. split; [vm_compute; reflexivity|]. split; [apply run_answer; vm_compute; reflexivity|vm_compute; reflexivity]. }
  destruct (device_flow_opens None (Some u"tv/1.0") app (Some [u"posts:write"]) partners init_run.1 res R
              ltac:(vm_compute; reflexivity)) as (_ & Hf & _).
  eexists. rewrite <- Hc. exact Hf.
Defined.

Lemma device_approval_sound_witness :
  exists dk flow flow', device_approved device_approval init_run.1 verify_run.1 dk flow flow'.
Proof.
  assert (verify device_approval init_run.1 = (verify_run.1, Ok tt)) as R by (apply run_answer; vm_compute; reflexivity).
  destruct (device_approval_sound device_approval init_run.1 verify_run.1 tt R) as (dk & flow & flow' & Hv & _).
  exists dk, flow, flow'. exact Hv.
Defined.

Lemma device_poll_sound_witness :
  exists tokens flow, polled init_codes.1 u"app" verify_run.1 poll_run.1 flow 7%N tokens.
Proof.
  assert (exists tokens, poll_run.2 = Ok tokens /\ poll init_codes.1 u"app" None None None verify_run.1 = (poll_run.1, Ok tokens) /\ s_user_id (at_session tokens) = 7%N)
    as (tokens & _ & R & Hu).
  { eexists. split; [vm_compute; reflexivity|]. split; [apply run_answer; vm_compute; reflexivity|vm_compute; reflexivity]. }
  destruct (device_poll_sound init_codes.1 u"app" None None None verify_run.1 poll_run.1 tokens R) as ((flow & uid & Hp) & _).
  exists tokens, flow. destruct (pl_for _ _ _ _ _ _ _ Hp) as [E _]. rewrite Hu in E. subst uid. exact Hp.
Defined.
End Witnesses.
