(* ===== verification/Passkeys.v ===== *)
(** Passkeys: the verification of WebAuthn ceremonies (src/src/domain/
    webauthn.rs) and the service that registers passkeys and signs in with them
    (src/src/services/passkey.rs).  CBOR, JSON client data and the three
    signature schemes are interfaces. *)
From S2P Require Import Prelude Crates Codec Session Account OAuthDomain Network Edge Crypto Tables App Outside RedisCounter SessionRepo Repos Tokens UserRepo AccessRepo TokenRepo Refresh Login SecondFactor OneTime SelfService Factors DeviceFlow.
Import Account.User Account.Audit.

(** * Ceremonies (domain/webauthn.rs) *)

Module Webauthn.

Definition ALG_ES256 : Z := -7.
Definition ALG_EDDSA : Z := -8.
Definition ALG_RS256 : Z := -257.

Definition ALGORITHMS : list Z := [ALG_ES256; ALG_EDDSA; ALG_RS256].

Definition FLAG_USER_PRESENT : Z := 0x01.
Definition FLAG_USER_VERIFIED : Z := 0x04.
Definition FLAG_BACKUP_ELIGIBLE : Z := 0x08.
Definition FLAG_BACKED_UP : Z := 0x10.
Definition FLAG_ATTESTED : Z := 0x40.
Definition FLAG_EXTENSIONS : Z := 0x80.

(** [clientDataJSON], the part that is checked. *)
Record ClientData := {
  cl_kind : str;
  cl_challenge : str;
  cl_origin : str;
  cl_cross_origin : bool;
}.

(** [ciborium::Value], the variants the code looks at. *)
Inductive cbor :=
| CInteger (n : Z)
| CBytes (b : bytes)
| CText (s : str)
| CMap (entries : list (cbor * cbor))
| COther.

Class WebauthnCrates := {
  (** [serde_json::from_slice::<ClientData>]. *)
  client_data_of : bytes -> option ClientData;
  (** [ciborium::de::from_reader]: the item at the start and where it ends. *)
  cbor_read : bytes -> option (cbor * nat);
  (** One item is read, whatever follows it. *)
  cbor_read_within : forall b v n, cbor_read b = Some (v, n) -> (n <= length b)%nat;
  cbor_read_prefix : forall b v rest,
    cbor_read b = Some (v, length b) -> cbor_read (b ++ rest) = Some (v, length b);
  cbor_read_taken : forall b v n, cbor_read b = Some (v, n) -> cbor_read (take n b) = Some (v, n);
  (** [VerifyingKey::from_sec1_bytes], [Signature::from_der] and [verify]. *)
  p256_verify : bytes -> bytes -> bytes -> bool;
  (** [from_ed_components] or [from_rsa_raw_components] and
      [jsonwebtoken::crypto::verify]; [None] is an error. *)
  ed25519_verify : str -> str -> bytes -> option bool;
  rs256_verify : bytes -> bytes -> str -> bytes -> option bool;
}.

Record AttestedCredential := {
  aaguid : bytes;
  credential_id : bytes;
  public_key : bytes;
}.

Record AuthenticatorData := {
  rp_id_hash : bytes;
  flags : Z;
  sign_count : Z;
  attested : option AttestedCredential;
}.

Definition has_flag (flags flag : Z) : bool := negb (Z.land flags flag =? 0).

Definition user_present (self : AuthenticatorData) : bool := has_flag (flags self) FLAG_USER_PRESENT.
Definition user_verified (self : AuthenticatorData) : bool := has_flag (flags self) FLAG_USER_VERIFIED.
Definition backup_eligible (self : AuthenticatorData) : bool := has_flag (flags self) FLAG_BACKUP_ELIGIBLE.
Definition backed_up (self : AuthenticatorData) : bool := has_flag (flags self) FLAG_BACKED_UP.

Inductive CoseKey :=
| Es256 (x y : bytes)
| EdDsa (x : bytes)
| Rs256 (n e : bytes).

Definition algorithm (self : CoseKey) : Z :=
  match self with Es256 _ _ => ALG_ES256 | EdDsa _ => ALG_EDDSA | Rs256 _ _ => ALG_RS256 end.

(** [u16::from_be_bytes], [u32::from_be_bytes], [Uuid::from_bytes]. *)
Definition from_be_bytes (b : bytes) : Z := foldl (fun acc x => 256 * acc + x) 0 b.
Definition uuid_from_bytes (b : bytes) : Uuid := Z.to_N (from_be_bytes b).

(** [iter().find_map(f)] *)
Definition find_map {A B} (f : A -> option B) (l : list A) : option B := List.hd_error (omap f l).

Definition counter_regressed (stored presented : Z) : bool :=
  (negb (stored =? 0) || negb (presented =? 0)) && (presented <=? stored).

Section Ceremony.
Context `{CryptoCrates} `{WebauthnCrates}.

Definition check_client_data (json : bytes) (kind : str) (challenge : bytes) (origins : list str) :
    result ClientData str :=
  match client_data_of json with
  | None => Err u"malformed client data"
  | Some data =>
      if negb (str_eqb (cl_kind data) kind) then Err u"wrong ceremony type"
      else if negb (bool_decide (b64url_decode (cl_challenge data) = Some challenge)) then Err u"challenge mismatch"
      else if negb (contains origins (cl_origin data)) then Err u"origin not allowed"
      else if cl_cross_origin data then Err u"cross-origin ceremony"
      else Ok data
  end.

Definition challenge_of (json : bytes) : result bytes str :=
  match client_data_of json with
  | None => Err u"malformed client data"
  | Some data =>
      match b64url_decode (cl_challenge data) with
      | Some challenge => Ok challenge
      | None => Err u"malformed challenge"
      end
  end.

Definition check (self : AuthenticatorData) (rp_id : str) : result unit str :=
  if negb (bool_decide (rp_id_hash self = sha256 (as_bytes rp_id))) then Err u"relying party mismatch"
  else if negb (user_present self) then Err u"user not present"
  else if negb (user_verified self) then Err u"user not verified"
  else Ok tt.

Definition cbor_item_len (b : bytes) : result nat str :=
  match cbor_read b with Some (_, n) => Ok n | None => Err u"malformed CBOR" end.

(** The credential and what follows it. *)
Definition parse_attested (rest : bytes) : result (AttestedCredential * bytes) str :=
  if (length rest <? 18)%nat then Err u"attested credential data too short"
  else
    let aaguid := take 16 rest in
    let id_len := Z.to_nat (from_be_bytes (take 2 (drop 16 rest))) in
    let rest := drop 18 rest in
    if (id_len =? 0)%nat || (1023 <? id_len)%nat || (length rest <? id_len)%nat
    then Err u"malformed credential id"
    else
      let credential_id := take id_len rest in
      let rest := drop id_len rest in
      match cbor_item_len rest with
      | Err e => Err e
      | Ok key_len =>
          Ok ({| aaguid := aaguid; credential_id := credential_id; public_key := take key_len rest |},
              drop key_len rest)
      end.

Definition parse_authenticator_data (b : bytes) : result AuthenticatorData str :=
  if (length b <? 37)%nat then Err u"authenticator data too short"
  else
    let rp_id_hash := take 32 b in
    let flags := default 0 (b !! 32%nat) in
    let sign_count := from_be_bytes (take 4 (drop 33 b)) in
    let rest := drop 37 b in
    match (if has_flag flags FLAG_ATTESTED
           then match parse_attested rest with
                | Ok (credential, rest) => Ok (Some credential, rest)
                | Err e => Err e
                end
           else Ok (None, rest)) with
    | Err e => Err e
    | Ok (attested, rest) =>
        match (if has_flag flags FLAG_EXTENSIONS
               then match cbor_item_len rest with Ok len => Ok (drop len rest) | Err e => Err e end
               else Ok rest) with
        | Err e => Err e
        | Ok [] => Ok {| rp_id_hash := rp_id_hash; flags := flags; sign_count := sign_count; attested := attested |}
        | Ok (_ :: _) => Err u"trailing bytes in authenticator data"
        end
    end.

Definition attestation_auth_data (attestation_object : bytes) : result bytes str :=
  match cbor_read attestation_object with
  | Some (CMap entries, _) =>
      match find_map (fun x => match x with
                               | (CText key, CBytes data) => if str_eqb key u"authData" then Some data else None
                               | _ => None
                               end) entries with
      | Some data => Ok data
      | None => Err u"attestation object without authData"
      end
  | _ => Err u"malformed attestation object"
  end.

Definition int_at (entries : list (cbor * cbor)) (label : Z) : option Z :=
  find_map (fun x => match x with
                     | (CInteger k, CInteger v) =>
                         if (k =? label) && ((I64_MIN <=? v) && (v <=? I64_MAX)) then Some v else None
                     | _ => None
                     end) entries.

Definition bytes_at (entries : list (cbor * cbor)) (label : Z) : option bytes :=
  find_map (fun x => match x with
                     | (CInteger k, CBytes v) => if k =? label then Some v else None
                     | _ => None
                     end) entries.

Definition ec2_key (entries : list (cbor * cbor)) : result CoseKey str :=
  match int_at entries (-1), bytes_at entries (-2), bytes_at entries (-3) with
  | Some curve, Some x, Some y =>
      if negb (curve =? 1) then Err u"unsupported EC2 key"
      else if negb (length x =? 32)%nat || negb (length y =? 32)%nat then Err u"malformed EC2 key"
      else Ok (Es256 x y)
  | _, _, _ => Err u"unsupported EC2 key"
  end.

Definition okp_key (entries : list (cbor * cbor)) : result CoseKey str :=
  match int_at entries (-1), bytes_at entries (-2) with
  | Some curve, Some x =>
      if negb (curve =? 6) then Err u"unsupported OKP key"
      else if negb (length x =? 32)%nat then Err u"malformed OKP key"
      else Ok (EdDsa x)
  | _, _ => Err u"unsupported OKP key"
  end.

Definition rsa_key (entries : list (cbor * cbor)) : result CoseKey str :=
  match bytes_at entries (-1), bytes_at entries (-2) with
  | Some n, Some e =>
      if (length n <? 256)%nat || bool_decide (e = []) then Err u"RSA key too small"
      else Ok (Rs256 n e)
  | _, _ => Err u"malformed RSA key"
  end.

Definition parse_cose_key (b : bytes) : result CoseKey str :=
  match cbor_read b with
  | Some (CMap entries, _) =>
      match int_at entries 1, int_at entries 3 with
      | Some kty, Some alg =>
          if (kty =? 2) && (alg =? ALG_ES256) then ec2_key entries
          else if (kty =? 1) && (alg =? ALG_EDDSA) then okp_key entries
          else if (kty =? 3) && (alg =? ALG_RS256) then rsa_key entries
          else Err u"unsupported key algorithm"
      | _, _ => Err u"unsupported key algorithm"
      end
  | _ => Err u"malformed COSE key"
  end.

(** The signature covers the authenticator data and the client data. *)
Definition signed_message (authenticator_data client_data_json : bytes) : bytes :=
  authenticator_data ++ sha256 client_data_json.

Definition verify_assertion (key : CoseKey) (authenticator_data client_data_json signature : bytes) : bool :=
  let message := signed_message authenticator_data client_data_json in
  match key with
  | Es256 x y => p256_verify ([0x04] ++ x ++ y) message signature
  | EdDsa x => default false (ed25519_verify (b64url x) (b64url signature) message)
  | Rs256 n e => default false (rs256_verify n e (b64url signature) message)
  end.
End Ceremony.
End Webauthn.

(** * The service (services/passkey.rs) *)

Record PendingRegistration := { pr_challenge : bytes; pr_user : Uuid }.

#[export] Instance codec_pending : Codec PendingRegistration.
Proof.
  refine (codec_iso (fun s => (pr_challenge s, pr_user s))
    (fun '(challenge, who) => Some {| pr_challenge := challenge; pr_user := who |}) _).
  by intros [].
Defined.

#[export] Instance toy_pending_serde : Serde PendingRegistration := serde_of_codec.

Module Passkey.
Import Webauthn.

Definition CHALLENGE_TTL_SECS : Z := 300.
Definition REGISTRATION_PREFIX : str := u"passkey_reg:".
Definition AUTHENTICATION_PREFIX : str := u"passkey_auth:".
Definition MAX_FAILURES_BY_IP : Z := 20.
Definition FAILURE_WINDOW_SECS : Z := 900.
Definition MAX_PASSKEYS : nat := 20.

(** [CredentialResponse<AttestationResponse>] and
    [CredentialResponse<AssertionResponse>]. *)
Record Attestation := {
  an_raw_id : str;
  an_client_data_json : str;
  an_attestation_object : str;
}.

Record Assertion := {
  as_raw_id : str;
  as_client_data_json : str;
  as_authenticator_data : str;
  as_signature : str;
  as_user_handle : option str;
}.

Record Registered := { rg_passkey : Tables.Passkey; rg_recovery_codes : option (list str) }.

Section Service.
Context `{RedisServer} `{Env} `{TimeCrate} `{CryptoCrates} `{SqlText} `{IpNetworkCrate} `{Jwt}.
Context `{Passwords} `{WebauthnCrates} `{!Serde PendingRegistration}.

(** Base64url with or without padding. *)
Definition unpadded (value : str) : option bytes := b64url_decode (trim_end_matches 61 value).

Definition decode (field value : str) : result bytes AppError :=
  match unpadded value with
  | Some b => Ok b
  | None => Err (Validation (field ++ u" is not base64url"))
  end.

Definition invalid {A} (r : result A str) : result A AppError :=
  match r with Ok a => Ok a | Err e => Err (Validation (u"invalid passkey: " ++ e)) end.

(** ** Registration *)

Definition registration_key (session_id : Uuid) : str := REGISTRATION_PREFIX ++ uuid_str session_id.

Definition creation_options (challenge : bytes) (user : User) (existing : list Tables.Passkey) : json :=
  let config := cfg_webauthn config in
  JObj [(u"attestation", JStr u"none");
        (u"authenticatorSelection",
          JObj [(u"requireResidentKey", JBool true); (u"residentKey", JStr u"required");
                (u"userVerification", JStr u"required")]);
        (u"challenge", JStr (b64url challenge));
        (u"excludeCredentials",
          JArr (map (fun p => JObj [(u"id", JStr (b64url (pk_credential_id p))); (u"type", JStr u"public-key")]) existing));
        (u"pubKeyCredParams",
          JArr (map (fun alg => JObj [(u"alg", JNum (JInt alg)); (u"type", JStr u"public-key")]) ALGORITHMS));
        (u"rp", JObj [(u"id", JStr (rp_id config)); (u"name", JStr (rp_name config))]);
        (u"timeout", JNum (JInt (CHALLENGE_TTL_SECS * 1000)));
        (u"user", JObj [(u"displayName", JStr (u_username user)); (u"id", JStr (b64url (uuid_as_bytes (u_id user))));
                        (u"name", JStr (u_username user))])].

Definition registration_options (user_id session_id : Uuid) (ip : option IpNetwork) (request_id : option Uuid) :
    M AppError json :=
  _ ← require_recent_reauth_or_password user_id session_id None ip request_id u"register_passkey";
  found ← internal (user_find_by_id user_id);
  user ← ok_or found Unauthorized;
  existing ← internal (passkeys_find_by_user user_id);
  if (MAX_PASSKEYS <=? length existing)%nat then fail (Conflict u"too_many_passkeys")
  else
    challenge ← random_bytes 32;
    _ ← Device.redis_internal redis_conn;
    _ ← Device.redis_internal (redis_cmd (fun s t =>
          (r_set_ex s t (registration_key session_id)
             (RStr (to_json_text {| pr_challenge := challenge; pr_user := user_id |})) CHALLENGE_TTL_SECS, tt)));
    mret (creation_options challenge user existing).

(** [GETDEL] of a key that holds text. *)
Definition get_del (k : str) (s : rstore) (t : Z) : rstore * option str := (r_del s t k, Device.get_text k s t).

(** What a registration response proves: the credential and its key. *)
Definition check_attestation (pending : PendingRegistration) (credential : Attestation) :
    result (AuthenticatorData * AttestedCredential * CoseKey) AppError :=
  let config := cfg_webauthn config in
  match decode u"clientDataJSON" (an_client_data_json credential) with
  | Err e => Err e
  | Ok client_data =>
  match invalid (check_client_data client_data u"webauthn.create" (pr_challenge pending) (rp_origins config)) with
  | Err e => Err e
  | Ok _ =>
  match decode u"attestationObject" (an_attestation_object credential) with
  | Err e => Err e
  | Ok attestation_object =>
  match invalid (attestation_auth_data attestation_object) with
  | Err e => Err e
  | Ok auth_data =>
  match invalid (parse_authenticator_data auth_data) with
  | Err e => Err e
  | Ok parsed =>
  match invalid (Webauthn.check parsed (rp_id config)) with
  | Err e => Err e
  | Ok _ =>
  match attested parsed with
  | None => Err (Validation u"invalid passkey: no credential")
  | Some credential_data =>
  match decode u"rawId" (an_raw_id credential) with
  | Err e => Err e
  | Ok raw_id =>
      if negb (bool_decide (credential_id credential_data = raw_id))
      then Err (Validation u"invalid passkey: credential id mismatch")
      else match invalid (parse_cose_key (public_key credential_data)) with
           | Err e => Err e
           | Ok key => Ok (parsed, credential_data, key)
           end
  end end end end end end end end.

Definition new_passkey (user_id : Uuid) (name : str)
    (x : AuthenticatorData * AttestedCredential * CoseKey) : NewPasskey :=
  let '(parsed, credential_data, key) := x in
  {| np_user_id := user_id; np_credential_id := credential_id credential_data;
     np_public_key := public_key credential_data; np_algorithm := algorithm key;
     np_sign_count := sign_count parsed; np_aaguid := uuid_from_bytes (aaguid credential_data);
     np_name := name; np_backup_eligible := backup_eligible parsed; np_backed_up := backed_up parsed |}.

Definition register (user_id session_id : Uuid) (name : str) (credential : Attestation)
    (ip : option IpNetwork) (request_id : option Uuid) : M AppError Registered :=
  let name := trim name in
  if bool_decide (name = []) || (100 <? char_count name)
  then fail (Validation u"name must be 1 to 100 characters")
  else
    _ ← Device.redis_internal redis_conn;
    raw ← Device.redis_internal (redis_cmd (get_del (registration_key session_id)));
    raw ← ok_or raw (Validation u"no passkey registration is pending");
    pending ← ok_or (from_json_text raw) Internal;
    if negb (bool_decide (pr_user pending = user_id)) then fail Forbidden
    else
      proved ← lift (check_attestation pending credential);
      created ← internal (passkey_create (new_passkey user_id name proved));
      passkey ← ok_or created (Conflict u"passkey_already_registered");
      _ ← internal (audit_append {| na_user_id := Some user_id; na_request_id := request_id;
            na_action := PasskeyRegistered; na_ip_address := ip;
            na_metadata := JObj [(u"passkey_id", JStr (uuid_str (pk_id passkey)))] |});
      _ ← notify_access_added user_id {| ai_kind := u"passkey"; ai_name := pk_name passkey |};
      usable ← internal (count_usable_by_user user_id);
      codes ← (if usable =? 0 then codes ← create_recovery_codes user_id; mret (Some codes) else mret None);
      mret {| rg_passkey := passkey; rg_recovery_codes := codes |}.

Definition list_passkeys (user_id : Uuid) : M AppError (list Tables.Passkey) :=
  internal (passkeys_find_by_user user_id).

(** The removal, within its transaction. *)
Definition drop_passkey (user_id id : Uuid) (ip : option IpNetwork) (request_id : option Uuid) : M AppError unit :=
  _ ← internal (lock_row user_id);
  deleted ← internal (passkey_delete_owned id user_id);
  if negb deleted then fail NotFound
  else
    _ ← keep_a_second_factor_for_administrators user_id;
    internal (audit_append {| na_user_id := Some user_id; na_request_id := request_id;
      na_action := PasskeyRemoved; na_ip_address := ip;
      na_metadata := JObj [(u"passkey_id", JStr (uuid_str id))] |}).

Definition remove (user_id session_id id : Uuid) (current_password : option str) (ip : option IpNetwork)
    (request_id : option Uuid) : M AppError unit :=
  _ ← require_recent_reauth_or_password user_id session_id current_password ip request_id u"remove_passkey";
  transaction Internal (drop_passkey user_id id ip request_id).

(** ** Sign-in *)

Definition authentication_key (challenge : bytes) : str := AUTHENTICATION_PREFIX ++ hex_text (sha256 challenge).

Definition authentication_options : M AppError json :=
  challenge ← random_bytes 32;
  _ ← Device.redis_internal redis_conn;
  _ ← Device.redis_internal (redis_cmd (fun s t =>
        (r_set_ex s t (authentication_key challenge) (RInt 1) CHALLENGE_TTL_SECS, tt)));
  mret (JObj [(u"allowCredentials", JArr []); (u"challenge", JStr (b64url challenge));
              (u"rpId", JStr (rp_id (cfg_webauthn config)));
              (u"timeout", JNum (JInt (CHALLENGE_TTL_SECS * 1000)));
              (u"userVerification", JStr u"required")]).

(** Every refusal is the same. *)
Definition refused {A E} (r : result A E) : result A AppError :=
  match r with Ok a => Ok a | Err _ => Err InvalidCredentials end.
Definition given {A} (o : option A) : result A AppError :=
  match o with Some a => Ok a | None => Err InvalidCredentials end.

Definition u32_or_max (n : Z) : Z := if (0 <=? n) && (n <=? U32_MAX) then n else U32_MAX.

(** [verify_assertion] of the service, after the challenge is spent and the row
    is found: what the response proves of it. *)
Definition check_assertion (client_data : bytes) (credential : Assertion) (passkey : Tables.Passkey) :
    result AuthenticatorData AppError :=
  match given (as_user_handle credential) with
  | Err e => Err e
  | Ok handle =>
  match given (unpadded handle) with
  | Err e => Err e
  | Ok handle =>
      if negb (bool_decide (handle = uuid_as_bytes (pk_user_id passkey))) then Err InvalidCredentials
      else
  match given (unpadded (as_authenticator_data credential)) with
  | Err e => Err e
  | Ok auth_data =>
  match refused (parse_authenticator_data auth_data) with
  | Err e => Err e
  | Ok parsed =>
  match refused (Webauthn.check parsed (rp_id (cfg_webauthn config))) with
  | Err e => Err e
  | Ok _ =>
  match refused (parse_cose_key (pk_public_key passkey)) with
  | Err e => Err e
  | Ok key =>
  match given (unpadded (as_signature credential)) with
  | Err e => Err e
  | Ok signature =>
      if negb (Webauthn.verify_assertion key auth_data client_data signature) then Err InvalidCredentials
      else if counter_regressed (u32_or_max (pk_sign_count passkey)) (sign_count parsed)
      then Err InvalidCredentials
      else Ok parsed
  end end end end end end end.

Definition verify_assertion (credential : Assertion) : M AppError (Tables.Passkey * User) :=
  client_data ← lift (given (unpadded (as_client_data_json credential)));
  challenge ← lift (refused (challenge_of client_data));
  _ ← Device.redis_internal redis_conn;
  issued ← Device.redis_internal (redis_cmd (Device.del_count (authentication_key challenge)));
  if negb (issued =? 1) then fail InvalidCredentials
  else
    _ ← lift (refused (check_client_data client_data u"webauthn.get" challenge (rp_origins (cfg_webauthn config))));
    raw_id ← lift (given (unpadded (as_raw_id credential)));
    found ← internal (find_by_credential_id raw_id);
    passkey ← lift (given found);
    parsed ← lift (check_assertion client_data credential passkey);
    recorded ← internal (record_use (pk_id passkey) (pk_sign_count passkey) (sign_count parsed) (backed_up parsed));
    if negb recorded then fail InvalidCredentials
    else
      owner ← internal (user_find_by_id (pk_user_id passkey));
      user ← lift (given owner);
      mret (passkey, user).

Definition failure_budget (ip : IpNetwork) : Budget :=
  {| bg_key := u"passkey_fail:" ++ IpBucket.ip_bucket (net_ip ip); bg_limit := MAX_FAILURES_BY_IP;
     bg_window_secs := FAILURE_WINDOW_SECS |}.

Definition passkey_sign_in (request_id : option Uuid) (passkey : Tables.Passkey) (user : User) : SignIn :=
  {| si_identifier := Some (u_username user); si_request_id := request_id;
     si_audit_metadata := JObj [(u"method", JStr u"passkey"); (u"passkey_id", JStr (uuid_str (pk_id passkey)))];
     si_second_factor := true |}.

Definition sign_in (credential : Assertion) (ip : option IpNetwork) (user_agent device_name : option str)
    (remember_me : bool) (request_id : option Uuid) : M AppError AuthTokens :=
  failures ← match ip with Some ip => peek (bg_key (failure_budget ip)) | None => mret 0 end;
  if MAX_FAILURES_BY_IP <=? failures then fail RateLimitExceededError
  else
    verified ← attempt (verify_assertion credential);
    match verified with
    | Ok (passkey, user) =>
        _ ← lift (ensure_account_usable user);
        issue_tokens (u_id user) ip user_agent device_name remember_me Session.Web None None
          (Some (passkey_sign_in request_id passkey user))
    | Err error =>
        _ ← match ip with
            | Some ip => _ ← attempt (consume [failure_budget ip]); mret tt
            | None => mret tt
            end;
        fail error
    end.
End Service.
End Passkey.
