(* ===== verification/PasskeysCorrect.v ===== *)
(** What passkeys promise: authenticator data is read exactly, a sign-in proves
    possession of the account's key on a challenge this service issued and used
    up, no assertion works twice, and a registration stores what the ceremony
    proved. *)
From S2P Require Import Prelude Crates Codec Session Account OAuthDomain Network Edge Crypto Tables App Outside RedisCounter SessionRepo Repos Tokens UserRepo AccessRepo TokenRepo AccountsOk Scenario TokensCorrect Refresh RefreshCorrect Login LoginCorrect SecondFactor SecondFactorCorrect OneTime OneTimeCorrect SelfService Guard Factors Administration Office DeviceFlow DeviceCorrect Passkeys.
Import Account.User Account.Audit Webauthn.

(** * Authenticator data *)

(** [to_be_bytes] *)
Definition be_text (width : nat) (n : Z) : bytes :=
  map (fun i => (n / 256 ^ (Z.of_nat width - 1 - Z.of_nat i)) mod 256) (seq 0 width).

Lemma be_text_succ width n : be_text (S width) n = be_text width (n / 256) ++ [n mod 256].
Proof.
  unfold be_text. rewrite seq_S, map_app. cbn [map]. f_equal.
  - apply map_ext_in. intros i Hi%in_seq. f_equal. rewrite Zdiv_Zdiv by lia.
    rewrite <- Z.pow_succ_r by lia. f_equal. f_equal. lia.
  - replace (Z.of_nat (S width) - 1 - Z.of_nat (0 + width)) with 0 by lia. by rewrite Z.div_1_r.
Qed.

Lemma be_text_length width n : length (be_text width n) = width.
Proof. unfold be_text. by rewrite length_map, length_seq. Qed.

Lemma from_be_snoc b x : from_be_bytes (b ++ [x]) = 256 * from_be_bytes b + x.
Proof. unfold from_be_bytes. by rewrite foldl_app. Qed.

Lemma from_be_text width : forall n, 0 <= n < 256 ^ Z.of_nat width -> from_be_bytes (be_text width n) = n.
Proof.
  induction width as [|width IH]; intros n Hn; [cbn in *; lia|].
  rewrite be_text_succ, from_be_snoc, IH; [pose proof (Z.div_mod n 256); lia|].
  rewrite Nat2Z.inj_succ, Z.pow_succ_r in Hn by lia. split; [apply Z.div_pos; lia|].
  apply Z.div_lt_upper_bound; lia.
Qed.

Lemma be_text_from b : Forall is_byte b -> be_text (length b) (from_be_bytes b) = b /\ 0 <= from_be_bytes b < 256 ^ Z.of_nat (length b).
Proof.
  induction b as [|x b IH] using rev_ind; intros Hb; [cbn; by split; [|lia]|].
  apply Forall_app in Hb as [Hb [Hx _]%Forall_cons]. destruct (IH Hb) as [E R]. unfold is_byte in Hx.
  rewrite length_app, Nat.add_1_r, be_text_succ, from_be_snoc.
  rewrite Nat2Z.inj_succ, Z.pow_succ_r by lia. split; [|lia].
  replace ((256 * from_be_bytes b + x) / 256) with (from_be_bytes b) by (Z.div_mod_to_equations; lia).
  replace ((256 * from_be_bytes b + x) mod 256) with x by (Z.div_mod_to_equations; lia). by rewrite E.
Qed.

Section AuthenticatorData.
Context `{CryptoCrates} `{WebauthnCrates}.

(** The layout of section 6.1: the hash, the flags, the counter, the credential
    when there is one, the extensions when there are. *)
Definition credential_text (c : AttestedCredential) : bytes :=
  aaguid c ++ be_text 2 (Z.of_nat (length (credential_id c))) ++ credential_id c ++ public_key c.

Definition data_text (a : AuthenticatorData) (extensions : bytes) : bytes :=
  rp_id_hash a ++ [flags a] ++ be_text 4 (sign_count a) ++
  match attested a with Some c => credential_text c | None => [] end ++ extensions.

(** One item of CBOR, and nothing else. *)
Definition one_item (b : bytes) : Prop := exists v, cbor_read b = Some (v, length b).

Record credential_wf (c : AttestedCredential) : Prop := {
  cw_aaguid : length (aaguid c) = 16%nat;
  cw_id : (1 <= length (credential_id c) <= 1023)%nat;
  cw_key : one_item (public_key c);
}.

Record data_wf (a : AuthenticatorData) (extensions : bytes) : Prop := {
  dw_hash : length (rp_id_hash a) = 32%nat;
  dw_count : 0 <= sign_count a < 2 ^ 32;
  dw_attested : match attested a with
                | Some c => has_flag (flags a) FLAG_ATTESTED = true /\ credential_wf c
                | None => has_flag (flags a) FLAG_ATTESTED = false
                end;
  dw_extensions : if has_flag (flags a) FLAG_EXTENSIONS then one_item extensions else extensions = [];
}.

Lemma one_item_len b rest : one_item b -> cbor_item_len (b ++ rest) = Ok (length b).
Proof. intros [v Hv]. unfold cbor_item_len. by rewrite (cbor_read_prefix _ _ rest Hv). Qed.

Lemma parse_attested_text c rest : credential_wf c -> parse_attested (credential_text c ++ rest) = Ok (c, rest).
Proof.
  intros [Ha Hi Hk]. unfold parse_attested, credential_text. rewrite <- !app_assoc.
  set (n := be_text 2 _). assert (length n = 2%nat) as Hn by apply be_text_length.
  replace (length _ <? 18)%nat with false by (symmetry; apply Nat.ltb_ge; rewrite !length_app; lia).
  rewrite (take_app_length' (aaguid c)), (drop_app_length' (aaguid c)) by done.
  rewrite (take_app_length' n) by done.
  replace (drop 18 (aaguid c ++ n ++ credential_id c ++ public_key c ++ rest))
    with (credential_id c ++ public_key c ++ rest)
    by (symmetry; rewrite app_assoc, drop_app_length'; [done|rewrite length_app; lia]).
  unfold n. rewrite from_be_text by lia. rewrite Nat2Z.id.
  replace ((length (credential_id c) =? 0)%nat || (1023 <? length (credential_id c))%nat
    || (length (credential_id c ++ public_key c ++ rest) <? length (credential_id c))%nat) with false
    by (symmetry; rewrite !orb_false_iff, Nat.eqb_neq, !Nat.ltb_ge, length_app; lia).
  rewrite take_app_length, drop_app_length, one_item_len, take_app_length, drop_app_length by done.
  by destruct c.
Qed.

Lemma parse_data_text a extensions :
  data_wf a extensions -> parse_authenticator_data (data_text a extensions) = Ok a.
Proof.
  intros [Hh Hc Ha He]. unfold parse_authenticator_data, data_text.
  set (count := be_text 4 (sign_count a)). assert (length count = 4%nat) as Hn by apply be_text_length.
  set (tail := match attested a with Some c => credential_text c | None => [] end ++ extensions).
  replace (length _ <? 37)%nat with false by (symmetry; apply Nat.ltb_ge; rewrite !length_app; cbn; lia).
  rewrite (take_app_length' (rp_id_hash a)) by done.
  replace ((rp_id_hash a ++ [flags a] ++ count ++ tail) !! 32%nat) with (Some (flags a))
    by (symmetry; rewrite lookup_app_r by lia; by rewrite Hh).
  change (default 0 (Some (flags a))) with (flags a).
  replace (drop 33 (rp_id_hash a ++ [flags a] ++ count ++ tail)) with (count ++ tail)
    by (symmetry; rewrite (app_assoc _ [_]), drop_app_length'; [done|rewrite length_app; cbn; lia]).
  replace (drop 37 (rp_id_hash a ++ [flags a] ++ count ++ tail)) with tail
    by (symmetry; rewrite (app_assoc _ [_]), (app_assoc _ count), drop_app_length'; [done|rewrite !length_app; cbn; lia]).
  rewrite (take_app_length' count) by done. unfold count. rewrite from_be_text by (cbn; lia).
  assert (forall att, (match (if has_flag (flags a) FLAG_EXTENSIONS
               then match cbor_item_len extensions with Ok len => Ok (drop len extensions) | Err e => Err e end
               else Ok extensions) with
    | Err e => Err e
    | Ok [] => Ok {| rp_id_hash := rp_id_hash a; flags := flags a; sign_count := sign_count a; attested := att |}
    | Ok (_ :: _) => Err u"trailing bytes in authenticator data"
    end) = Ok {| rp_id_hash := rp_id_hash a; flags := flags a; sign_count := sign_count a; attested := att |}) as Hext.
  { intros att. destruct (has_flag (flags a) FLAG_EXTENSIONS); [|by rewrite He].
    rewrite <- (app_nil_r extensions) at 1. rewrite one_item_len by done. by rewrite drop_ge. }
  unfold tail. destruct a as [rp fl ct [c|]]; cbn [flags attested rp_id_hash sign_count] in *.
  - destruct Ha as [-> Hw]. rewrite parse_attested_text by done. apply Hext.
  - rewrite Ha. apply Hext.
Qed.

Lemma item_split b n : cbor_item_len b = Ok n -> b = take n b ++ drop n b /\ one_item (take n b).
Proof.
  unfold cbor_item_len. destruct (cbor_read b) as [[v m]|] eqn:E; [|done]. intros [= ->].
  split; [by rewrite take_drop|]. exists v. rewrite (cbor_read_taken _ _ _ E), length_take.
  apply cbor_read_within in E. by rewrite Nat.min_l.
Qed.

Lemma parse_attested_exact b c rest :
  Forall is_byte b -> parse_attested b = Ok (c, rest) -> b = credential_text c ++ rest /\ credential_wf c.
Proof.
  intros Hb. unfold parse_attested. destruct (Nat.ltb_spec (length b) 18) as [|Hl]; [done|].
  set (n := Z.to_nat _). destruct ((n =? 0)%nat || (1023 <? n)%nat || (length (drop 18 b) <? n)%nat) eqn:En; [done|].
  apply orb_false_iff in En as [[En0 En1]%orb_false_iff En2].
  apply Nat.eqb_neq in En0. apply Nat.ltb_ge in En1, En2.
  destruct (cbor_item_len _) as [k|] eqn:Ek; [|done]. intros [= <- <-].
  apply item_split in Ek as [Ek Hi].
  assert (length (take 2 (drop 16 b)) = 2%nat) as H2 by (rewrite length_take, length_drop; lia).
  assert (length (take n (drop 18 b)) = n) as Hn by (rewrite length_take; lia).
  destruct (be_text_from (take 2 (drop 16 b))) as [Et Er]; [by apply Forall_take, Forall_drop|].
  rewrite H2 in Et, Er. split.
  - unfold credential_text. cbn [aaguid credential_id public_key].
    rewrite Hn. unfold n. rewrite Z2Nat.id by lia. rewrite Et. fold n.
    rewrite <- !app_assoc, <- Ek, take_drop.
    replace (drop 18 b) with (drop 2 (drop 16 b)) by (by rewrite drop_drop). by rewrite take_drop, take_drop.
  - split; cbn [aaguid credential_id public_key]; [rewrite length_take; lia|lia|done].
Qed.

(** C27: authenticator data is read exactly.  A sequence of bytes is accepted with
    a reading when, and only when, it is that reading laid out as the standard
    says: the hash of the relying party, the flags, the counter, the credential
    with its id of 1 to 1023 bytes and its key, exactly when the flags announce
    one, and the extensions, exactly when the flags announce them, with nothing
    after. *)
Theorem authenticator_data_exact (b : bytes) (a : AuthenticatorData) :
  Forall is_byte b ->
  parse_authenticator_data b = Ok a <-> exists extensions, b = data_text a extensions /\ data_wf a extensions.
Proof.
  intros Hb. split; [|intros (ext & -> & Hw); by apply parse_data_text].
  unfold parse_authenticator_data. destruct (Nat.ltb_spec (length b) 37) as [|Hl]; [done|].
  destruct (lookup_lt_is_Some_2 b 32) as [fl Hfl]; [lia|]. rewrite Hfl. change (default 0 (Some fl)) with fl.
  assert (length (take 4 (drop 33 b)) = 4%nat) as H4 by (rewrite length_take, length_drop; lia).
  destruct (be_text_from (take 4 (drop 33 b))) as [Et Er]; [by apply Forall_take, Forall_drop|]. rewrite H4 in Et, Er.
  assert (b = take 32 b ++ [fl] ++ take 4 (drop 33 b) ++ drop 37 b) as Eb.
  { replace (drop 37 b) with (drop 4 (drop 33 b)) by (by rewrite drop_drop). rewrite take_drop.
    rewrite app_assoc, <- (take_S_r _ _ _ Hfl). by rewrite take_drop. }
  assert (forall att rest, drop 37 b = match att with Some c => credential_text c | None => [] end ++ rest ->
    match att with Some c => has_flag fl FLAG_ATTESTED = true /\ credential_wf c | None => has_flag fl FLAG_ATTESTED = false end ->
    (match (if has_flag fl FLAG_EXTENSIONS
               then match cbor_item_len rest with Ok len => Ok (drop len rest) | Err e => Err e end
               else Ok rest) with
    | Err e => Err e
    | Ok [] => Ok {| rp_id_hash := take 32 b; flags := fl; sign_count := from_be_bytes (take 4 (drop 33 b)); attested := att |}
    | Ok (_ :: _) => Err u"trailing bytes in authenticator data"
    end) = Ok a -> exists extensions, b = data_text a extensions /\ data_wf a extensions) as Hend.
  { intros att rest Hd Hatt He. exists rest.
    assert (a = {| rp_id_hash := take 32 b; flags := fl; sign_count := from_be_bytes (take 4 (drop 33 b)); attested := att |} /\
      if has_flag fl FLAG_EXTENSIONS then one_item rest else rest = []) as [-> Hx].
    { destruct (has_flag fl FLAG_EXTENSIONS).
      - destruct (cbor_item_len rest) as [n|] eqn:En; [|done]. apply item_split in En as [En Hi].
        destruct (drop n rest) as [|x l] eqn:Ed; [|done]. injection He as <-. rewrite app_nil_r in En.
        split; [done|]. by rewrite En.
      - destruct rest; [|done]. by injection He as <-. }
    split; [|split; cbn [rp_id_hash flags sign_count attested]; [rewrite length_take; lia|cbn in Er; lia|done|done]].
    unfold data_text. cbn [rp_id_hash flags sign_count attested]. by rewrite Et, <- Hd. }
  destruct (has_flag fl FLAG_ATTESTED) eqn:Ef; [|by apply (Hend None)].
  destruct (parse_attested (drop 37 b)) as [[c rest]|] eqn:Ec; [|done].
  apply parse_attested_exact in Ec as [Hd Hc]; [|by apply Forall_drop]. by apply (Hend (Some c)).
Qed.
End AuthenticatorData.

(** * Signing in *)

Section SignIn.
Context `{RedisServer} `{Env} `{TimeCrate} `{CryptoCrates} `{SqlText} `{IpNetworkCrate} `{Jwt}.
Context `{MacCrate} `{HyperLogLog} `{Passwords} `{WebauthnCrates}.
Import Passkey.

(** The client data of a response: the ceremony, its challenge, from where. *)
Definition answers (kind : str) (challenge client_data : bytes) : Prop :=
  exists data, client_data_of client_data = Some data /\ cl_kind data = kind /\
    b64url_decode (cl_challenge data) = Some challenge /\ cl_origin data ∈ rp_origins (cfg_webauthn config) /\
    cl_cross_origin data = false.

(** This relying party, a user present and verified. *)
Definition ceremony_here (parsed : AuthenticatorData) : Prop :=
  rp_id_hash parsed = sha256 (as_bytes (rp_id (cfg_webauthn config))) /\
  user_present parsed = true /\ user_verified parsed = true.

(** What an assertion proves of the passkey it names: it is the owner's, the
    authenticator data is of this ceremony, its key signed it together with the
    client data, and its counter grew, unless the authenticator keeps none. *)
Record asserted (credential : Assertion) (client_data : bytes) (k : Tables.Passkey) (parsed : AuthenticatorData) : Prop := {
  asd_id : unpadded (as_raw_id credential) = Some (pk_credential_id k);
  asd_owner : exists handle, as_user_handle credential = Some handle /\
    unpadded handle = Some (uuid_as_bytes (pk_user_id k));
  asd_signed : exists auth_data key signature,
    unpadded (as_authenticator_data credential) = Some auth_data /\
    parse_authenticator_data auth_data = Ok parsed /\
    parse_cose_key (pk_public_key k) = Ok key /\ unpadded (as_signature credential) = Some signature /\
    Webauthn.verify_assertion key auth_data client_data signature = true;
  asd_here : ceremony_here parsed;
  asd_counter : let stored := u32_or_max (pk_sign_count k) in
    stored < sign_count parsed \/ stored = 0 /\ sign_count parsed = 0;
}.

Lemma check_client_data_Ok cd kind challenge d :
  check_client_data cd kind challenge (rp_origins (cfg_webauthn config)) = Ok d -> answers kind challenge cd.
Proof.
  unfold check_client_data. destruct (client_data_of cd) as [data|] eqn:Ed; [|done].
  destruct (str_eqb (cl_kind data) kind) eqn:Ek; [|done]. apply str_eqb_eq in Ek. case_bool_decide as Ec; [|done]. cbn [negb].
  destruct (contains _ _) eqn:Eo; [|done]. destruct (cl_cross_origin data) eqn:Ex; [done|]. intros _.
  exists data. split_and!; try done. by apply contains_true.
Qed.

Lemma authenticator_check_Ok parsed x : Webauthn.check parsed (rp_id (cfg_webauthn config)) = Ok x -> ceremony_here parsed.
Proof.
  unfold Webauthn.check, ceremony_here. case_bool_decide; [|done]. cbn [negb].
  destruct (user_present parsed); [|done]. by destruct (user_verified parsed).
Qed.

Lemma counter_grew stored presented :
  0 <= stored -> counter_regressed stored presented = false -> stored < presented \/ stored = 0 /\ presented = 0.
Proof. unfold counter_regressed. intros Hs. breflect. lia. Qed.

Lemma u32_nonneg n : 0 <= u32_or_max n.
Proof. unfold u32_or_max, U32_MAX. case_cond; breflect; lia. Qed.

Lemma check_assertion_Ok client_data credential k parsed :
  unpadded (as_raw_id credential) = Some (pk_credential_id k) ->
  check_assertion client_data credential k = Ok parsed -> asserted credential client_data k parsed.
Proof.
  intros Hid. unfold check_assertion, given. destruct (as_user_handle credential) as [h|] eqn:Eh; [|done].
  destruct (unpadded h) as [h'|] eqn:Eh'; [|done]. case_bool_decide as Eo; [|done]. cbn [negb]. subst h'.
  destruct (unpadded (as_authenticator_data credential)) as [ad|] eqn:Ea; [|done].
  destruct (parse_authenticator_data ad) as [pd|] eqn:Ep; [|done]. cbn [refused].
  destruct (Webauthn.check pd _) as [x|] eqn:Ec; [|done]. cbn [refused].
  destruct (parse_cose_key _) as [key|] eqn:Ek; [|done]. cbn [refused].
  destruct (unpadded (as_signature credential)) as [sg|] eqn:Es; [|done].
  destruct (Webauthn.verify_assertion key ad client_data sg) eqn:Ev; cbn [negb]; [|done].
  destruct (counter_regressed _ _) eqn:Er; [done|]. intros [= <-]. split; [done|eauto| |by eapply authenticator_check_Ok|].
  - by exists ad, key, sg.
  - apply counter_grew; [apply u32_nonneg|done].
Qed.

Lemma del_count_Ok k (w w' : World) n :
  redis_cmd (Device.del_count k) w = (w', Ok n) -> n = 1 ->
  r_exists (w_redis w) (w_wall w) k = true /\ dump (w_redis w') k = None /\ same_db w w'.
Proof.
  intros R ->. apply redis_cmd_Ok in R as [R S]. unfold Device.del_count in R. injection R as E1 E2.
  destruct (r_exists _ _ k); [|done]. split_and!; [done| |done]. rewrite <- E1, dump_del. by rewrite upd_eq.
Qed.

Definition passkeys (d : Db) : list Tables.Passkey := a_passkeys (t_access d).

(** A passkey of the table answered a challenge issued by this service, once;
    the counter is recorded. *)
Record assertion_spent (w w' : World) (credential : Assertion) (client_data challenge : bytes)
    (k : Tables.Passkey) (parsed : AuthenticatorData) : Prop := {
  sp_client_data : unpadded (as_client_data_json credential) = Some client_data;
  sp_answers : answers u"webauthn.get" challenge client_data;
  sp_issued : r_exists (w_redis w) (w_wall w) (authentication_key challenge) = true;
  sp_known : k ∈ passkeys (w_db w);
  sp_asserted : asserted credential client_data k parsed;
  sp_recorded : exists k', k' ∈ passkeys (w_db w') /\ pk_id k' = pk_id k /\ pk_user_id k' = pk_user_id k /\
                  pk_public_key k' = pk_public_key k /\ pk_sign_count k' = sign_count parsed;
  sp_gone : dump (w_redis w') (authentication_key challenge) = None;
}.

Lemma record_use_Ok id expected count bu (w w' : World) k :
  k ∈ passkeys (w_db w) -> pk_id k = id -> pk_sign_count k = expected ->
  record_use id expected count bu w = (w', Ok true) ->
  (exists k', k' ∈ passkeys (w_db w') /\ pk_id k' = pk_id k /\ pk_user_id k' = pk_user_id k /\
     pk_public_key k' = pk_public_key k /\ pk_sign_count k' = count) /\
  t_users (w_db w') = t_users (w_db w) /\ t_sessions (w_db w') = t_sessions (w_db w) /\
  w_redis w' = w_redis w.
Proof.
  intros Hk Hid Hc R. assert (w_redis w' = w_redis w) as S.
  { unfold record_use, execute, io in R. destruct (io_plan _); [|done..]. by injection R as <- _. }
  apply execute_Ok in R as [R _]. injection R as <- _. split; [|done].
  exists (used_passkey_row (w_wall w) count bu k). split; [|done]. unfold passkeys. cbn. unfold update_where.
  change (map ?f ?l) with (f <$> l). apply list_elem_of_fmap. exists k. split; [|done].
  by rewrite bool_decide_true, Hc, Z.eqb_refl by done.
Qed.

Lemma verify_assertion_Ok credential (w w' : World) k v :
  verify_assertion credential w = (w', Ok (k, v)) ->
  exists client_data challenge parsed, assertion_spent w w' credential client_data challenge k parsed /\
    ur_user <$> t_users (w_db w) !! pk_user_id k = Some v /\
    t_users (w_db w') = t_users (w_db w) /\ t_sessions (w_db w') = t_sessions (w_db w).
Proof.
  unfold verify_assertion. intros R. unbind R cd w0 R0. apply lift_Ok in R0 as [R0 ->].
  unfold given in R0. destruct (unpadded (as_client_data_json credential)) as [cd'|] eqn:Ecd; [|done]. injection R0 as ->.
  unbind R challenge w1 R1. apply lift_Ok in R1 as [R1 ->].
  unbind R x w2 R2. apply map_err_Ok, redis_conn_Ok in R2 as ->.
  unbind R issued w3 R3. apply map_err_Ok in R3. destruct (Z.eqb_spec issued 1) as [E1|]; [|by apply fail_Ok in R].
  apply del_count_Ok in R3 as (Hl & Hg & D3 & _ & T3); [|done]. cbn [negb] in R.
  unbind R y w4 R4. apply lift_Ok in R4 as [R4 ->].
  destruct (check_client_data _ _ _ _) as [d|] eqn:Ec; [|done]. apply check_client_data_Ok in Ec.
  unbind R raw w5 R5. apply lift_Ok in R5 as [R5 ->].
  destruct (unpadded (as_raw_id credential)) as [raw'|] eqn:Er; [|done]. injection R5 as ->.
  unbind R found w6 R6. assert (still w3 w6) as (D6 & S6 & T6) by (eapply keeps_run, R6; apply keeps_map_err, keeps_query).
  apply map_err_Ok, query_Ok in R6 as [-> _].
  unbind R k' w7 R7. apply lift_Ok in R7 as [R7 ->]. destruct (List.find _ _) as [k0|] eqn:Ek; [|done]. injection R7 as ->.
  apply find_some in Ek as [Hk Hraw]. apply bool_decide_eq_true in Hraw. apply list_elem_of_In in Hk.
  unbind R parsed w8 R8. apply lift_Ok in R8 as [R8 ->]. apply check_assertion_Ok in R8; [|by rewrite Er, Hraw].
  unbind R recorded w9 R9. destruct recorded; [|by apply fail_Ok in R]. cbn [negb] in R.
  apply map_err_Ok in R9. apply (record_use_Ok _ _ _ _ _ _ k') in R9 as (Hrec & U9 & S9 & K9); [|by rewrite D6|done..].
  unbind R owner w10 R10. assert (still w9 w10) as (D10 & S10 & T10) by (eapply keeps_run, R10; apply keeps_map_err, keeps_query).
  apply map_err_Ok, query_Ok in R10 as [-> _].
  unbind R v' w11 R11. apply lift_Ok in R11 as [R11 ->]. apply ret_Ok in R as [[= <- <-] ->].
  rewrite U9, D6, D3 in R11. cbn [w_db bump_io] in R11.
  exists cd, challenge, parsed. split_and!.
  - split; try done; [by rewrite D3 in Hk|by rewrite D10|by rewrite S10, K9, S6].
  - destruct (ur_user <$> _); [|done]. by injection R11 as ->.
  - by rewrite D10, U9, D6, D3.
  - by rewrite D10, S9, D6, D3.
Qed.


(** ** Once *)

Lemma gone_challenge credential cd challenge (w : World) :
  unpadded (as_client_data_json credential) = Some cd -> challenge_of cd = Ok challenge ->
  dump (w_redis w) (authentication_key challenge) = None ->
  w_db (verify_assertion credential w).1 = w_db w /\ exists e, (verify_assertion credential w).2 = Err e.
Proof.
  intros Hcd Hch Hg. unfold verify_assertion.
  rewrite (bind_step _ _ w w cd) by (by rewrite Hcd). rewrite (bind_step _ _ w w challenge) by (by rewrite Hch).
  match goal with |- w_db (?m w).1 = _ /\ _ => change (Guard.refused m w) end.
  apply refused_then; [apply keeps_map_err, keeps_redis_conn|]. intros x w1 R1. apply map_err_Ok, redis_conn_Ok in R1 as ->.
  apply refused_then; [apply keeps_map_err, keeps_redis_cmd|]. intros n w2 R2. apply map_err_Ok, redis_cmd_Ok in R2 as [R2 _].
  injection R2 as _ <-. unfold r_exists. cbn [w_redis w_wall bump_io]. rewrite Hg. apply refused_fail.
Qed.

Lemma spent_refused credential cd challenge ip ua dn rm rid (w : World) :
  unpadded (as_client_data_json credential) = Some cd -> challenge_of cd = Ok challenge ->
  dump (w_redis w) (authentication_key challenge) = None ->
  Guard.refused (sign_in credential ip ua dn rm rid) w.
Proof.
  intros Hcd Hch Hg. unfold sign_in. apply refused_after.
  { destruct ip; [|apply keeps_ret]. unfold peek.
    apply keeps_bind; [apply keeps_map_err, keeps_redis_conn|]. intros ?. apply keeps_map_err, keeps_io. by intros w0. }
  intros failures w1 (D1 & S1 & T1). destruct (MAX_FAILURES_BY_IP <=? failures); [apply refused_fail|].
  rewrite <- S1 in Hg. destruct (gone_challenge credential cd challenge w1 Hcd Hch Hg) as [Dv [e Hv]].
  unfold Guard.refused. apply run_answer in Hv. rewrite (bind_step _ _ _ _ _ (attempt_step _ _ _ _ Hv)).
  rewrite <- Dv. apply (refused_then (A := unit)); [|intros; apply refused_fail].
  destruct ip; [|apply keeps_ret]. apply keeps_bind; [|intros ?; apply keeps_ret].
  apply keeps_attempt. tables_auto.
Qed.

(** No assertion works twice.  After a sign-in that succeeded, any request
    whose client data is the same, whatever else it carries and wherever it
    comes from, is refused and leaves the tables as they were, as long as the
    challenge is not issued again. *)
Theorem assertion_not_replayed credential credential' ip ip' ua ua' dn dn' rm rm' rid rid' (w w1 w2 : World) tokens :
  sign_in credential ip ua dn rm rid w = (w1, Ok tokens) ->
  (forall challenge, stays_gone (authentication_key challenge) w1 w2) ->
  as_client_data_json credential' = as_client_data_json credential ->
  w_db (sign_in credential' ip' ua' dn' rm' rid' w2).1 = w_db w2 /\
  exists e, (sign_in credential' ip' ua' dn' rm' rid' w2).2 = Err e.
Proof.
  unfold sign_in at 1. intros R Hgone Hsame. unbind R failures w3 R3.
  destruct (MAX_FAILURES_BY_IP <=? failures); [by apply fail_Ok in R|].
  unbind R verified w4 R4. apply attempt_run in R4 as (r4 & R4 & [= ->]). destruct r4 as [[k v]|e].
  2: { unbind R x w5 R5. by apply fail_Ok in R. }
  apply verify_assertion_Ok in R4 as (cd & challenge & parsed & Hsp & _).
  unbind R x w5 R5. apply lift_Ok in R5 as [_ ->].
  apply (keeps_run (stays_gone (authentication_key challenge))) in R; [|apply keeps_gone_issue].
  destruct Hsp as [A1 (data & Hd & _ & Hc & _) _ _ _ _ A7].
  apply (spent_refused credential' cd challenge).
  - by rewrite Hsame.
  - unfold challenge_of. by rewrite Hd, Hc.
  - by apply Hgone, R.
Qed.
End SignIn.

(** * Registering *)

Section Registration.
Context `{RedisServer} `{Env} `{TimeCrate} `{CryptoCrates} `{SqlText} `{IpNetworkCrate} `{Jwt}.
Context `{MacCrate} `{HyperLogLog} `{Passwords} `{WebauthnCrates} `{!Serde PendingRegistration}.
Import Passkey.

#[local] Instance stays_gone_reads (k : str) : Reads (stays_gone k) [].
Proof. intros w d _ G. exact G. Qed.

(** What an attestation proves. *)
Record attested_by (credential : Attestation) (challenge : bytes) (parsed : AuthenticatorData)
    (c : AttestedCredential) (key : CoseKey) : Prop := {
  ab_answers : exists cd, unpadded (an_client_data_json credential) = Some cd /\ answers u"webauthn.create" challenge cd;
  ab_data : exists object auth_data, unpadded (an_attestation_object credential) = Some object /\
    attestation_auth_data object = Ok auth_data /\ parse_authenticator_data auth_data = Ok parsed;
  ab_here : ceremony_here parsed;
  ab_credential : attested parsed = Some c /\ unpadded (an_raw_id credential) = Some (credential_id c);
  ab_key : parse_cose_key (public_key c) = Ok key;
}.

Lemma check_attestation_Ok pending credential parsed c key :
  check_attestation pending credential = Ok (parsed, c, key) ->
  attested_by credential (pr_challenge pending) parsed c key.
Proof.
  unfold check_attestation, decode. destruct (unpadded (an_client_data_json credential)) as [cd|] eqn:E1; [|done].
  destruct (check_client_data _ _ _ _) as [d|] eqn:E2; [|done]. cbn [invalid].
  destruct (unpadded (an_attestation_object credential)) as [object|] eqn:E3; [|done].
  destruct (attestation_auth_data object) as [ad|] eqn:E4; [|done]. cbn [invalid].
  destruct (parse_authenticator_data ad) as [pd|] eqn:E5; [|done]. cbn [invalid].
  destruct (Webauthn.check pd _) as [x|] eqn:E6; [|done]. cbn [invalid].
  destruct (attested pd) as [c'|] eqn:E7; [|done].
  destruct (unpadded (an_raw_id credential)) as [raw|] eqn:E8; [|done]. case_bool_decide as E9; [|done]. cbn [negb].
  destruct (parse_cose_key _) as [key'|] eqn:E10; [|done]. intros [= <- <- <-].
  apply check_client_data_Ok in E2. apply authenticator_check_Ok in E6. subst raw. split; eauto.
Qed.

Lemma passkey_create_Ok input (w w' : World) row :
  passkey_create input w = (w', Ok (Some row)) ->
  (forall k, k ∈ passkeys (w_db w) -> pk_credential_id k <> np_credential_id input) /\
  passkeys (w_db w') = passkeys (w_db w) ++ [row] /\ passkey_checks row = true /\
  pk_user_id row = np_user_id input /\ pk_credential_id row = np_credential_id input /\
  pk_public_key row = np_public_key input /\ pk_algorithm row = i32_or_zero (np_algorithm input) /\
  pk_sign_count row = np_sign_count input.
Proof.
  unfold passkey_create. intros R. unbind R i w1 R1. injection R1 as <- <-. apply execute_Ok in R as [R _].
  cbn zeta in R. destruct (passkey_checks _) eqn:Ec; [|done]. case_bool_decide; [done|]. cbn [negb orb] in R.
  destruct (existsb _ _) eqn:Ex; [done|]. injection R as <- <-. split; [|done].
  intros k Hk Hid. assert (existsb (fun k => bool_decide (pk_credential_id k = np_credential_id input))
    (a_passkeys (t_access (w_db w))) = true) as E; [|cbn in Ex; congruence].
  apply existsb_exists. exists k. split; [by apply list_elem_of_In|by apply bool_decide_eq_true].
Qed.

(** C24: a passkey is stored only when its ceremony proved it.  A registration
    that succeeds spent the pending registration of that session, opened for
    that account; the response answers its challenge from an allowed origin, for
    this relying party, with a user present and verified; the stored row is the
    only addition, belongs to the account, holds the credential and the key the
    authenticator attested, of an algorithm that is offered, and no passkey of
    any account had that credential before. *)
Theorem passkey_registration_sound uid sid name credential ip rid (w w' : World) rg :
  register uid sid name credential ip rid w = (w', Ok rg) ->
  exists pending parsed c key,
    Device.get_text (registration_key sid) (w_redis w) (w_wall w) ≫= from_json_text = Some pending /\
    pr_user pending = uid /\ dump (w_redis w') (registration_key sid) = None /\
    attested_by credential (pr_challenge pending) parsed c key /\
    passkeys (w_db w') = passkeys (w_db w) ++ [rg_passkey rg] /\
    (forall k, k ∈ passkeys (w_db w) -> pk_credential_id k <> credential_id c) /\
    pk_user_id (rg_passkey rg) = uid /\ pk_credential_id (rg_passkey rg) = credential_id c /\
    pk_public_key (rg_passkey rg) = public_key c /\ pk_algorithm (rg_passkey rg) = algorithm key /\
    algorithm key ∈ ALGORITHMS.
Proof.
  unfold register. intros R. destruct (bool_decide _ || _); [by apply fail_Ok in R|].
  unbind R x w1 R1. apply map_err_Ok, redis_conn_Ok in R1 as ->.
  unbind R raw w2 R2. apply map_err_Ok, redis_cmd_Ok in R2 as [R2 [D2 _]].
  unfold get_del in R2. injection R2 as E2 <-. cbn [w_redis w_wall bump_io] in *.
  assert (dump (w_redis w2) (registration_key sid) = None) as G2 by (by rewrite <- E2, dump_del, upd_eq).
  unbind R raw' w3 R3. apply ok_or_Ok in R3 as [R3 ->]. unbind R opened_for w4 R4. apply ok_or_Ok in R4 as [R4 ->].
  case_bool_decide as Eu; [|by apply fail_Ok in R]. cbn [negb] in R.
  unbind R proved w5 R5. apply lift_Ok in R5 as [R5 ->]. destruct proved as [[parsed c] key].
  apply check_attestation_Ok in R5. unbind R created w6 R6.
  assert (stays_gone (registration_key sid) w2 w6) as G6 by (eapply keeps_run, R6; tables_auto).
  unbind R row w7 R7. apply ok_or_Ok in R7 as [-> ->]. apply map_err_Ok in R6.
  apply passkey_create_Ok in R6 as (Hn & Hp & Hck & H1' & H2' & H3' & H4' & _). cbn in H1', H2', H3', H4', Hn.
  assert (leaves [TPasskeys] w6 w' /\ stays_gone (registration_key sid) w6 w' /\ rg_passkey rg = row) as ((L & _) & G & Erow).
  { split_and!; [eapply keeps_run, R; tables_auto|eapply keeps_run, R; tables_auto|].
    unbind R a w8 R8. unbind R b w9 R9. unbind R us w10 R10. unbind R codes w11 R11. by apply ret_Ok in R as [-> _]. }
  specialize (L TPasskeys ltac:(by listed)). cbn in L.
  exists opened_for, parsed, c, key. rewrite Erow. split_and!; try done.
  - by rewrite R3.
  - by apply G, G6.
  - unfold passkeys in *. by rewrite L, Hp, D2.
  - intros k Hk. apply Hn. unfold passkeys in *. by rewrite D2.
  - rewrite H4'. by destruct key.
  - destruct key; by listed.
Qed.
End Registration.

(** * Witnesses *)

(** An instance to run the model with: client data is a byte for the ceremony
    and the challenge; an item is an ES256 key or the object of an attestation. *)
Definition toy_cbor (b : bytes) : option (cbor * nat) :=
  match b with
  | 1 :: rest =>
      if (64 <=? length rest)%nat
      then Some (CMap [(CInteger 1, CInteger 2); (CInteger 3, CInteger ALG_ES256); (CInteger (-1), CInteger 1);
                       (CInteger (-2), CBytes (take 32 rest)); (CInteger (-3), CBytes (take 32 (drop 32 rest)))], 65%nat)
      else None
  | 2 :: n :: rest =>
      if (Z.to_nat n <=? length rest)%nat
      then Some (CMap [(CText u"authData", CBytes (take (Z.to_nat n) rest))], (2 + Z.to_nat n)%nat)
      else None
  | _ => None
  end.

Lemma toy_cbor_app b v n rest : toy_cbor b = Some (v, n) -> toy_cbor (b ++ rest) = Some (v, n) /\ (n <= length b)%nat.
Proof.
  unfold toy_cbor. destruct b as [|x [|y l]]; [done|by destruct x as [|[[| |]|[| |]|]|]|].
  destruct (decide (x = 1)) as [->|H1].
  - destruct (Nat.leb_spec 64 (length (y :: l))) as [Hl|]; [|done]. intros [= <- <-]. cbn [app].
    change (y :: l ++ rest) with ((y :: l) ++ rest). rewrite length_app.
    replace (64 <=? length (y :: l) + length rest)%nat with true by (symmetry; apply Nat.leb_le; lia).
    rewrite (take_app_le (y :: l)), (drop_app_le (y :: l)), (take_app_le (drop 32 (y :: l))) by (rewrite ?length_drop; lia).
    split; [done|]. cbn [length] in *. lia.
  - destruct (decide (x = 2)) as [->|H2].
    + destruct (Nat.leb_spec (Z.to_nat y) (length l)) as [Hl|]; [|done]. intros [= <- <-]. cbn [app].
      rewrite length_app, take_app_le by done.
      replace (Z.to_nat y <=? length l + length rest)%nat with true by (symmetry; apply Nat.leb_le; lia).
      split; [done|]. cbn [length]. lia.
    + destruct x as [|[[| |]|[| |]|]|]; done.
Qed.

Lemma toy_cbor_take b v n : toy_cbor b = Some (v, n) -> toy_cbor (take n b) = Some (v, n).
Proof.
  unfold toy_cbor. destruct b as [|x [|y l]]; [done|by destruct x as [|[[| |]|[| |]|]|]|].
  destruct (decide (x = 1)) as [->|H1].
  - destruct (Nat.leb_spec 64 (length (y :: l))) as [Hl|]; [|done]. intros [= <- <-]. cbn [take]. cbn [length] in Hl.
    replace (64 <=? length (y :: take 63 l))%nat with true
      by (symmetry; apply Nat.leb_le; cbn [length]; rewrite length_take; lia).
    change (y :: take 63 l) with (take 64 (y :: l)).
    by rewrite take_take, skipn_firstn_comm, take_take.
  - destruct (decide (x = 2)) as [->|H2].
    + destruct (Nat.leb_spec (Z.to_nat y) (length l)) as [Hl|]; [|done]. intros [= <- <-]. cbn [take Nat.add].
      replace (Z.to_nat y <=? length (take (Z.to_nat y) l))%nat with true
        by (symmetry; apply Nat.leb_le; rewrite length_take; lia).
      by rewrite take_take, Nat.min_id.
    + destruct x as [|[[| |]|[| |]|]|]; done.
Qed.

#[export] Instance toy_webauthn : WebauthnCrates.
Proof.
  refine {| client_data_of b := match b with
              | kind :: challenge => Some {| cl_kind := if kind =? 1 then u"webauthn.get" else u"webauthn.create";
                  cl_challenge := challenge; cl_origin := u"https://app.example"; cl_cross_origin := false |}
              | [] => None
              end;
            cbor_read := toy_cbor;
            p256_verify point message signature := bool_decide (signature = toy_sha256 (point ++ message));
            ed25519_verify _ _ _ := None; rs256_verify _ _ _ _ := None |}.
  - intros b v n Hb. by apply (toy_cbor_app b v n []).
  - intros b v rest Hb. by apply (toy_cbor_app b v (length b) rest).
  - apply toy_cbor_take.
Defined.

Section Witnesses.
Import Scenario.Run Office.Office Passkey.
#[local] Existing Instance calm.

(** Account 8 has a passkey, used four times. *)
Definition key_bytes : bytes := 1 :: replicate 32 7 ++ replicate 32 8.

Definition bobs_key : Tables.Passkey :=
  {| pk_id := 60%N; pk_user_id := 8%N; pk_credential_id := [9; 9]; pk_public_key := key_bytes;
     pk_algorithm := ALG_ES256; pk_sign_count := 4; pk_aaguid := uuid_nil; pk_name := u"laptop";
     pk_backup_eligible := false; pk_backed_up := false; pk_created_at := 0; pk_last_used_at := None |}.

Definition keyed_office : World (H := redis_gmap) := with_db (set_passkeys (fun _ => [bobs_key])) office.

(** A challenge is issued, the authenticator answers it. *)
Definition challenged_run := authentication_options keyed_office.
Definition the_challenge : bytes := draw_bytes 32 0.
Definition the_client_data : bytes := 1 :: b64url the_challenge.
Definition the_auth_data : bytes := sha256 (as_bytes u"app.example") ++ [5] ++ be_text 4 5.

Definition the_assertion : Assertion :=
  {| as_raw_id := b64url [9; 9]; as_client_data_json := b64url the_client_data;
     as_authenticator_data := b64url the_auth_data;
     as_signature := b64url (toy_sha256 ([4] ++ replicate 32 7 ++ replicate 32 8 ++ signed_message the_auth_data the_client_data));
     as_user_handle := Some (b64url (uuid_as_bytes 8%N)) |}.

Definition passkey_run := sign_in the_assertion None None None false None challenged_run.1.

Definition passkey_tokens : AuthTokens :=
  match passkey_run.2 with
  | Ok t => t
  | Err _ => {| at_access_token := []; at_refresh_token := []; at_session := first |}
  end.

Lemma passkey_run_ok : sign_in the_assertion None None None false None challenged_run.1 = (passkey_run.1, Ok passkey_tokens).
Proof. apply run_answer. vm_compute. reflexivity. Qed.

Lemma challenged_users : t_users (w_db challenged_run.1) = t_users tables.
Proof. vm_compute. reflexivity. Qed.

Lemma challenged_office_keyed : users_keyed (w_db challenged_run.1).
Proof.
  unfold users_keyed. rewrite challenged_users. unfold tables, set_users. cbn.
  by intros i r [[<- <-]|[_ [<- <-]%lookup_singleton_Some]]%lookup_insert_Some.
Qed.


Lemma assertion_not_replayed_witness :
  exists e, (sign_in the_assertion None None None true None passkey_run.1).2 = Err e.
Proof.
  destruct (assertion_not_replayed the_assertion the_assertion None None None None None None false true None None
              _ _ passkey_run.1 _ passkey_run_ok) as [_ He].
  - intros challenge Hg. exact Hg.
  - reflexivity.
  - exact He.
Defined.

(** The bytes of an assertion without extensions. *)
Lemma authenticator_data_exact_witness :
  parse_authenticator_data the_auth_data =
    Ok {| rp_id_hash := sha256 (as_bytes u"app.example"); flags := 5; sign_count := 5; attested := None |}.
Proof.
  apply (authenticator_data_exact the_auth_data).
  - change (Forall (fun b => 0 <= b < 256) the_auth_data). apply (bool_decide_unpack _). vm_compute. exact I.
  - exists []. split; [vm_compute; reflexivity|]. split; [vm_compute; reflexivity|cbn; lia|reflexivity|reflexivity].
Defined.

(** Account 8 registers another one. *)
Definition pending_run : World :=
  (redis_cmd (fun s t => (r_set_ex s t (registration_key 3%N)
     (RStr (to_json_text {| pr_challenge := the_challenge; pr_user := 8%N |})) CHALLENGE_TTL_SECS, tt)) keyed_office).1.

Definition other_auth_data : bytes :=
  sha256 (as_bytes u"app.example") ++ [0x45] ++ be_text 4 0 ++ replicate 16 3 ++ be_text 2 2 ++ [6; 6] ++ key_bytes.

Definition the_attestation : Attestation :=
  {| an_raw_id := b64url [6; 6]; an_client_data_json := b64url (2 :: b64url the_challenge);
     an_attestation_object := b64url (2 :: Z.of_nat (length other_auth_data) :: other_auth_data) |}.

Definition registered_run := register 8%N 3%N u" phone " the_attestation None None pending_run.
Definition registered_value : Registered :=
  match registered_run.2 with Ok r => r | Err _ => {| rg_passkey := bobs_key; rg_recovery_codes := None |} end.

Lemma registered_ok : register 8%N 3%N u" phone " the_attestation None None pending_run = (registered_run.1, Ok registered_value).
Proof. apply run_answer. vm_compute. reflexivity. Qed.

Lemma passkey_registration_sound_witness :
  passkeys (w_db registered_run.1) = passkeys (w_db pending_run) ++ [rg_passkey registered_value] /\
  pk_user_id (rg_passkey registered_value) = 8%N.
Proof.
  destruct (passkey_registration_sound 8%N 3%N u" phone " the_attestation None None _ _ _ registered_ok)
    as (opened_for & parsed & c & key & _ & _ & _ & _ & Hp & _ & Hu & _).
  split; [exact Hp|exact Hu].
Defined.
End Witnesses.
