(* ===== verification/External.v ===== *)
(** External identity providers (src/src/services/external_identity.rs): starting
    a sign-in or a link, the redirect back from the provider, and the two
    completions.  The exchanges with providers and the reading of their tokens
    are interfaces. *)
From S2P Require Import Prelude Crates Codec Session Account OAuthDomain Network Edge Crypto Tables App Outside RedisCounter SessionRepo Repos Tokens UserRepo AccessRepo TokenRepo Refresh Login SecondFactor OneTime SelfService Factors DeviceFlow Passkeys.
Import Account.User Account.Audit OAuthDomain.ExternalIdentity.

(** * The crates *)

(** [reqwest]: where an exchange ended, before [send], at [error_for_status] or
    at [json]. *)
Inductive Exchange := NotSent | Refused | Malformed.

(** [jsonwebtoken::Algorithm]. *)
Inductive TokenAlgorithm := RS256 | ES256 | PS256 | EdDSA | OtherAlgorithm.

Class ProviderCrates := {
  (** [get(url)], with the bearer token given, and [post(url).form(form)]. *)
  http_get : nat -> str -> option str -> result json Exchange;
  http_form : nat -> str -> list (str * str) -> result json Exchange;
  Jwk : Type;
  ProviderKey : Type;
  (** [jsonwebtoken::decode_header]: the algorithm and the key id. *)
  id_token_header : str -> option (TokenAlgorithm * option str);
  (** [serde_json::from_value::<JwkSet>], the key id of a key, [from_jwk]. *)
  jwk_set : json -> option (list Jwk);
  jwk_kid : Jwk -> option str;
  key_of_jwk : Jwk -> option ProviderKey;
  (** [jsonwebtoken::decode] without the checks on claims. *)
  id_token_decode : str -> ProviderKey -> TokenAlgorithm -> option json;
}.

(** * The service *)

Module External.

(** ** What is kept between the requests *)

Inductive Intent := SignIn | Link.

#[export] Instance intent_eq_dec : EqDecision Intent.
Proof. solve_decision. Defined.

Record Pending := {
  pd_provider : str;
  pd_intent : Intent;
  pd_user_id : option Uuid;
  pd_verifier : str;
  pd_nonce : str;
  pd_binding_hash : str;
}.

Record Outcome := {
  oc_provider : str;
  oc_intent : Intent;
  oc_binding_hash : str;
  oc_user_id : option Uuid;
  oc_identity_id : option Uuid;
  oc_subject : option str;
  oc_error : option str;
}.

Record Started := { sd_authorization_url : str; sd_binding : str }.

#[export] Instance codec_intent : Codec Intent.
Proof.
  refine (codec_iso (fun i => bool_decide (i = Link)) (fun b : bool => Some (if b then Link else SignIn)) _).
  by intros [].
Defined.

#[export] Instance codec_pending_link : Codec Pending.
Proof.
  refine (codec_iso
    (fun s => (pd_provider s, (pd_intent s, (pd_user_id s, (pd_verifier s, (pd_nonce s, pd_binding_hash s))))))
    (fun '(provider, (intent, (user_id, (verifier, (nonce, binding))))) =>
       Some {| pd_provider := provider; pd_intent := intent; pd_user_id := user_id; pd_verifier := verifier;
               pd_nonce := nonce; pd_binding_hash := binding |}) _).
  by intros [].
Defined.

#[export] Instance codec_outcome : Codec Outcome.
Proof.
  refine (codec_iso
    (fun s => (oc_provider s, (oc_intent s, (oc_binding_hash s, (oc_user_id s, (oc_identity_id s, (oc_subject s, oc_error s)))))))
    (fun '(provider, (intent, (binding, (user_id, (identity_id, (subject, error)))))) =>
       Some {| oc_provider := provider; oc_intent := intent; oc_binding_hash := binding; oc_user_id := user_id;
               oc_identity_id := identity_id; oc_subject := subject; oc_error := error |}) _).
  by intros [].
Defined.

#[export] Instance toy_federation_serde : Serde Pending := serde_of_codec.
#[export] Instance toy_outcome_serde : Serde Outcome := serde_of_codec.

Definition PENDING_PREFIX : str := u"external_pending:".
Definition OUTCOME_PREFIX : str := u"external_outcome:".
Definition PENDING_TTL_SECS : Z := 600.
Definition OUTCOME_TTL_SECS : Z := 120.
Definition DISCOVERY_TTL : Duration := seconds 600.
Definition JWKS_REFRESH_MIN_AGE : Duration := seconds 30.

Section Service.
Context `{RedisServer} `{Env} `{TimeCrate} `{CryptoCrates} `{SqlText} `{IpNetworkCrate} `{!Jwt}.
Context `{MacCrate} `{AeadCrate} `{HyperLogLog} `{Passwords} `{PreAuthSerde} `{UrlCrate} `{ProviderCrates}.
Context `{!Serde Pending} `{!Serde Outcome}.

Definition provider (name : str) : option IdentityProviderConfig :=
  List.find (fun p => str_eqb (idp_name p) name) (cfg_identity_providers config).

Definition redirect_uri (p : IdentityProviderConfig) : str :=
  cfg_public_url config ++ u"/auth/external/" ++ idp_name p ++ u"/callback".

Definition hex_digest (value : str) : str := hex_text (sha256 (as_bytes value)).

Definition pending_key (state_param : str) : str := PENDING_PREFIX ++ hex_digest state_param.
Definition outcome_key (code : str) : str := OUTCOME_PREFIX ++ hex_digest code.

(** ** Documents of providers *)

Definition cached (cache_key : str) (w : World) : option (nat * json) :=
  snd <$> List.find (fun x => str_eqb x.1 cache_key) (w_documents w).

(** [HashMap::insert] and [remove]. *)
Definition without_document (cache_key : str) (l : list (str * (nat * json))) : list (str * (nat * json)) :=
  List.filter (fun x => negb (str_eqb x.1 cache_key)) l.

Definition insert_document {E} (cache_key : str) (value : json) : M E unit :=
  tell (fun w => set_documents ((cache_key, (w_io w, value)) :: without_document cache_key (w_documents w)) w).

Definition forget_if_older {E} (cache_key : str) (min_age : Duration) : M E bool :=
  fun w =>
    match cached cache_key w with
    | Some (fetched, _) =>
        if min_age <=? stopwatch fetched (w_io w)
        then (set_documents (without_document cache_key (w_documents w)) w, Ok true)
        else (w, Ok false)
    | None => (w, Ok false)
    end.

Definition stage (not_sent refused malformed : str) (r : result json Exchange) : result json str :=
  match r with
  | Ok v => Ok v
  | Err NotSent => Err not_sent
  | Err Refused => Err refused
  | Err Malformed => Err malformed
  end.

Definition field (name : str) (v : json) : option str := Crates.as_str (json_index name v).

(** The endpoints named are over the transport of the issuer. *)
Definition same_transport (scheme : str) (value : json) (name : str) : bool :=
  match field name value with
  | None => true
  | Some endpoint => match url_parse endpoint with Ok url => str_eqb (url_scheme url) scheme | Err _ => false end
  end.

Definition ENDPOINTS : list str := [u"authorization_endpoint"; u"token_endpoint"; u"jwks_uri"].

Definition metadata_fault (expected_issuer : option str) (value : json) : option str :=
  match expected_issuer with
  | None => None
  | Some expected =>
      if negb (bool_decide (field u"issuer" value = Some expected)) then Some u"metadata of another issuer"
      else match url_parse expected with
      | Err _ => Some u"unreadable issuer"
      | Ok url =>
          if forallb (same_transport (url_scheme url) value) ENDPOINTS then None
          else Some u"metadata endpoint over another transport"
      end
  end.

Definition fetch_json (cache_key url : str) (expected_issuer : option str) : M str json :=
  known ← asks (fun w => match cached cache_key w with
                         | Some (fetched, value) =>
                             if stopwatch fetched (w_io w) <? DISCOVERY_TTL then Some value else None
                         | None => None
                         end);
  match known with
  | Some value => mret value
  | None =>
      answer ← http (fun n => http_get n url None);
      value ← lift (stage u"metadata request failed" u"metadata request refused" u"malformed metadata" answer);
      match metadata_fault expected_issuer value with
      | Some reason => fail reason
      | None => _ ← insert_document cache_key value; mret value
      end
  end.

Definition discovery_key (p : IdentityProviderConfig) : str := u"discovery:" ++ idp_issuer p.

Definition discovery (p : IdentityProviderConfig) : M AppError json :=
  map_err (fun _ => ServiceUnavailable u"identity_provider")
    (fetch_json (discovery_key p) (idp_issuer p ++ u"/.well-known/openid-configuration") (Some (idp_issuer p))).

(** ** Starting *)

Definition unavailable : AppError := ServiceUnavailable u"identity_provider".

Definition authorization_endpoint (p : IdentityProviderConfig) : M AppError str :=
  match idp_kind p with
  | Oidc =>
      metadata ← discovery p;
      ok_or (field u"authorization_endpoint" metadata) unavailable
  | Github => mret (idp_authorization_url p)
  end.

Definition authorization_parameters (p : IdentityProviderConfig) (state_param verifier nonce : str) :
    list (str * str) :=
  [(u"response_type", u"code"); (u"client_id", idp_client_id p); (u"redirect_uri", redirect_uri p);
   (u"scope", join u" " (idp_scopes p)); (u"state", state_param);
   (u"code_challenge", b64url (sha256 (as_bytes verifier))); (u"code_challenge_method", u"S256")]
  ++ match idp_kind p with Oidc => [(u"nonce", nonce)] | Github => [] end.

Definition start (provider_name : str) (intent : Intent) (user_id : option Uuid) : M AppError Started :=
  p ← ok_or (provider provider_name) NotFound;
  state_param ← generate_token;
  verifier ← generate_token;
  nonce ← generate_token;
  binding ← generate_token;
  endpoint ← authorization_endpoint p;
  authorization_url ← ok_or (OAuth.redirect_with endpoint (authorization_parameters p state_param verifier nonce))
                        unavailable;
  let pending := {| pd_provider := idp_name p; pd_intent := intent; pd_user_id := user_id; pd_verifier := verifier;
                    pd_nonce := nonce; pd_binding_hash := hex_digest binding |} in
  _ ← Device.redis_internal redis_conn;
  _ ← Device.redis_internal (redis_cmd (fun s t =>
        (r_set_ex s t (pending_key state_param) (RStr (to_json_text pending)) PENDING_TTL_SECS, tt)));
  mret {| sd_authorization_url := authorization_url; sd_binding := binding |}.

(** ** Naming the person *)

(** The form is for the provider: it carries the client secret. *)
Definition post_form (url : str) (form : list (str * str)) : M str json :=
  _ ← tell (add_sent (Submitted url form));
  answer ← http (fun n => http_form n url form);
  lift (stage u"token request failed" u"token request refused" u"malformed token response" answer).

Definition accepted_algorithm (alg : TokenAlgorithm) : bool :=
  match alg with OtherAlgorithm => false | _ => true end.

Definition find_jwk (kid : option str) (jwks : json) : result (option Jwk) str :=
  match jwk_set jwks with
  | None => Err u"malformed jwks"
  | Some keys =>
      Ok (match kid with
          | Some kid => List.find (fun k => bool_decide (jwk_kid k = Some kid)) keys
          | None => match keys with [k] => Some k | _ => None end
          end)
  end.

Definition signing_jwk (p : IdentityProviderConfig) (kid : option str) (jwks_uri : str) : M str (option Jwk) :=
  let cache_key := u"jwks:" ++ idp_name p in
  jwks ← fetch_json cache_key jwks_uri None;
  jwk ← lift (find_jwk kid jwks);
  match jwk with
  | Some jwk => mret (Some jwk)
  | None =>
      dropped ← forget_if_older cache_key JWKS_REFRESH_MIN_AGE;
      if dropped : bool then jwks ← fetch_json cache_key jwks_uri None; lift (find_jwk kid jwks)
      else mret None
  end.

Definition verify_id_token (p : IdentityProviderConfig) (metadata : json) (id_token : str) : M str json :=
  header ← ok_or (id_token_header id_token) u"malformed id token";
  let '(alg, kid) := header in
  if negb (accepted_algorithm alg) then fail u"unsupported id token algorithm"
  else
    jwks_uri ← ok_or (field u"jwks_uri" metadata) u"no jwks uri";
    found ← signing_jwk p kid jwks_uri;
    jwk ← ok_or found u"unknown signing key";
    key ← ok_or (key_of_jwk jwk) u"unusable signing key";
    ok_or (id_token_decode id_token key alg) u"bad id token signature".

Definition token_form (p : IdentityProviderConfig) (code : str) (pending : Pending) : list (str * str) :=
  [(u"grant_type", u"authorization_code"); (u"code", code); (u"redirect_uri", redirect_uri p);
   (u"client_id", idp_client_id p); (u"client_secret", idp_client_secret p);
   (u"code_verifier", pd_verifier pending)].

Definition identify (p : IdentityProviderConfig) (code : str) (pending : Pending) : M str str :=
  let form := token_form p code pending in
  match idp_kind p with
  | Oidc =>
      metadata ← map_err (fun _ => u"discovery failed") (discovery p);
      token_endpoint ← ok_or (field u"token_endpoint" metadata) u"no token endpoint";
      tokens ← post_form token_endpoint form;
      id_token ← ok_or (field u"id_token" tokens) u"no id token";
      claims ← verify_id_token p metadata id_token;
      now ← clock_now;
      lift (id_token_subject claims {| exp_issuer := idp_issuer p; exp_client_id := idp_client_id p;
                                       exp_nonce := pd_nonce pending; exp_now := unix_timestamp now |})
  | Github =>
      tokens ← post_form (idp_token_url p) form;
      access_token ← ok_or (field u"access_token" tokens) u"no access token";
      answer ← http (fun n => http_get n (idp_user_url p) (Some access_token));
      person ← lift (stage u"user request failed" u"user request refused" u"malformed user" answer);
      ok_or (github_subject person) u"no user id"
  end.

(** ** The redirect back *)

(** What an identified person stands for; nothing is linked here. *)
Definition settle (p : IdentityProviderConfig) (pending : Pending) (subject : str) :
    M AppError (result (Uuid * option Uuid) str) :=
  existing ← internal (identity_find_by_subject (idp_name p) subject);
  match pd_intent pending, existing, pd_user_id pending with
  | SignIn, Some identity, _ =>
      _ ← internal (identity_touch (xi_id identity));
      mret (Ok (xi_user_id identity, Some (xi_id identity)))
  | SignIn, None, _ => mret (Err u"not_linked")
  | Link, Some identity, owner =>
      if bool_decide (owner = Some (xi_user_id identity)) then mret (Ok (xi_user_id identity, Some (xi_id identity)))
      else mret (Err u"already_linked")
  | Link, None, Some user_id => mret (Ok (user_id, None))
  | Link, None, None => mret (Err u"invalid_request")
  end.

Definition frontend (params : list (str * str)) : M AppError str :=
  ok_or (OAuth.redirect_with (cfg_external_login_uri config) params) Internal.

Definition outcome_of (p : IdentityProviderConfig) (pending : Pending) (user_id identity_id : option Uuid)
    (subject error : option str) : Outcome :=
  {| oc_provider := idp_name p; oc_intent := pd_intent pending; oc_binding_hash := pd_binding_hash pending;
     oc_user_id := user_id; oc_identity_id := identity_id; oc_subject := subject; oc_error := error |}.

Definition judge_return (p : IdentityProviderConfig) (pending : Pending) (parameters : list (str * str)) :
    M AppError Outcome :=
  identified ← match OAuth.parameter parameters u"error", OAuth.parameter parameters u"code" with
               | None, Some code => attempt (identify p code pending)
               | _, _ => mret (Err u"provider_refused")
               end;
  match identified with
  | Err _ => mret (outcome_of p pending None None None (Some u"provider_error"))
  | Ok subject =>
      settled ← settle p pending subject;
      mret (match settled with
            | Ok (user_id, identity_id) =>
                outcome_of p pending (Some user_id) identity_id
                  (match identity_id with None => Some subject | Some _ => None end) None
            | Err code => outcome_of p pending None None None (Some code)
            end)
  end.

Definition callback (provider_name : str) (parameters : list (str * str)) : M AppError str :=
  p ← ok_or (provider provider_name) NotFound;
  match OAuth.parameter parameters u"state" with
  | None => frontend [(u"error", u"invalid_request")]
  | Some state_param =>
      _ ← Device.redis_internal redis_conn;
      stored ← Device.redis_internal (redis_cmd (Passkey.get_del (pending_key state_param)));
      match stored ≫= from_json_text with
      | None => frontend [(u"error", u"expired")]
      | Some pending =>
          if negb (str_eqb (pd_provider pending) (idp_name p)) then frontend [(u"error", u"invalid_request")]
          else
            outcome ← judge_return p pending parameters;
            code ← generate_token;
            _ ← Device.redis_internal redis_conn;
            _ ← Device.redis_internal (redis_cmd (fun s t =>
                  (r_set_ex s t (outcome_key code) (RStr (to_json_text outcome)) OUTCOME_TTL_SECS, tt)));
            frontend [(u"code", code)]
      end
  end.

(** ** Completing *)

Definition take_outcome (code binding : str) (intent : Intent) : M AppError Outcome :=
  _ ← Device.redis_internal redis_conn;
  stored ← Device.redis_internal (redis_cmd (Passkey.get_del (outcome_key code)));
  outcome ← ok_or (stored ≫= from_json_text) TokenInvalid;
  if negb (constant_time_eq (as_bytes (oc_binding_hash outcome)) (as_bytes (hex_digest binding)))
     || negb (bool_decide (oc_intent outcome = intent))
  then fail TokenInvalid
  else match oc_error outcome with
  | None => mret outcome
  | Some error =>
      if str_eqb error u"not_linked" then fail (Conflict u"external_identity_not_linked")
      else if str_eqb error u"already_linked" then fail (Conflict u"external_identity_already_linked")
      else fail unavailable
  end.

Definition complete_sign_in (code binding : str) (ip : option IpNetwork) (user_agent device_name : option str)
    (remember_me : bool) (request_id : option Uuid) : M AppError LoginResult :=
  outcome ← take_outcome code binding SignIn;
  user_id ← ok_or (oc_user_id outcome) TokenInvalid;
  found ← internal (user_find_by_id user_id);
  user ← ok_or found TokenInvalid;
  _ ← lift (ensure_account_usable user);
  first_factor_proven user None ip user_agent device_name remember_me request_id
    (JObj [(u"method", JStr u"external"); (u"provider", JStr (oc_provider outcome))]).

Definition link_in_tx (user_id : Uuid) (p : IdentityProviderConfig) (subject : str) : M AppError ExternalIdentity :=
  linked ← attempt (identity_link user_id (idp_name p) subject);
  match linked with
  | Ok identity =>
      _ ← internal (audit_append {| na_user_id := Some user_id; na_request_id := None;
            na_action := ExternalIdentityLinked; na_ip_address := None;
            na_metadata := JObj [(u"provider", JStr (idp_name p))] |});
      mret identity
  | Err (UniqueViolation _) => fail (Conflict u"external_identity_already_linked")
  | Err _ => fail Internal
  end.

Definition complete_link (user_id : Uuid) (code binding : str) : M AppError ExternalIdentity :=
  outcome ← take_outcome code binding Link;
  if negb (bool_decide (oc_user_id outcome = Some user_id)) then fail TokenInvalid
  else match oc_identity_id outcome with
  | Some identity_id =>
      own ← internal (identities_find_by_user user_id);
      ok_or (List.find (fun x => bool_decide (xi_id x = identity_id)) own) NotFound
  | None =>
      subject ← ok_or (oc_subject outcome) TokenInvalid;
      p ← ok_or (provider (oc_provider outcome)) NotFound;
      identity ← transaction Internal (link_in_tx user_id p subject);
      _ ← notify_access_added user_id {| ai_kind := u"external_identity"; ai_name := idp_display_name p |};
      mret identity
  end.

Definition start_link (user_id session_id : Uuid) (provider_name : str) (ip : option IpNetwork)
    (request_id : option Uuid) : M AppError Started :=
  _ ← require_recent_reauth_or_password user_id session_id None ip request_id u"link_external_identity";
  start provider_name Link (Some user_id).

Definition list_identities (user_id : Uuid) : M AppError (list ExternalIdentity) :=
  internal (identities_find_by_user user_id).

Definition unlink (user_id session_id id : Uuid) (current_password : option str) (ip : option IpNetwork)
    (request_id : option Uuid) : M AppError unit :=
  _ ← require_recent_reauth_or_password user_id session_id current_password ip request_id
        u"unlink_external_identity";
  deleted ← internal (identity_delete_owned id user_id);
  if negb deleted then fail NotFound
  else
    internal (audit_append {| na_user_id := Some user_id; na_request_id := request_id;
      na_action := ExternalIdentityUnlinked; na_ip_address := ip;
      na_metadata := JObj [(u"identity_id", JStr (uuid_str id))] |}).
End Service.
End External.

(** ** Exchanges and relations between worlds *)

(** One that looks neither at what was fetched nor at what was sent. *)
Class OutFrame `{RedisServer} (R : World -> World -> Prop) := {
  frame_documents : forall l w, R w (set_documents l w);
  frame_sent : forall x w, R w (add_sent x w);
}.

Section OutFrames.
Context `{RedisServer}.

#[export] Instance same_db_out : OutFrame same_db.
Proof. split; unfold same_db, same_clocks; done. Qed.

#[export] Instance pres_out (P : Db -> Prop) : OutFrame (pres P).
Proof. split; unfold pres; done. Qed.

#[export] Instance leaves_out (ts : list table) : OutFrame (leaves ts).
Proof. split; (intros; split; [intros; apply agree_refl|done]). Qed.
End OutFrames.

Section Keeping.
Context `{RedisServer} `{Env} `{UrlCrate} `{ProviderCrates} {R : World -> World -> Prop} `{!CoreFrame R, !OutFrame R}.

Lemma keeps_fetch_json k url expected : keeps R (External.fetch_json k url expected).
Proof.
  unfold External.fetch_json, http. frame_auto.
  - intros w. apply frame_io.
  - intros w. apply frame_documents.
Qed.

Lemma keeps_forget {E} k age : keeps R (External.forget_if_older k age : M E bool).
Proof.
  intros w. unfold External.forget_if_older. destruct (External.cached k w) as [[n v]|]; [|apply frame_refl].
  destruct (_ <=? _); [apply frame_documents|apply frame_refl].
Qed.

Lemma keeps_post_form url form : keeps R (External.post_form url form).
Proof.
  unfold External.post_form, http. frame_auto; intros w; [apply frame_sent|apply frame_io].
Qed.
End Keeping.

#[export] Hint Resolve keeps_fetch_json keeps_forget keeps_post_form : frame.
#[export] Hint Extern 1 (OutFrame _) => apply _ : frame.

(** ** An instance to run the model with

    A provider whose ID tokens are the verifier they were asked with: the nonce
    it saw is the token drawn next. *)

Definition corp_metadata : json :=
  JObj [(u"authorization_endpoint", JStr u"https://idp.example/authorize"); (u"issuer", JStr u"https://idp.example");
        (u"jwks_uri", JStr u"https://idp.example/keys"); (u"token_endpoint", JStr u"https://idp.example/token")].

Definition next_token (token : str) : str := removelast token ++ [default 0 (last token) + 1].

#[export] Instance toy_provider : ProviderCrates :=
  {| http_get := fun _ url _ =>
       if str_eqb url u"https://idp.example/.well-known/openid-configuration" then Ok corp_metadata
       else if str_eqb url u"https://idp.example/keys" then Ok JNull else Err Refused;
     http_form := fun _ url form =>
       if str_eqb url u"https://idp.example/token"
       then Ok (JObj [(u"id_token", JStr (default [] (OAuth.parameter form u"code_verifier")))]) else Err NotSent;
     Jwk := unit; ProviderKey := unit;
     id_token_header := fun _ => Some (RS256, None);
     jwk_set := fun _ => Some [tt]; jwk_kid := fun _ => None; key_of_jwk := fun _ => Some tt;
     id_token_decode := fun id_token _ _ =>
       Some (JObj [(u"aud", JStr u"auth"); (u"exp", JNum (JInt 1000)); (u"iss", JStr u"https://idp.example");
                   (u"nonce", JStr (next_token id_token)); (u"sub", JStr u"42")]) |}.

#[export] Existing Instance External.toy_federation_serde.
#[export] Existing Instance External.toy_outcome_serde.
