(* ===== verification/ExternalCorrect.v ===== *)
(** Theorems about external identity providers: whom a sign-in or a link names,
    in which browser it was begun, and where client secrets go. *)
From S2P Require Import Prelude Crates Codec Session Account OAuthDomain Network Edge Crypto Tables App Outside RedisCounter SessionRepo Repos Tokens UserRepo AccessRepo TokenRepo AccountsOk Scenario TokensCorrect Refresh RefreshCorrect Login LoginCorrect SecondFactor SecondFactorCorrect OneTime OneTimeCorrect SelfService Guard Factors Administration Office DeviceFlow DeviceCorrect Passkeys External.
Import Account.User Account.Audit OAuthDomain.ExternalIdentity External.External.

(** * What providers say *)

Section Providers.
Context `{RedisServer} `{Env} `{TimeCrate} `{CryptoCrates} `{UrlCrate} `{ProviderCrates}.

(** The metadata of a provider: published by its issuer, in its name, its
    endpoints over the transport of the issuer. *)
Definition transport_of (issuer : str) (v : json) (name : str) : Prop :=
  forall endpoint, field name v = Some endpoint ->
  exists u0 u1, url_parse endpoint = Ok u0 /\ url_parse issuer = Ok u1 /\ url_scheme u0 = url_scheme u1.

Definition metadata_of (issuer : str) (v : json) : Prop :=
  field u"issuer" v = Some issuer /\
  Forall (transport_of issuer v) [u"authorization_endpoint"; u"token_endpoint"; u"jwks_uri"] /\
  exists n, http_get n (issuer ++ u"/.well-known/openid-configuration") None = Ok v.

Lemma sound_metadata issuer v : metadata_fault (Some issuer) v = None ->
  field u"issuer" v = Some issuer /\
  Forall (transport_of issuer v) [u"authorization_endpoint"; u"token_endpoint"; u"jwks_uri"].
Proof.
  unfold metadata_fault. destruct (bool_decide _) eqn:Ei; [|done]. apply bool_decide_eq_true in Ei. cbn [negb].
  destruct (url_parse issuer) as [u1|] eqn:E1; [|done]. destruct (forallb _ _) eqn:Ea; [|done]. intros _.
  split; [done|]. apply Forall_forall. intros name Hn endpoint He.
  rewrite forallb_forall in Ea. specialize (Ea name (proj1 (list_elem_of_In _ _) Hn)).
  unfold same_transport in Ea. rewrite He in Ea. destruct (url_parse endpoint) as [u0|] eqn:E0; [|done]. breflect.
  by exists u0, u1.
Qed.

(** The keys of a provider: published where its metadata says. *)
Definition keys_of (p : IdentityProviderConfig) (v : json) : Prop :=
  exists metadata uri n, metadata_of (idp_issuer p) metadata /\ field u"jwks_uri" metadata = Some uri /\
    http_get n uri None = Ok v.

(** What is remembered under a key. *)
Definition document_ok (k : str) (v : json) : Prop :=
  (exists issuer, k = u"discovery:" ++ issuer /\ metadata_of issuer v) \/
  (exists p, k = u"jwks:" ++ idp_name p /\ provider (idp_name p) = Some p /\ keys_of p v).

Definition documents_ok (w : World) : Prop := Forall (fun x => document_ok x.1 x.2.2) (w_documents w).

Lemma discovery_document issuer v : document_ok (u"discovery:" ++ issuer) v -> metadata_of issuer v.
Proof. intros [(i & E & Hm)|(p & E & _)]; [|discriminate E]. apply app_inv_head in E as <-. exact Hm. Qed.

Lemma jwks_document p v : provider (idp_name p) = Some p -> document_ok (u"jwks:" ++ idp_name p) v -> keys_of p v.
Proof.
  intros Hp [(i & E & _)|(p' & E & Hp' & Hk)]; [discriminate E|]. apply app_inv_head in E. rewrite <- E in Hp'.
  by simplify_eq.
Qed.

Lemma provider_named name p : provider name = Some p -> idp_name p = name /\ provider (idp_name p) = Some p.
Proof.
  intros Hp. assert (idp_name p = name) as E; [|split; [done|by rewrite E]].
  apply find_some in Hp as [_ Hp]. by breflect.
Qed.

(** ** Exchanges leave the tables, Redis and the clocks alone *)

Definition untouched (w w' : World) : Prop :=
  w_db w' = w_db w /\ w_redis w' = w_redis w /\ same_clocks w w'.

#[export] Instance untouched_frame : CoreFrame untouched.
Proof. constructor; unfold untouched, same_clocks; try done. naive_solver congruence. Qed.

(** From sound documents at [now], to sound documents, and a sound answer. *)
Definition exchange (now : Z) {E A} (m : M E A) (Q : A -> Prop) : Prop :=
  forall w, documents_ok w -> w_now w = now ->
    documents_ok (m w).1 /\ untouched w (m w).1 /\ forall a, (m w).2 = Ok a -> Q a.

Lemma exchange_bind now {E A B} (m : M E A) (k : A -> M E B) Q Q' :
  exchange now m Q -> (forall a, Q a -> exchange now (k a) Q') -> exchange now (m ≫= k) Q'.
Proof.
  intros Hm Hk w Hd Hn. specialize (Hm w Hd Hn). unfold mbind, M_bind in *.
  destruct (m w) as [w1 [a|e]]; cbn in *; destruct Hm as (D1 & U1 & Q1); [|split_and!; done].
  destruct (Hk a (Q1 a eq_refl) w1 D1) as (D2 & U2 & Q2); [rewrite <- Hn; apply U1|].
  split_and!; [done|by eapply frame_trans|done].
Qed.

Lemma exchange_weaken now {E A} (m : M E A) (Q Q' : A -> Prop) :
  exchange now m Q -> (forall a, Q a -> Q' a) -> exchange now m Q'.
Proof. intros Hm HQ w Hd Hn. destruct (Hm w Hd Hn) as (? & ? & ?). split_and!; auto. Qed.

Lemma exchange_ret now {E A} (a : A) (Q : A -> Prop) : Q a -> exchange now (mret a : M E A) Q.
Proof. intros Hq w Hd _. split_and!; [done|apply frame_refl|]. by intros a' [= <-]. Qed.

Lemma exchange_fail now {E A} (e : E) (Q : A -> Prop) : exchange now (fail e : M E A) Q.
Proof. intros w Hd _. split_and!; [done|apply frame_refl|done]. Qed.

Lemma exchange_ok_or now {E A} (o : option A) (e : E) (Q : A -> Prop) :
  (forall a, o = Some a -> Q a) -> exchange now (ok_or o e) Q.
Proof. intros Hq. destruct o as [a|]; [by apply exchange_ret, Hq|apply exchange_fail]. Qed.

Lemma exchange_lift now {E A} (r : result A E) (Q : A -> Prop) :
  (forall a, r = Ok a -> Q a) -> exchange now (lift r) Q.
Proof. intros Hq w Hd _. split_and!; [done|apply frame_refl|exact Hq]. Qed.

Lemma exchange_http now {E A} (f : nat -> A) (Q : A -> Prop) :
  (forall n, Q (f n)) -> exchange now (http f : M E A) Q.
Proof. intros Hq w Hd _. split_and!; [done|apply frame_io|]. by intros a [= <-]. Qed.

Lemma exchange_map_err now {E E' A} (g : E -> E') (m : M E A) Q : exchange now m Q -> exchange now (map_err g m) Q.
Proof.
  intros Hm w Hd Hn. specialize (Hm w Hd Hn). unfold map_err. destruct (m w) as [w1 [a|e]]; cbn in *;
    destruct Hm as (? & ? & Hq); (split_and!; [done|done|]); [|done]. intros a' [= <-]. by apply Hq.
Qed.

Lemma without_ok k l : Forall (fun x => document_ok x.1 x.2.2) l ->
  Forall (fun x => document_ok x.1 x.2.2) (without_document k l).
Proof. unfold without_document. induction 1; [constructor|]. cbn. destruct (negb _); [by constructor|done]. Qed.

Lemma exchange_insert now {E} k v : document_ok k v -> exchange now (insert_document k v : M E unit) (fun _ => True).
Proof.
  intros Hv w Hd _. split_and!; [|done|done]. unfold documents_ok. cbn. constructor; [exact Hv|by apply without_ok].
Qed.

Lemma exchange_forget now {E} k age : exchange now (forget_if_older k age : M E bool) (fun _ => True).
Proof.
  intros w Hd _. unfold forget_if_older. destruct (cached k w) as [[n v]|]; [|split_and!; [done|apply frame_refl|done]].
  destruct (_ <=? _); (split_and!; [|done|done]); [|done]. by apply without_ok.
Qed.

Lemma cached_ok k w n v : documents_ok w -> cached k w = Some (n, v) -> document_ok k v.
Proof.
  intros Hd Hc. apply fmap_Some in Hc as ([k' [n' v']] & Hf & [= <- <-]). apply find_some in Hf as [Hin Hk].
  cbn in Hk. breflect. subst k'. unfold documents_ok in Hd. rewrite Forall_forall in Hd.
  by apply (Hd (k, (n, v))), list_elem_of_In.
Qed.

Lemma exchange_fetch now k url expected :
  (forall n v, http_get n url None = Ok v -> metadata_fault expected v = None -> document_ok k v) ->
  exchange now (fetch_json k url expected) (document_ok k).
Proof.
  intros Hf. unfold fetch_json.
  apply (exchange_bind _ _ _ (fun known => forall v, known = Some v -> document_ok k v)).
  { intros w Hd _. split_and!; [done|apply frame_refl|]. intros known [= <-] v Hv.
    destruct (cached k w) as [[n v']|] eqn:Ec; [|done]. case_cond; [|done]. injection Hv as <-. by eapply cached_ok. }
  intros [v|] Hknown; [by apply exchange_ret, Hknown|].
  apply (exchange_bind _ _ _ (fun answer => exists n, answer = http_get n url None)); [apply exchange_http; eauto|].
  intros answer [n ->]. apply (exchange_bind _ _ _ (fun v => http_get n url None = Ok v)).
  { apply exchange_lift. intros v Hv. destruct (http_get n url None) as [v'|[]]; try done. by injection Hv as ->. }
  intros v Hv. destruct (metadata_fault expected v) as [reason|] eqn:Em; [apply exchange_fail|].
  eapply exchange_bind; [by apply exchange_insert, (Hf n)|]. intros _ _. by apply exchange_ret, (Hf n).
Qed.

Lemma exchange_discovery now p : exchange now (discovery p) (metadata_of (idp_issuer p)).
Proof.
  unfold discovery. apply exchange_map_err. eapply exchange_weaken; [apply exchange_fetch|apply discovery_document].
  intros n v Hg Hm. left. exists (idp_issuer p). split; [done|]. apply sound_metadata in Hm as [Hi Ht]. split_and!; [done|done|by exists n].
Qed.

Lemma exchange_signing now p metadata kid uri :
  provider (idp_name p) = Some p -> metadata_of (idp_issuer p) metadata -> field u"jwks_uri" metadata = Some uri ->
  exchange now (signing_jwk p kid uri)
    (fun found => forall k, found = Some k -> exists v keys, keys_of p v /\ jwk_set v = Some keys /\ k ∈ keys).
Proof.
  intros Hp Hm Hu. set (cache_key := u"jwks:" ++ idp_name p).
  assert (exchange now (fetch_json cache_key uri None) (keys_of p)) as Hfetch.
  { eapply exchange_weaken; [apply exchange_fetch|intros v; by apply jwks_document].
    intros n v Hg _. right. exists p. split_and!; [done|done|]. by exists metadata, uri, n. }
  assert (forall v, keys_of p v -> exchange now (lift (find_jwk kid v))
    (fun found => forall k, found = Some k -> exists v keys, keys_of p v /\ jwk_set v = Some keys /\ k ∈ keys)) as Hfind.
  { intros v Hv. apply exchange_lift. intros found Hf k ->. unfold find_jwk in Hf.
    destruct (jwk_set v) as [keys|] eqn:Ek; [|done]. injection Hf as Hf. exists v, keys. split_and!; [done|done|].
    destruct kid as [kid|].
    - apply find_some in Hf as [Hf _]. by apply list_elem_of_In.
    - destruct keys as [|k' [|]]; try done. injection Hf as ->. by listed. }
  unfold signing_jwk. fold cache_key. eapply exchange_bind; [exact Hfetch|]. intros v Hv. cbv beta in Hv.
  eapply exchange_bind; [by apply Hfind|]. intros [jwk|] Hj; cbv beta in Hj; [by apply exchange_ret|].
  eapply exchange_bind; [apply exchange_forget|]. intros [|] _; [|by apply exchange_ret].
  eapply exchange_bind; [exact Hfetch|]. intros v' Hv'. by apply Hfind.
Qed.

(** ** Whom a provider vouches for *)

(** The provider answered a form that carries the verifier of the request. *)
Definition answered_form (p : IdentityProviderConfig) (url code : str) (pending : Pending) (tokens : json) : Prop :=
  exists n, http_form n url (token_form p code pending) = Ok tokens.

(** OpenID: an ID token answered for the code, signed by a key the provider
    publishes, whose claims name the person to this client, for this request, at
    this time.  GitHub: the person the access token answered for the code
    belongs to. *)
Definition vouched (p : IdentityProviderConfig) (pending : Pending) (code : str) (now : Z) (subject : str) : Prop :=
  match idp_kind p with
  | Oidc => exists metadata url tokens id_token alg kid jwks keys jwk key claims,
      metadata_of (idp_issuer p) metadata /\ field u"token_endpoint" metadata = Some url /\
      answered_form p url code pending tokens /\ field u"id_token" tokens = Some id_token /\
      id_token_header id_token = Some (alg, kid) /\ accepted_algorithm alg = true /\
      keys_of p jwks /\ jwk_set jwks = Some keys /\ jwk ∈ keys /\ key_of_jwk jwk = Some key /\
      id_token_decode id_token key alg = Some claims /\
      id_token_subject claims {| exp_issuer := idp_issuer p; exp_client_id := idp_client_id p;
                                 exp_nonce := pd_nonce pending; exp_now := unix_timestamp now |} = Ok subject
  | Github => exists tokens access_token person n,
      answered_form p (idp_token_url p) code pending tokens /\ field u"access_token" tokens = Some access_token /\
      http_get n (idp_user_url p) (Some access_token) = Ok person /\ github_subject person = Some subject
  end.

Lemma stage_Ok a b c (r : result json Exchange) v : stage a b c r = Ok v -> r = Ok v.
Proof. destruct r as [|[]]; [|done..]. by intros [= ->]. Qed.

Lemma exchange_post now p url code pending :
  exchange now (post_form url (token_form p code pending)) (answered_form p url code pending).
Proof.
  unfold post_form. apply (exchange_bind _ _ _ (fun _ => True)).
  { intros w Hd _. split_and!; [done|done|done]. }
  intros _ _. apply (exchange_bind _ _ _ (fun a => exists n, a = http_form n url (token_form p code pending))).
  { apply exchange_http. eauto. }
  intros a [n ->]. apply exchange_lift. intros v Hv%stage_Ok. by exists n.
Qed.

Lemma exchange_verify now p metadata id_token :
  provider (idp_name p) = Some p -> metadata_of (idp_issuer p) metadata ->
  exchange now (verify_id_token p metadata id_token) (fun claims => exists alg kid jwks keys jwk key,
    id_token_header id_token = Some (alg, kid) /\ accepted_algorithm alg = true /\
    keys_of p jwks /\ jwk_set jwks = Some keys /\ jwk ∈ keys /\ key_of_jwk jwk = Some key /\
    id_token_decode id_token key alg = Some claims).
Proof.
  intros Hp Hm. unfold verify_id_token. eapply exchange_bind; [apply exchange_ok_or; intros a Ha; exact Ha|].
  intros [alg kid] Hh. cbv beta in Hh. destruct (accepted_algorithm alg) eqn:Ea; cbn [negb]; [|apply exchange_fail].
  eapply exchange_bind; [apply exchange_ok_or; intros a Ha; exact Ha|]. intros uri Hu. cbv beta in Hu.
  eapply exchange_bind; [by apply (exchange_signing _ _ metadata)|]. intros found Hf. cbv beta in Hf.
  eapply exchange_bind; [apply exchange_ok_or; intros a Ha; exact Ha|]. intros jwk ->.
  destruct (Hf jwk eq_refl) as (jwks & keys & Hk & Hs & Hin).
  eapply exchange_bind; [apply exchange_ok_or; intros a Ha; exact Ha|]. intros key Hkey. cbv beta in Hkey.
  apply exchange_ok_or. intros claims Hc. by exists alg, kid, jwks, keys, jwk, key.
Qed.

Lemma exchange_identify now p code pending :
  provider (idp_name p) = Some p -> exchange now (identify p code pending) (vouched p pending code now).
Proof.
  intros Hp. unfold identify, vouched. destruct (idp_kind p).
  - eapply exchange_bind; [apply exchange_map_err, exchange_discovery|]. intros metadata Hm. cbv beta in Hm.
    eapply exchange_bind; [apply exchange_ok_or; intros a Ha; exact Ha|]. intros url Hu. cbv beta in Hu.
    eapply exchange_bind; [apply exchange_post|]. intros tokens Ht. cbv beta in Ht.
    eapply exchange_bind; [apply exchange_ok_or; intros a Ha; exact Ha|]. intros id_token Hi. cbv beta in Hi.
    eapply exchange_bind; [by apply exchange_verify|]. intros claims (alg & kid & jwks & keys & jwk & key & Hv).
    apply (exchange_bind _ _ _ (fun t => t = now)).
    { intros w Hd <-. split_and!; [done|apply frame_refl|]. by intros a [= <-]. }
    intros t ->. apply exchange_lift. intros subject Hsub.
    exists metadata, url, tokens, id_token, alg, kid, jwks, keys, jwk, key, claims. intuition.
  - eapply exchange_bind; [apply exchange_post|]. intros tokens Ht. cbv beta in Ht.
    eapply exchange_bind; [apply exchange_ok_or; intros a Ha; exact Ha|]. intros token' Hi. cbv beta in Hi.
    apply (exchange_bind _ _ _ (fun a => exists n, a = http_get n (idp_user_url p) (Some token'))).
    { apply exchange_http. eauto. }
    intros a [n ->]. eapply exchange_bind; [apply exchange_lift; intros v Hv%stage_Ok; exact Hv|].
    intros person Hperson. cbv beta in Hperson. apply exchange_ok_or. intros subject Hsub.
    by exists tokens, token', person, n.
Qed.
End Providers.

(** * What the requests leave for one another *)

Section Flow.
Context `{RedisServer} `{Env} `{TimeCrate} `{CryptoCrates} `{SqlText} `{IpNetworkCrate} `{!Jwt}.
Context `{MacCrate} `{AeadCrate} `{HyperLogLog} `{Passwords} `{PreAuthSerde} `{UrlCrate} `{ProviderCrates}.
Context `{!Serde Pending} `{!Serde Outcome}.

Definition text_at (k : str) (w : World) : option str := Device.get_text k (w_redis w) (w_wall w).

(** Texts stay, or go, or are new ones of a kind. *)
Definition adds (P : str -> str -> Prop) (w w' : World) : Prop :=
  documents_ok w -> documents_ok w' /\ same_clocks w w' /\
  forall k, text_at k w' = text_at k w \/ text_at k w' = None \/ exists x, P k x /\ text_at k w' = Some x.

#[local] Instance adds_frame P : CoreFrame (adds P).
Proof.
  constructor; unfold adds; try (intros; split_and!; [done|done|by left]).
  intros w1 w2 w3 Hab Hbc D1. destruct (Hab D1) as (D2 & C2 & T2). destruct (Hbc D2) as (D3 & C3 & T3).
  split_and!; [done|by eapply frame_trans|]. intros k. destruct (T3 k) as [E|[E|E]]; [|by right; left|by right; right].
  rewrite E. exact (T2 k).
Qed.

Lemma adds_weaken (P Q : str -> str -> Prop) w w' : (forall k x, P k x -> Q k x) -> adds P w w' -> adds Q w w'.
Proof.
  intros HPQ HP D. destruct (HP D) as (D' & C & T). split_and!; [done|done|]. intros k.
  destruct (T k) as [E|[E|(x & Hx & E)]]; [by left|by right; left|right; right; exists x; auto].
Qed.

Lemma adds_untouched P w w' : untouched w w' -> w_documents w' = w_documents w -> adds P w w'.
Proof.
  intros (_ & R & C) E D. unfold documents_ok in *. rewrite E. split_and!; [done|done|]. intros k. left.
  unfold text_at. by rewrite R, (proj2 C).
Qed.

Lemma adds_execute P {A} (f : Db -> Z -> result (Db * A) SqlError) : keeps (adds P) (execute f).
Proof.
  apply keeps_execute. intros w d a _ D. split_and!; [exact D|done|]. intros k. by left.
Qed.

(** An exchange with a provider. *)
Lemma adds_exchange P {E A} (m : M E A) Q w : exchange (w_now w) m Q -> adds P w (m w).1.
Proof.
  intros Hm D. destruct (Hm w D eq_refl) as (D' & (_ & R & C) & _). split_and!; [done|done|].
  intros k. left. unfold text_at. by rewrite R, (proj2 C).
Qed.

Lemma text_deleted k k' s t : Device.get_text k (r_del s t k') t = Device.get_text k s t \/ Device.get_text k (r_del s t k') t = None.
Proof.
  unfold Device.get_text, r_get. rewrite dump_del. unfold upd. case_decide; [by right|by left].
Qed.

Lemma adds_get_del P k : keeps (adds P) (redis_cmd (Passkey.get_del k)).
Proof.
  apply keeps_io. intros w D. cbn. split_and!; [exact D|done|]. intros k'. unfold text_at. cbn.
  destruct (text_deleted k' k (w_redis w) (w_wall w)) as [E|E]; [by left|by right; left].
Qed.

Lemma adds_set (P : str -> str -> Prop) k x ttl :
  P k x -> keeps (adds P) (redis_cmd (fun s t => (r_set_ex s t k (RStr x) ttl, tt))).
Proof.
  intros HP. apply keeps_io. intros w D. cbn. split_and!; [exact D|done|]. intros k'. unfold text_at, Device.get_text, r_get.
  cbn. rewrite dump_set_ex. unfold upd. case_decide as E; [|by left]. subst k'. right.
  unfold live, alive. cbn. case_cond; [|by left]. right. by exists x.
Qed.

(** ** Starting *)

(** What is kept of a request, from the draws it makes. *)
Definition pending_of (name : str) (intent : Intent) (user_id : option Uuid) (n : nat) : Pending :=
  {| pd_provider := name; pd_intent := intent; pd_user_id := user_id; pd_verifier := draw_token (S n);
     pd_nonce := draw_token (S (S n)); pd_binding_hash := hex_digest (draw_token (S (S (S n)))) |}.

Definition begins (name : str) (intent : Intent) (user_id : option Uuid) (n : nat) (k x : str) : Prop :=
  k = pending_key (draw_token n) /\ x = to_json_text (pending_of name intent user_id n).

Lemma start_adds (P : str -> str -> Prop) name intent user_id (w : World) :
  (forall k x, begins name intent user_id (w_draws w) k x -> P k x) -> adds P w (start name intent user_id w).1.
Proof.
  intros HP. unfold start. apply at_bind; [apply _|apply keeps_ok_or|]. intros p w1 [Hp ->]%ok_or_Ok.
  do 4 (apply at_bind; [apply _|apply keeps_token|]; intros ? ? [= <- <-]). apply provider_named in Hp as [Hn Hp].
  set (w4 := bump_draws (bump_draws (bump_draws (bump_draws w)))).
  apply at_bind; [apply _| |].
  { unfold authorization_endpoint. destruct (idp_kind p); [|apply keeps_ret].
    eapply (adds_exchange _ _ (fun _ => True)). eapply exchange_bind; [apply exchange_discovery|]. intros v _.
    by apply exchange_ok_or. }
  intros endpoint w5 _. apply at_bind; [apply _|apply keeps_ok_or|]. intros url w6 _.
  apply at_bind; [apply _|apply keeps_map_err, keeps_redis_conn|]. intros ? w7 _.
  apply at_bind; [apply _| |intros ? ? _; apply keeps_ret]. apply keeps_map_err, adds_set, HP. by rewrite Hn.
Qed.

(** ** Coming back *)

(** What an outcome without an error stands for, when the tables were [d]. *)
Definition settled (p : IdentityProviderConfig) (pending : Pending) (subject : str) (d : Db) (o : Outcome) : Prop :=
  oc_provider o = idp_name p /\ oc_intent o = pd_intent pending /\ oc_binding_hash o = pd_binding_hash pending /\
  match pd_intent pending with
  | SignIn => exists x, x ∈ a_identities (t_access d) /\ xi_provider x = idp_name p /\ xi_subject x = subject /\
      oc_user_id o = Some (xi_user_id x)
  | Link => exists uid, pd_user_id pending = Some uid /\ oc_user_id o = Some uid /\
      match oc_identity_id o with
      | Some id => exists x, x ∈ a_identities (t_access d) /\ xi_id x = id /\ xi_user_id x = uid /\
          xi_provider x = idp_name p /\ xi_subject x = subject
      | None => oc_subject o = Some subject
      end
  end.

(** The kept request a redirect back answers, and whom it names. *)
Definition returned (name : str) (params : list (str * str)) (w : World) (o : Outcome) : Prop :=
  exists p st pending code subject,
    provider name = Some p /\ OAuth.parameter params u"state" = Some st /\
    text_at (pending_key st) w ≫= from_json_text = Some pending /\ pd_provider pending = name /\
    OAuth.parameter params u"code" = Some code /\ vouched p pending code (w_now w) subject /\
    settled p pending subject (w_db w) o.

Definition comes_back (name : str) (params : list (str * str)) (w : World) (k x : str) : Prop :=
  exists code o, k = outcome_key code /\ x = to_json_text o /\ (oc_error o = None -> returned name params w o).

Lemma identity_found provider_name subject (w w' : World) o :
  internal (identity_find_by_subject provider_name subject) w = (w', Ok o) ->
  untouched w w' /\ forall x, o = Some x ->
    x ∈ a_identities (t_access (w_db w)) /\ xi_provider x = provider_name /\ xi_subject x = subject.
Proof.
  intros R. split; [eapply keeps_run, R; apply keeps_map_err, keeps_query|]. apply map_err_Ok in R.
  unfold identity_find_by_subject in R. apply query_Ok in R as [-> _]. intros x [Hin Hx]%find_some.
  apply list_elem_of_In in Hin. by breflect.
Qed.

Lemma settle_Ok p pending subject (w w' : World) uid id :
  settle p pending subject w = (w', Ok (Ok (uid, id))) ->
  settled p pending subject (w_db w)
    (outcome_of p pending (Some uid) id (match id with None => Some subject | Some _ => None end) None).
Proof.
  unfold settle. intros R. unbind R existing w1 R1. apply identity_found in R1 as [_ Hx].
  unfold settled. cbn. split_and!; [done..|]. destruct (pd_intent pending), existing as [x|].
  - unbind R y w2 R2. apply ret_Ok in R as [[= -> ->] _]. exists x. by destruct (Hx x eq_refl) as (? & ? & ?).
  - by apply ret_Ok in R as [[=] _].
  - case_bool_decide as Ho; apply ret_Ok in R as [[=] _]. subst uid id. exists (xi_user_id x).
    split_and!; [done|done|]. exists x. by destruct (Hx x eq_refl) as (? & ? & ?).
  - destruct (pd_user_id pending) as [u0|]; apply ret_Ok in R as [[=] _]. subst u0 id. by exists uid.
Qed.

Lemma adds_settle P p pending subject : keeps (adds P) (settle p pending subject).
Proof.
  unfold settle, internal, identity_find_by_subject, identity_touch.
  repeat first [frame_step | apply adds_execute | apply keeps_query | apply keeps_ret].
Qed.

Lemma callback_adds (P : str -> str -> Prop) name params (w : World) :
  (forall k x, comes_back name params w k x -> P k x) -> documents_ok w -> adds P w (callback name params w).1.
Proof.
  intros HP Hdoc. unfold callback. apply at_bind; [apply _|apply keeps_ok_or|]. intros p w1 [Hp ->]%ok_or_Ok.
  destruct (OAuth.parameter params u"state") as [st|] eqn:Est; [|apply keeps_ok_or].
  apply at_bind; [apply _|apply keeps_map_err, keeps_redis_conn|]. intros [] w1 R1%map_err_Ok.
  apply redis_conn_Ok in R1 as ->.
  apply at_bind; [apply _|apply keeps_map_err, adds_get_del|]. intros stored w2 R2%map_err_Ok.
  pose proof (adds_get_del (fun _ _ => False) (pending_key st) (bump_io w)) as A2. rewrite R2 in A2.
  destruct (A2 Hdoc) as (D2 & C2 & _). apply redis_cmd_Ok in R2 as [E2 [B2 _]]. injection E2 as _ E2.
  destruct (stored ≫= from_json_text) as [pending|] eqn:Epd; [|apply keeps_ok_or].
  destruct (str_eqb (pd_provider pending) (idp_name p)) eqn:Epn; cbn [negb]; [|apply keeps_ok_or]. breflect.
  pose proof (provider_named _ _ Hp) as [Hn Hp'].
  apply at_bind; [apply _| |].
  { unfold judge_return. apply at_bind; [apply _| |].
    - destruct (OAuth.parameter params u"error") as [|], (OAuth.parameter params u"code") as [c|]; try apply keeps_ret.
      intros D. pose proof (adds_exchange P (identify p c pending) _ w2 (exchange_identify (w_now w2) p c pending Hp')) as A.
      unfold attempt. destruct (identify p c pending w2). exact (A D).
    - intros [subject|e] w3 _; [|apply keeps_ret]. apply at_bind; [apply _|apply adds_settle|]. intros ? ? _. apply keeps_ret. }
  intros o w3 R3. apply at_bind; [apply _|apply keeps_token|]. intros code w4 _.
  apply at_bind; [apply _|apply keeps_map_err, keeps_redis_conn|]. intros ? w5 _.
  apply at_bind; [apply _| |intros ? ? _; apply keeps_ok_or]. apply keeps_map_err, adds_set.
  apply HP. exists code, o. split_and!; [done|done|]. intros He.
  unfold judge_return in R3. unbind R3 identified w6 R6. destruct identified as [subject|e]; [|apply ret_Ok in R3 as [-> _]; done].
  destruct (OAuth.parameter params u"error") as [|], (OAuth.parameter params u"code") as [c|] eqn:Ec;
    try by apply ret_Ok in R6 as [[=] _].
  apply attempt_run in R6 as (r & R6 & [= <-]).
  destruct (exchange_identify (w_now w2) p c pending Hp' w2 D2 eq_refl) as (_ & (B6 & _) & V6). rewrite R6 in V6, B6.
  specialize (V6 subject eq_refl). cbn in B6.
  unbind R3 settled' w7 R7. destruct settled' as [[uid id]|]; apply ret_Ok in R3 as [-> _]; [|done].
  apply settle_Ok in R7. rewrite B6, B2 in R7.
  assert (w_now w2 = w_now w) as N2 by apply C2. rewrite N2 in V6.
  exists p, st, pending, c, subject. split_and!; [done|done| |congruence|done|done|done].
  unfold text_at. by rewrite E2.
Qed.

(** ** Histories *)

Inductive event :=
| BeganSignIn (name : str) (w : World)
| BeganLink (uid sid : Uuid) (name : str) (ip : option IpNetwork) (rid : option Uuid) (w : World)
| CameBack (name : str) (params : list (str * str)) (w : World).

(** Time passes and other requests are served, which write none of these keys. *)
Definition fading (w w' : World) : Prop :=
  w_documents w' = w_documents w /\
  forall x k, k = pending_key x \/ k = outcome_key x -> text_at k w' = text_at k w \/ text_at k w' = None.

(** Whatever was asked, in whatever order and by whomever, whatever failed. *)
Inductive history : list event -> World -> Prop :=
| history_nil w : w_documents w = [] ->
    (forall x, text_at (pending_key x) w = None /\ text_at (outcome_key x) w = None) -> history [] w
| history_sign_in evs w name : history evs w -> history (evs ++ [BeganSignIn name w]) (start name SignIn None w).1
| history_link evs w uid sid name ip rid : history evs w ->
    history (evs ++ [BeganLink uid sid name ip rid w]) (start_link uid sid name ip rid w).1
| history_back evs w name params : history evs w -> history (evs ++ [CameBack name params w]) (callback name params w).1
| history_later evs w w' : history evs w -> fading w w' -> history evs w'.

(** A request that was begun, by an account that had proved itself for a link. *)
Definition begun (evs : list event) (p : Pending) : Prop :=
  (exists name w, BeganSignIn name w ∈ evs /\ p = pending_of name SignIn None (w_draws w)) \/
  (exists uid sid name ip rid w, BeganLink uid sid name ip rid w ∈ evs /\ proven uid sid None w /\
     p = pending_of name Link (Some uid) (w_draws w)).

Definition earned (evs : list event) (o : Outcome) : Prop :=
  exists name params w p pending code subject,
    CameBack name params w ∈ evs /\ provider name = Some p /\ begun evs pending /\ pd_provider pending = name /\
    OAuth.parameter params u"code" = Some code /\ vouched p pending code (w_now w) subject /\
    settled p pending subject (w_db w) o.

Record justified (evs : list event) (w : World) : Prop := {
  jf_documents : documents_ok w;
  jf_pending : forall st p, text_at (pending_key st) w ≫= from_json_text = Some p -> begun evs p;
  jf_outcome : forall c o, text_at (outcome_key c) w ≫= from_json_text = Some o -> oc_error o = None -> earned evs o;
}.

Lemma begun_more evs e p : begun evs p -> begun (evs ++ [e]) p.
Proof.
  intros [(name & w & Hin & E)|(uid & sid & name & ip & rid & w & Hin & E)]; [left; exists name, w|
    right; exists uid, sid, name, ip, rid, w]; (split; [|done]); apply elem_of_app; by left.
Qed.

Lemma earned_more evs e o : earned evs o -> earned (evs ++ [e]) o.
Proof.
  intros (name & params & w & p & pending & code & subject & Hin & Hp & Hb & Hrest).
  exists name, params, w, p, pending, code, subject. split; [apply elem_of_app; by left|].
  split; [done|]. split; [by apply begun_more|done].
Qed.

(** A request adds what it may. *)
Lemma justified_adds evs e (P : str -> str -> Prop) (w w' : World) :
  justified evs w -> adds P w w' ->
  (forall st x p, P (pending_key st) x -> from_json_text x = Some p -> begun (evs ++ [e]) p) ->
  (forall c x o, P (outcome_key c) x -> from_json_text x = Some o -> oc_error o = None -> earned (evs ++ [e]) o) ->
  justified (evs ++ [e]) w'.
Proof.
  intros [Hd Hp Ho] HP Hnew Hnew'. destruct (HP Hd) as (D' & _ & T). split; [done|..].
  - intros st p. destruct (T (pending_key st)) as [E|[E|(x & Hx & E)]]; rewrite E; cbn; [|done|by eapply Hnew].
    intros Hst. by apply begun_more, (Hp st).
  - intros c o. destruct (T (outcome_key c)) as [E|[E|(x & Hx & E)]]; rewrite E; cbn; [|done|by eapply Hnew'].
    intros Hc He. by apply earned_more, (Ho c).
Qed.

Lemma keys_differ x y : pending_key x <> outcome_key y.
Proof. intros E. apply (f_equal (fun s => s !! 9%nat)) in E. discriminate E. Qed.

Lemma begins_justified evs e name intent user_id n :
  begun (evs ++ [e]) (pending_of name intent user_id n) ->
  (forall st x p, begins name intent user_id n (pending_key st) x -> from_json_text x = Some p -> begun (evs ++ [e]) p) /\
  (forall c x o, begins name intent user_id n (outcome_key c) x -> from_json_text x = Some o -> oc_error o = None ->
     earned (evs ++ [e]) o).
Proof.
  intros Hb. split.
  - intros st x p [_ ->]. rewrite serde_read_back. by intros [= <-].
  - intros c x o [E _]. by apply eq_sym, keys_differ in E.
Qed.

(** The guard of a link reads, and nothing else. *)
Lemma link_guard_reads uid sid ip rid reason (w : World) :
  let w' := (require_recent_reauth_or_password uid sid None ip rid reason w).1 in
  untouched w w' /\ w_documents w' = w_documents w /\ w_draws w' = w_draws w.
Proof.
  cbn [require_recent_reauth_or_password]. unfold has_recent_reauth, mbind, M_bind, attempt, redis_conn, redis_cmd, io.
  destruct (io_plan (w_io w)); cbn; try done. destruct (io_plan (S (w_io w))); cbn; try done.
  destruct (r_exists _ _ _); done.
Qed.

Lemma history_justified evs w : history evs w -> justified evs w.
Proof.
  induction 1 as [w Hd Hk|evs w name _ IH|evs w uid sid name ip rid _ IH|evs w name params _ IH|evs w w' _ IH [Ed Hf]].
  - split; [unfold documents_ok; rewrite Hd; constructor|..].
    + intros st p. by rewrite (proj1 (Hk st)).
    + intros c o. by rewrite (proj2 (Hk c)).
  - destruct (begins_justified evs (BeganSignIn name w) name SignIn None (w_draws w)) as [Hp Ho].
    { left. exists name, w. split; [apply elem_of_app; right; by listed|done]. }
    apply (justified_adds evs _ (begins name SignIn None (w_draws w)) w); [exact IH|by apply start_adds|exact Hp|exact Ho].
  - pose proof (link_guard_reads uid sid ip rid u"link_external_identity" w) as (Hu & Hd & Hw).
    unfold start_link, mbind, M_bind.
    destruct (require_recent_reauth_or_password uid sid None ip rid u"link_external_identity" w) as [w1 [x|e]] eqn:R; cbn in *.
    + destruct (begins_justified evs (BeganLink uid sid name ip rid w) name Link (Some uid) (w_draws w)) as [Hp Ho].
      { right. exists uid, sid, name, ip, rid, w. split; [apply elem_of_app; right; by listed|].
        split; [exact (guard_proves uid sid None ip rid u"link_external_identity" w w1 x R)|done]. }
      apply (justified_adds evs _ (begins name Link (Some uid) (w_draws w)) w); [exact IH| |exact Hp|exact Ho].
      apply (frame_trans w w1); [by apply adds_untouched|]. apply start_adds. intros k x'. by rewrite Hw.
    + apply (justified_adds evs _ (fun _ _ => False) w); [exact IH|by apply adds_untouched|done|done].
  - apply (justified_adds evs _ (comes_back name params w) w); [exact IH|apply callback_adds; [done|apply IH]|..].
    + intros st x p (c & o & E & _). by apply keys_differ in E.
    + intros c x o (c' & o' & _ & -> & Hr) E He. rewrite serde_read_back in E. injection E as ->.
      destruct (Hr He) as (p & st & pending & code & subject & Hp & Hst & Hpd & Hn & Hc & Hv & Hs).
      exists name, params, w, p, pending, code, subject.
      split_and!; [apply elem_of_app; right; by listed|done|by apply begun_more, (jf_pending _ _ IH st)|done..].
  - destruct IH as [Hd Hp Ho]. split; [unfold documents_ok; by rewrite Ed|..].
    + intros st p. destruct (Hf st (pending_key st)) as [E|E]; [by left|rewrite E; apply Hp|by rewrite E].
    + intros c o. destruct (Hf c (outcome_key c)) as [E|E]; [by right|rewrite E; apply Ho|by rewrite E].
Qed.

(** ** Completing *)

Lemma take_outcome_Ok code binding intent (w w' : World) o :
  take_outcome code binding intent w = (w', Ok o) ->
  text_at (outcome_key code) w ≫= from_json_text = Some o /\ oc_error o = None /\ oc_intent o = intent /\
  as_bytes (oc_binding_hash o) = as_bytes (hex_digest binding) /\ w_db w' = w_db w /\ same_clocks w w' /\
  dump (w_redis w') (outcome_key code) = None.
Proof.
  unfold take_outcome. intros R. unbind R x w1 R1. apply map_err_Ok, redis_conn_Ok in R1 as ->.
  unbind R stored w2 R2. apply map_err_Ok, redis_cmd_Ok in R2 as [E2 [D2 C2]]. injection E2 as E2 <-.
  unbind R o' w3 R3. apply ok_or_Ok in R3 as [R3 ->].
  destruct (constant_time_eq _ _) eqn:Ec; cbn [negb orb] in R; [|by apply fail_Ok in R].
  case_bool_decide as Ei; cbn [negb] in R; [|by apply fail_Ok in R].
  destruct (oc_error o') as [error|] eqn:Ee.
  { destruct (str_eqb error _); [by apply fail_Ok in R|]. destruct (str_eqb error _); by apply fail_Ok in R. }
  apply ret_Ok in R as [-> ->]. unfold constant_time_eq in Ec. apply andb_true_iff in Ec as [_ Ec].
  apply bool_decide_eq_true in Ec. split_and!; try done. by rewrite <- E2, dump_del, upd_eq.
Qed.

(** The same digest: what is compared in constant time. *)
Definition same_binding (binding binding' : str) : Prop :=
  as_bytes (hex_digest binding) = as_bytes (hex_digest binding').

(** C6: signing in through a provider names the right account, in the browser
    that began.  Whatever was asked of the service before, by whomever, in
    whatever order, and whatever failed or expired, a sign-in completes only when
    one was begun for a provider and the secret given to the browser that began
    it is presented; the provider then vouched for a person for that very
    request, its nonce and verifier; the account is the one that person's
    identity was linked to; it is active; and it comes to what a right password
    comes to: one session, or the account's second factor is asked for and no
    session is opened. *)
Theorem external_sign_in_sound evs code binding ip ua dn rm rid (w w' : World) res :
  users_keyed (w_db w) -> history evs w -> complete_sign_in code binding ip ua dn rm rid w = (w', Ok res) ->
  exists name wb params wc p c subject x v,
    BeganSignIn name wb ∈ evs /\ same_binding (draw_token (S (S (S (w_draws wb))))) binding /\
    CameBack name params wc ∈ evs /\ OAuth.parameter params u"code" = Some c /\ provider name = Some p /\
    vouched p (pending_of name SignIn None (w_draws wb)) c (w_now wc) subject /\
    x ∈ a_identities (t_access (w_db wc)) /\ xi_provider x = name /\ xi_subject x = subject /\
    ur_user <$> t_users (w_db w) !! xi_user_id x = Some v /\ u_id v = xi_user_id x /\ u_status v = ActiveUser /\
    outcome w w' v None ip res.
Proof.
  intros Hk Hh R. apply history_justified in Hh. unfold complete_sign_in in R. unbind R o w1 R1.
  apply take_outcome_Ok in R1 as (Ho & He & Hi & Hb & D1 & C1 & _). unbind R uid w2 R2. apply ok_or_Ok in R2 as [R2 ->].
  unbind R found w3 R3. unfold internal, user_find_by_id in R3. apply map_err_Ok, query_Ok in R3 as [-> [D3 C3]].
  unbind R v w4 R4. apply ok_or_Ok in R4 as [R4 ->]. unbind R x5 w5 R5. apply lift_Ok in R5 as [R5 ->].
  destruct (jf_outcome _ _ Hh code o Ho He) as (name & params & wc & p & pending & c & subject & Hin & Hp & Hbeg & Hn & Hc & Hv & Hs).
  destruct Hs as (Hop & Hoi & Hob & Hs). rewrite Hi in Hoi. rewrite <- Hoi in Hs.
  destruct Hs as (x & Hx & Hxp & Hxs & Hxu). assert (uid = xi_user_id x) as -> by congruence.
  destruct Hbeg as [(name' & wb & Hb' & ->)|(u0 & sid & name' & ip' & rid' & wb & _ & _ & ->)]; [|discriminate Hoi].
  cbn in Hn. subst name'. exists name, wb, params, wc, p, c, subject, x, v. pose proof (provider_named _ _ Hp) as [Hpn _].
  rewrite D1 in R4. split_and!; try done; [|congruence| | |].
  - unfold same_binding. rewrite <- Hb, Hob. done.
  - apply fmap_Some in R4 as (row & Hrow & ->). by apply Hk in Hrow.
  - unfold ensure_account_usable, ensure_status_allows_sign_in in R5. by destruct (u_status v).
  - apply first_factor_proven_Ok in R. revert R. unfold outcome, primary_of, one_more_session, same_accounts, same_clocks in *.
    rewrite D3, D1. destruct res; [done|]. intuition congruence.
Qed.

Lemma identity_link_Ok uid name subject (w w' : World) x :
  identity_link uid name subject w = (w', Ok x) ->
  a_identities (t_access (w_db w')) = a_identities (t_access (w_db w)) ++ [x] /\
  xi_user_id x = uid /\ xi_provider x = name /\ xi_subject x = subject /\
  Forall (fun y => xi_provider y = name -> xi_subject y <> subject /\ xi_user_id y <> uid) (a_identities (t_access (w_db w))).
Proof.
  unfold identity_link. intros R. unbind R xid w1 R1. injection R1 as <- <-. apply execute_Ok in R as [E _]. cbn in E.
  destruct (_ || _); [done|]. destruct (existsb _ _) eqn:E1; [done|]. destruct (existsb _ _) eqn:E2 in E; [done|].
  injection E as E <-. rewrite <- E. split_and!; try done. apply Forall_forall. intros y Hy Hp.
  apply list_elem_of_In in Hy. split; intros Hs.
  - assert (existsb (fun x => str_eqb (xi_provider x) name && str_eqb (xi_subject x) subject) (a_identities (t_access (w_db w))) = true)
      as E'; [|cbn in E1; congruence]. apply existsb_exists. exists y. split; [done|]. by rewrite Hp, Hs, !str_eqb_refl.
  - assert (existsb (fun x => is_own xi_user_id uid x && str_eqb (xi_provider x) name) (a_identities (t_access (w_db w))) = true)
      as E'; [|cbn in E2; congruence]. apply existsb_exists. exists y. split; [done|].
    unfold is_own. by rewrite Hp, Hs, bool_decide_eq_true_2, str_eqb_refl.
Qed.

(** The identity is added, alone, with its trace. *)
Definition linked (uid : Uuid) (name subject : str) (d d' : Db) (x : ExternalIdentity) : Prop :=
  a_identities (t_access d') = a_identities (t_access d) ++ [x] /\ xi_provider x = name /\ xi_subject x = subject /\
  Forall (fun y => xi_provider y = name -> xi_subject y <> subject /\ xi_user_id y <> uid) (a_identities (t_access d)) /\
  exists row, t_audit_log d' = t_audit_log d ++ [row] /\ al_action row = ExternalIdentityLinked /\ al_user_id row = Some uid.

Lemma link_in_tx_Ok uid p subject (w w' : World) x :
  link_in_tx uid p subject w = (w', Ok x) -> xi_user_id x = uid /\ linked uid (idp_name p) subject (w_db w) (w_db w') x.
Proof.
  unfold link_in_tx. intros R. unbind R r w1 R1. apply attempt_run in R1 as (r' & R1 & [= ->]).
  destruct r' as [x'|e]; [|by destruct e; apply fail_Ok in R].
  assert (leaves [TAuditLog] w w1) as [L1 _] by (eapply keeps_run, R1; tables_auto). specialize (L1 TAuditLog ltac:(by listed)).
  unbind R y w2 R2. apply ret_Ok in R as [-> ->]. apply map_err_Ok in R2. unfold audit_append in R2.
  apply execute_Ok in R2 as [E2 _]. injection E2 as E2 _. apply identity_link_Ok in R1 as (H1' & H2' & H3' & H4' & H5').
  split; [done|]. unfold linked. rewrite <- E2. cbn in *. split_and!; try done. rewrite L1. eexists. split; [reflexivity|done].
Qed.

(** C7: an identity is linked only by the account that asked for it.  A link
    completes only for the account that began one after proving itself, with the
    secret given to the browser that began it, once the provider vouched for a
    person for that request; either the account held the identity already and
    nothing changes, or exactly that identity is added and recorded, no account
    holding it and the account holding none of this provider. *)
Theorem external_link_sound evs uid code binding (w w' : World) x :
  history evs w -> complete_link uid code binding w = (w', Ok x) ->
  xi_user_id x = uid /\
  exists sid name ip rid wb params wc p c subject,
    BeganLink uid sid name ip rid wb ∈ evs /\ proven uid sid None wb /\
    same_binding (draw_token (S (S (S (w_draws wb))))) binding /\
    CameBack name params wc ∈ evs /\ OAuth.parameter params u"code" = Some c /\ provider name = Some p /\
    vouched p (pending_of name Link (Some uid) (w_draws wb)) c (w_now wc) subject /\
    (w_db w' = w_db w /\ x ∈ a_identities (t_access (w_db w)) \/ linked uid name subject (w_db w) (w_db w') x).
Proof.
  intros Hh R. apply history_justified in Hh. unfold complete_link in R. unbind R o w1 R1.
  apply take_outcome_Ok in R1 as (Ho & He & Hi & Hb & D1 & C1 & _).
  case_bool_decide as Hu; cbn [negb] in R; [|by apply fail_Ok in R].
  destruct (jf_outcome _ _ Hh code o Ho He) as (name & params & wc & p & pending & c & subject & Hin & Hp & Hbeg & Hn & Hc & Hv & Hs).
  destruct Hs as (Hop & Hoi & Hob & Hs). rewrite Hi in Hoi. rewrite <- Hoi in Hs. destruct Hs as (uid' & Hpu & Hou & Hs).
  assert (uid' = uid) as -> by congruence. pose proof (provider_named _ _ Hp) as [Hpn _].
  destruct Hbeg as [(name' & wb & _ & ->)|(u0 & sid & name' & ip & rid & wb & Hb' & Hproven & ->)]; [discriminate Hoi|].
  cbn in Hn, Hpu. subst name'. injection Hpu as ->.
  assert (same_binding (draw_token (S (S (S (w_draws wb))))) binding) as Hsb by (unfold same_binding; by rewrite <- Hb, Hob).
  enough (xi_user_id x = uid /\ (w_db w' = w_db w /\ x ∈ a_identities (t_access (w_db w)) \/ linked uid name subject (w_db w) (w_db w') x))
    as [Hx Hl].
  { split; [done|]. exists sid, name, ip, rid, wb, params, wc, p, c, subject. by split_and!. }
  destruct (oc_identity_id o) as [xid|].
  - unbind R own w2 R2. unfold internal, identities_find_by_user in R2. apply map_err_Ok, query_Ok in R2 as [-> [D2 _]].
    apply ok_or_Ok in R as [Hf ->]. apply find_some in Hf as [Hf _]. apply list_elem_of_In in Hf.
    unfold sort_by in Hf. rewrite merge_sort_Permutation, list_elem_of_In, filter_In in Hf.
    destruct Hf as [Hf Hown]. apply list_elem_of_In in Hf. unfold is_own in Hown. apply bool_decide_eq_true in Hown.
    split; [done|]. left. split; [by rewrite D2, D1|by rewrite <- D1].
  - unbind R sub w2 R2. apply ok_or_Ok in R2 as [R2 ->]. unbind R p' w3 R3. apply ok_or_Ok in R3 as [R3 ->].
    assert (sub = subject) as -> by congruence. rewrite Hop, Hpn, Hp in R3. injection R3 as <-.
    unbind R x' w4 R4. unbind R y w5 R5. apply ret_Ok in R as [-> ->].
    assert (w_db w5 = w_db w4) as D5 by (apply same_db_run in R5; [done|tables_auto]). rewrite D5.
    apply transaction_run in R4 as [[[e [=]] _]|(w6 & a & R6 & D6 & _ & [[= ->]|[=]])].
    apply link_in_tx_Ok in R6 as [Hx Hl]. split; [done|]. right. rewrite D6, <- D1, <- Hpn. exact Hl.
Qed.
End Flow.

(** * Where client secrets go *)

Section Secrets.
Context `{RedisServer} `{Env} `{TimeCrate} `{CryptoCrates} `{SqlText} `{IpNetworkCrate} `{!Jwt}.
Context `{MacCrate} `{AeadCrate} `{HyperLogLog} `{Passwords} `{PreAuthSerde} `{UrlCrate} `{ProviderCrates}.
Context `{!Serde Pending} `{!Serde Outcome}.

(** What leaves is of a kind. *)
Definition forms (P : Sent -> Prop) (w w' : World) : Prop :=
  exists new, w_sent w' = w_sent w ++ new /\ Forall P new.

#[local] Instance forms_frame P : Frame (forms P).
Proof.
  constructor; [constructor| |]; unfold SleepFrame, RedisFrame, forms;
    try (intros; exists []; by rewrite app_nil_r).
  intros w1 w2 w3 (l & -> & Hl) (l' & -> & Hl'). exists (l ++ l'). split; [by rewrite app_assoc|by apply Forall_app].
Qed.

Lemma forms_none P (w w' : World) : w_sent w' = w_sent w -> forms P w w'.
Proof. intros E. exists []. by rewrite app_nil_r. Qed.

Lemma forms_execute P {A} (f : Db -> Z -> result (Db * A) SqlError) : keeps (forms P) (execute f).
Proof. apply keeps_execute. intros w d a _. by apply forms_none. Qed.

Lemma forms_fetch P k url expected : keeps (forms P) (fetch_json k url expected).
Proof.
  unfold fetch_json. apply keeps_bind; [apply keeps_asks|]. intros [v|]; [apply keeps_ret|].
  apply keeps_bind; [intros w; by apply forms_none|]. intros answer. apply keeps_bind; [apply keeps_lift|]. intros v.
  destruct (metadata_fault _ _); [apply keeps_fail|]. apply keeps_bind; [intros w; by apply forms_none|]. intros ?. apply keeps_ret.
Qed.

Lemma forms_forget P {E} k age : keeps (forms P) (forget_if_older k age : M E bool).
Proof.
  intros w. unfold forget_if_older. destruct (cached k w) as [[n v]|]; [|by apply forms_none].
  destruct (_ <=? _); by apply forms_none.
Qed.

Lemma forms_verify P p metadata id_token : keeps (forms P) (verify_id_token p metadata id_token).
Proof.
  unfold verify_id_token, signing_jwk.
  repeat first [frame_step | apply keeps_ok_or | apply keeps_fail | apply keeps_ret | apply keeps_lift
    | apply forms_fetch | apply forms_forget].
Qed.

(** The form of a request, to the token endpoint of its provider, which for
    OpenID is in the metadata of the issuer and over its transport. *)
Definition token_request (name : str) (x : Sent) : Prop :=
  exists p pending code url, provider name = Some p /\ x = Submitted url (token_form p code pending) /\
  match idp_kind p with
  | Oidc => exists metadata u0 u1, metadata_of (idp_issuer p) metadata /\ field u"token_endpoint" metadata = Some url /\
      url_parse url = Ok u0 /\ url_parse (idp_issuer p) = Ok u1 /\ url_scheme u0 = url_scheme u1
  | Github => url = idp_token_url p
  end.

Lemma forms_post P url form : P (Submitted url form) -> keeps (forms P) (post_form url form).
Proof.
  intros HP. unfold post_form. apply keeps_bind; [|intros ?; apply keeps_bind; [|intros ?; apply keeps_lift]].
  - intros w. exists [Submitted url form]. split; [done|by constructor].
  - intros w. by apply forms_none.
Qed.

Lemma forms_identify name p code pending (w : World) :
  provider name = Some p -> documents_ok w -> forms (token_request name) w (identify p code pending w).1.
Proof.
  intros Hp Hd. unfold identify. destruct (idp_kind p) eqn:Ek.
  - apply at_bind; [apply _|apply keeps_map_err, keeps_map_err, forms_fetch|]. intros metadata w1 R1.
    destruct (exchange_discovery (w_now w) p w Hd eq_refl) as (_ & _ & Hm). apply map_err_Ok in R1. rewrite R1 in Hm.
    specialize (Hm metadata eq_refl).
    apply at_bind; [apply _|apply keeps_ok_or|]. intros url w2 [Hu ->]%ok_or_Ok.
    apply at_bind; [apply _|apply forms_post|].
    { pose proof Hm as (_ & Hts & _). rewrite Forall_forall in Hts.
      destruct (Hts u"token_endpoint" ltac:(set_solver) _ Hu) as (u0 & u1 & Ht). exists p, pending, code, url. rewrite Ek.
      split_and!; [done|done|]. by exists metadata, u0, u1. }
    intros tokens w3 _. apply at_bind; [apply _|apply keeps_ok_or|]. intros id_token w4 _.
    apply at_bind; [apply _|apply forms_verify|]. intros claims w5 _.
    apply at_bind; [apply _|apply keeps_asks|]. intros now w6 _. apply keeps_lift.
  - apply at_bind; [apply _|apply forms_post|].
    { exists p, pending, code, (idp_token_url p). by rewrite Ek. }
    intros tokens w3 _. apply at_bind; [apply _|apply keeps_ok_or|]. intros token' w4 _.
    apply at_bind; [apply _|by apply forms_none|]. intros answer w5 _.
    apply at_bind; [apply _|apply keeps_lift|]. intros person w6 _. apply keeps_ok_or.
Qed.

(** C8: the secret of a client goes to its provider and nowhere else.  Whatever
    was served before and whatever is answered, everything a redirect back
    submits is the form of one request, with the secret of the provider it names,
    to the token endpoint configured for it or, for OpenID, named by metadata its
    own issuer published in its own name, over the transport of the issuer. *)
Theorem client_secret_confined evs name params (w : World) :
  history evs w ->
  exists new, w_sent (callback name params w).1 = w_sent w ++ new /\ Forall (token_request name) new.
Proof.
  intros Hh. apply history_justified, jf_documents in Hh.
  change (forms (token_request name) w (callback name params w).1). unfold callback.
  apply at_bind; [apply _|apply keeps_ok_or|]. intros p w1 [Hp ->]%ok_or_Ok.
  destruct (OAuth.parameter params u"state") as [st|]; [|apply keeps_ok_or].
  apply at_bind; [apply _|apply keeps_map_err, keeps_redis_conn|]. intros [] w1 R1%map_err_Ok. apply redis_conn_Ok in R1 as ->.
  apply at_bind; [apply _|apply keeps_map_err, keeps_redis_cmd|]. intros stored w2 R2%map_err_Ok.
  pose proof (adds_get_del (fun _ _ => False) (pending_key st) (bump_io w)) as A2. rewrite R2 in A2.
  destruct (A2 Hh) as (D2 & _). destruct (stored ≫= from_json_text) as [pending|]; [|apply keeps_ok_or].
  destruct (negb _); [apply keeps_ok_or|]. apply at_bind; [apply _| |].
  - unfold judge_return. apply at_bind; [apply _| |].
    + destruct (OAuth.parameter params u"error") as [|], (OAuth.parameter params u"code") as [c|]; try apply keeps_ret.
      unfold attempt. pose proof (forms_identify name p c pending w2 Hp D2) as F. by destruct (identify p c pending w2).
    + intros [subject|e] w3 _; [|apply keeps_ret]. apply at_bind; [apply _| |intros ? ? _; apply keeps_ret].
      unfold settle, internal, identity_find_by_subject, identity_touch. cbv beta.
      refine ((_ : keeps (forms (token_request name)) _) w3).
      repeat first [frame_step | apply forms_execute | apply keeps_query | apply keeps_ret].
  - intros o w3 _. apply at_bind; [apply _|apply keeps_token|]. intros code w4 _.
    apply at_bind; [apply _|apply keeps_map_err, keeps_redis_conn|]. intros ? w5 _.
    apply at_bind; [apply _|apply keeps_map_err, keeps_redis_cmd|intros ? ? _; apply keeps_ok_or].
Qed.
End Secrets.

(** * Witnesses *)

Section Witnesses.
Import Scenario.Run Office.Office.
#[local] Existing Instance calm.

(** Account 8 holds the identity 42 of the provider. *)
Definition federated_office : World :=
  with_db (set_identities (fun _ => [identity_row 60%N 8%N 0 u"corp" u"42"])) office.

Lemma office_keys (k : str) : k <> u"reauth:" ++ uuid_str 2%N -> dump (w_redis office) k = None.
Proof. intros Hk. apply lookup_singleton_ne. by intros <-. Qed.

Lemma no_flow_yet (w : World) : w_redis w = w_redis office -> w_documents w = [] -> history [] w.
Proof.
  intros R D. apply history_nil; [done|]. intros x. unfold text_at, Device.get_text, r_get. rewrite R.
  by rewrite !office_keys.
Qed.

Definition began_run := start u"corp" SignIn None federated_office.
Definition back_params : list (str * str) := [(u"state", u"tokenA"); (u"code", u"c")].
Definition back_run := callback u"corp" back_params began_run.1.
Definition completed_run := complete_sign_in u"tokenE" u"tokenD" None None None false None back_run.1.

Definition completed_value : LoginResult :=
  match completed_run.2 with Ok r => r | Err _ => TwoFactorRequired [] [] end.

Lemma completed_ok : complete_sign_in u"tokenE" u"tokenD" None None None false None back_run.1 = (completed_run.1, Ok completed_value).
Proof. apply run_answer. vm_compute. reflexivity. Qed.

Lemma back_history : history [BeganSignIn u"corp" federated_office; CameBack u"corp" back_params began_run.1] back_run.1.
Proof.
  apply (history_back [BeganSignIn u"corp" federated_office]), (history_sign_in []). by apply no_flow_yet.
Qed.

Lemma back_keyed : users_keyed (w_db back_run.1).
Proof.
  assert (t_users (w_db back_run.1) = t_users tables) as E by (vm_compute; reflexivity).
  unfold users_keyed. rewrite E. unfold tables, set_users. cbn.
  by intros i r [[<- <-]|[_ [<- <-]%lookup_singleton_Some]]%lookup_insert_Some.
Qed.

Lemma external_sign_in_sound_witness :
  exists name wb p c wc subject v,
    BeganSignIn name wb ∈ [BeganSignIn u"corp" federated_office; CameBack u"corp" back_params began_run.1] /\
    vouched p (pending_of name SignIn None (w_draws wb)) c (w_now wc) subject /\ u_status v = ActiveUser /\
    outcome back_run.1 completed_run.1 v None None completed_value.
Proof.
  destruct (external_sign_in_sound _ u"tokenE" u"tokenD" None None None false None _ _ _ back_keyed back_history completed_ok)
    as (name & wb & params & wc & p & c & subject & x & v & Hin & _ & _ & _ & _ & Hv & _ & _ & _ & _ & _ & Ha & Ho).
  exists name, wb, p, c, wc, subject, v. split; [exact Hin|]. split; [exact Hv|]. split; [exact Ha|exact Ho].
Defined.

(** Account 8, which has no second factor, gets a session; another browser, which
    opens the same redirect, does not. *)
Example completed_elsewhere :
  match completed_value with Complete t => s_user_id (at_session t) | TwoFactorRequired _ _ => 0%N end = 8%N /\
  (complete_sign_in u"tokenE" u"mine" None None None false None back_run.1).2 = Err TokenInvalid.
Proof. vm_compute. split; reflexivity. Qed.

(** Account 7 links the identity 42, which nobody holds. *)
Definition linking_run := start_link 7%N 2%N u"corp" None None office.
Definition link_back_run := callback u"corp" back_params linking_run.1.
Definition linked_run := complete_link 7%N u"tokenE" u"tokenD" link_back_run.1.
Definition linked_value : ExternalIdentity :=
  match linked_run.2 with Ok x => x | Err _ => identity_row 0%N 0%N 0 [] [] end.

Lemma linked_ok : complete_link 7%N u"tokenE" u"tokenD" link_back_run.1 = (linked_run.1, Ok linked_value).
Proof. apply run_answer. vm_compute. reflexivity. Qed.

Lemma link_history : history [BeganLink 7%N 2%N u"corp" None None office; CameBack u"corp" back_params linking_run.1] link_back_run.1.
Proof.
  apply (history_back [BeganLink 7%N 2%N u"corp" None None office]), (history_link []). by apply no_flow_yet.
Qed.

Lemma external_link_sound_witness :
  xi_user_id linked_value = 7%N /\
  exists subject, w_db linked_run.1 = w_db link_back_run.1 /\ linked_value ∈ a_identities (t_access (w_db link_back_run.1)) \/
    exists name, linked 7%N name subject (w_db link_back_run.1) (w_db linked_run.1) linked_value.
Proof.
  destruct (external_link_sound _ 7%N u"tokenE" u"tokenD" _ _ _ link_history linked_ok)
    as (Hx & sid & name & ip & rid & wb & params & wc & p & c & subject & _ & _ & _ & _ & _ & _ & _ & Hl).
  split; [exact Hx|]. exists subject. destruct Hl as [Hl|Hl]; [left; exact Hl|right; exists name; exact Hl].
Defined.

Lemma client_secret_confined_witness :
  exists new, w_sent (callback u"corp" back_params linking_run.1).1 = w_sent linking_run.1 ++ new /\
    Forall (token_request u"corp") new.
Proof.
  apply (client_secret_confined [BeganLink 7%N 2%N u"corp" None None office] u"corp" back_params linking_run.1).
  apply (history_link []). apply no_flow_yet; reflexivity.
Defined.

Example secret_submitted :
  map (fun x => match x with Submitted url _ => url | _ => [] end) (w_sent link_back_run.1) = [u"https://idp.example/token"].
Proof. vm_compute. reflexivity. Qed.
End Witnesses.
