(* ===== verification/OAuthService.v ===== *)
(** The OAuth endpoints (src/src/services/oauth.rs): client authentication,
    authorization requests, the token endpoint, introspection and revocation. *)
From S2P Require Import Prelude Crates Codec Session Account OAuthDomain Network Edge Crypto Tables App Outside RedisCounter SessionRepo Repos Tokens UserRepo AccessRepo TokenRepo AccountsOk Scenario TokensCorrect Refresh RefreshCorrect Login LoginCorrect SecondFactor SecondFactorCorrect OneTime OneTimeCorrect SelfService Guard Factors Administration Office AccessToken Grants GrantsCorrect DeviceFlow DeviceCorrect.
Import Account.User Account.Audit OAuthDomain.Client OAuthDomain.OAuth.

(** * The crates *)

(** Standard base64 read as UTF-8, percent-decoding, [Uuid::new_v5] in the URL
    name space, and the signature of an ID token. *)
Class OAuthCrates := {
  b64_utf8 : str -> option str;
  unpercent : str -> option str;
  new_v5_url : bytes -> Uuid;
  encode_id_token : Oidc.IdTokenClaims -> option str;
}.

#[export] Instance toy_oauth_crates : OAuthCrates :=
  {| b64_utf8 := fun s => Some s; unpercent := fun s => Some s;
     new_v5_url := fun b => N.of_nat (length b); encode_id_token := fun c => Some (u"id." ++ Oidc.iss c) |}.

(** [str::split_ascii_whitespace] *)
Definition split_ascii_whitespace (s : str) : list str :=
  List.filter (fun part => negb (bool_decide (part = [])))
    (split_on 32 (map (fun c => if is_ascii_whitespace c then 32 else c) s)).

(** [str::parse::<i64>] *)
Definition parse_i64 (s : str) : option Z :=
  n ← parse_signed s;
  if (I64_MIN <=? n) && (n <=? I64_MAX) then Some n else None.

Example parse_i64_some :
  map parse_i64 [u"42"; u"-7"; u"+7"; u""; u"-"; u"4x"; u"9223372036854775807"; u"9223372036854775808"]
  = [Some 42; Some (-7); Some 7; None; None; None; Some I64_MAX; None].
Proof. reflexivity. Qed.

(** * Errors *)

Record OAuthError := { oe_code : ErrorCode; oe_description : option str; oe_basic_challenge : bool }.

Definition oauth_error (code : ErrorCode) (description : str) : OAuthError :=
  {| oe_code := code; oe_description := Some description; oe_basic_challenge := false |}.

Definition status (self : OAuthError) : Z := if bool_decide (oe_code self = InvalidClient) then 401 else 400.

Inductive EndpointError := OAuthFailure (error : OAuthError) | App (error : AppError).

(** The messages of the errors the endpoints rename (src/src/error.rs). *)
Definition app_message (error : AppError) : str :=
  match error with
  | DeviceAuthPending => u"device authorization pending"
  | DeviceSlowDown => u"device polling too fast"
  | DeviceCodeExpired => u"device code expired"
  | DeviceAccessDenied => u"device access denied"
  | DeviceClientUnknown => u"device client unknown"
  | InvalidAuthorizationCode => u"invalid authorization code"
  | TokenInvalid => u"token invalid"
  | TokenExpired => u"token expired"
  | Unauthorized => u"authentication required"
  | DeviceSessionLimitReached => u"device session limit reached"
  | Forbidden => u"forbidden"
  | _ => []
  end.

Definition endpoint_error (error : AppError) : EndpointError :=
  match error with
  | Validation message => OAuthFailure (oauth_error InvalidRequest message)
  | DeviceAuthPending => OAuthFailure (oauth_error AuthorizationPending (app_message error))
  | DeviceSlowDown => OAuthFailure (oauth_error SlowDown (app_message error))
  | DeviceCodeExpired => OAuthFailure (oauth_error ExpiredTokenCode (app_message error))
  | DeviceAccessDenied => OAuthFailure (oauth_error AccessDenied (app_message error))
  | DeviceClientUnknown => OAuthFailure (oauth_error InvalidClient (app_message error))
  | InvalidAuthorizationCode | TokenInvalid | TokenExpired | Unauthorized | DeviceSessionLimitReached | Forbidden =>
      OAuthFailure (oauth_error InvalidGrant (app_message error))
  | AccountSuspendedError | AccountInactive | AccountLocked | EmailNotVerified =>
      OAuthFailure (oauth_error InvalidGrant u"the grant is not valid")
  | _ => App error
  end.

(** * Requests kept in Redis *)

Record StoredRequest := {
  rq_client_id : str;
  rq_redirect_uri : str;
  rq_code_challenge : str;
  rq_scopes : option (list str);
  rq_state : option str;
  rq_nonce : option str;
  rq_max_age : option Z;
  rq_viewer : option Uuid;
}.

#[export] Instance codec_request : Codec StoredRequest.
Proof.
  refine (codec_iso
    (fun r => (rq_client_id r, rq_redirect_uri r, rq_code_challenge r, rq_scopes r, rq_state r, rq_nonce r,
               rq_max_age r, rq_viewer r))
    (fun '(c, uri, ch, scopes, st, nonce, age, viewer) =>
       Some {| rq_client_id := c; rq_redirect_uri := uri; rq_code_challenge := ch; rq_scopes := scopes;
               rq_state := st; rq_nonce := nonce; rq_max_age := age; rq_viewer := viewer |}) _).
  by intros [].
Defined.

#[export] Instance toy_request_serde : Serde StoredRequest := serde_of_codec.

Definition viewed_by (user_id : Uuid) (r : StoredRequest) : StoredRequest :=
  {| rq_client_id := rq_client_id r; rq_redirect_uri := rq_redirect_uri r; rq_code_challenge := rq_code_challenge r;
     rq_scopes := rq_scopes r; rq_state := rq_state r; rq_nonce := rq_nonce r; rq_max_age := rq_max_age r;
     rq_viewer := Some user_id |}.

Inductive AuthorizeOutcome := Consent (id : str) | Refused (uri : str).

Record Loaded := { lo_request : StoredRequest; lo_raw : str }.

Record RequestDescription := {
  rdn_request : AuthorizationRequest;
  rdn_redirect_uri : str;
  rdn_reauthentication_required : bool;
}.

Record TokenResponse := {
  tr_access_token : str;
  tr_refresh_token : option str;
  tr_scopes : option (list str);
  tr_expires_in : Z;
  tr_id_token : option str;
}.

Record Introspection := {
  in_active : bool;
  in_token_type : option str;
  in_session_type : option str;
  in_scope : option str;
  in_client_id : option str;
  in_sub : option Uuid;
  in_exp : option Z;
  in_iat : option Z;
  in_iss : option str;
  in_aud : option (list str);
  in_jti : option Uuid;
}.

(** [Introspection::default()] *)
Definition inactive : Introspection :=
  {| in_active := false; in_token_type := None; in_session_type := None; in_scope := None; in_client_id := None;
     in_sub := None; in_exp := None; in_iat := None; in_iss := None; in_aud := None; in_jti := None |}.

Inductive Presented := Access (token : str) | Personal | RefreshToken (token : str).

Definition classify (token : str) : Presented :=
  if bool_decide (is_Some (Pat.random_part token)) then Personal
  else if (length (split_on 46 token) =? 3)%nat then Access token
  else RefreshToken token.

Abbreviation parameters := (list (str * str)).

Module Endpoint.

Definition REQUEST_TTL_SECS : Z := 600.
Definition REQUEST_PREFIX : str := u"oauth_request:".
Definition MAX_CLIENT_AUTH_FAILURES_BY_IP : Z := 20.
Definition CLIENT_AUTH_FAILURE_WINDOW_SECS : Z := 900.
Definition CLIENT_REQUESTS_PER_MINUTE : Z := 1200.
Definition CLIENT_RPM_PREFIX : str := u"oauth_client_rpm:".

Section Clients.
Context `{RedisServer} `{Env} `{TimeCrate} `{CryptoCrates} `{SqlText} `{IpNetworkCrate} `{!Jwt}.
Context `{Passwords} `{UrlCrate} `{OAuthCrates}.

(** [?] on an error of the application, and on one of the database. *)
Definition app {A} (m : M AppError A) : M EndpointError A := map_err endpoint_error m.
Definition sql {A} (m : M SqlError A) : M EndpointError A := map_err (fun _ => App Internal) m.
Definition refuse_with {A} (code : ErrorCode) (description : str) : M EndpointError A :=
  fail (OAuthFailure (oauth_error code description)).

Definition client_failure_key (ip : IpNetwork) (claimed_client_id : str) : str :=
  u"oauth_client_fail:" ++ IpBucket.ip_bucket (net_ip ip) ++ u":" ++
  hex_text (take 16 (sha256 (as_bytes claimed_client_id))).

(** [authorization.filter(|h| h.to_ascii_lowercase().starts_with("basic "))] *)
Definition basic_header (authorization : option str) : option str :=
  header ← authorization;
  if starts_with u"basic " (to_ascii_lowercase header) then Some header else None.

Definition credentials (header : str) : option (str * str) := basic_credentials b64_utf8 unpercent header.

Definition claimed_secret_holder (authorization : option str) (params : parameters) : option str :=
  match basic_header authorization with
  | Some header => Some (default [] (fst <$> credentials header))
  | None => (fun _ => default [] (parameter params u"client_id")) <$> parameter params u"client_secret"
  end.

Definition invalid {A} (description : str) (basic_challenge : bool) : M EndpointError A :=
  fail (OAuthFailure {| oe_code := InvalidClient; oe_description := Some description;
                        oe_basic_challenge := basic_challenge |}).

(** The identifier a request claims, and the secret it presents. *)
Definition presented (authorization : option str) (params : parameters) : M EndpointError (str * option str) :=
  match basic_header authorization with
  | Some header =>
      match credentials header with
      | None => invalid u"malformed Basic credentials" true
      | Some (id, secret) =>
          if bool_decide (is_Some (parameter params u"client_secret"))
          then refuse_with InvalidRequest u"client credentials must use a single method"
          else if match parameter params u"client_id" with Some param => negb (str_eqb param id) | None => false end
          then refuse_with InvalidRequest u"client_id does not match the Basic credentials"
          else mret (id, Some secret)
      end
  | None =>
      match parameter params u"client_id" with
      | None => refuse_with InvalidRequest u"client_id is required"
      | Some id => mret (id, parameter params u"client_secret")
      end
  end.

Definition identify_client (authorization : option str) (params : parameters) : M EndpointError RegisteredClient :=
  let failed := invalid u"client authentication failed" (bool_decide (is_Some (basic_header authorization))) in
  claimed ← presented authorization params;
  found ← sql (client_find_by_id claimed.1);
  match found with
  | None => failed
  | Some client =>
      match c_client_secret_hash client, claimed.2 with
      | Some expected, Some secret =>
          if negb (constant_time_eq (sha256 (as_bytes secret)) expected) then failed else mret client
      | Some _, None => failed
      | None, Some _ => failed
      | None, None => mret client
      end
  end.

(** The budget of a client's requests. *)
Definition rpm_key (ip : option IpNetwork) (client : RegisteredClient) : str :=
  match ip with
  | Some ip =>
      if negb (is_confidential client)
      then CLIENT_RPM_PREFIX ++ c_client_id client ++ u":" ++ IpBucket.ip_bucket (net_ip ip)
      else CLIENT_RPM_PREFIX ++ c_client_id client
  | None => CLIENT_RPM_PREFIX ++ c_client_id client
  end.

Definition authenticate_client (authorization : option str) (params : parameters) (ip : option IpNetwork) :
    M EndpointError RegisteredClient :=
  let failure_key :=
    ip ← ip; claimed ← claimed_secret_holder authorization params; Some (client_failure_key ip claimed) in
  failures ← match failure_key with
             | Some key => n ← attempt (peek key); mret (match n with Ok n => n | Err _ => 0 end)
             | None => mret 0
             end;
  if bool_decide (is_Some failure_key) && (MAX_CLIENT_AUTH_FAILURES_BY_IP <=? failures)
  then fail (endpoint_error RateLimitExceededError)
  else
    client ← attempt (identify_client authorization params);
    match client with
    | Err (OAuthFailure error) =>
        _ ← match failure_key with
            | Some key =>
                if bool_decide (oe_code error = InvalidClient)
                then _ ← attempt (consume [{| bg_key := key; bg_limit := MAX_CLIENT_AUTH_FAILURES_BY_IP;
                                              bg_window_secs := CLIENT_AUTH_FAILURE_WINDOW_SECS |}]); mret tt
                else mret tt
            | None => mret tt
            end;
        fail (OAuthFailure error)
    | Err error => fail error
    | Ok client =>
        consumed ← attempt (consume [{| bg_key := rpm_key ip client; bg_limit := CLIENT_REQUESTS_PER_MINUTE;
                                        bg_window_secs := 60 |}]);
        if match consumed with Ok c => exceeded c | Err _ => false end
        then fail (endpoint_error RateLimitExceededError)
        else mret client
    end.

(** The scopes of a request, or a message for [invalid_scope]. *)
Definition check_scopes (client : RegisteredClient) (scope : option str) :
    M AppError (result (option (list str)) str) :=
  match parse_scope scope with
  | Err message => mret (Err message)
  | Ok requested =>
      match requested_scopes requested (c_scopes client) with
      | Err outside => mret (Err (u"scopes not allowed for this client: " ++ join u" " outside))
      | Ok None => mret (Ok None)
      | Ok (Some scopes) =>
          unknown ← internal (unknown_permissions (List.filter (fun scope => negb (Oidc.is_oidc_scope scope)) scopes));
          if negb (bool_decide (unknown = [])) then mret (Err (u"unknown scopes: " ++ join u" " unknown))
          else mret (Ok (Some scopes))
      end
  end.
End Clients.

(** * Authorization requests *)

Section Requests.
Context `{RedisServer} `{Env} `{TimeCrate} `{CryptoCrates} `{SqlText} `{IpNetworkCrate} `{!Jwt}.
Context `{Passwords} `{UrlCrate} `{OAuthCrates} `{!Serde StoredRequest}.

Definition request_key (id : str) : str := REQUEST_PREFIX ++ hex_text (sha256 (as_bytes id)).

(** [state] and [iss], after what the answer says (RFC 9207). *)
Definition with_state (state : option str) (response : list (str * str)) : list (str * str) :=
  response ++ match state with Some state => [(u"state", state)] | None => [] end ++ [(u"iss", cfg_public_url config)].

(** An error sent back to the client. *)
Definition refuse (redirect_uri : str) (state : option str) (code : ErrorCode) (description : str) :
    M EndpointError AuthorizeOutcome :=
  match redirect_with redirect_uri (with_state state [(u"error", as_str code); (u"error_description", description)]) with
  | Some uri => mret (Refused uri)
  | None => refuse_with InvalidRequest u"invalid redirect_uri"
  end.

(** The checks of the parameters that need nothing but them, in order. *)
Definition parameter_fault (params : parameters) : option (ErrorCode * str) :=
  let param := parameter params in
  if match param u"state" with Some s => MAX_STATE_LEN <? byte_len s | None => false end
  then Some (InvalidRequest, u"state is too long")
  else if match param u"nonce" with Some n => MAX_STATE_LEN <? char_count n | None => false end
  then Some (InvalidRequest, u"nonce is too long")
  else if negb (bool_decide (param u"response_type" = Some u"code"))
  then Some (UnsupportedResponseType, u"only the code response type is supported")
  else if bool_decide (is_Some (param u"request"))
  then Some (RequestNotSupported, u"request objects are not supported")
  else if bool_decide (is_Some (param u"request_uri"))
  then Some (RequestUriNotSupported, u"request_uri is not supported")
  else if match param u"response_mode" with Some mode => negb (str_eqb mode u"query") | None => false end
  then Some (InvalidRequest, u"only the query response mode is supported")
  else if contains (split_on 32 (default [] (param u"prompt"))) u"none"
  then Some (InteractionRequired, u"the consent page always asks the user")
  else None.

(** [max_age], 0 with [prompt=login]. *)
Definition requested_age (params : parameters) : result (option Z) unit :=
  let login := contains (split_on 32 (default [] (parameter params u"prompt"))) u"login" in
  match parameter params u"max_age" with
  | None => Ok (if login then Some 0 else None)
  | Some raw =>
      match parse_i64 raw with
      | Some age => if 0 <=? age then Ok (if login then Some 0 else Some age) else Err tt
      | None => Err tt
      end
  end.

Definition store_request (request : StoredRequest) : M AppError str :=
  id ← generate_token;
  _ ← Device.redis_internal redis_conn;
  _ ← Device.redis_internal (redis_cmd (fun s t =>
        (r_set_ex s t (request_key id) (RStr (to_json_text request)) REQUEST_TTL_SECS, tt)));
  mret id.

Definition start_authorization (params : parameters) : M EndpointError AuthorizeOutcome :=
  let param := parameter params in
  match param u"client_id" with
  | None => refuse_with InvalidRequest u"client_id is required"
  | Some client_id =>
      client ← app (load_client client_id);
      match (match param u"redirect_uri", c_redirect_uris client with
             | Some uri, _ => Some uri
             | None, [uri] => Some uri
             | None, _ => None
             end) with
      | None => refuse_with InvalidRequest u"redirect_uri is required"
      | Some redirect_uri =>
          _ ← app (lift (validate_redirect client redirect_uri));
          let state := s ← param u"state"; if byte_len s <=? MAX_STATE_LEN then Some s else None in
          match parameter_fault params with
          | Some (code, description) => refuse redirect_uri state code description
          | None =>
              match requested_age params with
              | Err _ => refuse redirect_uri state InvalidRequest u"max_age must be a number of seconds"
              | Ok max_age =>
                  match param u"code_challenge" with
                  | None => refuse redirect_uri state InvalidRequest u"code_challenge is required"
                  | Some code_challenge =>
                      match validate_challenge code_challenge (default u"plain" (param u"code_challenge_method")) with
                      | Err message => refuse redirect_uri state InvalidRequest message
                      | Ok _ =>
                          checked ← app (check_scopes client (param u"scope"));
                          match checked with
                          | Err message => refuse redirect_uri state InvalidScope message
                          | Ok scopes =>
                              id ← app (store_request
                                {| rq_client_id := c_client_id client; rq_redirect_uri := redirect_uri;
                                   rq_code_challenge := code_challenge; rq_scopes := scopes; rq_state := state;
                                   rq_nonce := param u"nonce"; rq_max_age := max_age; rq_viewer := None |});
                              mret (Consent id)
                          end
                      end
                  end
              end
          end
      end
  end.

Definition load_request (id : str) : M AppError (Loaded * RegisteredClient) :=
  _ ← Device.redis_internal redis_conn;
  raw ← Device.redis_internal (redis_cmd (fun s t => (s, Device.get_text (request_key id) s t)));
  raw ← ok_or raw NotFound;
  request ← ok_or (from_json_text raw) Internal;
  client ← map_err (fun _ => NotFound) (load_client (rq_client_id request));
  mret ({| lo_request := request; lo_raw := raw |}, client).

(** Of concurrent decisions, only the one that removed the request goes on. *)
Definition take_request (id : str) : M AppError unit :=
  _ ← Device.redis_internal redis_conn;
  removed ← Device.redis_internal (redis_cmd (Device.del_count (request_key id)));
  if removed =? 1 then mret tt else fail NotFound.

(** The script [CLAIM_REQUEST] is that of the device flow. *)
Definition claim_request (id : str) (loaded : Loaded) (user_id : Uuid) : M AppError StoredRequest :=
  let request := lo_request loaded in
  match rq_viewer request with
  | Some viewer => if bool_decide (viewer = user_id) then mret request else fail NotFound
  | None =>
      let request := viewed_by user_id request in
      _ ← Device.redis_internal redis_conn;
      claimed ← Device.redis_internal (redis_cmd
                  (Device.compare_and_set (request_key id) (lo_raw loaded) (to_json_text request)));
      if negb (claimed =? 1) then fail NotFound else mret request
  end.

Definition password_fresh_enough (session_id : Uuid) (max_age : option Z) : M AppError bool :=
  proven_at ← reauth_proven_at session_id;
  match proven_at with
  | None => mret false
  | Some proven_at =>
      now ← clock_now;
      let age := unix_timestamp now - proven_at in
      mret (match max_age with None => true | Some max_age => (0 <? max_age) && (age <=? max_age) end)
  end.

Definition describe_request (user_id session_id : Uuid) (id : str) : M AppError RequestDescription :=
  loaded ← load_request id;
  request ← claim_request id loaded.1 user_id;
  description ← Grants.describe user_id loaded.2 (rq_scopes request);
  fresh ← password_fresh_enough session_id (rq_max_age request);
  mret {| rdn_request := description; rdn_redirect_uri := rq_redirect_uri request;
          rdn_reauthentication_required := negb fresh |}.

Definition approve_request (user_id session_id : Uuid) (id : str) (current_password : option str)
    (ip : option IpNetwork) (request_id : option Uuid) : M AppError str :=
  loaded ← load_request id;
  let client := loaded.2 in
  request ← claim_request id loaded.1 user_id;
  _ ← lift (validate_redirect client (rq_redirect_uri request));
  fresh ← match current_password with
          | None => password_fresh_enough session_id (rq_max_age request)
          | Some _ => mret true
          end;
  if negb fresh then fail ReauthenticationRequired
  else
    _ ← require_recent_reauth_or_password user_id session_id current_password ip request_id u"authorize_client";
    _ ← take_request id;
    proven_at ← reauth_proven_at session_id;
    now ← clock_now;
    let auth_time := default now (proven_at ≫= from_unix_timestamp) in
    code ← approve {| ap_user_id := user_id; ap_session_id := session_id; ap_client := client;
                      ap_redirect_uri := rq_redirect_uri request; ap_code_challenge := rq_code_challenge request;
                      ap_requested := rq_scopes request; ap_nonce := rq_nonce request; ap_auth_time := auth_time;
                      ap_current_password := None; ap_ip := ip; ap_request_id := request_id |};
    ok_or (redirect_with (rq_redirect_uri request) (with_state (rq_state request) [(u"code", code)])) Internal.

Definition deny_request (user_id : Uuid) (id : str) : M AppError str :=
  loaded ← load_request id;
  request ← claim_request id loaded.1 user_id;
  _ ← take_request id;
  ok_or (redirect_with (rq_redirect_uri request)
           (with_state (rq_state request) [(u"error", as_str AccessDenied);
              (u"error_description", u"the user denied the request")])) Internal.
End Requests.

(** * The token endpoint *)

Section Token.
Context `{RedisServer} `{Env} `{TimeCrate} `{CryptoCrates} `{SqlText} `{IpNetworkCrate} `{!Jwt} `{!JwtCrates}.
Context `{Passwords} `{UrlCrate} `{OAuthCrates} `{!Serde DeviceAuthState}.

Definition GRANTS : list str :=
  [GRANT_AUTHORIZATION_CODE; GRANT_REFRESH_TOKEN; GRANT_DEVICE_CODE; GRANT_CLIENT_CREDENTIALS].

Definition required (params : parameters) (name : str) : M EndpointError str :=
  ok_or (parameter params name) (OAuthFailure (oauth_error InvalidRequest (name ++ u" is required"))).

(** [now.saturating_add(i64::try_from(access_expiry_secs).unwrap_or(i64::MAX))] *)
Definition expiry_from (now : Z) : Z := Z.min I64_MAX (now + i64_or_max (access_expiry_secs (cfg_jwt config))).

Definition id_token (client : RegisteredClient) (tokens : AuthTokens) (nonce : option str) : M AppError str :=
  let session := at_session tokens in
  found ← internal (user_find_by_id (s_user_id session));
  user ← ok_or found TokenInvalid;
  now ← clock_now;
  let now := unix_timestamp now in
  ok_or (encode_id_token
    {| Oidc.iss := cfg_public_url config; Oidc.sub := u_id user; Oidc.aud := c_client_id client;
       Oidc.azp := c_client_id client; Oidc.exp := expiry_from now; Oidc.iat := now;
       Oidc.auth_time := unix_timestamp (default (s_family_created_at session) (s_auth_time session));
       Oidc.nonce := nonce; Oidc.it_at_hash := Oidc.at_hash (at_access_token tokens);
       Oidc.profile := Oidc.user_claims user (default [] (s_scopes session)) |}) Internal.

(** [serde_json::to_value] of the claims: absent ones are left out, the fields
    of an object are sorted by name. *)
Definition claims_fields (claims : Oidc.UserClaims) (sub : Uuid) : list (str * json) :=
  let field {A} name (f : A -> json) o := match o with Some x => [(name, f x)] | None => [] end in
  field u"email" JStr (Oidc.email claims) ++ field u"email_verified" JBool (Oidc.email_verified claims)
  ++ field u"locale" JStr (Oidc.locale claims) ++ field u"preferred_username" JStr (Oidc.preferred_username claims)
  ++ [(u"sub", JStr (uuid_str sub))] ++ field u"updated_at" (fun n => JNum (JInt n)) (Oidc.updated_at claims).

Definition userinfo (user_id session_id : Uuid) : M AppError json :=
  found ← internal (find_by_id session_id);
  session ← ok_or found Unauthorized;
  if negb (Oidc.requests_identity (s_scopes session)) then fail Forbidden
  else
    found ← internal (user_find_by_id user_id);
    user ← ok_or found Unauthorized;
    mret (JObj (claims_fields (Oidc.user_claims user (default [] (s_scopes session))) (u_id user))).

(** The claims of a token for the client itself: no user, no session. *)
Definition client_claims (client : RegisteredClient) (scopes : list str) (now : Z) (jti : Uuid) : Claims :=
  {| cl_sub := client_subject new_v5_url (cfg_public_url config) (c_client_id client); cl_sid := 0%N; cl_jti := jti;
     cl_exp := expiry_from now; cl_iat := now; cl_nbf := Some now; cl_iss := Some (cfg_public_url config);
     cl_aud := audience (cfg_jwt config); cl_roles := []; cl_permissions := scopes;
     cl_client_id := Some (c_client_id client); cl_sub_type := Some u"client"; cl_session_type := None |}.

Definition client_credentials (client : RegisteredClient) (scope : option str) : M EndpointError TokenResponse :=
  if negb (is_confidential client) || negb (c_allows_client_credentials client)
  then refuse_with UnauthorizedClient u"this client may not use the client credentials grant"
  else if match scope with Some scope => existsb Oidc.is_oidc_scope (split_ascii_whitespace scope) | None => false end
  then refuse_with InvalidScope u"OpenID Connect scopes need a user: not with the client credentials grant"
  else
    checked ← app (check_scopes client scope);
    match checked with
    | Err message => refuse_with InvalidScope message
    | Ok scopes =>
        let scopes := List.filter (fun scope => negb (Oidc.is_oidc_scope scope)) (default [] scopes) in
        now ← clock_now;
        jti ← new_v4;
        access_token ← ok_or (encode_token (client_claims client scopes (unix_timestamp now) jti)) (App Internal);
        mret {| tr_access_token := access_token; tr_refresh_token := None; tr_scopes := Some scopes;
                tr_expires_in := access_expiry_secs (cfg_jwt config); tr_id_token := None |}
    end.

(** The narrower scopes of a refresh, at most what the session was granted. *)
Definition narrowed_scopes (refresh : str) (scope : option str) : M EndpointError (option (list str)) :=
  match scope with
  | None => mret None
  | Some scope =>
      let requested := split_ascii_whitespace scope in
      session ← sql (find_by_token_hash (sha256 (as_bytes refresh)));
      if match session ≫= s_scopes with
         | Some granted => forallb (contains granted) requested
         | None => true
         end
      then mret (Some requested)
      else refuse_with InvalidScope u"a refresh asks for at most what was granted"
  end.

(** [tokens.session.scopes = scopes] *)
Definition set_scopes_row (scopes : option (list str)) (s : Session) : Session :=
  {| s_id := s_id s; s_user_id := s_user_id s; s_family := s_family s;
     s_last_used_at := s_last_used_at s; s_expires_at := s_expires_at s;
     s_created_at := s_created_at s; s_family_created_at := s_family_created_at s;
     s_scopes := scopes; s_revoked_at := s_revoked_at s; s_rotated_at := s_rotated_at s;
     s_compromised_at := s_compromised_at s; s_replaced_by := s_replaced_by s;
     s_ip_address := s_ip_address s; s_device_name := s_device_name s;
     s_remember_me := s_remember_me s; s_token_hash := s_token_hash s;
     s_user_agent := s_user_agent s; s_session_type := s_session_type s;
     s_client_id := s_client_id s; s_compromise_reason := s_compromise_reason s;
     s_mfa := s_mfa s; s_auth_time := s_auth_time s |}.

Definition with_narrowed (access_token : str) (narrowed : list str) (tokens : AuthTokens) : AuthTokens :=
  {| at_access_token := access_token; at_refresh_token := at_refresh_token tokens;
     at_session := set_scopes_row (Some narrowed) (at_session tokens) |}.

Definition refresh_grant (params : parameters) (client : RegisteredClient) (ip : option IpNetwork)
    (user_agent : option str) : M EndpointError AuthTokens :=
  refresh ← required params u"refresh_token";
  narrowed ← narrowed_scopes refresh (parameter params u"scope");
  tokens ← app (refresh_token refresh (Some (c_client_id client)) ip user_agent None);
  match narrowed with
  | None => mret tokens
  | Some narrowed =>
      let session := at_session tokens in
      access_token ← app (build_access_token (s_user_id session) (s_id session) (Some narrowed) (s_client_id session)
                            (s_session_type session));
      mret (with_narrowed access_token narrowed tokens)
  end.

Definition code_grant (params : parameters) (client : RegisteredClient) (ip : option IpNetwork)
    (user_agent : option str) : M EndpointError (AuthTokens * option str) :=
  redirect_uri ← match parameter params u"redirect_uri", c_redirect_uris client with
                 | Some uri, _ => mret uri
                 | None, [uri] => mret uri
                 | None, _ => required params u"redirect_uri"
                 end;
  code ← required params u"code";
  verifier ← required params u"code_verifier";
  app (redeem {| rd_code := code; rd_verifier := verifier; rd_client_id := c_client_id client;
                 rd_redirect_uri := redirect_uri; rd_ip := ip; rd_user_agent := user_agent;
                 rd_device_name := parameter params u"device_name" |}).

Definition token (authorization : option str) (params : parameters) (ip : option IpNetwork)
    (user_agent : option str) : M EndpointError TokenResponse :=
  grant_type ← ok_or (parameter params u"grant_type")
                 (OAuthFailure (oauth_error InvalidRequest u"grant_type is required"));
  if negb (contains GRANTS grant_type)
  then refuse_with UnsupportedGrantType (u"unsupported grant_type " ++ grant_type)
  else
    client ← authenticate_client authorization params ip;
    if str_eqb grant_type GRANT_CLIENT_CREDENTIALS then client_credentials client (parameter params u"scope")
    else
      granted ← (if str_eqb grant_type GRANT_AUTHORIZATION_CODE then code_grant params client ip user_agent
                 else if str_eqb grant_type GRANT_REFRESH_TOKEN
                 then tokens ← refresh_grant params client ip user_agent; mret (tokens, None)
                 else
                   device_code ← required params u"device_code";
                   tokens ← app (Device.poll device_code (c_client_id client) ip user_agent
                                   (parameter params u"device_name"));
                   mret (tokens, None));
      let '(tokens, nonce) := granted : AuthTokens * option str in
      identity ← (if Oidc.requests_identity (s_scopes (at_session tokens))
                  then token ← app (id_token client tokens nonce); mret (Some token)
                  else mret None);
      mret {| tr_access_token := at_access_token tokens; tr_refresh_token := Some (at_refresh_token tokens);
              tr_scopes := s_scopes (at_session tokens); tr_expires_in := access_expiry_secs (cfg_jwt config);
              tr_id_token := identity |}.

Definition device_authorization (authorization : option str) (params : parameters) (ip : option IpNetwork)
    (user_agent : option str) : M EndpointError Device.DeviceInitResponse :=
  client ← authenticate_client authorization params ip;
  checked ← app (check_scopes client (parameter params u"scope"));
  match checked with
  | Err message => refuse_with InvalidScope message
  | Ok scopes => app (Device.initiate ip user_agent client scopes)
  end.

(** * Introspection and revocation *)

(** [state.jwt_verifying_keys] *)
Variable keys : list (str * DecodingKey).

Definition verified_claims (jwt : str) : M EndpointError (option Claims) :=
  now ← clock_now;
  mret (match verified_here keys jwt now with Ok claims => Some claims | Err _ => None end).

Definition nonempty {A} (l : list A) : option (list A) := match l with [] => None | _ => Some l end.

(** Whether the token still stands, and what its client may ask for today when
    it is a client's own token. *)
Definition token_stands (claims : Claims) : M EndpointError (bool * option (list str)) :=
  match cl_client_id claims with
  | Some client_id =>
      if bool_decide (cl_sid claims = 0%N) then
        found ← sql (client_find_by_id client_id);
        let issuer := match found with
                      | Some c => if c_allows_client_credentials c then Some c else None
                      | None => None
                      end in
        blocked ← app (is_jti_blocked (cl_jti claims));
        mret (negb blocked && bool_decide (is_Some issuer), c_scopes <$> issuer)
      else
        stands ← attempt (verify_token_state (cl_jti claims) (cl_sid claims));
        mret (match stands with Ok _ => true | Err _ => false end, None)
  | None =>
      stands ← attempt (verify_token_state (cl_jti claims) (cl_sid claims));
      mret (match stands with Ok _ => true | Err _ => false end, None)
  end.

Definition introspect_access (client : RegisteredClient) (claims : Claims) : M EndpointError Introspection :=
  if negb (c_allows_introspection client) && negb (bool_decide (cl_client_id claims = Some (c_client_id client)))
  then mret inactive
  else
    standing ← token_stands claims;
    let '(active, current_scopes) := standing : bool * option (list str) in
    if negb active then mret inactive
    else
      session ← (if bool_decide (cl_sid claims = 0%N) then mret None else sql (find_by_id (cl_sid claims)));
      let scope := List.filter (fun p => match current_scopes with Some scopes => contains scopes p | None => true end)
                     (List.filter (fun p => bool_decide (c_scopes client = []) || contains (c_scopes client) p)
                        (cl_permissions claims)) in
      mret {| in_active := true; in_token_type := Some u"access_token";
              in_session_type := (fun s => session_type_str (s_session_type s)) <$> session;
              in_scope := nonempty (join u" " scope);
              in_client_id := match cl_client_id claims with Some c => Some c | None => session ≫= s_client_id end;
              in_sub := Some (cl_sub claims); in_exp := Some (cl_exp claims); in_iat := Some (cl_iat claims);
              in_iss := cl_iss claims; in_aud := nonempty (cl_aud claims); in_jti := Some (cl_jti claims) |}.

Definition introspect_refresh (client : RegisteredClient) (raw : str) (now : Z) : M EndpointError Introspection :=
  found ← sql (find_by_token_hash (sha256 (as_bytes raw)));
  match found with
  | None => mret inactive
  | Some session =>
      if is_active session now && bool_decide (s_rotated_at session = None)
         && bool_decide (s_client_id session = Some (c_client_id client))
      then mret {| in_active := true; in_token_type := Some u"refresh_token"; in_session_type := None;
                   in_scope := join u" " <$> s_scopes session; in_client_id := s_client_id session;
                   in_sub := Some (s_user_id session); in_exp := Some (unix_timestamp (s_expires_at session));
                   in_iat := Some (unix_timestamp (s_created_at session)); in_iss := None; in_aud := None;
                   in_jti := None |}
      else mret inactive
  end.

Definition introspect (authorization : option str) (params : parameters) (ip : option IpNetwork) :
    M EndpointError Introspection :=
  client ← authenticate_client authorization params ip;
  if negb (is_confidential client)
  then refuse_with UnauthorizedClient u"introspection is reserved to confidential clients"
  else
    token ← ok_or (parameter params u"token") (OAuthFailure (oauth_error InvalidRequest u"token is required"));
    now ← clock_now;
    match classify token with
    | Access jwt =>
        claims ← verified_claims jwt;
        match claims with None => mret inactive | Some claims => introspect_access client claims end
    | RefreshToken raw => introspect_refresh client raw now
    | Personal => mret inactive
    end.

Definition owned (client : RegisteredClient) (session : Session) : bool :=
  bool_decide (s_client_id session = Some (c_client_id client)).

Definition revoke_access (client : RegisteredClient) (claims : Claims) : M EndpointError unit :=
  if bool_decide (cl_sid claims = 0%N) then
    if bool_decide (cl_client_id claims = Some (c_client_id client))
    then app (blocklist_jti (cl_jti claims) (cl_exp claims)) else mret tt
  else
    found ← sql (find_by_id (cl_sid claims));
    match found with
    | Some session => if owned client session then app (blocklist_jti (cl_jti claims) (cl_exp claims)) else mret tt
    | None => mret tt
    end.

Definition revoke_refresh (client : RegisteredClient) (raw : str) (ip : option IpNetwork) : M EndpointError unit :=
  found ← sql (find_by_token_hash (sha256 (as_bytes raw)));
  match found with
  | Some session =>
      if owned client session && bool_decide (s_revoked_at session = None) then
        _ ← sql (SessionRepo.revoke (s_id session));
        _ ← app (invalidate_session_caches [s_id session]);
        _ ← app (blocklist_refresh_token (s_token_hash session) (s_expires_at session));
        sql (audit_append {| na_user_id := Some (s_user_id session); na_request_id := None;
          na_action := SessionRevoked; na_ip_address := ip;
          na_metadata := JObj [(u"by", JStr u"client"); (u"client_id", JStr (c_client_id client));
                               (u"session_id", JStr (uuid_str (s_id session)))] |})
      else mret tt
  | None => mret tt
  end.

Definition revoke (authorization : option str) (params : parameters) (ip : option IpNetwork) : M EndpointError unit :=
  client ← authenticate_client authorization params ip;
  token ← ok_or (parameter params u"token") (OAuthFailure (oauth_error InvalidRequest u"token is required"));
  match classify token with
  | Access jwt =>
      claims ← verified_claims jwt;
      match claims with None => mret tt | Some claims => revoke_access client claims end
  | RefreshToken raw => revoke_refresh client raw ip
  | Personal => mret tt
  end.
End Token.
End Endpoint.
