(* ===== verification/OAuthCorrect.v ===== *)
(** Theorems about the OAuth endpoints: who a client is taken for, who decides
    an authorization request, what a refresh, a client's own token, an
    introspection and a revocation reach. *)
From S2P Require Import Prelude Crates Codec Session Account OAuthDomain Network Edge Crypto Tables App Outside RedisCounter SessionRepo Repos Tokens UserRepo AccessRepo TokenRepo AccountsOk Scenario TokensCorrect Refresh RefreshCorrect Login LoginCorrect SecondFactor SecondFactorCorrect OneTime OneTimeCorrect SelfService Guard Factors Administration Office AccessToken Grants GrantsCorrect DeviceFlow DeviceCorrect OAuthService.
Import Account.User Account.Audit OAuthDomain.Client OAuthDomain.OAuth OAuthService.Endpoint.

(** * Client authentication *)

Section Authentication.
Context `{RedisServer} `{Env} `{TimeCrate} `{CryptoCrates} `{SqlText} `{IpNetworkCrate} `{!Jwt}.
Context `{Passwords} `{UrlCrate} `{OAuthCrates}.

(** What a request says of its client: with [Basic] or in its parameters,
    never both. *)
Inductive says (authorization : option str) (params : parameters) (id : str) : option str -> Prop :=
| says_basic header secret :
    basic_header authorization = Some header -> credentials header = Some (id, secret) ->
    parameter params u"client_secret" = None ->
    (forall other, parameter params u"client_id" = Some other -> other = id) ->
    says authorization params id (Some secret)
| says_form secret :
    basic_header authorization = None -> parameter params u"client_id" = Some id ->
    parameter params u"client_secret" = secret -> says authorization params id secret.

Lemma presented_Ok authorization params (w w' : World) id secret :
  presented authorization params w = (w', Ok (id, secret)) -> w' = w /\ says authorization params id secret.
Proof.
  unfold presented. destruct (basic_header authorization) as [header|] eqn:Eb.
  - destruct (credentials header) as [[i s]|] eqn:Ec; [|done].
    case_bool_decide as Hs; [done|]. destruct (parameter params u"client_id") as [other|] eqn:Ei.
    + destruct (str_eqb other i) eqn:Ee; [|done]. apply str_eqb_eq in Ee as ->. cbn [negb]. intros [= <- <- <-].
      split; [done|]. eapply says_basic; [done|exact Ec|by apply eq_None_not_Some|congruence].
    + intros [= <- <- <-]. split; [done|]. eapply says_basic; [done|exact Ec|by apply eq_None_not_Some|congruence].
  - destruct (parameter params u"client_id") as [i|] eqn:Ei; [|done]. intros [= <- <- <-].
    split; [done|]. by apply says_form.
Qed.

(** The client is registered under what is said, and the secret is its own. *)
Definition authenticated (authorization : option str) (params : parameters) (client : RegisteredClient) (w : World) : Prop :=
  client ∈ t_clients (w_db w) /\
  match c_client_secret_hash client with
  | Some hash => exists secret, says authorization params (c_client_id client) (Some secret) /\ sha256 (as_bytes secret) = hash
  | None => says authorization params (c_client_id client) None
  end.

Lemma identify_client_Ok authorization params (w w' : World) client :
  identify_client authorization params w = (w', Ok client) ->
  same_db w w' /\ authenticated authorization params client w.
Proof.
  unfold identify_client, sql, client_find_by_id. intros R. unbind R claimed w1 R1. destruct claimed as [ci secret].
  apply presented_Ok in R1 as [-> Hs]. unbind R found w2 R2. read_run R2. cbn [fst snd] in R.
  destruct (List.find _ _) as [c|] eqn:Ef; [|by apply fail_Ok in R]. apply find_client_id in Ef as [Hin Hid].
  unfold authenticated. destruct (c_client_secret_hash c) as [hash|] eqn:Eh, secret as [secret|]; try by apply fail_Ok in R.
  - destruct (constant_time_eq _ hash) eqn:Ee; [|by apply fail_Ok in R]. apply ret_Ok in R as [-> ->].
    split; [done|]. split; [done|]. rewrite Eh. exists secret. rewrite Hid. split; [done|].
    by apply andb_true_iff in Ee as [_ Ee%bool_decide_eq_true].
  - apply ret_Ok in R as [-> ->]. split; [done|]. split; [done|]. by rewrite Eh, Hid.
Qed.

Lemma keeps_authenticate authorization params ip : keeps same_db (authenticate_client authorization params ip).
Proof.
  unfold authenticate_client, identify_client, presented, invalid, refuse_with, consume, run, sql.
  destruct (_ ≫= _); tables_auto.
Qed.

Lemma authenticate_client_Ok authorization params ip (w w' : World) client :
  authenticate_client authorization params ip w = (w', Ok client) ->
  same_db w w' /\ authenticated authorization params client w.
Proof.
  intros R. split; [eapply keeps_run, R; apply keeps_authenticate|].
  unfold authenticate_client in R. unbind R n w1 R1.
  assert (same_db w w1) as S1 by (eapply keeps_run, R1; destruct (_ ≫= _); tables_auto).
  destruct (bool_decide _ && _); [by apply fail_Ok in R|]. unbind R c w2 R2.
  apply attempt_run in R2 as (c' & R2 & [= ->]). destruct c' as [c|[error|error]].
  - apply identify_client_Ok in R2 as [_ [Hin Hs]]. unbind R consumed w3 R3.
    destruct (match consumed with Ok _ => _ | Err _ => _ end); [by apply fail_Ok in R|].
    apply ret_Ok in R as [-> ->]. split; [by rewrite <- (proj1 S1)|done].
  - unbind R y w3 R3. by apply fail_Ok in R.
  - by apply fail_Ok in R.
Qed.

Lemma peek_answered key (w : World) :
  all_answered -> exists w1, peek key w = (w1, Ok (int_of (live (w_wall w) (dump (w_redis w) key)))).
Proof.
  intros Ha. eexists. unfold peek.
  rewrite (bind_step _ _ w (bump_io w) tt) by (by apply map_err_Ok, redis_conn_answered).
  apply map_err_Ok. rewrite redis_cmd_answered by done. reflexivity.
Qed.

(** Whoever is taken for a client is registered and presents that client's
    secret, by the digest kept of it, with exactly one method; a client without
    a secret is taken by its name only, and never when a secret is presented.
    Nothing is written to the tables.  Once twenty wrong secrets were counted
    against the address for the client it names, a request that presents a
    secret is refused whatever it presents. *)
Theorem client_authentication_sound authorization params ip (w w' : World) r :
  authenticate_client authorization params ip w = (w', r) ->
  same_db w w' /\
  (forall client, r = Ok client -> authenticated authorization params client w) /\
  (all_answered -> forall addr claimed, ip = Some addr -> claimed_secret_holder authorization params = Some claimed ->
     20 <= int_of (live (w_wall w) (dump (w_redis w) (client_failure_key addr claimed))) ->
     r = Err (App RateLimitExceededError)).
Proof.
  intros R. split; [eapply keeps_run, R; apply keeps_authenticate|]. split.
  - intros client ->. by apply authenticate_client_Ok in R as [_ ?].
  - intros Ha addr claimed -> Hc Hn. unfold authenticate_client in R. rewrite Hc in R. cbn [mbind option_bind] in R.
    change (Z.le MAX_CLIENT_AUTH_FAILURES_BY_IP (int_of (live (w_wall w) (dump (w_redis w) (client_failure_key addr claimed))))) in Hn.
    revert Hn R. generalize (client_failure_key addr claimed). intros key Hn R.
    destruct (peek_answered key w Ha) as [w1 Hp].
    rewrite (bind_step _ _ w w1 (int_of (live (w_wall w) (dump (w_redis w) key)))) in R
      by (rewrite (bind_step _ _ w w1 (Ok (int_of (live (w_wall w) (dump (w_redis w) key))))) by (by apply attempt_step); done).
    rewrite (proj2 (Z.leb_le _ _) Hn) in R. rewrite bool_decide_true in R by done. cbn in R. by injection R as <- <-.
Qed.
End Authentication.

(** * Authorization requests *)

#[export] Instance keys_kept_rollback `{RedisServer} `{Env} P : Rollback (keys_kept P).
Proof. by intros w w'. Qed.

(** Operations that write other keys, if any. *)
Ltac keys_auto :=
  repeat first
    [ frame_step
    | solve [auto with frame]
    | frame_commit
    | by apply keeps_keys_cmd
    | apply keeps_keys_execute
    | apply keeps_query
    | lazymatch goal with
      | |- keeps _ (redis_cmd _) => fail
      | |- keeps _ ?m => let h := head_of m in unfold h
      end ].

Section Requests.
Context `{RedisServer} `{Env} `{TimeCrate} `{CryptoCrates} `{SqlText} `{IpNetworkCrate} `{!Jwt}.
Context `{Passwords} `{UrlCrate} `{OAuthCrates} `{!Serde StoredRequest}.

(** The request an identifier leads to. *)
Definition request_text (id : str) (w : World) : option str := Device.get_text (request_key id) (w_redis w) (w_wall w).
Definition request_at (id : str) (w : World) : option StoredRequest := request_text id w ≫= from_json_text.

Lemma load_request_Ok id (w w' : World) loaded client :
  load_request id w = (w', Ok (loaded, client)) ->
  redis_kept w w' /\ same_db w w' /\ request_text id w = Some (lo_raw loaded) /\
  from_json_text (lo_raw loaded) = Some (lo_request loaded) /\
  client ∈ t_clients (w_db w) /\ c_client_id client = rq_client_id (lo_request loaded).
Proof.
  unfold load_request, Device.redis_internal. intros R.
  unbind R x w1 R1. apply map_err_Ok, redis_conn_Ok in R1 as ->.
  unbind R o w2 R2. apply map_err_Ok, redis_cmd_Ok in R2 as [E2 S2]. injection E2 as E2 <-.
  unbind R raw w3 R3. read_run R3. unbind R req w4 R4. read_run R4. unbind R c w5 R5.
  apply map_err_Ok in R5. assert (redis_kept w2 w5) as [K5 C5] by (eapply keeps_run, R5; tables_auto).
  apply load_client_Ok in R5 as ([D5 _] & Hin & Hid). apply ret_Ok in R as [[= -> ->] ->]. cbn.
  destruct S2 as [D2 [N2 W2]], C5 as [N5 W5]. change (w_redis w = w_redis w2) in E2.
  change (w_db w2 = w_db w) in D2. change (w_now w2 = w_now w) in N2. change (w_wall w2 = w_wall w) in W2.
  split_and!; [split; [congruence|split; congruence]|split; [congruence|split; congruence]|exact R3|exact R4|congruence|done].
Qed.

Lemma viewed_by_self uid request : rq_viewer request = Some uid -> viewed_by uid request = request.
Proof. destruct request. cbn. by intros ->. Qed.

Lemma claim_request_Ok id loaded uid (w w' : World) request :
  claim_request id loaded uid w = (w', Ok request) ->
  keys_kept (fun k => k <> request_key id) w w' /\ same_db w w' /\
  request = viewed_by uid (lo_request loaded) /\
  (rq_viewer (lo_request loaded) = None \/ rq_viewer (lo_request loaded) = Some uid) /\
  (rq_viewer (lo_request loaded) = Some uid -> redis_kept w w') /\
  (rq_viewer (lo_request loaded) = None ->
   dump (w_redis w') (request_key id) = Some (Entry (RStr (to_json_text request)) (exp_of (live (w_wall w) (dump (w_redis w) (request_key id))))) /\
   request_text id w = Some (lo_raw loaded)).
Proof.
  unfold claim_request, Device.redis_internal. intros R. destruct (rq_viewer (lo_request loaded)) as [v|] eqn:Ev.
  - case_bool_decide as Hv; [|by apply fail_Ok in R]. subst v. apply ret_Ok in R as [-> ->].
    rewrite viewed_by_self by done. split_and!; [apply frame_refl|apply frame_refl|done|by right|intros _; apply frame_refl|done].
  - unbind R x w1 R1. apply map_err_Ok, redis_conn_Ok in R1 as ->.
    unbind R n w2 R2. apply map_err_Ok, redis_cmd_Ok in R2 as [E2 S2].
    destruct (n =? 1) eqn:En; [|by apply fail_Ok in R]. apply Z.eqb_eq in En. apply ret_Ok in R as [-> ->].
    apply compare_and_set_done in E2 as [Hg Hd]; [|lia].
    split_and!; [split; [apply S2|]|exact S2|done|by left|done|].
    + intros k Hk. rewrite Hd, upd_ne by done. done.
    + intros _. split; [by rewrite Hd, upd_eq|exact Hg].
Qed.

Lemma take_request_Ok id (w w' : World) x :
  take_request id w = (w', Ok x) ->
  keys_kept (fun k => k <> request_key id) w w' /\ same_db w w' /\ dump (w_redis w') (request_key id) = None.
Proof.
  unfold take_request, Device.redis_internal. intros R. unbind R y w1 R1. apply map_err_Ok, redis_conn_Ok in R1 as ->.
  unbind R n w2 R2. apply map_err_Ok, redis_cmd_Ok in R2 as [E2 S2]. injection E2 as E2 _.
  destruct (n =? 1); [|by apply fail_Ok in R]. apply ret_Ok in R as [_ ->].
  split_and!; [split; [apply S2|]|exact S2|by rewrite <- E2, dump_del, upd_eq].
  intros k Hk. by rewrite <- E2, dump_del, upd_ne.
Qed.

Lemma reauth_not_request sid id : reauth_key sid <> request_key id.
Proof. intros E. apply (f_equal (fun s => s !! 0%nat)) in E. discriminate E. Qed.

(** Another viewer's request does not answer. *)
Lemma claim_refused id loaded uid viewer (w : World) :
  rq_viewer (lo_request loaded) = Some viewer -> viewer <> uid -> claim_request id loaded uid w = (w, Err NotFound).
Proof. intros Hv Hne. unfold claim_request. rewrite Hv. by rewrite bool_decide_false. Qed.

Lemma first_two_fail {B} id uid viewer request (k : (Loaded * RegisteredClient) -> StoredRequest -> M AppError B) (w : World) :
  request_at id w = Some request -> rq_viewer request = Some viewer -> viewer <> uid ->
  let run := (loaded ← load_request id; request ← claim_request id loaded.1 uid; k loaded request) w in
  (exists e, run.2 = Err e) /\ w_db run.1 = w_db w /\ w_redis run.1 = w_redis w.
Proof.
  intros Ha Hv Hne. cbn zeta.
  destruct (load_request id w) as [w1 [[loaded client]|e]] eqn:R.
  - rewrite (bind_step _ _ _ _ _ R). apply load_request_Ok in R as ([K1 _] & [D1 _] & Ht & Hj & _). unfold request_at in Ha. rewrite Ht in Ha. cbn in Ha.
    rewrite Hj in Ha. injection Ha as Ha. rewrite (bind_fail _ _ w1 w1 NotFound); [split; [by eexists|split; [exact D1|exact K1]]|].
    eapply claim_refused; [cbn; rewrite Ha; exact Hv|done].
  - rewrite (bind_fail _ _ _ _ _ R). assert (same_db w w1) as [D _] by (eapply keeps_run, R; unfold load_request; tables_auto).
    split; [by exists e|]. split; [done|]. cbn.
    unfold load_request, Device.redis_internal in R. apply bind_run in R as [(x & w2 & R1 & R)|(e' & R & _)].
    2:{ unfold map_err, redis_conn, io in R. by destruct (io_plan (w_io w)); injection R as <- _. }
    apply map_err_Ok, redis_conn_Ok in R1 as ->. apply bind_run in R as [(o & w3 & R2 & R)|(e' & R & _)].
    2:{ unfold map_err, redis_cmd, io in R. destruct (io_plan _); cbn -[request_key] in R; by simplify_eq/=. }
    apply map_err_Ok, redis_cmd_Ok in R2 as [E2 _]. injection E2 as E2 _. change (w_redis w = w_redis w3) in E2. rewrite E2.
    assert (forall m : M AppError (Loaded * RegisteredClient), keeps redis_kept m -> m w3 = (w1, Err e) -> w_redis w1 = w_redis w3) as Hk
      by (intros m Hm Hr; apply (keeps_run _ _ _ _ _ Hm) in Hr; apply Hr).
    eapply Hk, R. unfold load_client, client_find_by_id. tables_auto.
Qed.
End Requests.

Section Deciding.
Context `{RedisServer} `{Env} `{TimeCrate} `{CryptoCrates} `{SqlText} `{IpNetworkCrate} `{!Jwt}.
Context `{Passwords} `{UrlCrate} `{OAuthCrates} `{!Serde StoredRequest}.

(** The session's proof of the password, as Redis holds it. *)
Definition proven_at (sid : Uuid) (w : World) : option Z :=
  match r_get (w_redis w) (w_wall w) (reauth_key sid) with Some (RInt n) => Some n | _ => None end.

Lemma reauth_proven_at_Ok sid (w w' : World) o :
  reauth_proven_at sid w = (w', Ok o) -> (forall P, keys_kept P w w') /\ same_db w w' /\ (o = None \/ o = proven_at sid w).
Proof.
  intros R. split; [intros P; eapply keeps_run, R; keys_auto|].
  split; [eapply keeps_run, R; tables_auto|]. unfold reauth_proven_at in R.
  unbind R c w1 R1. apply attempt_run in R1 as (c' & R1 & [= ->]).
  destruct c' as [[]|]; [|apply ret_Ok in R as [-> _]; by left]. apply redis_conn_Ok in R1 as ->.
  unbind R v w2 R2. apply attempt_run in R2 as (v' & R2 & [= ->]). apply ret_Ok in R as [-> _].
  destruct v' as [v|]; [|by left]. apply redis_cmd_Ok in R2 as [E2 _]. injection E2 as _ <-. by right.
Qed.

(** Recent enough for the request: [max_age=0] asks for the password again. *)
Definition fresh_for (max_age : option Z) (now at_ : Z) : Prop :=
  match max_age with None => True | Some m => 0 < m /\ unix_timestamp now - at_ <= m end.

Lemma password_fresh_Ok sid max_age (w w' : World) b :
  password_fresh_enough sid max_age w = (w', Ok b) ->
  (forall P, keys_kept P w w') /\ same_db w w' /\
  (b = true -> exists at_, proven_at sid w = Some at_ /\ fresh_for max_age (w_now w) at_).
Proof.
  unfold password_fresh_enough. intros R. unbind R o w1 R1. apply reauth_proven_at_Ok in R1 as (K1 & S1 & Ho).
  destruct o as [at_|]; [|apply ret_Ok in R as [-> ->]; by split_and!].
  unbind R now w2 R2. unfold clock_now in R2. read_run R2. apply ret_Ok in R as [-> ->].
  split_and!; [done|done|]. intros Hb. exists at_. split; [by destruct Ho as [|Ho]|].
  rewrite (proj1 (proj2 S1)) in Hb. unfold fresh_for. destruct max_age as [m|]; [|done].
  apply andb_true_iff in Hb as [Hm%Z.ltb_lt Ha%Z.leb_le]. by split.
Qed.

(** What a successful approval of a request comes to. *)
Record request_approved (uid sid : Uuid) (id : str) (current : option str) (w w' : World) (uri : str)
    (request : StoredRequest) : Prop := {
  aq_request : request_at id w = Some request;
  aq_viewer : rq_viewer request = None \/ rq_viewer request = Some uid;
  aq_proven : proven uid sid current w;
  aq_fresh : current = None -> exists at_, proven_at sid w = Some at_ /\ fresh_for (rq_max_age request) (w_now w) at_;
  aq_code : exists client c code,
    client ∈ t_clients (w_db w) /\ c_client_id client = rq_client_id request /\
    validate_redirect client (rq_redirect_uri request) = Ok tt /\
    g_codes (t_grants (w_db w')) = g_codes (t_grants (w_db w)) ++ [c] /\
    ac_code_hash c = sha256 (as_bytes code) /\ ac_user_id c = uid /\ ac_client_id c = rq_client_id request /\
    ac_redirect_uri c = rq_redirect_uri request /\ ac_code_challenge c = rq_code_challenge request /\
    ac_scopes c = consent (rq_scopes request) (permissions_of uid (w_db w)) /\
    redirect_with (rq_redirect_uri request) (with_state (rq_state request) [(u"code", code)]) = Some uri;
  aq_taken : dump (w_redis w') (request_key id) = None;
}.

Lemma keeps_approve P ap : ap_current_password ap = None -> keeps (keys_kept P) (approve ap).
Proof. intros Hc. unfold approve. rewrite Hc. unfold require_recent_reauth_or_password. keys_auto. Qed.

Lemma approve_request_Ok uid sid id cur ip rid (w w' : World) uri :
  approve_request uid sid id cur ip rid w = (w', Ok uri) -> exists request, request_approved uid sid id cur w w' uri request.
Proof.
  unfold approve_request. intros R. unbind R l w1 R1. destruct l as [loaded client].
  apply load_request_Ok in R1 as ([K1 C1] & S1 & Ht & Hj & Hin & Hid). cbn [fst snd] in R.
  unbind R request w2 R2. apply claim_request_Ok in R2 as (K2 & S2 & -> & Hv & _).
  set (rq := lo_request loaded) in *.
  unbind R y w3 R3. apply lift_Ok in R3 as [Hred ->]. cbn in Hred.
  assert (same_db w w2) as S02 by (eapply frame_trans; [exact S1|exact S2]).
  assert (keys_kept (fun k => k <> request_key id) w w2) as K02
    by (eapply frame_trans; [apply redis_kept_keys; by split|exact K2]).
  assert (dump (w_redis w2) (reauth_key sid) = dump (w_redis w) (reauth_key sid)) as Hmark
    by (apply K02, reauth_not_request).
  assert (proven_at sid w2 = proven_at sid w) as Hpa
    by (unfold proven_at, r_get; by rewrite Hmark, (proj2 (proj2 S02))).
  unbind R fr w4 R4.
  assert (same_db w2 w4 /\ (forall P, keys_kept P w2 w4) /\ (fr = true -> cur = None -> exists at_, proven_at sid w = Some at_ /\
    fresh_for (rq_max_age rq) (w_now w) at_)) as (S4 & K4 & Hfresh).
  { destruct cur as [p|].
    - apply ret_Ok in R4 as [-> ->]. split_and!; [apply frame_refl|intros P; apply frame_refl|done].
    - apply password_fresh_Ok in R4 as (K4 & S4 & Hf). split_and!; [done..|]. intros Hb _. specialize (Hf Hb).
      by rewrite Hpa, (proj1 (proj2 S02)) in Hf. }
  destruct fr; [|by apply fail_Ok in R]. cbn [negb] in R.
  assert (same_db w w4) as S04 by (eapply frame_trans; [exact S02|exact S4]).
  unbind R z w5 R5. pose proof (guard_proves _ _ _ _ _ _ _ _ _ R5) as Hp.
  assert (leaves [TUsers; TCodes; TUserRoles; TRolePermissions] w4 w5) as [L5 _]
    by (eapply keeps_run, R5; destruct cur; tables_auto).
  unbind R t w6 R6. apply take_request_Ok in R6 as (_ & S6 & Hgone).
  unbind R pa w7 R7. apply reauth_proven_at_Ok in R7 as (K7 & S7 & _).
  unbind R now w8 R8. unfold clock_now in R8. read_run R8.
  unbind R code w9 R9. assert (keys_kept (fun _ => True) w7 w9) as [_ K9] by (eapply keeps_run, R9; by apply keeps_approve).
  apply approve_Ok in R9 as [c Hc]. apply ok_or_Ok in R as [Huri ->].
  assert (w_db w7 = w_db w5) as D7 by (rewrite (proj1 S7); apply S6).
  exists rq. split.
  - unfold request_at. by rewrite Ht.
  - done.
  - unfold proven, r_exists in *. rewrite (proj1 S04) in Hp. destruct cur as [p|]; [done|].
    rewrite (proj2 (proj2 S04)) in Hp. destruct (K4 (fun _ => True)) as [_ K4']. by rewrite K4', Hmark in Hp.
  - intros ->. by apply Hfresh.
  - destruct Hc as [_ _ _ Hst Hdig (Hu & Hcl & Hru & Hch & _) _ Hsc _ _]. cbn in *.
    exists client, c, code. rewrite Hid in Hcl.
    assert (permissions_of uid (w_db w7) = permissions_of uid (w_db w)) as Hperm.
    { rewrite D7. unfold permissions_of, roles_of. rewrite (L5 TUserRoles), (L5 TRolePermissions) by listed.
      by rewrite (proj1 S04). }
    rewrite Hperm in Hsc. split_and!; try done.
    + by destruct y.
    + rewrite Hst, D7, (L5 TCodes) by listed. cbn. by rewrite (proj1 S04).
  - rewrite K9 by done. rewrite (proj2 (K7 (fun _ => True))) by done. exact Hgone.
Qed.

(** Without a proof of the password the tables stay as they are. *)
Lemma approve_request_refused uid sid id cur ip rid (w : World) :
  unproven uid sid cur w -> refused (approve_request uid sid id cur ip rid) w.
Proof.
  intros Hw. unfold approve_request. apply refused_then; [tables_auto|]. intros [loaded client] w1 R1.
  apply load_request_Ok in R1 as ([K1 _] & [D1 [_ W1]] & _). cbn [fst snd].
  eapply unproven_kept in Hw; [|exact D1|exact W1|by rewrite K1].
  apply refused_then; [tables_auto|]. intros request w2 R2. apply claim_request_Ok in R2 as ([_ K2] & [D2 [_ W2]] & _).
  eapply unproven_kept in Hw; [|exact D2|exact W2|by rewrite K2 by apply reauth_not_request].
  apply refused_then; [tables_auto|]. intros y w3 R3. apply lift_Ok in R3 as [_ ->].
  apply refused_then; [tables_auto|]. intros fr w4 R4.
  assert (keys_kept (fun _ => True) w2 w4) as [[_ W4] K4] by (eapply keeps_run, R4; destruct cur; keys_auto).
  assert (w_db w4 = w_db w2) as D4 by (eapply same_db_run, R4; destruct cur; tables_auto).
  eapply unproven_kept in Hw; [|exact D4|exact W4|by rewrite K4].
  destruct fr; [|apply refused_fail]. by apply refused_first, guard_refuses.
Qed.
End Deciding.

Section RequestTheorems.
Context `{RedisServer} `{Env} `{TimeCrate} `{CryptoCrates} `{SqlText} `{IpNetworkCrate} `{!Jwt}.
Context `{Passwords} `{UrlCrate} `{OAuthCrates} `{!Serde StoredRequest}.

(** An authorization request leads to a code only for the user who viewed
    it first (or the first one now), who proved the password, as recently as
    the request's [max_age] asks when it comes without the password; its client
    is still registered with the redirect URI.  Exactly one code is minted, for
    that user, client, redirect URI and challenge, granting what was asked as
    far as the user holds it; it travels on the redirect URI of the request,
    and the request is gone. *)
Theorem request_approval_sound uid sid id cur ip rid (w w' : World) uri :
  approve_request uid sid id cur ip rid w = (w', Ok uri) ->
  exists request, request_approved uid sid id cur w w' uri request.
Proof. apply approve_request_Ok. Qed.

(** A request claimed is its viewer's. *)
Lemma claimed_viewer id uid (w w1 w2 : World) loaded client request :
  load_request id w = (w1, Ok (loaded, client)) -> claim_request id loaded uid w1 = (w2, Ok request) ->
  request_at id w2 = Some request /\ rq_viewer request = Some uid.
Proof.
  intros R1 R2. apply load_request_Ok in R1 as ([K1 [_ W1]] & _ & Ht & Hj & _).
  apply claim_request_Ok in R2 as (_ & [_ [_ W2]] & -> & Hv & Hkept & Hwritten). split; [|done].
  destruct Hv as [Hv|Hv].
  - destruct (Hwritten Hv) as [Hd Ht1]. unfold request_at, request_text.
    eapply (rewritten_flow_text (request_key id)); [exact Ht1|done|exact Hd].
  - destruct (Hkept Hv) as [K2 _]. unfold request_at, request_text. rewrite K2, W2, K1, W1.
    change (request_text id w ≫= from_json_text = Some (viewed_by uid (lo_request loaded))).
    rewrite Ht. cbn. by rewrite Hj, viewed_by_self.
Qed.

(** A request is decided by who looked at it first: once a user was shown a
    request, anybody else who names it is refused, whether to see, approve or
    deny it, and neither the tables nor the request change. *)
Theorem request_stays_with_viewer uid sid id other (w w' w2 : World) d :
  describe_request uid sid id w = (w', Ok d) -> other <> uid -> request_text id w2 = request_text id w' ->
  let refused_here {A} (m : M AppError A) :=
    (exists e, (m w2).2 = Err e) /\ w_db (m w2).1 = w_db w2 /\ w_redis (m w2).1 = w_redis w2 in
  (forall sid', refused_here (describe_request other sid' id)) /\
  (forall sid' cur ip rid, refused_here (approve_request other sid' id cur ip rid)) /\
  refused_here (deny_request other id).
Proof.
  intros R Hne Ht. unfold describe_request in R. unbind R l w1 R1. destruct l as [loaded client].
  unbind R request w3 R3. destruct (claimed_viewer _ _ _ _ _ _ _ _ R1 R3) as [Hat Hv].
  assert (keys_kept (fun _ => True) w3 w') as [[_ W] K].
  { eapply keeps_run, R. unfold Grants.describe, session_allowance, permission_names, password_fresh_enough,
      reauth_proven_at, quota_find, count_active_by_client, internal, clock_now. cbn [fst snd]. keys_auto. }
  assert (request_at id w2 = Some request) as Hat2.
  { unfold request_at. rewrite Ht. unfold request_text, Device.get_text, r_get. rewrite K, W by done. exact Hat. }
  cbn zeta. split_and!; intros; eapply first_two_fail; try eassumption; congruence.
Qed.
End RequestTheorems.

(** * The token endpoint *)

Section Grants.
Context `{RedisServer} `{Env} `{TimeCrate} `{CryptoCrates} `{SqlText} `{IpNetworkCrate} `{!Jwt} `{!JwtCrates}.
Context `{Passwords} `{UrlCrate} `{OAuthCrates} `{!Serde DeviceAuthState}.

(** The session a refresh token belongs to, and what it was granted. *)
Definition granted_by (raw : str) (w : World) : option (list str) :=
  by_token_hash (sha256 (as_bytes raw)) (t_sessions (w_db w)) ≫= s_scopes.

Lemma narrowed_scopes_run raw scope (w w' : World) r :
  narrowed_scopes raw (Some scope) w = (w', r) ->
  same_db w w' /\
  (forall narrowed, r = Ok narrowed -> narrowed = Some (split_ascii_whitespace scope) /\
     forall granted s, granted_by raw w = Some granted -> s ∈ split_ascii_whitespace scope -> s ∈ granted).
Proof.
  intros R. split; [eapply keeps_run, R; unfold narrowed_scopes, sql, refuse_with; tables_auto|].
  intros narrowed ->. unfold narrowed_scopes, sql, find_by_token_hash in R. unbind R session w1 R1. read_run R1.
  fold (granted_by raw w) in R. destruct (granted_by raw w) as [granted|].
  - destruct (forallb _ _) eqn:Ef; [|by apply fail_Ok in R]. apply ret_Ok in R as [-> _]. split; [done|].
    intros g s [= <-] Hs. rewrite forallb_forall in Ef. apply contains_true, Ef. by apply list_elem_of_In.
  - apply ret_Ok in R as [-> _]. by split.
Qed.

(** A refresh asks for at most what was granted: a request for a scope the
    session was not granted is refused before anything is rotated, so the
    refresh token stays good; one that succeeds carries exactly the scopes
    asked for, all of them granted, and its access token is built from them. *)
Theorem refresh_never_widens params client ip ua raw scope (w w' : World) r :
  refresh_grant params client ip ua w = (w', r) ->
  parameter params u"refresh_token" = Some raw -> parameter params u"scope" = Some scope ->
  let requested := split_ascii_whitespace scope in
  (forall granted s, granted_by raw w = Some granted -> s ∈ requested -> s ∉ granted ->
     (exists e, r = Err e) /\ w_db w' = w_db w) /\
  (forall tokens, r = Ok tokens ->
     (forall granted s, granted_by raw w = Some granted -> s ∈ requested -> s ∈ granted) /\
     s_scopes (at_session tokens) = Some requested /\
     exists w1, build_access_token (s_user_id (at_session tokens)) (s_id (at_session tokens)) (Some requested)
       (s_client_id (at_session tokens)) (s_session_type (at_session tokens)) w1 = (w', Ok (at_access_token tokens))).
Proof.
  intros R Hraw Hscope requested. unfold refresh_grant, required in R. rewrite Hraw, Hscope in R.
  rewrite (bind_step _ _ w w raw) in R by done.
  destruct (narrowed_scopes raw (Some scope) w) as [w1 r1] eqn:R1.
  destruct (narrowed_scopes_run _ _ _ _ _ R1) as [[D1 _] Hn].
  destruct r1 as [narrowed|e]; [|rewrite (bind_fail _ _ _ _ _ R1) in R; injection R as <- <-; split; [by intros; split; [eexists|]|done]].
  destruct (Hn _ eq_refl) as [-> Hin]. rewrite (bind_step _ _ _ _ _ R1) in R. split.
  - intros granted s Hg Hs Hnot. by destruct Hnot; eapply Hin.
  - intros tokens ->. unbind R tk w2 R2. unbind R access w3 R3. unfold app in R3. apply map_err_Ok in R3.
    apply ret_Ok in R as [-> ->]. split_and!; [done|done|]. by exists w2.
Qed.

(** ** A client's own token *)

Lemma check_scopes_Ok client scope (w w' : World) scopes :
  check_scopes client scope w = (w', Ok (Ok scopes)) ->
  forall granted s, scopes = Some granted -> s ∈ granted ->
    (c_scopes client <> [] -> s ∈ c_scopes client \/ Oidc.is_oidc_scope s = true) /\
    (Oidc.is_oidc_scope s = false -> s ∈ t_permissions (w_db w)).
Proof.
  unfold check_scopes. intros R granted s -> Hs. destruct (parse_scope scope) as [requested|]; [|by apply ret_Ok in R as [[=] _]].
  destruct (requested_scopes requested (c_scopes client)) as [[l|]|] eqn:Er; try by apply ret_Ok in R as [[=] _].
  unbind R unknown w1 R1. unfold internal, unknown_permissions in R1. read_run R1.
  case_bool_decide as Hu; [|by apply ret_Ok in R as [[=] _]]. apply ret_Ok in R as [[= ->] _]. split.
  - intros Hne. destruct (requested_scopes_within _ _ _ Er Hne s Hs) as [|Ho]; [by left|right]. by apply contains_true.
  - intros Ho. destruct (contains (t_permissions (w_db w)) s) eqn:Ec; [by apply contains_true|]. exfalso.
    assert (s ∈ sort_strs (List.filter (fun n => negb (contains (t_permissions (w_db w)) n))
      (List.filter (fun scope => negb (Oidc.is_oidc_scope scope)) l))) as Hin.
    { unfold sort_strs. rewrite merge_sort_Permutation, elem_of_lfilter, elem_of_lfilter, Ec, Ho. by split_and!. }
    rewrite Hu in Hin. by apply not_elem_of_nil in Hin.
Qed.

(** A client's own token is issued only to a client with a secret that may
    use the grant; it names the client and no user, belongs to no session, comes
    with no refresh token, and carries only permissions that exist, none of the
    identity scopes, and within the scopes the client is registered with when
    it has any.  Nothing is written to the tables. *)
Theorem client_token_sound client scope (w w' : World) response :
  client_credentials client scope w = (w', Ok response) ->
  same_db w w' /\ is_confidential client = true /\ c_allows_client_credentials client = true /\
  tr_refresh_token response = None /\ tr_id_token response = None /\
  exists jti scopes, tr_scopes response = Some scopes /\
    encode_token (client_claims client scopes (unix_timestamp (w_now w)) jti) = Some (tr_access_token response) /\
    forall s, s ∈ scopes -> Oidc.is_oidc_scope s = false /\ s ∈ t_permissions (w_db w) /\
      (c_scopes client <> [] -> s ∈ c_scopes client).
Proof.
  intros R. split; [eapply keeps_run, R; unfold client_credentials, check_scopes, unknown_permissions, refuse_with; tables_auto|].
  unfold client_credentials in R. destruct (is_confidential client); [|by apply fail_Ok in R].
  destruct (c_allows_client_credentials client); [|by apply fail_Ok in R]. cbn [negb orb] in R.
  destruct (match scope with Some _ => _ | None => _ end); [by apply fail_Ok in R|].
  unbind R checked w1 R1. unfold app in R1. apply map_err_Ok in R1.
  assert (same_db w w1) as [_ [N1 _]] by (eapply keeps_run, R1; unfold check_scopes, unknown_permissions; tables_auto).
  destruct checked as [scopes|]; [|by apply fail_Ok in R]. pose proof (check_scopes_Ok _ _ _ _ _ R1) as Hs.
  unbind R now w2 R2. unfold clock_now in R2. read_run R2. unbind R jti w3 R3. unbind R at_ w4 R4. read_run R4.
  apply ret_Ok in R as [-> ->]. cbn. rewrite N1 in R4. split_and!; [done..|]. eexists jti, _. split_and!; [done|exact R4|].
  intros s [Hin Ho]%elem_of_lfilter. apply negb_true_iff in Ho.
  destruct scopes as [l|]; [|by apply not_elem_of_nil in Hin]. cbn in Hin. destruct (Hs l s eq_refl Hin) as [Hc Hp].
  split_and!; [done|by apply Hp|]. intros Hne. by destruct (Hc Hne) as [|Ho']; [|rewrite Ho in Ho'].
Qed.
End Grants.

(** * Introspection and revocation *)

Section Inspection.
Context `{RedisServer} `{Env} `{TimeCrate} `{CryptoCrates} `{SqlText} `{IpNetworkCrate} `{!Jwt} `{!JwtCrates}.
Context `{Passwords} `{UrlCrate} `{OAuthCrates}.
Variable keys : list (str * DecodingKey).

(** The token stands: its session as every request checks it, or, for a
    client's own token, the client that may still use the grant. *)
Definition standing (claims : Claims) (w : World) : Prop :=
  (cl_sid claims = 0%N /\ exists issuer, issuer ∈ t_clients (w_db w) /\
     cl_client_id claims = Some (c_client_id issuer) /\ c_allows_client_credentials issuer = true) \/
  (exists w1 w2 fp, same_db w w1 /\ verify_token_state (cl_jti claims) (cl_sid claims) w1 = (w2, Ok fp)).

(** What an answer about an access token shows. *)
Record access_shown (client : RegisteredClient) (token : str) (claims : Claims) (w : World) (i : Introspection) : Prop := {
  as_signed : verified_here keys token (w_now w) = Ok claims;
  as_entitled : c_allows_introspection client = true \/ cl_client_id claims = Some (c_client_id client);
  as_standing : standing claims w;
  as_scope : exists scopes, in_scope i = nonempty (join u" " scopes) /\
    forall s, s ∈ scopes -> s ∈ cl_permissions claims /\ (c_scopes client <> [] -> s ∈ c_scopes client);
  as_subject : in_sub i = Some (cl_sub claims);
}.

(** What one about a refresh token shows. *)
Record refresh_shown (client : RegisteredClient) (token : str) (session : Session) (w : World) (i : Introspection) : Prop := {
  rs_session : by_token_hash (sha256 (as_bytes token)) (t_sessions (w_db w)) = Some session;
  rs_live : s_revoked_at session = None /\ w_now w < s_expires_at session /\ s_rotated_at session = None;
  rs_own : s_client_id session = Some (c_client_id client);
  rs_subject : in_sub i = Some (s_user_id session);
}.

Lemma token_stands_Ok claims (w w' : World) scopes :
  token_stands claims w = (w', Ok (true, scopes)) -> standing claims w.
Proof.
  unfold token_stands. intros R.
  assert (forall v : World * result (bool * option (list str)) EndpointError,
    (stands ← attempt (verify_token_state (cl_jti claims) (cl_sid claims));
     mret (match stands with Ok _ => true | Err _ => false end, None)) w = v -> v = (w', Ok (true, scopes)) -> standing claims w) as Hlive.
  { intros v <- Rv. unbind Rv st w1 R1. apply attempt_run in R1 as (st' & R1 & [= ->]). apply ret_Ok in Rv as [[= Hb _] _].
    destruct st' as [fp|]; [|done]. right. exists w, w1, fp. by split; [apply frame_refl|]. }
  destruct (cl_client_id claims) as [cid|] eqn:Ec; [|by eapply Hlive]. case_bool_decide as Hs; [|by eapply Hlive].
  unbind R found w1 R1. unfold sql, client_find_by_id in R1. read_run R1. unbind R b w2 R2. apply ret_Ok in R as [[= Hb _] _].
  symmetry in Hb. apply andb_true_iff in Hb as [_ [issuer Hi]%bool_decide_eq_true].
  destruct (List.find _ _) as [c|] eqn:Ef; [|done]. destruct (c_allows_client_credentials c) eqn:Ea; [|done].
  apply find_client_id in Ef as [Hin <-]. left. split; [done|]. by exists c.
Qed.

Lemma introspect_access_Ok client token claims (w w' : World) i :
  verified_here keys token (w_now w) = Ok claims ->
  introspect_access client claims w = (w', Ok i) -> in_active i = true -> access_shown client token claims w i.
Proof.
  unfold introspect_access. intros Hv R Ha.
  destruct (negb (c_allows_introspection client) && _) eqn:Ee; [apply ret_Ok in R as [-> _]; done|].
  unbind R st w1 R1. destruct st as [active current]. destruct active; [|apply ret_Ok in R as [-> _]; done].
  apply token_stands_Ok in R1. cbn [negb] in R. unbind R session w2 R2. apply ret_Ok in R as [-> _]. split; [done| |done| |done].
  - apply andb_false_iff in Ee as [Ee|Ee]; [left; by apply negb_false_iff|right].
    by apply negb_false_iff, bool_decide_eq_true in Ee.
  - eexists. split; [reflexivity|]. intros s [[Hin Hc]%elem_of_lfilter _]%elem_of_lfilter. split; [done|].
    intros Hne. rewrite bool_decide_false in Hc by done. by apply contains_true.
Qed.

Lemma introspect_refresh_Ok client raw (w w' : World) i :
  introspect_refresh client raw (w_now w) w = (w', Ok i) -> in_active i = true ->
  exists session, refresh_shown client raw session w i.
Proof.
  unfold introspect_refresh, sql, find_by_token_hash. intros R Ha. unbind R found w1 R1. read_run R1.
  destruct (by_token_hash _ _) as [session|] eqn:Ef; [|apply ret_Ok in R as [-> _]; done].
  destruct (_ && _ && _) eqn:Ec; [|apply ret_Ok in R as [-> _]; done]. apply ret_Ok in R as [-> _].
  rewrite !andb_true_iff in Ec. destruct Ec as [[[Hr%bool_decide_eq_true He%Z.ltb_lt]%andb_true_iff Hrot%bool_decide_eq_true] Hc%bool_decide_eq_true].
  exists session. by split.
Qed.

(** Introspection tells a token is active only to a client that proved its
    secret, and only what concerns it: of an access token this server signed,
    unexpired, whose session (or own client) stands, to a client registered to
    introspect or to the token's own client, and of its permissions no more
    than the asking client's scopes when it has any; of a refresh token, to its
    own client alone, while the session lives and the token was not rotated.
    Personal access tokens are shown to nobody. *)
Theorem introspection_reveals_own authorization params ip (w w' : World) i :
  introspect keys authorization params ip w = (w', Ok i) -> in_active i = true ->
  exists client token, authenticated authorization params client w /\ is_confidential client = true /\
    parameter params u"token" = Some token /\ Pat.random_part token = None /\
    ((exists claims w1, same_db w w1 /\ access_shown client token claims w1 i) \/
     (exists session w1, same_db w w1 /\ refresh_shown client token session w1 i)).
Proof.
  unfold introspect. intros R Ha. unbind R client w1 R1. apply authenticate_client_Ok in R1 as [S1 Hauth].
  destruct (is_confidential client) eqn:Econf; [|by apply fail_Ok in R]. cbn [negb] in R.
  unbind R tok w2 R2. read_run R2. unbind R now w3 R3. unfold clock_now in R3. read_run R3.
  exists client, tok. split_and!; [done..| |].
  - unfold classify in R. case_bool_decide as Hp; [apply ret_Ok in R as [-> _]; done|]. by apply eq_None_not_Some.
  - unfold classify in R. case_bool_decide; [apply ret_Ok in R as [-> _]; done|].
    destruct (_ =? 3)%nat.
    + left. unfold verified_claims in R. unbind R claims w4 R4. unbind R4 now w5 R5. unfold clock_now in R5. read_run R5.
      apply ret_Ok in R4 as [-> ->]. destruct (verified_here keys tok (w_now w1)) as [claims|] eqn:Ev; [|apply ret_Ok in R as [-> _]; done].
      exists claims, w1. split; [done|]. by eapply introspect_access_Ok.
    + right. apply introspect_refresh_Ok in R as [session Hs]; [|done]. by exists session, w1.
Qed.

(** ** Revocation *)

(** A revocation by the digest of a token: the rows it may change. *)
Definition only_own (client : option RegisteredClient) (token : str) (w w' : World) : Prop :=
  forall sid s, t_sessions (w_db w) !! sid = Some s ->
    t_sessions (w_db w') !! sid = Some s \/
    (exists c, client = Some c /\ s_client_id s = Some (c_client_id c) /\ s_revoked_at s = None /\
       s_token_hash s = sha256 (as_bytes token) /\ t_sessions (w_db w') !! sid = Some (revoked_row (w_wall w) s)).

Lemma only_own_same client token (w w' : World) : t_sessions (w_db w') = t_sessions (w_db w) -> only_own client token w w'.
Proof. intros E sid s Hs. left. by rewrite E. Qed.

(** Every row is under its identifier. *)
Definition rows_keyed (t : Sessions) : Prop := map_Forall (fun i s => s_id s = i) t.

Lemma token_hash_row hash (t : Sessions) s :
  by_token_hash hash t = Some s -> exists i, t !! i = Some s /\ s_token_hash s = hash.
Proof.
  intros ([i s'] & Hf & ->)%fmap_Some. apply find_some in Hf as [Hin Hh%bool_decide_eq_true].
  apply list_elem_of_In, elem_of_map_to_list in Hin. by exists i.
Qed.

Lemma revoke_refresh_own client token ip (w w' : World) r :
  rows_keyed (t_sessions (w_db w)) -> revoke_refresh client token ip w = (w', r) -> only_own (Some client) token w w'.
Proof.
  intros Hk R. unfold revoke_refresh in R. apply bind_run in R as [(found & w1 & R1 & R)|(e & R & ->)].
  2:{ apply only_own_same. assert (same_db w w') as [-> _] by (eapply keeps_run, R; unfold sql; tables_auto). done. }
  assert (same_db w w1) as [D1 [N1 W1]] by (eapply keeps_run, R1; unfold sql; tables_auto).
  unfold sql, find_by_token_hash in R1. read_run R1.
  destruct (by_token_hash _ _) as [session|] eqn:Ef; [|apply only_own_same; injection R as <- _; by rewrite D1].
  destruct (owned client session && _) eqn:Eo; [|apply only_own_same; injection R as <- _; by rewrite D1].
  apply andb_true_iff in Eo as [Ho%bool_decide_eq_true Hr%bool_decide_eq_true].
  apply token_hash_row in Ef as (sid & Hsid & Hhash).
  assert (forall w2, same_db w w2 \/ (w_db w2 = set_sessions (revoke_where (fun s => bool_decide (s_id s = s_id session)) (w_wall w)) (w_db w)) ->
    t_sessions (w_db w') = t_sessions (w_db w2) -> only_own (Some client) token w w') as Hfin.
  { intros w2 [[D2 _]|D2] E; [apply only_own_same; congruence|]. intros i s Hs. rewrite E, D2. cbn.
    unfold revoke_where. rewrite lookup_fmap, Hs. cbn. destruct (bool_decide (s_id s = s_id session)) eqn:Ei; cbn; [|by left].
    apply bool_decide_eq_true in Ei. destruct (bool_decide (s_revoked_at s = None)) eqn:Er; [|by left].
    apply bool_decide_eq_true in Er. right. exists client. split; [done|].
    assert (i = sid) as ->. { rewrite <- (Hk i s Hs), Ei. by apply Hk in Hsid. }
    rewrite Hsid in Hs. injection Hs as <-. by split_and!. }
  apply bind_run in R as [(x & w2 & R2 & R)|(e & R & ->)].
  - unfold sql, SessionRepo.revoke in R2. read_run R2. destruct R2 as [R2 C2]. injection R2 as R2 _. rewrite D1, W1 in R2.
    apply (Hfin w2); [by right|].
    assert (leaves [TSessions] w2 w') as [L _] by (eapply keeps_run, R; unfold app, sql; tables_auto).
    by apply (L TSessions); set_solver.
  - unfold sql, map_err in R. destruct (SessionRepo.revoke (s_id session) w1) as [w2 [|e']] eqn:E2; [done|]. injection R as <- _.
    pose proof (execute_run (fun d now => Ok (set_sessions (revoke_where (fun s => bool_decide (s_id s = s_id session)) now) d, tt)) w1) as Hx.
    change (execute _) with (SessionRepo.revoke (s_id session)) in Hx. rewrite E2 in Hx. cbn in Hx.
    destruct Hx as [C [Hd|[a Hd]]]; apply (Hfin w2); try done.
    + left. split; [congruence|]. destruct C. split; congruence.
    + right. injection Hd as Hd _. by rewrite <- Hd, D1, W1.
Qed.

(** An own refresh token is revoked when the revocation succeeds. *)
Lemma revoke_refresh_ends client raw ip (w w' : World) x session :
  rows_keyed (t_sessions (w_db w)) -> revoke_refresh client raw ip w = (w', Ok x) ->
  by_token_hash (sha256 (as_bytes raw)) (t_sessions (w_db w)) = Some session -> owned client session = true ->
  exists s, t_sessions (w_db w') !! s_id session = Some s /\ is_Some (s_revoked_at s).
Proof.
  intros Hk R Hf Ho. pose proof (token_hash_row _ _ _ Hf) as (sid & Hsid & _).
  pose proof (Hk _ _ Hsid) as Hi. cbn in Hi. unfold revoke_refresh in R. unbind R found w1 R1.
  assert (same_db w w1) as [D1 [N1 W1]] by (eapply keeps_run, R1; unfold sql; tables_auto).
  unfold sql, find_by_token_hash in R1. read_run R1. rewrite Hf, Ho in R. cbn [andb] in R.
  destruct (bool_decide (s_revoked_at session = None)) eqn:Er.
  - unbind R y w2 R2. unfold sql, SessionRepo.revoke in R2. read_run R2. destruct R2 as [R2 _]. injection R2 as R2 _.
    assert (leaves [TSessions] w2 w') as [L _] by (eapply keeps_run, R; unfold app, sql; tables_auto).
    specialize (L TSessions ltac:(listed)). cbn in L. rewrite L, <- R2. cbn. unfold revoke_where.
    rewrite lookup_fmap, D1, Hi, Hsid. cbn. rewrite Hi, (bool_decide_true (sid = sid)), Er by done. cbn.
    eexists. by split.
  - apply ret_Ok in R as [_ ->]. rewrite D1, Hi, Hsid. exists session. split; [done|].
    apply bool_decide_eq_false in Er. destruct (s_revoked_at session); [done|by destruct Er].
Qed.

(** A revocation reaches only what the client was given: whatever is
    answered, a session changes only if the request proved to be the client it
    was issued to and presents its refresh token; it is then revoked and nothing
    else of it changes.  Nothing tells this from an unknown token.  A revocation
    of an own refresh token that succeeds leaves its session revoked. *)
Theorem revocation_own_only authorization params ip (w w' : World) r :
  rows_keyed (t_sessions (w_db w)) -> revoke keys authorization params ip w = (w', r) ->
  (forall sid s, t_sessions (w_db w) !! sid = Some s ->
     t_sessions (w_db w') !! sid = Some s \/
     (exists client raw, authenticated authorization params client w /\ parameter params u"token" = Some raw /\
        s_client_id s = Some (c_client_id client) /\ s_revoked_at s = None /\ s_token_hash s = sha256 (as_bytes raw) /\
        t_sessions (w_db w') !! sid = Some (revoked_row (w_wall w) s))) /\
  (r = Ok tt -> forall w1 client raw session,
     authenticate_client authorization params ip w = (w1, Ok client) -> parameter params u"token" = Some raw ->
     classify raw = RefreshToken raw ->
     by_token_hash (sha256 (as_bytes raw)) (t_sessions (w_db w)) = Some session -> owned client session = true ->
     exists s, t_sessions (w_db w') !! s_id session = Some s /\ is_Some (s_revoked_at s)).
Proof.
  intros Hk R. unfold revoke in R. split.
  - assert (w_db w' = w_db w -> forall sid s, t_sessions (w_db w) !! sid = Some s ->
      t_sessions (w_db w') !! sid = Some s \/ (exists client raw, authenticated authorization params client w /\
        parameter params u"token" = Some raw /\ s_client_id s = Some (c_client_id client) /\ s_revoked_at s = None /\
        s_token_hash s = sha256 (as_bytes raw) /\ t_sessions (w_db w') !! sid = Some (revoked_row (w_wall w) s))) as Hsame
      by (intros -> sid s Hs; by left).
    apply bind_run in R as [(client & w1 & R1 & R)|(e & R & ->)].
    2:{ apply Hsame. eapply same_db_run, R. apply keeps_authenticate. }
    apply authenticate_client_Ok in R1 as [[D1 [N1 W1]] Ha].
    apply bind_run in R as [(raw & w2 & R2 & R)|(e & R & ->)].
    2:{ apply Hsame. unfold ok_or in R. destruct (parameter _ _); by injection R as <-. }
    read_run R2. unfold classify in R. case_bool_decide; [apply Hsame; by injection R as <- _|].
    destruct (_ =? 3)%nat.
    + apply Hsame. rewrite <- D1. eapply same_db_run, R. unfold verified_claims, revoke_access, app, sql. tables_auto.
    + rewrite <- D1 in Hk. apply revoke_refresh_own in R; [|done]. intros sid s Hs. rewrite <- D1 in Hs.
      destruct (R sid s Hs) as [?|(c & [= <-] & Hc & Hr & Hh & Hl)]; [by left|right].
      rewrite W1 in Hl. by exists client, raw.
  - intros -> w1 client raw session R1 Hraw Hcl Hf Ho. rewrite (bind_step _ _ _ _ _ R1), Hraw in R.
    apply authenticate_client_Ok in R1 as [[D1 _] _]. rewrite (bind_step _ _ w1 w1 raw), Hcl in R by done.
    rewrite <- D1 in Hk, Hf. by eapply revoke_refresh_ends.
Qed.
End Inspection.

(** * Witnesses *)

Section Witnesses.
Import Scenario.Run Office.Office.
#[local] Existing Instance calm.

Definition daemon_form : parameters := [(u"client_id", u"daemon"); (u"client_secret", daemon_secret)].
Definition daemon_login := authenticate_client None daemon_form None partners.

Lemma client_authentication_sound_witness : authenticated None daemon_form daemon partners.
Proof.
  refine (proj1 (proj2 (client_authentication_sound None daemon_form None partners daemon_login.1 (Ok daemon) _)) daemon eq_refl).
  apply run_answer. vm_compute. reflexivity.
Defined.

(** [app] asks, account 7 looks and approves. *)
Definition app_form : parameters :=
  [(u"client_id", u"app"); (u"response_type", u"code"); (u"state", u"s");
   (u"code_challenge", b64url (sha256 (as_bytes a_verifier))); (u"code_challenge_method", u"S256");
   (u"scope", u"openid posts:write"); (u"max_age", u"60")].
Definition start_run := start_authorization app_form partners.
Definition started_id : str := match start_run.2 with Ok (Consent id) => id | _ => [] end.
Definition describe_run := describe_request 7%N 2%N started_id start_run.1.
Definition approve_run := approve_request 7%N 2%N started_id None None None describe_run.1.
Definition approved_uri : str := match approve_run.2 with Ok uri => uri | _ => [] end.

Lemma request_approval_sound_witness :
  exists request, request_approved 7%N 2%N started_id None describe_run.1 approve_run.1 approved_uri request.
Proof.
  refine (request_approval_sound 7%N 2%N started_id None None None describe_run.1 approve_run.1 approved_uri _).
  apply run_answer. vm_compute. reflexivity.
Defined.

Lemma request_stays_with_viewer_witness :
  exists e, (deny_request 8%N started_id describe_run.1).2 = Err e.
Proof.
  assert (exists d, describe_run.2 = Ok d /\ describe_request 7%N 2%N started_id start_run.1 = (describe_run.1, Ok d))
    as (d & _ & R).
  { eexists. split; [vm_compute; reflexivity|]. apply run_answer. vm_compute. reflexivity. }
  exact (proj1 (proj2 (proj2 (request_stays_with_viewer 7%N 2%N started_id 8%N start_run.1 describe_run.1 describe_run.1 d R
           ltac:(discriminate) eq_refl)))).
Defined.

(** The session of the code flow is refreshed for less. *)
Definition granted_refresh : str := match redeemed_tokens with Some t => at_refresh_token t | None => [] end.
Definition refresh_form : parameters := [(u"refresh_token", granted_refresh); (u"scope", u"openid")].
Definition refresh_run := refresh_grant refresh_form app None None redeem_run.1.

Lemma refresh_never_widens_witness :
  exists tokens, refresh_grant refresh_form app None None redeem_run.1 = (refresh_run.1, Ok tokens) /\
    s_scopes (at_session tokens) = Some [u"openid"].
Proof.
  assert (exists tokens, refresh_run.2 = Ok tokens /\ refresh_grant refresh_form app None None redeem_run.1 = (refresh_run.1, Ok tokens))
    as (tokens & _ & R).
  { eexists. split; [vm_compute; reflexivity|]. apply run_answer. vm_compute. reflexivity. }
  exists tokens. split; [exact R|].
  exact (proj1 (proj2 (proj2 (refresh_never_widens refresh_form app None None granted_refresh u"openid" redeem_run.1
    refresh_run.1 (Ok tokens) R eq_refl eq_refl) tokens eq_refl))).
Defined.

Definition client_run := client_credentials daemon (Some u"posts:read") partners.

Lemma client_token_sound_witness :
  exists response, client_credentials daemon (Some u"posts:read") partners = (client_run.1, Ok response) /\
    tr_refresh_token response = None.
Proof.
  assert (exists response, client_run.2 = Ok response /\ client_credentials daemon (Some u"posts:read") partners = (client_run.1, Ok response))
    as (response & _ & R).
  { eexists. split; [vm_compute; reflexivity|]. apply run_answer. vm_compute. reflexivity. }
  exists response. split; [exact R|].
  exact (proj1 (proj2 (proj2 (proj2 (client_token_sound daemon (Some u"posts:read") partners client_run.1 response R))))).
Defined.

(** The daemon asks about the administrator's access token. *)
Definition ask_form : parameters := daemon_form ++ [(u"token", admin_token)].
Definition ask_run := introspect held_keys None ask_form None partners.

Lemma introspection_reveals_own_witness :
  exists i client tok, introspect held_keys None ask_form None partners = (ask_run.1, Ok i) /\ in_active i = true /\
    authenticated None ask_form client partners /\ parameter ask_form u"token" = Some tok.
Proof.
  assert (exists i, ask_run.2 = Ok i /\ introspect held_keys None ask_form None partners = (ask_run.1, Ok i) /\ in_active i = true)
    as (i & _ & R & Ha).
  { eexists. split; [vm_compute; reflexivity|]. split; [apply run_answer; vm_compute; reflexivity|reflexivity]. }
  destruct (introspection_reveals_own held_keys None ask_form None partners ask_run.1 i R Ha) as (client & tok & Hauth & _ & Ht & _).
  exists i, client, tok. split; [exact R|]. split; [exact Ha|]. split; [exact Hauth|exact Ht].
Defined.

(** [app] gives its refresh token back. *)
Definition back_form : parameters := [(u"client_id", u"app"); (u"token", granted_refresh)].
Definition back_run := revoke held_keys None back_form None redeem_run.1.

Lemma revocation_own_only_witness :
  exists s, t_sessions (w_db back_run.1) !! 1004%N = Some s /\ is_Some (s_revoked_at s).
Proof.
  assert (rows_keyed (t_sessions (w_db redeem_run.1))) as Hk by (apply (bool_decide_unpack _); vm_compute; exact I).
  assert (revoke held_keys None back_form None redeem_run.1 = (back_run.1, Ok tt)) as R
    by (apply run_answer; vm_compute; reflexivity).
  assert (exists session, by_token_hash (sha256 (as_bytes granted_refresh)) (t_sessions (w_db redeem_run.1)) = Some session /\
    s_id session = 1004%N /\ owned app session = true) as (session & Hf & Hid & Ho)
    by (eexists; split; [vm_compute; reflexivity|split; vm_compute; reflexivity]).
  pose (login := authenticate_client None back_form None redeem_run.1).
  assert (authenticate_client None back_form None redeem_run.1 = (login.1, Ok app)) as L
    by (apply run_answer; vm_compute; reflexivity).
  rewrite <- Hid.
  refine (proj2 (revocation_own_only held_keys None back_form None redeem_run.1 back_run.1 (Ok tt) Hk R) eq_refl
            login.1 app granted_refresh session L eq_refl _ Hf Ho).
  vm_compute. reflexivity.
Defined.
End Witnesses.
