(* ===== verification/History.v ===== *)
(** Pages of the security history and of the accounts: handlers/audit.rs,
    handlers/admin/audit.rs and the search of handlers/admin/users.rs, with the
    statements of repositories/audit.rs and repositories/user.rs they read. *)
From S2P Require Import Prelude Crates Codec Session Account OAuthDomain Network Edge Crypto Tables App Outside RedisCounter SessionRepo Repos Tokens UserRepo AccessRepo TokenRepo AccountsOk Scenario TokensCorrect Refresh RefreshCorrect Login LoginCorrect SecondFactor SecondFactorCorrect OneTime OneTimeCorrect SelfService Guard Factors Administration Office AccessToken Grants GrantsCorrect DeviceFlow.
Import Account.User Account.Audit.

(** [i128::MIN], [i128::MAX], and [str::parse::<i128>]. *)
Definition I128_MIN : Z := - 2 ^ 127.
Definition I128_MAX : Z := 2 ^ 127 - 1.

Definition parse_i128 (s : str) : option Z :=
  n ← parse_signed s;
  if (I128_MIN <=? n) && (n <=? I128_MAX) then Some n else None.

(** [OffsetDateTime::from_unix_timestamp_nanos] *)
Definition from_unix_timestamp_nanos `{TimeCrate} (n : Z) : option OffsetDateTime :=
  if (dt_min <=? n) && (n <=? dt_max) then Some n else None.

(** The [uuid] crate reads the text it writes, which is ASCII; the nanoseconds of
    an [OffsetDateTime] are an [i128]. *)
Class CursorText `{CryptoCrates} `{PreAuthSerde} `{TimeCrate} : Prop := {
  parse_uuid_str : forall a, parse_uuid (uuid_str a) = Some a;
  uuid_str_ascii : forall a, Forall (fun c => 0 <= c < 0x80) (uuid_str a);
  nanos_i128 : I128_MIN <= dt_min /\ dt_max <= I128_MAX;
}.

(** * Keyset pages *)

Module Page.

Definition DEFAULT_LIMIT : Z := 50.
Definition MAX_LIMIT : Z := 200.

Definition page_limit (requested : option Z) : Z := Z.max 1 (Z.min MAX_LIMIT (default DEFAULT_LIMIT requested)).

Definition rows_to_fetch (limit : Z) : Z := limit + 1.

Definition split_page {A} (rows : list A) (limit : Z) : list A * bool :=
  let limit := Z.to_nat limit in
  (take limit rows, (limit <? length rows)%nat).

(** The place of a row: when it was created, and its id. *)
Definition Key : Type := OffsetDateTime * Uuid.

Section Cursor.
Context `{CryptoCrates} `{TimeCrate} `{PreAuthSerde}.

Definition encode_cursor (k : Key) : str := b64url (as_bytes (to_string k.1 ++ [58] ++ uuid_str k.2)).

Definition invalid_cursor : AppError := Validation u"invalid cursor".

Definition decode_cursor (cursor : str) : result Key AppError :=
  match (raw ← b64url_decode cursor;
         raw ← from_utf8 raw;
         '(nanos, id) ← split_once 58 raw;
         nanos ← parse_i128 nanos;
         created_at ← from_unix_timestamp_nanos nanos;
         id ← parse_uuid id;
         Some (created_at, id)) with
  | Some k => Ok k
  | None => Err invalid_cursor
  end.

(** [params.cursor.as_deref().map(decode_cursor).transpose()?] *)
Definition before_cursor (cursor : option str) : result (option Key) AppError :=
  match cursor with
  | None => Ok None
  | Some cursor => match decode_cursor cursor with Ok k => Ok (Some k) | Err e => Err e end
  end.
End Cursor.

(** Rows by key, as the statements compare and order them. *)
Section Keyset.
Context {A : Type} (key : A -> Key).

Definition key_lt (a b : Key) : Prop := a.1 < b.1 \/ a.1 = b.1 /\ (a.2 < b.2)%N.

Definition key_ltb (a b : Key) : bool := (a.1 <? b.1) || ((a.1 =? b.1) && (a.2 <? b.2)%N).

(** [ORDER BY created_at DESC, id DESC] *)
Definition newer (a b : A) : Prop := ~ key_lt (key a) (key b).

(** [$ IS NULL OR (created_at, id) < ($, $)] *)
Definition older (before : option Key) (a : A) : bool :=
  match before with None => true | Some k => key_ltb (key a) k end.

Lemma key_ltb_spec (a b : Key) : key_ltb a b = true <-> key_lt a b.
Proof. unfold key_ltb, key_lt. rewrite orb_true_iff, andb_true_iff, Z.ltb_lt, Z.eqb_eq, N.ltb_lt. done. Qed.

#[export] Instance newer_dec : RelDecision newer.
Proof.
  intros a b. destruct (key_ltb (key a) (key b)) eqn:E.
  - right. intros H. apply H. by apply key_ltb_spec.
  - left. intros H%key_ltb_spec. by rewrite E in H.
Defined.

#[export] Instance newer_total : Total newer.
Proof. intros a b. unfold newer, key_lt. destruct (key a) as [t i], (key b) as [t' i']. cbn. lia. Qed.

#[export] Instance newer_trans : Transitive newer.
Proof.
  intros a b c. unfold newer, key_lt. destruct (key a) as [t i], (key b) as [t' i'], (key c) as [t'' i'']. cbn. lia.
Qed.

(** The rows behind a place, newest first. *)
Definition following (before : option Key) (rows : list A) : list A :=
  merge_sort newer (List.filter (older before) rows).

Section Answer.
Context `{CryptoCrates}.
(** The cursor of the next page is the place of the last row of this one. *)
Definition next_cursor (rows : list A) (more : bool) : option str :=
  if more then (fun row => encode_cursor (key row)) <$> last rows else None.
End Answer.
End Keyset.
End Page.

(** * The audit log *)

Module History.
Import Page.

Definition action_name (action : AuditAction) : str :=
  match action with
  | Login => u"login"
  | LoginFailed => u"login_failed"
  | Logout => u"logout"
  | Register => u"register"
  | EmailVerificationSent => u"email_verification_sent"
  | EmailVerified => u"email_verified"
  | PasswordChanged => u"password_changed"
  | PasswordResetRequested => u"password_reset_requested"
  | PasswordResetCompleted => u"password_reset_completed"
  | TwoFactorEnabled => u"two_factor_enabled"
  | TwoFactorDisabled => u"two_factor_disabled"
  | TwoFactorVerified => u"two_factor_verified"
  | TwoFactorFailed => u"two_factor_failed"
  | RoleAssigned => u"role_assigned"
  | RoleRevoked => u"role_revoked"
  | SessionRevoked => u"session_revoked"
  | SessionReplayDetected => u"session_replay_detected"
  | SessionFamilyRevoked => u"session_family_revoked"
  | AccountSuspended => u"account_suspended"
  | AccountReactivated => u"account_reactivated"
  | RateLimitExceeded => u"rate_limit_exceeded"
  | SuspiciousLogin => u"suspicious_login"
  | NewDeviceLogin => u"new_device_login"
  | AccountDeleted => u"account_deleted"
  | Reauthenticated => u"reauthenticated"
  | UsernameChanged => u"username_changed"
  | RecoveryCodeUsed => u"recovery_code_used"
  | EmailChanged => u"email_changed"
  | EncryptionKeyRotated => u"encryption_key_rotated"
  | AccountUnlocked => u"account_unlocked"
  | PasswordResetForced => u"password_reset_forced"
  | AccessFactorsRemoved => u"access_factors_removed"
  | ClientAuthorized => u"client_authorized"
  | DeviceApproved => u"device_approved"
  | DeviceDenied => u"device_denied"
  | AdminDataRead => u"admin_data_read"
  | RoleCreated => u"role_created"
  | RoleDeleted => u"role_deleted"
  | RolePermissionsChanged => u"role_permissions_changed"
  | ClientRegistered => u"client_registered"
  | ClientUpdated => u"client_updated"
  | ClientDeleted => u"client_deleted"
  | DataExported => u"data_exported"
  | MagicLinkSent => u"magic_link_sent"
  | PersonalAccessTokenCreated => u"personal_access_token_created"
  | PersonalAccessTokenRevoked => u"personal_access_token_revoked"
  | WebhookCreated => u"webhook_created"
  | WebhookUpdated => u"webhook_updated"
  | WebhookDeleted => u"webhook_deleted"
  | WebhookSecretRotated => u"webhook_secret_rotated"
  | ClientSecretRotated => u"client_secret_rotated"
  | PasskeyRegistered => u"passkey_registered"
  | PasskeyRemoved => u"passkey_removed"
  | ExternalIdentityLinked => u"external_identity_linked"
  | ExternalIdentityUnlinked => u"external_identity_unlinked"
  end.

Definition audit_key (a : AuditLog) : Key := (al_created_at a, al_id a).

Record AuditEntryResponse := {
  ae_id : Uuid;
  ae_created_at : Z;
  ae_action : str;
  ae_ip_address : option str;
  ae_request_id : option Uuid;
  ae_metadata : json;
}.

Record AuditPageResponse := { ap_entries : list AuditEntryResponse; ap_next_cursor : option str }.

Record ListParams := { lp_limit : option Z; lp_cursor : option str }.

Record AdminAuditParams := {
  aap_user_id : option Uuid;
  aap_action : option str;
  aap_limit : option Z;
  aap_cursor : option str;
}.

Record AdminAuditEntry := { aae_user_id : option Uuid; aae_entry : AuditEntryResponse }.

Record AdminAuditPage := { aap_entries : list AdminAuditEntry; aap_next_cursor : option str }.

Section History.
Context `{RedisServer} `{Env} `{TimeCrate} `{CryptoCrates} `{SqlText} `{Passwords} `{PreAuthSerde}.

(** Of the account, and not in a partition of the months to come. *)
Definition entry_of (user_id : Uuid) (now : Z) (a : AuditLog) : bool :=
  bool_decide (al_user_id a = Some user_id) && (al_created_at a <=? now).

Definition find_page_by_user (user_id : Uuid) (before : option Key) (limit : Z) : M SqlError (list AuditLog) :=
  query (fun d now =>
    take (Z.to_nat limit) (following audit_key before (List.filter (entry_of user_id now) (t_audit_log d)))).

(** Of one account or action when asked; [action::text] is the name of the
    action. *)
Definition sought_entry (user_id : option Uuid) (action : option str) (now : Z) (a : AuditLog) : bool :=
  (al_created_at a <=? now)
  && match user_id with None => true | Some id => bool_decide (al_user_id a = Some id) end
  && match action with None => true | Some name => str_eqb (action_name (al_action a)) name end.

Definition find_page (user_id : option Uuid) (action : option str) (before : option Key) (limit : Z) :
    M SqlError (list AuditLog) :=
  query (fun d now =>
    take (Z.to_nat limit)
      (following audit_key before (List.filter (sought_entry user_id action now) (t_audit_log d)))).

(** An entry as its owner sees it, and as an administrator does. *)
Definition owner_entry (a : AuditLog) : AuditEntryResponse :=
  let '(metadata, ip_address) := owner_view (al_metadata a) (al_ip_address a) in
  {| ae_id := al_id a; ae_created_at := unix_timestamp (al_created_at a); ae_action := action_name (al_action a);
     ae_ip_address := (fun net => IpText.ip_text (net_ip net)) <$> ip_address;
     ae_request_id := al_request_id a; ae_metadata := metadata |}.

Definition full_entry (a : AuditLog) : AdminAuditEntry :=
  {| aae_user_id := al_user_id a;
     aae_entry :=
       {| ae_id := al_id a; ae_created_at := unix_timestamp (al_created_at a);
          ae_action := action_name (al_action a);
          ae_ip_address := (fun net => IpText.ip_text (net_ip net)) <$> al_ip_address a;
          ae_request_id := al_request_id a; ae_metadata := al_metadata a |} |}.

(** GET /users/me/audit, for the account the access token names. *)
Definition list_own (user_id : Uuid) (params : ListParams) : M AppError AuditPageResponse :=
  let limit := page_limit (lp_limit params) in
  before ← lift (before_cursor (lp_cursor params));
  rows ← internal (find_page_by_user user_id before (rows_to_fetch limit));
  let '(rows, more) := split_page rows limit in
  mret {| ap_entries := map owner_entry rows; ap_next_cursor := next_cursor audit_key rows more |}.

Definition actor (admin : AuthUser) (ip : option IpNetwork) : Actor :=
  {| ad_user_id := au_user_id admin; ad_session_id := au_session_id admin; ad_ip := ip;
     ad_request_id := au_request_id admin |}.

Definition rows_json {A} (rows : list A) : json := JNum (JInt (Z.of_nat (length rows))).

(** GET /admin/audit *)
Definition list_all (admin : AuthUser) (ip : option IpNetwork) (params : AdminAuditParams) :
    M AppError AdminAuditPage :=
  _ ← require admin u"audit:read";
  let limit := page_limit (aap_limit params) in
  before ← lift (before_cursor (aap_cursor params));
  rows ← internal (find_page (aap_user_id params) (aap_action params) before (rows_to_fetch limit));
  let '(rows, more) := split_page rows limit in
  _ ← record_read (actor admin ip)
        (JObj [(u"read", JStr u"audit"); (u"user_id", Device.json_opt (uuid_str <$> aap_user_id params));
               (u"action", Device.json_opt (aap_action params)); (u"rows", rows_json rows)]);
  mret {| aap_entries := map full_entry rows; aap_next_cursor := next_cursor audit_key rows more |}.
End History.
End History.

(** * Accounts seen by an administrator *)

Module Search.
Import Page.

Definition user_key (v : User) : Key := (u_created_at v, u_id v).

Definition user_status_str (status : UserStatus) : str :=
  match status with
  | ActiveUser => u"active"
  | Inactive => u"inactive"
  | Suspended => u"suspended"
  | PendingVerification => u"pending_verification"
  end.

Definition parse_status (status : str) : result UserStatus AppError :=
  if str_eqb status u"active" then Ok ActiveUser
  else if str_eqb status u"inactive" then Ok Inactive
  else if str_eqb status u"suspended" then Ok Suspended
  else if str_eqb status u"pending_verification" then Ok PendingVerification
  else Err (Validation u"unknown status").

(** [params.status.as_deref().map(parse_status).transpose()?] *)
Definition sought_status (status : option str) : result (option UserStatus) AppError :=
  match status with
  | None => Ok None
  | Some status => match parse_status status with Ok s => Ok (Some s) | Err e => Err e end
  end.

Record SearchParams := {
  sp_query : option str;
  sp_status : option str;
  sp_limit : option Z;
  sp_cursor : option str;
}.

Record AdminUserSummary := {
  us_id : Uuid;
  us_username : str;
  us_email : str;
  us_status : str;
  us_preferred_locale : str;
  us_email_verified_at : option Z;
  us_last_login_at : option Z;
  us_locked_until : option Z;
  us_created_at : Z;
}.

Record AdminUserPage := { aup_users : list AdminUserSummary; aup_next_cursor : option str }.

Record AdminUserDetail := {
  aud_account : AdminUserSummary;
  aud_roles : list str;
  aud_two_factor_methods : nat;
  aud_active_sessions : nat;
}.

Section Search.
Context `{RedisServer} `{Env} `{TimeCrate} `{CryptoCrates} `{SqlText} `{IpNetworkCrate} `{Jwt}.
Context `{MacCrate} `{HyperLogLog} `{Passwords} `{PreAuthSerde} `{Web} `{Pwned.Sha1Crate}.
(** [str::to_lowercase], the Unicode lower-case mapping. *)
Variable to_lowercase : str -> str.

Definition sought_user (pattern : option str) (status : option UserStatus) (v : User) : bool :=
  match pattern with
  | None => true
  | Some p => like p (sql_lower (u_email v)) || like p (sql_lower (u_username v))
  end
  && match status with None => true | Some s => bool_decide (u_status v = s) end.

Definition user_search (pattern : option str) (status : option UserStatus) (before : option Key) (limit : Z) :
    M SqlError (list User) :=
  query (fun d _ =>
    take (Z.to_nat limit)
      (following user_key before (List.filter (sought_user pattern status) (map ur_user (all_users d))))).

(** A blank query is none. *)
Definition query_given (query : option str) : bool :=
  match query with None => false | Some q => negb (bool_decide (trim q = [])) end.

Definition search_pattern (query : option str) : option str :=
  if query_given query then prefix_pattern to_lowercase <$> query else None.

Definition search_accounts (query : option str) (status : option UserStatus) (before : option Key) (limit : Z) :
    M AppError (list User) :=
  internal (user_search (search_pattern query) status before limit).

Definition summary (now : OffsetDateTime) (v : User) : AdminUserSummary :=
  {| us_id := u_id v; us_username := u_username v; us_email := u_email v;
     us_status := user_status_str (u_status v); us_preferred_locale := u_preferred_locale v;
     us_email_verified_at := unix_timestamp <$> u_email_verified_at v;
     us_last_login_at := unix_timestamp <$> u_last_login_at v;
     us_locked_until :=
       match u_locked_until v with
       | Some until => if now <? until then Some (unix_timestamp until) else None
       | None => None
       end;
     us_created_at := unix_timestamp (u_created_at v) |}.

(** GET /admin/users *)
Definition search (admin : AuthUser) (ip : option IpNetwork) (params : SearchParams) : M AppError AdminUserPage :=
  _ ← require admin u"users:read";
  let limit := page_limit (sp_limit params) in
  status ← lift (sought_status (sp_status params));
  before ← lift (before_cursor (sp_cursor params));
  rows ← search_accounts (sp_query params) status before (rows_to_fetch limit);
  let '(rows, more) := split_page rows limit in
  _ ← record_read (History.actor admin ip)
        (JObj [(u"read", JStr u"accounts"); (u"filtered", JBool (query_given (sp_query params)));
               (u"rows", History.rows_json rows)]);
  now ← clock_now;
  mret {| aup_users := map (summary now) rows; aup_next_cursor := next_cursor user_key rows more |}.

(** GET /admin/users/{id} *)
Definition show_detail (admin : AuthUser) (ip : option IpNetwork) (user_id : Uuid) : M AppError AdminUserDetail :=
  _ ← require admin u"users:read";
  found ← detail user_id;
  _ ← record_read (History.actor admin ip)
        (JObj [(u"read", JStr u"account"); (u"user_id", JStr (uuid_str user_id))]);
  now ← clock_now;
  mret {| aud_account := summary now (ud_user found); aud_roles := ud_roles found;
          aud_two_factor_methods := ud_two_factor_methods found; aud_active_sessions := ud_active_sessions found |}.
End Search.
End Search.
