(* ===== verification/HistoryCorrect.v ===== *)
(** Theorems about the pages of History: a cursor reads back, following the
    cursors shows every row once and in order whatever is written meanwhile, and
    an administrator reads nothing that is not recorded. *)
From S2P Require Import Prelude Crates Codec Session Account OAuthDomain Network Edge Crypto Tables App Outside RedisCounter SessionRepo Repos Tokens UserRepo AccessRepo TokenRepo AccountsOk Scenario TokensCorrect Refresh RefreshCorrect Login LoginCorrect SecondFactor SecondFactorCorrect OneTime OneTimeCorrect SelfService Guard Factors Administration Office AccessToken Grants GrantsCorrect DeviceFlow History.
Import Account.User Account.Audit History.Page History.History History.Search.

(** * Cursors *)

Lemma as_bytes_ascii (s : str) : Forall (fun c => 0 <= c < 0x80) s -> as_bytes s = s.
Proof.
  unfold as_bytes. induction 1 as [|c s Hc _ IH]; [done|]. cbn [map concat]. rewrite IH. unfold utf8_char.
  destruct (c <? 0x80) eqn:E; [done|]. breflect. lia.
Qed.

Lemma from_utf8_ascii (s : str) : Forall (fun c => 0 <= c < 0x80) s -> from_utf8 s = Some s.
Proof.
  intros Hs. rewrite <- (as_bytes_ascii s Hs) at 1. apply from_utf8_as_bytes.
  eapply Forall_impl; [exact Hs|]. intros c Hc. unfold is_scalar. cbn in Hc.
  apply orb_true_iff. left. apply andb_true_iff. split; breflect; lia.
Qed.

Section Cursors.
Context `{CursorText}.

Definition in_range (k : Key) : Prop := dt_min <= k.1 <= dt_max.

(** A cursor of a row is read as the place of that row. *)
Lemma cursor_round_trip (k : Key) : in_range k -> decode_cursor (encode_cursor k) = Ok k.
Proof.
  intros [Hl Hu]. destruct k as [t i]. cbn in Hl, Hu. unfold decode_cursor, encode_cursor. cbn [fst snd].
  assert (Forall (fun c => 0 <= c < 0x80) (to_string t ++ [58] ++ uuid_str i)) as Ha.
  { apply Forall_app. split; [|constructor; [lia|apply uuid_str_ascii]].
    eapply Forall_impl; [apply to_string_chars|]. cbn. intros c [->|Hc]; [lia|]. unfold is_ascii_digit in Hc. breflect. lia. }
  assert (split_once 58 (to_string t ++ [58] ++ uuid_str i) = Some (to_string t, uuid_str i)) as Hs.
  { apply split_once_spec. split; [done|]. intros Hin.
    pose proof (proj1 (Forall_forall _ _) (to_string_chars t) _ Hin) as [?|?]; done. }
  generalize dependent (to_string t ++ [58] ++ uuid_str i). intros raw Ha Hs.
  rewrite as_bytes_ascii by done. rewrite b64url_read_back.
  2:{ eapply Forall_impl; [exact Ha|]. unfold is_byte. cbn. lia. }
  cbn. rewrite from_utf8_ascii by done. cbn. rewrite Hs.
  cbn. unfold parse_i128. rewrite parse_to_string. cbn. pose proof nanos_i128 as [? ?].
  rewrite (proj2 (Z.leb_le _ _)), (proj2 (Z.leb_le _ _)) by lia. cbn. unfold from_unix_timestamp_nanos.
  rewrite (proj2 (Z.leb_le _ _)), (proj2 (Z.leb_le _ _)) by lia. cbn. by rewrite parse_uuid_str.
Qed.
End Cursors.

(** * Rows in order *)

Lemma key_lt_irrefl (a : Key) : ~ key_lt a a.
Proof. unfold key_lt. lia. Qed.

Lemma key_lt_trans (a b c : Key) : key_lt a b -> key_lt b c -> key_lt a c.
Proof. unfold key_lt. lia. Qed.

Lemma key_lt_total (a b : Key) : a <> b -> ~ key_lt a b -> key_lt b a.
Proof.
  destruct a as [t i], b as [t' i']. unfold key_lt. cbn. intros Hn Hl.
  destruct (decide (t = t')) as [->|]; [|lia]. destruct (decide (i = i')) as [->|]; [done|]. lia.
Qed.

Section Rows.
Context {A : Type} (key : A -> Key).

(** No two rows at one place: the primary key, or the id of an account. *)
Definition distinct (rows : list A) : Prop := NoDup (map key rows).

(** One row strictly before another, newest first. *)
Definition ahead (a b : A) : Prop := key_lt (key b) (key a).

Lemma older_spec before a : older key before a = true <-> forall k, before = Some k -> key_lt (key a) k.
Proof.
  unfold older. destruct before as [k|]; [|by split]. rewrite key_ltb_spec. split; [by intros ? ? [= <-]|by intros H; apply H].
Qed.

Lemma following_elem before rows a : a ∈ following key before rows <-> a ∈ rows /\ older key before a = true.
Proof. unfold following. by rewrite merge_sort_Permutation, elem_of_lfilter. Qed.

Lemma distinct_filter p rows : distinct rows -> distinct (List.filter p rows).
Proof.
  unfold distinct. induction rows as [|a rows IH]; [done|]. cbn. rewrite NoDup_cons. intros [Hn Hd].
  destruct (p a); [|by apply IH]. cbn. apply NoDup_cons. split; [|by apply IH]. intros Hin. apply Hn.
  apply list_elem_of_fmap in Hin as (b & E & Hb). apply elem_of_lfilter in Hb as [Hb _].
  apply list_elem_of_fmap. by exists b.
Qed.

Lemma distinct_following before rows : distinct rows -> distinct (following key before rows).
Proof.
  intros Hd%(distinct_filter (older key before)). unfold distinct in *. unfold following.
  by rewrite merge_sort_Permutation.
Qed.

Lemma sorted_ahead rows : distinct rows -> StronglySorted (newer key) rows -> StronglySorted ahead rows.
Proof.
  induction 2 as [|a rows Hs IH Ha]; [constructor|]. apply NoDup_cons in H as [Hn Hd].
  constructor; [by apply IH|]. rewrite Forall_forall in *. intros b Hb. apply key_lt_total; [|by apply Ha].
  intros E. apply Hn, list_elem_of_fmap. by exists b.
Qed.

Lemma following_descends before rows : distinct rows -> StronglySorted ahead (following key before rows).
Proof.
  intros Hd. apply sorted_ahead; [by apply distinct_following|]. unfold following. apply (StronglySorted_merge_sort (newer key)).
Qed.

Lemma ahead_unique l1 l2 :
  StronglySorted ahead l1 -> StronglySorted ahead l2 -> (forall a, a ∈ l1 <-> a ∈ l2) -> l1 = l2.
Proof.
  assert (forall l, StronglySorted ahead l -> NoDup l) as Hn.
  { induction 1 as [|a l Hs IH Ha]; constructor; [|done]. intros Hin. rewrite Forall_forall in Ha.
    apply (key_lt_irrefl (key a)), Ha, Hin. }
  intros H1 H2 He. apply (StronglySorted_unique_strong ahead); [|done|done|apply NoDup_Permutation; auto].
  intros a b _ _ Hab Hba. destruct (key_lt_irrefl (key a)). by eapply key_lt_trans.
Qed.

(** What follows the last row shown is what was left. *)
Lemma following_next before rows l1 a l2 :
  distinct rows -> following key before rows = l1 ++ a :: l2 -> following key (Some (key a)) rows = l2.
Proof.
  intros Hd E. pose proof (following_descends before rows Hd) as Hs. rewrite E in Hs.
  apply StronglySorted_app in Hs as (Hc & _ & Hs). apply StronglySorted_inv in Hs as [Hs Ha]. rewrite Forall_forall in Ha.
  apply ahead_unique; [by apply following_descends|done|]. intros b. rewrite following_elem, older_spec.
  split.
  - intros [Hb Hk]. specialize (Hk _ eq_refl).
    assert (b ∈ l1 ++ a :: l2) as Hin.
    { rewrite <- E. apply following_elem. split; [done|]. rewrite older_spec. intros k ->.
      assert (a ∈ following key (Some k) rows) as Hia by (rewrite E; set_solver).
      apply following_elem in Hia as [_ Hia]. rewrite older_spec in Hia.
      by eapply key_lt_trans; [|apply Hia]. }
    apply elem_of_app in Hin as [Hin|Hin]; [|apply elem_of_cons in Hin as [->|Hin]]; [|by destruct (key_lt_irrefl (key a))|done].
    destruct (key_lt_irrefl (key b)). eapply key_lt_trans; [exact Hk|]. apply (Hc b a); set_solver.
  - intros Hb. split.
    + apply (following_elem before). rewrite E. set_solver.
    + intros k [= <-]. by apply Ha.
Qed.
End Rows.

(** The page and whether more follows, from one row more than it holds. *)
Lemma split_page_fetched {A} (rows : list A) (limit : Z) :
  1 <= limit ->
  split_page (take (Z.to_nat (rows_to_fetch limit)) rows) limit =
  (take (Z.to_nat limit) rows, (Z.to_nat limit <? length rows)%nat).
Proof.
  intros Hl. unfold split_page, rows_to_fetch. rewrite take_take, length_take.
  f_equal; [f_equal; lia|]. apply eq_true_iff_eq. rewrite !Nat.ltb_lt. lia.
Qed.

Lemma page_limit_pos requested : 1 <= page_limit requested <= MAX_LIMIT.
Proof. unfold page_limit, MAX_LIMIT. lia. Qed.

(** * Following the cursors *)

Section Last.
Context `{RedisServer} `{CursorText} {A : Type} (key : A -> Key) (rows : World -> list A) (n : nat).

Definition rows_ok (w : World) : Prop := distinct key (rows w) /\ Forall (fun a => in_range (key a)) (rows w).

(** The last row of a page that is not the last one. *)
Lemma page_last before w c :
  rows_ok w -> next_cursor key (take n (following key before (rows w))) (n <? length (following key before (rows w)))%nat = Some c ->
  exists l x l2, following key before (rows w) = l ++ x :: l2 /\ take n (following key before (rows w)) = l ++ [x] /\
    before_cursor (Some c) = Ok (Some (key x)).
Proof.
  intros [Hd Hr] E. set (F := following key before (rows w)) in *. unfold next_cursor in E.
  destruct (n <? length F)%nat eqn:Em; [|done]. destruct (last (take n F)) as [x|] eqn:El; [|done]. injection E as <-.
  apply last_Some in El as [l El]. exists l, x, (drop n F).
  assert (F = l ++ x :: drop n F) as EF by (rewrite <- (take_drop n F) at 1; by rewrite El, <- app_assoc).
  split_and!; [done|done|]. cbn. rewrite cursor_round_trip; [done|]. rewrite Forall_forall in Hr. apply Hr.
  assert (x ∈ F) as Hx by (rewrite EF; set_solver). by apply following_elem in Hx as [].
Qed.
End Last.

Section Reading.
Context `{RedisServer} `{CursorText} {A R : Type} (key : A -> Key).
(** A page asked for behind a cursor, its answer and the cursor it gives. *)
Variable ask : option str -> World -> R -> option str -> Prop.
(** What may happen between two requests. *)
Variable kept : World -> World -> Prop.

Inductive reading : option str -> list (World * R) -> Prop :=
| reading_last c w r : ask c w r None -> reading c [(w, r)]
| reading_more c w r c' w2 r2 l :
    ask c w r (Some c') -> kept w w2 -> reading (Some c') ((w2, r2) :: l) ->
    reading c ((w, r) :: (w2, r2) :: l).

(** The rows looked for, how an answer shows rows, and when two rows are one
    row at two times. *)
Variable rows : World -> list A.
Variable shown : R -> list A -> Prop.
Variable same : A -> A -> Prop.
Variable n : nat.
Context `{!PreOrder same}.
Hypothesis Hn : (0 < n)%nat.
Hypothesis Hkey : forall a b, same a b -> key b = key a.
Hypothesis Hkept : forall w w2 a, kept w w2 -> a ∈ rows w -> exists b, b ∈ rows w2 /\ same a b.
Hypothesis Hask : forall c w r next, ask c w r next ->
  exists before, before_cursor c = Ok before /\
    let following := following key before (rows w) in
    shown r (take n following) /\ next = next_cursor key (take n following) (n <? length following)%nat.

(** Every row that is there from the first request is shown, once, and the
    rows come newest first. *)
Lemma reading_exact c l : reading c l -> Forall (fun x => rows_ok key rows x.1) l ->
  exists before pages, before_cursor c = Ok before /\
    Forall2 (fun x page => shown x.2 page /\ forall a, a ∈ page -> a ∈ rows x.1) l pages /\
    StronglySorted (ahead key) (concat pages) /\ Forall (fun a => older key before a = true) (concat pages) /\
    forall w r rest, l = (w, r) :: rest -> forall a, a ∈ rows w -> older key before a = true ->
      exists b, b ∈ concat pages /\ same a b.
Proof.
  induction 1 as [c w r Ha|c w r c' w2 r2 l Ha Hk _ IH]; intros Hok.
  - apply Forall_cons in Hok as [[Hd _] _]. apply Hask in Ha as (before & Hc & Hs & Hnext). cbn in Hd.
    set (F := following key before (rows w)) in *.
    assert (length F <= n)%nat as Hlen.
    { unfold next_cursor in Hnext. destruct (n <? length F)%nat eqn:Em; [|by apply Nat.ltb_ge in Em].
      apply Nat.ltb_lt in Em. destruct (last (take n F)) eqn:El; [done|]. apply last_None in El.
      apply (f_equal length) in El. rewrite length_take in El. cbn in El. lia. }
    rewrite take_ge in Hs by done. exists before, [F]. cbn [concat]. rewrite app_nil_r. split_and!; [done| | | |].
    + constructor; [|constructor]. split; [done|]. by intros a [? _]%following_elem.
    + by apply following_descends.
    + apply Forall_forall. by intros a [_ ?]%following_elem.
    + intros w0 r0 rest [= <- <- _] a Hin Ho. exists a. split; [|done]. by apply following_elem.
  - apply Forall_cons in Hok as [Hok Hoks]. cbn in Hok. destruct (IH Hoks) as (b2 & pages & Hc2 & Hf2 & Hs2 & Ho2 & Hall).
    apply Hask in Ha as (before & Hc & Hs & Hnext). symmetry in Hnext.
    destruct (page_last _ _ _ _ _ _ Hok Hnext) as (l1 & x & l2 & EF & Et & Hcx). rewrite Hcx in Hc2. injection Hc2 as <-.
    destruct Hok as [Hd _]. pose proof (following_descends key before (rows w) Hd) as HF.
    assert (forall a, a ∈ l1 ++ [x] -> a ∈ following key before (rows w)) as Hsub by (rewrite EF; set_solver).
    rewrite EF in HF. apply StronglySorted_app in HF as (Hc1 & HF1 & HF2).
    apply StronglySorted_inv in HF2 as [_ Hx2]. rewrite Forall_forall in Hx2, Ho2.
    assert (forall a, a ∈ concat pages -> key_lt (key a) (key x)) as Hlt.
    { intros a Hin%Ho2. rewrite older_spec in Hin. by apply Hin. }
    exists before, ((l1 ++ [x]) :: pages). cbn [concat]. split_and!; [done| | | |].
    + constructor; [|done]. rewrite <- Et. split; [done|]. rewrite Et. by intros a [? _]%Hsub%following_elem.
    + apply StronglySorted_app_2; [|apply StronglySorted_app_2; [|done|by repeat constructor]|done].
      * intros a b Hin Hb%Hlt. apply elem_of_app in Hin as [Hin|Hin%list_elem_of_singleton]; [|by subst].
        eapply key_lt_trans; [exact Hb|]. apply (Hc1 a x); [done|set_solver].
      * intros a b Hin ->%list_elem_of_singleton. apply (Hc1 a x); [done|set_solver].
    + apply Forall_forall. intros a Hin. apply elem_of_app in Hin as [Hin|Hin]; [by apply Hsub, following_elem in Hin as []|].
      rewrite older_spec. intros k ->. eapply key_lt_trans; [by apply Hlt|].
      assert (x ∈ l1 ++ [x]) as Hx%Hsub by set_solver. apply following_elem in Hx as [_ Hx]. rewrite older_spec in Hx. by apply Hx.
    + intros w0 r0 rest [= <- <- _] a Hin Ho.
      assert (a ∈ (l1 ++ [x]) ++ l2) as Hin2 by (rewrite <- app_assoc; cbn; rewrite <- EF; by apply following_elem).
      apply elem_of_app in Hin2 as [Hp|Ha2]; [exists a; split; [set_solver|done]|].
      destruct (Hkept _ _ _ Hk Hin) as (b & Hb & Hab).
      destruct (Hall w2 r2 l eq_refl b Hb) as (b' & Hb' & Hbb').
      { rewrite older_spec. intros k [= <-]. rewrite (Hkey _ _ Hab). by apply Hx2. }
      exists b'. split; [set_solver|by transitivity b].
Qed.
End Reading.

(** * One's own history *)

Section Own.
Context `{RedisServer} `{Env} `{CursorText} `{SqlText} `{Passwords}.

Definition own_rows (user_id : Uuid) (w : World) : list AuditLog :=
  List.filter (entry_of user_id (w_wall w)) (t_audit_log (w_db w)).

Lemma list_own_run user_id params (w : World) :
  let n := Z.to_nat (page_limit (lp_limit params)) in
  forall w' page, list_own user_id params w = (w', Ok page) ->
  exists before, before_cursor (lp_cursor params) = Ok before /\
    let rows := following audit_key before (own_rows user_id w) in
    page = {| ap_entries := map owner_entry (take n rows);
              ap_next_cursor := next_cursor audit_key (take n rows) (n <? length rows)%nat |} /\
    w_db w' = w_db w.
Proof.
  intros n w' page R. unfold list_own in R. unbind R before w1 R1. read_run R1. exists before. split; [done|].
  unbind R rows w2 R2. unfold internal, find_page_by_user in R2. read_run R2. destruct R2 as [D2 _].
  fold (own_rows user_id w) in R. rewrite split_page_fetched in R by apply page_limit_pos.
  by apply ret_Ok in R as [-> ->].
Qed.

(** ** Whatever is written meanwhile *)

(** One entry at two times: the log is append-only, its addresses may be
    coarsened or forgotten. *)
Definition same_entry (a b : AuditLog) : Prop :=
  al_id b = al_id a /\ al_user_id b = al_user_id a /\ al_request_id b = al_request_id a /\
  al_created_at b = al_created_at a /\ al_action b = al_action a /\ al_metadata b = al_metadata a.

#[export] Instance same_entry_preorder : PreOrder same_entry.
Proof. split; unfold same_entry; red; intuition congruence. Qed.

(** Between two requests time passes and entries stay. *)
Definition log_kept (w w2 : World) : Prop :=
  w_wall w <= w_wall w2 /\
  forall a, a ∈ t_audit_log (w_db w) -> exists b, b ∈ t_audit_log (w_db w2) /\ same_entry a b.

(** The primary key of the table, and the years the driver can read. *)
Definition log_ok (w : World) : Prop :=
  distinct audit_key (t_audit_log (w_db w)) /\ Forall (fun a => in_range (audit_key a)) (t_audit_log (w_db w)).

Definition own_asked (user_id : Uuid) (limit : option Z) (c : option str) (w : World) (r : AuditPageResponse)
    (next : option str) : Prop :=
  exists w', list_own user_id {| lp_limit := limit; lp_cursor := c |} w = (w', Ok r) /\ ap_next_cursor r = next.

Lemma own_rows_elem user_id (w : World) a :
  a ∈ own_rows user_id w <-> a ∈ t_audit_log (w_db w) /\ al_user_id a = Some user_id /\ al_created_at a <= w_wall w.
Proof. unfold own_rows, entry_of. rewrite elem_of_lfilter, andb_true_iff, bool_decide_eq_true, Z.leb_le. done. Qed.

Lemma own_rows_ok user_id (w : World) : log_ok w -> rows_ok audit_key (own_rows user_id) w.
Proof.
  intros [Hd Hr]. split; [by apply distinct_filter|]. rewrite Forall_forall in *. intros a [Ha _]%own_rows_elem. by apply Hr.
Qed.

(** C20: reading one's own history by its cursors misses nothing and repeats
    nothing.  Whatever is written between the requests, the pages show entries
    of the account alone, each as its owner may see it, strictly newest first
    from the first page to the last, and every entry that was there when the
    reading began is among them. *)
Theorem history_read_once user_id limit l :
  reading (own_asked user_id limit) log_kept None l -> Forall (fun x => log_ok x.1) l ->
  exists pages,
    Forall2 (fun x page => ap_entries x.2 = map owner_entry page /\
      forall a, a ∈ page -> a ∈ t_audit_log (w_db x.1) /\ al_user_id a = Some user_id) l pages /\
    StronglySorted (ahead audit_key) (concat pages) /\
    forall w r rest a, l = (w, r) :: rest -> a ∈ t_audit_log (w_db w) -> al_user_id a = Some user_id ->
      al_created_at a <= w_wall w -> exists b, b ∈ concat pages /\ same_entry a b.
Proof.
  intros Hr Hok.
  destruct (reading_exact audit_key (own_asked user_id limit) log_kept (own_rows user_id)
    (fun r page => ap_entries r = map owner_entry page) same_entry (Z.to_nat (page_limit limit))) with (c := None : option str) (l := l)
    as (before & pages & [= <-] & Hf & Hs & _ & Hall).
  - pose proof (page_limit_pos limit). lia.
  - intros a b (? & _ & _ & ? & _). unfold audit_key. congruence.
  - intros w w2 a [Ht Hk] (Hin & Hu & Ha)%own_rows_elem. destruct (Hk a Hin) as (b & Hb & Hab). exists b. split; [|done].
    destruct Hab as (_ & Eu & _ & Ec & _). apply own_rows_elem. rewrite Eu, Ec. split_and!; [done|done|lia].
  - intros c w r next (w' & R & <-). apply list_own_run in R as (before & Hc & -> & _). by exists before.
  - done.
  - eapply Forall_impl; [exact Hok|]. intros [w r] Hw. by apply own_rows_ok.
  - exists pages. split_and!; [|done|].
    + eapply Forall2_impl; [exact Hf|]. intros [w r] page [Hsh Hin]. split; [done|]. by intros a (? & ? & _)%Hin%own_rows_elem.
    + intros w r rest a El Ha Hu Ht. apply (Hall w r rest El); [by apply own_rows_elem|done].
Qed.

(** ** To the end *)

(** A reader that follows the cursors. *)
Fixpoint read_all (user_id : Uuid) (limit : option Z) (fuel : nat) (cursor : option str) :
    M AppError (list AuditPageResponse) :=
  match fuel with
  | O => mret []
  | S fuel =>
      page ← list_own user_id {| lp_limit := limit; lp_cursor := cursor |};
      match ap_next_cursor page with
      | None => mret [page]
      | Some c => rest ← read_all user_id limit fuel (Some c); mret (page :: rest)
      end
  end.

Lemma read_all_S user_id limit fuel cursor :
  read_all user_id limit (S fuel) cursor =
  page ← list_own user_id {| lp_limit := limit; lp_cursor := cursor |};
  match ap_next_cursor page with
  | None => mret [page]
  | Some c => rest ← read_all user_id limit fuel (Some c); mret (page :: rest)
  end.
Proof. reflexivity. Qed.

Lemma list_own_answered user_id limit c before (w : World) :
  all_answered -> before_cursor c = Ok before ->
  let n := Z.to_nat (page_limit limit) in
  let rows := following audit_key before (own_rows user_id w) in
  list_own user_id {| lp_limit := limit; lp_cursor := c |} w =
  (bump_io w, Ok {| ap_entries := map owner_entry (take n rows);
                    ap_next_cursor := next_cursor audit_key (take n rows) (n <? length rows)%nat |}).
Proof.
  intros Ha Hc n rows. unfold list_own. cbn [lp_limit lp_cursor]. unfold mbind, M_bind, lift at 1. rewrite Hc.
  unfold internal, map_err, find_page_by_user. rewrite query_answered by done. fold (own_rows user_id w).
  rewrite split_page_fetched by apply page_limit_pos. done.
Qed.

Lemma read_all_reaches user_id limit fuel : all_answered ->
  forall c before (w : World), log_ok w -> before_cursor c = Ok before ->
  let n := Z.to_nat (page_limit limit) in
  let rows := following audit_key before (own_rows user_id w) in
  (length rows <= n * S fuel)%nat ->
  exists w' pages, read_all user_id limit (S fuel) c w = (w', Ok pages) /\
    concat (map ap_entries pages) = map owner_entry rows /\ ap_next_cursor <$> last pages = Some None.
Proof.
  intros Hans. induction fuel as [|fuel IH]; intros c before w Hok Hc n rows Hlen; rewrite read_all_S;
    unfold mbind at 1, M_bind at 1; rewrite (list_own_answered _ _ _ _ _ Hans Hc); fold n rows; cbn [ap_next_cursor].
  - unfold next_cursor. assert ((n <? length rows)%nat = false) as -> by (apply Nat.ltb_ge; lia).
    eexists _, _. split; [done|]. cbn. split; [|done]. by rewrite app_nil_r, take_ge by lia.
  - destruct (next_cursor _ _ _) as [c'|] eqn:En.
    + destruct (page_last audit_key (own_rows user_id) n before w c' (own_rows_ok _ _ Hok) En) as (l & x & l2 & EF & Et & Hcx).
      fold rows in EF, Et.
      assert (following audit_key (Some (audit_key x)) (own_rows user_id w) = l2) as E2.
      { eapply following_next, EF. by apply distinct_filter, Hok. }
      assert (l2 = drop n rows) as El2.
      { rewrite <- (take_drop n rows), Et in EF. rewrite <- app_assoc in EF. by simplify_list_eq. }
      destruct (IH (Some c') (Some (audit_key x)) (bump_io w)) as (w' & pages & R & Hcat & Hl); [done|done| |].
      { change (own_rows user_id (bump_io w)) with (own_rows user_id w). rewrite E2, El2, length_drop. fold n. lia. }
      change (own_rows user_id (bump_io w)) with (own_rows user_id w) in Hcat. rewrite E2, El2 in Hcat.
      exists w', ({| ap_entries := map owner_entry (take n rows); ap_next_cursor := Some c' |} :: pages).
      unfold mbind, M_bind. rewrite R. split; [done|]. cbn [map concat ap_entries]. rewrite Hcat, <- map_app, take_drop.
      split; [done|]. destruct pages; [done|exact Hl].
    + eexists _, _. split; [done|]. cbn. split; [|done]. rewrite app_nil_r, take_ge; [done|].
      destruct (decide (length rows <= n)%nat) as [|Hgt]; [done|]. exfalso. unfold next_cursor in En.
      rewrite (proj2 (Nat.ltb_lt _ _)) in En by lia. destruct (last (take n rows)) eqn:El; [done|].
      apply last_None, (f_equal length) in El. rewrite length_take in El. cbn in El.
      pose proof (page_limit_pos limit). lia.
Qed.

(** A reader that follows the cursors comes to the end: when statements are
    answered, one request per page and one more at most show the whole history
    of the account, newest first, and nothing else. *)
Theorem history_read_whole user_id limit (w : World) :
  all_answered -> log_ok w ->
  let n := Z.to_nat (page_limit limit) in
  let history := following audit_key None (own_rows user_id w) in
  history ≡ₚ own_rows user_id w /\
  exists w' pages, read_all user_id limit (S (length history / n)) None w = (w', Ok pages) /\
    concat (map ap_entries pages) = map owner_entry history /\ ap_next_cursor <$> last pages = Some None.
Proof.
  intros Hans Hok n history. split.
  - unfold history, following. rewrite merge_sort_Permutation. cbn [older].
    induction (own_rows user_id w) as [|a l IH]; [done|]. cbn. by constructor.
  - apply read_all_reaches; [done|done|done|]. fold n history. pose proof (page_limit_pos limit).
    pose proof (Nat.div_mod (length history) n). pose proof (Nat.mod_upper_bound (length history) n). lia.
Qed.
End Own.

(** * What administrators read *)

(** A request of an administrator that reads, and what it is answered. *)
Inductive ReadRequest :=
| ReadAudit (params : AdminAuditParams)
| ReadAccounts (params : SearchParams)
| ReadAccount (user_id : Uuid).

Inductive Shown :=
| AuditShown (page : AdminAuditPage)
| AccountsShown (page : AdminUserPage)
| AccountShown (account : AdminUserDetail).

Section Administrators.
Context `{RedisServer} `{Env} `{CursorText} `{SqlText} `{IpNetworkCrate} `{!Jwt}.
Context `{MacCrate} `{HyperLogLog} `{Passwords} `{Web} `{Pwned.Sha1Crate}.
Variable to_lowercase : str -> str.

Definition read_as (admin : AuthUser) (ip : option IpNetwork) (q : ReadRequest) : M AppError Shown :=
  match q with
  | ReadAudit params => page ← list_all admin ip params; mret (AuditShown page)
  | ReadAccounts params => page ← search to_lowercase admin ip params; mret (AccountsShown page)
  | ReadAccount user_id => account ← show_detail admin ip user_id; mret (AccountShown account)
  end.

Definition permission_for (q : ReadRequest) : str :=
  match q with ReadAudit _ => u"audit:read" | _ => u"users:read" end.

(** The entry left in the administrator's own history. *)
Definition read_trace (q : ReadRequest) (x : Shown) : json :=
  match q, x with
  | ReadAudit params, AuditShown page =>
      JObj [(u"read", JStr u"audit"); (u"user_id", Device.json_opt (uuid_str <$> aap_user_id params));
            (u"action", Device.json_opt (aap_action params)); (u"rows", rows_json (aap_entries page))]
  | ReadAccounts params, AccountsShown page =>
      JObj [(u"read", JStr u"accounts"); (u"filtered", JBool (query_given (sp_query params)));
            (u"rows", rows_json (aup_users page))]
  | ReadAccount user_id, _ => JObj [(u"read", JStr u"account"); (u"user_id", JStr (uuid_str user_id))]
  | _, _ => JNull
  end.

Definition read_entry (admin : AuthUser) (ip : option IpNetwork) (extra : json) : NewAuditEntry :=
  {| na_user_id := Some (au_user_id admin); na_request_id := au_request_id admin; na_action := AdminDataRead;
     na_ip_address := ip; na_metadata := actor_metadata (actor admin ip) extra |}.

(** An account answers a search: its address or user name starts with what is
    looked for, whatever the case, and it is in the status asked for. *)
Definition answers (params : SearchParams) (v : User) : Prop :=
  (query_given (sp_query params) = true -> exists q, sp_query params = Some q /\
     (starts_with (to_lowercase (trim q)) (sql_lower (u_email v)) = true \/
      starts_with (to_lowercase (trim q)) (sql_lower (u_username v)) = true)) /\
  (forall s, sp_status params = Some s -> user_status_str (u_status v) = s).

(** What is shown is what the tables hold. *)
Definition faithful (w : World) (q : ReadRequest) (x : Shown) : Prop :=
  match q, x with
  | ReadAudit params, AuditShown page =>
      exists rows, aap_entries page = map full_entry rows /\ (length rows <= Z.to_nat MAX_LIMIT)%nat /\
        forall a, a ∈ rows -> a ∈ t_audit_log (w_db w) /\ al_created_at a <= w_wall w /\
          (forall i, aap_user_id params = Some i -> al_user_id a = Some i) /\
          (forall name, aap_action params = Some name -> action_name (al_action a) = name)
  | ReadAccounts params, AccountsShown page =>
      exists rows, aup_users page = map (summary (w_now w)) rows /\ (length rows <= Z.to_nat MAX_LIMIT)%nat /\
        forall v, v ∈ rows -> v ∈ map ur_user (all_users (w_db w)) /\ answers params v
  | ReadAccount user_id, AccountShown account =>
      exists r, t_users (w_db w) !! user_id = Some r /\ aud_account account = summary (w_now w) (ur_user r)
  | _, _ => False
  end.

Lemma require_Ok admin permission (w w' : World) x :
  require admin permission w = (w', Ok x) ->
  permission ∈ au_permissions admin /\ permits (au_user_id admin) (str_eqb permission) (w_db w) = true /\ same_db w w'.
Proof.
  unfold require, internal, user_has_permission. intros R. destruct (contains _ _) eqn:Ec; [|by apply fail_Ok in R].
  cbn [negb] in R. unbind R held w1 R1. read_run R1. destruct (permits _ _ _) eqn:Ep; [|by apply fail_Ok in R].
  apply ret_Ok in R as [_ ->]. apply contains_true in Ec. done.
Qed.

Lemma record_read_Ok admin ip extra (w w' : World) x :
  record_read (actor admin ip) extra w = (w', Ok x) ->
  w_db w' = set_audit_log (logged (w_wall w) (read_entry admin ip extra)) (w_db w) /\ same_clocks w w'.
Proof.
  unfold record_read, internal, audit_append. intros R. read_run R. destruct R as [R C]. by injection R as <- _.
Qed.

Lemma page_rows {A} (key : A -> Key) before (rows : list A) limit a :
  a ∈ take (Z.to_nat (page_limit limit)) (following key before rows) -> a ∈ rows.
Proof.
  intros Ha. apply (following_elem key before). rewrite <- (take_drop (Z.to_nat (page_limit limit)) (following _ _ _)).
  set_solver.
Qed.

Lemma page_length {A} (key : A -> Key) before (rows : list A) limit :
  (length (take (Z.to_nat (page_limit limit)) (following key before rows)) <= Z.to_nat MAX_LIMIT)%nat.
Proof. rewrite length_take. pose proof (page_limit_pos limit). lia. Qed.

Lemma list_all_Ok admin ip params (w w' : World) page :
  list_all admin ip params w = (w', Ok page) ->
  u"audit:read" ∈ au_permissions admin /\ permits (au_user_id admin) (str_eqb u"audit:read") (w_db w) = true /\
  w_db w' = set_audit_log (logged (w_wall w) (read_entry admin ip (read_trace (ReadAudit params) (AuditShown page)))) (w_db w) /\
  faithful w (ReadAudit params) (AuditShown page).
Proof.
  unfold list_all. intros R. unbind R x1 w1 R1. apply require_Ok in R1 as (Hp & Hh & [D1 [_ T1]]).
  unbind R before w2 R2. read_run R2. unbind R fetched w3 R3. unfold internal, find_page in R3. read_run R3.
  destruct R3 as [D3 [_ T3]]. rewrite split_page_fetched in R by apply page_limit_pos.
  set (rows := take _ (following _ _ _)) in R. unbind R x4 w4 R4. apply record_read_Ok in R4 as [D4 _].
  apply ret_Ok in R as [-> ->]. rewrite D4, D3, D1, T3, T1. unfold read_trace, rows_json. cbn [aap_entries]. rewrite length_map.
  split_and!; [done|done|done|]. exists rows. cbn [aap_entries]. split_and!; [done|apply page_length|].
  intros a Ha. apply page_rows, elem_of_lfilter in Ha as [Ha Hs]. rewrite D1 in Ha. rewrite T1 in Hs.
  unfold sought_entry in Hs. apply andb_true_iff in Hs as [[Ht Hu]%andb_true_iff Hn]. apply Z.leb_le in Ht.
  split_and!; [done|done|intros i E; rewrite E in Hu; by apply bool_decide_eq_true in Hu|].
  intros name E. rewrite E in Hn. by apply str_eqb_eq in Hn.
Qed.

Lemma status_named status s : parse_status status = Ok s -> user_status_str s = status.
Proof.
  unfold parse_status.
  repeat (match goal with |- context [str_eqb status ?t] => destruct (str_eqb status t) eqn:E end;
          [apply str_eqb_eq in E as ->; by intros [= <-]|clear E]).
  done.
Qed.

Lemma sought_answers params status v :
  sought_status (sp_status params) = Ok status ->
  sought_user (search_pattern to_lowercase (sp_query params)) status v = true -> answers params v.
Proof.
  unfold sought_user, search_pattern, answers. intros Hst [Hq Hs]%andb_true_iff. split.
  - intros Hg. rewrite Hg in Hq. destruct (sp_query params) as [q|]; [|done]. cbn in Hq. exists q. split; [done|].
    rewrite !prefix_pattern_exact in Hq. by apply orb_true_iff in Hq.
  - intros s E. rewrite E in Hst. cbn in Hst. destruct (parse_status s) as [t|] eqn:Ep; [|done]. injection Hst as <-.
    apply bool_decide_eq_true in Hs as ->. by apply status_named.
Qed.

Lemma search_Ok admin ip params (w w' : World) page :
  search to_lowercase admin ip params w = (w', Ok page) ->
  u"users:read" ∈ au_permissions admin /\ permits (au_user_id admin) (str_eqb u"users:read") (w_db w) = true /\
  w_db w' = set_audit_log (logged (w_wall w) (read_entry admin ip (read_trace (ReadAccounts params) (AccountsShown page)))) (w_db w) /\
  faithful w (ReadAccounts params) (AccountsShown page).
Proof.
  unfold search, search_accounts. intros R. unbind R x1 w1 R1. apply require_Ok in R1 as (Hp & Hh & [D1 [N1 T1]]).
  unbind R status w2 R2. read_run R2. rename R2 into Hst. unbind R before w3 R3. read_run R3.
  unbind R fetched w4 R4. unfold internal, user_search in R4. read_run R4. destruct R4 as [D4 [N4 T4]].
  rewrite split_page_fetched in R by apply page_limit_pos. set (rows := take _ (following _ _ _)) in R.
  unbind R x5 w5 R5. apply record_read_Ok in R5 as [D5 [N5 _]]. unbind R now w6 R6. unfold clock_now in R6. read_run R6.
  apply ret_Ok in R as [-> ->]. rewrite D5, D4, D1, T4, T1. unfold read_trace, rows_json. cbn [aup_users]. rewrite length_map.
  split_and!; [done|done|done|]. exists rows. cbn [aup_users]. rewrite N5, N4, N1. split_and!; [done|apply page_length|].
  intros v Hv. apply page_rows, elem_of_lfilter in Hv as [Hv Hs]. rewrite D1 in Hv. split; [done|].
  by eapply sought_answers.
Qed.

Lemma show_detail_Ok admin ip user_id (w w' : World) account :
  show_detail admin ip user_id w = (w', Ok account) ->
  u"users:read" ∈ au_permissions admin /\ permits (au_user_id admin) (str_eqb u"users:read") (w_db w) = true /\
  w_db w' = set_audit_log (logged (w_wall w) (read_entry admin ip (read_trace (ReadAccount user_id) (AccountShown account)))) (w_db w) /\
  faithful w (ReadAccount user_id) (AccountShown account).
Proof.
  unfold show_detail. intros R. unbind R x1 w1 R1. apply require_Ok in R1 as (Hp & Hh & [D1 [N1 T1]]).
  unbind R found w2 R2. assert (same_db w1 w2) as [D2 [N2 T2]] by (eapply keeps_run, R2; unfold detail; tables_auto).
  unfold detail, account_find in R2. unbind R2 user w5 R5. unbind R5 row w6 R6. unfold internal, user_find_by_id in R6.
  read_run R6. read_run R5. unbind R2 roles w7 R7. unbind R2 methods w8 R8. unbind R2 sessions w9 R9. apply ret_Ok in R2 as [-> _].
  unbind R x3 w3 R3. apply record_read_Ok in R3 as [D3 [N3 _]]. unbind R now w4 R4. unfold clock_now in R4. read_run R4.
  apply ret_Ok in R as [-> ->]. rewrite D3, D2, D1, T2, T1. split_and!; [done|done|done|].
  rewrite D1 in R5. destruct (t_users (w_db w) !! user_id) as [r|] eqn:Er; [|done]. injection R5 as <-.
  exists r. split; [done|]. cbn. by rewrite N3, N2, N1.
Qed.

(** C21: what an administrator reads is recorded, or not shown.  A page of the
    audit log, a page of accounts or an account is shown only to one whose token
    and whose roles at that moment give the permission; the only change is an
    entry in the administrator's own history saying what was read and how many
    rows; and what is shown is rows of the tables that answer the request, at
    most the limit of a page. *)
Theorem admin_reads_recorded admin ip q (w w' : World) x :
  read_as admin ip q w = (w', Ok x) ->
  permission_for q ∈ au_permissions admin /\
  permits (au_user_id admin) (str_eqb (permission_for q)) (w_db w) = true /\
  w_db w' = set_audit_log (logged (w_wall w) (read_entry admin ip (read_trace q x))) (w_db w) /\
  faithful w q x.
Proof.
  destruct q; cbn [read_as]; intros R; unbind R r w1 R1; apply ret_Ok in R as [-> ->];
    [by apply list_all_Ok|by apply search_Ok|by apply show_detail_Ok].
Qed.
End Administrators.

(** * Witnesses *)

#[export] Instance toy_cursor_text : CursorText.
Proof.
  constructor.
  - intros a. cbn. unfold to_string. change (pretty (Z.of_N a)) with (pretty (Z.of_N a)).
    assert (lit (pretty (Z.of_N a)) = lit (pretty a)) as -> by (by destruct a). rewrite digits_value_pretty. cbn. by rewrite N2Z.id.
  - intros a. cbn. eapply Forall_impl; [apply to_string_chars|]. cbn. intros c [->|Hc]; [lia|].
    unfold is_ascii_digit in Hc. breflect. lia.
  - cbn. unfold I128_MIN, I128_MAX, NS. lia.
Qed.

Section Witnesses.
Import Scenario.Run Office.Office.
#[local] Existing Instance calm.

Definition written (id user_id : Uuid) (at_ : Z) (action : AuditAction) : AuditLog :=
  audit_row id at_ {| na_user_id := Some user_id; na_request_id := None; na_action := action; na_ip_address := None;
                      na_metadata := JObj [] |}.

(** Two entries of one transaction, an older one, one of somebody else. *)
Definition log : list AuditLog :=
  [written 1 2 (5 * NS) Register; written 2 3 (7 * NS) Login; written 3 2 (9 * NS) Login; written 4 2 (9 * NS) NewDeviceLogin].

Definition read_at : World := with_db (set_audit_log (fun _ => log)) office.

(** Before the second page an entry is written. *)
Definition read_later : World := with_db (set_audit_log (fun _ => log ++ [written 5 2 (19 * NS) Logout])) office.

Definition shown_by (cursor : option str) (w : World) : AuditPageResponse :=
  match (list_own 2%N {| lp_limit := Some 2; lp_cursor := cursor |} w).2 with
  | Ok page => page
  | Err _ => {| ap_entries := []; ap_next_cursor := None |}
  end.

Definition next_of (page : AuditPageResponse) : str := default [] (ap_next_cursor page).

Definition first_page : AuditPageResponse := shown_by None read_at.
Definition second_page : AuditPageResponse := shown_by (Some (next_of first_page)) read_later.

Lemma pages_shown :
  map ae_id (ap_entries first_page) = [4%N; 3%N] /\ map ae_id (ap_entries second_page) = [1%N] /\
  own_asked 2%N (Some 2) None read_at first_page (Some (next_of first_page)) /\
  own_asked 2%N (Some 2) (Some (next_of first_page)) read_later second_page None.
Proof.
  split_and!; [vm_compute; reflexivity..| |];
    (eexists; split; [refine (run_answer _ _ _ _)|]; vm_compute; reflexivity).
Qed.

Lemma logs_ok : log_ok read_at /\ log_ok read_later.
Proof.
  split; (split; [apply (bool_decide_unpack _); vm_compute; exact I|]);
    repeat constructor; vm_compute; discriminate.
Qed.

Lemma log_kept_here : log_kept read_at read_later.
Proof.
  split; [done|]. intros a Ha. exists a. split; [|done].
  change (a ∈ log ++ [written 5 2 (19 * NS) Logout]). apply elem_of_app. by left.
Qed.

Lemma history_read_once_witness :
  exists pages,
    Forall2 (fun x page => ap_entries x.2 = map owner_entry page /\
      forall a, a ∈ page -> a ∈ t_audit_log (w_db x.1) /\ al_user_id a = Some 2%N)
      [(read_at, first_page); (read_later, second_page)] pages /\
    StronglySorted (ahead audit_key) (concat pages) /\
    exists b, b ∈ concat pages /\ same_entry (written 1 2 (5 * NS) Register) b.
Proof.
  destruct pages_shown as (_ & _ & A1 & A2), logs_ok as [L1 L2].
  destruct (history_read_once 2%N (Some 2) [(read_at, first_page); (read_later, second_page)]) as (pages & Hf & Hs & Hall).
  - eapply reading_more; [exact A1|exact log_kept_here|]. apply reading_last. exact A2.
  - constructor; [exact L1|constructor; [exact L2|constructor]].
  - exists pages. split; [exact Hf|]. split; [exact Hs|].
    apply (Hall read_at first_page _ (written 1 2 (5 * NS) Register) eq_refl); [left|reflexivity|discriminate].
Defined.

Lemma history_read_whole_witness :
  exists w' pages, read_all 2%N (Some 2) 2 None read_at = (w', Ok pages) /\ map ae_id (concat (map ap_entries pages)) = [4; 3; 1]%N.
Proof.
  assert all_answered as Hans by (intros n; reflexivity).
  destruct (history_read_whole 2%N (Some 2) read_at Hans (proj1 logs_ok)) as (_ & w' & pages & R & Hc & _).
  exists w', pages. split; [exact R|]. rewrite Hc. vm_compute. reflexivity.
Defined.

(** The administrator, whose role also reads the log, looks for sign-ins. *)
Definition audited_office : World :=
  with_db (set_role_permissions (cons (4%N, u"audit:read"))) read_at.

Definition auditor : AuthUser :=
  {| au_user_id := 7%N; au_session_id := 2%N; au_jti := 1%N; au_token_exp := 920; au_roles := [u"administrator"];
     au_permissions := [u"audit:read"]; au_request_id := None; au_first_party := true |}.

Definition sign_ins : ReadRequest :=
  ReadAudit {| aap_user_id := None; aap_action := Some u"login"; aap_limit := None; aap_cursor := None |}.

Definition after_reading : World := (read_as to_ascii_lowercase auditor None sign_ins audited_office).1.

Lemma audit_run_Ok : exists page,
  read_as to_ascii_lowercase auditor None sign_ins audited_office = (after_reading, Ok (AuditShown page)) /\
  map (fun x => ae_id (aae_entry x)) (aap_entries page) = [3%N; 2%N].
Proof.
  eexists. split; [refine (run_answer (read_as to_ascii_lowercase auditor None sign_ins) audited_office _ _); vm_compute; reflexivity|].
  vm_compute. reflexivity.
Qed.

Lemma admin_reads_recorded_witness :
  exists page, map (fun x => ae_id (aae_entry x)) (aap_entries page) = [3%N; 2%N] /\
    permits (au_user_id auditor) (str_eqb (permission_for sign_ins)) (w_db audited_office) = true /\
    w_db after_reading =
      set_audit_log (logged (w_wall audited_office) (read_entry auditor None (read_trace sign_ins (AuditShown page))))
        (w_db audited_office).
Proof.
  destruct audit_run_Ok as (page & R & Hp). exists page.
  destruct (admin_reads_recorded to_ascii_lowercase auditor None sign_ins audited_office after_reading (AuditShown page) R)
    as (_ & Hh & Hd & _).
  split; [exact Hp|]. split; [exact Hh|exact Hd].
Defined.
End Witnesses.
