(* ===== verification/EmailChange.v ===== *)
(** Changing the address of an account (src/src/services/email_change.rs): a code
    to the current address, then one to the new address, on a flow kept in
    Redis under the digest of its token. *)
From S2P Require Import Prelude Crates Codec Session Account OAuthDomain Network Edge Crypto Tables App Outside RedisCounter SessionRepo Repos Tokens UserRepo AccessRepo TokenRepo AccountsOk Scenario TokensCorrect Refresh RefreshCorrect Login LoginCorrect SecondFactor SecondFactorCorrect OneTime OneTimeCorrect SelfService Guard Factors Administration Office AccessToken Grants GrantsCorrect DeviceFlow DeviceCorrect.
Import Account.User Account.Audit Account.EmailChangeFlow.

Record FlowState := {
  fl_user_id : Uuid;
  fl_step : FlowStep;
  fl_otp_hash : option str;
  fl_new_email : option str;
}.

#[export] Instance codec_step : Codec FlowStep.
Proof.
  refine (codec_iso (fun s => match s with CurrentVerify => 0 | NewSubmit => 1 | NewVerify => 2 end)
    (fun z => if z =? 0 then Some CurrentVerify else if z =? 1 then Some NewSubmit
              else if z =? 2 then Some NewVerify else None) _).
  by intros [].
Defined.

#[export] Instance codec_flow : Codec FlowState.
Proof.
  refine (codec_iso (fun f => (fl_user_id f, fl_step f, fl_otp_hash f, fl_new_email f))
    (fun '(uid, s, otp, email) =>
       Some {| fl_user_id := uid; fl_step := s; fl_otp_hash := otp; fl_new_email := email |}) _).
  by intros [].
Defined.

#[export] Instance toy_flow_serde : Serde FlowState := serde_of_codec.

(** [email::mask_email] *)
Definition mask_email (email : str) : str :=
  match split_once 64 email with
  | Some (local, domain) => take 1 local ++ u"***@" ++ domain
  | None => u"***"
  end.

Module AddressChange.

Definition FLOW_TTL_SECS : Z := 60 * 15.
Definition MAX_OTP_FAILURES : Z := 5.
Definition MAX_OTP_FAILURES_PER_ACCOUNT : Z := MAX_OTP_FAILURES * 3.
Definition OTP_ACCOUNT_WINDOW_SECS : Z := 3600.
Definition START_COOLDOWN_SECS : Z := 60.
Definition CHANGE_COOLDOWN_SECS : Z := 300.
Definition MAX_SUBMISSIONS_PER_WINDOW : Z := 3.
Definition SUBMISSION_WINDOW_SECS : Z := 3600.
Definition OTP_PURPOSE : str := u"email_change".

Section Flow.
Context `{RedisServer} `{Env} `{TimeCrate} `{CryptoCrates} `{SqlText} `{IpNetworkCrate} `{!Jwt}.
Context `{MacCrate} `{Passwords} `{PreAuthSerde} `{!Serde FlowState}.

Definition flow_key_of (id : str) : str := u"email_change_flow:" ++ id.
Definition flow_key (flow_token : str) : str := flow_key_of (token_id flow_token).
Definition fail_key_of (id : str) : str := u"email_change_fail:" ++ id.
Definition fail_key (flow_token : str) : str := fail_key_of (token_id flow_token).
Definition cooldown_key (user_id : Uuid) : str := u"email_change_cd:" ++ uuid_str user_id.
Definition start_key (user_id : Uuid) : str := u"email_change_start_cd:" ++ uuid_str user_id.
Definition account_fail_key (user_id : Uuid) : str := u"email_change_fail_user:" ++ uuid_str user_id.

Definition encode_digest (digest : bytes) : str := b64url digest.

Definition hash_otp (user_id : Uuid) (code : str) : str :=
  encode_digest (otp_digest keyring OTP_PURPOSE (uuid_as_bytes user_id) code).

(** The whole lifetime again at each step. *)
Definition save_flow (flow_token : str) (flow : FlowState) : M AppError unit :=
  _ ← Device.redis_internal redis_conn;
  Device.redis_internal (redis_cmd (fun s t =>
    (r_set_ex s t (flow_key flow_token) (RStr (to_json_text flow)) FLOW_TTL_SECS, tt))).

Definition load_flow (flow_token : str) (user_id : Uuid) : M AppError FlowState :=
  _ ← Device.redis_internal redis_conn;
  raw ← attempt (redis_cmd (fun s t => (s, Device.get_text (flow_key flow_token) s t)));
  raw ← ok_or (match raw with Ok raw => raw | Err _ => None end) Unauthorized;
  flow ← ok_or (from_json_text raw) Internal;
  if bool_decide (fl_user_id flow = user_id) then mret flow else fail Unauthorized.

Definition otp_matches (user_id : Uuid) (submitted expected : str) : bool :=
  existsb (fun digest => constant_time_eq (as_bytes (encode_digest digest)) (as_bytes expected))
    (otp_digests keyring OTP_PURPOSE (uuid_as_bytes user_id) submitted).

Definition otp_budgets (user_id : Uuid) (fail_key : str) : list Budget :=
  [{| bg_key := fail_key; bg_limit := MAX_OTP_FAILURES; bg_window_secs := FLOW_TTL_SECS |};
   {| bg_key := account_fail_key user_id; bg_limit := MAX_OTP_FAILURES_PER_ACCOUNT;
      bg_window_secs := OTP_ACCOUNT_WINDOW_SECS |}].

Definition verify_otp (user_id : Uuid) (submitted_code : str) (expected_hash : option str) (fail_key : str) :
    M AppError unit :=
  expected ← ok_or expected_hash Unauthorized;
  attempted ← consume (otp_budgets user_id fail_key);
  if exceeded attempted then fail RateLimitExceededError
  else if negb (otp_matches user_id submitted_code expected) then
    _ ← apply_backoff (first_count attempted);
    fail TwoFactorFailedError
  else reset [fail_key; account_fail_key user_id].

(** Best effort: the flow in progress, if the marker still names one. *)
Definition cancel_active (user_id : Uuid) : M AppError unit :=
  conn ← attempt redis_conn;
  match conn with
  | Err _ => mret tt
  | Ok _ =>
      old ← attempt (redis_cmd (fun s t => (s, Device.get_text (email_change_active_key user_id) s t)));
      match old with
      | Ok (Some old_id) =>
          _ ← attempt (redis_cmd (fun s t => (r_del s t (flow_key_of old_id), tt)));
          _ ← attempt (redis_cmd (fun s t => (r_del s t (fail_key_of old_id), tt)));
          mret tt
      | _ => mret tt
      end
  end.

Definition note_sent (user_id : Uuid) (reason : str) (ip : option IpNetwork) (request_id : option Uuid) : M AppError unit :=
  internal (audit_append {| na_user_id := Some user_id; na_request_id := request_id;
    na_action := EmailVerificationSent; na_ip_address := ip; na_metadata := JObj [(u"reason", JStr reason)] |}).

Definition start (user_id current_session_id : Uuid) (current_password : option str) (ip : option IpNetwork)
    (request_id : option Uuid) : M AppError str :=
  _ ← require_recent_reauth_or_password user_id current_session_id current_password ip request_id
        u"email_change_start";
  claimed ← claim_cooldown_strict (start_key user_id) START_COOLDOWN_SECS;
  if negb claimed then fail RateLimitExceededError
  else
    _ ← Device.redis_internal redis_conn;
    active ← attempt (redis_cmd (fun s t => (s, r_exists s t (cooldown_key user_id))));
    if match active with Ok b => b | Err _ => false end then fail RateLimitExceededError
    else
      _ ← cancel_active user_id;
      found ← internal (user_find_by_id user_id);
      user ← ok_or found NotFound;
      if bool_decide (u_email_verified_at user = None) then fail EmailNotVerified
      else
        flow_token ← generate_token;
        otp ← generate_code;
        _ ← save_flow flow_token {| fl_user_id := user_id; fl_step := CurrentVerify;
              fl_otp_hash := Some (hash_otp user_id otp); fl_new_email := None |};
        _ ← best_effort (fun s t =>
              r_set_ex s t (email_change_active_key user_id) (RStr (token_id flow_token)) FLOW_TTL_SECS);
        _ ← note_sent user_id u"email_change_start" ip request_id;
        _ ← tell (add_mail {| m_kind := EmailChangeOtpMail otp; m_to := u_email user |});
        mret flow_token.

Definition verify_current (user_id : Uuid) (flow_token submitted_code : str) : M AppError unit :=
  flow ← load_flow flow_token user_id;
  match after (fl_step flow) CurrentConfirmed with
  | Some (To next) =>
      _ ← verify_otp user_id submitted_code (fl_otp_hash flow) (fail_key flow_token);
      save_flow flow_token {| fl_user_id := fl_user_id flow; fl_step := next; fl_otp_hash := None;
        fl_new_email := fl_new_email flow |}
  | _ => fail Unauthorized
  end.

Definition submission_budgets (user_id : Uuid) (new_email : str) : list Budget :=
  [{| bg_key := u"ec_submit_account:" ++ uuid_str user_id; bg_limit := MAX_SUBMISSIONS_PER_WINDOW;
      bg_window_secs := SUBMISSION_WINDOW_SECS |};
   {| bg_key := u"ec_submit_target:" ++ hex_text (sha256 (as_bytes (to_ascii_lowercase new_email)));
      bg_limit := MAX_SUBMISSIONS_PER_WINDOW; bg_window_secs := SUBMISSION_WINDOW_SECS |}].

Definition submit_new (user_id : Uuid) (flow_token new_email : str) (ip : option IpNetwork)
    (request_id : option Uuid) : M AppError unit :=
  flow ← load_flow flow_token user_id;
  match after (fl_step flow) NewAddressSubmitted with
  | Some (To next) =>
      attempted ← consume (submission_budgets user_id new_email);
      if exceeded attempted then fail RateLimitExceededError
      else
        taken ← internal (email_taken new_email user_id);
        otp ← generate_code;
        _ ← save_flow flow_token {| fl_user_id := fl_user_id flow; fl_step := next;
              fl_otp_hash := Some (hash_otp user_id otp); fl_new_email := Some new_email |};
        found ← internal (user_find_by_id user_id);
        _ ← ok_or found NotFound;
        _ ← note_sent user_id u"email_change_new" ip request_id;
        if taken : bool then mret tt
        else tell (add_mail {| m_kind := EmailChangeNewOtpMail otp; m_to := new_email |})
  | _ => fail Unauthorized
  end.

(** What a confirmed change commits. *)
Definition commit_change (user_id current_session_id : Uuid) (new_email : str) (ip : option IpNetwork)
    (request_id : option Uuid) : M AppError unit :=
  taken ← internal (email_taken new_email user_id);
  if taken : bool then fail (Conflict u"email_taken")
  else
    _ ← internal (revoke_active_verification_by_user user_id);
    _ ← internal (revoke_mailbox_links user_id);
    _ ← map_err (fun e => from_unique_violation e [(USERS_EMAIL_KEY, u"email_taken")]) (change_email user_id new_email);
    _ ← internal (revoke_others user_id current_session_id);
    _ ← internal (audit_append {| na_user_id := Some user_id; na_request_id := request_id;
          na_action := EmailChanged; na_ip_address := ip; na_metadata := JObj [] |});
    _ ← enqueue u"user.sessions_revoked" (user_payload user_id);
    enqueue u"user.email_changed" (user_payload user_id).

(** Best effort: the keys of the flow go, the cooldown starts. *)
Definition close_flow (user_id : Uuid) (flow_token : str) : M AppError unit :=
  conn ← attempt redis_conn;
  match conn with
  | Err _ => mret tt
  | Ok _ =>
      _ ← attempt (redis_cmd (fun s t =>
            (foldl (fun s k => r_del s t k) s
               [flow_key flow_token; fail_key flow_token; email_change_active_key user_id], tt)));
      _ ← attempt (redis_cmd (fun s t => (r_set_ex s t (cooldown_key user_id) (RInt 1) CHANGE_COOLDOWN_SECS, tt)));
      mret tt
  end.

Definition confirm_new (user_id current_session_id : Uuid) (flow_token submitted_code : str)
    (ip : option IpNetwork) (request_id : option Uuid) : M AppError unit :=
  flow ← load_flow flow_token user_id;
  match after (fl_step flow) NewConfirmed with
  | Some Done =>
      new_email ← ok_or (fl_new_email flow) Unauthorized;
      _ ← verify_otp user_id submitted_code (fl_otp_hash flow) (fail_key flow_token);
      found ← internal (user_find_by_id user_id);
      previous ← ok_or found NotFound;
      sessions ← internal (find_active_by_user user_id);
      _ ← transaction Internal (commit_change user_id current_session_id new_email ip request_id);
      _ ← invalidate_session_caches (map s_id (ending true current_session_id sessions));
      _ ← purge_user_pre_auth_and_email_change user_id;
      _ ← tell (add_mail {| m_kind := EmailChangedMail (mask_email new_email); m_to := u_email previous |});
      close_flow user_id flow_token
  | _ => fail Unauthorized
  end.
End Flow.
End AddressChange.
