(* ===== verification/EmailChangeCorrect.v ===== *)
(** Theorems about the change of an address: what a confirmation commits, that
    both mailboxes were proved before it, and how long a flow lives. *)
From S2P Require Import Prelude Crates Codec Session Account OAuthDomain Network Edge Crypto Tables App Outside RedisCounter SessionRepo Repos Tokens UserRepo AccessRepo TokenRepo AccountsOk Scenario TokensCorrect Refresh RefreshCorrect Login LoginCorrect SecondFactor SecondFactorCorrect OneTime OneTimeCorrect SelfService Guard Factors Administration Office AccessToken Grants GrantsCorrect DeviceFlow DeviceCorrect EmailChange.
Import Account.User Account.Audit Account.Token Account.EmailChangeFlow EmailChange.AddressChange.

(** * Sessions but one *)

Section Revoked.
Context `{RedisServer} `{Env}.

(** Only the session named, if any, is left. *)
Definition no_live_but (keep : option Uuid) (uid : Uuid) (d : Db) : Prop :=
  forall i s, t_sessions d !! i = Some s -> s_user_id s = uid -> is_Some (s_revoked_at s) \/ keep = Some (s_id s).

#[export] Instance no_live_but_depends keep uid : Depends (no_live_but keep uid) [TSessions].
Proof. intros d d' Ha. unfold no_live_but. by rewrite (Ha TSessions) by (by apply list_elem_of_singleton). Qed.

Lemma revoke_but_establishes (keep : bool) uid sid (w w' : World) (n : Z) :
  (if keep then internal (revoke_others uid sid) else internal (revoke_all_by_user uid)) w = (w', Ok n) ->
  no_live_but (if keep then Some sid else None) uid (w_db w').
Proof.
  destruct keep; intros R; [|intros i s Hs Hu; left; by eapply revoke_all_establishes].
  unfold internal, revoke_others, revoke_returning in R. apply map_err_Ok in R. unbind R rows w1 R1. read_run R.
  read_run R1. destruct R1 as [E _]. injection E as <- _. intros i s. cbn. unfold revoke_where.
  rewrite lookup_fmap_Some. intros (s0 & <- & Hs) Hu. case_cond; [left; by eexists|].
  destruct (s_revoked_at s0) eqn:Er; [left; by eexists|right]. rewrite andb_true_r in E.
  rewrite bool_decide_true in E by done. cbn in E. apply negb_false_iff, bool_decide_eq_true in E. by rewrite E.
Qed.
End Revoked.

(** * What a confirmation commits *)

Section Commit.
Context `{RedisServer} `{Env} `{TimeCrate} `{CryptoCrates} `{SqlText} `{IpNetworkCrate} `{!Jwt}.
Context `{MacCrate} `{Passwords} `{PreAuthSerde} `{!Serde FlowState}.

#[local] Hint Extern 1 (keeps (spares_others _) (execute _)) => first [apply others_update_unit | apply others_update_bool]; by intros : frame.

Lemma change_email_establishes uid email (w w' : World) x :
  users_keyed (w_db w) -> change_email uid email w = (w', Ok x) ->
  row_is uid (fun r => u_email (ur_user r) = email /\ u_email_verified_at (ur_user r) = Some (w_wall w)) (w_db w').
Proof.
  intros Hk R. apply execute_Ok in R as [E _]. apply ignore_count_Ok in E as [b E].
  apply update_user_lookup in E as (Hd & _ & Hi); [|done..]. split; [done|].
  by intros r (r0 & _ & [[_ ->]|[[=] _]])%Hi.
Qed.

(** The tables after a change committed by the session [sid]. *)
Record address_moved (now : Z) (uid sid : Uuid) (email : str) ip rid (d d' : Db) : Prop := {
  am_free : another uid (fun o => citext_eqb (u_email o) email) d = false;
  am_email : row_is uid (fun r => u_email (ur_user r) = email /\ u_email_verified_at (ur_user r) = Some now) d';
  am_others : forall i, i <> uid -> t_users d' !! i = t_users d !! i;
  am_sessions : no_live_but (Some sid) uid d';
  am_links : no_links uid d' /\ no_verifications uid d';
  am_audit : t_audit_log d' = logged now {| na_user_id := Some uid; na_request_id := rid;
    na_action := EmailChanged; na_ip_address := ip; na_metadata := JObj [] |} (t_audit_log d);
  am_events : subjects d' = subjects d ++ [u"events.auth.user.sessions_revoked"; u"events.auth.user.email_changed"];
}.

Lemma commit_change_Ok uid sid email ip rid (w w' : World) x :
  users_keyed (w_db w) -> commit_change uid sid email ip rid w = (w', Ok x) ->
  address_moved (w_wall w) uid sid email ip rid (w_db w) (w_db w').
Proof.
  intros Hk R. assert (spares_others uid w w') as Ho by (eapply keeps_run, R; tables_auto).
  unfold commit_change in R. unbind R taken w1 R1. unfold internal, email_taken in R1. read_run R1.
  destruct (another _ _ _) eqn:Efree; [by apply fail_Ok in R|]. destruct R1 as [D1 [_ W1]].
  unbind R x2 w2 R2.
  assert (no_verifications uid (w_db w')) as Hv.
  { apply revoke_verifications_establishes in R2. refine (pres_run _ _ _ _ _ _ R2 R). tables_auto. }
  assert (no_links uid (w_db w')) as Hl
    by (revert R; apply bind_establishes; [intros ? ?; apply revoke_links_establishes|intros ?; tables_auto]).
  unbind R x3 w3 R3.
  assert (leaves [TUsers; TAuditLog; TOutbox] w1 w3) as [L3 [_ W3]]
    by (eapply keeps_run in R2, R3; [eapply frame_trans; eassumption|..]; tables_auto).
  assert (users_keyed (w_db w3)) as Hk3 by (unfold users_keyed; by rewrite (L3 TUsers), D1 by listed).
  unbind R x4 w4 R4. assert (leaves [TAuditLog; TOutbox] w3 w4) as [L4 [_ W4]] by (eapply keeps_run, R4; tables_auto).
  apply map_err_Ok, (change_email_establishes _ _ _ _ _ Hk3) in R4. rewrite W3, W1 in R4.
  assert (no_live_but (Some sid) uid (w_db w')) as Hs
    by (revert R; apply bind_establishes; [intros ? ?; apply (revoke_but_establishes true)|intros ?; tables_auto]).
  split; [done| |by apply Ho|done|done|..].
  { refine (pres_run _ _ _ _ _ _ R4 R). tables_auto. }
  all: unbind R x5 w5 R5; assert (leaves [TAuditLog; TOutbox] w4 w5) as [L5 [_ W5]] by (eapply keeps_run, R5; tables_auto);
    unbind R x6 w6 R6; unbind R x7 w7 R7; apply map_err_Ok in R6; unfold audit_append in R6; read_run R6;
    destruct R6 as [E6 _]; injection E6 as E6 _.
  - eapply (keeps_run (leaves [TAuditLog])) in R7, R; [|tables_auto..]. destruct R7 as [L7 _], R as [L' _].
    rewrite (L' TAuditLog), (L7 TAuditLog), <- E6 by listed. cbn.
    by rewrite (L5 TAuditLog), (L4 TAuditLog), (L3 TAuditLog), D1, W5, W4, W3, W1 by listed.
  - apply record_event_Ok in R7, R. rewrite R, R7, <- E6. unfold subjects. cbn.
    by rewrite (L5 TOutbox), (L4 TOutbox), (L3 TOutbox), D1, <- app_assoc by listed.
Qed.
End Commit.

(** * A confirmation *)

Section Confirmation.
Context `{RedisServer} `{Env} `{TimeCrate} `{CryptoCrates} `{SqlText} `{IpNetworkCrate} `{!Jwt}.
Context `{MacCrate} `{Passwords} `{PreAuthSerde} `{!Serde FlowState}.

(** The flow a token leads to. *)
Definition flow_at (flow_token : str) (w : World) : option FlowState :=
  Device.get_text (flow_key flow_token) (w_redis w) (w_wall w) ≫= from_json_text.

(** What a counter of Redis stands at. *)
Definition count_at (k : str) (w : World) : Z := int_of (live (w_wall w) (dump (w_redis w) k)).

(** The code is the one the flow expects, and was asked within its budgets. *)
Definition code_accepted (uid : Uuid) (flow_token code : str) (expected : option str) (w : World) : Prop :=
  (exists h, expected = Some h /\ otp_matches uid code h = true) /\
  count_at (fail_key flow_token) w < MAX_OTP_FAILURES /\ count_at (account_fail_key uid) w < MAX_OTP_FAILURES_PER_ACCOUNT.

Lemma load_flow_Ok flow_token uid (w w' : World) flow :
  load_flow flow_token uid w = (w', Ok flow) ->
  redis_kept w w' /\ same_db w w' /\ flow_at flow_token w = Some flow /\ fl_user_id flow = uid.
Proof.
  unfold load_flow, Device.redis_internal. intros R. unbind R x w1 R1. apply map_err_Ok, redis_conn_Ok in R1 as ->.
  unbind R raw w2 R2. apply attempt_run in R2 as (r & R2 & [= ->]).
  unbind R raw w3 R3. read_run R3. unbind R fl w4 R4. read_run R4. case_bool_decide as Hu; [|by apply fail_Ok in R].
  read_run R. destruct r as [o|]; [|done]. subst o. apply redis_cmd_Ok in R2 as [E2 [D2 C2]].
  injection E2 as E2 E3. split_and!; [split; [by rewrite <- E2|done]|done| |done].
  unfold flow_at. by rewrite (E3 : Device.get_text (flow_key flow_token) (w_redis w) (w_wall w) = _).
Qed.

Lemma consume_Ok bs (w w' : World) attempted :
  bs <> [] -> consume bs w = (w', Ok attempted) ->
  exceeded attempted = (consume_all (w_redis w) (w_wall w) bs).2.1 /\ same_db w w'.
Proof.
  intros Hb. unfold consume, run. destruct bs as [|b bs]; [done|]. rewrite bool_decide_false by done. intros R.
  unbind R x w1 R1. apply map_err_Ok, redis_conn_Ok in R1 as ->. unbind R reply w2 R2.
  apply map_err_Ok, redis_cmd_Ok in R2 as [E2 S2]. read_run R. split; [|done]. exact (f_equal (fun p => p.2.1) (eq_sym E2)).
Qed.

Lemma otp_keys_differ uid flow_token : fail_key flow_token <> account_fail_key uid.
Proof. intros E. apply (f_equal (fun s => s !! 17%nat)) in E. discriminate E. Qed.

Lemma verify_otp_Ok uid flow_token code expected (w w' : World) x :
  verify_otp uid code expected (fail_key flow_token) w = (w', Ok x) ->
  same_db w w' /\ code_accepted uid flow_token code expected w.
Proof.
  intros R. split; [eapply keeps_run, R; tables_auto|]. unfold verify_otp in R.
  unbind R h w1 R1. read_run R1. unbind R attempted w2 R2. apply consume_Ok in R2 as [Hex S2]; [|done].
  destruct (exceeded attempted); [by apply fail_Ok in R|].
  destruct (otp_matches uid code h) eqn:Em; cbn [negb] in R; [|unbind R y w3 R3; by apply fail_Ok in R].
  assert (NoDup (map bg_key (otp_budgets uid (fail_key flow_token)))) as Hnd.
  { apply NoDup_cons. split; [|apply NoDup_singleton]. intros Hin%list_elem_of_singleton. by apply otp_keys_differ in Hin. }
  split; [by exists h|]. unfold count_at. split;
    [pose proof (consume_all_hit (w_redis w) (w_wall w) _ {| bg_key := fail_key flow_token; bg_limit := MAX_OTP_FAILURES;
       bg_window_secs := FLOW_TTL_SECS |} Hnd ltac:(by listed)) as HH
    |pose proof (consume_all_hit (w_redis w) (w_wall w) _ {| bg_key := account_fail_key uid; bg_limit := MAX_OTP_FAILURES_PER_ACCOUNT;
       bg_window_secs := OTP_ACCOUNT_WINDOW_SECS |} Hnd ltac:(by listed)) as HH];
    destruct HH as [_ HH]; specialize (HH (eq_sym Hex)); cbn [bg_key bg_limit] in HH; lia.
Qed.

(** What a request to confirm the new address comes to, whatever fails. *)
Definition confirm_outcome (uid sid : Uuid) (flow_token code : str) ip rid (w : World)
    (run : World * result unit AppError) : Prop :=
  (w_db run.1 = w_db w /\ exists e, run.2 = Err e) \/
  exists flow email, flow_at flow_token w = Some flow /\ fl_user_id flow = uid /\ fl_step flow = NewVerify /\
    fl_new_email flow = Some email /\ code_accepted uid flow_token code (fl_otp_hash flow) w /\
    address_moved (w_wall w) uid sid email ip rid (w_db w) (w_db run.1).

Lemma confirm_run uid sid flow_token code ip rid (w : World) :
  users_keyed (w_db w) -> confirm_outcome uid sid flow_token code ip rid w (confirm_new uid sid flow_token code ip rid w).
Proof.
  intros Hk. unfold confirm_new. set (Q := confirm_outcome uid sid flow_token code ip rid w).
  assert (forall w1 e, same_db w w1 -> Q (w1, Err e)) as He by (intros w1 e [Hd _]; left; cbn; eauto).
  apply (quiet_then Q); [tables_auto|done|]. intros flow w1 R1 S1.
  apply load_flow_Ok in R1 as ([K1 [_ W1]] & _ & Hat & Hu).
  destruct (after (fl_step flow) NewConfirmed) as [[next|]|] eqn:Es; [by apply He| |by apply He].
  assert (fl_step flow = NewVerify) as Hstep by (by destruct (fl_step flow)).
  apply (quiet_then Q); [tables_auto|by intros w2 e S2; apply He; eapply frame_trans|]. intros email w2 R2 S2.
  read_run R2.
  apply (quiet_then Q); [tables_auto|by intros w3 e S3; apply He; do 2 (eapply frame_trans; [done|])|]. intros [] w3 R3 S3.
  apply verify_otp_Ok in R3 as [_ Hc].
  assert (code_accepted uid flow_token code (fl_otp_hash flow) w) as Hc0
    by (unfold code_accepted, count_at in *; by rewrite K1, W1 in Hc). clear Hc.
  assert (same_db w w3) as S03 by (eapply frame_trans; [exact S1|exact S3]). clear S3 S1 S2 K1 W1.
  apply (quiet_then Q); [tables_auto|by intros w4 e S4; apply He; eapply frame_trans|]. intros found w4 _ S4.
  apply (quiet_then Q); [tables_auto|by intros w5 e S5; apply He; do 2 (eapply frame_trans; [done|])|]. intros previous w5 R5 _.
  read_run R5.
  apply (quiet_then Q); [tables_auto|by intros w6 e S6; apply He; do 2 (eapply frame_trans; [done|])|]. intros ss w6 _ S6.
  assert (same_db w w6) as [D6 [N6 W6]] by (do 2 (eapply frame_trans; [done|]); done). unfold mbind at 1, M_bind at 1.
  destruct (transaction Internal (commit_change uid sid email ip rid) w6) as [w7 r7] eqn:E7.
  apply transaction_run in E7 as [[[e ->] D7]|(w8 & x & R8 & D8 & _ & Hr)]; [left; cbn; rewrite D7; eauto|].
  assert (forall w', same_db w7 w' -> address_moved (w_wall w) uid sid email ip rid (w_db w) (w_db w')) as Hmoved.
  { intros w' [-> _]. rewrite D8, <- D6, <- W6. by apply (commit_change_Ok _ _ _ _ _ (bump_io w6) _ x); [cbn; rewrite D6|]. }
  right. exists flow, email. split_and!; [done..|]. apply Hmoved. destruct r7 as [y|e]; [|done].
  match goal with |- same_db w7 (?m w7).1 => cut (keeps same_db m) end; [by intros K; apply K|]. tables_auto.
Qed.

(** C23: A change of address happens as a whole or not at all.  Either the request
    is refused and no table changed; or the flow was the account's own, waiting
    for the code of its new address, and the code is the one it expects, asked
    within the budgets of the flow and of the account; then in one commit the
    account has that address, free until then, verified at that moment, only the
    session that asked is left, the links mailed earlier are dead, no other
    account changed, and the audit entry and both events are written. *)
Theorem address_change_sound uid sid flow_token code ip rid (w : World) :
  users_keyed (w_db w) -> confirm_outcome uid sid flow_token code ip rid w (confirm_new uid sid flow_token code ip rid w).
Proof. apply confirm_run. Qed.
End Confirmation.

(** * What becomes of a flow's entry *)

Section Fading.
Context `{RedisServer} `{Env} `{TimeCrate} `{CryptoCrates} `{SqlText} `{IpNetworkCrate} `{!Jwt}.
Context `{MacCrate} `{Passwords} `{PreAuthSerde} `{!Serde FlowState}.

(** It is left alone, or removed. *)
Definition fades (id : str) (w w' : World) : Prop :=
  w_wall w' = w_wall w /\
  (dump (w_redis w') (flow_key_of id) = dump (w_redis w) (flow_key_of id) \/ dump (w_redis w') (flow_key_of id) = None).

#[export] Instance fades_frame id : CoreFrame (fades id).
Proof. constructor; unfold fades; try (intros; split; [done|by left]). intuition congruence. Qed.

#[export] Instance fades_sleep id : SleepFrame (fades id).
Proof. intros n w. split; [done|by left]. Qed.

#[export] Instance fades_rollback id : Rollback (fades id).
Proof. by intros w w'. Qed.

Lemma fades_execute id {A} (f : Db -> Z -> result (Db * A) SqlError) : keeps (fades id) (execute f).
Proof. apply keeps_io. intros w. destruct (f _ _) as [[]|]; (split; [done|by left]). Qed.

Lemma fades_cmd id {A} (f : rstore -> Z -> rstore * A) :
  (forall s t, dump (f s t).1 (flow_key_of id) = dump s (flow_key_of id) \/ dump (f s t).1 (flow_key_of id) = None) ->
  keeps (fades id) (redis_cmd f).
Proof.
  intros Hf. apply keeps_io. intros w. specialize (Hf (w_redis w) (w_wall w)). by destruct (f _ _).
Qed.

Lemma del_all_fades k t ks (s : rstore) :
  dump (foldl (fun s k => r_del s t k) s ks) k = dump s k \/ dump (foldl (fun s k => r_del s t k) s ks) k = None.
Proof.
  revert s. induction ks as [|k' ks IH]; intros s; cbn; [by left|]. destruct (IH (r_del s t k')) as [->| ->]; [|by right].
  rewrite dump_del. destruct (decide (k = k')) as [->|Hne]; [right; apply upd_eq|left; by apply upd_ne].
Qed.

Lemma fades_del id t ks (s : rstore) :
  dump (foldl (fun s k => r_del s t k) s ks) (flow_key_of id) = dump s (flow_key_of id) \/
  dump (foldl (fun s k => r_del s t k) s ks) (flow_key_of id) = None.
Proof. apply del_all_fades. Qed.

Lemma fades_set id t k v ttl (s : rstore) :
  flow_key_of id <> k -> dump (r_set_ex s t k v ttl) (flow_key_of id) = dump s (flow_key_of id).
Proof. intros Hne. rewrite dump_set_ex. by apply upd_ne. Qed.

Lemma fades_consume id bs : flow_key_of id ∉ map bg_key bs -> keeps (fades id) (consume bs).
Proof.
  intros Hn. unfold consume, run. frame_auto. apply fades_cmd. intros s t. left. by apply consume_all_other.
Qed.

Lemma fades_reset id {E} ks : keeps (fades id) (reset ks : M E unit).
Proof. unfold reset. frame_auto. apply fades_cmd. intros s t. apply fades_del. Qed.

Lemma fades_invalidate id l : keeps (fades id) (invalidate_session_caches l).
Proof.
  unfold invalidate_session_caches, best_effort. frame_auto. apply fades_cmd. intros s t. left. cbn.
  revert s. induction l as [|x l IH]; intros s; [done|]. cbn [foldl]. rewrite IH. apply fades_set.
  intros E. apply (f_equal (fun s => s !! 0%nat)) in E. discriminate E.
Qed.

Lemma fades_purge_challenges id ids : keeps (fades id) (purge_challenges ids).
Proof.
  induction ids as [|x ids IH]; cbn; [frame_auto|]. apply keeps_bind; [unfold ignoring; frame_auto|by intros].
  apply fades_cmd. intros s t. apply fades_del.
Qed.

Lemma fades_purge id uid : keeps (fades id) (purge_user_pre_auth_and_email_change uid).
Proof.
  unfold purge_user_pre_auth_and_email_change, ignoring.
  repeat first [frame_step | apply fades_purge_challenges | apply fades_cmd | solve [auto with frame]];
    intros s t; first [by left | apply fades_del | apply (fades_del id t [_])].
Qed.

Lemma fades_close id uid flow_token : keeps (fades id) (close_flow uid flow_token).
Proof.
  unfold close_flow. frame_auto; apply fades_cmd; intros s t; [apply fades_del|left; apply fades_set].
  intros E. apply (f_equal (fun s => s !! 13%nat)) in E. discriminate E.
Qed.

Lemma otp_budget_other id uid flow_token : flow_key_of id ∉ map bg_key (otp_budgets uid (fail_key flow_token)).
Proof.
  cbn [map otp_budgets bg_key]. rewrite !not_elem_of_cons. split_and!; [..|by apply not_elem_of_nil];
    intros E; apply (f_equal (fun s => s !! 14%nat)) in E; discriminate E.
Qed.

Lemma submission_budget_other id uid email : flow_key_of id ∉ map bg_key (submission_budgets uid email).
Proof.
  unfold submission_budgets. generalize (hex_text (sha256 (as_bytes (to_ascii_lowercase email)))). intros h.
  cbn [map bg_key]. rewrite !not_elem_of_cons. split_and!; [..|by apply not_elem_of_nil];
    intros E; apply (f_equal (fun s => s !! 1%nat)) in E; discriminate E.
Qed.

#[local] Hint Resolve fades_execute fades_reset fades_invalidate fades_purge fades_close fades_consume
  otp_budget_other submission_budget_other : frame.

Lemma fades_verify id uid flow_token code expected : keeps (fades id) (verify_otp uid code expected (fail_key flow_token)).
Proof. unfold verify_otp, apply_backoff. frame_auto. Qed.

Lemma fades_load id flow_token uid : keeps (fades id) (load_flow flow_token uid).
Proof.
  unfold load_flow, Device.redis_internal. frame_auto. apply fades_cmd. intros. by left.
Qed.

#[local] Hint Resolve fades_verify fades_load : frame.

Lemma fades_confirm id uid sid flow_token code ip rid : keeps (fades id) (confirm_new uid sid flow_token code ip rid).
Proof.
  repeat first [frame_step | solve [auto with frame] | frame_commit
    | lazymatch goal with |- keeps _ (query _) => apply keeps_query | |- keeps _ ?m => let h := head_of m in unfold h end].
Qed.

Lemma fades_flow flow_token (w w' : World) :
  fades (token_id flow_token) w w' -> flow_at flow_token w' = flow_at flow_token w \/ flow_at flow_token w' = None.
Proof.
  intros [W [E|E]]; unfold flow_at, Device.get_text, r_get, flow_key; rewrite W, E; [by left|by right].
Qed.

Lemma save_flow_run flow_token flow (w w' : World) r :
  save_flow flow_token flow w = (w', r) ->
  flow_at flow_token w' = flow_at flow_token w /\ (exists e, r = Err e) \/ flow_at flow_token w' = Some flow.
Proof.
  unfold save_flow, Device.redis_internal, map_err, redis_conn, redis_cmd, io, mbind, M_bind.
  assert (flow_at flow_token (with_redis (r_set_ex (w_redis w) (w_wall w) (flow_key flow_token)
    (RStr (to_json_text flow)) FLOW_TTL_SECS) (bump_io (bump_io w))) = Some flow) as Hset.
  { unfold flow_at. erewrite get_text_entry; [apply serde_read_back|cbn -[flow_key]; by rewrite dump_set_ex, upd_eq|].
    intros e [= <-]. apply Z.lt_add_pos_r. done. }
  destruct (io_plan (w_io w)); cbn -[flow_key r_set_ex]; [|intros [= <- <-]; left; split; [done|eauto]..].
  destruct (io_plan (S (w_io w))); cbn -[flow_key r_set_ex]; intros [= <- <-];
    [right; exact Hset|left; split; [done|eauto]|right; exact Hset].
Qed.

(** ** Nothing is mailed *)

Definition silent {E A} (m : M E A) : Prop := forall w, w_mails (m w).1 = w_mails w.

Lemma silent_bind {E A B} (m : M E A) (k : A -> M E B) : silent m -> (forall a, silent (k a)) -> silent (m ≫= k).
Proof.
  intros Hm Hk w. specialize (Hm w). unfold mbind, M_bind. destruct (m w) as [w1 [a|e]]; [|done]. by rewrite Hk.
Qed.

Lemma silent_map_err {E E' A} (f : E -> E') (m : M E A) : silent m -> silent (map_err f m).
Proof. intros Hm w. specialize (Hm w). unfold map_err. by destruct (m w) as [w1 []]. Qed.

Lemma silent_attempt {E E' A} (m : M E A) : silent m -> silent (attempt m : M E' _).
Proof. intros Hm w. specialize (Hm w). unfold attempt. by destruct (m w) as [w1 []]. Qed.

Lemma silent_io {E A} (e : E) (step : World -> World * result A E) :
  (forall w, w_mails (step w).1 = w_mails w) -> silent (io e step).
Proof. intros Hs w. unfold io. destruct (io_plan _); cbn; [by rewrite Hs|done|by rewrite Hs]. Qed.

Lemma silent_execute {A} (f : Db -> Z -> result (Db * A) SqlError) : silent (execute f).
Proof. apply silent_io. intros w. by destruct (f _ _) as [[]|]. Qed.

Lemma silent_cmd {A} (f : rstore -> Z -> rstore * A) : silent (redis_cmd f).
Proof. apply silent_io. intros w. by destruct (f _ _). Qed.
End Fading.

(** Exchanges and draws mail nothing. *)
Ltac silent_auto :=
  repeat first
    [ apply silent_bind; [|intros ?]
    | apply silent_map_err
    | apply silent_attempt
    | apply silent_execute
    | apply silent_cmd
    | apply silent_io; reflexivity
    | lazymatch goal with
      | |- silent (if ?c then _ else _) => destruct c
      | |- silent (match ?x with _ => _ end) => destruct x
      | |- silent (ok_or ?o _) => by intros ?; destruct o
      | |- silent ?m => first [by intros ? | let h := head_of m in unfold h]
      end ].

(** * The steps of a flow *)

Section Steps.
Context `{RedisServer} `{Env} `{TimeCrate} `{CryptoCrates} `{SqlText} `{IpNetworkCrate} `{!Jwt}.
Context `{MacCrate} `{Passwords} `{PreAuthSerde} `{!Serde FlowState}.

(** What may be asked of a flow, by any account. *)
Inductive flow_op :=
| TryCurrent (user_id : Uuid) (code : str)
| TrySubmit (user_id : Uuid) (email : str) (ip : option IpNetwork) (request_id : option Uuid)
| TryConfirm (user_id session_id : Uuid) (code : str) (ip : option IpNetwork) (request_id : option Uuid).

Definition run_op (flow_token : str) (op : flow_op) : M AppError unit :=
  match op with
  | TryCurrent user_id code => verify_current user_id flow_token code
  | TrySubmit user_id email ip rid => submit_new user_id flow_token email ip rid
  | TryConfirm user_id session_id code ip rid => confirm_new user_id session_id flow_token code ip rid
  end.

(** The code went to the address or nowhere. *)
Definition mailed_only (otp email : str) (w w' : World) : Prop :=
  w_mails w' = w_mails w \/ w_mails w' = w_mails w ++ [{| m_kind := EmailChangeNewOtpMail otp; m_to := email |}].

(** A step forward, and what it takes. *)
Definition advances (flow_token : str) (op : flow_op) (w w' : World) : Prop :=
  exists flow, flow_at flow_token w = Some flow /\
  match op with
  | TryCurrent uid code =>
      fl_user_id flow = uid /\ fl_step flow = CurrentVerify /\ code_accepted uid flow_token code (fl_otp_hash flow) w /\
      flow_at flow_token w' = Some {| fl_user_id := uid; fl_step := NewSubmit; fl_otp_hash := None;
        fl_new_email := fl_new_email flow |}
  | TrySubmit uid email _ _ =>
      fl_user_id flow = uid /\ fl_step flow = NewSubmit /\
      exists otp, mailed_only otp email w w' /\
        flow_at flow_token w' = Some {| fl_user_id := uid; fl_step := NewVerify; fl_otp_hash := Some (hash_otp uid otp);
          fl_new_email := Some email |}
  | TryConfirm _ _ _ _ _ => False
  end.

(** The flow is where it was, gone, or one step further. *)
Definition moves (flow_token : str) (op : flow_op) (w w' : World) : Prop :=
  flow_at flow_token w' = flow_at flow_token w \/ flow_at flow_token w' = None \/ advances flow_token op w w'.

(** A part of the operation that leaves the entry alone, then the rest. *)
Lemma moves_bind {A} flow_token op (m : M AppError A) (k : A -> M AppError unit) (w : World) :
  keeps (fades (token_id flow_token)) m ->
  (forall a w1, m w = (w1, Ok a) -> moves flow_token op w (k a w1).1) -> moves flow_token op w ((m ≫= k) w).1.
Proof.
  intros Hm Hk. specialize (Hm w). unfold mbind, M_bind. destruct (m w) as [w1 [a|e]]; [by apply Hk|].
  apply fades_flow in Hm as [Hm|Hm]; [by left|by right; left].
Qed.

Lemma moves_unsaved flow_token op (w w1 w2 : World) :
  fades (token_id flow_token) w w1 -> flow_at flow_token w2 = flow_at flow_token w1 -> moves flow_token op w w2.
Proof. intros [Hm|Hm]%fades_flow E; unfold moves; rewrite E; [by left|by right; left]. Qed.

Lemma moves_still flow_token op (w w1 w2 : World) :
  fades (token_id flow_token) w w1 -> fades (token_id flow_token) w1 w2 -> moves flow_token op w w2.
Proof. intros F1 F2. by eapply moves_unsaved; [eapply frame_trans|]. Qed.

Lemma verify_current_moves flow_token uid code (w : World) :
  moves flow_token (TryCurrent uid code) w (verify_current uid flow_token code w).1.
Proof.
  unfold verify_current. apply moves_bind; [apply fades_load|]. intros flow w1 R1.
  pose proof (fades_load (token_id flow_token) flow_token uid w) as F1. rewrite R1 in F1. cbn in F1.
  apply load_flow_Ok in R1 as ([K1 [_ W1]] & _ & Hat & Hu).
  destruct (after (fl_step flow) CurrentConfirmed) as [[next|]|] eqn:Es;
    [|eapply moves_still; [exact F1|apply frame_refl]..].
  assert (fl_step flow = CurrentVerify /\ next = NewSubmit) as [Hstep ->] by (destruct (fl_step flow); by simplify_eq/=).
  unfold mbind, M_bind. pose proof (fades_verify (token_id flow_token) uid flow_token code (fl_otp_hash flow) w1) as F2.
  destruct (verify_otp _ _ _ _ w1) as [w2 [x|e]] eqn:R2; [|by eapply moves_still].
  apply verify_otp_Ok in R2 as [_ Hc].
  destruct (save_flow _ _ w2) as [w3 r3] eqn:R3. apply save_flow_run in R3 as [[Hsame _]|Hsaved]; cbn [fst] in *.
  - by eapply moves_unsaved; [eapply frame_trans; [exact F1|exact F2]|].
  - right; right. exists flow. split_and!; [done..| |by rewrite Hsaved, Hu].
    unfold code_accepted, count_at in *. by rewrite K1, W1 in Hc.
Qed.

(** The rest of a submission, once the flow is saved. *)
Definition after_saving (uid : Uuid) (email otp : str) ip rid (taken : bool) : M AppError unit :=
  found ← internal (user_find_by_id uid);
  _ ← ok_or found NotFound;
  _ ← note_sent uid u"email_change_new" ip rid;
  if taken then mret tt else tell (add_mail {| m_kind := EmailChangeNewOtpMail otp; m_to := email |}).

Lemma after_saving_mails uid email otp ip rid taken (w : World) :
  mailed_only otp email w (after_saving uid email otp ip rid taken w).1.
Proof.
  unfold after_saving, mbind, M_bind.
  assert (silent (internal (user_find_by_id uid))) as S1 by silent_auto. specialize (S1 w).
  destruct (internal (user_find_by_id uid) w) as [w1 [o|e]]; [|by left]. cbn in S1.
  assert (silent (ok_or o NotFound : M AppError User)) as S2 by (intros w'; by destruct o). specialize (S2 w1).
  destruct (ok_or o NotFound w1) as [w2 [v|e]]; cbn in *; [|left; congruence].
  assert (silent (note_sent uid u"email_change_new" ip rid)) as S3 by silent_auto. specialize (S3 w2).
  destruct (note_sent _ _ _ _ w2) as [w3 [[]|e]]; cbn in *; [|left; congruence].
  destruct taken; [left; cbn; congruence|]. right. cbn. congruence.
Qed.

Lemma fades_after_saving id uid email otp ip rid taken : keeps (fades id) (after_saving uid email otp ip rid taken).
Proof.
  unfold after_saving, internal, user_find_by_id, note_sent, audit_append, internal.
  repeat first [frame_step | solve [auto with frame] | apply fades_execute | apply keeps_query].
Qed.

Lemma submit_new_moves flow_token uid email ip rid (w : World) :
  moves flow_token (TrySubmit uid email ip rid) w (submit_new uid flow_token email ip rid w).1.
Proof.
  unfold submit_new. apply moves_bind; [apply fades_load|]. intros flow w1 R1.
  pose proof (fades_load (token_id flow_token) flow_token uid w) as F1. rewrite R1 in F1. cbn in F1.
  assert (w_mails w1 = w_mails w) as M1.
  { assert (silent (load_flow flow_token uid)) as Hs by silent_auto. specialize (Hs w). by rewrite R1 in Hs. }
  apply load_flow_Ok in R1 as (_ & _ & Hat & Hu).
  destruct (after (fl_step flow) NewAddressSubmitted) as [[next|]|] eqn:Es;
    [|eapply moves_still; [exact F1|apply frame_refl]..].
  assert (fl_step flow = NewSubmit /\ next = NewVerify) as [Hstep ->] by (destruct (fl_step flow); by simplify_eq/=).
  unfold mbind at 1, M_bind at 1.
  pose proof (fades_consume (token_id flow_token) _ (submission_budget_other (token_id flow_token) uid email) w1) as F2.
  assert (silent (consume (submission_budgets uid email))) as M2 by silent_auto. specialize (M2 w1).
  destruct (consume _ w1) as [w2 [attempted|e]]; [|by eapply moves_still]. cbn [fst] in F2, M2.
  destruct (exceeded attempted); [by eapply moves_still|].
  assert (fades (token_id flow_token) w w2) as F02 by (by eapply frame_trans).
  unfold mbind at 1, M_bind at 1.
  assert (keeps (fades (token_id flow_token)) (internal (email_taken email uid))) as F3
    by (unfold internal, email_taken; frame_auto). specialize (F3 w2).
  assert (silent (internal (email_taken email uid))) as M3 by silent_auto. specialize (M3 w2).
  destruct (internal (email_taken email uid) w2) as [w3 [taken|e]]; [|by eapply moves_still]. cbn [fst] in F3, M3.
  unfold mbind at 1, M_bind at 1, generate_code. set (otp := pad6 _). unfold mbind at 1, M_bind at 1.
  set (next := {| fl_user_id := _; fl_step := NewVerify; fl_otp_hash := _; fl_new_email := _ |}).
  assert (silent (save_flow flow_token next)) as M4 by silent_auto. specialize (M4 (bump_draws w3)).
  destruct (save_flow flow_token next (bump_draws w3)) as [w4 r4] eqn:R4.
  apply save_flow_run in R4 as [[Hsame [e ->]]|Hsaved].
  { eapply moves_unsaved; [|exact Hsame]. eapply frame_trans; [exact F02|]. eapply frame_trans; [exact F3|apply frame_draws]. }
  cbn [fst] in M4. change (w_mails (bump_draws w3)) with (w_mails w3) in M4.
  destruct r4 as [x|e]; cycle 1.
  { right; right. exists flow. split_and!; [done..|]. exists otp. split; [left; cbn [fst]; congruence|]. cbn [fst]. rewrite Hsaved. unfold next. by rewrite Hu. }
  change (moves flow_token (TrySubmit uid email ip rid) w (after_saving uid email otp ip rid taken w4).1).
  pose proof (fades_after_saving (token_id flow_token) uid email otp ip rid taken w4) as [F5|F5]%fades_flow;
    [right; right|by right; left].
  pose proof (after_saving_mails uid email otp ip rid taken w4) as M5. unfold mailed_only in M5.
  replace (w_mails w4) with (w_mails w) in M5 by congruence.
  exists flow. split_and!; [done..|]. exists otp. split; [exact M5|]. rewrite F5, Hsaved. unfold next. by rewrite Hu.
Qed.

Lemma run_op_moves flow_token op (w : World) : moves flow_token op w (run_op flow_token op w).1.
Proof.
  destruct op as [uid code|uid email ip rid|uid sid code ip rid]; cbn [run_op].
  - apply verify_current_moves.
  - apply submit_new_moves.
  - eapply moves_still; [apply frame_refl|]. apply fades_confirm.
Qed.

(** ** Both mailboxes *)

(** What happens to the flow of a token: operations on it, by anybody, and in
    between whatever leaves its entry alone, removes it or lets it expire. *)
Inductive history (flow_token : str) (w0 : World) : list (flow_op * World) -> World -> Prop :=
| history_start : history flow_token w0 [] w0
| history_op ops w op :
    history flow_token w0 ops w -> history flow_token w0 (ops ++ [(op, w)]) (run_op flow_token op w).1
| history_else ops w w' :
    history flow_token w0 ops w -> flow_at flow_token w' = flow_at flow_token w \/ flow_at flow_token w' = None ->
    history flow_token w0 ops w'.

(** Someone gave the code the flow was opened with. *)
Definition current_proved (uid : Uuid) (h0 : str) (ops : list (flow_op * World)) : Prop :=
  exists code w, (TryCurrent uid code, w) ∈ ops /\ otp_matches uid code h0 = true.

(** The flow was told the address, and drew for it the code of this digest,
    which nobody else was sent. *)
Definition new_asked (flow_token : str) (uid : Uuid) (email h : str) (ops : list (flow_op * World)) : Prop :=
  exists ip rid w otp, (TrySubmit uid email ip rid, w) ∈ ops /\ h = hash_otp uid otp /\
    mailed_only otp email w (run_op flow_token (TrySubmit uid email ip rid) w).1.

Lemma history_two flow_token op1 op2 (w : World) :
  history flow_token w [(op1, w); (op2, (run_op flow_token op1 w).1)]
    (run_op flow_token op2 (run_op flow_token op1 w).1).1.
Proof.
  apply (history_op flow_token w [(op1, w)]), (history_op flow_token w []), history_start.
Qed.

(** What the flow says holds of its history. *)
Definition flow_true (flow_token : str) (uid : Uuid) (h0 : str) (ops : list (flow_op * World)) (w : World) : Prop :=
  forall flow, flow_at flow_token w = Some flow ->
    fl_user_id flow = uid /\
    match fl_step flow with
    | CurrentVerify => fl_otp_hash flow = Some h0
    | NewSubmit => current_proved uid h0 ops
    | NewVerify => current_proved uid h0 ops /\
        exists email h, fl_new_email flow = Some email /\ fl_otp_hash flow = Some h /\ new_asked flow_token uid email h ops
    end.

Lemma history_true flow_token uid h0 w0 ops (w : World) :
  flow_at flow_token w0 = Some {| fl_user_id := uid; fl_step := CurrentVerify; fl_otp_hash := Some h0; fl_new_email := None |} ->
  history flow_token w0 ops w -> flow_true flow_token uid h0 ops w.
Proof.
  intros H0'. induction 1 as [|ops w op Hh IH|ops w w' Hh IH Hw].
  - intros flow E. rewrite H0' in E. by injection E as <-.
  - assert (forall flow, flow_at flow_token w = Some flow -> fl_user_id flow = uid /\
      match fl_step flow with
      | CurrentVerify => fl_otp_hash flow = Some h0
      | NewSubmit => current_proved uid h0 (ops ++ [(op, w)])
      | NewVerify => current_proved uid h0 (ops ++ [(op, w)]) /\
          exists email h, fl_new_email flow = Some email /\ fl_otp_hash flow = Some h /\
            new_asked flow_token uid email h (ops ++ [(op, w)])
      end) as Hold.
    { intros flow E. destruct (IH flow E) as [Hu Hs]. split; [done|].
      assert (current_proved uid h0 ops -> current_proved uid h0 (ops ++ [(op, w)])) as Hc
        by (intros (code & v & Hin & ?); exists code, v; rewrite elem_of_app; auto).
      destruct (fl_step flow); [done|by apply Hc|]. destruct Hs as (Hp & email & h & ? & ? & ip & rid & v & otp & Hin & ?).
      split; [by apply Hc|]. exists email, h. split_and!; [done..|]. exists ip, rid, v, otp. rewrite elem_of_app. auto. }
    pose proof (run_op_moves flow_token op w) as [Hm|[Hm|(f & Hf & Ha)]]; intros flow E; [rewrite Hm in E; by apply Hold|congruence|].
    destruct op as [v code|v email ip rid|]; [| |done].
    + destruct Ha as (Hu & Hstep & ((h & Hh' & Hmatch) & _) & Hm). rewrite Hm in E. injection E as <-.
      destruct (IH f Hf) as [Hu' Hs]. rewrite Hstep in Hs. assert (v = uid) as -> by congruence. split; [done|].
      exists code, w. split; [apply elem_of_app; right; by listed|]. congruence.
    + destruct Ha as (Hu & Hstep & otp & Hmail & Hm). rewrite Hm in E. injection E as <-.
      destruct (Hold f Hf) as [Hu' Hs]. rewrite Hstep in Hs. assert (v = uid) as -> by congruence. split; [done|]. split; [done|].
      exists email, (hash_otp uid otp). split_and!; [done..|]. exists ip, rid, w, otp.
      split_and!; [apply elem_of_app; right; by listed|done|done].
  - intros flow E. apply IH. destruct Hw as [Hw|Hw]; congruence.
Qed.

(** A flow opened: for a verified account of a session that proved itself, with
    a code sent to the address it has. *)
Record opened (uid sid : Uuid) (cur : option str) (w w1 : World) (flow_token : str) (row : UserRow) (otp : str) : Prop := {
  op_proven : proven uid sid cur w;
  op_account : t_users (w_db w) !! uid = Some row /\ is_Some (u_email_verified_at (ur_user row));
  op_flow : flow_at flow_token w1 = Some {| fl_user_id := uid; fl_step := CurrentVerify;
    fl_otp_hash := Some (hash_otp uid otp); fl_new_email := None |};
  op_mail : exists before, w_mails w1 = before ++ [{| m_kind := EmailChangeOtpMail otp; m_to := u_email (ur_user row) |}];
}.

Lemma flow_kept flow_token (w w' : World) :
  keys_kept (fun k => k = flow_key flow_token) w w' -> flow_at flow_token w' = flow_at flow_token w.
Proof. intros [[_ W] K]. unfold flow_at, Device.get_text, r_get. by rewrite W, K. Qed.

Lemma start_Ok uid sid cur ip rid (w w1 : World) flow_token :
  start uid sid cur ip rid w = (w1, Ok flow_token) -> exists row otp, opened uid sid cur w w1 flow_token row otp.
Proof.
  unfold start. intros R. unbind R x0 w2 R0. pose proof R0 as Hp. apply guard_proves in Hp.
  assert (leaves [TUsers] w w2) as [L2 _] by (eapply keeps_run, R0; destruct cur; tables_auto).
  unbind R claimed w3 R3. assert (same_db w2 w3) as [D3 _] by (eapply keeps_run, R3; tables_auto).
  destruct claimed; cbn [negb] in R; [|by apply fail_Ok in R].
  unbind R x4 w4 R4. apply map_err_Ok, redis_conn_Ok in R4 as ->. unbind R active w5 R5.
  assert (same_db (bump_io w3) w5) as [D5 _] by (eapply keeps_run, R5; tables_auto). change (w_db w5 = w_db w3) in D5.
  match type of R with (if ?c then _ else _) _ = _ => destruct c end; [by apply fail_Ok in R|].
  unbind R x6 w6 R6. assert (same_db w5 w6) as [D6 _] by (eapply keeps_run, R6; tables_auto).
  unbind R found w7 R7. unfold internal, user_find_by_id in R7. read_run R7. unbind R v w8 R8. read_run R8.
  case_bool_decide as Hv; [by apply fail_Ok in R|]. apply fmap_Some in R8 as (row & Hrow & ->).
  unbind R tok w9 R9. injection R9 as <- <-. unbind R otp w10 R10. injection R10 as <- <-.
  unbind R x11 w11 R11. apply save_flow_run in R11 as [[_ [e [=]]]|Hsaved].
  unbind R x12 w12 R12. unbind R x13 w13 R13. unbind R x14 w14 R14. injection R14 as <- _. read_run R.
  eexists row, _. split; [done| | |by eexists].
  - split; [|by apply not_eq_None_Some]. rewrite <- (L2 TUsers) by listed. by rewrite <- D3, <- D5, <- D6.
  - assert (keys_kept (fun k => k = flow_key (draw_token (w_draws w7))) w11 w12) as K12.
    { eapply keeps_run, R12. unfold best_effort. frame_auto. apply keeps_keys_cmd. intros s t k ->. apply fades_set.
      intros E. apply (f_equal (fun s => s !! 13%nat)) in E. discriminate E. }
    assert (keys_kept (fun k => k = flow_key (draw_token (w_draws w7))) w12 w13) as K13.
    { eapply keeps_run, R13. unfold note_sent, internal, audit_append. frame_auto. apply keeps_keys_execute. }
    change (flow_at (draw_token (w_draws w7)) w13 = Some {| fl_user_id := uid; fl_step := CurrentVerify;
      fl_otp_hash := Some (hash_otp uid (pad6 (draw_otp (w_draws (bump_draws w7))))); fl_new_email := None |}).
    rewrite (flow_kept _ _ _ K13), (flow_kept _ _ _ K12). exact Hsaved.
Qed.

(** C12: An address changes only after both mailboxes were read.  If a request on
    a flow changes any table by confirming, whatever was asked of the flow before
    it and by whomever, whatever failed and expired in between, then it speaks
    for the account that opened the flow, with its password proved and its
    address verified; somebody gave the flow the code sent to the address the
    account had; the address the account takes is one the flow was told, and the
    code given now is the one drawn for it, which was sent to that address or to
    nobody. *)
Theorem both_mailboxes_proved uid sid cur ip rid (w w1 w2 w3 : World) flow_token ops uid' sid' code ip' rid' r :
  start uid sid cur ip rid w = (w1, Ok flow_token) -> history flow_token w1 ops w2 -> users_keyed (w_db w2) ->
  confirm_new uid' sid' flow_token code ip' rid' w2 = (w3, r) -> w_db w3 <> w_db w2 ->
  uid' = uid /\ exists row otp email h, opened uid sid cur w w1 flow_token row otp /\
    current_proved uid (hash_otp uid otp) ops /\
    new_asked flow_token uid email h ops /\ otp_matches uid code h = true /\
    address_moved (w_wall w2) uid sid' email ip' rid' (w_db w2) (w_db w3).
Proof.
  intros Rs Hh Hk Rc Hne. apply start_Ok in Rs as (row & otp & Hop).
  pose proof (history_true _ _ _ _ _ _ (op_flow _ _ _ _ _ _ _ _ Hop) Hh) as Ht.
  pose proof (confirm_run uid' sid' flow_token code ip' rid' w2 Hk) as [[D _]|(flow & email & Hat & Hu & Hs & He & [(h & Hh' & Hm) _] & Ham)];
    rewrite Rc in *; [done|].
  destruct (Ht flow Hat) as [Hu' Hp]. rewrite Hs in Hp. destruct Hp as (Hp & email' & h' & He' & Hh'' & Hn).
  assert (uid' = uid) as -> by congruence. split; [done|]. exists row, otp, email, h.
  split_and!; [done|done| |done|done]. by replace email with email' by congruence; replace h with h' by congruence.
Qed.
End Steps.

(** * Witnesses *)

Section Witnesses.
Import Scenario.Run Office.Office.
#[local] Existing Instance calm.

(** The code of the last message. *)
Definition last_code (w : World (H := redis_gmap)) : str :=
  match last (w_mails w) with
  | Some {| m_kind := EmailChangeOtpMail code |} | Some {| m_kind := EmailChangeNewOtpMail code |} => code
  | _ => []
  end.

(** Account 8 opens a flow, proves its mailbox, names another, proves it. *)
Definition opened_run := start 8%N 3%N (Some u"bob's own") None None office.
Definition bobs_flow : str := match opened_run.2 with Ok flow_token => flow_token | Err _ => [] end.
Definition current_run := run_op bobs_flow (TryCurrent 8%N (last_code opened_run.1)) opened_run.1.
Definition submit_run := run_op bobs_flow (TrySubmit 8%N u"rob@example.org" None None) current_run.1.
Definition confirm_run_of_bob := confirm_new 8%N 3%N bobs_flow (last_code submit_run.1) None None submit_run.1.

Definition later (secs : Z) (w : World (H := redis_gmap)) : World (H := redis_gmap) :=
  {| w_db := w_db w; w_redis := w_redis w; w_now := w_now w + secs * NS; w_wall := w_wall w + secs * NS;
     w_io := w_io w; w_draws := w_draws w; w_mails := w_mails w; w_slept := w_slept w; w_tasks := w_tasks w;
     w_sent := w_sent w; w_stream_ready := w_stream_ready w; w_documents := w_documents w |}.

Example bob_moves :
  confirm_run_of_bob.2 = Ok tt /\
  option_map (fun r => u_email (ur_user r)) (t_users (w_db confirm_run_of_bob.1) !! 8%N) = Some u"rob@example.org".
Proof. vm_compute. split; reflexivity. Qed.

Lemma bob_keyed : users_keyed (w_db submit_run.1).
Proof.
  assert (t_users (w_db submit_run.1) = t_users tables) as E by (vm_compute; reflexivity).
  unfold users_keyed. rewrite E. unfold tables, set_users. cbn.
  by intros i r [[<- <-]|[_ [<- <-]%lookup_singleton_Some]]%lookup_insert_Some.
Qed.

Lemma address_change_sound_witness :
  confirm_new 8%N 3%N bobs_flow (last_code submit_run.1) None None submit_run.1 = (confirm_run_of_bob.1, Ok tt) /\
  confirm_outcome 8%N 3%N bobs_flow (last_code submit_run.1) None None submit_run.1 confirm_run_of_bob.
Proof.
  split; [apply run_answer; vm_compute; reflexivity|].
  apply (address_change_sound 8%N 3%N bobs_flow (last_code submit_run.1) None None submit_run.1). exact bob_keyed.
Defined.

Lemma both_mailboxes_proved_witness :
  exists row otp email h, opened 8%N 3%N (Some u"bob's own") office opened_run.1 bobs_flow row otp /\
    current_proved 8%N (hash_otp 8%N otp)
      [(TryCurrent 8%N (last_code opened_run.1), opened_run.1);
       (TrySubmit 8%N u"rob@example.org" None None, current_run.1)] /\
    new_asked bobs_flow 8%N email h
      [(TryCurrent 8%N (last_code opened_run.1), opened_run.1);
       (TrySubmit 8%N u"rob@example.org" None None, current_run.1)] /\
    otp_matches 8%N (last_code submit_run.1) h = true /\
    address_moved (w_wall submit_run.1) 8%N 3%N email None None (w_db submit_run.1) (w_db confirm_run_of_bob.1).
Proof.
  apply (both_mailboxes_proved 8%N 3%N (Some u"bob's own") None None office opened_run.1 submit_run.1
    confirm_run_of_bob.1 bobs_flow _ 8%N 3%N (last_code submit_run.1) None None (Ok tt)).
  - apply run_answer. vm_compute. reflexivity.
  - apply history_two.
  - exact bob_keyed.
  - apply run_answer. vm_compute. reflexivity.
  - intros E. apply (f_equal (fun d => option_map (fun r => u_email (ur_user r)) (t_users d !! 8%N))) in E.
    vm_compute in E. discriminate E.
Defined.

(** Ten minutes later the flow goes one step on; ten minutes after that another
    one is opened. *)
Definition slow_run := verify_current 8%N bobs_flow (last_code opened_run.1) (later 600 opened_run.1).
Definition second_run := start 8%N 3%N (Some u"bob's own") None None (later 600 slow_run.1).

Example first_flow_survives :
  (exists flow_token, second_run.2 = Ok flow_token /\ flow_token <> bobs_flow) /\
  option_map fl_step (flow_at bobs_flow second_run.1) = Some NewSubmit /\
  w_wall office + FLOW_TTL_SECS * NS < w_wall second_run.1.
Proof.
  split; [|vm_compute; split; reflexivity]. vm_compute. eexists. split; [reflexivity|discriminate].
Qed.
End Witnesses.
