(* ===== verification/Settings.v ===== *)
(** Configuration (src/src/config/mod.rs, config/env_vars.rs): the settings, how
    they are read from environment variables and from files, and what the
    services see of them ([App.Config]).  The reason of a refusal, a message to
    the operator, is left out of [ConfigError]. *)
From S2P Require Import Prelude Crates Base64 Account OAuthDomain Network Crypto App.

Inductive ConfigError :=
| Missing (key : str)
| Invalid (key : str).

(** Fallible steps without a state. *)
Definition Load (A : Type) : Type := result A ConfigError.

#[export] Instance load_ret : MRet Load := fun A a => Ok a.
#[export] Instance load_bind : MBind Load := fun A B k m =>
  match m with Ok a => k a | Err e => Err e end.

Definition invalid {A} (key : str) : Load A := Err (Invalid key).

Inductive Environment := Development | Production | Test.

#[export] Instance environment_eq_dec : EqDecision Environment.
Proof. solve_decision. Defined.

Inductive LogFormat := Pretty | Json.


(** * Standard library text *)

(** [str::replace] of a non-empty pattern: left to right, without overlap. *)
Fixpoint replace_fuel (n : nat) (from to s : str) : str :=
  match n with
  | O => s
  | S n =>
      match s with
      | [] => []
      | c :: rest =>
          match strip_prefix from s with
          | Some after => to ++ replace_fuel n from to after
          | None => c :: replace_fuel n from to rest
          end
      end
  end.
Definition replace (from to s : str) : str := replace_fuel (length s) from to s.

Definition strip_suffix (suffix s : str) : option str :=
  option_map reverse (strip_prefix (reverse suffix) (reverse s)).

Definition to_ascii_uppercase (s : str) : str :=
  map (fun c => if is_ascii_lowercase c then c - 32 else c) s.

Definition blank (s : str) : bool := bool_decide (trim s = []).

(** [str::parse] to an unsigned integer of [bits] bits. *)
Definition parse_unsigned (bits : Z) (s : str) : option Z :=
  let digits := match s with 43 :: rest => rest | _ => s end in
  if bool_decide (digits = []) || negb (forallb is_ascii_digit digits) then None
  else
    let n := foldl (fun acc c => 10 * acc + (c - 48)) 0 digits in
    if n <? 2 ^ bits then Some n else None.

Definition parse_bool (s : str) : option bool :=
  if str_eqb s u"true" then Some true else if str_eqb s u"false" then Some false else None.

(** The numbers [f64] accepts: a sign, then a word or digits around a point, with
    an exponent. *)
Definition all_digits (s : str) : bool := negb (bool_decide (s = [])) && forallb is_ascii_digit s.
Definition unsigned_part (s : str) : str := match s with 43 :: rest | 45 :: rest => rest | _ => s end.
Definition decimal_part (s : str) : bool :=
  match split_once 46 s with
  | Some (whole, fraction) =>
      forallb is_ascii_digit whole && forallb is_ascii_digit fraction && negb (bool_decide (whole ++ fraction = []))
  | None => all_digits s
  end.
Definition is_f64 (s : str) : bool :=
  let body := to_ascii_lowercase (unsigned_part s) in
  str_eqb body u"inf" || str_eqb body u"infinity" || str_eqb body u"nan" ||
  match split_once 101 body with
  | Some (mantissa, exponent) => decimal_part mantissa && all_digits (unsigned_part exponent)
  | None => decimal_part body
  end.

(** * The settings *)

Record ServerConfig := {
  server_host : str;
  server_port : Z;
  public_url : str;
  frontend_url : str;
  trusted_proxy_cidrs : list IpNetwork;
}.

Record DatabaseConfig := {
  database_url : str;
  max_connections : Z;
  min_connections : Z;
  acquire_timeout_secs : Z;
  read_url : option str;
}.

Record RedisConfig := { redis_url : str; pool_size : Z; wait_timeout_ms : Z }.

Record NatsConfig := { nats_url : str; stream_replicas : Z }.

Record JwtSettings := {
  private_key : str;
  public_key : str;
  previous_public_key : option str;
  next_public_key : option str;
  jwt_lifetimes : JwtConfig;
}.

Record CryptoConfig := {
  argon2_memory_kib : Z;
  argon2_iterations : Z;
  argon2_parallelism : Z;
  argon2_max_concurrency : Z;
  totp_issuer : str;
  encryption_key : str;
  previous_encryption_key : option str;
  totp_skew : Z;
  recovery_code_expiry_days : Z;
}.

Record RateLimitConfig := {
  requests_per_minute : Z;
  auth_requests_per_minute : Z;
  fail_open_on_redis_error : bool;
  allow_requests_without_ip : bool;
}.

Record SmtpConfig := {
  smtp_host : str;
  smtp_port : Z;
  smtp_username : str;
  smtp_password : str;
  from_name : str;
  from_address : str;
}.

Record MailConfig := { smtp : SmtpConfig; templates_dir : str; default_locale : str }.

Record CleanupConfig := {
  interval_secs : Z;
  sessions_grace_days : Z;
  tokens_grace_days : Z;
  login_attempts_retention_days : Z;
  recovery_codes_grace_days : Z;
  unverified_accounts_retention_days : Z;
  known_devices_retention_days : Z;
  webhook_deliveries_retention_days : Z;
}.

Record AuditConfig := { retention_months : Z; ip_retention_days : Z }.

Record PwnedSettings := {
  pwned_switches : PwnedPasswordsConfig;
  pwned_api_url : str;
  pwned_timeout_ms : Z;
}.

(** The sample ratio as it was written: it is clamped to 0 and 1 and nothing here
    reads it. *)
Record TelemetryConfig := { otlp_endpoint : option str; service_name : str; sample_ratio : str }.

Record WebhookSettings := { webhook_switches : WebhooksConfig; webhook_timeout_ms : Z }.

Record CaptchaConfig := {
  captcha_secret : option str;
  captcha_verify_url : str;
  captcha_timeout_secs : Z;
  captcha_fail_open : bool;
  captcha_site_key : option str;
  expected_hostnames : list str;
}.

Record CorsConfig := { allowed_origins : list str; allow_credentials : bool }.

Record LogConfig := { log_level : str; log_format : LogFormat }.

Record DeviceSettings := { device_timing : DeviceAuthConfig; consent_uri : str }.

Record MetricsConfig := {
  metrics_enabled : bool;
  metrics_host : str;
  metrics_port : Z;
  metrics_token : option str;
}.

Record Settings := {
  env : Environment;
  server : ServerConfig;
  database : DatabaseConfig;
  redis : RedisConfig;
  nats : NatsConfig;
  jwt : JwtSettings;
  crypto : CryptoConfig;
  rate_limit : RateLimitConfig;
  security : SecurityConfig;
  mail : MailConfig;
  captcha : CaptchaConfig;
  pwned_passwords : PwnedSettings;
  webauthn : WebauthnConfig;
  identity_providers : list IdentityProviderConfig;
  external_login_uri : str;
  webhooks : WebhookSettings;
  cors : CorsConfig;
  cleanup : CleanupConfig;
  audit : AuditConfig;
  telemetry : TelemetryConfig;
  log : LogConfig;
  device_auth : DeviceSettings;
  metrics : MetricsConfig;
}.

Definition is_production (self : Settings) : bool := bool_decide (env self = Production).

(** What the services read. *)
Definition services_config (self : Settings) : Config :=
  {| cfg_jwt := jwt_lifetimes (jwt self);
     cfg_security := security self;
     cfg_public_url := public_url (server self);
     cfg_captcha_secret := captcha_secret (captcha self);
     cfg_pwned := pwned_switches (pwned_passwords self);
     cfg_totp_skew := totp_skew (crypto self);
     cfg_totp_issuer := totp_issuer (crypto self);
     cfg_recovery_code_expiry_days := recovery_code_expiry_days (crypto self);
     cfg_device_auth := device_timing (device_auth self);
     cfg_webauthn := webauthn self;
     cfg_webhooks := webhook_switches (webhooks self);
     cfg_identity_providers := identity_providers self;
     cfg_external_login_uri := external_login_uri self |}.

Definition with_audience (l : list str) (self : JwtConfig) : JwtConfig :=
  {| access_expiry_secs := access_expiry_secs self; refresh_expiry_secs := refresh_expiry_secs self;
     short_session_expiry_secs := short_session_expiry_secs self;
     max_session_lifetime_secs := max_session_lifetime_secs self;
     strict_session_binding := strict_session_binding self; audience := l |}.

Definition set_audience (l : list str) (self : Settings) : Settings :=
  {| env := env self; server := server self; database := database self; redis := redis self; nats := nats self;
     jwt := {| private_key := private_key (jwt self); public_key := public_key (jwt self);
               previous_public_key := previous_public_key (jwt self); next_public_key := next_public_key (jwt self);
               jwt_lifetimes := with_audience l (jwt_lifetimes (jwt self)) |};
     crypto := crypto self; rate_limit := rate_limit self; security := security self; mail := mail self;
     captcha := captcha self; pwned_passwords := pwned_passwords self; webauthn := webauthn self;
     identity_providers := identity_providers self; external_login_uri := external_login_uri self;
     webhooks := webhooks self; cors := cors self; cleanup := cleanup self; audit := audit self;
     telemetry := telemetry self; log := log self; device_auth := device_auth self; metrics := metrics self |}.

Definition ensure_self_in_audience (self : Settings) : Settings :=
  let self_url := public_url (server self) in
  let l := audience (jwt_lifetimes (jwt self)) in
  if bool_decide (self_url = []) || existsb (fun a => str_eqb a self_url) l then self
  else set_audience (l ++ [self_url]) self.

(** * Crates and the machine *)

Class ConfigCrates := {
  (** [str::parse::<IpNetwork>] *)
  parse_network : str -> option IpNetwork;
  (** [url.origin().ascii_serialization()] *)
  url_origin : Url -> str;
  (** The URL without its user information, when it can carry any. *)
  url_without_user : Url -> option str;
  (** [axum::http::HeaderValue::from_str(..).is_ok()] *)
  header_value : str -> bool;
  (** [STANDARD.decode] of the crate [base64] *)
  base64_decode : str -> option bytes;
  base64_bytes : forall s b, base64_decode s = Some b -> Forall is_byte b;
  (** The point of the public key of a PEM-encoded P-256 private key, and that
      of a public one. *)
  signing_point : str -> option bytes;
  verifying_point : str -> option bytes;
  (** [std::thread::available_parallelism] *)
  available_parallelism : option Z;
}.

(** * Reading variables *)

Section Vars.
Context `{ConfigCrates} `{UrlCrate}.
Variable lookup : str -> option str.

(** [Env::string]: a blank value counts as unset. *)
Definition string_of (key : str) : option str :=
  match lookup key with
  | Some value => if blank value then None else Some value
  | None => None
  end.

Definition require (key : str) : Load str :=
  match string_of key with Some value => Ok value | None => Err (Missing key) end.

Definition csv_items (value : str) : list str :=
  List.filter (fun s => negb (bool_decide (s = []))) (map trim (split_on 44 value)).

Definition csv (key : str) : option (list str) := option_map csv_items (lookup key).

Fixpoint networks (key : str) (l : list str) : Load (list IpNetwork) :=
  match l with
  | [] => mret []
  | raw :: rest =>
      match parse_network raw with
      | Some n => ns ← networks key rest; mret (n :: ns)
      | None => invalid key
      end
  end.

Definition ip_network_list (key : str) : Load (list IpNetwork) := networks key (default [] (csv key)).

(** [Env::parse]: what is there and does not parse is refused. *)
Definition parse_var {T} (from_str : str -> option T) (key : str) : Load (option T) :=
  match string_of key with
  | None => mret None
  | Some raw => match from_str (trim raw) with Some x => mret (Some x) | None => invalid key end
  end.

Definition parse_or {T} (from_str : str -> option T) (key : str) (d : T) : Load T :=
  o ← parse_var from_str key; mret (default d o).

Definition string_or (key d : str) : str := default d (string_of key).

Definition u8_or := parse_or (parse_unsigned 8).
Definition u16_or := parse_or (parse_unsigned 16).
Definition u32_or := parse_or (parse_unsigned 32).
Definition u64_or := parse_or (parse_unsigned 64).
Definition bool_or := parse_or parse_bool.

Definition parse_environment (s : str) : option Environment :=
  let s := to_ascii_lowercase s in
  if contains [u"development"; u"dev"] s then Some Development
  else if contains [u"production"; u"prod"] s then Some Production
  else if str_eqb s u"test" then Some Test else None.

Definition parse_log_format (s : str) : option LogFormat :=
  let s := to_ascii_lowercase s in
  if str_eqb s u"pretty" then Some Pretty else if str_eqb s u"json" then Some Json else None.

Definition newlines (s : str) : str := replace u"\n" [10] s.

Definition default_argon2_max_concurrency : Z :=
  match available_parallelism with Some n => n mod 2 ^ 32 | None => 4 end.

(** ** Identity providers *)

Definition idp_key (name suffix : str) : str :=
  u"IDP_" ++ replace u"-" u"_" (to_ascii_uppercase name) ++ u"_" ++ suffix.

Definition provider_kind (name : str) : Load (IdentityProviderKind * str * str) :=
  let kind_name := default name (string_of (idp_key name u"KIND")) in
  if str_eqb kind_name u"google" then mret (Oidc, u"https://accounts.google.com", u"openid")
  else if str_eqb kind_name u"github" then mret (Github, [], u"read:user")
  else if str_eqb kind_name u"oidc" then
    issuer ← require (idp_key name u"ISSUER"); mret (Oidc, issuer, u"openid")
  else invalid (idp_key name u"KIND").

Definition provider (name : str) : Load IdentityProviderConfig :=
  k ← provider_kind name;
  let '(kind, issuer, scopes) := k in
  client_id ← require (idp_key name u"CLIENT_ID");
  client_secret ← require (idp_key name u"CLIENT_SECRET");
  mret {| idp_name := name; idp_kind := kind;
          idp_display_name := string_or (idp_key name u"DISPLAY_NAME") name;
          idp_client_id := client_id; idp_client_secret := client_secret;
          idp_issuer := trim_end_matches 47 (string_or (idp_key name u"ISSUER") issuer);
          idp_scopes := default [scopes] (csv (idp_key name u"SCOPES"));
          idp_authorization_url :=
            string_or (idp_key name u"AUTHORIZATION_URL") u"https://github.com/login/oauth/authorize";
          idp_token_url := string_or (idp_key name u"TOKEN_URL") u"https://github.com/login/oauth/access_token";
          idp_user_url := string_or (idp_key name u"USER_URL") u"https://api.github.com/user" |}.

Fixpoint providers_of (names : list str) (providers : list IdentityProviderConfig) :
    Load (list IdentityProviderConfig) :=
  match names with
  | [] => mret providers
  | name :: rest =>
      if negb (ExternalIdentity.is_valid_provider_name name) || existsb (fun p => str_eqb (idp_name p) name) providers
      then invalid u"IDENTITY_PROVIDERS"
      else p ← provider name; providers_of rest (providers ++ [p])
  end.

Definition read_identity_providers : Load (list IdentityProviderConfig) :=
  providers_of (default [] (csv u"IDENTITY_PROVIDERS")) [].

(** ** Each part, in the order of the struct *)

Definition LOCALHOST : str := u"http://localhost:3000".

(** [FRONTEND_URL], or the API's own. *)
Definition frontend : str :=
  default LOCALHOST (match string_of u"FRONTEND_URL" with Some x => Some x | None => string_of u"APP_PUBLIC_URL" end).

Definition read_server : Load ServerConfig :=
  port ← u16_or u"SERVER_PORT" 3000;
  cidrs ← ip_network_list u"TRUSTED_PROXY_CIDRS";
  mret {| server_host := string_or u"SERVER_HOST" u"0.0.0.0"; server_port := port;
          public_url := trim_end_matches 47 (string_or u"APP_PUBLIC_URL" LOCALHOST);
          frontend_url := trim_end_matches 47 frontend; trusted_proxy_cidrs := cidrs |}.

Definition read_database : Load DatabaseConfig :=
  url ← require u"DATABASE_URL";
  max_conn ← u32_or u"DB_MAX_CONNECTIONS" 20;
  min_conn ← u32_or u"DB_MIN_CONNECTIONS" 2;
  acquire ← u64_or u"DB_ACQUIRE_TIMEOUT_SECS" 5;
  mret {| database_url := url; max_connections := max_conn; min_connections := min_conn;
          acquire_timeout_secs := acquire; read_url := string_of u"DATABASE_READ_URL" |}.

Definition read_redis : Load RedisConfig :=
  url ← require u"REDIS_URL";
  size ← u32_or u"REDIS_POOL_SIZE" 10;
  wait ← u64_or u"REDIS_WAIT_TIMEOUT_MS" 2000;
  mret {| redis_url := url; pool_size := size; wait_timeout_ms := wait |}.

Definition read_nats : Load NatsConfig :=
  replicas ← u64_or u"NATS_STREAM_REPLICAS" 1;
  mret {| nats_url := string_or u"NATS_URL" u"nats://nats:4222"; stream_replicas := replicas |}.

Definition read_jwt : Load JwtSettings :=
  private ← require u"JWT_PRIVATE_KEY";
  public ← require u"JWT_PUBLIC_KEY";
  access ← u64_or u"JWT_ACCESS_EXPIRY_SECS" 900;
  refresh ← u64_or u"JWT_REFRESH_EXPIRY_SECS" (60 * 60 * 24 * 30);
  short ← u64_or u"JWT_SHORT_SESSION_EXPIRY_SECS" (60 * 60 * 24);
  strict ← bool_or u"JWT_STRICT_SESSION_BINDING" false;
  lifetime ← u64_or u"JWT_MAX_SESSION_LIFETIME_SECS" (60 * 60 * 24 * 90);
  mret {| private_key := newlines private; public_key := newlines public;
          previous_public_key := option_map newlines (string_of u"JWT_PREVIOUS_PUBLIC_KEY");
          next_public_key := option_map newlines (string_of u"JWT_NEXT_PUBLIC_KEY");
          jwt_lifetimes := {| access_expiry_secs := access; refresh_expiry_secs := refresh;
            short_session_expiry_secs := short; max_session_lifetime_secs := lifetime;
            strict_session_binding := strict; audience := default [] (csv u"JWT_AUDIENCE") |} |}.

Definition read_crypto : Load CryptoConfig :=
  memory ← u32_or u"ARGON2_MEMORY_KIB" 65536;
  iterations ← u32_or u"ARGON2_ITERATIONS" 3;
  parallelism ← u32_or u"ARGON2_PARALLELISM" 4;
  concurrency ← u32_or u"ARGON2_MAX_CONCURRENCY" default_argon2_max_concurrency;
  key ← require u"ENCRYPTION_KEY";
  skew ← u8_or u"TOTP_SKEW" 1;
  days ← u32_or u"RECOVERY_CODE_EXPIRY_DAYS" 365;
  mret {| argon2_memory_kib := memory; argon2_iterations := iterations; argon2_parallelism := parallelism;
          argon2_max_concurrency := concurrency; totp_issuer := string_or u"TOTP_ISSUER" u"auth-api";
          encryption_key := key; previous_encryption_key := string_of u"PREVIOUS_ENCRYPTION_KEY";
          totp_skew := skew; recovery_code_expiry_days := days |}.

Definition read_rate_limit (production : bool) : Load RateLimitConfig :=
  rpm ← u64_or u"RATE_LIMIT_RPM" 300;
  auth ← u64_or u"RATE_LIMIT_AUTH_RPM" 20;
  fail_open ← bool_or u"RATE_LIMIT_FAIL_OPEN" (negb production);
  missing ← bool_or u"RATE_LIMIT_ALLOW_MISSING_IP" (negb production);
  mret {| requests_per_minute := rpm; auth_requests_per_minute := auth;
          fail_open_on_redis_error := fail_open; allow_requests_without_ip := missing |}.

Definition read_security : Load SecurityConfig :=
  threshold ← u32_or u"LOCKOUT_THRESHOLD" 10;
  duration ← u64_or u"LOCKOUT_DURATION_SECS" 1800;
  reauth ← u64_or u"SENSITIVE_ACTION_REAUTH_SECS" 600;
  alerts ← bool_or u"NEW_DEVICE_ALERTS_ENABLED" true;
  links ← bool_or u"MAGIC_LINK_ENABLED" false;
  registrations ← u32_or u"REGISTRATIONS_PER_IP_PER_HOUR" 20;
  hours ← u32_or u"RESET_REVOKES_FACTORS_ADDED_HOURS" 72;
  mret {| lockout_threshold := threshold; lockout_duration_secs := duration;
          sensitive_action_reauth_secs := reauth; new_device_alerts := alerts; magic_links := links;
          registrations_per_ip_per_hour := registrations; reset_revokes_factors_added_hours := hours |}.

Definition read_mail : Load MailConfig :=
  host ← require u"SMTP_HOST";
  port ← u16_or u"SMTP_PORT" 587;
  username ← require u"SMTP_USERNAME";
  password ← require u"SMTP_PASSWORD";
  address ← require u"SMTP_FROM_ADDRESS";
  mret {| smtp := {| smtp_host := host; smtp_port := port; smtp_username := username; smtp_password := password;
                     from_name := string_or u"SMTP_FROM_NAME" u"auth-api"; from_address := address |};
          templates_dir := string_or u"MAIL_TEMPLATES_DIR" u"templates";
          default_locale := string_or u"MAIL_DEFAULT_LOCALE" u"en" |}.

Definition read_captcha (production : bool) : Load CaptchaConfig :=
  timeout ← u64_or u"CAPTCHA_TIMEOUT_SECS" 5;
  fail_open ← bool_or u"CAPTCHA_FAIL_OPEN" (negb production);
  mret {| captcha_secret := string_of u"CAPTCHA_SECRET";
          captcha_verify_url := string_or u"CAPTCHA_VERIFY_URL" u"https://hcaptcha.com/siteverify";
          captcha_timeout_secs := timeout; captcha_fail_open := fail_open;
          captcha_site_key := string_of u"CAPTCHA_SITE_KEY";
          expected_hostnames := default [] (csv u"CAPTCHA_EXPECTED_HOSTNAMES") |}.

Definition read_pwned : Load PwnedSettings :=
  enabled ← bool_or u"PWNED_PASSWORDS_ENABLED" true;
  timeout ← u64_or u"PWNED_PASSWORDS_TIMEOUT_MS" 1500;
  fail_open ← bool_or u"PWNED_PASSWORDS_FAIL_OPEN" true;
  mret {| pwned_switches := {| pwned_enabled := enabled; pwned_fail_open := fail_open |};
          pwned_api_url := string_or u"PWNED_PASSWORDS_URL" u"https://api.pwnedpasswords.com";
          pwned_timeout_ms := timeout |}.

Definition parsed_frontend : option Url := match url_parse frontend with Ok x => Some x | Err _ => None end.

Definition read_webauthn : WebauthnConfig :=
  {| rp_id := string_or u"WEBAUTHN_RP_ID" (default u"localhost" (parsed_frontend ≫= url_host_str));
     rp_name := default u"auth-api"
       (match string_of u"WEBAUTHN_RP_NAME" with Some x => Some x | None => string_of u"SMTP_FROM_NAME" end);
     rp_origins :=
       match string_of u"WEBAUTHN_ORIGINS" with
       | Some l => List.filter (fun o => negb (bool_decide (o = [])))
                     (map (fun o => trim_end_matches 47 (trim o)) (split_on 44 l))
       | None => match parsed_frontend with Some x => [url_origin x] | None => [] end
       end |}.

(** A page of the front end. *)
Definition frontend_page (key path : str) : str := string_or key (trim_end_matches 47 frontend ++ path).

Definition read_webhooks (production : bool) : Load WebhookSettings :=
  http ← bool_or u"WEBHOOK_ALLOW_HTTP" (negb production);
  private ← bool_or u"WEBHOOK_ALLOW_PRIVATE_NETWORKS" false;
  timeout ← u64_or u"WEBHOOK_TIMEOUT_MS" 5000;
  mret {| webhook_switches := {| allow_http := http; allow_private_networks := private |};
          webhook_timeout_ms := timeout |}.

Definition read_cors : Load CorsConfig :=
  credentials ← bool_or u"CORS_ALLOW_CREDENTIALS" true;
  mret {| allowed_origins := map trim (split_on 44 (string_or u"CORS_ALLOWED_ORIGINS" LOCALHOST));
          allow_credentials := credentials |}.

Definition read_cleanup : Load CleanupConfig :=
  interval ← u64_or u"CLEANUP_INTERVAL_SECS" 3600;
  sessions ← u32_or u"CLEANUP_SESSIONS_GRACE_DAYS" 7;
  tokens ← u32_or u"CLEANUP_TOKENS_GRACE_DAYS" 1;
  attempts ← u32_or u"CLEANUP_LOGIN_ATTEMPTS_RETENTION_DAYS" 90;
  recovery ← u32_or u"CLEANUP_RECOVERY_CODES_GRACE_DAYS" 7;
  unverified ← u32_or u"CLEANUP_UNVERIFIED_ACCOUNT_DAYS" 2;
  devices ← u32_or u"CLEANUP_KNOWN_DEVICE_DAYS" 90;
  deliveries ← u32_or u"CLEANUP_WEBHOOK_DELIVERY_DAYS" 7;
  mret {| interval_secs := interval; sessions_grace_days := sessions; tokens_grace_days := tokens;
          login_attempts_retention_days := attempts; recovery_codes_grace_days := recovery;
          unverified_accounts_retention_days := unverified; known_devices_retention_days := devices;
          webhook_deliveries_retention_days := deliveries |}.

Definition read_audit : Load AuditConfig :=
  months ← u32_or u"AUDIT_LOG_RETENTION_MONTHS" 12;
  days ← u32_or u"AUDIT_IP_RETENTION_DAYS" 90;
  mret {| retention_months := months; ip_retention_days := days |}.

Definition read_telemetry : Load TelemetryConfig :=
  ratio ← parse_or (fun s => if is_f64 s then Some s else None) u"OTEL_TRACES_SAMPLER_ARG" u"0.1";
  mret {| otlp_endpoint := option_map (trim_end_matches 47) (string_of u"OTEL_EXPORTER_OTLP_ENDPOINT");
          service_name := string_or u"OTEL_SERVICE_NAME" u"auth-api"; sample_ratio := ratio |}.

Definition read_log : Load LogConfig :=
  format ← parse_or parse_log_format u"LOG_FORMAT" Pretty;
  mret {| log_level := string_or u"LOG_LEVEL" u"info"; log_format := format |}.

Definition read_device_auth : Load DeviceSettings :=
  ttl ← u64_or u"DEVICE_AUTH_TTL_SECS" 300;
  interval ← u64_or u"DEVICE_AUTH_POLL_INTERVAL_SECS" 5;
  page ← require u"DEVICE_AUTH_VERIFICATION_URI";
  mret {| device_timing := {| device_ttl_secs := ttl; poll_interval_secs := interval; verification_uri := page |};
          consent_uri := frontend_page u"OAUTH_CONSENT_URI" u"/authorize" |}.

Definition read_metrics : Load MetricsConfig :=
  enabled ← bool_or u"METRICS_ENABLED" true;
  port ← u16_or u"METRICS_PORT" 9464;
  mret {| metrics_enabled := enabled;
          metrics_host := default u"0.0.0.0"
            (match string_of u"METRICS_HOST" with Some x => Some x | None => string_of u"SERVER_HOST" end);
          metrics_port := port; metrics_token := string_of u"METRICS_TOKEN" |}.

Definition from_lookup : Load Settings :=
  declared ← parse_var parse_environment u"APP_ENV";
  mode ← match declared with Some x => mret x | None => Err (Missing u"APP_ENV") end;
  let production := bool_decide (mode = Production) in
  server ← read_server;
  database ← read_database;
  redis ← read_redis;
  nats ← read_nats;
  jwt ← read_jwt;
  crypto ← read_crypto;
  rate_limit ← read_rate_limit production;
  security ← read_security;
  mail ← read_mail;
  captcha ← read_captcha production;
  pwned ← read_pwned;
  providers ← read_identity_providers;
  webhooks ← read_webhooks production;
  cors ← read_cors;
  cleanup ← read_cleanup;
  audit ← read_audit;
  telemetry ← read_telemetry;
  log ← read_log;
  device_auth ← read_device_auth;
  metrics ← read_metrics;
  mret {| env := mode; server := server; database := database; redis := redis; nats := nats; jwt := jwt;
          crypto := crypto; rate_limit := rate_limit; security := security; mail := mail; captcha := captcha;
          pwned_passwords := pwned; webauthn := read_webauthn; identity_providers := providers;
          external_login_uri := frontend_page u"EXTERNAL_LOGIN_URI" u"/external-login";
          webhooks := webhooks; cors := cors; cleanup := cleanup; audit := audit; telemetry := telemetry;
          log := log; device_auth := device_auth; metrics := metrics |}.
End Vars.

(** * Variables given as files *)

Section Files.
Context `{ConfigCrates} `{UrlCrate}.

(** The outcome of reading a file. *)
Inductive FileRead := Content (text : str) | NotFound | Unreadable.

Variable read : str -> FileRead.

Definition file_value (content : str) : str :=
  let value := default content (strip_suffix [10] content) in
  default value (strip_suffix [13] value).

(** The variables in the order the map gives them. *)
Fixpoint values_from_files (vars : gmap str str) (order : list (str * str)) (values : gmap str str) :
    Load (gmap str str) :=
  match order with
  | [] => mret values
  | (file_key, path) :: rest =>
      match strip_suffix u"_FILE" file_key with
      | None => values_from_files vars rest values
      | Some key =>
          if bool_decide (key = []) || blank path then values_from_files vars rest values
          else if match vars !! key with Some value => negb (blank value) | None => false end
          then invalid file_key
          else
            match read path with
            | Content content => values_from_files vars rest (<[key := file_value content]> values)
            | NotFound => values_from_files vars rest values
            | Unreadable => invalid file_key
            end
      end
  end.

Definition env_or_file (value from_file : option str) : option str :=
  match value with
  | Some value => if blank value then from_file else Some value
  | None => from_file
  end.

Definition from_env (vars : gmap str str) (order : list (str * str)) : Load Settings :=
  files ← values_from_files vars order ∅;
  from_lookup (fun key => env_or_file (vars !! key) (files !! key)).
End Files.
