(* ===== verification/Validation.v ===== *)
(** Startup validation (src/src/config/validate.rs, utils/nats.rs,
    [prepare_config] of state.rs): what a configuration must satisfy before
    anything is served, and what that gives the other components. *)
From S2P Require Import Prelude Crates Base64 Account OAuthDomain Network Crypto Tables App RedisCounter SessionRepo Repos Tokens UserRepo Refresh Login SecondFactor Settings.

Section Nats.
Context `{ConfigCrates} `{UrlCrate}.

(** * Credentials of the broker *)

Inductive NatsCredentials :=
| NoCredentials
| TokenCredentials (credential : str)
| UserPassword (user password : str).

#[export] Instance credentials_eq_dec : EqDecision NatsCredentials.
Proof. solve_decision. Defined.

Definition hex_digit (c : Z) : option Z :=
  if is_ascii_digit c then Some (c - 48)
  else if (97 <=? c) && (c <=? 102) then Some (c - 87)
  else if (65 <=? c) && (c <=? 70) then Some (c - 55)
  else None.

(** [u8::from_str_radix(h, 16)] of two bytes: a plus sign is allowed. *)
Definition hex_pair (a b : Z) : option Z :=
  if a =? 43 then hex_digit b
  else x ← hex_digit a; y ← hex_digit b; Some (16 * x + y).

Fixpoint percent_bytes (b : bytes) : option bytes :=
  match b with
  | [] => Some []
  | c :: rest =>
      if c =? 37 then
        match rest with
        | a :: b :: rest => x ← hex_pair a b; l ← percent_bytes rest; Some (x :: l)
        | _ => None
        end
      else l ← percent_bytes rest; Some (c :: l)
  end.

Definition percent_decode (raw : str) : option str := percent_bytes (as_bytes raw) ≫= from_utf8.

Definition split_credentials (url : str) : option (str * NatsCredentials) :=
  match url_parse url with
  | Err _ => None
  | Ok parsed =>
      if match url_host_str parsed with Some host => bool_decide (host = []) | None => true end then None
      else
        user ← percent_decode (url_username parsed);
        password ← match url_password parsed with
                   | Some raw => option_map Some (percent_decode raw)
                   | None => Some None
                   end;
        credentials ← match bool_decide (user = []), password with
                      | true, None => Some NoCredentials
                      | true, Some _ => None
                      | false, None => Some (TokenCredentials user)
                      | false, Some password => Some (UserPassword user password)
                      end;
        address ← url_without_user parsed;
        Some (address, credentials)
  end.

Fixpoint cluster (urls : list str) (addresses : list str) (shared : option NatsCredentials) :
    option (list str * option NatsCredentials) :=
  match urls with
  | [] => Some (addresses, shared)
  | url :: rest =>
      p ← split_credentials url;
      if match shared with Some seen => negb (bool_decide (seen = p.2)) | None => false end then None
      else cluster rest (addresses ++ [p.1]) (Some p.2)
  end.

Definition split_cluster (urls : str) : option (list str * NatsCredentials) :=
  p ← cluster (csv_items urls) [] None;
  credentials ← p.2;
  Some (p.1, credentials).
End Nats.

(** * Checks *)

Section Checks.
Context `{ConfigCrates} `{UrlCrate}.

Definition check (ok : bool) (key : str) : Load unit := if ok then mret tt else invalid key.

Definition DEV_JWT_PUBLIC_KEY_MARKER : str := u"MEjIGO1563lSVOpDzgW6Y9aI20lH".
Definition DEV_ENCRYPTION_KEYS : list str :=
  [u"AAECAwQFBgcICQoLDA0ODxAREhMUFRYXGBkaGxwdHh8="; u"AQIDBAUGBwgJCgsMDQ4PEBESExQVFhcYGRobHB0eHyA="].

Definition MIN_ARGON2_MEMORY_KIB : Z := 19456.
Definition MIN_ARGON2_ITERATIONS : Z := 2.
Definition MAX_RECOVERY_CODE_EXPIRY_DAYS : Z := 730.
Definition MIN_METRICS_TOKEN_LEN : Z := 32.
Definition MIN_LOCKOUT_DURATION_SECS : Z := 60.
Definition MAX_DEVICE_AUTH_TTL_SECS : Z := 1800.
Definition MIN_TRUSTED_PROXY_PREFIX_V4 : Z := 32.
Definition MIN_TRUSTED_PROXY_PREFIX_V6 : Z := 128.
Definition MAX_LOCKOUT_THRESHOLD : Z := 50.
Definition MAX_REQUESTS_PER_MINUTE : Z := 10000.
Definition MAX_SESSION_SECS : Z := 365 * 86400.
Definition MAX_REAUTH_WINDOW_SECS : Z := 900.
Definition ACCESS_EXPIRY_RANGE_SECS : Z * Z := (60, 3600).

Definition validate_jwt_keys (self : JwtSettings) : Load unit :=
  match signing_point (private_key self) with
  | None => invalid u"JWT_PRIVATE_KEY"
  | Some derived =>
      match verifying_point (public_key self) with
      | None => invalid u"JWT_PUBLIC_KEY"
      | Some verifying =>
          _ ← check (bool_decide (derived = verifying)) u"JWT_PUBLIC_KEY";
          _ ← check (match previous_public_key self with
                     | Some k => bool_decide (is_Some (verifying_point k)) | None => true end) u"JWT_PREVIOUS_PUBLIC_KEY";
          check (match next_public_key self with
                 | Some k => bool_decide (is_Some (verifying_point k)) | None => true end) u"JWT_NEXT_PUBLIC_KEY"
      end
  end.

(** How often each byte occurs. *)
Definition occurrences (b : Z) (l : bytes) : nat := length (List.filter (Z.eqb b) l).
Definition counts (decoded : bytes) : list nat :=
  List.filter (fun c => negb (c =? 0)%nat) (map (fun b => occurrences (Z.of_nat b) decoded) (seq 0 256)).

Definition product (l : list nat) : Z := foldr (fun c acc => Z.of_nat c ^ Z.of_nat c * acc) 1 l.

(** For 32 bytes the entropy of the counts is [5 - (sum of c * log2 c) / 32]
    bits, which is under 3 when the product of the [c ^ c] is over [2 ^ 64].  The
    code sums it in floating point: where the two sides differ they differ by
    more than [3e-4] bits, and where they are equal every count is a power of two
    and the sum is exact, so it decides the same. *)
Definition low_entropy (decoded : bytes) : bool := 2 ^ 64 <? product (counts decoded).

Definition validate_encryption_key (key_name value : str) : Load unit :=
  match base64_decode value with
  | None => invalid key_name
  | Some decoded =>
      _ ← check (bool_decide (length decoded = 32%nat)) key_name;
      check (negb (low_entropy decoded)) key_name
  end.

Definition validate_optional_encryption_key (key_name : str) (value : option str) : Load unit :=
  match value with Some value => validate_encryption_key key_name value | None => mret tt end.

(** [decoded.windows(2)] *)
Definition windows2 (l : bytes) : list (Z * Z) := zip l (tail l).

(** [w[1].wrapping_sub(w[0])] *)
Definition difference (w : Z * Z) : Z := (w.2 - w.1) mod 256.

Definition arithmetic_sequence (decoded : bytes) : bool :=
  let stride := match windows2 decoded with w :: _ => difference w | [] => 0 end in
  forallb (fun w => difference w =? stride) (windows2 decoded).

Definition validate_production_encryption_key (key_name value : str) : Load unit :=
  _ ← check (negb (contains DEV_ENCRYPTION_KEYS value)) key_name;
  match base64_decode value with
  | None => invalid key_name
  | Some decoded =>
      _ ← check (negb (forallb (fun b => (0x20 <=? b) && (b <=? 0x7e)) decoded)) key_name;
      check (negb (arithmetic_sequence decoded)) key_name
  end.

Definition validate_https_url (key value : str) : Load unit := check (starts_with u"https://" value) key.

Definition validate_jwt_audience (l : list str) (production : bool) : Load unit :=
  if bool_decide (l = []) then check (negb production) u"JWT_AUDIENCE"
  else check (forallb (fun value => negb (blank value)) l) u"JWT_AUDIENCE".

Definition validate_crypto (self : CryptoConfig) : Load unit :=
  _ ← check (negb (argon2_max_concurrency self =? 0)) u"ARGON2_MAX_CONCURRENCY";
  check (totp_skew self <=? MAX_TOTP_SKEW) u"TOTP_SKEW".

Definition validate_production_argon2 (self : CryptoConfig) : Load unit :=
  _ ← check (MIN_ARGON2_MEMORY_KIB <=? argon2_memory_kib self) u"ARGON2_MEMORY_KIB";
  _ ← check (MIN_ARGON2_ITERATIONS <=? argon2_iterations self) u"ARGON2_ITERATIONS";
  check (negb (argon2_parallelism self =? 0)) u"ARGON2_PARALLELISM".

Definition validate_production_ceilings (self : Settings) : Load unit :=
  _ ← check (lockout_threshold (security self) <=? MAX_LOCKOUT_THRESHOLD) u"LOCKOUT_THRESHOLD";
  _ ← check (requests_per_minute (rate_limit self) <=? MAX_REQUESTS_PER_MINUTE) u"RATE_LIMIT_RPM";
  _ ← check (auth_requests_per_minute (rate_limit self) <=? MAX_REQUESTS_PER_MINUTE) u"RATE_LIMIT_AUTH_RPM";
  _ ← check (refresh_expiry_secs (jwt_lifetimes (jwt self)) <=? MAX_SESSION_SECS) u"JWT_REFRESH_EXPIRY_SECS";
  _ ← check (max_session_lifetime_secs (jwt_lifetimes (jwt self)) <=? MAX_SESSION_SECS) u"JWT_MAX_SESSION_LIFETIME_SECS";
  _ ← check (negb (registrations_per_ip_per_hour (security self) =? 0)) u"REGISTRATIONS_PER_IP_PER_HOUR";
  _ ← check (pwned_enabled (pwned_switches (pwned_passwords self))) u"PWNED_PASSWORDS_ENABLED";
  check ((1 <=? recovery_code_expiry_days (crypto self)) &&
         (recovery_code_expiry_days (crypto self) <=? MAX_RECOVERY_CODE_EXPIRY_DAYS)) u"RECOVERY_CODE_EXPIRY_DAYS".

Definition weakened_settings (self : Settings) : list (str * str) :=
  (if magic_links (security self)
   then [(u"MAGIC_LINK_ENABLED", u"the mailbox alone signs in (a second factor still applies)")] else []) ++
  (if reset_revokes_factors_added_hours (security self) =? 0
   then [(u"RESET_REVOKES_FACTORS_ADDED_HOURS", u"factors planted by whoever held the password survive a reset")]
   else []) ++
  (if negb (new_device_alerts (security self))
   then [(u"NEW_DEVICE_ALERTS_ENABLED", u"owners are not told of sign-ins from new devices")] else []) ++
  (if retention_months (audit self) =? 0
   then [(u"AUDIT_LOG_RETENTION_MONTHS", u"the audit log, full addresses aside, is kept forever")] else []).

Definition validate_rate_limits (self : RateLimitConfig) : Load unit :=
  _ ← check (negb (requests_per_minute self =? 0)) u"RATE_LIMIT_RPM";
  check (negb (auth_requests_per_minute self =? 0)) u"RATE_LIMIT_AUTH_RPM".

Definition validate_security (self : SecurityConfig) : Load unit :=
  _ ← check (negb (lockout_threshold self =? 0)) u"LOCKOUT_THRESHOLD";
  _ ← check (MIN_LOCKOUT_DURATION_SECS <=? lockout_duration_secs self) u"LOCKOUT_DURATION_SECS";
  check (negb (sensitive_action_reauth_secs self =? 0) &&
         (sensitive_action_reauth_secs self <=? MAX_REAUTH_WINDOW_SECS)) u"SENSITIVE_ACTION_REAUTH_SECS".

Definition validate_device_auth (self : DeviceAuthConfig) : Load unit :=
  _ ← check (negb (device_ttl_secs self =? 0) && (device_ttl_secs self <=? MAX_DEVICE_AUTH_TTL_SECS))
        u"DEVICE_AUTH_TTL_SECS";
  _ ← check (negb (poll_interval_secs self =? 0)) u"DEVICE_AUTH_POLL_INTERVAL_SECS";
  check (poll_interval_secs self <? device_ttl_secs self) u"DEVICE_AUTH_POLL_INTERVAL_SECS".

Definition validate_session_lifetime (self : JwtConfig) : Load unit :=
  _ ← check (negb (max_session_lifetime_secs self =? 0)) u"JWT_MAX_SESSION_LIFETIME_SECS";
  _ ← check ((ACCESS_EXPIRY_RANGE_SECS.1 <=? access_expiry_secs self) &&
             (access_expiry_secs self <=? ACCESS_EXPIRY_RANGE_SECS.2)) u"JWT_ACCESS_EXPIRY_SECS";
  _ ← check (negb (short_session_expiry_secs self =? 0)) u"JWT_SHORT_SESSION_EXPIRY_SECS";
  check (short_session_expiry_secs self <=? refresh_expiry_secs self) u"JWT_REFRESH_EXPIRY_SECS".

Definition is_wildcard (origin : str) : bool := str_eqb origin u"*".

Definition validate_origin (production : bool) (origin : str) : Load unit :=
  match url_parse origin with
  | Err _ => invalid u"CORS_ALLOWED_ORIGINS"
  | Ok parsed =>
      _ ← check (negb (production && negb (str_eqb (url_scheme parsed) u"https"))) u"CORS_ALLOWED_ORIGINS";
      check (str_eqb origin (url_origin parsed) && header_value origin) u"CORS_ALLOWED_ORIGINS"
  end.

Fixpoint check_each {A} (f : A -> Load unit) (l : list A) : Load unit :=
  match l with
  | [] => mret tt
  | x :: rest => _ ← f x; check_each f rest
  end.

Definition validate_cors (self : CorsConfig) (production : bool) : Load unit :=
  let has_wildcard := existsb is_wildcard (allowed_origins self) in
  _ ← check (negb (bool_decide (allowed_origins self = []))) u"CORS_ALLOWED_ORIGINS";
  _ ← check (negb (has_wildcard && allow_credentials self)) u"CORS_ALLOWED_ORIGINS";
  _ ← check (negb (production && has_wildcard)) u"CORS_ALLOWED_ORIGINS";
  check_each (validate_origin production) (List.filter (fun o => negb (is_wildcard o)) (allowed_origins self)).

Definition url_has_password (url : str) : bool :=
  match url_parse url with
  | Ok parsed => match url_password parsed with Some p => negb (bool_decide (p = [])) | None => false end
  | Err _ => false
  end.

(** [domain::webauthn::origin_matches_rp] *)
Definition origin_host (origin : str) : option str :=
  match url_parse origin with Ok parsed => url_host_str parsed | Err _ => None end.

Definition origin_matches_rp (origin rp_id : str) : bool :=
  match origin_host origin with
  | Some host => str_eqb host rp_id || ends_with (u"." ++ rp_id) host
  | None => false
  end.

(** ** Production *)

Definition wide (cidr : IpNetwork) : bool :=
  net_prefix cidr <? match net_ip cidr with V4 _ => MIN_TRUSTED_PROXY_PREFIX_V4 | V6 _ => MIN_TRUSTED_PROXY_PREFIX_V6 end.

Definition provider_urls (p : IdentityProviderConfig) : list (str * str) :=
  match idp_kind p with
  | Oidc => [(u"ISSUER", idp_issuer p)]
  | Github => [(u"AUTHORIZATION_URL", idp_authorization_url p); (u"TOKEN_URL", idp_token_url p);
               (u"USER_URL", idp_user_url p)]
  end.

Definition validate_provider (p : IdentityProviderConfig) : Load unit :=
  check_each (fun '(suffix, url) =>
    validate_https_url (u"IDP_" ++ to_ascii_uppercase (idp_name p) ++ u"_" ++ suffix) url) (provider_urls p).

Definition validate_connection (c : str * option str) : Load unit :=
  check (match c.2 with Some url => url_has_password url | None => true end) c.1.

Definition without_blanks (s : str) : str := List.filter (fun c => negb (byte_in [10; 32; 9] c)) s.

Definition validate_production (self : Settings) (nats_credentials : NatsCredentials) : Load unit :=
  _ ← check (negb (has_substring DEV_JWT_PUBLIC_KEY_MARKER (without_blanks (public_key (jwt self))))) u"JWT_PUBLIC_KEY";
  _ ← validate_https_url u"APP_PUBLIC_URL" (public_url (server self));
  _ ← validate_https_url u"FRONTEND_URL" (frontend_url (server self));
  _ ← validate_https_url u"OAUTH_CONSENT_URI" (consent_uri (device_auth self));
  _ ← validate_https_url u"DEVICE_AUTH_VERIFICATION_URI" (verification_uri (device_timing (device_auth self)));
  _ ← check (negb (bool_decide (trusted_proxy_cidrs (server self) = []))) u"TRUSTED_PROXY_CIDRS";
  _ ← check (negb (existsb wide (trusted_proxy_cidrs (server self)))) u"TRUSTED_PROXY_CIDRS";
  _ ← validate_production_ceilings self;
  _ ← validate_production_argon2 (crypto self);
  _ ← validate_production_encryption_key u"ENCRYPTION_KEY" (encryption_key (crypto self));
  _ ← match previous_encryption_key (crypto self) with
      | Some previous => validate_production_encryption_key u"PREVIOUS_ENCRYPTION_KEY" previous
      | None => mret tt
      end;
  _ ← check (negb (bool_decide (rp_origins (webauthn self) = []) ||
        existsb (fun origin => negb (starts_with u"https://" origin) ||
                               negb (origin_matches_rp origin (rp_id (webauthn self)))) (rp_origins (webauthn self))))
        u"WEBAUTHN_ORIGINS";
  _ ← validate_https_url u"EXTERNAL_LOGIN_URI" (external_login_uri self);
  _ ← check_each validate_provider (identity_providers self);
  _ ← check (negb (allow_http (webhook_switches (webhooks self)))) u"WEBHOOK_ALLOW_HTTP";
  _ ← check (negb (allow_private_networks (webhook_switches (webhooks self)))) u"WEBHOOK_ALLOW_PRIVATE_NETWORKS";
  _ ← (if pwned_enabled (pwned_switches (pwned_passwords self))
       then validate_https_url u"PWNED_PASSWORDS_URL" (pwned_api_url (pwned_passwords self)) else mret tt);
  _ ← (if bool_decide (is_Some (captcha_secret (captcha self)))
       then validate_https_url u"CAPTCHA_VERIFY_URL" (captcha_verify_url (captcha self))
       else invalid u"CAPTCHA_SECRET");
  _ ← check (negb (bool_decide (smtp_username (smtp (mail self)) = []))) u"SMTP_USERNAME";
  _ ← check (negb (bool_decide (nats_credentials = NoCredentials))) u"NATS_URL";
  _ ← check (negb (metrics_enabled (metrics self) &&
               match metrics_token (metrics self) with
               | Some t => byte_len t <? MIN_METRICS_TOKEN_LEN | None => true end)) u"METRICS_TOKEN";
  _ ← check_each validate_connection
        [(u"DATABASE_URL", Some (database_url (database self))); (u"DATABASE_READ_URL", read_url (database self));
         (u"REDIS_URL", Some (redis_url (redis self)))];
  _ ← check (negb (fail_open_on_redis_error (rate_limit self))) u"RATE_LIMIT_FAIL_OPEN";
  _ ← check (negb (allow_requests_without_ip (rate_limit self))) u"RATE_LIMIT_ALLOW_MISSING_IP";
  _ ← check (negb (captcha_fail_open (captcha self))) u"CAPTCHA_FAIL_OPEN";
  check (strict_session_binding (jwt_lifetimes (jwt self))) u"JWT_STRICT_SESSION_BINDING".

Definition validate (self : Settings) : Load unit :=
  _ ← check (existsb (Z.eqb (stream_replicas (nats self))) [1; 3; 5]) u"NATS_STREAM_REPLICAS";
  _ ← validate_jwt_keys (jwt self);
  _ ← validate_encryption_key u"ENCRYPTION_KEY" (encryption_key (crypto self));
  _ ← validate_optional_encryption_key u"PREVIOUS_ENCRYPTION_KEY" (previous_encryption_key (crypto self));
  _ ← validate_cors (cors self) (is_production self);
  _ ← validate_security (security self);
  _ ← validate_device_auth (device_timing (device_auth self));
  _ ← validate_session_lifetime (jwt_lifetimes (jwt self));
  _ ← validate_crypto (crypto self);
  _ ← validate_rate_limits (rate_limit self);
  _ ← validate_jwt_audience (audience (jwt_lifetimes (jwt self))) (is_production self);
  match split_credentials (nats_url (nats self)) with
  | None => invalid u"NATS_URL"
  | Some (_, nats_credentials) =>
      if is_production self then validate_production self nats_credentials else mret tt
  end.

(** [state::prepare_config]: the configuration, changed in place, when it is
    accepted. *)
Definition prepare_config (self : Settings) : Load Settings :=
  let self := ensure_self_in_audience self in
  _ ← validate self;
  mret self.
End Checks.
