(* ===== verification/ValidationCorrect.v ===== *)
(** Theorems about the configuration: what a configuration that starts the
    service guarantees to the components that read it, what its keys are worth,
    how variables given as files are read, and a documented setting that is
    refused. *)
From S2P Require Import Prelude Crates Base64 Account OAuthDomain Network Crypto Tables App Outside RedisCounter SessionRepo Repos Tokens UserRepo Refresh Login SecondFactor Settings Validation.

(** * Reading a successful load backwards *)

Lemma load_bind_Ok {A B} (m : Load A) (k : A -> Load B) (b : B) :
  m ≫= k = Ok b -> exists a, m = Ok a /\ k a = Ok b.
Proof. destruct m as [a|e]; [|done]. intros E. by exists a. Qed.

Lemma check_Ok (b : bool) key x : check b key = Ok x -> b = true.
Proof. by destruct b. Qed.

Ltac unload H x R := apply load_bind_Ok in H as (x & R & H).

(** Every check passed. *)
Ltac checked H := repeat (let x := fresh "x" in let R := fresh "C" in unload H x R; apply check_Ok in R); apply check_Ok in H.

Section Bounds.
Context `{ConfigCrates} `{UrlCrate}.

Lemma digits_nonneg (s : str) acc : 0 <= acc -> forallb is_ascii_digit s = true ->
  0 <= foldl (fun acc c => 10 * acc + (c - 48)) acc s.
Proof.
  revert acc. induction s as [|c s IH]; intros acc Ha Hs; [done|]. cbn in Hs |- *. apply andb_prop in Hs as [Hc Hs].
  unfold is_ascii_digit in Hc. breflect. apply IH; [lia|done].
Qed.

Lemma parse_unsigned_bounds bits s n : parse_unsigned bits s = Some n -> 0 <= n < 2 ^ bits.
Proof.
  unfold parse_unsigned. set (digits := match s with 43 :: rest => rest | _ => s end).
  destruct (bool_decide _ || _) eqn:E; [done|]. apply orb_false_iff in E as [_ E]. apply negb_false_iff in E.
  case_cond; [|done]. intros [= <-]. breflect. split; [|done]. by apply digits_nonneg.
Qed.

Lemma parse_or_bounds lookup bits key d n :
  0 <= d < 2 ^ bits -> parse_or lookup (parse_unsigned bits) key d = Ok n -> 0 <= n < 2 ^ bits.
Proof.
  intros Hd R. unfold parse_or in R. unload R o R1. injection R as <-. unfold parse_var in R1.
  destruct (string_of lookup key); [|injection R1 as <-; done].
  destruct (parse_unsigned bits _) eqn:E; [|done]. injection R1 as <-. by apply parse_unsigned_bounds in E.
Qed.

Lemma u64_bounds lookup key d n : 0 <= d < 2 ^ 64 -> u64_or lookup key d = Ok n -> 0 <= n < 2 ^ 64.
Proof. apply parse_or_bounds. Qed.

Lemma u32_bounds lookup key d n : 0 <= d < 2 ^ 32 -> u32_or lookup key d = Ok n -> 0 <= n < 2 ^ 32.
Proof. apply parse_or_bounds. Qed.

Lemma u8_bounds lookup key d n : 0 <= d < 2 ^ 8 -> u8_or lookup key d = Ok n -> 0 <= n < 2 ^ 8.
Proof. apply parse_or_bounds. Qed.

(** The integers the services read fit their types. *)
Record in_range (self : Settings) : Prop := {
  ir_jwt : 0 <= access_expiry_secs (jwt_lifetimes (jwt self)) < 2 ^ 64 /\
    0 <= refresh_expiry_secs (jwt_lifetimes (jwt self)) < 2 ^ 64 /\
    0 <= short_session_expiry_secs (jwt_lifetimes (jwt self)) < 2 ^ 64 /\
    0 <= max_session_lifetime_secs (jwt_lifetimes (jwt self)) < 2 ^ 64;
  ir_crypto : 0 <= totp_skew (crypto self) < 2 ^ 8 /\ 0 <= recovery_code_expiry_days (crypto self) < 2 ^ 32;
  ir_security : 0 <= lockout_threshold (security self) < 2 ^ 32 /\ 0 <= lockout_duration_secs (security self) < 2 ^ 64 /\
    0 <= sensitive_action_reauth_secs (security self) < 2 ^ 64 /\
    0 <= registrations_per_ip_per_hour (security self) < 2 ^ 32 /\
    0 <= reset_revokes_factors_added_hours (security self) < 2 ^ 32;
  ir_device : 0 <= device_ttl_secs (device_timing (device_auth self)) < 2 ^ 64 /\
    0 <= poll_interval_secs (device_timing (device_auth self)) < 2 ^ 64;
  ir_rate : 0 <= requests_per_minute (rate_limit self) < 2 ^ 64 /\ 0 <= auth_requests_per_minute (rate_limit self) < 2 ^ 64;
}.

Ltac parts R := repeat (let x := fresh "v" in let R1 := fresh "R" in unload R x R1).
Ltac ranged := split_and!; first [eapply u64_bounds; [|eassumption]; done | eapply u32_bounds; [|eassumption]; done
  | eapply u8_bounds; [|eassumption]; done].

Lemma loaded_in_range lookup s : from_lookup lookup = Ok s -> in_range s.
Proof.
  unfold from_lookup. intros R. parts R. injection R as <-.
  split; cbn [jwt crypto security device_auth rate_limit].
  - match goal with E : read_jwt lookup = _ |- _ => unfold read_jwt in E; parts E; injection E as <- end. ranged.
  - match goal with E : read_crypto lookup = _ |- _ => unfold read_crypto in E; parts E; injection E as <- end. ranged.
  - match goal with E : read_security lookup = _ |- _ => unfold read_security in E; parts E; injection E as <- end. ranged.
  - match goal with E : read_device_auth lookup = _ |- _ => unfold read_device_auth in E; parts E; injection E as <- end. ranged.
  - match goal with E : read_rate_limit lookup _ = _ |- _ => unfold read_rate_limit in E; parts E; injection E as <- end. ranged.
Qed.
End Bounds.

(** * Keys *)

Section Keys.
Context `{ConfigCrates} `{UrlCrate}.

(** ** Entropy *)

(** The least product of the [c ^ c] of [k] counts that sum to [n], for [n] up to
    [size]. *)
Definition least_of (previous : list (option Z)) (n : nat) : option Z :=
  foldr (fun c best =>
    match nth (n - c) previous None with
    | Some p => let q := Z.of_nat c ^ Z.of_nat c * p in
                Some (match best with Some b => Z.min b q | None => q end)
    | None => best
    end) None (seq 1 n).

Fixpoint least (k size : nat) : list (option Z) :=
  match k with
  | O => Some 1 :: repeat None size
  | S k => let previous := least k size in map (least_of previous) (seq 0 (S size))
  end.

Lemma least_le previous n c p :
  (0 < c <= n)%nat -> nth (n - c) previous None = Some p ->
  exists q, least_of previous n = Some q /\ q <= Z.of_nat c ^ Z.of_nat c * p.
Proof.
  intros Hc Hp. unfold least_of. assert (In c (seq 1 n)) as Hin by (apply in_seq; lia).
  revert Hin. generalize (seq 1 n). induction l as [|c' l IH]; [done|]. intros [<-|Hin].
  - cbn [foldr]. rewrite Hp. eexists. split; [done|]. case_match; lia.
  - destruct (IH Hin) as (q & Eq & Hq). cbn [foldr]. rewrite Eq. destruct (nth (n - c') previous None).
    + eexists. split; [done|]. lia.
    + eauto.
Qed.

Lemma product_least size l :
  Forall (fun c => 0 < c)%nat l -> (sum_list l <= size)%nat ->
  exists p, nth (sum_list l) (least (length l) size) None = Some p /\ p <= product l.
Proof.
  intros Hl. induction Hl as [|c l Hc _ IH]; intros Hs; [by exists 1|]. cbn in Hs.
  destruct IH as (p & Hp & Hle); [lia|].
  destruct (least_le (least (length l) size) (c + sum_list l) c p) as (q & Hq & Hqp);
    [lia|by replace (c + sum_list l - c)%nat with (sum_list l) by lia|].
  exists q. split.
  - cbn [length least]. rewrite (nth_indep _ None (least_of (least (length l) size) 0)), map_nth, seq_nth
      by (rewrite ?length_map, ?length_seq; cbn; lia). exact Hq.
  - change (q <= Z.of_nat c ^ Z.of_nat c * product l). etrans; [exact Hqp|].
    apply Z.mul_le_mono_nonneg_l; [apply Z.pow_nonneg; lia|done].
Qed.

(** How many different bytes there are. *)
Definition distinct (l : bytes) : nat := length (counts l).

Lemma counts_positive l : Forall (fun c => 0 < c)%nat (counts l).
Proof.
  unfold counts. apply Forall_forall. intros c Hc. apply list_elem_of_In, filter_In in Hc as [_ Hc].
  apply negb_true_iff, Nat.eqb_neq in Hc. lia.
Qed.

Lemma sum_filter_nonzero (l : list nat) : sum_list (List.filter (fun c => negb (c =? 0)%nat) l) = sum_list l.
Proof. induction l as [|c l IH]; [done|]. cbn. destruct (c =? 0)%nat eqn:E; cbn; [apply Nat.eqb_eq in E; lia|lia]. Qed.

Lemma sum_occurrences_one (b : nat) (l : list nat) (x : Z) :
  NoDup l -> x = Z.of_nat b -> b ∈ l -> sum_list (map (fun i => if Z.of_nat i =? x then 1%nat else 0%nat) l) = 1%nat.
Proof.
  intros Hn ->. induction Hn as [|a l Ha Hn IH]; intros Hb; [by apply elem_of_nil in Hb|]. cbn.
  apply elem_of_cons in Hb as [<-|Hb].
  - rewrite Z.eqb_refl. enough (sum_list (map (fun i => if Z.of_nat i =? Z.of_nat b then 1%nat else 0%nat) l) = 0%nat) by lia.
    clear IH Hn. induction l as [|c l IH]; [done|]. apply not_elem_of_cons in Ha as [Hne Ha]. cbn.
    rewrite (proj2 (Z.eqb_neq _ _)) by lia. cbn. by apply IH.
  - rewrite (proj2 (Z.eqb_neq _ _)); [by apply IH|]. intros ?%Nat2Z.inj. by subst.
Qed.

Lemma sum_counts l : Forall is_byte l -> sum_list (counts l) = length l.
Proof.
  intros Hl. unfold counts. rewrite sum_filter_nonzero. induction Hl as [|x l Hx _ IH].
  - unfold occurrences. cbn [List.filter length]. generalize (seq 0 256). intros l. induction l as [|y l IH]; [done|]. exact IH.
  - assert (forall bs, sum_list (map (fun b => occurrences (Z.of_nat b) (x :: l)) bs) =
      Nat.add (sum_list (map (fun i => if Z.of_nat i =? x then 1%nat else 0%nat) bs))
       (sum_list (map (fun b => occurrences (Z.of_nat b) l) bs))) as Hcons.
    { clear. intros bs. induction bs as [|b bs IH]; [done|]. cbn [map sum_list_with]. rewrite IH.
      unfold occurrences at 1 3. cbn [List.filter]. unfold id. destruct (Z.of_nat b =? x); cbn [length]; lia. }
    rewrite Hcons, IH, (sum_occurrences_one (Z.to_nat x)); [done|apply NoDup_ListNoDup, seq_NoDup|..];
      unfold is_byte in Hx; [lia|apply elem_of_seq; lia].
Qed.

Lemma seven_counts :
  forallb (fun k => match nth 32 (least k 32) None with Some p => 2 ^ 64 <? p | None => true end) (seq 0 8) = true.
Proof. vm_compute. reflexivity. Qed.

Lemma few_counts k p : (k <= 7)%nat -> nth 32 (least k 32) None = Some p -> 2 ^ 64 < p.
Proof.
  intros Hk Hp. pose proof seven_counts as Hall. rewrite forallb_forall in Hall.
  specialize (Hall k ltac:(apply in_seq; lia)). rewrite Hp in Hall. by apply Z.ltb_lt in Hall.
Qed.

Lemma few_bytes_low_entropy l :
  Forall is_byte l -> length l = 32%nat -> (distinct l <= 7)%nat -> low_entropy l = true.
Proof.
  intros Hb Hl. unfold distinct, low_entropy. pose proof (sum_counts l Hb) as Hs. rewrite Hl in Hs.
  pose proof (counts_positive l) as Hp. revert Hs Hp. generalize (counts l). intros cs Hs Hp Hd.
  destruct (product_least 32 cs Hp) as (p & Ep & Hle); [lia|]. rewrite Hs in Ep. apply Z.ltb_lt.
  eapply Z.lt_le_trans; [|exact Hle]. by eapply few_counts.
Qed.

(** ** Progressions *)

Lemma windows_lookup (l : bytes) i x y : l !! i = Some x -> l !! S i = Some y -> windows2 l !! i = Some (x, y).
Proof. intros Hx Hy. unfold windows2. apply lookup_zip_with_Some. exists x, y. destruct l; [done|]. by split_and!. Qed.

Lemma arithmetic_sequence_spec l :
  Forall is_byte l ->
  arithmetic_sequence l = true <-> exists a d, forall i b, l !! i = Some b -> b = (a + Z.of_nat i * d) mod 256.
Proof.
  intros Hl. assert (forall x, is_byte x -> x mod 256 = x) as Hm by (intros x Hx; by apply Z.mod_small).
  unfold arithmetic_sequence. rewrite forallb_forall. split.
  - intros Hw. destruct l as [|a l0] eqn:El; [by exists 0, 0|]. rewrite <- El in *.
    set (d := match windows2 l with w :: _ => difference w | [] => 0 end) in *. exists a, d.
    intros i. induction i as [|i IH]; intros b Hb.
    + rewrite El in Hb. injection Hb as <-. rewrite Z.add_0_r, Hm; [done|]. rewrite El in Hl. by apply Forall_cons in Hl as [? _].
    + assert (is_Some (l !! i)) as [x Hx] by (apply lookup_lt_is_Some; apply lookup_lt_Some in Hb; lia).
      pose proof (windows_lookup l i x b Hx Hb) as Hp. apply list_elem_of_lookup_2, list_elem_of_In, Hw in Hp.
      apply Z.eqb_eq in Hp. unfold difference in Hp. cbn in Hp. rewrite (IH x Hx) in Hp.
      rewrite Forall_lookup in Hl. rewrite <- (Hm b (Hl _ _ Hb)).
      replace (a + Z.of_nat (S i) * d) with ((a + Z.of_nat i * d) + d) by lia.
      rewrite <- (Z.add_mod_idemp_l (a + Z.of_nat i * d)) by done. revert Hp.
      generalize ((a + Z.of_nat i * d) mod 256). intros m Hp. rewrite <- Hp, Zplus_mod_idemp_r. f_equal. lia.
  - intros (a & d & Had) w Hw. apply list_elem_of_In, list_elem_of_lookup in Hw as [i Hi].
    assert (forall j v, windows2 l !! j = Some v -> difference v = d mod 256) as Hall.
    { intros j v Hj. unfold windows2 in Hj. apply lookup_zip_with_Some in Hj as (x & y & -> & Hx & Hy).
      assert (l !! S j = Some y) as Hy' by (by destruct l). unfold difference. cbn.
      rewrite (Had _ _ Hx), (Had _ _ Hy'), <- Zminus_mod. f_equal. lia. }
    rewrite (Hall i w Hi). destruct (windows2 l) as [|v vs] eqn:Ew; [done|]. apply Z.eqb_eq. symmetry. by apply (Hall 0%nat).
Qed.
End Keys.

(** * What a configuration that starts guarantees *)

Section Served.
Context `{ConfigCrates} `{UrlCrate}.

(** An encryption key: 32 bytes, of eight values at least. *)
Definition strong_key (value : str) : Prop :=
  exists key, base64_decode value = Some key /\ length key = 32%nat /\ (8 <= distinct key)%nat.

(** What the services rely on, in the words of their theorems. *)
Record served (self : Settings) (c : Config) : Prop := {
  sv_range : in_range self;
  sv_issuer : cfg_public_url c <> [] -> cfg_public_url c ∈ audience (cfg_jwt c);
  sv_lifetimes : 60 <= access_expiry_secs (cfg_jwt c) <= 3600 /\
    0 < short_session_expiry_secs (cfg_jwt c) <= refresh_expiry_secs (cfg_jwt c) /\ 0 < max_session_lifetime_secs (cfg_jwt c);
  sv_lockout : 0 < lockout_threshold (cfg_security c) /\ 60 <= lockout_duration_secs (cfg_security c);
  sv_reauth : 0 < sensitive_action_reauth_secs (cfg_security c) <= 900;
  sv_device : 0 < poll_interval_secs (cfg_device_auth c) < device_ttl_secs (cfg_device_auth c) /\
    device_ttl_secs (cfg_device_auth c) <= 1800;
  sv_totp : 0 <= cfg_totp_skew c <= MAX_TOTP_SKEW;
  sv_keys : strong_key (encryption_key (crypto self)) /\
    forall previous, previous_encryption_key (crypto self) = Some previous -> strong_key previous;
  sv_pair : exists point, signing_point (private_key (jwt self)) = Some point /\ verifying_point (public_key (jwt self)) = Some point;
}.

(** The decoded key is not a progression, nor text, nor published. *)
Definition secret_key (value : str) : Prop :=
  value ∉ DEV_ENCRYPTION_KEYS /\
  forall key, base64_decode value = Some key ->
    (~ exists a d, forall i b, key !! i = Some b -> b = (a + Z.of_nat i * d) mod 256) /\
    exists b, b ∈ key /\ ~ 0x20 <= b <= 0x7e.

Record hardened (self : Settings) (c : Config) : Prop := {
  hd_issuer : starts_with u"https://" (cfg_public_url c) = true /\ cfg_public_url c ∈ audience (cfg_jwt c);
  hd_binding : strict_session_binding (cfg_jwt c) = true;
  hd_lockout : lockout_threshold (cfg_security c) <= 50 /\ 0 < registrations_per_ip_per_hour (cfg_security c);
  hd_captcha : is_Some (cfg_captcha_secret c) /\ captcha_fail_open (captcha self) = false;
  hd_pwned : pwned_enabled (cfg_pwned c) = true;
  hd_recovery : 1 <= cfg_recovery_code_expiry_days c <= 730;
  hd_webhooks : allow_http (cfg_webhooks c) = false /\ allow_private_networks (cfg_webhooks c) = false;
  hd_limits : fail_open_on_redis_error (rate_limit self) = false /\ allow_requests_without_ip (rate_limit self) = false /\
    requests_per_minute (rate_limit self) <= 10000 /\ auth_requests_per_minute (rate_limit self) <= 10000;
  hd_proxies : trusted_proxy_cidrs (server self) <> [] /\
    forall n, n ∈ trusted_proxy_cidrs (server self) -> ip_width (net_ip n) <= net_prefix n;
  hd_origins : forall o, o ∈ rp_origins (cfg_webauthn c) ->
    starts_with u"https://" o = true /\ origin_matches_rp o (rp_id (cfg_webauthn c)) = true;
  hd_keys : secret_key (encryption_key (crypto self)) /\
    forall previous, previous_encryption_key (crypto self) = Some previous -> secret_key previous;
  hd_argon2 : MIN_ARGON2_MEMORY_KIB <= argon2_memory_kib (crypto self) /\
    MIN_ARGON2_ITERATIONS <= argon2_iterations (crypto self);
  hd_stores : url_has_password (database_url (database self)) = true /\ url_has_password (redis_url (redis self)) = true;
}.

Lemma strong_key_Ok name value x : validate_encryption_key name value = Ok x -> strong_key value.
Proof.
  unfold validate_encryption_key, strong_key. destruct (base64_decode value) as [key|] eqn:Eb; [|done]. intros R.
  checked R. apply bool_decide_eq_true in C. exists key. split_and!; [done|done|].
  destruct (Nat.le_gt_cases (distinct key) 7) as [Hd|Hd]; [|lia].
  by rewrite few_bytes_low_entropy in R by (by eauto using base64_bytes).
Qed.

Lemma secret_key_Ok name value x : validate_production_encryption_key name value = Ok x -> secret_key value.
Proof.
  unfold validate_production_encryption_key, secret_key. intros R. unload R y C. apply check_Ok, negb_true_iff in C.
  apply bool_decide_eq_false in C. split; [done|]. intros key Hk. rewrite Hk in R. checked R. apply negb_true_iff in C0, R.
  split.
  - intros Hp. apply arithmetic_sequence_spec in Hp; [congruence|by eapply base64_bytes].
  - assert (~ Forall (fun b => (0x20 <=? b) && (b <=? 0x7e) = true) key) as Hn.
    { intros HF. apply not_true_iff_false in C0. apply C0, forallb_forall. intros b Hb.
      rewrite Forall_forall in HF. by apply HF, list_elem_of_In. }
    apply not_Forall_Exists in Hn; [|intros ?; apply _]. apply Exists_exists in Hn as (b & Hb & Hnot).
    exists b. split; [done|]. intros Hr. apply Hnot. apply andb_true_intro. split; apply Z.leb_le; lia.
Qed.

Lemma self_in_audience self :
  let self' := ensure_self_in_audience self in
  public_url (server self') = public_url (server self) /\
  (public_url (server self') <> [] -> public_url (server self') ∈ audience (jwt_lifetimes (jwt self'))).
Proof.
  cbn zeta. unfold ensure_self_in_audience. case_bool_decide as He; [by split|]. cbn [orb].
  destruct (existsb _ _) eqn:Ex; (split; [done|]); intros _.
  - apply existsb_exists in Ex as (a & Ha & Heq). apply bool_decide_eq_true in Heq as ->. by apply list_elem_of_In.
  - cbn. apply elem_of_app. right. by apply list_elem_of_singleton.
Qed.

Lemma in_range_audience self l : in_range self -> in_range (set_audience l self).
Proof. by intros []. Qed.

(** The checks one by one. *)
Record validated (self : Settings) : Prop := {
  vd_pair : exists point, signing_point (private_key (jwt self)) = Some point /\ verifying_point (public_key (jwt self)) = Some point;
  vd_key : strong_key (encryption_key (crypto self));
  vd_previous : forall previous, previous_encryption_key (crypto self) = Some previous -> strong_key previous;
  vd_security : validate_security (security self) = Ok tt;
  vd_device : validate_device_auth (device_timing (device_auth self)) = Ok tt;
  vd_lifetime : validate_session_lifetime (jwt_lifetimes (jwt self)) = Ok tt;
  vd_crypto : validate_crypto (crypto self) = Ok tt;
  vd_production : env self = Production -> exists credentials, validate_production self credentials = Ok tt;
}.

Lemma validate_Ok self x : validate self = Ok x -> validated self.
Proof.
  unfold validate. intros R. unload R x1 K1. unload R x2 K2. unload R x3 K3. unload R x4 K4. unload R x5 K5.
  unload R x6 K6. unload R x7 K7. unload R x8 K8. unload R x9 K9. unload R x10 K10. unload R x11 K11.
  destruct x6, x7, x8, x9. split; try done.
  - unfold validate_jwt_keys in K2. destruct (signing_point _) as [point|]; [|done].
    destruct (verifying_point (public_key _)) as [point'|]; [|done]. exists point. checked K2.
    apply bool_decide_eq_true in C as ->. done.
  - by eapply strong_key_Ok.
  - intros previous Hp. rewrite Hp in K4. by eapply strong_key_Ok.
  - intros Hprod. destruct (split_credentials _) as [[address credentials]|]; [|done]. exists credentials.
    unfold is_production in R. rewrite bool_decide_true in R by done. by destruct x.
Qed.

Lemma served_Ok self : in_range self -> validated self ->
  (public_url (server self) <> [] -> public_url (server self) ∈ audience (jwt_lifetimes (jwt self))) ->
  served self (services_config self).
Proof.
  intros Hr [Vp Vk Vo Vs Vd Vl Vc _] Ha. pose proof Hr as [Hj Hc Hs Hd _].
  unfold validate_security in Vs. unfold validate_device_auth in Vd. unfold validate_session_lifetime in Vl.
  unfold validate_crypto in Vc. checked Vs. checked Vd. checked Vl. checked Vc. breflect.
  unfold MIN_LOCKOUT_DURATION_SECS, MAX_REAUTH_WINDOW_SECS, MAX_DEVICE_AUTH_TTL_SECS in *. cbn [ACCESS_EXPIRY_RANGE_SECS fst snd] in C4.
  split; cbn; try done; lia.
Qed.

Lemma check_each_Ok {A} (f : A -> Load unit) l x : check_each f l = Ok x -> forall y, y ∈ l -> f y = Ok tt.
Proof.
  induction l as [|a l IH]; cbn; intros R y Hy; [by apply elem_of_nil in Hy|]. unload R z R1. destruct z.
  apply elem_of_cons in Hy as [->|Hy]; [done|by apply IH].
Qed.

Lemma all_but (p : IpNetwork -> bool) l n : existsb p l = false -> n ∈ l -> p n = false.
Proof.
  intros Hn Hin. destruct (p n) eqn:E; [|done].
  rewrite <- Hn. symmetry. apply existsb_exists. exists n. split; [by apply list_elem_of_In|done].
Qed.

Lemma hardened_Ok self credentials x : in_range self -> validate_production self credentials = Ok x ->
  (public_url (server self) <> [] -> public_url (server self) ∈ audience (jwt_lifetimes (jwt self))) ->
  hardened self (services_config self).
Proof.
  intros Hr R Ha. pose proof (ir_security _ Hr) as Hs. unfold validate_production in R.
  unload R z1 K1. unload R z2 K2. apply check_Ok in K2. unload R z3 K3. unload R z4 K4. unload R z5 K5.
  unload R z6 K6. apply check_Ok, negb_true_iff, bool_decide_eq_false in K6. unload R z7 K7. apply check_Ok in K7.
  unload R z8 K8. unfold validate_production_ceilings in K8. checked K8.
  unload R z9 K9. unfold validate_production_argon2 in K9. checked K9.
  unload R z10 K10. apply secret_key_Ok in K10. unload R z11 K11. unload R z12 K12. apply check_Ok, negb_true_iff, orb_false_iff in K12 as [_ K12].
  unload R z13 K13. unload R z14 K14. unload R z15 K15. apply check_Ok, negb_true_iff in K15.
  unload R z16 K16. apply check_Ok, negb_true_iff in K16. unload R z17 K17. unload R z18 K18. unload R z19 K19.
  unload R z20 K20. unload R z21 K21. unload R z22 K22. unload R z23 K23. apply check_Ok, negb_true_iff in K23.
  unload R z24 K24. apply check_Ok, negb_true_iff in K24. unload R z25 K25. apply check_Ok, negb_true_iff in K25.
  apply check_Ok in R. breflect. unfold MAX_LOCKOUT_THRESHOLD, MAX_REQUESTS_PER_MINUTE, MAX_RECOVERY_CODE_EXPIRY_DAYS in *.
  split; cbn; try done; try lia.
  - split; [done|]. apply Ha. intros E. by rewrite E in K2.
  - split; [|done]. destruct (captcha_secret (captcha self)); [by eexists|].
    by rewrite bool_decide_false in K18 by (by intros []).
  - split; [done|]. intros n Hn. apply (all_but wide) with (n := n) in K7; [|done]. unfold wide in K7. apply Z.ltb_ge in K7.
    by destruct (net_ip n).
  - intros o Ho. destruct (starts_with u"https://" o && origin_matches_rp o (rp_id (webauthn self))) eqn:E;
      [by apply andb_prop in E|]. exfalso. apply not_true_iff_false in K12. apply K12, existsb_exists. exists o.
    split; [by apply list_elem_of_In|]. by rewrite <- negb_andb, E.
  - split; [done|]. intros previous Hp. rewrite Hp in K11. by eapply secret_key_Ok.
  - split; [apply (check_Ok _ u"DATABASE_URL" tt)|apply (check_Ok _ u"REDIS_URL" tt)];
      [refine (check_each_Ok _ _ _ K22 (u"DATABASE_URL", Some _) _)|refine (check_each_Ok _ _ _ K22 (u"REDIS_URL", Some _) _)]; repeat first [apply list_elem_of_here | apply list_elem_of_further].
Qed.

End Served.

(** * A cluster of brokers *)

(** What the URL standard says of ports: after the host, anything but digits is a
    failure. *)
Definition plain (s : str) : bool := forallb (fun c => is_ascii_alphanumeric c || byte_in u".-_" c) s.

Class UrlPorts `{UrlCrate} :=
  url_bad_port : forall scheme user host port rest,
    plain scheme = true -> plain user = true -> plain host = true ->
    existsb (fun c => negb (is_ascii_digit c)) port = true -> existsb (byte_in u"/\?#@") port = false ->
    exists e, url_parse (scheme ++ u"://" ++ user ++ u"@" ++ host ++ u":" ++ port ++ u"/" ++ rest) = Err e.

(** The brokers of docs/deploy/guides/high-availability.md, two of them. *)
Definition CLUSTER_URL : str := u"nats://token@10.0.3.11:4222,nats://token@10.0.3.12:4222".

Section Cluster.
Context `{ConfigCrates} `{UrlCrate} `{!UrlPorts}.

Lemma cluster_no_url : exists e, url_parse CLUSTER_URL = Err e.
Proof.
  apply (url_bad_port u"nats" u"token" u"10.0.3.11" u"4222,nats:" u"/token@10.0.3.12:4222"); vm_compute; reflexivity.
Qed.

(** A list of brokers, documented and understood by [split_cluster] when the
    service connects, is refused before: validation reads it as one URL. *)
Theorem cluster_url_refused self : nats_url (nats self) = CLUSTER_URL -> exists e, validate self = Err e.
Proof.
  intros Hn. destruct (validate self) as [x|e] eqn:R; [|by exists e]. exfalso. unfold validate in R.
  do 11 (let y := fresh "y" in let R1 := fresh "R" in unload R y R1). rewrite Hn in R. unfold split_credentials in R.
  destruct cluster_no_url as [e He]. by rewrite He in R.
Qed.
End Cluster.

(** * Instances and witnesses *)

(** Absolute URLs with an authority. *)
Definition parse_text (s : str) : result Url str :=
  match split_once 58 s with
  | Some (scheme, rest) =>
      match strip_prefix u"//" rest with
      | Some body =>
          let authority := List.hd [] (split_on 47 body) in
          let '(info, hostport) := default ([], authority) (rsplit_once 64 authority) in
          let '(user, password) :=
            match split_once 58 info with Some (a, b) => (a, Some b) | None => (info, None) end in
          let '(host, port) := default (hostport, []) (split_once 58 hostport) in
          if forallb is_ascii_digit port then
            Ok {| url_scheme := scheme; url_host_str := Some host; url_username := user; url_password := password;
                  url_fragment := None; url_port := parse_unsigned 16 port;
                  url_path := u"/" ++ join u"/" (tail (split_on 47 body)); url_query := None; url_as_str := s |}
          else Err u"invalid port number"
      | None => Err u"relative URL without a base"
      end
  | None => Err u"relative URL without a base"
  end.

Definition text_url : UrlCrate.
Proof.
  refine {|
    url_parse := parse_text;
    url_append_pairs x ps :=
      match parse_text x with
      | Ok _ => Some (x ++ u"?" ++ join u"&" (map (fun p => p.1 ++ u"=" ++ p.2) ps))
      | Err _ => None
      end;
    parse_ip := parse_ipv4;
  |}.
  intros x ps. destruct (parse_text x); split; [eauto|eauto|by intros []|by intros []].
Defined.

Definition host_and_port (x : Url) : str :=
  default [] (url_host_str x) ++ match url_port x with Some n => u":" ++ to_string n | None => [] end.

Definition toy_base64 (s : str) : option bytes :=
  b ← b64url_decode (trim_end_matches 61 (map (fun c => if c =? 43 then 45 else if c =? 47 then 95 else c) s));
  if forallb (fun x => (0 <=? x) && (x <? 256)) b then Some b else None.

Definition toy_config_crates : ConfigCrates.
Proof.
  refine {|
    parse_network s := option_map (fun ip => {| net_ip := ip; net_prefix := 32 |}) (parse_ipv4 s);
    url_origin x := url_scheme x ++ u"://" ++ host_and_port x;
    url_without_user x := Some (url_scheme x ++ u"://" ++ host_and_port x);
    header_value := forallb (fun c => (32 <=? c) && (c <? 127));
    base64_decode := toy_base64;
    signing_point := strip_prefix u"private:";
    verifying_point := strip_prefix u"public:";
    available_parallelism := Some 8;
  |}.
  intros s b. unfold toy_base64. destruct (b64url_decode _) as [l|]; [|done]. cbn. case_match eqn:E; [|done].
  intros [= <-]. rewrite forallb_forall in E. apply Forall_forall. intros x Hx%list_elem_of_In%E.
  unfold is_byte. breflect. lia.
Defined.

Lemma plain_not (s : str) c : plain s = true -> is_ascii_alphanumeric c || byte_in u".-_" c = false -> c ∉ s.
Proof. unfold plain. rewrite forallb_forall. intros Hs Hc Hin. apply list_elem_of_In, Hs in Hin. congruence. Qed.

Lemma rsplit_once_app c (a b : str) : c ∉ b -> rsplit_once c (a ++ c :: b) = Some (a, b).
Proof.
  intros Hn. unfold rsplit_once. rewrite reverse_app, reverse_cons, <- app_assoc. cbn.
  rewrite split_once_app by (by rewrite elem_of_reverse). by rewrite !reverse_involutive.
Qed.

Lemma split_on_hd c (a b : str) : c ∉ a -> List.hd [] (split_on c (a ++ c :: b)) = a.
Proof.
  induction a as [|x a IH]; intros Hn; cbn; [by rewrite Z.eqb_refl|]. apply not_elem_of_cons in Hn as [Hx Hn].
  rewrite (proj2 (Z.eqb_neq x c)) by done. specialize (IH Hn).
  destruct (split_on c (a ++ c :: b)) as [|y l] eqn:E; cbn in *; [|by rewrite IH].
  exfalso. destruct a; cbn in E; repeat case_match; done.
Qed.

Definition text_ports : UrlPorts (H := text_url).
Proof.
  intros scheme user host port rest Hs Hu Hh Hp Hn. exists u"invalid port number". cbn [url_parse text_url]. unfold parse_text.
  assert (forall c, c ∈ u"/\?#@" -> c ∉ port) as Hport.
  { intros c Hc Hin. rewrite <- not_true_iff_false in Hn. apply Hn, existsb_exists. exists c.
    split; [by apply list_elem_of_In|by apply bool_decide_eq_true]. }
  assert (forall c s, plain s = true -> c ∈ u":/@" -> c ∉ s) as Hplain.
  { intros c s Hps Hc. apply plain_not; [done|]. repeat (apply elem_of_cons in Hc as [->|Hc]; [reflexivity|]). by apply elem_of_nil in Hc. }
  assert (47 ∈ u":/@" /\ 58 ∈ u":/@" /\ 64 ∈ u":/@" /\ 47 ∈ u"/\?#@" /\ 64 ∈ u"/\?#@") as (M1 & M2 & M3 & M4 & M5)
    by (split_and!; apply list_elem_of_In; vm_compute; tauto).
  change (u"://") with (58 :: u"//"). cbn [app]. rewrite split_once_app by (by apply Hplain). rewrite strip_prefix_app.
  replace (user ++ u"@" ++ host ++ u":" ++ port ++ u"/" ++ rest)
    with ((user ++ 64 :: (host ++ 58 :: port)) ++ 47 :: rest) by (by rewrite <- !app_assoc; cbn; rewrite <- !app_assoc).
  rewrite split_on_hd.
  2:{ rewrite !elem_of_app, !elem_of_cons, !elem_of_app, !elem_of_cons.
      intros [Hi|[[=]|[Hi|[[=]|Hi]]]]; revert Hi; [by apply Hplain..|by apply Hport]. }
  rewrite rsplit_once_app.
  2:{ rewrite !elem_of_app, !elem_of_cons. intros [Hi|[[=]|Hi]]; revert Hi; [by apply Hplain|by apply Hport]. }
  unfold from_option, id. cbv beta iota zeta. destruct (split_once 58 user) as [[x y]|]; rewrite split_once_app by (by apply Hplain);
    cbv beta iota zeta; (destruct (forallb is_ascii_digit port) eqn:E; [|done]); exfalso;
    apply existsb_exists in Hp as (c & Hc & Hd); rewrite forallb_forall in E; by rewrite (E c Hc) in Hd.
Qed.

Section Witnesses.
#[local] Existing Instance text_url.
#[local] Existing Instance toy_config_crates.

(** A production environment; the encryption key and the SMTP password are
    files. *)
Definition production_vars : gmap str str := list_to_map
  [(u"APP_ENV", u"prod"); (u"APP_PUBLIC_URL", u"https://auth.example.com/"); (u"DATABASE_URL", u"postgres://app:pw@db/auth");
   (u"REDIS_URL", u"redis://:pw@cache"); (u"NATS_URL", u"nats://token@nats:4222"); (u"JWT_PRIVATE_KEY", u"private:abc");
   (u"JWT_PUBLIC_KEY", u"public:abc"); (u"JWT_STRICT_SESSION_BINDING", u"true"); (u"ENCRYPTION_KEY_FILE", u"/run/key");
   (u"SMTP_HOST", u"smtp"); (u"SMTP_USERNAME", u"mailer"); (u"SMTP_PASSWORD_FILE", u"/run/smtp");
   (u"SMTP_FROM_ADDRESS", u"noreply@example.com"); (u"CAPTCHA_SECRET", u"captcha"); (u"LOCKOUT_THRESHOLD", u" 12 ");
   (u"TRUSTED_PROXY_CIDRS", u"10.0.0.2, 10.0.0.3"); (u"CORS_ALLOWED_ORIGINS", u"https://app.example.com");
   (u"METRICS_TOKEN", u"0123456789abcdef0123456789abcdef");
   (u"DEVICE_AUTH_VERIFICATION_URI", u"https://auth.example.com/device")].

Definition files (path : str) : FileRead :=
  if str_eqb path u"/run/key" then Content (u"c3VwZXLDqXNlY3JldC1rZXktb2YtMzItYnl0ZXMhISE=" ++ [13; 10])
  else if str_eqb path u"/run/smtp" then Content u"pw" else NotFound.

Example production_outcome :
  match from_env files production_vars (map_to_list production_vars) ≫= prepare_config with
  | Ok s => (lockout_threshold (security s), smtp_password (smtp (mail s)), audience (jwt_lifetimes (jwt s))) =
            (12, u"pw", [u"https://auth.example.com"])
  | Err _ => False
  end.
Proof. vm_compute. reflexivity. Qed.


(** The same environment with the documented list of brokers. *)
Definition cluster_vars : gmap str str := <[u"NATS_URL" := CLUSTER_URL]> production_vars.

Lemma cluster_url_refused_witness :
  split_cluster CLUSTER_URL =
    Some ([u"nats://10.0.3.11:4222"; u"nats://10.0.3.12:4222"], TokenCredentials u"token") /\
  exists s e, from_env files cluster_vars (map_to_list cluster_vars) = Ok s /\ validate s = Err e.
Proof.
  split; [vm_compute; reflexivity|].
  destruct (from_env files cluster_vars (map_to_list cluster_vars)) as [s|e0] eqn:E;
    [|exfalso; revert E; vm_compute; discriminate].
  exists s. destruct (cluster_url_refused (H1 := text_ports) s) as [e He].
  - pose proof (f_equal (fun r => match r with Ok s => nats_url (nats s) | Err _ => [] end) E) as Hs.
    cbv beta iota in Hs. rewrite <- Hs. vm_compute. reflexivity.
  - exists e. split; [reflexivity|exact He].
Defined.
End Witnesses.
