(* ===== verification/Governance.v ===== *)
(** Who governs the service, whatever requests it served: an active account
    able to manage roles always remains, and whoever holds an administrative
    permission has a second factor. *)
From S2P Require Import Prelude Crates Session Account OAuthDomain Network Edge Crypto Tables App Outside RedisCounter SessionRepo Repos Tokens UserRepo AccessRepo TokenRepo AccountsOk Scenario TokensCorrect Refresh RefreshCorrect Login LoginCorrect SecondFactor SecondFactorCorrect OneTime OneTimeCorrect SelfService Factors Administration Office DeviceFlow Passkeys.
Import Account.User Account.LoginAttempt Account.Audit Account.TwoFactor Account.Token Account.Role.

(** * Committed or rolled back *)

Section Committed.
Context `{RedisServer} `{Env}.

(** A transaction keeps what its successful runs keep. *)
Lemma transaction_pres {A E} (P : Db -> Prop) (e : E) (body : M E A) :
  (forall w w' a, P (w_db w) -> body w = (w', Ok a) -> P (w_db w')) -> keeps (pres P) (transaction e body).
Proof.
  intros Hb w HP. destruct (transaction e body w) as [w' r] eqn:E1.
  apply transaction_run in E1 as [[_ Hd]|(w2 & a & R & Hd & _ & _)]; cbn; rewrite Hd; [done|].
  by eapply Hb, R.
Qed.

Lemma try_transaction_pres {A E} (P : Db -> Prop) (e : E) (body : M E (option A)) :
  (forall w w' a, P (w_db w) -> body w = (w', Ok (Some a)) -> P (w_db w')) ->
  keeps (pres P) (try_transaction e body).
Proof.
  intros Hb w HP. unfold try_transaction, io. destruct (io_plan (w_io w)); [|done..].
  destruct (body (bump_io w)) as [w2 [[a|]|e']] eqn:E1; [|done..].
  assert (P (w_db w2)) by (by eapply Hb, E1). by destruct (io_plan (w_io w2)).
Qed.

(** What a run kept, from a frame. *)
Lemma keeps_each {A} (R : World -> World -> Prop) `{!CoreFrame R} (f : A -> M AppError unit) (l : list A) :
  (forall x, keeps R (f x)) -> keeps R (each f l).
Proof. intros Hf. induction l; cbn; frame_auto. Qed.

Lemma keeps_forget_each `{TimeCrate} `{CryptoCrates} (R : World -> World -> Prop) `{!CoreFrame R, !RedisFrame R} l :
  keeps R (forget_each l).
Proof. induction l; cbn; frame_auto; tables_auto. Qed.

Lemma keeps_recovery_codes {E} (R : World -> World -> Prop) `{!CoreFrame R} n :
  keeps R (generate_recovery_codes n : M E _).
Proof. induction n; cbn; frame_auto. Qed.
End Committed.

#[export] Hint Resolve keeps_forget_each keeps_recovery_codes : frame.
#[export] Hint Extern 2 (keeps _ (each _ _)) => apply keeps_each; [apply _|intros ?; tables_auto] : frame.

(** * Someone manages the roles *)

Section Managed.
Context `{RedisServer} `{Env} `{SqlText}.

(** The account holds the permission through one of its roles. *)
Definition grants (d : Db) (i : Uuid) (p : str) : Prop :=
  exists g, g ∈ t_user_roles d /\ ur_user_id g = i /\ (ur_role_id g, p) ∈ t_role_permissions d.

Definition governed (d : Db) : Prop :=
  users_keyed d /\
  exists i r, t_users d !! i = Some r /\ u_status (ur_user r) = ActiveUser /\ grants d i ROLES_MANAGE.

Lemma permits_iff (i : Uuid) (q : str -> bool) (d : Db) :
  permits i q d = true <-> exists p, grants d i p /\ q p = true.
Proof.
  unfold permits, grants. rewrite existsb_exists. split.
  - intros (g & Hg & [Hi He]%andb_prop). apply bool_decide_eq_true in Hi.
    apply existsb_exists in He as ([r p] & Hp & [Hr Hq]%andb_prop). apply bool_decide_eq_true in Hr. cbn in Hr, Hq. subst r.
    exists p. split; [|done]. exists g. rewrite !list_elem_of_In. done.
  - intros (p & (g & Hg & Hi & Hp) & Hq). exists g. rewrite <- list_elem_of_In. split; [done|].
    rewrite bool_decide_true by done. apply existsb_exists. exists (ur_role_id g, p).
    rewrite <- list_elem_of_In. cbn. by rewrite bool_decide_true.
Qed.

Lemma str_eqb_permits (i : Uuid) (p : str) (d : Db) : permits i (str_eqb p) d = true <-> grants d i p.
Proof.
  rewrite permits_iff. split; [|by exists p; rewrite str_eqb_refl].
  by intros (p' & Hg & <-%str_eqb_eq).
Qed.

Lemma held_in_iff (d : Db) : users_keyed d -> held_in ROLES_MANAGE d = true <-> governed d.
Proof.
  intros Hk. unfold held_in. rewrite existsb_exists. split.
  - intros (r & Hr & [Ha Hp]%andb_prop). split; [done|].
    unfold all_users in Hr. apply in_map_iff in Hr as ([i r'] & Er & Hr). cbn in Er. subst r'.
    apply list_elem_of_In, elem_of_map_to_list in Hr. rewrite (Hk _ _ Hr), str_eqb_permits in Hp.
    unfold user_is_active in Ha. apply bool_decide_eq_true in Ha. eauto.
  - intros (_ & i & r & Hr & Ha & Hg). exists r. split.
    + apply in_map_iff. exists (i, r). split; [done|]. by apply list_elem_of_In, elem_of_map_to_list.
    + unfold user_is_active. rewrite bool_decide_true, (Hk _ _ Hr) by done. by apply str_eqb_permits.
Qed.

#[export] Instance governed_depends : Depends governed [TUsers; TUserRoles; TRolePermissions].
Proof.
  intros d d' Ha [Hk Hg]. unfold governed, users_keyed, grants in *.
  rewrite (Ha TUsers), (Ha TUserRoles), (Ha TRolePermissions) by set_solver. done.
Qed.
End Managed.

(** ** Statements *)

Section GovernedStatements.
Context `{RedisServer} `{Env} `{TimeCrate} `{CryptoCrates} `{SqlText} `{IpNetworkCrate} `{Jwt}.
Context `{MacCrate} `{AeadCrate} `{TotpCrate} `{HyperLogLog} `{Passwords} `{PreAuthSerde} `{Web} `{Pwned.Sha1Crate}.

#[local] Notation kept := (keeps (pres governed)).

(** An update after which whoever was active still is. *)
Definition stays_active (f : UserRow -> UserRow) : Prop :=
  forall r, u_id (ur_user (f r)) = u_id (ur_user r) /\
    (u_status (ur_user r) = ActiveUser -> u_status (ur_user (f r)) = ActiveUser).

Lemma governed_update id p f (d d' : Db) (b : bool) :
  stays_active f -> update_user id p f d = Ok (d', b) -> governed d -> governed d'.
Proof.
  intros Hf E (Hk & i & r & Hr & Ha & Hg). pose proof E as (Hk' & Ho & Hi)%update_user_lookup; [|by intros; apply Hf|done].
  assert (grants d' i ROLES_MANAGE) as Hg'.
  { unfold update_user, put_user in E. repeat case_match; by simplify_eq. }
  split; [done|]. exists i. destruct (decide (i = id)) as [->|Hne]; [|exists r; by rewrite Ho].
  destruct (t_users d' !! id) as [r'|] eqn:Er'.
  - exists r'. split_and!; [done| |done]. destruct (Hi r' eq_refl) as (r0 & E0 & Hc).
    rewrite Hr in E0. injection E0 as <-. destruct Hc as [[_ ->]|[_ ->]]; [by apply Hf|done].
  - exfalso. unfold update_user, put_user in E. rewrite Hr in E.
    repeat case_match; simplify_eq.
    cbn in Er'. rewrite (proj1 (Hf r)), (Hk _ _ Hr) in Er'. by rewrite lookup_insert_eq in Er'.
Qed.

Lemma governed_update_unit id p f :
  (forall d t, stays_active (f d t)) -> kept (execute (fun d now => ignore_count (update_user id p (f d now) d))).
Proof.
  intros Hf. apply keeps_pres_execute. intros d t d' x [b E]%ignore_count_Ok. by eapply governed_update.
Qed.

Lemma governed_update_bool id p f :
  (forall d t, stays_active (f d t)) -> kept (execute (fun d now => update_user id p (f d now) d)).
Proof. intros Hf. apply keeps_pres_execute. intros d t d' b E. by eapply governed_update. Qed.

Lemma governed_create input : kept (user_create input).
Proof.
  unfold user_create. frame_auto. apply keeps_pres_execute. intros d t d' v E.
  case_bool_decide as Hn; [done|]. unfold put_user in E. destruct (user_refused _ d); [done|].
  injection E as <- _. intros (Hk & i & r & Hr & Ha & Hg). split.
  - unfold users_keyed. cbn. intros j r' [[<- <-]|[_ Hr']]%lookup_insert_Some; [done|by apply Hk].
  - exists i, r. cbn. rewrite lookup_insert_ne; [done|]. intros <-. destruct Hn. eauto.
Qed.

Lemma governed_alter f id (d : Db) :
  stays_active f -> governed d -> governed (set_users (alter f id) d).
Proof.
  intros Hf (Hk & i & r & Hr & Ha & Hg). split.
  - intros j r'. cbn. rewrite lookup_alter_Some. intros [(<- & r0 & Hr0 & ->)|[_ Hr']]; [|by apply Hk].
    rewrite (proj1 (Hf r0)). by apply Hk.
  - exists i. destruct (decide (i = id)) as [->|Hne].
    + exists (f r). cbn. rewrite lookup_alter_eq, Hr. split_and!; [done| |done]. by apply Hf.
    + exists r. cbn. by rewrite lookup_alter_ne.
Qed.

Lemma governed_record id : kept (user_record_sign_in id).
Proof. apply keeps_pres_execute. intros d t d' a [= <- _]. apply governed_alter. by intros ?. Qed.

Lemma governed_lock id l : kept (set_locked_until id l).
Proof.
  apply keeps_pres_execute. intros d t d' a E. destruct (t_users d !! id) as [r|] eqn:Er; [|by injection E as <-].
  destruct (match u_locked_until (ur_user r) with Some _ => _ | None => _ end); [|by injection E as <-].
  injection E as <- _. intros (Hk & i & r0 & Hr & Ha & Hg). split.
  - intros j r'. cbn. intros [[<- <-]|[_ Hr']]%lookup_insert_Some; [exact (Hk _ _ Er)|by apply Hk].
  - exists i. cbn. destruct (decide (i = id)) as [->|Hne].
    + rewrite lookup_insert_eq. eexists. split_and!; [done| |done]. rewrite Hr in Er. by simplify_eq.
    + rewrite lookup_insert_ne by done. eauto.
Qed.

Lemma governed_adopt id : kept (adopt_latest_registration_identity id).
Proof.
  apply keeps_pres_execute. intros d t d' x E. destruct (latest_registration id d) as [[n l]|]; [|by injection E as <-].
  destruct (another _ _ d); [by injection E as <-|]. apply ignore_count_Ok in E as [b E].
  eapply governed_update; [|exact E]. by intros ?.
Qed.

Lemma governed_assign uid rid by_ : kept (assign_to_user uid rid by_).
Proof.
  apply keeps_pres_execute. intros d t d' x E. open_statement E.
  intros (Hk & i & r & Hr & Ha & g & Hg & Hi & Hp). split; [exact Hk|]. exists i, r. split_and!; [done..|].
  exists g. cbn. split_and!; [|done..]. apply elem_of_app. by left.
Qed.
End GovernedStatements.

#[export] Hint Resolve governed_create governed_record governed_lock governed_adopt governed_assign : frame.
#[export] Hint Extern 1 (keeps (pres governed) (execute _)) =>
  first [apply governed_update_unit | apply governed_update_bool];
  intros ? ? ?; cbn; unfold UserRepo.pending; split; [done|repeat case_bool_decide; done] : frame.

(** ** Guarded transactions *)

Section GovernedRequests.
Context `{RedisServer} `{Env} `{TimeCrate} `{CryptoCrates} `{SqlText} `{IpNetworkCrate} `{Jwt}.
Context `{MacCrate} `{AeadCrate} `{TotpCrate} `{HyperLogLog} `{Passwords} `{PreAuthSerde} `{Web} `{Pwned.Sha1Crate}.
Context `{UrlCrate}.

#[local] Notation kept := (keeps (pres governed)).

Lemma keep_an_administrator_Ok (w w' : World) (x : unit) :
  users_keyed (w_db w) -> keep_an_administrator w = (w', Ok x) -> governed (w_db w') /\ w_db w' = w_db w.
Proof.
  intros Hk R. unfold keep_an_administrator in R. unbind R y w1 R1. unfold internal in R1. read_run R1.
  unbind R held w2 R2. unfold internal, permission_held in R2. read_run R2. destruct R1 as [D1 _], R2 as [D2 _].
  rewrite D1 in R. destruct (held_in ROLES_MANAGE (w_db w)) eqn:Eh; [|by apply fail_Ok in R].
  apply ret_Ok in R as [_ ->]. rewrite D2, D1. split; [|done]. by apply held_in_iff.
Qed.

(** A change of the roles, judged once made, then its records. *)
Lemma guarded_then {A} (k : unit -> M AppError A) (w w' : World) (r : A) :
  users_keyed (w_db w) -> (forall x, kept (k x)) ->
  (keep_an_administrator ≫= k) w = (w', Ok r) -> governed (w_db w').
Proof.
  intros Hk Hr R. unbind R x w1 R1. apply keep_an_administrator_Ok in R1 as [Hg _]; [|done].
  by eapply pres_run, R; [apply Hr|].
Qed.

#[local] Instance users_keyed_depends : Depends users_keyed [TUsers].
Proof. intros d d' Ha. unfold users_keyed. by rewrite (Ha TUsers) by (by apply list_elem_of_singleton). Qed.

Lemma governed_change_role actor role ps : kept (transaction Internal (change_role_in_tx actor role ps)).
Proof.
  apply transaction_pres. intros w w' a [Hk _] R. unfold change_role_in_tx in R.
  unbind R current w1 R1. unbind R x2 w2 R2. unbind R hs w3 R3. unbind R x4 w4 R4. unbind R x5 w5 R5.
  assert (users_keyed (w_db w5)) as Hk5.
  { do 5 (earlier users_keyed). done. }
  revert R. apply guarded_then; [done|]. intros x. tables_auto.
Qed.

Lemma governed_delete_role actor role : kept (transaction Internal (delete_role_in_tx actor role)).
Proof.
  apply transaction_pres. intros w w' a [Hk _] R. unfold delete_role_in_tx in R.
  unbind R current w1 R1. unbind R x2 w2 R2. unbind R hs w3 R3. unbind R x4 w4 R4.
  assert (users_keyed (w_db w4)) as Hk4.
  { do 4 (earlier users_keyed). done. }
  revert R. apply guarded_then; [done|]. intros x. tables_auto.
Qed.

Lemma governed_unassign actor uid role : kept (try_transaction Internal (unassign_in_tx actor uid role)).
Proof.
  apply try_transaction_pres. intros w w' a [Hk _] R. unfold unassign_in_tx in R.
  unbind R current w1 R1. unbind R x2 w2 R2. unbind R held w3 R3.
  assert (users_keyed (w_db w3)) as Hk3.
  { do 3 (earlier users_keyed). done. }
  destruct held; cbn [negb] in R; [|by apply ret_Ok in R as [[=] _]].
  revert R. apply guarded_then; [done|]. intros x. tables_auto.
Qed.

(** An account that does not manage roles may go. *)
Lemma governed_without (uid : Uuid) (d d' : Db) :
  (forall i r, i <> uid -> t_users d !! i = Some r -> t_users d' !! i = Some r) -> users_keyed d' ->
  (forall i, i <> uid -> grants d i ROLES_MANAGE -> grants d' i ROLES_MANAGE) ->
  ~ grants d uid ROLES_MANAGE -> governed d -> governed d'.
Proof.
  intros Hu Hk' Hg Hn (_ & i & r & Hr & Ha & Hgr). assert (i <> uid) as Hi by congruence.
  split; [done|]. exists i, r. eauto.
Qed.

Lemma governed_suspend actor uid : kept (try_transaction Internal (suspend_in_tx actor uid)).
Proof.
  apply try_transaction_pres. intros w w' a Hg R. unfold suspend_in_tx in R. unbind R changed w1 R1.
  destruct changed; cbn [negb] in R; [|by apply ret_Ok in R as [[=] _]].
  pose proof R1 as [A1 _]%(keeps_run (leaves [TUserRoles; TRolePermissions])); [|tables_auto].
  pose proof (A1 TUserRoles ltac:(set_solver)) as T1. pose proof (A1 TRolePermissions ltac:(set_solver)) as T2.
  apply map_err_Ok, execute_Ok in R1 as [E _]. pose proof E as (Hk1 & Ho & _)%update_user_lookup; [|done|apply Hg].
  unbind R manages w2 R2. unfold internal, user_has_permission in R2. read_run R2. destruct R2 as [D2 _].
  destruct (permits uid (str_eqb ROLES_MANAGE) (w_db w1)) eqn:Ep.
  - revert R. apply guarded_then; [by rewrite D2|]. intros x. tables_auto.
  - revert R. apply bind_establishes; [|intros x; tables_auto]. intros w3 x [_ ->]%ret_Ok. rewrite D2.
    apply (governed_without uid (w_db w)); [by intros i r Hi; rewrite Ho|done|by unfold grants; cbn in T1, T2; rewrite T1, T2| |done].
    rewrite <- str_eqb_permits. unfold permits in *. cbn in T1, T2. rewrite <- T1, <- T2, Ep. done.
Qed.

Lemma erase_grants uid (d : Db) (i : Uuid) (p : str) :
  i <> uid -> grants d i p -> grants (delete_user_row uid d) i p.
Proof.
  intros Hi (g & Hg & Hu & Hp). exists (orphan_grant uid g). cbn. split_and!.
  - apply list_elem_of_fmap_2, elem_of_lfilter. split; [done|]. unfold is_own.
    rewrite bool_decide_false; [done|congruence].
  - unfold orphan_grant. by case_match.
  - unfold orphan_grant. by case_match.
Qed.

Lemma governed_erase uid meta ip rid : kept (transaction Internal (erase_in_tx uid meta ip rid)).
Proof.
  apply transaction_pres. intros w w' a Hg R. unfold erase_in_tx in R.
  unbind R x1 w1 R1. unbind R ss w2 R2. unbind R manages w3 R3. unbind R x4 w4 R4. unbind R x5 w5 R5.
  assert (governed (w_db w5)) as Hg5 by (do 5 (earlier governed); done).
  unbind R x6 w6 R6.
  assert (leaves [TUsers; TUserRoles; TRolePermissions] w2 w5) as [A5 _].
  { eapply keeps_run in R3, R4, R5; [do 2 (eapply frame_trans; [eassumption|]); eassumption|..]; tables_auto. }
  unfold internal, user_has_permission in R3. read_run R3.
  apply map_err_Ok, execute_Ok in R6 as [E6 _]. destruct (t_users (w_db w5) !! uid) as [r|]; [|done].
  injection E6 as E6 _.
  assert (users_keyed (w_db w6)) as Hk6.
  { rewrite <- E6. intros i r'. cbn. intros [_ Hr']%lookup_delete_Some. by apply Hg5. }
  destruct (permits uid (str_eqb ROLES_MANAGE) (w_db w2)) eqn:Ep.
  - revert R. apply guarded_then; [done|]. intros x. tables_auto.
  - unbind R x7 w7 R7. apply ret_Ok in R7 as [_ ->]. apply ret_Ok in R as [_ ->]. rewrite <- E6 in Hk6 |- *.
    apply (governed_without uid (w_db w5)); [|done| | |done].
    + intros i r' Hi Hr'. cbn. by rewrite lookup_delete_ne.
    + intros i Hi Hgr. by apply erase_grants.
    + rewrite <- str_eqb_permits. unfold permits in *.
      by rewrite (A5 TUserRoles), (A5 TRolePermissions), Ep by set_solver.
Qed.
End GovernedRequests.

#[export] Hint Resolve governed_change_role governed_delete_role governed_unassign governed_suspend
  governed_erase : frame.

(** * The references between accounts, roles and permissions *)

Record roles_ok (d : Db) : Prop := {
  rk_users : users_keyed d;
  rk_roles : forall i r, t_roles d !! i = Some r -> ro_id r = i;
  rk_held : forall g, g ∈ t_user_roles d -> is_Some (t_users d !! ur_user_id g) /\ is_Some (t_roles d !! ur_role_id g);
  rk_granted : forall p, p ∈ t_role_permissions d -> is_Some (t_roles d !! p.1);
}.

#[export] Instance roles_ok_depends : Depends roles_ok [TUsers; TUserRoles; TRoles; TRolePermissions].
Proof.
  intros d d' Ha [Hu Hr Hh Hg]. unfold users_keyed in *.
  split; unfold users_keyed; rewrite ?(Ha TUsers), ?(Ha TUserRoles), ?(Ha TRoles), ?(Ha TRolePermissions) by set_solver; done.
Qed.

Section RolesOk.
Context `{RedisServer} `{Env} `{SqlText}.

#[local] Notation kept := (keeps (pres roles_ok)).

(** Rows of [users] change, and come; none goes. *)
Lemma roles_ok_users f (d : Db) :
  users_keyed (set_users f d) -> (forall i, is_Some (t_users d !! i) -> is_Some (f (t_users d) !! i)) ->
  roles_ok d -> roles_ok (set_users f d).
Proof. intros Hk Hf [Hu Hr Hh Hg]. split; cbn; [done..| |done]. intros g [? ?]%Hh. eauto. Qed.

Lemma roles_ok_update id p f (d d' : Db) (b : bool) :
  (forall r, u_id (ur_user (f r)) = u_id (ur_user r)) ->
  update_user id p f d = Ok (d', b) -> roles_ok d -> roles_ok d'.
Proof.
  intros Hf E Hd. pose proof E as (Hk & _)%update_user_lookup; [|done|apply Hd]. revert Hk.
  unfold update_user, put_user in E. repeat case_match; simplify_eq; [|done..]. intros Hk.
  apply roles_ok_users; [done| |done]. intros i Hi. by apply lookup_insert_is_Some'; right.
Qed.

Lemma roles_ok_update_unit id p f :
  (forall d t r, u_id (ur_user (f d t r)) = u_id (ur_user r)) ->
  kept (execute (fun d now => ignore_count (update_user id p (f d now) d))).
Proof.
  intros Hf. apply keeps_pres_execute. intros d t d' x [b E]%ignore_count_Ok. eapply roles_ok_update; [|exact E]. apply Hf.
Qed.

Lemma roles_ok_update_bool id p f :
  (forall d t r, u_id (ur_user (f d t r)) = u_id (ur_user r)) ->
  kept (execute (fun d now => update_user id p (f d now) d)).
Proof. intros Hf. apply keeps_pres_execute. intros d t d' b E. eapply roles_ok_update; [|exact E]. apply Hf. Qed.

Lemma roles_ok_create input : kept (user_create input).
Proof.
  unfold user_create. frame_auto. apply keeps_pres_execute. intros d t d' v E. case_bool_decide; [done|].
  unfold put_user in E. destruct (user_refused _ d); [done|]. injection E as <- _. intros Hd. apply roles_ok_users; [| |done].
  - unfold users_keyed. cbn. intros i r [[<- <-]|[_ Hr]]%lookup_insert_Some; [done|by apply Hd].
  - intros i Hi. by apply lookup_insert_is_Some'; right.
Qed.

Lemma roles_ok_record id : kept (user_record_sign_in id).
Proof.
  apply keeps_pres_execute. intros d t d' a [= <- _] Hd. apply roles_ok_users; [| |done].
  - unfold users_keyed. cbn. intros j r'. rewrite lookup_alter_Some.
    intros [(<- & r0 & Hr0 & ->)|[_ Hr']]; [exact (rk_users _ Hd _ _ Hr0)|by apply Hd].
  - intros i Hi. by rewrite lookup_alter_is_Some.
Qed.

Lemma roles_ok_lock id l : kept (set_locked_until id l).
Proof.
  apply keeps_pres_execute. intros d t d' a E. destruct (t_users d !! id) as [r|] eqn:Er; [|by injection E as <-].
  destruct (match u_locked_until (ur_user r) with Some _ => _ | None => _ end); [|by injection E as <-].
  injection E as <- _. intros Hd. apply roles_ok_users; [| |done].
  - intros j r'. cbn. intros [[<- <-]|[_ Hr']]%lookup_insert_Some; [exact (rk_users _ Hd _ _ Er)|by apply Hd].
  - intros i Hi. by apply lookup_insert_is_Some'; right.
Qed.

Lemma roles_ok_adopt id : kept (adopt_latest_registration_identity id).
Proof.
  apply keeps_pres_execute. intros d t d' x E. destruct (latest_registration id d) as [[n l]|]; [|by injection E as <-].
  destruct (another _ _ d); [by injection E as <-|]. apply ignore_count_Ok in E as [b E].
  eapply roles_ok_update; [|exact E]. done.
Qed.

Lemma elem_of_without {A} (p : A -> bool) (l : list A) (x : A) : x ∈ without p l <-> x ∈ l /\ p x = false.
Proof. unfold without. rewrite elem_of_lfilter. destruct (p x); naive_solver. Qed.

Lemma roles_ok_delete (uid : Uuid) (d : Db) : roles_ok d -> roles_ok (delete_user_row uid d).
Proof.
  intros [Hu Hr Hh Hg]. split; cbn; [|done| |done].
  - unfold users_keyed. cbn. intros i r [_ Hi]%lookup_delete_Some. by apply Hu.
  - intros g (g0 & -> & Hg0)%list_elem_of_fmap. apply elem_of_without in Hg0 as [Hg0 Hne].
    apply bool_decide_eq_false in Hne. destruct (Hh _ Hg0). unfold orphan_grant.
    case_match; cbn; rewrite lookup_delete_ne by done; done.
Qed.

Lemma roles_ok_erase uid : kept (erase uid).
Proof.
  apply keeps_pres_execute. intros d t d' a E. destruct (t_users d !! uid); [|done].
  injection E as <- _. intros Hd. apply roles_ok_delete. by destruct Hd.
Qed.

Lemma roles_ok_assign uid rid by_ : kept (assign_to_user uid rid by_).
Proof.
  apply keeps_pres_execute. intros d t d' x E. destruct (bool_decide _ || bool_decide _) eqn:Ec; [done|].
  apply orb_false_iff in Ec as [E1%bool_decide_eq_false E2%bool_decide_eq_false].
  open_statement E. intros [Hu Hr Hh Hg]. split; cbn; [done..| |done].
  intros g [Hin| ->%list_elem_of_singleton]%elem_of_app; [by apply Hh|]. cbn.
  split; by apply not_eq_None_Some.
Qed.

Lemma roles_ok_unassign uid rid : kept (unassign uid rid).
Proof.
  apply keeps_pres_execute. intros d t d' x [= <- _] [Hu Hr Hh Hg]. split; cbn; [done..| |done].
  intros g [Hin _]%elem_of_without. by apply Hh.
Qed.

Lemma roles_ok_role_create n desc : kept (role_create n desc).
Proof.
  unfold role_create. frame_auto. apply keeps_pres_execute. intros d t d' x E. open_statement E.
  intros [Hu Hr Hh Hg]. split; cbn; [done|..].
  - intros i r [[<- <-]|[_ Hi]]%lookup_insert_Some; [done|by apply Hr].
  - intros g [? ?]%Hh. split; [done|]. by apply lookup_insert_is_Some'; right.
  - intros p ?%Hg. by apply lookup_insert_is_Some'; right.
Qed.

Lemma roles_ok_set_permissions rid ps : kept (set_permissions rid ps).
Proof.
  unfold set_permissions. frame_auto; apply keeps_pres_execute; intros d t d' x E.
  - injection E as <- _. intros [Hu Hr Hh Hg]. split; cbn; [done..|]. intros p [Hp _]%elem_of_without. by apply Hg.
  - case_bool_decide as Hn; [done|]. injection E as <- _. intros [Hu Hr Hh Hg]. split; cbn; [done..|].
    intros p [Hp|(n & -> & _)%list_elem_of_fmap]%elem_of_app; [by apply Hg|]. by apply not_eq_None_Some.
Qed.

Lemma roles_ok_role_delete rid : kept (role_delete rid).
Proof.
  apply keeps_pres_execute. intros d t d' x [= <- _] [Hu Hr Hh Hg]. split; cbn; [done|..].
  - intros i r [_ Hi]%lookup_delete_Some. by apply Hr.
  - intros g [Hin Hne]%elem_of_without. apply bool_decide_eq_false in Hne. apply Hh in Hin as [? ?].
    by rewrite lookup_delete_ne.
  - intros p [Hin Hne]%elem_of_without. apply bool_decide_eq_false in Hne. apply Hg in Hin.
    by rewrite lookup_delete_ne.
Qed.
End RolesOk.

#[export] Hint Resolve roles_ok_create roles_ok_record roles_ok_lock roles_ok_adopt roles_ok_erase roles_ok_assign
  roles_ok_unassign roles_ok_role_create roles_ok_set_permissions roles_ok_role_delete : frame.
#[export] Hint Extern 1 (keeps (pres roles_ok) (execute _)) =>
  first [apply roles_ok_update_unit | apply roles_ok_update_bool]; by intros : frame.

(** * Administrators have a second factor *)

#[local] Arguments without {_} _ _ : simpl never.

Definition administers (d : Db) (i : Uuid) : Prop := exists p, grants d i p /\ is_admin_permission p = true.

Definition factor (d : Db) (i : Uuid) : Prop :=
  (exists m, m ∈ t_methods d /\ tf_user_id m = i /\ tf_is_verified m = true) \/
  (exists k, k ∈ a_passkeys (t_access d) /\ pk_user_id k = i).

Record armed (d : Db) : Prop := {
  ar_roles : roles_ok d;
  ar_factor : forall i, administers d i -> factor d i;
  ar_verified : forall i r, administers d i -> t_users d !! i = Some r -> u_status (ur_user r) <> PendingVerification;
  ar_default : forall i r p, t_roles d !! i = Some r -> ro_is_default r = true ->
    (i, p) ∈ t_role_permissions d -> is_admin_permission p = false;
}.

#[export] Instance armed_depends :
  Depends armed [TUsers; TUserRoles; TRoles; TRolePermissions; TMethods; TPasskeys].
Proof.
  intros d d' Ha [Ho Hf Hv Hd]. assert (roles_ok d') as Ho'.
  { eapply roles_ok_depends, Ho. intros t Ht. apply Ha. set_solver. }
  unfold administers, grants, factor in *.
  split; unfold administers, grants, factor;
    rewrite ?(Ha TUsers), ?(Ha TUserRoles), ?(Ha TRoles), ?(Ha TRolePermissions), ?(Ha TMethods), ?(Ha TPasskeys)
      by set_solver; done.
Qed.

(** Fewer administrators, no fewer factors, nobody pending again. *)
Lemma armed_less (d d' : Db) :
  roles_ok d' -> (forall i, administers d' i -> administers d i) ->
  (forall i, administers d' i -> factor d i -> factor d' i) ->
  (forall i r', administers d' i -> t_users d' !! i = Some r' -> exists r, t_users d !! i = Some r /\
     (u_status (ur_user r') = PendingVerification -> u_status (ur_user r) = PendingVerification)) ->
  (forall i r, t_roles d' !! i = Some r -> ro_is_default r = true -> t_roles d !! i = Some r) ->
  (forall p, p ∈ t_role_permissions d' -> p ∈ t_role_permissions d) ->
  armed d -> armed d'.
Proof.
  intros Ho Ha Hf Hu Hr Hp [_ Af Av Ad]. split; [done|..].
  - intros i Hi. apply Hf; auto.
  - intros i r' Hi Hr'. destruct (Hu _ _ Hi Hr') as (r & Er & Hs). intros Hpe. by apply (Av i r); auto.
  - intros i r p Hi Hd Hip. eauto.
Qed.

Section ArmedStatements.
Context `{RedisServer} `{Env} `{SqlText}.

#[local] Notation kept := (keeps (pres armed)).

Definition never_pending (f : UserRow -> UserRow) : Prop :=
  forall r, u_id (ur_user (f r)) = u_id (ur_user r) /\
    (u_status (ur_user (f r)) = PendingVerification -> u_status (ur_user r) = PendingVerification).

(** Rows of [users] change. *)
Lemma armed_users f (d : Db) :
  roles_ok (set_users f d) ->
  (forall i r', administers d i -> f (t_users d) !! i = Some r' -> exists r, t_users d !! i = Some r /\
     (u_status (ur_user r') = PendingVerification -> u_status (ur_user r) = PendingVerification)) ->
  armed d -> armed (set_users f d).
Proof.
  intros Ho Hu. apply (armed_less d (set_users f d));
    [exact Ho|by intros i Hi|by intros i _ Hf|exact Hu|by intros i r Hi|by intros p Hp].
Qed.

Lemma armed_update id p f (d d' : Db) (b : bool) :
  never_pending f -> update_user id p f d = Ok (d', b) -> armed d -> armed d'.
Proof.
  intros Hf E Hd. pose proof E as Hr%roles_ok_update; [|apply Hf|apply Hd].
  pose proof E as (_ & Ho & Hi)%update_user_lookup; [|apply Hf|apply Hd]. revert Hr Ho Hi.
  unfold update_user, put_user in E. repeat case_match; simplify_eq; [|done..]. intros Hr Ho Hi.
  apply armed_users; [done| |done]. intros i r' _ Hr'. cbn in Ho, Hi. destruct (decide (i = id)) as [->|Hne].
  - destruct (Hi _ Hr') as (r0 & E0 & Hc). exists r0. split; [congruence|]. destruct Hc as [[_ ->]|[_ ->]]; [apply Hf|done].
  - exists r'. rewrite Ho in Hr' by done. by split.
Qed.

Lemma armed_update_unit id p f :
  (forall d t, never_pending (f d t)) -> kept (execute (fun d now => ignore_count (update_user id p (f d now) d))).
Proof. intros Hf. apply keeps_pres_execute. intros d t d' x [b E]%ignore_count_Ok. by eapply armed_update. Qed.

Lemma armed_update_bool id p f :
  (forall d t, never_pending (f d t)) -> kept (execute (fun d now => update_user id p (f d now) d)).
Proof. intros Hf. apply keeps_pres_execute. intros d t d' b E. by eapply armed_update. Qed.

Lemma administers_known (d : Db) (i : Uuid) : roles_ok d -> administers d i -> is_Some (t_users d !! i).
Proof. intros Hr (p & (g & Hg & <- & _) & _). by apply Hr. Qed.

Lemma armed_create input : kept (user_create input).
Proof.
  unfold user_create. frame_auto. apply keeps_pres_execute. intros d t d' v E.
  case_bool_decide as Hn; [done|]. unfold put_user in E. destruct (user_refused _ d); [done|].
  injection E as <- _. intros Hd. apply armed_users; [| |done].
  - apply roles_ok_users; [| |apply Hd].
    + unfold users_keyed. cbn. intros i r [[<- <-]|[_ Hr]]%lookup_insert_Some; [done|by apply Hd].
    + intros i Hi. by apply lookup_insert_is_Some'; right.
  - cbn. intros i r' Hi [[<- <-]|[_ Hr']]%lookup_insert_Some; [|by exists r'].
    apply administers_known in Hi; [|apply Hd]. done.
Qed.

Lemma armed_adopt id : kept (adopt_latest_registration_identity id).
Proof.
  apply keeps_pres_execute. intros d t d' x E. destruct (latest_registration id d) as [[n l]|]; [|by injection E as <-].
  destruct (another _ _ d); [by injection E as <-|]. apply ignore_count_Ok in E as [b E].
  eapply armed_update; [|exact E]. by intros ?.
Qed.

Lemma armed_record id : kept (user_record_sign_in id).
Proof.
  apply keeps_pres_execute. intros d t d' a [= <- _] Hd. apply armed_users; [| |done].
  - apply roles_ok_users; [| |apply Hd].
    + unfold users_keyed. cbn. intros j r'. rewrite lookup_alter_Some.
      intros [(<- & r0 & Hr0 & ->)|[_ Hr']]; [exact (rk_users _ (ar_roles _ Hd) _ _ Hr0)|by apply Hd].
    + intros i Hi. by rewrite lookup_alter_is_Some.
  - intros i r' _. rewrite lookup_alter_Some. intros [(<- & r0 & Hr0 & ->)|[_ Hr']]; eauto.
Qed.

Lemma armed_lock id l : kept (set_locked_until id l).
Proof.
  apply keeps_pres_execute. intros d t d' a E. destruct (t_users d !! id) as [r|] eqn:Er; [|by injection E as <-].
  destruct (match u_locked_until (ur_user r) with Some _ => _ | None => _ end); [|by injection E as <-].
  injection E as <- _. intros Hd. apply armed_users; [| |done].
  - apply roles_ok_users; [| |apply Hd].
    + intros j r'. cbn. intros [[<- <-]|[_ Hr']]%lookup_insert_Some; [exact (rk_users _ (ar_roles _ Hd) _ _ Er)|by apply Hd].
    + intros i Hi. by apply lookup_insert_is_Some'; right.
  - cbn. intros i r' _ [[<- <-]|[_ Hr']]%lookup_insert_Some; eauto.
Qed.

Lemma armed_erase uid : kept (erase uid).
Proof.
  apply keeps_pres_execute. intros d t d' a E. destruct (t_users d !! uid) as [r|]; [|done].
  injection E as <- _. intros Hd.
  assert (forall i, administers (delete_user_row uid d) i -> administers d i /\ i <> uid) as Ha.
  { intros i (p & (g & Hg & Hi & Hp) & Hq). cbn in Hg. apply list_elem_of_fmap in Hg as (g0 & -> & Hg0).
    apply elem_of_without in Hg0 as [Hg0 Hne]. apply bool_decide_eq_false in Hne.
    assert (ur_user_id (orphan_grant uid g0) = ur_user_id g0 /\ ur_role_id (orphan_grant uid g0) = ur_role_id g0)
      as [E1 E2] by (unfold orphan_grant; by case_match).
    rewrite E1 in Hi. rewrite E2 in Hp. split; [|congruence]. exists p. split; [|done]. by exists g0. }
  assert (roles_ok d) as Hro by apply Hd. eapply (armed_less d); [|..|exact Hd].
  - apply roles_ok_delete. by destruct Hro.
  - intros i Hi. by apply Ha.
  - intros i Hi. destruct (Ha i Hi) as [_ Hne]. intros [(m & Hm & Hu & Hv)|(k & Hk & Hu)]; [left; exists m|right; exists k];
      cbn; rewrite elem_of_without; (split_and!; [done| |done..]); unfold is_own; by rewrite bool_decide_false by congruence.
  - cbn. intros i r' _ [_ Hr']%lookup_delete_Some. eauto.
  - by intros i r0.
  - by intros p.
Qed.

(** Rows of [two_factor_methods] change, and come; no verified one goes. *)
Lemma armed_methods f (d : Db) :
  (forall m, m ∈ t_methods d -> tf_is_verified m = true ->
     exists m', m' ∈ f (t_methods d) /\ tf_user_id m' = tf_user_id m /\ tf_is_verified m' = true) ->
  armed d -> armed (set_methods f d).
Proof.
  intros Hf Hd. eapply (armed_less d); [|..|exact Hd]; cbn; try done.
  - by destruct (ar_roles _ Hd).
  - intros i _ [(m & Hm & <- & Hv)|Hk]; [left; cbn|by right].
    destruct (Hf m Hm Hv) as (m' & ? & ? & ?). by exists m'.
  - eauto.
Qed.

Lemma armed_update_methods p g (d : Db) :
  (forall m, p m = true -> tf_user_id (g m) = tf_user_id m /\ (tf_is_verified m = true -> tf_is_verified (g m) = true)) ->
  armed d -> armed (set_methods (update_where p g) d).
Proof.
  intros Hg. apply armed_methods. intros m Hm Hv. exists (if p m then g m else m).
  split; [apply list_elem_of_fmap; by exists m|]. destruct (p m) eqn:Ep; [|done]. split; [by apply Hg|]. by apply Hg.
Qed.

Lemma armed_method_create input : kept (method_create input).
Proof.
  unfold method_create. frame_auto. apply keeps_pres_execute. intros d t d' x E. open_statement E.
  apply armed_methods. intros m Hm Hv. exists m. split_and!; [apply elem_of_app; by left|done..].
Qed.

Lemma armed_replace_pending input : kept (replace_pending input).
Proof.
  apply keeps_pres_execute. intros d t d' x E. open_statement E. by apply armed_update_methods.
Qed.

Lemma armed_mark_verified id : kept (mark_verified id).
Proof. apply keeps_pres_execute. intros d t d' x [= <- _]. by apply armed_update_methods. Qed.

Lemma armed_set_primary id uid : kept (set_primary id uid).
Proof.
  unfold set_primary. frame_auto; apply keeps_pres_execute; intros d t d' x E.
  - injection E as <- _. by apply armed_update_methods.
  - open_statement E. by apply armed_update_methods.
Qed.

Lemma grants_less (d d' : Db) :
  (forall g, g ∈ t_user_roles d' -> g ∈ t_user_roles d) ->
  (forall p, p ∈ t_role_permissions d' -> p ∈ t_role_permissions d) ->
  forall i, administers d' i -> administers d i.
Proof. intros Hg Hp i (p & (g & ? & ? & ?) & ?). exists p. split; [|done]. exists g. auto. Qed.

(** Statements that take roles away. *)
Lemma armed_takes (d d' : Db) :
  roles_ok d' -> (forall g, g ∈ t_user_roles d' -> g ∈ t_user_roles d) ->
  (forall p, p ∈ t_role_permissions d' -> p ∈ t_role_permissions d) ->
  (forall i r, t_roles d' !! i = Some r -> ro_is_default r = true -> t_roles d !! i = Some r) ->
  agree TUsers d d' -> agree TMethods d d' -> agree TPasskeys d d' -> armed d -> armed d'.
Proof.
  cbn. intros Ho Hg Hp Hr Hu Hm Hk. apply armed_less; [done|by apply grants_less|..|done|done].
  - unfold factor. by rewrite Hm, Hk.
  - intros i r' _. rewrite Hu. eauto.
Qed.

Lemma armed_unassign uid rid : kept (unassign uid rid).
Proof.
  apply keeps_pres_execute. intros d t d' x [= <- _] Hd. assert (roles_ok d) as [Hu Hr Hh Hg] by apply Hd.
  apply (armed_takes d); [split; cbn; [done..| |done]|..|done]; cbn; try done.
  - intros g [Hin _]%elem_of_without. by apply Hh.
  - by intros g [? _]%elem_of_without.
Qed.

Lemma armed_role_delete rid : kept (role_delete rid).
Proof.
  apply keeps_pres_execute. intros d t d' x [= <- _] Hd. assert (roles_ok d) as [Hu Hr Hh Hg] by apply Hd.
  apply (armed_takes d); [split; cbn; [done|..]|..|done]; cbn; try done.
  - intros i r [_ Hi]%lookup_delete_Some. by apply Hr.
  - intros g [Hin Hne]%elem_of_without. apply bool_decide_eq_false in Hne. apply Hh in Hin as [? ?].
    by rewrite lookup_delete_ne.
  - intros p [Hin Hne]%elem_of_without. apply bool_decide_eq_false in Hne. apply Hg in Hin.
    by rewrite lookup_delete_ne.
  - by intros g [? _]%elem_of_without.
  - by intros g [? _]%elem_of_without.
  - by intros i r [_ ?]%lookup_delete_Some.
Qed.

Lemma armed_role_create n desc : kept (role_create n desc).
Proof.
  unfold role_create. frame_auto. apply keeps_pres_execute. intros d t d' x E. open_statement E. intros Hd.
  assert (roles_ok d) as [Hu Hr Hh Hg] by apply Hd. apply (armed_takes d); [split; cbn; [done|..]|..|done]; cbn; try done.
  - intros i r [[<- <-]|[_ Hi]]%lookup_insert_Some; [done|by apply Hr].
  - intros g [? ?]%Hh. split; [done|]. by apply lookup_insert_is_Some'; right.
  - intros p ?%Hg. by apply lookup_insert_is_Some'; right.
  - by intros i r [[<- <-]|[_ Hi]]%lookup_insert_Some.
Qed.
End ArmedStatements.

#[export] Hint Resolve armed_create armed_adopt armed_record armed_lock armed_erase armed_method_create
  armed_replace_pending armed_mark_verified armed_set_primary armed_unassign armed_role_delete armed_role_create : frame.
#[export] Hint Extern 1 (keeps (pres armed) (execute _)) =>
  first [apply armed_update_unit | apply armed_update_bool];
  intros ? ? ?; cbn; unfold UserRepo.pending; split; [done|repeat case_bool_decide; done] : frame.

(** ** Requests that are judged *)

Section ArmedRequests.
Context `{RedisServer} `{Env} `{TimeCrate} `{CryptoCrates} `{SqlText} `{IpNetworkCrate} `{Jwt}.
Context `{MacCrate} `{AeadCrate} `{TotpCrate} `{HyperLogLog} `{Passwords} `{PreAuthSerde} `{Web} `{Pwned.Sha1Crate}.
Context `{UrlCrate}.

#[local] Notation kept := (keeps (pres armed)).

(** Everyone but one account is as it should. *)
Definition armed_but (uid : Uuid) (d : Db) : Prop :=
  (factor d uid -> armed d) /\ (~ administers d uid -> armed d).

#[local] Instance armed_but_depends uid :
  Depends (armed_but uid) [TUsers; TUserRoles; TRoles; TRolePermissions; TMethods; TPasskeys].
Proof.
  intros d d' Ha [Hf Hn].
  assert (armed d -> armed d') as Hd by (by apply armed_depends).
  split; [intros Hf'|intros Hn']; apply Hd; [apply Hf|apply Hn].
  - revert Hf'. unfold factor. by rewrite (Ha TMethods), (Ha TPasskeys) by set_solver.
  - revert Hn'. unfold administers, grants. by rewrite (Ha TUserRoles), (Ha TRolePermissions) by set_solver.
Qed.

Lemma armed_but_intro uid (d d' : Db) :
  (forall t, t ∈ [TUsers; TUserRoles; TRoles; TRolePermissions] -> agree t d d') ->
  (forall i, i <> uid -> factor d i -> factor d' i) -> armed d -> armed_but uid d'.
Proof.
  intros Ha Hf Hd. assert (roles_ok d') as Ho by (eapply roles_ok_depends; [exact Ha|apply Hd]).
  assert (forall i, administers d' i -> administers d i) as Hadm.
  { intros i. unfold administers, grants. by rewrite (Ha TUserRoles), (Ha TRolePermissions) by set_solver. }
  assert ((administers d' uid -> factor d' uid) -> armed d') as Hu.
  { intros Hu. split; [done|..].
    - intros i Hi. destruct (decide (i = uid)) as [->|Hne]; [by apply Hu|]. apply Hf; [done|]. by apply Hd, Hadm.
    - intros i r Hi. rewrite (Ha TUsers) by set_solver. apply Hd. by apply Hadm.
    - rewrite (Ha TRoles), (Ha TRolePermissions) by set_solver. apply Hd. }
  split; intros; apply Hu; [done|by intros ?].
Qed.

Lemma factor_iff (d : Db) (i : Uuid) :
  existsb (fun m => is_own tf_user_id i m && tf_is_verified m) (t_methods d)
  || existsb (is_own pk_user_id i) (a_passkeys (t_access d)) = true <-> factor d i.
Proof.
  unfold factor. rewrite orb_true_iff, !existsb_exists. setoid_rewrite <- list_elem_of_In.
  unfold is_own. setoid_rewrite andb_true_iff. by setoid_rewrite bool_decide_eq_true.
Qed.

Lemma has_second_factor_Ok i (w w' : World) (b : bool) :
  internal (has_second_factor i) w = (w', Ok b) -> same_db w w' /\ (b = true -> factor (w_db w) i).
Proof.
  unfold internal, has_second_factor. intros R. read_run R. split; [done|]. by rewrite factor_iff.
Qed.

Lemma administration_Ok i (w w' : World) (b : bool) :
  internal (holds_administration i) w = (w', Ok b) -> same_db w w' /\ (b = false -> ~ administers (w_db w) i).
Proof.
  unfold internal, holds_administration. intros R. read_run R. split; [done|].
  intros Hb Ha. by rewrite (proj2 (permits_iff _ _ _) Ha) in Hb.
Qed.

(** The guard on the second factor of administrators. *)
Lemma keep_second_Ok uid (w w' : World) (x : unit) :
  armed_but uid (w_db w) -> keep_a_second_factor_for_administrators uid w = (w', Ok x) -> armed (w_db w').
Proof.
  intros [Hf Hn] R. unfold keep_a_second_factor_for_administrators in R. unbind R b w1 R1.
  apply administration_Ok in R1 as [[D1 _] Hb]. destruct b.
  - unbind R f w2 R2. apply has_second_factor_Ok in R2 as [[D2 _] Hv]. rewrite D1 in *.
    destruct f; [|by apply fail_Ok in R]. apply ret_Ok in R as [_ ->]. rewrite D2. auto.
  - apply ret_Ok in R as [_ ->]. rewrite D1. auto.
Qed.

Lemma armed_judged {A} uid (k : unit -> M AppError A) (w w' : World) (r : A) :
  armed_but uid (w_db w) -> (forall x, kept (k x)) ->
  (keep_a_second_factor_for_administrators uid ≫= k) w = (w', Ok r) -> armed (w_db w').
Proof.
  intros Hb Hk R. unbind R x w1 R1. apply keep_second_Ok in R1; [|done].
  by eapply (pres_run armed), R; [apply Hk|].
Qed.

Lemma drop_factors_but uid (w w' : World) (x : unit) :
  armed (w_db w) -> internal (drop_access_factors uid) w = (w', Ok x) -> armed_but uid (w_db w').
Proof.
  intros Hd R. apply map_err_Ok, execute_Ok in R as [E _]. injection E as <- _. eapply armed_but_intro, Hd.
  - intros t Ht. repeat (apply elem_of_cons in Ht as [->|Ht]; [reflexivity|]). by apply not_elem_of_nil in Ht.
  - intros i Hi [(m & Hm & Hu & Hv)|(k & Hk & Hu)]; [left; exists m|right; exists k]; cbn; rewrite elem_of_without;
      (split_and!; [done| |done..]); unfold is_own; by rewrite bool_decide_false by congruence.
Qed.

Lemma armed_drop_in actor uid (w w' : World) (x : unit) :
  armed (w_db w) -> drop_access_factors_in actor uid w = (w', Ok x) -> armed (w_db w').
Proof.
  intros Hd R. unfold drop_access_factors_in in R. unbind R y w1 R1. apply drop_factors_but in R1; [|done].
  revert R. apply (armed_judged uid); [done|]. intros ?. tables_auto.
Qed.

(** The removal of a method spares everyone else's. *)
Lemma remove_method_but id uid ty (w w' : World) o :
  armed (w_db w) -> internal (remove_method id uid ty) w = (w', Ok o) -> armed_but uid (w_db w').
Proof.
  intros Hd R. apply map_err_Ok in R. unfold remove_method in R. unbind R removed w1 R1.
  assert (armed_but uid (w_db w1)) as H1'.
  { apply execute_Ok in R1 as [E _]. injection E as <- _. eapply armed_but_intro, Hd.
    - intros t Ht. repeat (apply elem_of_cons in Ht as [->|Ht]; [reflexivity|]). by apply not_elem_of_nil in Ht.
    - intros i Hi [(m & Hm & Hu & Hv)|Hk]; [left|by right]. exists m. cbn. rewrite elem_of_without.
      split_and!; [done| |done..]. unfold is_type, is_own. rewrite (bool_decide_false (tf_user_id m = uid)) by congruence.
      apply andb_false_r. }
  destruct removed as [b|]; [|by apply ret_Ok in R as [_ ->]].
  assert (keeps (pres (armed_but uid)) (execute (fun d now =>
     match oldest tf_created_at (List.filter (fun m => is_own tf_user_id uid m && tf_is_verified m) (t_methods d)) with
     | Some o => Ok (set_methods (update_where (fun m => bool_decide (tf_id m = tf_id o)) (primary_row now)) d, tt)
     | None => Ok (d, tt)
     end))) as Hp.
  { apply keeps_pres_execute. intros d t d' y E. destruct (oldest _ _); injection E as <-; [|done].
    intros [Hf Hn].
    assert (armed d -> armed (set_methods (update_where (fun m => bool_decide (tf_id m = tf_id t0)) (primary_row t)) d)) as Hm
      by (by apply armed_update_methods).
    split; [|intros Hx; by apply Hm, Hn].
    intros [(m & (m0 & -> & Hm0)%list_elem_of_fmap & Hu & Hv)|Hk]; apply Hm, Hf; [left; exists m0|by right].
    split; [done|]. by destruct (bool_decide _). }
  refine (pres_run (armed_but uid) _ _ _ _ _ H1' R). frame_auto; tables_auto.
Qed.

Lemma armed_drop_method uid mid ty ip rid : kept (transaction Internal (drop_method uid mid ty ip rid)).
Proof.
  apply transaction_pres. intros w w' a Hd R. unfold drop_method in R. unbind R x1 w1 R1.
  assert (armed (w_db w1)) as H1' by (earlier armed; done).
  unbind R o w2 R2. apply remove_method_but in R2; [|done]. unbind R o' w3 R3. read_run R3.
  revert R. apply (armed_judged uid); [done|]. intros ?. tables_auto.
Qed.

(** Passkeys: one more, one used, one removed. *)
Lemma armed_passkeys (f : list Passkey -> list Passkey) (d : Db) :
  (forall k, k ∈ a_passkeys (t_access d) ->
     exists k', k' ∈ f (a_passkeys (t_access d)) /\ pk_user_id k' = pk_user_id k) ->
  armed d -> armed (set_passkeys f d).
Proof.
  intros Hf Hd. eapply armed_less, Hd; try done.
  - eapply roles_ok_depends; [|apply Hd]. intros t Ht.
    repeat (apply elem_of_cons in Ht as [->|Ht]; [reflexivity|]). by apply not_elem_of_nil in Ht.
  - intros i _ [Hm|(k & Hk & <-)]; [by left|right]. by apply Hf.
  - intros i r' _ Hr'. by exists r'.
Qed.

Lemma armed_passkey_create input : kept (passkey_create input).
Proof.
  unfold passkey_create. apply keeps_bind; [apply keeps_uuid|]. intros i. apply keeps_pres_execute.
  intros d t d' a E. cbn zeta in E. repeat case_match; try done; injection E as <- _; [done|].
  apply armed_passkeys. intros k Hk. exists k. rewrite elem_of_app. auto.
Qed.

Lemma armed_record_use i expected count bu : kept (record_use i expected count bu).
Proof.
  apply keeps_pres_execute. intros d t d' a [= <- _]. apply armed_passkeys. intros k Hk.
  eexists. split; [by apply list_elem_of_fmap_2|]. cbn. by destruct (_ && _).
Qed.

Lemma armed_drop_passkey uid kid ip rid : kept (transaction Internal (Passkey.drop_passkey uid kid ip rid)).
Proof.
  apply transaction_pres. intros w w' a Hd R. unfold Passkey.drop_passkey in R. unbind R x1 w1 R1.
  assert (armed (w_db w1)) as H1' by (earlier armed; done).
  unbind R deleted w2 R2. destruct deleted; [|by apply fail_Ok in R]. cbn [negb] in R.
  assert (armed_but uid (w_db w2)) as Hb.
  { apply map_err_Ok, execute_Ok in R2 as [E _]. injection E as <- _. eapply armed_but_intro, H1'.
    - intros t Ht. repeat (apply elem_of_cons in Ht as [->|Ht]; [reflexivity|]). by apply not_elem_of_nil in Ht.
    - intros i Hi [Hm|(k & Hk & Hu)]; [by left|right]. exists k. cbn. rewrite elem_of_without.
      split_and!; [done| |done]. unfold is_own. rewrite (bool_decide_false (pk_user_id k = uid)) by congruence.
      apply andb_false_r. }
  revert R. apply (armed_judged uid); [done|]. intros ?. tables_auto.
Qed.

Lemma armed_force actor uid b : kept (force_password_reset actor uid b).
Proof.
  unfold force_password_reset. do 3 (apply keeps_bind; [tables_auto|intros ?]).
  apply keeps_bind; [|intros ?; tables_auto]. apply transaction_pres. intros w w' l Hd R.
  unbind R x1 w1 R1. unbind R active w2 R2. unbind R x3 w3 R3. assert (armed (w_db w3)) as H3' by (do 3 (earlier armed); done).
  unbind R x4 w4 R4. assert (armed (w_db w4)) as H4'.
  { destruct b; [by apply armed_drop_in in R4|by apply ret_Ok in R4 as [_ ->]]. }
  refine (pres_run armed _ _ _ _ _ H4' R). tables_auto.
Qed.

Lemma armed_remove_access actor uid : kept (remove_access_factors actor uid).
Proof.
  unfold remove_access_factors. do 3 (apply keeps_bind; [tables_auto|intros ?]).
  apply keeps_bind; [|intros ?; tables_auto]. apply transaction_pres. intros w w' l Hd R.
  unbind R x1 w1 R1. unbind R active w2 R2. assert (armed (w_db w2)) as H2' by (do 2 (earlier armed); done).
  unbind R x4 w4 R4. apply armed_drop_in in R4; [|done]. refine (pres_run armed _ _ _ _ _ R4 R). tables_auto.
Qed.

(** *** The reset of a password *)

Lemma oldest_elem {A} (f : A -> Z) (l : list A) (x : A) : oldest f l = Some x -> x ∈ l.
Proof.
  unfold oldest. assert (forall best, foldl (fun best x => match best with
      | Some b => if f x <? f b then Some x else best | None => Some x end) best l = Some x ->
    best = Some x \/ x ∈ l) as Hl; [|by intros [?|?]%Hl].
  induction l as [|y l IH]; intros best Hx; [by left|]. cbn in Hx. apply IH in Hx as [Hx|Hx]; [|set_solver].
  destruct best as [b|]; [destruct (f y <? f b)|]; simplify_eq; set_solver.
Qed.

Lemma oldest_some {A} (f : A -> Z) (l : list A) : l <> [] -> is_Some (oldest f l).
Proof.
  unfold oldest. assert (forall l best, is_Some best -> is_Some (foldl (fun best x => match best with
      | Some b => if f x <? f b then Some x else best | None => Some x end) best l)) as Hl.
  { clear l. induction l as [|y l IH]; [done|]. intros best [b ->]. cbn. apply IH. destruct (f y <? f b); eauto. }
  destruct l as [|y l]; [done|]. intros _. cbn. apply Hl. eauto.
Qed.

(** The rows a reset deletes. *)
Definition gone_method (uid : Uuid) (since : Z) (kept : option (Uuid + Uuid)) (m : TwoFactorMethod) : bool :=
  is_own tf_user_id uid m && (since <? tf_created_at m) && negb (bool_decide (kept = Some (inl (tf_id m)))).
Definition gone_key (uid : Uuid) (since : Z) (kept : option (Uuid + Uuid)) (k : Passkey) : bool :=
  is_own pk_user_id uid k && (since <? pk_created_at k) && negb (bool_decide (kept = Some (inr (pk_id k)))).

(** What stays is a factor, when there was one and one is to be stay. *)
Lemma kept_factor_stays uid since (d : Db) :
  factor d uid ->
  let stay := kept_factor uid since d in
  (exists m, m ∈ without (gone_method uid since stay) (t_methods d) /\ tf_user_id m = uid /\ tf_is_verified m = true) \/
  (exists k, k ∈ without (gone_key uid since stay) (a_passkeys (t_access d)) /\ pk_user_id k = uid).
Proof.
  intros Hf. cbv zeta. unfold kept_factor.
  set (ms := List.filter (fun m => is_own tf_user_id uid m && tf_is_verified m) (t_methods d)).
  set (ks := List.filter (is_own pk_user_id uid) (a_passkeys (t_access d))).
  assert (forall m, m ∈ ms -> m ∈ t_methods d /\ tf_user_id m = uid /\ tf_is_verified m = true) as Hms.
  { intros m [Hm [Ho%bool_decide_eq_true Hv]%andb_prop]%elem_of_lfilter. done. }
  assert (forall k, k ∈ ks -> k ∈ a_passkeys (t_access d) /\ pk_user_id k = uid) as Hks.
  { by intros k [Hk Ho%bool_decide_eq_true]%elem_of_lfilter. }
  destruct (existsb (fun m => tf_created_at m <=? since) ms) eqn:Em; cbn [orb].
  { apply existsb_exists in Em as (m & Hm%list_elem_of_In & Hs%Z.leb_le). apply Hms in Hm as (Hm & Hu & Hv).
    left. exists m. rewrite elem_of_without. split_and!; [done| |done..]. unfold gone_method.
    rewrite (proj2 (Z.ltb_ge _ _)) by lia. by rewrite andb_false_r. }
  destruct (existsb (fun k => pk_created_at k <=? since) ks) eqn:Ek.
  { apply existsb_exists in Ek as (k & Hk%list_elem_of_In & Hs%Z.leb_le). apply Hks in Hk as (Hk & Hu).
    right. exists k. rewrite elem_of_without. split_and!; [done| |done..]. unfold gone_key.
    rewrite (proj2 (Z.ltb_ge _ _)) by lia. by rewrite andb_false_r. }
  set (l := map _ _ ++ map _ _).
  assert (l <> []) as Hl.
  { apply not_true_iff_false in Em, Ek. intros El. apply app_eq_nil in El as [E1%map_eq_nil E2%map_eq_nil].
    destruct Hf as [(m & Hm & Hu & Hv)|(k & Hk & Hu)].
    - assert (m ∈ ms) as Hin by (apply elem_of_lfilter; unfold is_own; by rewrite bool_decide_true).
      destruct (since <? tf_created_at m) eqn:Es.
      + assert (m ∈ ([] : list TwoFactorMethod)) as Hx by (rewrite <- E1; by apply elem_of_lfilter). by apply not_elem_of_nil in Hx.
      + apply Em, existsb_exists. exists m. rewrite <- list_elem_of_In. split; [done|]. apply Z.leb_le, Z.ltb_ge, Es.
    - assert (k ∈ ks) as Hin by (apply elem_of_lfilter; unfold is_own; by rewrite bool_decide_true).
      destruct (since <? pk_created_at k) eqn:Es.
      + assert (k ∈ ([] : list Passkey)) as Hx by (rewrite <- E2; by apply elem_of_lfilter). by apply not_elem_of_nil in Hx.
      + apply Ek, existsb_exists. exists k. rewrite <- list_elem_of_In. split; [done|]. apply Z.leb_le, Z.ltb_ge, Es. }
  destruct (oldest_some snd l Hl) as [[x t] Ho]. rewrite Ho. apply oldest_elem, elem_of_app in Ho as [Ho|Ho];
    apply list_elem_of_fmap in Ho as (y & Ey & [Hy _]%elem_of_lfilter); injection Ey as -> _; cbn.
  - apply Hms in Hy as (Hm & Hu & Hv). left. exists y. rewrite elem_of_without. split_and!; [done| |done..].
    unfold gone_method. by rewrite bool_decide_true, andb_false_r.
  - apply Hks in Hy as (Hk & Hu). right. exists y. rewrite elem_of_without. split_and!; [done| |done].
    unfold gone_key. by rewrite bool_decide_true, andb_false_r.
Qed.

Lemma promote_verified now uid (l : list TwoFactorMethod) (m : TwoFactorMethod) :
  m ∈ l -> exists m', m' ∈ promote_oldest now uid l /\ tf_user_id m' = tf_user_id m /\ tf_is_verified m' = tf_is_verified m.
Proof.
  intros Hm. unfold promote_oldest. destruct (existsb _ l); [eauto|]. destruct (oldest _ _) as [o|]; [|eauto].
  exists (if bool_decide (tf_id m = tf_id o) then primary_row now m else m).
  split; [apply list_elem_of_fmap; by exists m|]. by case_bool_decide.
Qed.

Definition role_tables : list table := [TUsers; TUserRoles; TRoles; TRolePermissions].

Lemma drop_since_run uid since b (w w' : World) l :
  drop_access_factors_since uid since b w = (w', Ok l) ->
  let stay := if b then kept_factor uid since (w_db w) else None in
  (exists now, t_methods (w_db w') = promote_oldest now uid (without (gone_method uid since stay) (t_methods (w_db w)))) /\
  a_passkeys (t_access (w_db w')) = without (gone_key uid since stay) (a_passkeys (t_access (w_db w))) /\
  leaves role_tables w w'.
Proof.
  intros R. assert (leaves role_tables w w') as HL by (eapply keeps_run, R; unfold role_tables; tables_auto).
  unfold drop_access_factors_since in R. unbind R stay w1 R1.
  assert (stay = (if b then kept_factor uid since (w_db w) else None) /\ w_db w1 = w_db w) as [-> D1].
  { destruct b; [by read_run R1; destruct R1|by read_run R1]. }
  unbind R ms w2 R2. unbind R ks w3 R3. unbind R xs w4 R4. unbind R x5 w5 R5. unbind R x6 w6 R6.
  apply ret_Ok in R as [_ ->]. cbv zeta. split_and!; [..|done].
  - assert (t_methods (w_db w6) = t_methods (w_db w5)) as ->
      by (eapply (keeps_run (leaves [TMethods])) in R6 as [A _]; [apply (A TMethods); set_solver|tables_auto]).
    assert (t_methods (w_db w4) = t_methods (w_db w2)) as E42.
    { eapply (keeps_run (leaves [TMethods])) in R3, R4; [|tables_auto..]. destruct R3 as [A3 _], R4 as [A4 _].
      by rewrite (A4 TMethods), (A3 TMethods) by set_solver. }
    apply execute_Ok in R5 as [E5 _]. injection E5 as <- _. exists (w_wall w4). cbn. rewrite E42.
    apply execute_Ok in R2 as [E2 _]. injection E2 as <- _. cbn. by rewrite D1.
  - assert (a_passkeys (t_access (w_db w6)) = a_passkeys (t_access (w_db w3))) as ->.
    { eapply (keeps_run (leaves [TPasskeys])) in R4, R5, R6; [|tables_auto..].
      destruct R4 as [A4 _], R5 as [A5 _], R6 as [A6 _].
      by rewrite (A6 TPasskeys), (A5 TPasskeys), (A4 TPasskeys) by set_solver. }
    assert (a_passkeys (t_access (w_db w2)) = a_passkeys (t_access (w_db w1))) as E21
      by (eapply (keeps_run (leaves [TPasskeys])) in R2 as [A _]; [apply (A TPasskeys); set_solver|tables_auto]).
    apply execute_Ok in R3 as [E3 _]. injection E3 as <- _. cbn. by rewrite E21, D1.
Qed.

Lemma drop_since_armed uid since b (w w' : World) l :
  armed (w_db w) -> (b = false -> ~ administers (w_db w) uid) ->
  drop_access_factors_since uid since b w = (w', Ok l) -> armed (w_db w').
Proof.
  intros Hd Hb R. apply drop_since_run in R as ([now Em] & Ek & [HL _]).
  assert (armed_but uid (w_db w')) as [Hf Hn].
  { eapply armed_but_intro, Hd; [exact HL|]. intros i Hi [(m & Hm & Hu & Hv)|(k & Hk & Hu)].
    - left. rewrite Em. destruct (promote_verified now uid (without (gone_method uid since
        (if b then kept_factor uid since (w_db w) else None)) (t_methods (w_db w))) m) as (m' & Hm' & Hu' & Hv').
      { apply elem_of_without. split; [done|]. unfold gone_method, is_own. by rewrite bool_decide_false by congruence. }
      exists m'. split_and!; congruence.
    - right. rewrite Ek. exists k. rewrite elem_of_without. split_and!; [done| |done].
      unfold gone_key, is_own. by rewrite bool_decide_false by congruence. }
  assert (administers (w_db w') uid -> administers (w_db w) uid) as Hadm.
  { unfold administers, grants. by rewrite (HL TUserRoles), (HL TRolePermissions) by set_solver. }
  destruct b; [|by apply Hn; intros ?%Hadm; apply Hb].
  destruct (decide (permits uid is_admin_permission (w_db w) = true)) as [Ha|Ha]; rewrite permits_iff in Ha.
  - apply Hf. destruct (kept_factor_stays uid since (w_db w) (ar_factor _ Hd _ Ha)) as [(m & Hm & Hu & Hv)|(k & Hk & Hu)].
    + left. rewrite Em. destruct (promote_verified now uid _ m Hm) as (m' & Hm' & Hu' & Hv'). exists m'. split_and!; congruence.
    + right. rewrite Ek. by exists k.
  - apply Hn. by intros ?%Hadm.
Qed.

Lemma drop_recent_armed v (w w' : World) l :
  armed (w_db w) -> drop_recent_factors v w = (w', Ok l) -> armed (w_db w').
Proof.
  intros Hd R. unfold drop_recent_factors in R. destruct (0 <? _); [|by apply ret_Ok in R as [_ ->]].
  unbind R x1 w1 R1. unfold internal, lock_row in R1. read_run R1. destruct R1 as [D1 _].
  unbind R b w2 R2. apply administration_Ok in R2 as [[D2 _] Hb]. apply map_err_Ok in R.
  eapply drop_since_armed, R; rewrite D2, D1 in *; done.
Qed.

Lemma pending_not_admin uid (w w' : World) :
  armed (w_db w) -> internal (verify_if_pending uid) w = (w', Ok true) ->
  armed (w_db w') /\ ~ administers (w_db w') uid.
Proof.
  intros Hd R. assert (armed (w_db w')) as Hd' by (earlier armed; done).
  assert (leaves [TUserRoles; TRolePermissions] w w') as [HL _] by (eapply keeps_run, R; tables_auto).
  split; [done|]. intros Ha. apply map_err_Ok, execute_Ok in R as [E _].
  assert (administers (w_db w) uid) as Ha0.
  { revert Ha. unfold administers, grants. by rewrite (HL TUserRoles), (HL TRolePermissions) by set_solver. }
  unfold update_user in E. destruct (t_users (w_db w) !! uid) as [r|] eqn:Er; [|done].
  destruct (UserRepo.pending (ur_user r)) eqn:Ep; [|done]. apply bool_decide_eq_true in Ep.
  by apply (ar_verified _ Hd uid r).
Qed.

Lemma armed_redeem v h ip rid : kept (transaction Internal (redeem v h ip rid)).
Proof.
  apply transaction_pres. intros w w' l Hd R. unfold redeem in R. unbind R consumed w1 R1.
  assert (armed (w_db w1)) as H1' by (earlier armed; done).
  destruct consumed; cbn [negb] in R; [|by apply fail_Ok in R].
  unbind R x2 w2 R2. unbind R x3 w3 R3. assert (armed (w_db w3)) as H3' by (do 2 (earlier armed); done).
  unbind R removed w4 R4. apply drop_recent_armed in R4; [|done].
  unbind R x5 w5 R5. unbind R x6 w6 R6. unbind R x7 w7 R7.
  assert (armed (w_db w7)) as H7' by (do 3 (earlier armed); done).
  unbind R verified w8 R8. assert (armed (w_db w8)) as H8' by (earlier armed; done).
  unbind R x9 w9 R9. assert (armed (w_db w9)) as H9'; [|refine (pres_run armed _ _ _ _ _ H9' R); tables_auto].
  destruct verified; [|by apply ret_Ok in R9 as [_ ->]].
  apply pending_not_admin in R8 as [_ Hn]; [|done].
  unbind R9 y w10 R10. assert (armed (w_db w10)) as H10' by (earlier armed; done).
  assert (leaves role_tables w8 w10) as [HL _] by (eapply keeps_run, R10; unfold role_tables; tables_auto).
  assert (leaves role_tables w10 w9) as [HL' _] by (eapply keeps_run, R9; unfold role_tables; tables_auto).
  apply drop_factors_but in R9 as [_ Hb]; [|done]. apply Hb. intros Ha. apply Hn. revert Ha.
  unfold administers, grants.
  by rewrite (HL' TUserRoles), (HL' TRolePermissions), (HL TUserRoles), (HL TRolePermissions) by set_solver.
Qed.

(** *** Roles given *)

Definition admin_role (d : Db) (rid : Uuid) : Prop :=
  exists p, (rid, p) ∈ t_role_permissions d /\ is_admin_permission p = true.

(** The account may hold an administrative role. *)
Definition fit (d : Db) (uid : Uuid) : Prop :=
  factor d uid /\ forall r, t_users d !! uid = Some r -> u_status (ur_user r) <> PendingVerification.

Lemma armed_assign uid rid by_ (w w' : World) (g : UserRole) :
  armed (w_db w) -> (admin_role (w_db w) rid -> fit (w_db w) uid) ->
  assign_to_user uid rid by_ w = (w', Ok g) -> armed (w_db w').
Proof.
  intros Hd Hfit R. assert (roles_ok (w_db w')) as Ho by (earlier roles_ok; apply Hd).
  apply execute_Ok in R as [E _]. open_statement E. revert Ho. match goal with H : _ = w_db w' |- _ => rewrite <- H end.
  intros Ho. assert (forall i, administers (set_user_roles (fun l => l ++ [{| ur_user_id := uid; ur_role_id := rid;
      ur_granted_by := by_; ur_granted_at := w_wall w |}]) (w_db w)) i -> administers (w_db w) i \/ (i = uid /\ fit (w_db w) uid)) as Ha.
  { intros i (p & (g0 & [Hg| ->%list_elem_of_singleton]%elem_of_app & Hi & Hp) & Hq).
    - left. exists p. split; [|done]. by exists g0.
    - right. cbn in *. split; [done|]. apply Hfit. by exists p. }
  destruct Hd as [_ Af Av Ad]. split; [done|..|exact Ad].
  - intros i [Hi|[-> [? _]]]%Ha; [by apply Af|done].
  - intros i r [Hi|[-> [_ ?]]]%Ha; [by apply Av|auto].
Qed.

Lemma able_Ok r (w w' : World) :
  t_users (w_db w) !! u_id (ur_user r) = Some r ->
  able_to_administer (ur_user r) w = (w', Ok true) -> same_db w w' /\ fit (w_db w) (u_id (ur_user r)).
Proof.
  intros Hr R. unfold able_to_administer in R. case_bool_decide as Hs; cbn [negb] in R; [|by apply ret_Ok in R as [[=] _]].
  apply has_second_factor_Ok in R as [Hsame Hf]. split; [done|]. split; [by apply Hf|].
  intros r' Hr'. rewrite Hr in Hr'. injection Hr' as <-. by rewrite Hs.
Qed.

Lemma found_row uid (w w' : World) (v : User) o :
  users_keyed (w_db w) -> internal (user_find_by_id uid) w = (w', Ok o) -> o = Some v ->
  same_db w w' /\ exists r, t_users (w_db w) !! uid = Some r /\ ur_user r = v /\ u_id v = uid.
Proof.
  intros Hk R ->. unfold internal, user_find_by_id in R. apply map_err_Ok, query_Ok in R as [E Hs]. split; [done|].
  symmetry in E. apply fmap_Some in E as (r & Hr & ->). exists r. split_and!; [done..|]. by apply Hk.
Qed.

Lemma grants_administration_Ok rid (w w' : World) (b : bool) :
  internal (grants_administration rid) w = (w', Ok b) -> same_db w w' /\ (b = false -> ~ admin_role (w_db w) rid).
Proof.
  unfold internal, grants_administration. intros R. read_run R. split; [done|].
  intros Hb (p & Hp & Hq). apply not_true_iff_false in Hb. apply Hb, existsb_exists. exists p. split; [|done].
  unfold granted_names, sort_strs. apply list_elem_of_In. rewrite merge_sort_Permutation.
  apply list_elem_of_fmap. exists (rid, p). split; [done|]. apply elem_of_lfilter. by rewrite bool_decide_true.
Qed.

Lemma can_administer_Ok r role (w w' : World) (x : unit) :
  t_users (w_db w) !! u_id (ur_user r) = Some r -> ensure_can_administer (ur_user r) role w = (w', Ok x) ->
  same_db w w' /\ (admin_role (w_db w) (ro_id role) -> fit (w_db w) (u_id (ur_user r))).
Proof.
  intros Hr R. unfold ensure_can_administer in R. unbind R b w1 R1. apply grants_administration_Ok in R1 as [S1 Hb].
  destruct b; cbn [negb] in R; [|apply ret_Ok in R as [_ ->]; split; [done|by intros ?%Hb]].
  unbind R able w2 R2. destruct able; [|by apply fail_Ok in R]. apply ret_Ok in R as [_ ->].
  apply able_Ok in R2 as [S2 Hf]; [|by rewrite (proj1 S1)]. split; [by eapply frame_trans|].
  intros _. by rewrite (proj1 S1) in Hf.
Qed.

Lemma armed_assign_tx actor uid role : kept (try_transaction Internal (assign_in_tx actor uid role)).
Proof.
  apply try_transaction_pres. intros w w' [] Hd R. unfold assign_in_tx in R. unbind R x1 w1 R1.
  apply same_db_run in R1; [|tables_auto]. unbind R o w2 R2. unbind R v w3 R3. read_run R3.
  eapply (found_row uid _ _ v) in R2 as ([D2 _] & r & Hr & Ev & Hi); [|rewrite R1; apply Hd|done]. subst v.
  unbind R granted w4 R4. apply same_db_run in R4; [|tables_auto].
  unbind R x5 w5 R5. apply same_db_run in R5; [|tables_auto].
  unbind R x6 w6 R6. apply can_administer_Ok in R6 as [[D6 _] Hfit]; [|rewrite R5, R4, D2, Hi; done].
  unbind R a w7 R7. apply attempt_run in R7 as (a' & R7 & [= ->]).
  destruct a' as [g|[]]; [|by (apply fail_Ok in R || apply ret_Ok in R as [[=] _])..].
  apply armed_assign in R7; [|by rewrite D6, R5, R4, D2, R1|by rewrite D6, <- Hi].
  refine (pres_run armed _ _ _ _ _ R7 R). tables_auto.
Qed.

(** *** Registration gives the default role *)

Lemma find_default_Ok (w w' : World) (o : option Role) r :
  roles_ok (w_db w) -> internal find_default w = (w', Ok o) -> o = Some r ->
  same_db w w' /\ t_roles (w_db w) !! ro_id r = Some r /\ ro_is_default r = true.
Proof.
  intros Ho R ->. unfold internal, find_default in R. apply map_err_Ok, query_Ok in R as [E Hs]. split; [done|].
  symmetry in E. apply find_some in E as [Hin Hd]. split; [|done]. unfold all_roles in Hin.
  apply in_map_iff in Hin as ([i r'] & <- & Hin). apply list_elem_of_In, elem_of_map_to_list in Hin. cbn in *.
  by rewrite (rk_roles _ Ho _ _ Hin).
Qed.

Lemma armed_open_account n e h l role raw ip ua rid (w : World) :
  armed (w_db w) ->
  (forall r, role = Some r -> t_roles (w_db w) !! ro_id r = Some r /\ ro_is_default r = true) ->
  armed (w_db (try_transaction Internal (open_account n e h l role raw ip ua rid) w).1).
Proof.
  intros Hd Hrole. set (P := fun d => armed d /\ t_roles d = t_roles (w_db w)).
  cut (keeps (pres P) (try_transaction Internal (open_account n e h l role raw ip ua rid))); [by intros K; apply K|].
  apply try_transaction_pres. intros w1 w' v [Hd1 E1] R. unfold open_account in R.
  unbind R created w2 R2. apply attempt_run in R2 as (c & R2 & [= ->]).
  assert (armed (w_db w2)) as H2' by (earlier armed; done).
  assert (leaves [TRoles] w1 w2) as [L2 _] by (eapply keeps_run, R2; tables_auto).
  assert (t_roles (w_db w2) = t_roles (w_db w)) as Er by (rewrite <- E1; apply (L2 TRoles); set_solver).
  destruct c as [v1|er]; [|by repeat case_match; (apply ret_Ok in R as [[=] _] || apply fail_Ok in R)].
  unbind R x3 w3 R3. assert (P (w_db w3)) as [H3' E3].
  { destruct role as [r|]; [|by apply ret_Ok in R3 as [_ ->]]. unbind R3 g w4 R4. apply ret_Ok in R3 as [_ ->].
    assert (leaves [TRoles] w2 w4) as [L4 _] by (eapply keeps_run, R4; tables_auto). split.
    - apply map_err_Ok in R4. eapply armed_assign, R4; [done|]. intros (p & Hp & Hq).
      destruct (Hrole r eq_refl) as [Hr Hdef]. rewrite <- Er in Hr.
      by rewrite (ar_default _ H2' _ _ _ Hr Hdef Hp) in Hq.
    - rewrite <- Er. apply (L4 TRoles). set_solver. }
  assert (armed (w_db w')) as Hd' by (refine (pres_run armed _ _ _ _ _ H3' R); tables_auto).
  assert (leaves [TRoles] w3 w') as [L5 _] by (eapply keeps_run, R; tables_auto).
  split; [done|]. rewrite <- E3. apply (L5 TRoles). set_solver.
Qed.

(** From a read on, a request keeps a property. *)
Lemma read_pres {E A B} (P : Db -> Prop) (m : M E A) (k : A -> M E B) (w : World) :
  keeps same_db m -> P (w_db w) ->
  (forall a w1, m w = (w1, Ok a) -> same_db w w1 -> P (w_db (k a w1).1)) -> P (w_db ((m ≫= k) w).1).
Proof.
  intros Hm HP Hk. apply (quiet_then (fun run => P (w_db run.1))); [done| |done].
  intros w1 e [D _]. cbn. by rewrite D.
Qed.

Lemma then_pres {E A B} (P : Db -> Prop) (m : M E A) (k : A -> M E B) (w : World) :
  P (w_db (m w).1) -> (forall a, keeps (pres P) (k a)) -> P (w_db ((m ≫= k) w).1).
Proof.
  intros HP Hk. unfold mbind, M_bind. destruct (m w) as [w1 [a|e]]; [by apply Hk|done].
Qed.

(** Registration changes who is who only where it opens an account. *)
Lemma register_pres (P : Db -> Prop)
    `{!Depends P [TUsers; TUserRoles; TRoles; TRolePermissions; TMethods; TPasskeys] } n e pw l ip ua rid :
  (forall d, P d -> roles_ok d) ->
  (forall h role raw w, P (w_db w) ->
     (forall r, role = Some r -> t_roles (w_db w) !! ro_id r = Some r /\ ro_is_default r = true) ->
     P (w_db (try_transaction Internal (open_account n e h l role raw ip ua rid) w).1)) ->
  keeps (pres P) (register n e pw l ip ua rid).
Proof.
  intros Hok Ho. unfold register. apply keeps_bind; [tables_auto|]. intros _. apply keeps_padded.
  intros w Hd. unfold register_account. apply read_pres; [tables_auto|done|]. intros b w1 _ [D1 _].
  destruct b; [by cbn; rewrite D1|]. apply read_pres; [tables_auto|by rewrite D1|]. intros [] w2 _ [D2 _].
  apply read_pres; [tables_auto|by rewrite D2, D1|]. intros h w3 R3 _. read_run R3.
  apply read_pres; [tables_auto|by rewrite D2, D1|]. intros ex w4 _ [D4 _].
  assert (P (w_db w4)) as H4' by (by rewrite D4, D2, D1). destruct ex as [ex|].
  { match goal with |- P (w_db (?m w4).1) => cut (keeps (pres P) m); [intros K; by apply K|] end. tables_auto. }
  apply read_pres; [tables_auto|done|]. intros role w5 R5 [D5 _].
  apply read_pres; [tables_auto|by rewrite D5|]. intros raw w6 _ [D6 _].
  apply then_pres; [|intros a; tables_auto]. apply Ho; [by rewrite D6, D5|]. intros r ->. rewrite D6, D5.
  eapply find_default_Ok in R5 as (_ & ? & ?); [done|by apply Hok|done].
Qed.

Lemma armed_register n e pw l ip ua rid : kept (register n e pw l ip ua rid).
Proof. apply (register_pres armed); [apply ar_roles|]. intros. by apply armed_open_account. Qed.

(** *** Roles changed *)

Lemma elem_of_granted_names (d : Db) (rid : Uuid) (p : str) :
  p ∈ granted_names rid d <-> (rid, p) ∈ t_role_permissions d.
Proof.
  unfold granted_names, sort_strs. rewrite merge_sort_Permutation, list_elem_of_fmap. split.
  - intros ([r q] & -> & [Hq Hr%bool_decide_eq_true]%elem_of_lfilter). cbn in *. by subst r.
  - intros Hp. exists (rid, p). split; [done|]. apply elem_of_lfilter. by rewrite bool_decide_true.
Qed.

Lemma elem_of_holders (d : Db) (rid i : Uuid) :
  i ∈ holders_in rid d <-> exists g, g ∈ t_user_roles d /\ ur_role_id g = rid /\ ur_user_id g = i.
Proof.
  unfold holders_in. rewrite merge_sort_Permutation, list_elem_of_fmap. split.
  - intros (g & -> & [Hg Hr%bool_decide_eq_true]%elem_of_lfilter). by exists g.
  - intros (g & Hg & Hr & Hi). exists g. split; [done|]. apply elem_of_lfilter. split; [done|]. unfold is_own.
    by rewrite bool_decide_true.
Qed.

(** The role grants exactly the permissions that exist among those. *)
Lemma set_permissions_Ok rid ps (w w' : World) (x : unit) :
  internal (set_permissions rid ps) w = (w', Ok x) ->
  (forall p, p ∈ t_role_permissions (w_db w') <->
     (p ∈ t_role_permissions (w_db w) /\ p.1 <> rid) \/ (p.1 = rid /\ p.2 ∈ ps /\ p.2 ∈ t_permissions (w_db w))) /\
  leaves [TUsers; TUserRoles; TRoles; TMethods; TPasskeys; TPermissions] w w'.
Proof.
  intros R. assert (leaves [TUsers; TUserRoles; TRoles; TMethods; TPasskeys; TPermissions] w w') as HL
    by (eapply keeps_run, R; tables_auto).
  apply map_err_Ok in R. unfold set_permissions in R. unbind R y w1 R1. apply execute_Ok in R1 as [E1 _].
  injection E1 as E1 _. apply execute_Ok in R as [E2 _]. case_bool_decide; [done|]. injection E2 as <- _. split; [|done].
  intros [r q]. cbn. rewrite <- E1. cbn. rewrite elem_of_app, elem_of_without, bool_decide_eq_false, list_elem_of_fmap. cbn.
  apply or_iff_compat_l. split.
  - intros (n & [= -> ->] & [Hn Hc%contains_true]%elem_of_lfilter). done.
  - intros (-> & Hq & Hp). exists q. split; [done|]. apply elem_of_lfilter. by rewrite contains_true.
Qed.

(** The accounts an administrative permission reaches are fit for it. *)
Lemma armed_set_permissions rid ps (w w' : World) (x : unit) :
  armed (w_db w) ->
  (forall p i, p ∈ ps -> is_admin_permission p = true -> i ∈ holders_in rid (w_db w) ->
     (rid, p) ∉ t_role_permissions (w_db w) -> fit (w_db w) i) ->
  (forall r p, t_roles (w_db w) !! rid = Some r -> ro_is_default r = true -> p ∈ ps -> is_admin_permission p = false) ->
  internal (set_permissions rid ps) w = (w', Ok x) -> armed (w_db w').
Proof.
  intros Hd Hfit Hdef R. assert (roles_ok (w_db w')) as Ho by (earlier roles_ok; apply Hd).
  apply set_permissions_Ok in R as [Hp [HL _]].
  assert (forall i, administers (w_db w') i -> administers (w_db w) i \/ fit (w_db w) i) as Ha.
  { intros i (p & (g & Hg & Hi & Hgp) & Hq). rewrite (HL TUserRoles) in Hg by set_solver.
    apply Hp in Hgp as [[Hgp _]|(Hr & Hps & _)]; [left; exists p; split; [by exists g|done]|]. cbn in *.
    destruct (decide ((rid, p) ∈ t_role_permissions (w_db w))) as [Hin|Hin].
    - left. exists p. split; [|done]. exists g. by rewrite Hr.
    - right. apply (Hfit p); [done..| |done]. apply elem_of_holders. by exists g. }
  split; [done|..].
  - intros i Hi. unfold factor. rewrite (HL TMethods), (HL TPasskeys) by set_solver.
    apply Ha in Hi as [Hi|[Hi _]]; [by apply Hd|done].
  - intros i r Hi. rewrite (HL TUsers) by set_solver. apply Ha in Hi as [Hi|[_ Hi]]; [by apply Hd|auto].
  - intros i r p. rewrite (HL TRoles) by set_solver. intros Hr Hde [[Hin _]|(Hi & Hps & _)]%Hp; [by eapply Hd|].
    cbn in *. subst i. by eapply Hdef.
Qed.

Lemma each_Ok {A} (f : A -> M AppError unit) (Q : Db -> A -> Prop) l (w w' : World) (x : unit) :
  (forall a, keeps same_db (f a)) -> (forall a w w' y, f a w = (w', Ok y) -> Q (w_db w) a) ->
  each f l w = (w', Ok x) -> w_db w' = w_db w /\ forall a, a ∈ l -> Q (w_db w) a.
Proof.
  intros Hf HQ. revert w. induction l as [|a l IH]; intros w R; cbn in R.
  - apply ret_Ok in R as [_ ->]. split; [done|]. intros a ?%not_elem_of_nil. done.
  - unbind R y w1 R1. pose proof (same_db_run _ _ _ _ (Hf a) R1) as D1. apply HQ in R1.
    apply IH in R as [D IHl]. rewrite D1 in *. split; [done|]. intros b [->|Hb]%elem_of_cons; auto.
Qed.

Lemma holder_Ok i (w w' : World) (x : unit) :
  users_keyed (w_db w) -> ensure_holder_can_administer i w = (w', Ok x) -> fit (w_db w) i.
Proof.
  intros Hk R. unfold ensure_holder_can_administer in R. unbind R y w1 R1. apply same_db_run in R1; [|tables_auto].
  unbind R o w2 R2. unbind R v w3 R3. read_run R3.
  eapply (found_row i _ _ v) in R2 as ([D2 _] & r & Hr & Ev & Hi); [|by rewrite R1|done]. subst v.
  unbind R able w4 R4. destruct able; [|by apply fail_Ok in R].
  apply able_Ok in R4 as [_ Hf]; [|by rewrite D2, Hi]. by rewrite D2, R1, Hi in Hf.
Qed.

Lemma armed_change_tx actor role ps (w : World) :
  armed (w_db w) -> t_roles (w_db w) !! ro_id role = Some role ->
  (ro_is_default role && existsb is_admin_permission ps) = false ->
  armed (w_db (transaction Internal (change_role_in_tx actor role ps) w).1).
Proof.
  intros Hd Hr Hdef.
  cut (keeps (pres (fun d => armed d /\ t_roles d !! ro_id role = Some role))
         (transaction Internal (change_role_in_tx actor role ps))); [by intros K; apply K|].
  apply transaction_pres. clear w Hd Hr. intros w w' a [Hd Hr] R.
  assert (t_roles (w_db w') !! ro_id role = Some role) as Hr'.
  { assert (leaves [TRoles] w w') as [L _] by (eapply keeps_run, R; tables_auto). by rewrite (L TRoles) by set_solver. }
  split; [|done]. unfold change_role_in_tx in R. unbind R current w1 R1. unfold internal, lock_permissions in R1.
  apply map_err_Ok in R1. unbind R1 y0 w0 R0. read_run R0. read_run R1. destruct R0 as [D0 _], R1 as [D1 _].
  rewrite D0 in D1, R. unbind R x2 w2 R2. apply same_db_run in R2; [|tables_auto]. rewrite D1 in R2.
  unbind R hs w3 R3. unfold internal, Administration.holders in R3. read_run R3. destruct R3 as [D3 _].
  rewrite R2 in D3, R.
  unbind R x4 w4 R4. unbind R x5 w5 R5.
  assert (w_db w4 = w_db w /\ (extends_administration (granted_names (ro_id role) (w_db w)) ps = true ->
    forall i, i ∈ holders_in (ro_id role) (w_db w) -> fit (w_db w) i)) as [D4 Hfit].
  { destruct (extends_administration _ ps); [|by apply ret_Ok in R4 as [_ ->]].
    eapply (each_Ok _ (fun d i => users_keyed d -> fit d i)) in R4 as [D4 Hall].
    - rewrite D3 in *. split; [done|]. intros _ i Hi. apply Hall; [done|]. apply Hd.
    - intros i. tables_auto.
    - intros i ? ? ? Rh Hk. by eapply holder_Ok. }
  apply armed_set_permissions in R5; [|by rewrite D4|..].
  - refine (pres_run armed _ _ _ _ _ R5 R). tables_auto.
  - rewrite D4. intros p i Hp Hq Hi Hn. apply Hfit; [|done]. apply existsb_exists. exists p. split; [|done].
    apply list_elem_of_In, elem_of_lfilter. split; [done|]. apply negb_true_iff, not_true_iff_false.
    rewrite contains_true. by rewrite elem_of_granted_names.
  - rewrite D4. intros r p E Hde Hp. rewrite Hr in E. injection E as <-. rewrite Hde in Hdef. cbn in Hdef.
    apply not_true_iff_false. intros Hq. apply not_true_iff_false in Hdef. apply Hdef, existsb_exists.
    exists p. by rewrite <- list_elem_of_In.
Qed.
Lemma role_find_Ok name (w w' : World) (r : Role) :
  roles_ok (w_db w) -> role_find name w = (w', Ok r) ->
  t_roles (w_db w) !! ro_id r = Some r /\ str_eqb (ro_name r) name = true.
Proof.
  intros Ho R. unfold role_find in R. unbind R o w1 R1. apply ok_or_Ok in R as [-> _]. unfold internal, find_by_name in R1.
  apply map_err_Ok, query_Ok in R1 as [E _]. symmetry in E. apply find_some in E as [Hin Hn].
  split; [|done]. unfold all_roles in Hin. apply in_map_iff in Hin as ([i r'] & <- & Hin).
  apply list_elem_of_In, elem_of_map_to_list in Hin. cbn in *. by rewrite (rk_roles _ Ho _ _ Hin).
Qed.

Lemma armed_set_role actor name ps : kept (set_role_permissions_of actor name ps).
Proof.
  intros w Hd. unfold set_role_permissions_of. apply read_pres; [tables_auto|done|].
  intros role w1 R1 [D1 _]. apply role_find_Ok in R1 as [Hr _]; [|apply Hd].
  apply read_pres; [tables_auto|by rewrite D1|]. intros ps' w2 _ [D2 _].
  destruct (_ && _) eqn:Hdef; [by cbn; rewrite D2, D1|].
  apply read_pres; [tables_auto|by rewrite D2, D1|]. intros [] w3 _ [D3 _].
  apply then_pres; [by apply armed_change_tx; rewrite ?D3, ?D2, ?D1|]. intros [cur hs]. tables_auto.
Qed.

(** A role is created under an identifier of its own. *)
Lemma role_create_Ok {E} (f : SqlError -> E) name desc (w w' : World) (r : Role) :
  map_err f (role_create name desc) w = (w', Ok r) ->
  t_roles (w_db w) !! ro_id r = None /\ ro_is_default r = false /\ t_roles (w_db w') !! ro_id r = Some r /\
  leaves [TUsers; TUserRoles; TRolePermissions; TPermissions] w w'.
Proof.
  intros R. assert (leaves [TUsers; TUserRoles; TRolePermissions; TPermissions] w w') as HL
    by (eapply keeps_run, R; tables_auto).
  apply map_err_Ok in R. unfold role_create in R. unbind R i w1 R1. apply same_db_run in R1; [|tables_auto].
  apply execute_Ok in R as [E1 _]. case_match; [done|]. case_bool_decide as Hn; [done|]. case_match; [done|].
  injection E1 as E1 <-. cbn. rewrite R1 in Hn. split_and!; [|done| |done].
  - by apply eq_None_not_Some.
  - rewrite <- E1. cbn. by rewrite lookup_insert_eq.
Qed.

Lemma armed_create_role_tx actor name desc ps :
  kept (transaction Internal (create_role_in_tx actor name desc ps)).
Proof.
  apply transaction_pres. intros w w' r Hd R. unfold create_role_in_tx in R.
  unbind R x1 w1 R1. apply same_db_run in R1; [|tables_auto]. unbind R r' w2 R2.
  assert (armed (w_db w2)) as H2' by (earlier armed; by rewrite R1).
  apply role_create_Ok in R2 as (Hn & Hdef & Hr & [L2 _]). rewrite R1 in Hn.
  unbind R x3 w3 R3. assert (armed (w_db w3)) as H3'.
  { eapply armed_set_permissions, R3; [done|..].
    - intros p i _ _ (g & Hg & Hgr & _)%elem_of_holders. exfalso. rewrite (L2 TUserRoles), R1 in Hg by set_solver.
      apply Hd in Hg as [_ Hg]. rewrite Hgr, Hn in Hg. by destruct Hg.
    - intros r0 p Hr0 Hde. rewrite Hr in Hr0. injection Hr0 as <-. congruence. }
  refine (pres_run armed _ _ _ _ _ H3' R). tables_auto.
Qed.

(** Someone manages the roles, and the references hold. *)
Definition ruled (d : Db) : Prop := roles_ok d /\ governed d.

#[export] Instance ruled_depends : Depends ruled [TUsers; TUserRoles; TRoles; TRolePermissions].
Proof.
  intros d d' Ha [Ho Hg]. split; [by eapply roles_ok_depends|].
  eapply governed_depends, Hg. intros t Ht. apply Ha. set_solver.
Qed.

Lemma ruled_create_role_tx actor name desc ps :
  keeps (pres ruled) (transaction Internal (create_role_in_tx actor name desc ps)).
Proof.
  apply transaction_pres. intros w w' r [Ho Hd] R.
  assert (roles_ok (w_db w')) as Ho' by (earlier roles_ok; done). split; [done|].
  unfold create_role_in_tx in R.
  unbind R x1 w1 R1. apply same_db_run in R1; [|tables_auto]. unbind R r' w2 R2.
  apply role_create_Ok in R2 as (Hn & Hdef & Hr & [L2 _]). rewrite R1 in Hn.
  unbind R x3 w3 R3. apply set_permissions_Ok in R3 as [Hp [L3 _]].
  assert (governed (w_db w3)) as H3'.
  { destruct Hd as (Hk & i & row & Hrow & Ha & g & Hg & Hgi & Hgp). unfold governed, grants, users_keyed.
    rewrite (L3 TUsers), (L2 TUsers), (L3 TUserRoles), (L2 TUserRoles), R1 by set_solver.
    split; [done|]. exists i, row. split_and!; [done..|]. exists g. split_and!; [done..|]. apply Hp. left.
    rewrite (L2 TRolePermissions), R1 by set_solver. split; [done|]. cbn. intros Heq.
    apply (rk_granted _ Ho) in Hgp as [? Hgp]. cbn in Hgp. rewrite Heq in Hgp. congruence. }
  refine (pres_run governed _ _ _ _ _ H3' R). tables_auto.
Qed.
End ArmedRequests.

#[export] Hint Resolve armed_passkey_create armed_record_use armed_drop_passkey armed_drop_method armed_force armed_remove_access armed_redeem armed_assign_tx armed_register
  armed_set_role armed_create_role_tx ruled_create_role_tx : frame.

(** * The office *)

Section Office.
Import Scenario.Run Office.Office.
#[local] Existing Instance calm.

Lemma office_users (i : Uuid) (r : UserRow) :
  t_users tables !! i = Some r -> (i = 8%N /\ ur_user r = bob) \/ (i = 7%N /\ ur_user r = user).
Proof.
  change (t_users tables) with (<[8%N := {| ur_user := bob; ur_lockout_cleared_at := None |}]>
    ({[ 7%N := {| ur_user := user; ur_lockout_cleared_at := None |} ]} : gmap Uuid UserRow)).
  intros [[<- <-]|[_ Hr]]%lookup_insert_Some; [by left|right]. by apply lookup_singleton_Some in Hr as [<- <-].
Qed.

Lemma office_roles_table (i : Uuid) (r : Role) :
  t_roles tables !! i = Some r -> (i = 4%N /\ r = role 4%N u"administrator" false) \/ (i = 3%N /\ r = role 3%N u"member" true).
Proof.
  change (t_roles tables) with (<[4%N := role 4%N u"administrator" false]> ({[ 3%N := role 3%N u"member" true ]} : gmap Uuid Role)).
  intros [[<- <-]|[_ Hr]]%lookup_insert_Some; [by left|right]. by apply lookup_singleton_Some in Hr as [<- <-].
Qed.

Lemma office_roles : roles_ok tables.
Proof.
  split.
  - intros i r [[-> ->]|[-> ->]]%office_users; done.
  - intros i r [[-> ->]|[-> ->]]%office_roles_table; done.
  - intros g Hg. change (g ∈ [grant 7%N 3%N; grant 8%N 3%N; grant 7%N 4%N]) in Hg.
    repeat (apply elem_of_cons in Hg as [->|Hg]; [split; by eexists|]). by apply not_elem_of_nil in Hg.
  - intros g Hg. change (g ∈ [(3%N, u"posts:read"); (4%N, u"posts:write"); (4%N, ROLES_MANAGE)]) in Hg.
    repeat (apply elem_of_cons in Hg as [->|Hg]; [by eexists|]). by apply not_elem_of_nil in Hg.
Qed.

Lemma office_governed : governed tables.
Proof.
  split; [apply office_roles|]. exists 7%N. eexists. split_and!; [reflexivity..|].
  exists (grant 7%N 4%N). split_and!; [|done|]; cbn; rewrite !elem_of_cons; auto.
Qed.

Lemma office_member (p : str) : (3%N, p) ∈ t_role_permissions tables -> is_admin_permission p = false.
Proof.
  change (t_role_permissions tables) with [(3%N, u"posts:read"); (4%N, u"posts:write"); (4%N, ROLES_MANAGE)].
  intros Hp. apply elem_of_cons in Hp as [[= ->]|Hp]; [by vm_compute|].
  by repeat (apply elem_of_cons in Hp as [Hp|Hp]; [done|]); apply not_elem_of_nil in Hp.
Qed.

Lemma office_administrators (i : Uuid) : administers tables i -> i = 7%N.
Proof.
  intros (p & (g & Hg & <- & Hp) & Ha). change (g ∈ [grant 7%N 3%N; grant 8%N 3%N; grant 7%N 4%N]) in Hg.
  repeat (apply elem_of_cons in Hg as [->|Hg]; [try reflexivity|]); [|by apply not_elem_of_nil in Hg].
  by rewrite (office_member _ Hp) in Ha.
Qed.

Lemma office_armed : armed tables.
Proof.
  split; [exact office_roles|..].
  - intros i ->%office_administrators. left. exists totp. split_and!; [|done..]. cbn. by apply list_elem_of_singleton.
  - intros i r ->%office_administrators [[? _]|[_ ->]]%office_users; done.
  - intros i r p [[-> ->]|[-> ->]]%office_roles_table; [done|]. intros _. apply office_member.
Qed.
End Office.

