(* ===== verification/Service.v ===== *)
(** The service as a state machine: the requests it serves, each as the world
    it leaves, and what every sequence of them preserves.  Between requests the
    clocks move, Redis expires and the plan of outages changes: a step keeps
    nothing but the tables. *)
From S2P Require Import Prelude Crates Codec Session Account OAuthDomain Network Edge Crypto Tables App Outside RedisCounter SessionRepo Repos Tokens UserRepo AccessRepo TokenRepo AccountsOk Scenario TokensCorrect Refresh RefreshCorrect Login LoginCorrect SecondFactor SecondFactorCorrect OneTime OneTimeCorrect SelfService Guard Factors Administration Outbound Office AccessToken Grants GrantsCorrect DeviceFlow DeviceCorrect Passkeys PasskeysCorrect External OAuthService OAuthCorrect EmailChange EmailChangeCorrect Governance.
Import Account.User Account.LoginAttempt Account.Audit Account.TwoFactor Account.Token Account.Role OAuthDomain.Client.

(** Where a request comes from. *)
Record Origin := {
  or_ip : option IpNetwork;
  or_agent : option str;
  or_device : option str;
  or_id : option Uuid;
}.

Inductive request :=
(* signing in *)
| SignIn (identifier password : str) (remember_me : bool)
| Rehash (t : Task)
| CompleteTotp (challenge code : str)
| CompleteEmail (challenge code : str)
| CompleteRecovery (challenge code : str)
| RefreshTokens (raw : str) (client_id : option str)
| SignOut (session_id user_id jti : Uuid) (token_exp : Z)
(* mailed links *)
| Register (username email password locale : str)
| ResendVerification (email : str)
| VerifyEmail (raw password : str)
| ForgotPassword (email : str)
| ResetPassword (raw password : str)
| RequestMagicLink (email : str)
| CompleteMagicLink (raw : str) (remember_me : bool)
(* one's own account *)
| ChangeUsername (user_id : Uuid) (username : str)
| ChangePassword (user_id session_id : Uuid) (current : option str) (password : str) (keep : bool)
| ChangeLocale (user_id : Uuid) (locale : str)
| StartEmailChange (user_id session_id : Uuid) (current : option str)
| VerifyCurrentEmail (user_id : Uuid) (flow_token code : str)
| SubmitNewEmail (user_id : Uuid) (flow_token email : str)
| ConfirmNewEmail (user_id session_id : Uuid) (flow_token code : str)
| DeleteAccount (user_id session_id : Uuid) (current : option str)
| Reauthenticate (user_id session_id : Uuid) (password : str)
| RevokeSession (user_id session_id other : Uuid) (current : option str)
| RevokeSessions (user_id session_id : Uuid) (current : option str) (keep : bool)
| CreateToken (user_id session_id : Uuid) (name : str) (scopes : list str) (days : option Z)
| RevokeToken (user_id id : Uuid)
| ExchangeToken (presented : str)
(* second factors *)
| SetupTotp (user_id session_id : Uuid) (current : option str)
| VerifyTotp (user_id method_id : Uuid) (code : str)
| SetupEmail (user_id session_id : Uuid) (current : option str)
| SendCode (user_id : Uuid) (challenge : option str)
| ResendCode (challenge : str)
| VerifyEmailCode (user_id method_id : Uuid) (code : str)
| RenewRecoveryCodes (user_id session_id : Uuid) (current : option str)
| DisableMethod (user_id session_id method_id : Uuid) (ty : TwoFactorType) (current : option str)
(* passkeys *)
| OfferPasskey (user_id session_id : Uuid)
| RegisterPasskey (user_id session_id : Uuid) (name : str) (credential : Passkey.Attestation)
| RemovePasskey (user_id session_id id : Uuid) (current : option str)
| ChallengePasskey
| SignInWithPasskey (credential : Passkey.Assertion) (remember_me : bool)
(* external identities *)
| StartExternal (name : str)
| ReturnExternal (name : str) (params : list (str * str))
| CompleteExternal (code binding : str) (remember_me : bool)
| StartLink (user_id session_id : Uuid) (name : str)
| CompleteLink (user_id : Uuid) (code binding : str)
| Unlink (user_id session_id id : Uuid) (current : option str)
(* administration *)
| CreateRole (actor : Actor) (name : str) (description : option str) (permissions : list str)
| SetRolePermissions (actor : Actor) (name : str) (permissions : list str)
| DeleteRole (actor : Actor) (name : str)
| AssignRole (actor : Actor) (user_id : Uuid) (name : str)
| UnassignRole (actor : Actor) (user_id : Uuid) (name : str)
| SuspendAccount (actor : Actor) (user_id : Uuid)
| ReactivateAccount (actor : Actor) (user_id : Uuid)
| UnlockAccount (actor : Actor) (user_id : Uuid)
| EndSessions (actor : Actor) (user_id : Uuid)
| ForceReset (actor : Actor) (user_id : Uuid) (revoke_access_factors : bool)
| RemoveAccess (actor : Actor) (user_id : Uuid)
| DeleteOther (actor : Actor) (user_id : Uuid)
| SaveClient (actor : Actor) (client : NewRegisteredClient) (credentials introspection : option bool)
| RemoveClient (actor : Actor) (client_id : str)
| RotateSecret (actor : Actor) (client_id : str)
| RemoveSecret (actor : Actor) (client_id : str)
| CreateWebhook (actor : Actor) (input : Hooks.EndpointInput)
| UpdateWebhook (actor : Actor) (id : Uuid) (input : Hooks.EndpointInput)
| RotateWebhookSecret (actor : Actor) (id : Uuid)
| RemoveWebhook (actor : Actor) (id : Uuid)
| Redeliver (actor : Actor) (endpoint_id delivery_id : Uuid)
(* client applications and devices *)
| StartAuthorization (params : parameters)
| ShowRequest (user_id session_id : Uuid) (id : str)
| ApproveRequest (user_id session_id : Uuid) (id : str) (current : option str)
| DenyRequest (user_id : Uuid) (id : str)
| RequestToken (authorization : option str) (params : parameters)
| StartDevice (authorization : option str) (params : parameters)
| ShowDevice (user_id session_id : Uuid) (user_code : str)
| ApproveDevice (user_id session_id : Uuid) (user_code : str) (current : option str)
| DenyDevice (user_id : Uuid) (user_code : str)
| Introspect (authorization : option str) (params : parameters)
| RevokeGrant (authorization : option str) (params : parameters).

Section Service.
Context `{RedisServer} `{Env} `{TimeCrate} `{CryptoCrates} `{SqlText} `{IpNetworkCrate} `{Jwt}.
Context `{MacCrate} `{AeadCrate} `{TotpCrate} `{HyperLogLog} `{Passwords} `{PreAuthSerde} `{Web} `{Pwned.Sha1Crate}.
Context `{UrlCrate} `{!JwtCrates} `{OAuthCrates} `{!Serde DeviceAuthState} `{!Serde StoredRequest} `{!Serde FlowState} `{Webauthn.WebauthnCrates} `{!Serde PendingRegistration} `{ProviderCrates} `{!Serde External.Pending} `{!Serde External.Outcome}.

(** [state.jwt_verifying_keys], as [main] builds them. *)
Definition verifying_keys : list (str * DecodingKey) :=
  match parse_jwt_keys with Ok keys => keys | Err _ => [] end.

(** The answer is not looked at. *)
Definition served {A} (m : M AppError A) : M AppError unit := m ≫= fun _ => mret tt.

Definition endpoint {A} (m : M EndpointError A) : M AppError unit := _ ← attempt m; mret tt.

Definition handle (o : Origin) (r : request) : M AppError unit :=
  let ip := or_ip o in let ua := or_agent o in let dn := or_device o in let rid := or_id o in
  match r with
  | SignIn identifier password remember_me => served (login identifier password ip ua dn remember_me rid)
  | Rehash t => run_task t
  | CompleteTotp challenge code => served (complete_two_factor_login challenge code ip ua dn rid)
  | CompleteEmail challenge code => served (complete_email_2fa_login challenge code ip ua dn rid)
  | CompleteRecovery challenge code => served (complete_login_with_recovery challenge code ip ua rid)
  | RefreshTokens raw client_id => served (refresh_token raw client_id ip ua rid)
  | SignOut session_id user_id jti token_exp => logout session_id user_id jti token_exp ip rid
  | Register username email password locale => served (register username email password locale ip ua rid)
  | ResendVerification email => resend_verification email ip ua rid
  | VerifyEmail raw password => verify_email raw password ip rid
  | ForgotPassword email => forgot_password email ip ua rid
  | ResetPassword raw password => reset_password raw password ip rid
  | RequestMagicLink email => request_magic_link email ip ua rid
  | CompleteMagicLink raw remember_me => served (complete_magic_link raw ip ua dn remember_me rid)
  | ChangeUsername user_id username => change_username user_id username ip rid
  | ChangePassword user_id session_id current password keep =>
      change_password user_id session_id current password keep ip rid
  | ChangeLocale user_id locale => change_locale user_id locale
  | StartEmailChange user_id session_id current =>
      served (AddressChange.start user_id session_id current ip rid)
  | VerifyCurrentEmail user_id flow_token code => AddressChange.verify_current user_id flow_token code
  | SubmitNewEmail user_id flow_token email => AddressChange.submit_new user_id flow_token email ip rid
  | ConfirmNewEmail user_id session_id flow_token code =>
      AddressChange.confirm_new user_id session_id flow_token code ip rid
  | DeleteAccount user_id session_id current => delete_account user_id session_id current ip rid
  | Reauthenticate user_id session_id password => reauthenticate_on_request user_id session_id password ip rid
  | RevokeSession user_id session_id other current => revoke_own user_id session_id other current ip rid
  | RevokeSessions user_id session_id current keep =>
      served (revoke_all user_id session_id current keep ip rid)
  | CreateToken user_id session_id name scopes days =>
      served (token_create user_id session_id name scopes days ip rid)
  | RevokeToken user_id id => token_revoke user_id id ip rid
  | ExchangeToken presented => served (token_exchange presented)
  | SetupTotp user_id session_id current => served (setup_totp user_id session_id current ip rid)
  | VerifyTotp user_id method_id code => served (verify_totp_setup user_id method_id code rid)
  | SetupEmail user_id session_id current => served (setup_email user_id session_id current ip rid)
  | SendCode user_id challenge => send_code user_id challenge
  | ResendCode challenge => resend_email_two_factor challenge
  | VerifyEmailCode user_id method_id code => served (verify_email_setup user_id method_id code rid)
  | RenewRecoveryCodes user_id session_id current =>
      served (generate_recovery_codes_for user_id session_id current ip rid)
  | DisableMethod user_id session_id method_id ty current =>
      disable_method user_id session_id method_id ty current ip rid
  | OfferPasskey user_id session_id => served (Passkey.registration_options user_id session_id ip rid)
  | RegisterPasskey user_id session_id name credential =>
      served (Passkey.register user_id session_id name credential ip rid)
  | RemovePasskey user_id session_id id current => Passkey.remove user_id session_id id current ip rid
  | ChallengePasskey => served Passkey.authentication_options
  | SignInWithPasskey credential remember_me => served (Passkey.sign_in credential ip ua dn remember_me rid)
  | StartExternal name => served (External.start name External.SignIn None)
  | ReturnExternal name params => served (External.callback name params)
  | CompleteExternal code binding remember_me =>
      served (External.complete_sign_in code binding ip ua dn remember_me rid)
  | StartLink user_id session_id name => served (External.start_link user_id session_id name ip rid)
  | CompleteLink user_id code binding => served (External.complete_link user_id code binding)
  | Unlink user_id session_id id current => External.unlink user_id session_id id current ip rid
  | CreateRole actor name description permissions => served (create_role actor name description permissions)
  | SetRolePermissions actor name permissions => served (set_role_permissions_of actor name permissions)
  | DeleteRole actor name => delete_role actor name
  | AssignRole actor user_id name => assign actor user_id name
  | UnassignRole actor user_id name => unassign_role actor user_id name
  | SuspendAccount actor user_id => suspend_account actor user_id
  | ReactivateAccount actor user_id => reactivate_account actor user_id
  | UnlockAccount actor user_id => unlock actor user_id
  | EndSessions actor user_id => served (revoke_sessions actor user_id)
  | ForceReset actor user_id revoke_access_factors => force_password_reset actor user_id revoke_access_factors
  | RemoveAccess actor user_id => remove_access_factors actor user_id
  | DeleteOther actor user_id => delete_other_account actor user_id
  | SaveClient actor client credentials introspection =>
      served (client_save actor client credentials introspection)
  | RemoveClient actor client_id => client_remove actor client_id
  | RotateSecret actor client_id => served (rotate_secret actor client_id)
  | RemoveSecret actor client_id => remove_secret actor client_id
  | CreateWebhook actor input => served (Hooks.create actor input)
  | UpdateWebhook actor id input => served (Hooks.update actor id input)
  | RotateWebhookSecret actor id => served (Hooks.rotate_endpoint_secret actor id)
  | RemoveWebhook actor id => Hooks.remove actor id
  | Redeliver actor endpoint_id delivery_id => Hooks.redeliver actor endpoint_id delivery_id
  | StartAuthorization params => endpoint (Endpoint.start_authorization params)
  | ShowRequest user_id session_id id => served (Endpoint.describe_request user_id session_id id)
  | ApproveRequest user_id session_id id current =>
      served (Endpoint.approve_request user_id session_id id current ip rid)
  | DenyRequest user_id id => served (Endpoint.deny_request user_id id)
  | RequestToken authorization params => endpoint (Endpoint.token authorization params ip ua)
  | StartDevice authorization params => endpoint (Endpoint.device_authorization authorization params ip ua)
  | ShowDevice user_id session_id user_code => served (Device.describe user_id session_id user_code ip)
  | ApproveDevice user_id session_id user_code current =>
      Device.verify {| Device.da_user_id := user_id; Device.da_session_id := session_id;
        Device.da_user_code := user_code; Device.da_current_password := current; Device.da_ip := ip;
        Device.da_request_id := rid |}
  | DenyDevice user_id user_code => Device.deny user_id user_code ip
  | Introspect authorization params => endpoint (Endpoint.introspect verifying_keys authorization params ip)
  | RevokeGrant authorization params => endpoint (Endpoint.revoke verifying_keys authorization params ip)
  end.

(** One request, at some time, on the tables the one before it left. *)
Inductive step (d : Db) : Db -> Prop :=
| step_request (o : Origin) (r : request) (w : World) : w_db w = d -> step d (w_db (handle o r w).1).

Lemma step_pres (P : Db -> Prop) :
  (forall o r, keeps (pres P) (handle o r)) -> forall d d', rtc step d d' -> P d -> P d'.
Proof.
  intros Hh d d' Hs. induction Hs as [|d d1 d' [o r w <-] _ IH]; [done|]. intros HP. by apply IH, Hh.
Qed.

(** ** Requests on client applications loop over sessions *)

Lemma keeps_blocklist_each (R : World -> World -> Prop) `{!CoreFrame R, !RedisFrame R} l :
  keeps R (blocklist_each l).
Proof. induction l; cbn; frame_auto; tables_auto. Qed.
End Service.

#[export] Hint Resolve keeps_blocklist_each : frame.
