(* ===== verification/Invariants.v ===== *)
(** What every sequence of requests preserves: the accounts table stays
    well-formed, an active account able to manage the roles remains, and whoever
    holds an administrative permission has a second factor. *)
From S2P Require Import Prelude Crates Codec Session Account OAuthDomain Network Edge Crypto Tables App Outside RedisCounter SessionRepo Repos Tokens UserRepo AccessRepo TokenRepo AccountsOk Scenario TokensCorrect Refresh RefreshCorrect Login LoginCorrect SecondFactor SecondFactorCorrect OneTime OneTimeCorrect SelfService Guard Factors Administration Outbound Office AccessToken Grants GrantsCorrect DeviceFlow DeviceCorrect Passkeys PasskeysCorrect External OAuthService OAuthCorrect EmailChange EmailChangeCorrect Governance Service.
Import Account.User Account.LoginAttempt Account.Audit Account.TwoFactor Account.Token Account.Role.

Section Invariants.
Context `{RedisServer} `{Env} `{TimeCrate} `{CryptoCrates} `{SqlText} `{IpNetworkCrate} `{Jwt}.
Context `{MacCrate} `{AeadCrate} `{TotpCrate} `{HyperLogLog} `{Passwords} `{PreAuthSerde} `{Web} `{Pwned.Sha1Crate}.
Context `{UrlCrate} `{!JwtCrates} `{OAuthCrates} `{!Serde DeviceAuthState} `{!Serde StoredRequest} `{!Serde FlowState} `{Webauthn.WebauthnCrates} `{!Serde PendingRegistration} `{ProviderCrates} `{!Serde External.Pending} `{!Serde External.Outcome}.

Lemma accounts_handle o r : keeps (pres accounts_wf) (handle o r).
Proof. destruct r; unfold handle, served; tables_auto. Qed.

Lemma roles_ok_handle o r : keeps (pres roles_ok) (handle o r).
Proof. destruct r; unfold handle, served; tables_auto. Qed.

Lemma armed_handle o r : keeps (pres armed) (handle o r).
Proof. destruct r; unfold handle, served; tables_auto. Qed.

(** Creating a role relies on its identifier being unused. *)
Lemma ruled_handle o r : keeps (pres ruled) (handle o r).
Proof.
  assert (keeps (pres governed) (handle o r) \/ keeps (pres ruled) (handle o r)) as [Hg|Hg]; [| |done].
  - destruct r; unfold handle, served; try (left; solve [tables_auto]). right. tables_auto.
  - intros w [Ho Hd]. split; [by apply roles_ok_handle|by apply Hg].
Qed.

(** C32: Whatever requests are served, from whatever origin, at whatever time and
    with whatever outages, the accounts stay well-formed: each row under its own
    identifier and within the schema's checks, no two accounts with one address
    or one user name up to case. *)
Theorem accounts_stay_wf (d d' : Db) : rtc step d d' -> accounts_wf d -> accounts_wf d'.
Proof. apply step_pres, accounts_handle. Qed.

(** C9: The service never loses its last administrator: as long as an active
    account holds [roles:manage], one does after any sequence of requests,
    those of administrators on roles, on one another and on themselves
    included; and roles, grants and accounts keep referring to one another. *)
Theorem administrator_remains (d d' : Db) :
  rtc step d d' -> roles_ok d -> governed d -> roles_ok d' /\ governed d'.
Proof. intros Hs Ho Hd. by apply (step_pres ruled ruled_handle d). Qed.

(** C16: No request leaves an administrative permission in the hands of an
    account without a second factor or still to be verified, and the default
    role never grants one: not by assigning a role, extending one, disabling a
    method, a password reset, an administrator's removal of access factors nor
    registering. *)
Theorem administrators_armed (d d' : Db) : rtc step d d' -> armed d -> armed d'.
Proof. apply step_pres, armed_handle. Qed.
End Invariants.

(** * Witnesses *)

Section Witnesses.
Import Scenario.Run Office.Office.
#[local] Existing Instance calm.
#[local] Existing Instance Pwned.toy_sha1.
#[local] Existing Instance quiet_web.

Definition nowhere : Origin := {| or_ip := None; or_agent := None; or_device := None; or_id := None |}.

(** Account 8 changes its user name; then the administrator, alone, gives up
    the role, which is refused. *)
Definition renamed : World := (handle nowhere (ChangeUsername 8%N u"robert") office).1.
Definition kept_role : World := (handle nowhere (UnassignRole admin 7%N u"administrator") renamed).1.

Lemma office_run : rtc step tables (w_db kept_role).
Proof.
  apply (rtc_l _ _ (w_db renamed)); [apply (step_request _ nowhere (ChangeUsername 8%N u"robert") office eq_refl)|].
  apply rtc_once. apply (step_request _ nowhere (UnassignRole admin 7%N u"administrator") renamed eq_refl).
Qed.

Lemma office_wf : accounts_wf tables.
Proof.
  unfold accounts_wf. split.
  - intros i r [[-> ->]|[-> ->]]%office_users; done.
  - intros i r [[-> ->]|[-> ->]]%office_users; by vm_compute.
  - intros i j r r' [[-> ->]|[-> ->]]%office_users [[-> ->]|[-> ->]]%office_users; by vm_compute.
  - intros i j r r' [[-> ->]|[-> ->]]%office_users [[-> ->]|[-> ->]]%office_users; by vm_compute.
Qed.

Lemma accounts_stay_wf_witness :
  u_username <$> (ur_user <$> t_users (w_db kept_role) !! 8%N) = Some u"robert" /\ accounts_wf (w_db kept_role).
Proof.
  split; [vm_compute; reflexivity|]. exact (accounts_stay_wf tables (w_db kept_role) office_run office_wf).
Defined.

Lemma administrator_remains_witness :
  (handle nowhere (UnassignRole admin 7%N u"administrator") renamed).2 = Err (Conflict u"last_administrator") /\
  roles_ok (w_db kept_role) /\ governed (w_db kept_role).
Proof.
  split; [vm_compute; reflexivity|].
  exact (administrator_remains tables (w_db kept_role) office_run office_roles office_governed).
Defined.

(** Giving account 8 the role is refused for want of a second factor. *)
Definition assigned : World * result unit AppError := handle nowhere (AssignRole admin 8%N u"administrator") office.

Lemma administrators_armed_witness :
  assigned.2 = Err (Conflict u"administrator_without_second_factor") /\ armed (w_db assigned.1).
Proof.
  split; [vm_compute; reflexivity|]. apply (administrators_armed tables (w_db assigned.1)); [|exact office_armed].
  apply rtc_once. apply (step_request _ nowhere (AssignRole admin 8%N u"administrator") office eq_refl).
Defined.
End Witnesses.
