(* ===== verification/Delegation.v ===== *)
(** Who may hand out privileges: what an administrator does not hold, nobody
    gains or loses by that administrator's requests; and whatever the request,
    an account only gains what an administrator who held it gave, or what the
    default role gives to a new account. *)
From S2P Require Import Prelude Crates Codec Session Account OAuthDomain Network Edge Crypto Tables App Outside RedisCounter SessionRepo Repos Tokens UserRepo AccessRepo TokenRepo AccountsOk Scenario TokensCorrect Refresh RefreshCorrect Login LoginCorrect SecondFactor SecondFactorCorrect OneTime OneTimeCorrect SelfService Guard Factors Administration Outbound Office AccessToken Grants GrantsCorrect DeviceFlow DeviceCorrect Passkeys PasskeysCorrect External OAuthService OAuthCorrect EmailChange EmailChangeCorrect Governance Service Invariants.
Import Account.User Account.LoginAttempt Account.Audit Account.TwoFactor Account.Token Account.Role.

Section Delegated.
Context `{RedisServer} `{Env} `{TimeCrate} `{CryptoCrates} `{SqlText} `{IpNetworkCrate} `{Jwt}.
Context `{MacCrate} `{AeadCrate} `{TotpCrate} `{HyperLogLog} `{Passwords} `{PreAuthSerde} `{Web} `{Pwned.Sha1Crate}.
Context `{UrlCrate} `{!JwtCrates} `{OAuthCrates} `{!Serde DeviceAuthState} `{!Serde StoredRequest} `{!Serde FlowState} `{Webauthn.WebauthnCrates} `{!Serde PendingRegistration} `{ProviderCrates} `{!Serde External.Pending} `{!Serde External.Outcome}.

(** Only what [a] holds changed hands. *)
Definition delegated (a : Uuid) (d d' : Db) : Prop :=
  roles_ok d -> roles_ok d' /\ forall i p, ~ grants d a p -> (grants d' i p <-> grants d i p).

Lemma delegated_refl a d : delegated a d d.
Proof. by intros Ho. Qed.

Lemma delegated_trans a d1 d2 d3 : delegated a d1 d2 -> delegated a d2 d3 -> delegated a d1 d3.
Proof.
  intros K12 K23 Ho. destruct (K12 Ho) as [Ho2 G12]. destruct (K23 Ho2) as [Ho3 G23].
  split; [done|]. intros i p Hn. rewrite G23, G12 by (rewrite ?G12; done). done.
Qed.

#[export] Instance delegated_depends a d0 :
  Depends (delegated a d0) [TUsers; TUserRoles; TRoles; TRolePermissions].
Proof.
  intros d d' Ha Hd Ho. destruct (Hd Ho) as [Ho' Hg]. split; [by eapply roles_ok_depends|].
  intros i p Hn. rewrite <- Hg by done. unfold grants.
  by rewrite (Ha TUserRoles), (Ha TRolePermissions) by set_solver.
Qed.

(** From the tables a successful body leaves. *)
Lemma delegated_transaction {A} a d0 (body : M AppError A) :
  (forall w w' x, roles_ok (w_db w) -> body w = (w', Ok x) -> delegated a (w_db w) (w_db w')) ->
  keeps (pres (delegated a d0)) (transaction Internal body).
Proof.
  intros Hb. apply transaction_pres. intros w w' x Hd R Ho. destruct (Hd Ho) as [Ho1 _].
  exact (delegated_trans a _ _ _ Hd (Hb _ _ _ Ho1 R) Ho).
Qed.

Lemma delegated_try_transaction {A} a d0 (body : M AppError (option A)) :
  (forall w w' x, roles_ok (w_db w) -> body w = (w', Ok (Some x)) -> delegated a (w_db w) (w_db w')) ->
  keeps (pres (delegated a d0)) (try_transaction Internal body).
Proof.
  intros Hb. apply try_transaction_pres. intros w w' x Hd R Ho. destruct (Hd Ho) as [Ho1 _].
  exact (delegated_trans a _ _ _ Hd (Hb _ _ _ Ho1 R) Ho).
Qed.

Lemma actor_holds_Ok actor ps (w w' : World) (x : unit) :
  ensure_actor_holds actor ps w = (w', Ok x) ->
  w_db w' = w_db w /\ forall p, p ∈ ps -> grants (w_db w) (ad_user_id actor) p.
Proof.
  apply (each_Ok _ (fun d => grants d (ad_user_id actor))); [intros; tables_auto|].
  intros p w1 w1' y R. unbind R held w2 R2.
  unfold internal, user_has_permission in R2. read_run R2. destruct (permits _ _ _) eqn:E; [|by apply fail_Ok in R].
  by apply str_eqb_permits.
Qed.

Lemma lock_permissions_Ok rid (w w' : World) current :
  internal (lock_permissions rid) w = (w', Ok current) -> w_db w' = w_db w /\ current = granted_names rid (w_db w).
Proof.
  unfold internal, lock_permissions. intros R. apply map_err_Ok in R. unbind R x w1 R1.
  read_run R1. read_run R. destruct R as [D _], R1 as [D1 _]. by rewrite D, D1.
Qed.

(** ** The transactions *)

Lemma delegated_create actor name desc ps d0 :
  keeps (pres (delegated (ad_user_id actor) d0)) (transaction Internal (create_role_in_tx actor name desc ps)).
Proof.
  apply delegated_transaction. intros w w' r Ho R _.
  assert (roles_ok (w_db w')) as Ho' by (earlier roles_ok; done). unfold create_role_in_tx in R.
  unbind R x1 w1 R1. apply same_db_run in R1; [|tables_auto]. unbind R r' w2 R2.
  apply role_create_Ok in R2 as (Hn & _ & Hr & [L2 _]). rewrite R1 in Hn.
  unbind R x3 w3 R3. apply set_permissions_Ok in R3 as [Hp [L3 _]].
  assert (leaves [TUserRoles; TRolePermissions] w3 w') as [L4 _] by (eapply keeps_run, R; tables_auto).
  split; [done|]. intros i p _. unfold grants.
  rewrite (L4 TUserRoles), (L3 TUserRoles), (L2 TUserRoles), R1 by set_solver.
  split; intros (g & Hg & Hi & Hgp); exists g; (split_and!; [done..|]).
  - rewrite (L4 TRolePermissions) in Hgp by set_solver. apply Hp in Hgp as [[Hgp _]|(Heq & _)].
    + by rewrite (L2 TRolePermissions), R1 in Hgp by set_solver.
    + cbn in Heq. apply Ho in Hg as [_ Hg]. rewrite Heq, Hn in Hg. by destruct Hg.
  - rewrite (L4 TRolePermissions) by set_solver. apply Hp. left.
    rewrite (L2 TRolePermissions), R1 by set_solver. split; [done|]. cbn. intros Heq.
    apply (rk_granted _ Ho) in Hgp as [? Hgp]. cbn in Hgp. rewrite Heq in Hgp. congruence.
Qed.

Lemma elem_added current ps p : p ∈ ps -> p ∈ added_to current ps \/ p ∈ current.
Proof.
  intros Hp. destruct (contains current p) eqn:E; [right; by apply contains_true|left].
  apply elem_of_lfilter. by rewrite E.
Qed.

Lemma elem_removed current ps p : p ∈ current -> p ∈ removed_from current ps \/ p ∈ ps.
Proof.
  intros Hp. destruct (contains ps p) eqn:E; [right; by apply contains_true|left].
  apply elem_of_lfilter. by rewrite E.
Qed.

Lemma delegated_change actor role ps (w w' : World) x :
  (forall p, p ∈ ps -> p ∈ t_permissions (w_db w)) ->
  change_role_in_tx actor role ps w = (w', Ok x) -> delegated (ad_user_id actor) (w_db w) (w_db w').
Proof.
  intros Hkn R Ho. assert (roles_ok (w_db w')) as Ho' by (earlier roles_ok; done). split; [done|].
  unfold change_role_in_tx in R. unbind R current w1 R1. apply lock_permissions_Ok in R1 as [D1 ->].
  unbind R x2 w2 R2. apply actor_holds_Ok in R2 as [D2 Hh]. unbind R hs w3 R3. apply same_db_run in R3; [|tables_auto].
  unbind R x4 w4 R4. assert (w_db w4 = w_db w3) as D4.
  { destruct (extends_administration _ _); [|by apply ret_Ok in R4 as [_ ->]].
    apply same_db_run in R4; [done|]. tables_auto. }
  unbind R x5 w5 R5. apply set_permissions_Ok in R5 as [Hp [L5 _]].
  rewrite D4, R3, D2, D1 in Hp, L5. rewrite D1 in Hh.
  assert (leaves [TUserRoles; TRolePermissions] w5 w') as [L6 _] by (eapply keeps_run, R; tables_auto).
  intros i p Hn. unfold grants. rewrite (L6 TUserRoles), (L6 TRolePermissions), (L5 TUserRoles) by set_solver.
  assert (p ∉ added_to (granted_names (ro_id role) (w_db w)) ps) as Ha
    by (intros Ha; apply Hn, Hh, elem_of_app; by left).
  assert (p ∉ removed_from (granted_names (ro_id role) (w_db w)) ps) as Hr
    by (intros Hr; apply Hn, Hh, elem_of_app; by right).
  split; intros (g & Hg & Hi & Hgp); exists g; (split_and!; [done..|]).
  - apply Hp in Hgp as [[? _]|(Heq & Hps & _)]; [done|]. cbn in *. rewrite Heq.
    apply elem_of_granted_names. by destruct (elem_added (granted_names (ro_id role) (w_db w)) ps p Hps).
  - apply Hp. cbn. destruct (decide (ur_role_id g = ro_id role)) as [Heq|Hne]; [right|by left].
    rewrite Heq in Hgp. apply elem_of_granted_names in Hgp.
    destruct (elem_removed (granted_names (ro_id role) (w_db w)) ps p Hgp); [done|]. auto.
Qed.

Lemma known_permissions_Ok ps (w w' : World) ps' :
  known_permissions ps w = (w', Ok ps') -> w_db w' = w_db w /\ forall p, p ∈ ps' -> p ∈ t_permissions (w_db w).
Proof.
  unfold known_permissions. intros R. unbind R unknown w1 R1. unfold internal, unknown_permissions in R1.
  read_run R1. destruct R1 as [D1 _]. case_bool_decide as Hu; [|by apply fail_Ok in R].
  apply ret_Ok in R as [-> ->]. split; [done|]. intros p Hp. apply contains_true. destruct (contains _ p) eqn:E; [done|].
  exfalso. assert (p ∈ ([] : list str)) as []%not_elem_of_nil. rewrite <- Hu. unfold sort_strs.
  rewrite merge_sort_Permutation. apply elem_of_lfilter. by rewrite E.
Qed.

Lemma delegated_set actor name ps d0 :
  keeps (pres (delegated (ad_user_id actor) d0)) (set_role_permissions_of actor name ps).
Proof.
  intros w Hd. unfold set_role_permissions_of. apply read_pres; [tables_auto|done|]. intros role w1 _ [D1 _].
  apply read_pres; [tables_auto|by rewrite D1|]. intros ps' w2 R2 _. apply known_permissions_Ok in R2 as [D2 Hkn].
  rewrite D1 in D2, Hkn. destruct (_ && _); [by cbn; rewrite D2|].
  apply read_pres; [tables_auto|by rewrite D2|]. intros [] w3 _ [D3 _]. rewrite D2 in D3.
  apply then_pres; [|intros [? ?]; tables_auto].
  destruct (transaction _ _ w3) as [w4 r] eqn:E. cbn.
  apply transaction_run in E as [[_ ->]|(w5 & x & R & -> & _ & _)]; [by rewrite D3|].
  apply delegated_change in R; [|cbn; by rewrite D3]. cbn in R. rewrite D3 in R. by eapply delegated_trans.
Qed.

Lemma delegated_delete actor role d0 :
  keeps (pres (delegated (ad_user_id actor) d0)) (transaction Internal (delete_role_in_tx actor role)).
Proof.
  apply delegated_transaction. intros w w' x Ho R _.
  assert (roles_ok (w_db w')) as Ho' by (earlier roles_ok; done). split; [done|].
  unfold delete_role_in_tx in R. unbind R current w1 R1. apply lock_permissions_Ok in R1 as [D1 ->].
  unbind R x2 w2 R2. apply actor_holds_Ok in R2 as [D2 Hh]. unbind R hs w3 R3. apply same_db_run in R3; [|tables_auto].
  unbind R x4 w4 R4. unfold internal, role_delete in R4. apply map_err_Ok, execute_Ok in R4 as [[= E4] _].
  rewrite R3, D2, D1 in E4. rewrite D1 in Hh.
  assert (leaves [TUserRoles; TRolePermissions] w4 w') as [L6 _] by (eapply keeps_run, R; tables_auto).
  intros i p Hn. unfold grants. rewrite (L6 TUserRoles), (L6 TRolePermissions), <- E4 by set_solver. cbn.
  split; intros (g & Hg & Hi & Hgp); exists g.
  - apply elem_of_without in Hg as [? _], Hgp as [? _]. done.
  - assert (ur_role_id g <> ro_id role) as Hne.
    { intros Heq. apply Hn, Hh, elem_of_granted_names. by rewrite <- Heq. }
    split_and!; [|done|]; apply elem_of_without; (split; [done|]); by apply bool_decide_eq_false.
Qed.

Lemma delegated_assign actor uid role d0 :
  keeps (pres (delegated (ad_user_id actor) d0)) (try_transaction Internal (assign_in_tx actor uid role)).
Proof.
  apply delegated_try_transaction. intros w w' [] Ho R _.
  assert (roles_ok (w_db w')) as Ho' by (earlier roles_ok; done). split; [done|].
  unfold assign_in_tx in R. unbind R x1 w1 R1. apply same_db_run in R1; [|tables_auto].
  unbind R o w2 R2. apply same_db_run in R2; [|tables_auto]. unbind R v w3 R3. read_run R3.
  unbind R current w4 R4. apply lock_permissions_Ok in R4 as [D4 ->].
  unbind R x5 w5 R5. apply actor_holds_Ok in R5 as [D5 Hh]. unbind R x6 w6 R6. apply same_db_run in R6; [|tables_auto].
  unbind R a w7 R7. apply attempt_run in R7 as (a' & R7 & [= ->]).
  destruct a' as [g0|[]]; [|by (apply fail_Ok in R || apply ret_Ok in R as [[=] _])..].
  unfold assign_to_user in R7. apply execute_Ok in R7 as [E7 _]. repeat case_match; try done.
  injection E7 as E7 _. rewrite R6, D5, D4, R2, R1 in E7. rewrite D4, R2, R1 in Hh.
  assert (leaves [TUserRoles; TRolePermissions] w7 w') as [L _] by (eapply keeps_run, R; tables_auto).
  intros i p Hn. unfold grants. rewrite (L TUserRoles), (L TRolePermissions), <- E7 by set_solver. cbn.
  split; intros (g & Hg & Hi & Hgp); exists g; (split_and!; try done).
  - apply elem_of_app in Hg as [?| ->%list_elem_of_singleton]; [done|]. exfalso. cbn in Hgp.
    apply Hn, Hh, elem_of_granted_names. done.
  - apply elem_of_app. by left.
Qed.

Lemma delegated_unassign actor uid role d0 :
  keeps (pres (delegated (ad_user_id actor) d0)) (try_transaction Internal (unassign_in_tx actor uid role)).
Proof.
  apply delegated_try_transaction. intros w w' [] Ho R _.
  assert (roles_ok (w_db w')) as Ho' by (earlier roles_ok; done). split; [done|].
  unfold unassign_in_tx in R. unbind R current w1 R1. apply lock_permissions_Ok in R1 as [D1 ->].
  unbind R x2 w2 R2. apply actor_holds_Ok in R2 as [D2 Hh]. unbind R held w3 R3.
  unfold internal, unassign in R3. apply map_err_Ok, execute_Ok in R3 as [[= E3 _] _].
  rewrite D2, D1 in E3. rewrite D1 in Hh. destruct held; [|by apply ret_Ok in R as [[=] _]].
  assert (leaves [TUserRoles; TRolePermissions] w3 w') as [L _] by (eapply keeps_run, R; tables_auto).
  intros i p Hn. unfold grants. rewrite (L TUserRoles), (L TRolePermissions), <- E3 by set_solver. cbn.
  split; intros (g & Hg & Hi & Hgp); exists g.
  - by apply elem_of_without in Hg as [? _].
  - rewrite elem_of_without. unfold is_own. split_and!; try done. destruct (bool_decide (ur_role_id g = _)) eqn:E.
    + apply bool_decide_eq_true in E. exfalso. apply Hn, Hh, elem_of_granted_names. by rewrite <- E.
    + by rewrite andb_false_r.
Qed.
End Delegated.

#[export] Hint Resolve delegated_create delegated_set delegated_delete delegated_assign delegated_unassign : frame.

(** * Every request *)

(** The requests that hand out privileges, and who makes them. *)
Definition role_request (r : request) : option Actor :=
  match r with
  | CreateRole actor _ _ _ | SetRolePermissions actor _ _ | DeleteRole actor _
  | AssignRole actor _ _ | UnassignRole actor _ _ => Some actor
  | _ => None
  end.

Section Escalation.
Context `{RedisServer} `{Env} `{TimeCrate} `{CryptoCrates} `{SqlText} `{IpNetworkCrate} `{Jwt}.
Context `{MacCrate} `{AeadCrate} `{TotpCrate} `{HyperLogLog} `{Passwords} `{PreAuthSerde} `{Web} `{Pwned.Sha1Crate}.
Context `{UrlCrate} `{!JwtCrates} `{OAuthCrates} `{!Serde DeviceAuthState} `{!Serde StoredRequest} `{!Serde FlowState} `{Webauthn.WebauthnCrates} `{!Serde PendingRegistration} `{ProviderCrates} `{!Serde External.Pending} `{!Serde External.Outcome}.

Lemma delegated_handle o r actor d0 :
  role_request r = Some actor -> keeps (pres (delegated (ad_user_id actor) d0)) (handle o r).
Proof. intros E. destruct r; try discriminate E; injection E as ->; unfold handle, served; tables_auto. Qed.

(** Nobody holds more than [Q] allows. *)
Definition within (Q : Uuid -> str -> Prop) (d : Db) : Prop := forall i p, grants d i p -> Q i p.

#[export] Instance within_depends Q : Depends (within Q) [TUserRoles; TRolePermissions].
Proof.
  intros d d' Ha Hq i p. unfold grants. rewrite (Ha TUserRoles), (Ha TRolePermissions) by set_solver. apply Hq.
Qed.

Lemma within_erase Q uid : keeps (pres (within Q)) (erase uid).
Proof.
  apply keeps_pres_execute. intros d t d' a E. destruct (t_users d !! uid); [|done].
  injection E as <- _. intros Hq i p (g & (g0 & -> & Hg0)%list_elem_of_fmap & Hi & Hp). cbn in *.
  apply elem_of_without in Hg0 as [Hg0 _]. apply Hq. exists g0. split; [done|].
  unfold orphan_grant in *. by case_match.
Qed.

(** What opening an account gives it. *)
Lemma opened n e h l role raw ip ua rid (w w' : World) v :
  open_account n e h l role raw ip ua rid w = (w', Ok (Some v)) ->
  t_users (w_db w) !! u_id v = None /\ leaves [TRolePermissions; TRoles] w w' /\
  (forall i, is_Some (t_users (w_db w) !! i) -> is_Some (t_users (w_db w') !! i)) /\
  forall g, g ∈ t_user_roles (w_db w') -> g ∈ t_user_roles (w_db w) \/
    (ur_user_id g = u_id v /\ exists r, role = Some r /\ ur_role_id g = ro_id r).
Proof.
  intros R. assert (leaves [TRolePermissions; TRoles] w w') as HL by (eapply keeps_run, R; tables_auto).
  unfold open_account in R. unbind R c w1 R1. apply attempt_run in R1 as (c' & R1 & [= ->]).
  destruct c' as [v'|er]; [|by repeat case_match; (apply ret_Ok in R as [[=] _] || apply fail_Ok in R)].
  assert (leaves [TUserRoles] w w1) as [L1 _] by (eapply keeps_run, R1; tables_auto).
  assert (leaves [TUsers] w1 w') as [L2 _] by (eapply keeps_run, R; tables_auto).
  unfold user_create in R1. unbind R1 i w0 R0. apply same_db_run in R0; [|tables_auto].
  apply execute_Ok in R1 as [E1 _]. case_bool_decide as Hn; [done|]. unfold put_user in E1.
  destruct (user_refused _ _); [done|]. injection E1 as E1 <-. rewrite R0 in Hn, E1. unbind R x2 w2 R2.
  assert (leaves [TUserRoles] w2 w') as [L3 _] by (eapply keeps_run, R; tables_auto).
  unbind R at3 w3 R3. unbind R x4 w4 R4. unbind R x5 w5 R5. unbind R x6 w6 R6. apply ret_Ok in R as [[= ->] _].
  split_and!; [by apply eq_None_not_Some|done|..].
  - intros j Hj. rewrite (L2 TUsers), <- E1 by set_solver. cbn. by apply lookup_insert_is_Some'; right.
  - intros g. rewrite (L3 TUserRoles) by set_solver.
    rewrite <- (L1 TUserRoles) by set_solver. destruct role as [r|]; [|apply ret_Ok in R2 as [_ ->]; auto].
    unbind R2 g0 w7 R7. apply ret_Ok in R2 as [_ ->]. unfold internal, assign_to_user in R7.
    apply map_err_Ok, execute_Ok in R7 as [E7 _]. repeat case_match; try done. injection E7 as <- _. cbn.
    intros [?| ->%list_elem_of_singleton]%elem_of_app; [auto|]. right. cbn. eauto.
Qed.

(** What a new account may get. *)
Definition by_default (d : Db) (i : Uuid) (p : str) : Prop :=
  t_users d !! i = None /\
  exists r, t_roles d !! ro_id r = Some r /\ ro_is_default r = true /\ (ro_id r, p) ∈ t_role_permissions d.

(** The tables after accounts were opened. *)
Record grown (d0 d : Db) : Prop := {
  gw_roles_ok : roles_ok d;
  gw_users : forall i, is_Some (t_users d0 !! i) -> is_Some (t_users d !! i);
  gw_roles : t_roles d = t_roles d0;
  gw_granted : t_role_permissions d = t_role_permissions d0;
  gw_grants : forall i p, grants d i p -> grants d0 i p \/ by_default d0 i p;
}.

#[local] Instance grown_depends d0 :
  Depends (grown d0) [TUsers; TUserRoles; TRoles; TRolePermissions; TMethods; TPasskeys].
Proof.
  intros d d' Ha [Ho Hu Hr Hp Hg]. split.
  - eapply roles_ok_depends, Ho. intros; apply Ha; set_solver.
  - by rewrite (Ha TUsers) by set_solver.
  - by rewrite (Ha TRoles) by set_solver.
  - by rewrite (Ha TRolePermissions) by set_solver.
  - intros i p. unfold grants. rewrite (Ha TUserRoles), (Ha TRolePermissions) by set_solver. apply Hg.
Qed.

Lemma grown_register d0 n e pw l ip ua rid : keeps (pres (grown d0)) (register n e pw l ip ua rid).
Proof.
  apply (register_pres (grown d0)); [by intros d []|]. intros h role raw w Hd Hrole.
  set (P := fun d => grown d0 d /\ t_roles d = t_roles (w_db w)).
  cut (keeps (pres P) (try_transaction Internal (open_account n e h l role raw ip ua rid))); [by intros K; apply K|].
  apply try_transaction_pres. intros w1 w2 v [[Ho Hu Hr Hp Hg] Er] R.
  assert (roles_ok (w_db w2)) as Ho2 by (earlier roles_ok; done).
  apply opened in R as (Hnew & [HL _] & Hmono & Hroles).
  split; [|by rewrite (HL TRoles) by set_solver]. split; [done|by auto|..].
  - by rewrite (HL TRoles) by set_solver.
  - by rewrite (HL TRolePermissions) by set_solver.
  - intros i p (g & Hin & Hi & Hgp). rewrite (HL TRolePermissions) in Hgp by set_solver.
    apply Hroles in Hin as [Hin|(Hv & r & -> & Hrid)]; [apply Hg; by exists g|]. right. split.
    + rewrite <- Hi, Hv. apply eq_None_not_Some. intros [? Hs]%Hu. congruence.
    + exists r. destruct (Hrole r eq_refl) as [Hr1 Hr2]. rewrite <- Er, Hr in Hr1.
      split_and!; [done..|]. by rewrite <- Hp, <- Hrid.
Qed.
#[local] Hint Resolve within_erase : frame.

Lemma within_handle Q o r :
  role_request r = None -> (forall n e p l, r <> Service.Register n e p l) -> keeps (pres (within Q)) (handle o r).
Proof.
  intros Hr Hn. destruct r; try discriminate Hr; try (by destruct (Hn username email password locale));
    unfold handle, served; tables_auto.
Qed.

(** Nobody hands out or withdraws what they do not hold: after a request on
    roles, refused or not, the accounts hold exactly what they held of every
    permission its administrator does not have. *)
Theorem delegation_bounded (o : Origin) (r : request) (actor : Actor) (w : World) (i : Uuid) (p : str) :
  roles_ok (w_db w) -> role_request r = Some actor -> ~ grants (w_db w) (ad_user_id actor) p ->
  (grants (w_db (handle o r w).1) i p <-> grants (w_db w) i p).
Proof.
  intros Ho Hr Hn. destruct (delegated_handle o r actor (w_db w) Hr w (delegated_refl _ _) Ho) as [_ Hg]. by apply Hg.
Qed.

(** C10: No privilege escalation, whatever the request: an account that holds a
    permission it did not hold before got it either by a request on roles whose
    administrator held that permission, or with the default role, as an account
    that did not exist. *)
Theorem no_privilege_escalation (o : Origin) (r : request) (w : World) (i : Uuid) (p : str) :
  roles_ok (w_db w) -> ~ grants (w_db w) i p -> grants (w_db (handle o r w).1) i p ->
  (exists actor, role_request r = Some actor /\ ad_user_id actor <> i /\ grants (w_db w) (ad_user_id actor) p) \/
  by_default (w_db w) i p.
Proof.
  intros Ho Hn Hg. destruct (role_request r) as [actor|] eqn:Hr.
  - left. exists actor. assert (grants (w_db w) (ad_user_id actor) p) as Ha.
    { destruct (permits (ad_user_id actor) (str_eqb p) (w_db w)) eqn:E; [by apply str_eqb_permits|].
      destruct Hn. destruct (delegated_handle o r actor (w_db w) Hr w (delegated_refl _ _) Ho) as [_ Hd].
      apply Hd; [|done]. rewrite <- str_eqb_permits. by rewrite E. }
    split_and!; [done| |done]. by intros <-.
  - right. assert ((forall n e p l, r <> Service.Register n e p l) \/ exists n e p l, r = Service.Register n e p l)
      as [Hne|(n & e & pw & l & ->)] by (destruct r; eauto 10; left; discriminate).
    + destruct Hn. refine (within_handle (grants (w_db w)) o r Hr Hne w _ i p Hg). by intros j q.
    + assert (grown (w_db w) (w_db (handle o (Service.Register n e pw l) w).1)) as Hw.
      { unfold handle, served. apply then_pres; [|intros; tables_auto]. apply grown_register. split; by auto. }
      by destruct (gw_grants _ _ Hw i p Hg).
Qed.
End Escalation.

(** * Witnesses *)

Section Witnesses.
Import Scenario.Run Office.Office.
#[local] Existing Instance calm.
#[local] Existing Instance Pwned.toy_sha1.
#[local] Existing Instance quiet_web.

(** The administrator lets members write posts. *)
Definition extended : World :=
  (handle nowhere (SetRolePermissions admin u"member" [u"posts:read"; u"posts:write"]) office).1.

Lemma office_bob (p : str) : grants tables 8%N p -> p = u"posts:read".
Proof.
  intros (g & Hg & Hi & Hp). change (g ∈ [grant 7%N 3%N; grant 8%N 3%N; grant 7%N 4%N]) in Hg.
  change ((ur_role_id g, p) ∈ [(3%N, u"posts:read"); (4%N, u"posts:write"); (4%N, ROLES_MANAGE)]) in Hp.
  repeat (apply elem_of_cons in Hg as [->|Hg]; [try discriminate Hi|]); [|by apply not_elem_of_nil in Hg].
  cbn in Hp. apply elem_of_cons in Hp as [[= ->]|Hp]; [done|].
  by repeat (apply elem_of_cons in Hp as [Hp|Hp]; [done|]); apply not_elem_of_nil in Hp.
Qed.

(** An account that is not an administrator at all asks for the same. *)
Definition usurper : Actor := {| ad_user_id := 8%N; ad_session_id := 2%N; ad_ip := None; ad_request_id := None |}.

Lemma delegation_bounded_witness :
  let run := handle nowhere (SetRolePermissions usurper u"member" [u"posts:read"; u"posts:write"]) office in
  run.2 = Err Forbidden /\ (grants (w_db run.1) 8%N u"posts:write" <-> grants tables 8%N u"posts:write").
Proof.
  intros run. split; [vm_compute; reflexivity|].
  apply (delegation_bounded nowhere (SetRolePermissions usurper u"member" [u"posts:read"; u"posts:write"]) usurper office
           8%N u"posts:write"); [exact office_roles|reflexivity|].
  intros Hg. apply office_bob in Hg. discriminate Hg.
Defined.

Lemma no_privilege_escalation_witness :
  grants (w_db extended) 8%N u"posts:write" /\
  ((exists actor, role_request (SetRolePermissions admin u"member" [u"posts:read"; u"posts:write"]) = Some actor /\
      ad_user_id actor <> 8%N /\ grants tables (ad_user_id actor) u"posts:write") \/ by_default tables 8%N u"posts:write").
Proof.
  assert (grants (w_db extended) 8%N u"posts:write") as Hg by (apply str_eqb_permits; vm_compute; reflexivity).
  split; [exact Hg|].
  apply (no_privilege_escalation nowhere (SetRolePermissions admin u"member" [u"posts:read"; u"posts:write"]) office);
    [exact office_roles| |exact Hg].
  intros Hb. apply office_bob in Hb. discriminate Hb.
Defined.
End Witnesses.
