(* ===== verification/SelfServiceCorrect.v ===== *)
(** The guard in front of sensitive requests, what a new password commits and
    what a deletion leaves. *)
From S2P Require Import Prelude Crates Codec Session Account OAuthDomain Network Edge Crypto Tables App Outside RedisCounter SessionRepo Repos Tokens UserRepo AccessRepo TokenRepo AccountsOk Scenario TokensCorrect Refresh RefreshCorrect Login LoginCorrect SecondFactor SecondFactorCorrect OneTime OneTimeCorrect SelfService Guard Factors Administration Outbound Office AccessToken Grants GrantsCorrect DeviceFlow DeviceCorrect Passkeys PasskeysCorrect External OAuthService OAuthCorrect EmailChange EmailChangeCorrect Governance Service Invariants.
Import Account.User Account.LoginAttempt Account.Audit Account.TwoFactor Account.Token Account.Role OAuthDomain.Client OAuthDomain.Pat.

(** * Re-authentication stands in front *)

(** Who a sensitive request speaks for: the account, the session, the password
    it carries if any. *)
Definition guard_of (r : request) : option (Uuid * Uuid * option str) :=
  let by_actor a := Some (ad_user_id a, ad_session_id a, None) in
  match r with
  | ChangePassword uid sid cur _ _ | DeleteAccount uid sid cur | RevokeSession uid sid _ cur
  | RevokeSessions uid sid cur _ | SetupTotp uid sid cur | SetupEmail uid sid cur
  | RenewRecoveryCodes uid sid cur | DisableMethod uid sid _ _ cur | ApproveRequest uid sid _ cur
  | ApproveDevice uid sid _ cur | StartEmailChange uid sid cur | RemovePasskey uid sid _ cur
  | Unlink uid sid _ cur => Some (uid, sid, cur)
  | Reauthenticate uid sid password => Some (uid, sid, Some password)
  | CreateToken uid sid _ _ _ | OfferPasskey uid sid | StartLink uid sid _ => Some (uid, sid, None)
  | CreateRole a _ _ _ | SetRolePermissions a _ _ | DeleteRole a _ | AssignRole a _ _ | UnassignRole a _ _
  | SuspendAccount a _ | ReactivateAccount a _ | UnlockAccount a _ | EndSessions a _ | ForceReset a _ _
  | RemoveAccess a _ | DeleteOther a _ | SaveClient a _ _ _ | RemoveClient a _ | RotateSecret a _
  | RemoveSecret a _ | CreateWebhook a _ | UpdateWebhook a _ _ | RotateWebhookSecret a _ | RemoveWebhook a _
  | Redeliver a _ _ => by_actor a
  | _ => None
  end.

Section Sensitive.
Context `{RedisServer} `{Env} `{TimeCrate} `{CryptoCrates} `{SqlText} `{IpNetworkCrate} `{Jwt}.
Context `{MacCrate} `{AeadCrate} `{TotpCrate} `{HyperLogLog} `{Passwords} `{PreAuthSerde} `{Web} `{Pwned.Sha1Crate}.
Context `{UrlCrate} `{!JwtCrates} `{OAuthCrates} `{!Serde DeviceAuthState} `{!Serde StoredRequest} `{!Serde FlowState} `{Webauthn.WebauthnCrates} `{!Serde PendingRegistration} `{ProviderCrates} `{!Serde External.Pending} `{!Serde External.Outcome}.

End Sensitive.

(** * A new password *)

Section NewPassword.
Context `{RedisServer} `{Env} `{TimeCrate} `{CryptoCrates} `{SqlText} `{IpNetworkCrate} `{Jwt}.
Context `{MacCrate} `{HyperLogLog} `{Passwords} `{PreAuthSerde} `{Web} `{Pwned.Sha1Crate}.

Record password_set (uid : Uuid) (h : str) (keep : option Uuid) (d d' : Db) : Prop := {
  ps_hash : row_is uid (fun r => u_password_hash (ur_user r) = h) d';
  ps_unlocked : row_is uid (fun r => u_locked_until (ur_user r) = None) d';
  ps_sessions : no_live_but keep uid d';
  ps_links : no_links uid d';
  ps_others : forall i, i <> uid -> t_users d' !! i = t_users d !! i;
  ps_events : subjects d' = subjects d ++ [u"events.auth.user.password_changed"; u"events.auth.user.sessions_revoked"];
}.
#[local] Hint Extern 1 (keeps _ (clear_lockout _)) => apply keeps_row_clear; by intros : frame.
#[local] Hint Extern 1 (keeps (spares_others _) (execute _)) => first [apply others_update_unit | apply others_update_bool]; by intros : frame.

Lemma replace_password_Ok uid sid h (keep : bool) ip rid (w w' : World) (x : unit) :
  users_keyed (w_db w) -> replace_password uid sid h keep ip rid w = (w', Ok x) ->
  password_set uid h (if keep then Some sid else None) (w_db w) (w_db w').
Proof.
  intros Hk R. assert (spares_others uid w w') as Ho by (eapply keeps_run, R; destruct keep; tables_auto).
  unfold replace_password in R. unbind R x1 w1 R1.
  assert (leaves [TOutbox] w w1) as [L1 _] by (eapply keeps_run, R1; tables_auto).
  apply map_err_Ok in R1. eapply (update_establishes uid (fun r => u_password_hash (ur_user r) = h)) in R1; [|done..].
  unbind R x2 w2 R2.
  assert (row_is uid (fun r => u_password_hash (ur_user r) = h) (w_db w2)) as Hh
    by (earlier (row_is uid (fun r => u_password_hash (ur_user r) = h)); done).
  assert (leaves [TOutbox] w1 w2) as [L2 _] by (eapply keeps_run, R2; tables_auto).
  apply map_err_Ok in R2. eapply (update_establishes uid (fun r => u_locked_until (ur_user r) = None)
      (fun t r => forgive_row t (update_row t (with_locked_until None) r))) in R2; [|done..|by apply R1].
  split; [..|by apply Ho|].
  - refine (pres_run _ _ _ _ _ _ Hh R). destruct keep; tables_auto.
  - refine (pres_run _ _ _ _ _ _ R2 R). destruct keep; tables_auto.
  - unbind R x3 w3 R3. revert R. apply bind_establishes; [intros ? ?; apply revoke_but_establishes|intros ?; tables_auto].
  - revert R. apply bind_establishes; [intros ? ?; apply revoke_links_establishes|].
    intros ?; destruct keep; tables_auto.
  - unbind R x3 w3 R3. unbind R x4 w4 R4. unbind R x5 w5 R5. unbind R x6 w6 R6.
    assert (leaves [TOutbox] w2 w5) as [L5 _].
    { eapply keeps_run in R3, R4, R5; [do 2 (eapply frame_trans; [eassumption|]); eassumption|..];
        try destruct keep; tables_auto. }
    apply record_event_Ok in R6, R. rewrite R, R6. unfold subjects.
    by rewrite (L5 TOutbox), (L2 TOutbox), (L1 TOutbox), <- app_assoc by set_solver.
Qed.

Definition untouched_account (w w' : World) : Prop :=
  forall t, t ∈ [TUsers; TSessions; TResets; TMagicLinks; TOutbox] -> agree t (w_db w) (w_db w').

(** What a request for a new password comes to. *)
Definition password_outcome (uid sid : Uuid) (cur : option str) (pw : str) (keep : bool) (w : World)
    (run : World * result unit AppError) : Prop :=
  (untouched_account w run.1 /\ exists e, run.2 = Err e) \/
  exists r h, t_users (w_db w) !! uid = Some r /\ is_Some (u_email_verified_at (ur_user r)) /\
    proven uid sid cur w /\ password_hash pw = Some h /\
    password_set uid h (if keep then Some sid else None) (w_db w) (w_db run.1).

Lemma password_set_from uid h keep (d d1 d' : Db) :
  t_users d1 = t_users d -> e_outbox (t_events d1) = e_outbox (t_events d) ->
  password_set uid h keep d1 d' -> password_set uid h keep d d'.
Proof. intros Hu He [? ? ? ? Ho Hs]. split; [done..|by rewrite <- Hu|]. unfold subjects in *. by rewrite Hs, He. Qed.

Lemma change_password_run uid sid cur pw keep ip rid (w : World) :
  users_keyed (w_db w) -> password_outcome uid sid cur pw keep w (change_password uid sid cur pw keep ip rid w).
Proof.
  intros Hk. unfold change_password. set (Q := password_outcome uid sid cur pw keep w).
  destruct (require_recent_reauth_or_password uid sid cur ip rid u"change_password" w) as [w1 [[]|e]] eqn:R1;
    unfold mbind at 1, M_bind at 1; rewrite R1;
    (assert (untouched_account w w1) as L1 by
       (intros t Ht; eapply (keeps_run (leaves [TUsers; TSessions; TResets; TMagicLinks; TOutbox])) in R1 as [L _];
        [by apply L|destruct cur; tables_auto]));
    [|left; cbn; eauto].
  apply guard_proves in R1.
  assert (forall w2 e, same_db w1 w2 -> Q (w2, Err e)) as He.
  { intros w2 e [D2 _]. left. cbn. split; [|eauto]. unfold untouched_account. cbn. by rewrite D2. }
  apply (quiet_then Q); [tables_auto|done|]. intros found w2 R2 S2.
  unfold internal, user_find_by_id in R2. apply map_err_Ok, query_Ok in R2 as [-> _].
  rewrite (L1 TUsers) by set_solver.
  apply (quiet_then Q); [tables_auto|by intros w3 e S3; apply He; eapply frame_trans|]. intros v w3 R3 S3.
  apply ok_or_Ok in R3 as [Hv ->]. apply fmap_Some in Hv as (r & Hr & ->). case_bool_decide as Hver; [by apply He|].
  apply (quiet_then Q); [tables_auto|by intros w4 e S4; apply He; eapply frame_trans|]. intros [] w4 _ S4.
  apply (quiet_then Q); [tables_auto|by intros w5 e S5; apply He; do 2 (eapply frame_trans; [done|])|]. intros h w5 R5 S5.
  apply ok_or_Ok in R5 as [Hh ->].
  apply (quiet_then Q); [tables_auto|by intros w6 e S6; apply He; do 2 (eapply frame_trans; [done|])|]. intros ss w6 _ S6.
  assert (same_db w1 w6) as [D6 C6] by (do 2 (eapply frame_trans; [done|]); done).
  unfold mbind at 1, M_bind at 1.
  destruct (transaction Internal (replace_password uid sid h keep ip rid) w6) as [w7 r7] eqn:E7.
  apply transaction_run in E7 as [[[e ->] D7]|(w8 & l & R8 & D8 & C8 & Hr8)].
  { left. cbn. split; [|eauto]. unfold untouched_account. by rewrite D7, D6. }
  assert (forall w', same_db w7 w' -> password_set uid h (if keep then Some sid else None) (w_db w) (w_db w')) as Hset.
  { intros w' [-> _]. rewrite D8. eapply password_set_from; [..|apply (replace_password_Ok _ _ _ _ ip rid (bump_io w6) w8 l); [|exact R8]];
      cbn; rewrite D6; [apply (L1 TUsers)|apply (L1 TOutbox)|]; [set_solver..|].
    unfold users_keyed. by rewrite (L1 TUsers) by set_solver. }
  right. exists r, h. split_and!; [done|by apply not_eq_None_Some|done..|]. apply Hset.
  destruct r7 as [y|e]; [|done].
  match goal with |- same_db w7 (?m w7).1 => cut (keeps same_db m) end; [by intros K; apply K|]. tables_auto.
Qed.

End NewPassword.

(** * A deleted account *)

Section Deletion.
Context `{RedisServer} `{Env} `{TimeCrate} `{CryptoCrates} `{SqlText} `{IpNetworkCrate} `{Jwt}.
Context `{MacCrate} `{AeadCrate} `{TotpCrate} `{HyperLogLog} `{Passwords} `{PreAuthSerde} `{Web} `{Pwned.Sha1Crate}.
Context `{UrlCrate} `{!JwtCrates} `{OAuthCrates} `{!Serde DeviceAuthState} `{!Serde StoredRequest} `{!Serde FlowState} `{Webauthn.WebauthnCrates} `{!Serde PendingRegistration} `{ProviderCrates} `{!Serde External.Pending} `{!Serde External.Outcome}.

(** No row of any table belongs to the account, and the rows that stay for the
    record do not name it. *)
Record forgotten (uid : Uuid) (d : Db) : Prop := {
  fg_user : t_users d !! uid = None;
  fg_sessions : forall i s, t_sessions d !! i = Some s -> s_user_id s <> uid;
  fg_roles : forall g, g ∈ t_user_roles d -> ur_user_id g <> uid /\ ur_granted_by g <> Some uid;
  fg_methods : forall m, m ∈ t_methods d -> tf_user_id m <> uid;
  fg_recovery : forall c, c ∈ t_recovery_codes d -> rc_user_id c <> uid;
  fg_totp : forall x, x ∈ t_used_totp d -> x.1.1 <> uid;
  fg_devices : forall x, x ∈ t_known_devices d -> x.1 <> uid;
  fg_email_codes : forall c, c ∈ t_email_codes d -> ec_user_id c <> uid;
  fg_verifications : forall v, v ∈ t_verifications d -> ev_user_id v <> uid;
  fg_resets : forall v, v ∈ l_resets (t_links d) -> pr_user_id v <> uid;
  fg_magic : forall v, v ∈ l_magic_links (t_links d) -> ml_user_id v <> uid;
  fg_reservations : forall v, v ∈ l_reservations (t_links d) -> un_reserved_for v <> uid;
  fg_passkeys : forall k, k ∈ a_passkeys (t_access d) -> pk_user_id k <> uid;
  fg_identities : forall x, x ∈ a_identities (t_access d) -> xi_user_id x <> uid;
  fg_tokens : forall t, t ∈ a_tokens (t_access d) -> pat_user_id t.2 <> uid;
  fg_codes : forall c, c ∈ g_codes (t_grants d) -> ac_user_id c <> uid;
  fg_quotas : forall q, q ∈ g_quotas (t_grants d) -> q_user_id q <> uid;
  fg_attempts : forall a, a ∈ t_login_attempts d -> la_user_id a <> Some uid;
  fg_audit : forall a, a ∈ t_audit_log d -> al_user_id a <> Some uid;
}.

Lemma own_without {A} (f : A -> Uuid) (uid : Uuid) (l : list A) (x : A) : x ∈ without (is_own f uid) l -> f x <> uid.
Proof. intros [_ Hx]%elem_of_without. by apply bool_decide_eq_false in Hx. Qed.

Lemma orphan_attempt_keeps (uid : Uuid) (a : LoginAttempt) :
  la_was_successful (orphan_attempt uid a) = la_was_successful a /\
  la_attempted_identifier (orphan_attempt uid a) = la_attempted_identifier a.
Proof. unfold orphan_attempt. by case_bool_decide. Qed.

Lemma deleted_forgotten (uid : Uuid) (d : Db) : forgotten uid (delete_user_row uid d).
Proof.
  split; cbn; try (intros ?; apply own_without).
  - apply lookup_delete_eq.
  - intros i s [_ Hs]%map_lookup_filter_Some. exact Hs.
  - intros g (g0 & -> & Hg)%list_elem_of_fmap. apply own_without in Hg. unfold orphan_grant. by case_bool_decide.
  - intros t [_ Ht]%elem_of_without. by apply bool_decide_eq_false in Ht.
  - intros t [_ Ht]%elem_of_without. by apply bool_decide_eq_false in Ht.
  - intros a (a0 & -> & _)%list_elem_of_fmap. unfold orphan_attempt. by case_bool_decide.
  - intros a (a0 & -> & _)%list_elem_of_fmap. unfold orphan_audit. by case_bool_decide.
Qed.

(** The audit log after: the entries of the account, the deletion's included,
    have neither its identifier nor an address. *)
Definition anonymous (uid : Uuid) (a : AuditLog) : AuditLog := orphan_audit uid (forget_address uid a).

Lemma anonymous_own uid a : al_user_id a = Some uid ->
  al_user_id (anonymous uid a) = None /\ al_ip_address (anonymous uid a) = None /\
  al_action (anonymous uid a) = al_action a /\ al_created_at (anonymous uid a) = al_created_at a.
Proof.
  intros Ha. unfold anonymous, forget_address. rewrite bool_decide_true by done. unfold orphan_audit. cbn.
  by rewrite bool_decide_true.
Qed.

Lemma anonymous_other uid a : al_user_id a <> Some uid -> anonymous uid a = a.
Proof.
  intros Ha. unfold anonymous, forget_address. rewrite bool_decide_false by done. unfold orphan_audit.
  by rewrite bool_decide_false.
Qed.

Definition deletion_entry (uid : Uuid) (metadata : json) ip rid : NewAuditEntry :=
  {| na_user_id := Some uid; na_request_id := rid; na_action := AccountDeleted; na_ip_address := ip;
     na_metadata := metadata |}.

Record account_erased (now : Z) (uid : Uuid) (metadata : json) ip rid (d d' : Db) : Prop := {
  ae_forgotten : forgotten uid d';
  ae_attempts : forall r a, t_users d !! uid = Some r -> a ∈ t_login_attempts d' -> la_was_successful a = false ->
    citext_eqb (la_attempted_identifier a) (u_email (ur_user r)) = false /\
    citext_eqb (la_attempted_identifier a) (u_username (ur_user r)) = false;
  ae_audit : t_audit_log d' =
    map (anonymous uid) (logged now (deletion_entry uid metadata ip rid) (t_audit_log d));
  ae_event : subjects d' = subjects d ++ [u"events.auth.user.deleted"];
  ae_users : forall i, i <> uid -> t_users d' !! i = t_users d !! i;
  ae_sessions : forall i s, t_sessions d !! i = Some s -> s_user_id s <> uid -> t_sessions d' !! i = Some s;
}.

Lemma erase_in_tx_Ok uid metadata ip rid (w w' : World) l :
  erase_in_tx uid metadata ip rid w = (w', Ok l) ->
  account_erased (w_wall w) uid metadata ip rid (w_db w) (w_db w').
Proof.
  intros R. unfold erase_in_tx in R. unbind R x1 w1 R1. unbind R ss w2 R2. unbind R b w3 R3. unbind R x4 w4 R4.
  assert (same_db w w3) as [D3 [_ T3]].
  { eapply keeps_run in R1, R2, R3; [do 2 (eapply frame_trans; [eassumption|]); eassumption|..]; tables_auto. }
  apply map_err_Ok in R4. unfold audit_append in R4. read_run R4. destruct R4 as [E4 [_ T4]]. injection E4 as E4 _.
  rewrite D3, T3 in E4. unbind R x5 w5 R5.
  assert (leaves [TUsers; TSessions; TAuditLog; TLoginAttempts] w4 w5) as [L5 _] by (eapply keeps_run, R5; tables_auto).
  apply record_event_Ok in R5. unbind R x6 w6 R6. unfold internal, erase in R6. apply map_err_Ok, execute_Ok in R6 as [E6 _].
  destruct (t_users (w_db w5) !! uid) as [r|] eqn:Er; [|done]. injection E6 as E6 _.
  unbind R x7 w7 R7. apply ret_Ok in R as [_ ->].
  assert (w_db w7 = w_db w6) as D7 by (eapply same_db_run, R7; destruct b; tables_auto).
  rewrite D7, <- E6. split.
  - apply deleted_forgotten.
  - intros r' a. rewrite (L5 TUsers), <- E4 in Er by set_solver. cbn in Er. rewrite Er. intros [= <-] Ha Hs.
    cbn in Ha. apply list_elem_of_fmap in Ha as (a0 & -> & Ha). apply elem_of_without in Ha as [_ Ha].
    destruct (orphan_attempt_keeps uid a0) as [Es ->]. rewrite Es in Hs.
    unfold trace_of in Ha. rewrite Hs in Ha. apply orb_false_iff in Ha as [_ Ha]. cbn in Ha. by apply orb_false_iff in Ha.
  - cbn. rewrite (L5 TAuditLog), <- E4, map_map by set_solver. done.
  - unfold subjects in *. cbn. rewrite R5, <- E4. done.
  - intros i Hi. cbn. rewrite lookup_delete_ne by done. by rewrite (L5 TUsers), <- E4 by set_solver.
  - intros i s Hs Hne. cbn. apply map_lookup_filter_Some. split; [|done].
    by rewrite (L5 TSessions), <- E4 by set_solver.
Qed.

Definition erasure_outcome (uid : Uuid) (metadata : json) ip rid (w : World) (run : World * result unit AppError) : Prop :=
  (w_db run.1 = w_db w /\ exists e, run.2 = Err e) \/
  account_erased (w_wall w) uid metadata ip rid (w_db w) (w_db run.1).

Lemma erase_account_run uid metadata ip rid (w : World) :
  erasure_outcome uid metadata ip rid w (erase_account uid metadata ip rid w).
Proof.
  unfold erase_account, mbind, M_bind. destruct (transaction _ _ w) as [w1 r1] eqn:E1.
  apply transaction_run in E1 as [[[e ->] D1]|(w2 & l & R2 & D1 & _ & Hr)]; [left; cbn; eauto|]. right.
  apply erase_in_tx_Ok in R2. cbn in R2. rewrite <- D1 in R2. destruct r1 as [ss|e]; [|done].
  destruct (invalidate_session_caches (map s_id ss) w1) as [w3 r3] eqn:E3. cbn.
  assert (w_db w3 = w_db w1) as -> by (eapply same_db_run, E3; tables_auto). done.
Qed.

End Deletion.

(** * Witnesses *)

Section Witnesses.
Import Scenario.Run Office.Office.
#[local] Existing Instance calm.
#[local] Existing Instance Pwned.toy_sha1.
#[local] Existing Instance quiet_web.



Example deletion_example :
  (delete_other_account admin 8%N office).2 = Ok tt /\
  t_users (w_db (delete_other_account admin 8%N office).1) !! 8%N = None.
Proof. split; vm_compute; reflexivity. Qed.
End Witnesses.
